(* ===== verification/_CoqProject ===== *)
-Q . S2P
Prelude.v
RustStr.v
Json.v
Float64.v
Net.v
Capability.v
Phase.v
Objects.v
Store.v
StoreSafety.v
Growth.v
Deletion.v
Heartbeat.v
Nics.v
Vni.v
Vm.v
Node.v
Storage.v
Sizing.v
Placement.v
Diagnosis.v
Rooms.v
Reservation.v
Claims.v
Commit.v
Floating.v
Quota.v
AddressSpace.v
Gateways.v
Lifecycle.v
Dispatch.v
Namespaces.v
SpecDocs.v
MigrationRules.v
ClusterMigration.v
PlacePass.v
VmPass.v
DrainPass.v
VolumePass.v
Ingest.v
Images.v
CloudPlace.v
CloudPass.v
CloudSafety.v
CloudLink.v
CloudAck.v
CloudIngest.v
CloudRuns.v
AgentTypes.v
AgentPlan.v
AgentStore.v
AgentHost.v
AgentDisks.v
AgentProvision.v
AgentSim.v
AgentSteps.v
AgentRelease.v
AgentMigrate.v
AgentReconcile.v
AgentBarrier.v
AgentPass.v
AgentVolumes.v
AgentSync.v
