(* ===== verification/Prelude.v ===== *)
(** * MeisterStack: a verification development

    MeisterStack runs virtual machines over three tiers.  A cloud controller
    takes requests and binds VMs to clusters; each cluster controller binds them
    to nodes; an agent on each node runs them.  Every controller tier may have
    several replicas, which share nothing but an etcd store: objects with a spec,
    a status and a revision, written by compare-and-swap.  This development
    models the decisions the controllers make and the store protocol they make
    them over, and the agent: its planner, its database, its provisioning and
    teardown, its migrations and its reconciliation, as Rocq functions translated
    from the Rust sources, and proves what makes them correct.

    ** Files, in dependency order

    - [Prelude]: results, iterator adaptors, ordered maps, saturating integers,
      comparisons, sorting; the hint database [rust] and the tactics.
    - [RustStr]: strings as the standard library has them (split, trim, parse,
      print, [Debug]) and closed vocabularies.  [Json]: [serde_json::Value].
      [Float64]: binary64 conversion, product and truncation.
    - [Net] ([common/src/net.rs]): IPv4 ranges, their parser and printers,
      containment, overlap and the scan for a free address.
    - [Capability] ([common/src/capability.rs]): the catalogue vocabulary.
    - [Phase] ([resources/phase.rs]): the phase, reason and stamp macros, once
      and for all kinds; a kind gives two class instances.
    - [Objects] ([object.rs], [resources/mod.rs], [rest/mod.rs]): metadata, the
      object envelope, ownership, tenancy, store and API errors.
    - [Store], [StoreSafety], [Growth] ([store.rs]): the object store over etcd.
      [Deletion] ([deletion.rs]): deletes by uid and revision.  [Vni] ([vni.rs]):
      the overlay id counter.
    - [Heartbeat] ([heartbeat.rs], [mirror.rs]); [Nics] ([vni.rs],
      [floating.rs], NIC checks of the cloud API, [bind_nics] of the cluster).
    - [Vm], [Node], [Storage] ([resources/vm.rs], [node.rs], [cluster.rs],
      [pool.rs], [volume.rs], [migration.rs]): the resources, and how their phase
      is derived from recorded facts.
    - [Sizing], [Placement], [Diagnosis], [Rooms] ([scheduler.rs]): capacities and
      overcommit; candidates, constraints and strategies; why a VM is pending;
      the room on one node of a cluster.
    - [Reservation], [Claims], [Commit] ([resources/reservation.rs],
      [capacity.rs], [cluster-controller/src/reconcile/placement.rs]): the claims
      that keep replicas from overfilling a node.
    - [Floating], [Quota], [AddressSpace] ([floating.rs], [quota.rs],
      [address_space.rs], [events.rs], [cloud-controller/src/api/admission.rs],
      [cloud-controller/src/reconcile/floating.rs]): floating addresses and routed
      subnets, admission under quotas, and what a tenant's guests may send from.
    - [Gateways] ([network.rs], [cluster-controller/src/reconcile/routers.rs],
      [told.rs]): routers on gateway nodes.
    - [Lifecycle] ([lifecycle.rs], [requeue.rs], [drain.rs], [stuck.rs]): drift,
      releases, retries, drain verdicts and deadlines.
    - [Dispatch] ([cluster-controller/src/dispatch.rs], [command.rs],
      [forward.rs]): commands to nodes from any replica, and the monad of a
      reconcile pass.  [Namespaces] ([reconcile/namespaces.rs]), [SpecDocs]
      (documents of [reconcile/vms.rs] and [reconcile/volumes.rs]).
    - [MigrationRules], [ClusterMigration] ([cluster-controller/src/migration.rs],
      [migration/admission.rs]): live migrations of a cluster.
    - [PlacePass], [VmPass], [DrainPass] ([cluster-controller/src/reconcile/],
      files [placement.rs], [vms.rs], [drain.rs]): where a cluster puts a VM, one
      pass over a VM, and a drain of a node.  [VolumePass] ([volumes.rs],
      [snapshots.rs]): one pass over pools, volumes and copies.
    - [Ingest] ([cluster-controller/src/session/], files [ingest.rs], [hello.rs];
      [mirror.rs]): a node introducing itself, its status reports, the desired
      state it is sent, and its disconnect.  [Images] ([resources/image.rs],
      [ImageView] of the cluster's sessions, [cloud-controller/src/session/inventory.rs]):
      what nodes, clusters and the cloud know of an image.
    - [CloudPlace], [CloudPass], [CloudSafety] ([cloud-controller/src/reconcile/],
      files [placement.rs], [mod.rs], [vms.rs], [volumes.rs], [floating.rs];
      [resources/cluster.rs]): which cluster takes a VM, the turn of the cloud over
      a VM, drains of clusters, volumes, copies and secrets, and what it may say.
    - [CloudLink], [CloudAck] ([cluster-controller/src/cloud.rs]): the commands of
      the cloud at a cluster, the report that goes back, and what an
      acknowledgement is worth.  [CloudIngest] ([cloud-controller/src/session/],
      files [ingest.rs], [inventory.rs]): what becomes of a report at the cloud.
      [CloudRuns]: complete reports, and runs of both tiers.
    - [AgentTypes] ([agent/src/types.rs], [agent-api/src]): the VM document, its
      checks and ids, and the record the agent keeps.  [AgentPlan]
      ([reconcile/plan.rs], [reconcile/observe.rs]): the planner and the reports.
    - [AgentStore] ([agent/src/store.rs]): the agent's database, its retries and
      reopening, and migration claims.
    - [AgentHost] ([agent-api/src], [agent/src/drivers.rs]): the driver traits as
      records of operations on an abstract machine; the agent's monad.
      [AgentSim]: a machine in memory, on which the witnesses run.
    - [AgentDisks], [AgentProvision] ([agent/src/provision/]): the diffs of disks
      and NICs; the provisioning chain, hot plugging, stop and teardown.
      [AgentSteps], [AgentRelease]: the logic of these operations, and teardown.
    - [AgentMigrate] ([provision/migrate.rs]), [AgentReconcile]
      ([reconcile/act.rs], [reconcile/mod.rs]): live migration and the passes;
      [AgentBarrier] and [AgentPass]: their theorems.
    - [AgentVolumes] ([agent/src/volumes.rs]): standalone volumes and snapshots.
      [AgentSync]: two defects of the volume synchronisation.

    ** How code is modelled

    A struct is a record in a module of its name ([VmStatus.t]), an enum an
    inductive type with the source's variants, a method a function in the same
    module; [&mut self] is a function returning the new value.  Unsigned integers
    are [N] with their maximum written where an operation saturates or wraps;
    instants are [Z] nanoseconds; strings are their bytes.  [BTreeMap] is an
    association list kept in key order.  A panic is [None].  Fallible code
    returns [result].  Random uids and clocks are arguments.

    etcd and serde are not part of the sources.  [Store.Etcd] and [Store.Serde]
    name the operations used, [Store.EtcdLaws] and [Store.SerdeLaws] state what
    their documentation promises, and [StoreSafety.mem_etcd] is an instance in
    memory that satisfies the laws.  The store operations are a state monad whose
    surroundings decide what other processes write before each request and
    whether the request is answered, or fails before or after taking effect; the
    theorems quantify over all surroundings.

    The agent's node is its store and its host.  The host is an abstract type, the
    drivers are records of operations on it, and theorems quantify over both; a
    driver's timeout is one of its refusals.  The store's file lies on a disk that
    may fail any access before or after it took effect, by a schedule the theorems
    quantify over; stored bytes are opaque, with a codec whose law is that what was
    encoded decodes.  What other tasks do while an operation waits outside the
    operations lock is an arbitrary function on nodes, or one restricted by a
    named hypothesis.  A call's effect is described by facts about the host that
    the calls keep ([AgentSteps.keeps]) or bring about ([AgentRelease.ensures]).

    ** What is shown

    - Store: a retried read-modify-write is atomic, a guarded update is written
      only while its guard stands, a fence admits one writer, what is created is
      what is read, a finished delete removed the object that was judged, and
      overlay ids are never issued twice.
    - Capacity: no interleaving of claim, confirm, bind, release and reap steps
      overfills a node ([Claims.node_never_overfilled], by an invariant over the
      step relation); verdicts are stable and claim keys of the two roads are
      disjoint; within a pass no candidate is booked beyond its room.
    - Placement: the strategies choose exactly among the feasible candidates,
      volume locality is enforced exactly, and the pending reason names the first
      constraint that leaves no candidate.
    - Rooms: debits are exact, debiting every possible node is conservative, and
      every unplaced VM is accounted for.
    - Resources: stable phases need a peer's word, settling is idempotent, the
      hot-plug check, volume claims, pools, migration compatibility.
    - Networks: tenant NICs are confined to the tenant's overlay; IPv4 ranges
      parse, print, overlap and allocate as sets of addresses.
    - Addresses and quotas: a granted address was free, is the pool's and within
      the quota, and stays reserved; subnets are cut exactly; admitted VMs and
      volumes keep their tenant within its quota whatever others admit; the
      allowlist of a VM is exact and judged against complete readings.
    - Routers: replicas plan alike, one router keeps a contested address, the
      active gateway is told last, and no holder falls off the books of a pass.
    - Lifecycle: retries are paced and bounded, a binding is let go on evidence, a
      crossing is recorded once.
    - Commands and migrations: one hop to a sibling changes nothing a caller acts
      on; every command of a migration step is authorised by a compare-and-swap
      that stands when it goes ([ClusterMigration.step_authorised], for every
      store history); one reading of a record is acted on once; evidence is bound
      to its attempt; a destination is feasible.
    - Cluster passes: a VM is placed exactly by its constraints; every command of
      a pass over a VM or a volume is one it may give at that moment
      ([VmPass.vm_pass_permitted], [VolumePass.volume_turn_permitted], for every
      store history and every answer of the nodes); a guest paused for a copy is
      told to resume; a drain's progress is what its pass judged.
    - Sessions: a VM is let go only on a complete report that does not name it;
      what a node reports as attached settles a generation exactly when the pass
      over VMs finds no drift.
    - Cloud: a cluster is chosen exactly by its constraints, what one pass binds
      fits the cluster's nodes, and the next pass measures the rooms the first one
      left; every command of a turn over a VM is one the cloud may give
      ([CloudSafety.cloud_vm_permitted], for every store history and every answer of
      the clusters); what a cluster acknowledges is done
      ([CloudAck.acknowledged_is_done], for every history of its store); a complete
      list of a report lacks nothing while nothing is removed; a VM is let go by a
      cluster only on a complete report that does not name it; what a report makes
      of an image is exact.
    - Agent, migration: once a guest is being sent, no sequence of the agent's
      tasks lifts the barrier that keeps repair from starting it a second time
      ([AgentBarrier.barrier_stands], by induction on the steps); only evidence
      about the attempt does; the watcher ends; an attempt is taken once.
    - Agent, reconciliation: the planner acts within its licence and rests exactly
      on converged VMs; stale plans are dropped; a dry run previews the pass; the
      retry schedule is bounded; an unwanted VM goes; strays are swept only when
      nobody's.
    - Agent, release: a teardown forgets a VM last, spares what it references,
      and completes on a working machine; a held volume survives deletion; gone
      means released; provisioning is idempotent; a re-sent document keeps its
      disks; an acknowledged record is read back.
    - Divergences, each with a theorem: [Commit.claim_holds_skips_undecodable],
      [Nics.empty_physnet_gets_no_address_list], [Rooms.node_rooms_overstates],
      [Diagnosis.split_overlooks_unhealthy], [Sizing.allowance_rounds_up_past_2_53],
      [AgentSync.reference_detach_asks_default],
      [AgentSync.failed_detach_cannot_be_retried],
      [AgentVolumes.unreadable_volume_buried], [Gateways.stale_pass_drops_debt],
      [SpecDocs.empty_reference_undeliverable],
      [ClusterMigration.request_acknowledged_once],
      [VmPass.retry_opens_unclaimed_disk], [DrainPass.drain_complete_midmove],
      [DrainPass.drain_unbinds_started_guest], [VolumePass.lost_claims_stand],
      [VolumePass.unreadable_copy_ignored], [Ingest.teardown_report_frees_guest],
      [Ingest.snapshot_omits_stored_guest], [Images.removed_image_stays_ready],
      [CloudRuns.deleted_between_clusters_stays],
      [CloudRuns.refused_release_followed],
      [CloudRuns.deleted_while_moving_forgotten],
      [CloudRuns.passing_failure_is_final], [CloudRuns.complete_report_misses_one].

    ** Bounds

    The retry loops recurse on the bounds of the code (8 rounds of [mutate] and
    [finish_delete], 16 of [allocate], 8 of an admission and of a namespace
    assignment, 2 of an external address), so no fuel is added.  The scan for a
    free subnet has as much fuel as the range has blocks.  Revisions are
    unbounded integers; a version past [i64] does not parse and is an error of
    the update.  The protocol of [Claims] covers one node; a guest's size does not
    change between claim and binding, and a migration's claim is taken to stand
    until the migration settles.  A pass of the agent takes at most the four steps
    of the code.  The loop of a send's watcher has no bound of its own in the code,
    which sleeps 50 ms between observations until a ceiling; it is given fuel, and
    [AgentBarrier.watch_returns] shows that one unit for each 50 ms of the ceiling
    and two more are enough.

    ** What is not modelled

    Watches, heartbeat leases and time-to-live grants of the store; the loops
    around the passes of both controllers; the cloud's pass over routers and its
    stamping of addresses onto VMs; a cluster's introduction to the cloud, and the
    logs and node updates the cloud asks of it; the streams and registries of
    sessions, with the choice of the session that speaks for a cluster (what a
    cluster answers and last reported is a parameter of [CloudPass]); the HTTP
    handlers; authentication; of
    the agent, the image store, the seed images, consoles, configuration, route
    announcements and the checks of the cgroup root; the drivers and the command line, which are processes, files and system
    calls. *)
From Stdlib Require Import Ascii String NArith ZArith List Bool Lia Permutation Sorted.
From Stdlib Require Export ZifyBool.
From stdpp Require Import base list strings gmap.

Declare Scope rust_scope.
Delimit Scope rust_scope with rust.

(** ** Results: Rust's [Result<A, E>] with the error type first. *)

Inductive result (E A : Type) : Type :=
| Ok (val : A)
| Err (err : E).
Arguments Ok {E A} val.
Arguments Err {E A} err.

#[export] Instance result_ret {E} : MRet (result E) := fun _ a => Ok a.

#[export] Instance result_bind {E} : MBind (result E) :=
  fun _ _ f r => match r with Ok a => f a | Err e => Err e end.

#[export] Instance result_eq_dec {E A} `{EqDecision E, EqDecision A} : EqDecision (result E A).
Proof. solve_decision. Defined.

Definition map_err {E F A} (f : E -> F) (r : result E A) : result F A :=
  match r with Ok a => Ok a | Err e => Err (f e) end.

Definition result_ok {E A} (r : result E A) : option A :=
  match r with Ok a => Some a | Err _ => None end.

(** [Vec::is_empty]. *)
Definition is_nil {A} (l : list A) : bool := match l with [] => true | _ => false end.

(** [Option::is_some]. *)
Definition is_some {A} (o : option A) : bool := match o with Some _ => true | None => false end.

(** [Option::unwrap_or]. *)
Definition unwrap_or {A} (d : A) (o : option A) : A := match o with Some a => a | None => d end.

(** [Option::is_some_and] and [Option::is_none_or]. *)
Definition is_some_and {A} (p : A -> bool) (o : option A) : bool :=
  match o with Some a => p a | None => false end.

Definition is_none_or {A} (p : A -> bool) (o : option A) : bool :=
  match o with Some a => p a | None => true end.

(** [Option::or]. *)
Definition option_or {A} (a b : option A) : option A :=
  match a with Some _ => a | None => b end.

(** [Option::ok_or_else]. *)
Definition ok_or {E A} (e : E) (o : option A) : result E A :=
  match o with Some a => Ok a | None => Err e end.

(** [iter().map(f).collect::<Result<Vec<_>, _>>()]: the first error wins. *)
Fixpoint try_map {E A B} (f : A -> result E B) (l : list A) : result E (list B) :=
  match l with
  | [] => Ok []
  | a :: l' =>
      match f a with
      | Err e => Err e
      | Ok b => match try_map f l' with Err e => Err e | Ok bs => Ok (b :: bs) end
      end
  end.

(** ** Machine integers: [N] with the width's maximum written out. *)

Definition u8_max : N := 255.
Definition u16_max : N := 65535.
Definition u32_max : N := 4294967295.
Definition u64_max : N := 18446744073709551615.

(** [saturating_add] at a width whose maximum is [m]; [saturating_sub] is
    [N.sub], which truncates at zero. *)
Definition sat_add (m a b : N) : N := N.min (a + b) m.

Definition sat_mul (m a b : N) : N := N.min (a * b) m.

(** ** Iterator adaptors *)

(** [Iterator::max_by]: the last of the maximal elements. *)
Fixpoint max_by_from {A} (cmp : A -> A -> comparison) (best : A) (l : list A) : A :=
  match l with
  | [] => best
  | x :: l' => max_by_from cmp (match cmp best x with Gt => best | _ => x end) l'
  end.

Definition max_by {A} (cmp : A -> A -> comparison) (l : list A) : option A :=
  match l with [] => None | x :: l' => Some (max_by_from cmp x l') end.

(** [Iterator::min_by]: the first of the minimal elements. *)
Fixpoint min_by_from {A} (cmp : A -> A -> comparison) (best : A) (l : list A) : A :=
  match l with
  | [] => best
  | x :: l' => min_by_from cmp (match cmp best x with Gt => x | _ => best end) l'
  end.

Definition min_by {A} (cmp : A -> A -> comparison) (l : list A) : option A :=
  match l with [] => None | x :: l' => Some (min_by_from cmp x l') end.

(** [iter().filter_map(f)]. *)
Fixpoint filter_map {A B} (f : A -> option B) (l : list A) : list B :=
  match l with
  | [] => []
  | a :: l' => match f a with Some b => b :: filter_map f l' | None => filter_map f l' end
  end.

(** [iter().find_map(f)]. *)
Fixpoint find_map {A B} (f : A -> option B) (l : list A) : option B :=
  match l with
  | [] => None
  | a :: l' => match f a with Some b => Some b | None => find_map f l' end
  end.

(** [Vec::dedup]: runs of equal neighbours are cut to one. *)
Fixpoint dedup {A} (eqb : A -> A -> bool) (l : list A) : list A :=
  match l with
  | [] => []
  | a :: l' =>
      match dedup eqb l' with
      | [] => [a]
      | b :: r => if eqb a b then a :: r else a :: b :: r
      end
  end.

(** [sort_by]: a stable sort; an element goes before the first one it does
    not exceed, and elements are taken from the back. *)
Fixpoint sort_insert {A} (cmp : A -> A -> comparison) (x : A) (l : list A) : list A :=
  match l with
  | [] => [x]
  | y :: l' => match cmp x y with Gt => y :: sort_insert cmp x l' | _ => x :: y :: l' end
  end.

Definition sort_by {A} (cmp : A -> A -> comparison) (l : list A) : list A :=
  foldr (sort_insert cmp) [] l.

(** [Ordering::then_with]. *)
Definition then_with (a b : comparison) : comparison :=
  match a with Eq => b | _ => a end.

(** [slice::iter().enumerate()]. *)
Definition enumerate {A} (l : list A) : list (nat * A) :=
  combine (seq 0 (length l)) l.

(** ** [BTreeMap]: an association list kept in key order *)

Section btree.
Context {K V : Type} (cmp : K -> K -> comparison).

Fixpoint bt_get (k : K) (m : list (K * V)) : option V :=
  match m with
  | [] => None
  | (k', v) :: m' => match cmp k k' with Eq => Some v | _ => bt_get k m' end
  end.

Fixpoint bt_insert (k : K) (v : V) (m : list (K * V)) : list (K * V) :=
  match m with
  | [] => [(k, v)]
  | (k', v') :: m' =>
      match cmp k k' with
      | Lt => (k, v) :: (k', v') :: m'
      | Eq => (k, v) :: m'
      | Gt => (k', v') :: bt_insert k v m'
      end
  end.

Fixpoint bt_remove (k : K) (m : list (K * V)) : list (K * V) :=
  match m with
  | [] => []
  | (k', v') :: m' =>
      match cmp k k' with Eq => m' | _ => (k', v') :: bt_remove k m' end
  end.
End btree.

(** String keys, compared byte by byte as Rust compares [String]s. *)
Abbreviation smap V := (list (string * V)).
Definition sget {V} : string -> list (string * V) -> option V := bt_get String.compare.
Definition sinsert {V} : string -> V -> list (string * V) -> list (string * V) :=
  bt_insert String.compare.
Definition sremove {V} : string -> list (string * V) -> list (string * V) :=
  bt_remove String.compare.
Definition str_in (s : string) (l : list string) : bool := existsb (String.eqb s) l.

(** * Lemmas and automation *)

Create HintDb rust.
Create Rewrite HintDb rust.

(** Case analysis on boolean hypotheses, to a fixpoint. *)
Ltac bool_hyp :=
  match goal with
  | H : (_ && _) = true |- _ => apply andb_true_iff in H; destruct H
  | H : (_ || _) = false |- _ => apply orb_false_iff in H; destruct H
  | H : negb _ = true |- _ => apply negb_true_iff in H
  | H : negb _ = false |- _ => apply negb_false_iff in H
  | H : (_ =? _)%string = true |- _ => apply String.eqb_eq in H
  | H : (_ =? _)%string = false |- _ => apply String.eqb_neq in H
  | H : (_ <=? _)%N = true |- _ => apply N.leb_le in H
  | H : (_ <=? _)%N = false |- _ => apply N.leb_gt in H
  | H : (_ <? _)%N = true |- _ => apply N.ltb_lt in H
  | H : (_ <? _)%N = false |- _ => apply N.ltb_ge in H
  | H : (_ =? _)%N = true |- _ => apply N.eqb_eq in H
  | H : (_ =? _)%N = false |- _ => apply N.eqb_neq in H
  | H : (_ <=? _)%Z = true |- _ => apply Z.leb_le in H
  | H : (_ <=? _)%Z = false |- _ => apply Z.leb_gt in H
  | H : (_ <? _)%Z = true |- _ => apply Z.ltb_lt in H
  | H : (_ <? _)%Z = false |- _ => apply Z.ltb_ge in H
  end.
Ltac bool_hyps := repeat bool_hyp.

(** ** Comparison functions that are total preorders, or total orders *)

Class CmpTotal {A} (cmp : A -> A -> comparison) : Prop := {
  cmp_antisym : forall a b, cmp a b = CompOpp (cmp b a);
  cmp_le_trans : forall a b c, cmp a b <> Gt -> cmp b c <> Gt -> cmp a c <> Gt;
}.

Class CmpLeibniz {A} (cmp : A -> A -> comparison) : Prop := {
  cmp_eq_leibniz : forall a b, cmp a b = Eq -> a = b;
}.

Lemma cmp_refl {A} (cmp : A -> A -> comparison) `{!CmpTotal cmp} a : cmp a a = Eq.
Proof. pose proof (cmp_antisym a a) as H. by destruct (cmp a a). Qed.

Lemma cmp_gt_le {A} (cmp : A -> A -> comparison) `{!CmpTotal cmp} a b :
  cmp a b = Gt -> cmp b a <> Gt.
Proof. rewrite (cmp_antisym a b). by destruct (cmp b a). Qed.

Lemma cmp_eq_iff {A} (cmp : A -> A -> comparison) `{!CmpTotal cmp, !CmpLeibniz cmp} a b :
  cmp a b = Eq <-> a = b.
Proof. split; [apply cmp_eq_leibniz | intros ->; by apply cmp_refl]. Qed.

Lemma cmp_lt_trans {A} (cmp : A -> A -> comparison) `{!CmpTotal cmp} a b c :
  cmp a b = Lt -> cmp b c = Lt -> cmp a c = Lt.
Proof.
  intros Hab Hbc.
  destruct (cmp a c) eqn:Hac; [|done|].
  - assert (Hca : cmp c a <> Gt) by (rewrite cmp_antisym, Hac; done).
    assert (Hcb : cmp c b <> Gt).
    { apply (cmp_le_trans c a b); [done | by rewrite Hab]. }
    rewrite cmp_antisym, Hbc in Hcb. done.
  - exfalso. apply (cmp_le_trans a b c); [by rewrite Hab | by rewrite Hbc | done].
Qed.

#[export] Instance N_compare_total : CmpTotal N.compare.
Proof.
  split; intros.
  - by rewrite N.compare_antisym.
  - rewrite N.compare_gt_iff in *. lia.
Qed.
#[export] Instance N_compare_leibniz : CmpLeibniz N.compare.
Proof. split. apply N.compare_eq. Qed.

#[export] Instance nat_compare_total : CmpTotal Nat.compare.
Proof.
  split; intros.
  - by rewrite Nat.compare_antisym.
  - rewrite Nat.compare_gt_iff in *. lia.
Qed.
#[export] Instance nat_compare_leibniz : CmpLeibniz Nat.compare.
Proof. split. apply Nat.compare_eq. Qed.

#[export] Instance Z_compare_total : CmpTotal Z.compare.
Proof.
  split; intros.
  - by rewrite Z.compare_antisym.
  - rewrite Z.compare_gt_iff in *. lia.
Qed.
#[export] Instance Z_compare_leibniz : CmpLeibniz Z.compare.
Proof. split. apply Z.compare_eq. Qed.

Lemma ascii_compare_le_trans (a b c : ascii) :
  Ascii.compare a b <> Gt -> Ascii.compare b c <> Gt -> Ascii.compare a c <> Gt.
Proof. unfold Ascii.compare. apply cmp_le_trans. Qed.

Lemma ascii_compare_refl (a : ascii) : Ascii.compare a a = Eq.
Proof. apply N.compare_refl. Qed.

Lemma string_compare_le_trans (a b c : string) :
  String.compare a b <> Gt -> String.compare b c <> Gt -> String.compare a c <> Gt.
Proof.
  revert b c; induction a as [|x a IH]; intros [|y b] [|z c]; simpl; try done.
  destruct (Ascii.compare x y) eqn:Exy; [| |done].
  - apply Ascii.compare_eq_iff in Exy as ->.
    destruct (Ascii.compare y z); [apply IH | done | done].
  - destruct (Ascii.compare y z) eqn:Eyz; [| |done]; intros _ Hbc.
    + apply Ascii.compare_eq_iff in Eyz as ->. by rewrite Exy.
    + unfold Ascii.compare in *. rewrite N.compare_lt_iff in Exy, Eyz.
      replace (N_of_ascii x ?= N_of_ascii z)%N with Lt; [done|].
      symmetry. rewrite N.compare_lt_iff. lia.
Qed.

#[export] Instance string_compare_total : CmpTotal String.compare.
Proof. split; [apply String.compare_antisym | apply string_compare_le_trans]. Qed.
#[export] Instance string_compare_leibniz : CmpLeibniz String.compare.
Proof. split. apply String.compare_eq_iff. Qed.

(** Comparing by one key and then by another. *)
#[export] Instance then_with_total {A} (c1 c2 : A -> A -> comparison)
    `{!CmpTotal c1, !CmpTotal c2} : CmpTotal (fun a b => then_with (c1 a b) (c2 a b)).
Proof.
  split; unfold then_with.
  - intros a b. rewrite (cmp_antisym (cmp := c1) a b), (cmp_antisym (cmp := c2) a b).
    by destruct (c1 b a).
  - intros a b c Hab Hbc.
    destruct (c1 a b) eqn:E1; [| |done]; destruct (c1 b c) eqn:E2; try done.
    + assert (E3 : c1 a c = Eq).
      { assert (H1 : c1 a c <> Gt) by (apply (cmp_le_trans (cmp := c1) a b c); congruence).
        assert (H2 : c1 c a <> Gt).
        { apply (cmp_le_trans (cmp := c1) c b a); rewrite cmp_antisym; [by rewrite E2 | by rewrite E1]. }
        rewrite cmp_antisym in H2. by destruct (c1 a c). }
      rewrite E3. by apply (cmp_le_trans (cmp := c2) a b c).
    + destruct (c1 a c) eqn:E3; [|done|].
      * assert (H1 : c1 c b <> Gt).
        { apply (cmp_le_trans (cmp := c1) c a b); [rewrite cmp_antisym, E3 | rewrite E1]; done. }
        rewrite cmp_antisym, E2 in H1. done.
      * exfalso. apply (cmp_le_trans (cmp := c1) a b c); congruence.
    + destruct (c1 a c) eqn:E3; [|done|].
      * assert (H1 : c1 b a <> Gt).
        { apply (cmp_le_trans (cmp := c1) b c a); [rewrite E2 | rewrite cmp_antisym, E3]; done. }
        rewrite cmp_antisym, E1 in H1. done.
      * exfalso. apply (cmp_le_trans (cmp := c1) a b c); congruence.
    + by rewrite (cmp_lt_trans c1 a b c).
Qed.

#[export] Instance on_key_total {A B} (f : A -> B) (c : B -> B -> comparison) `{!CmpTotal c} :
  CmpTotal (fun a b => c (f a) (f b)).
Proof.
  split; intros; [apply cmp_antisym | by eapply (cmp_le_trans (cmp := c))].
Qed.

(** ** Sorting *)

Section sorting.
Context {A : Type} (cmp : A -> A -> comparison) `{!CmpTotal cmp}.

Lemma sort_insert_perm x l : Permutation (sort_insert cmp x l) (x :: l).
Proof.
  induction l as [|y l IH]; simpl; [done|].
  destruct (cmp x y); [done|done|]. rewrite IH. apply perm_swap.
Qed.

Lemma sort_by_perm l : Permutation (sort_by cmp l) l.
Proof. induction l as [|x l IH]; simpl; [done|]. by rewrite sort_insert_perm, IH. Qed.

Lemma in_sort_by x l : In x (sort_by cmp l) <-> In x l.
Proof.
  split; apply Permutation_in; [apply sort_by_perm | symmetry; apply sort_by_perm].
Qed.

Lemma sort_by_length l : length (sort_by cmp l) = length l.
Proof. apply Permutation_length, sort_by_perm. Qed.

Definition cmp_le (a b : A) : Prop := cmp a b <> Gt.

Lemma sort_insert_sorted x l :
  StronglySorted cmp_le l -> StronglySorted cmp_le (sort_insert cmp x l).
Proof.
  induction 1 as [|y l Hl IH Hy]; simpl; [by repeat constructor|].
  destruct (cmp x y) eqn:E.
  1,2: constructor; [by constructor|]; constructor; [unfold cmp_le; by rewrite E|];
    eapply List.Forall_impl; [|exact Hy]; intros z Hz; unfold cmp_le in *;
    apply (cmp_le_trans x y z); [by rewrite E|done].
  constructor; [exact IH|].
  rewrite sort_insert_perm. constructor; [by apply cmp_gt_le|done].
Qed.

Lemma sort_by_sorted l : StronglySorted cmp_le (sort_by cmp l).
Proof. induction l; simpl; [constructor | by apply sort_insert_sorted]. Qed.

(** Two sorted lists with the same elements are the same list, when the
    comparison tells those elements apart. *)
Lemma sorted_perm_eq_on l1 l2 :
  (forall a b, In a l1 -> In b l1 -> cmp a b = Eq -> a = b) ->
  StronglySorted cmp_le l1 -> StronglySorted cmp_le l2 -> Permutation l1 l2 -> l1 = l2.
Proof.
  intros Hd H1; revert l2 Hd; induction H1 as [|x l1 H1 IH Hx]; intros l2 Hd H2 HP.
  { apply Permutation_nil in HP. done. }
  destruct H2 as [|y l2 H2 Hy].
  { apply Permutation_sym, Permutation_nil in HP. done. }
  assert (x = y) as <-.
  { rewrite List.Forall_forall in Hx, Hy.
    assert (Hxin : In x (y :: l2)) by (eapply Permutation_in; [exact HP | by left]).
    assert (Hyin : In y (x :: l1)).
    { eapply Permutation_in; [symmetry; exact HP | by left]. }
    destruct Hxin as [->|Hxin]; [done|]. destruct Hyin as [->|Hyin]; [done|].
    specialize (Hx _ Hyin). specialize (Hy _ Hxin). unfold cmp_le in *.
    rewrite cmp_antisym in Hy.
    apply Hd; [by left|by right|]. by destruct (cmp x y). }
  f_equal. apply IH; [|done|by apply Permutation_cons_inv in HP].
  intros a b Ha Hb. apply Hd; by right.
Qed.

Lemma sorted_perm_eq `{!CmpLeibniz cmp} l1 l2 :
  StronglySorted cmp_le l1 -> StronglySorted cmp_le l2 -> Permutation l1 l2 -> l1 = l2.
Proof. apply sorted_perm_eq_on. intros a b _ _. apply cmp_eq_leibniz. Qed.

(** Sorting is invariant under permutation of its input: two replicas that
    read the same objects in different orders sort them alike. *)
Lemma sort_by_perm_eq `{!CmpLeibniz cmp} l1 l2 :
  Permutation l1 l2 -> sort_by cmp l1 = sort_by cmp l2.
Proof.
  intros HP. apply sorted_perm_eq; [apply sort_by_sorted | apply sort_by_sorted |].
  by rewrite !sort_by_perm.
Qed.

Lemma sort_by_id l : StronglySorted cmp_le l -> sort_by cmp l = l.
Proof.
  induction 1 as [|x l Hl IH Hx]; simpl; [done|].
  rewrite IH. destruct l as [|y l]; simpl; [done|].
  inversion Hx as [|? ? Hxy]; subst. unfold cmp_le in Hxy. by destruct (cmp x y).
Qed.

(** ** Extrema *)

Lemma max_by_from_spec best l :
  let m := max_by_from cmp best l in
  (m = best \/ In m l) /\ cmp_le best m /\ Forall (fun y => cmp_le y m) l.
Proof.
  revert best; induction l as [|x l IH]; intros best; simpl.
  { split_and!; [by left | | by constructor]. unfold cmp_le. by rewrite cmp_refl. }
  assert (Hrefl : forall z, cmp_le z z) by (intros z; unfold cmp_le; by rewrite cmp_refl).
  destruct (cmp best x) eqn:E.
  1,2: destruct (IH x) as (Hin & Hle & Hall); split_and!;
    [ destruct Hin as [->|]; right; by auto
    | unfold cmp_le in *; apply (cmp_le_trans best x _); [by rewrite E | done]
    | by constructor ].
  destruct (IH best) as (Hin & Hle & Hall); split_and!;
    [ destruct Hin as [Hin|]; auto | done | constructor; [|done] ].
  unfold cmp_le in *. apply (cmp_le_trans x best _); [by apply cmp_gt_le|done].
Qed.

Lemma max_by_some l m :
  max_by cmp l = Some m -> In m l /\ Forall (fun y => cmp_le y m) l.
Proof.
  destruct l as [|x l]; simpl; [done|]. intros [= <-].
  destruct (max_by_from_spec x l) as (Hin & Hle & Hall). split.
  - destruct Hin as [->|]; auto.
  - by constructor.
Qed.

Lemma max_by_none l : max_by cmp l = None <-> l = [].
Proof. by destruct l. Qed.

Lemma min_by_from_spec best l :
  let m := min_by_from cmp best l in
  (m = best \/ In m l) /\ cmp_le m best /\ Forall (fun y => cmp_le m y) l.
Proof.
  revert best; induction l as [|x l IH]; intros best; simpl.
  { split_and!; [by left | | by constructor]. unfold cmp_le. by rewrite cmp_refl. }
  destruct (cmp best x) eqn:E.
  1,2: destruct (IH best) as (Hin & Hle & Hall); split_and!;
    [ destruct Hin as [Hin|]; auto | done | constructor; [|done] ];
    unfold cmp_le in *; apply (cmp_le_trans _ best x); [done | by rewrite E].
  destruct (IH x) as (Hin & Hle & Hall); split_and!;
    [ destruct Hin as [->|]; right; by auto
    | unfold cmp_le in *; apply (cmp_le_trans _ x best); [done | by apply cmp_gt_le]
    | by constructor ].
Qed.

Lemma min_by_some l m :
  min_by cmp l = Some m -> In m l /\ Forall (fun y => cmp_le m y) l.
Proof.
  destruct l as [|x l]; simpl; [done|]. intros [= <-].
  destruct (min_by_from_spec x l) as (Hin & Hle & Hall). split.
  - destruct Hin as [->|]; auto.
  - by constructor.
Qed.

Lemma min_by_none l : min_by cmp l = None <-> l = [].
Proof. by destruct l. Qed.
End sorting.

(** ** [BTreeMap] *)

Section btree_lemmas.
Context {K V : Type} (cmp : K -> K -> comparison) `{!CmpTotal cmp, !CmpLeibniz cmp}.
Implicit Types (m : list (K * V)).

Definition bt_sorted m : Prop := StronglySorted (fun a b => cmp a.1 b.1 = Lt) m.

Lemma bt_get_insert_eq k v m : bt_get cmp k (bt_insert cmp k v m) = Some v.
Proof.
  induction m as [|[k' v'] m IH]; simpl; [by rewrite cmp_refl|].
  destruct (cmp k k') eqn:E; simpl; rewrite ?cmp_refl by done; rewrite ?E; done.
Qed.

Lemma bt_get_insert_ne k k' v m :
  k <> k' -> bt_get cmp k (bt_insert cmp k' v m) = bt_get cmp k m.
Proof.
  intros Hne.
  assert (Hkk : forall x : option V, match cmp k k' with Eq => Some v | _ => x end = x).
  { intros x. destruct (cmp k k') eqn:E; [|done|done]. by apply cmp_eq_iff in E. }
  induction m as [|[k1 v1] m IH]; simpl; [by rewrite Hkk|].
  destruct (cmp k' k1) eqn:E; simpl; [|by rewrite Hkk|by rewrite IH].
  apply cmp_eq_iff in E as <-; [|done..]. rewrite Hkk.
  destruct (cmp k k') eqn:E; [|done|done]. by apply cmp_eq_iff in E.
Qed.

Lemma bt_insert_twice k v w m :
  bt_insert cmp k v (bt_insert cmp k w m) = bt_insert cmp k v m.
Proof.
  induction m as [|[k' v'] m IH]; simpl; [by rewrite cmp_refl|].
  destruct (cmp k k') eqn:E; simpl; rewrite ?cmp_refl by done; rewrite ?E, ?IH; done.
Qed.

Lemma bt_insert_sorted k v m : bt_sorted m -> bt_sorted (bt_insert cmp k v m).
Proof.
  assert (Hin : forall x m, In x (bt_insert cmp k v m) -> x = (k, v) \/ In x m).
  { intros x m'; induction m' as [|[k' v'] m' IH]; simpl; [naive_solver|].
    destruct (cmp k k'); simpl; naive_solver. }
  induction 1 as [|[k' v'] m Hm IH Hall]; simpl; [by repeat constructor|].
  destruct (cmp k k') eqn:E.
  - apply cmp_eq_iff in E as ->; [|done..]. by constructor.
  - constructor; [by constructor|]. constructor; [done|].
    eapply List.Forall_impl; [|exact Hall]. intros z Hz. simpl in *. by eapply cmp_lt_trans.
  - constructor; [done|]. apply List.Forall_forall. intros z [->|Hz]%Hin; simpl.
    + by rewrite cmp_antisym, E.
    + rewrite List.Forall_forall in Hall. by apply Hall.
Qed.

Lemma bt_get_in k v m : bt_get cmp k m = Some v -> In (k, v) m.
Proof.
  induction m as [|[k' v'] m IH]; simpl; [done|].
  destruct (cmp k k') eqn:E; intros; simplify_eq; auto.
  left. by apply cmp_eq_iff in E as ->.
Qed.

Lemma bt_in_get k v m : bt_sorted m -> In (k, v) m -> bt_get cmp k m = Some v.
Proof.
  induction 1 as [|[k' v'] m Hm IH Hall]; simpl; [done|].
  intros [[= <- <-]|Hin]; [by rewrite cmp_refl|].
  rewrite List.Forall_forall in Hall. specialize (Hall _ Hin). simpl in Hall.
  rewrite (cmp_antisym k k'), Hall. simpl. by apply IH.
Qed.

Lemma bt_remove_incl k x m : In x (bt_remove cmp k m) -> In x m.
Proof. induction m as [|[k' v'] m IH]; simpl; [done|]. destruct (cmp k k'); naive_solver. Qed.

Lemma bt_remove_sorted k m : bt_sorted m -> bt_sorted (bt_remove cmp k m).
Proof.
  induction 1 as [|[k' v'] m Hm IH Hall]; simpl; [constructor|].
  destruct (cmp k k'); [done|..]; (constructor; [done|]);
    rewrite List.Forall_forall in Hall |- *; intros z Hz%bt_remove_incl; by apply Hall.
Qed.

Lemma bt_get_remove_eq k m : bt_sorted m -> bt_get cmp k (bt_remove cmp k m) = None.
Proof.
  induction 1 as [|[k' v'] m Hm IH Hall]; simpl; [done|].
  destruct (cmp k k') eqn:E; simpl; rewrite ?E; try done.
  apply cmp_eq_iff in E as ->; [|done..].
  destruct (bt_get cmp k' m) as [v|] eqn:Hg; [|done].
  apply bt_get_in in Hg. rewrite List.Forall_forall in Hall.
  specialize (Hall _ Hg). simpl in Hall. by rewrite cmp_refl in Hall.
Qed.

Lemma bt_get_remove_ne k k' m :
  k <> k' -> bt_get cmp k (bt_remove cmp k' m) = bt_get cmp k m.
Proof.
  intros Hne. induction m as [|[k1 v1] m IH]; simpl; [done|].
  destruct (cmp k' k1) eqn:E; simpl; [|by rewrite IH..].
  apply cmp_eq_iff in E as <-; [|done..].
  destruct (cmp k k') eqn:E; [|done..]. by apply cmp_eq_iff in E.
Qed.
End btree_lemmas.

(** ** Iterator adaptors *)

Lemma in_filter_map {A B} (f : A -> option B) l b :
  In b (filter_map f l) <-> exists a, In a l /\ f a = Some b.
Proof.
  induction l as [|x l IH]; simpl; [naive_solver|].
  destruct (f x) as [y|] eqn:E; simpl; rewrite IH; naive_solver.
Qed.

Lemma filter_map_app {A B} (f : A -> option B) l1 l2 :
  filter_map f (l1 ++ l2) = filter_map f l1 ++ filter_map f l2.
Proof. induction l1 as [|x l1 IH]; simpl; [done|]. rewrite IH. by destruct (f x). Qed.

Lemma find_map_some {A B} (f : A -> option B) l b :
  find_map f l = Some b ->
  exists l1 a l2, l = l1 ++ a :: l2 /\ f a = Some b /\ Forall (fun x => f x = None) l1.
Proof.
  induction l as [|x l IH]; simpl; [done|].
  destruct (f x) as [y|] eqn:E.
  - intros [= ->]. exists [], x, l. auto.
  - intros (l1 & a & l2 & -> & Ha & Hl)%IH. exists (x :: l1), a, l2. auto.
Qed.

Lemma find_map_none {A B} (f : A -> option B) l :
  find_map f l = None <-> Forall (fun x => f x = None) l.
Proof.
  induction l as [|x l IH]; simpl; [naive_solver|].
  rewrite Forall_cons, <- IH. destruct (f x); naive_solver.
Qed.

Lemma find_first {A} (p : A -> bool) l x :
  List.find p l = Some x <->
  exists l1 l2, l = l1 ++ x :: l2 /\ p x = true /\ Forall (fun y => p y = false) l1.
Proof.
  split.
  - induction l as [|y l IH]; simpl; [done|]. destruct (p y) eqn:E.
    + intros [= ->]. exists [], l. auto.
    + intros (l1 & l2 & -> & Hx & Hl)%IH. exists (y :: l1), l2. auto.
  - intros (l1 & l2 & -> & Hx & Hl). induction Hl as [|y l1 Hy Hl IH]; simpl.
    + by rewrite Hx.
    + by rewrite Hy.
Qed.

Lemma find_none_iff {A} (p : A -> bool) l :
  List.find p l = None <-> Forall (fun y => p y = false) l.
Proof.
  induction l as [|y l IH]; simpl; [naive_solver|].
  rewrite Forall_cons, <- IH. destruct (p y); naive_solver.
Qed.

Lemma existsb_false {A} (p : A -> bool) l :
  existsb p l = false <-> forall x, In x l -> p x = false.
Proof.
  induction l as [|y l IH]; simpl; [naive_solver|].
  rewrite orb_false_iff, IH. naive_solver.
Qed.

Lemma existsb_some {A} (p : A -> bool) l :
  existsb p l = true <-> exists x, In x l /\ p x = true.
Proof. apply existsb_exists. Qed.

Lemma str_in_spec s l : str_in s l = true <-> In s l.
Proof.
  unfold str_in. rewrite existsb_exists. split.
  - by intros (x & Hin & ->%String.eqb_eq).
  - intros Hin. exists s. by rewrite String.eqb_refl.
Qed.

Lemma try_map_ok {E A B} (f : A -> result E B) l bs :
  try_map f l = Ok bs <-> Forall2 (fun a b => f a = Ok b) l bs.
Proof.
  revert bs; induction l as [|a l IH]; intros bs; simpl.
  { split; [intros [= <-]; constructor | by inversion 1]. }
  destruct (f a) as [b|e] eqn:Ha.
  - destruct (try_map f l) as [bs'|e] eqn:Hl.
    + split; [intros [= <-]; constructor; [done | by apply IH]|].
      inversion 1 as [|? ? ? ? Hb Hbs]; simplify_eq. apply IH in Hbs. congruence.
    + split; [done|]. inversion 1 as [|? ? ? ? Hb Hbs]; subst. by apply IH in Hbs.
  - split; [done|]. inversion 1; congruence.
Qed.

Lemma sat_add_le m a b : (sat_add m a b <= m)%N.
Proof. unfold sat_add. lia. Qed.

Lemma sat_add_exact m a b : (a + b <= m)%N -> sat_add m a b = (a + b)%N.
Proof. unfold sat_add. lia. Qed.

#[export] Hint Resolve sat_add_le sort_by_sorted : rust.
#[export] Hint Rewrite @in_sort_by @in_filter_map str_in_spec : rust.
