(* ===== verification/RustStr.v ===== *)
(** The operations on [str] and [String] the program uses, on byte strings:
    a [string] is the UTF-8 encoding, one [ascii] per byte.  Splitting,
    stripping, trimming, joining, decimal parsing and printing, and the [{:?}]
    rendering used in error messages. *)
From Stdlib Require Import Ascii String NArith ZArith List Bool Lia.
From Stdlib Require Import DecimalString DecimalN DecimalFacts.
From stdpp Require Import base list strings.
From S2P Require Import Prelude.

(** * Definitions *)

Definition byte_of (c : ascii) : N := N_of_ascii c.

Definition str_forallb (p : ascii -> bool) (s : string) : bool :=
  forallb p (list_ascii_of_string s).

Definition str_contains_char (c : ascii) (s : string) : bool :=
  existsb (Ascii.eqb c) (list_ascii_of_string s).

(** [str::split_once] on one character: the text before and after its first
    occurrence. *)
Fixpoint split_once (c : ascii) (s : string) : option (string * string) :=
  match s with
  | EmptyString => None
  | String a s' =>
      if Ascii.eqb a c then Some (EmptyString, s')
      else match split_once c s' with
           | Some (l, r) => Some (String a l, r)
           | None => None
           end
  end.

(** [str::split] on one character: never empty. *)
Fixpoint split_char (c : ascii) (s : string) : list string :=
  match s with
  | EmptyString => [EmptyString]
  | String a s' =>
      if Ascii.eqb a c then EmptyString :: split_char c s'
      else match split_char c s' with
           | [] => [String a EmptyString]
           | h :: t => String a h :: t
           end
  end.

Fixpoint strip_prefix (p s : string) : option string :=
  match p with
  | EmptyString => Some s
  | String a p' =>
      match s with
      | String b s' => if Ascii.eqb a b then strip_prefix p' s' else None
      | EmptyString => None
      end
  end.

Definition starts_with (p s : string) : bool :=
  match strip_prefix p s with Some _ => true | None => false end.

Definition str_rev (s : string) : string :=
  string_of_list_ascii (rev (list_ascii_of_string s)).

Definition strip_suffix (p s : string) : option string :=
  match strip_prefix (str_rev p) (str_rev s) with
  | Some r => Some (str_rev r)
  | None => None
  end.

Definition str_is_empty (s : string) : bool :=
  match s with EmptyString => true | _ => false end.

Definition str_len (s : string) : N := N.of_nat (String.length s).

(** Unicode [White_Space], by the bytes of its UTF-8 encoding. *)
Definition ws1 (a : ascii) : bool :=
  let a := byte_of a in ((9 <=? a) && (a <=? 13) || (a =? 32))%N.

Definition ws2 (a b : ascii) : bool :=
  let a := byte_of a in let b := byte_of b in
  ((a =? 0xC2) && ((b =? 0x85) || (b =? 0xA0)))%N.

Definition ws3 (a b c : ascii) : bool :=
  let a := byte_of a in let b := byte_of b in let c := byte_of c in
  (((a =? 0xE1) && (b =? 0x9A) && (c =? 0x80))
   || ((a =? 0xE2) && (b =? 0x80)
       && (((0x80 <=? c) && (c <=? 0x8A)) || (c =? 0xA8) || (c =? 0xA9) || (c =? 0xAF)))
   || ((a =? 0xE2) && (b =? 0x81) && (c =? 0x9F))
   || ((a =? 0xE3) && (b =? 0x80) && (c =? 0x80)))%N.

Fixpoint trim_start (s : string) : string :=
  match s with
  | String a s1 =>
      if ws1 a then trim_start s1
      else match s1 with
           | String b s2 =>
               if ws2 a b then trim_start s2
               else match s2 with
                    | String c s3 => if ws3 a b c then trim_start s3 else s
                    | EmptyString => s
                    end
           | EmptyString => s
           end
  | EmptyString => EmptyString
  end.

(** [trim_start] on a reversed string: the bytes of an encoding come last
    first. *)
Fixpoint trim_start_rev (s : string) : string :=
  match s with
  | String a s1 =>
      if ws1 a then trim_start_rev s1
      else match s1 with
           | String b s2 =>
               if ws2 b a then trim_start_rev s2
               else match s2 with
                    | String c s3 => if ws3 c b a then trim_start_rev s3 else s
                    | EmptyString => s
                    end
           | EmptyString => s
           end
  | EmptyString => EmptyString
  end.

Definition trim_end (s : string) : string := str_rev (trim_start_rev (str_rev s)).

(** [str::trim]. *)
Definition trim (s : string) : string := trim_end (trim_start s).

(** [format!("{n}")] of an unsigned integer. *)
Definition show_N (n : N) : string := NilZero.string_of_uint (N.to_uint n).

(** Digits only, at least one. *)
Definition parse_dec (s : string) : option N :=
  match NilZero.uint_of_string s with
  | Some u => Some (N.of_uint u)
  | None => None
  end.

(** [str::parse] at an unsigned width: an optional leading [+], then digits
    whose value fits. *)
Definition parse_unsigned (max : N) (s : string) : option N :=
  let digits := match strip_prefix "+" s with Some r => r | None => s end in
  match parse_dec digits with
  | Some n => if (n <=? max)%N then Some n else None
  | None => None
  end.

Definition i64_max : Z := 9223372036854775807.

(** [str::parse::<i64>]: a sign, then digits whose value fits. *)
Definition parse_i64 (s : string) : option Z :=
  match strip_prefix "-" s with
  | Some r =>
      match parse_dec r with
      | Some n => if (Z.of_N n <=? i64_max + 1)%Z then Some (- Z.of_N n)%Z else None
      | None => None
      end
  | None =>
      match parse_unsigned (Z.to_N i64_max) s with
      | Some n => Some (Z.of_N n)
      | None => None
      end
  end.

(** [i64::to_string]. *)
Definition show_Z (z : Z) : string :=
  if (z <? 0)%Z then "-" +:+ show_N (Z.to_N (- z)) else show_N (Z.to_N z).

(** [slice::join]. *)
Fixpoint join (sep : string) (l : list string) : string :=
  match l with
  | [] => EmptyString
  | [s] => s
  | s :: l' => s +:+ sep +:+ join sep l'
  end.

Definition ascii_lower (c : ascii) : ascii :=
  let n := byte_of c in
  if ((65 <=? n) && (n <=? 90))%N then ascii_of_N (n + 32) else c.

Fixpoint to_ascii_lowercase (s : string) : string :=
  match s with
  | EmptyString => EmptyString
  | String c s' => String (ascii_lower c) (to_ascii_lowercase s')
  end.

Definition hex_digit (n : N) : ascii :=
  if (n <? 10)%N then ascii_of_N (48 + n) else ascii_of_N (87 + n).

(** The quotation mark, byte 0x22. *)
Definition dquote : ascii := "034".

(** One byte of [{:?}]; bytes above 0x7E belong to a multi-byte character,
    which is printable for every text the program quotes. *)
Definition debug_char (c : ascii) : string :=
  let n := byte_of c in
  if Ascii.eqb c dquote then String "\" (String dquote EmptyString)
  else if Ascii.eqb c "\" then "\\"
  else if (n =? 10)%N then "\n"
  else if (n =? 13)%N then "\r"
  else if (n =? 9)%N then "\t"
  else if (n =? 0)%N then "\0"
  else if (n <? 16)%N then "\u{" +:+ String (hex_digit n) "}"
  else if ((n <? 32) || (n =? 127))%N then
    "\u{" +:+ String (hex_digit (n / 16)) (String (hex_digit (n mod 16)) "}")
  else String c EmptyString.

Fixpoint debug_body (s : string) : string :=
  match s with
  | EmptyString => EmptyString
  | String c s' => debug_char c +:+ debug_body s'
  end.

(** [format!("{s:?}")]. *)
Definition debug (s : string) : string :=
  String dquote (debug_body s +:+ String dquote EmptyString).

(** * Lemmas *)

Lemma list_ascii_app s t :
  list_ascii_of_string (s +:+ t) = list_ascii_of_string s ++ list_ascii_of_string t.
Proof. induction s as [|a s IH]; simpl; [done|]. by rewrite IH. Qed.

Lemma str_rev_involutive s : str_rev (str_rev s) = s.
Proof.
  unfold str_rev.
  by rewrite list_ascii_of_string_of_list_ascii, rev_involutive,
    string_of_list_ascii_of_string.
Qed.

Lemma str_app_cons a s t : String a s +:+ t = String a (s +:+ t).
Proof. done. Qed.

Lemma str_app_nil_l t : EmptyString +:+ t = t.
Proof. done. Qed.

Lemma str_app_nil_r s : s +:+ EmptyString = s.
Proof. induction s as [|a s IH]; [done|]. by rewrite str_app_cons, IH. Qed.

Lemma str_app_assoc s t u : (s +:+ t) +:+ u = s +:+ (t +:+ u).
Proof. induction s as [|a s IH]; [done|]. by rewrite !str_app_cons, IH. Qed.

Lemma starts_with_app p a b : starts_with (p +:+ a) (p +:+ b) = starts_with a b.
Proof.
  induction p as [|c p IH]; [done|]. rewrite !str_app_cons. unfold starts_with in *. simpl.
  by rewrite Ascii.eqb_refl.
Qed.


Lemma str_contains_char_app c s t :
  str_contains_char c (s +:+ t) = str_contains_char c s || str_contains_char c t.
Proof. unfold str_contains_char. by rewrite list_ascii_app, existsb_app. Qed.

Lemma str_forallb_app p s t :
  str_forallb p (s +:+ t) = str_forallb p s && str_forallb p t.
Proof. unfold str_forallb. by rewrite list_ascii_app, forallb_app. Qed.

(** A character outside a class does not occur in a string of that class. *)
Lemma str_forallb_not_in p c s :
  str_forallb p s = true -> p c = false -> str_contains_char c s = false.
Proof.
  unfold str_forallb, str_contains_char. rewrite forallb_forall. intros Hp Hc.
  apply existsb_false. intros x Hx. apply Ascii.eqb_neq. intros <-.
  specialize (Hp _ Hx). congruence.
Qed.

Lemma str_forallb_impl (p q : ascii -> bool) s :
  (forall c, p c = true -> q c = true) -> str_forallb p s = true -> str_forallb q s = true.
Proof. unfold str_forallb. rewrite !forallb_forall. auto. Qed.

(** ** Splitting *)

Lemma split_once_none c s : split_once c s = None <-> str_contains_char c s = false.
Proof.
  unfold str_contains_char. induction s as [|a s IH]; simpl; [done|].
  rewrite Ascii.eqb_sym. destruct (Ascii.eqb c a); simpl; [done|].
  rewrite <- IH. destruct (split_once c s) as [[l r]|]; naive_solver.
Qed.

Lemma split_once_app c l r :
  str_contains_char c l = false -> split_once c (l +:+ String c r) = Some (l, r).
Proof.
  unfold str_contains_char. induction l as [|a l IH]; simpl.
  { by rewrite Ascii.eqb_refl. }
  intros [Ha Hl]%orb_false_iff. rewrite Ascii.eqb_sym, Ha. by rewrite IH.
Qed.

Lemma split_once_some c s l r :
  split_once c s = Some (l, r) -> s = l +:+ String c r /\ str_contains_char c l = false.
Proof.
  unfold str_contains_char. revert l; induction s as [|a s IH]; intros l; simpl; [done|].
  destruct (Ascii.eqb a c) eqn:E.
  { intros [= <- <-]. apply Ascii.eqb_eq in E as ->. done. }
  destruct (split_once c s) as [[l' r']|]; [|done]. intros [= <- <-].
  destruct (IH _ eq_refl) as [-> Hl]. simpl. by rewrite Ascii.eqb_sym, E, Hl.
Qed.

Lemma split_char_none c s : str_contains_char c s = false -> split_char c s = [s].
Proof.
  unfold str_contains_char. induction s as [|a s IH]; simpl; [done|].
  intros [Ha Hs]%orb_false_iff. by rewrite Ascii.eqb_sym, Ha, IH.
Qed.

Lemma split_char_app c l r :
  str_contains_char c l = false -> split_char c (l +:+ String c r) = l :: split_char c r.
Proof.
  unfold str_contains_char. induction l as [|a l IH]; simpl.
  { by rewrite Ascii.eqb_refl. }
  intros [Ha Hs]%orb_false_iff. by rewrite Ascii.eqb_sym, Ha, IH.
Qed.

Lemma strip_prefix_app p s : strip_prefix p (p +:+ s) = Some s.
Proof. induction p as [|a p IH]; simpl; [done|]. by rewrite Ascii.eqb_refl. Qed.

Lemma strip_prefix_some p s r : strip_prefix p s = Some r <-> s = p +:+ r.
Proof.
  split; [|intros ->; apply strip_prefix_app].
  revert s; induction p as [|a p IH]; intros s; simpl; [by intros [= ->]|].
  destruct s as [|b s]; [done|]. destruct (Ascii.eqb a b) eqn:E; [|done].
  apply Ascii.eqb_eq in E as ->. by intros ->%IH.
Qed.

(** ** Trimming *)

(** Printing ASCII characters other than the blank. *)
Definition visible (c : ascii) : bool := let n := byte_of c in ((33 <=? n) && (n <=? 126))%N.

Lemma visible_not_ws1 a : visible a = true -> ws1 a = false.
Proof. unfold visible, ws1. lia. Qed.

Lemma visible_not_ws2_l a b : visible a = true -> ws2 a b = false.
Proof. unfold visible, ws2. lia. Qed.

Lemma visible_not_ws2_r a b : visible b = true -> ws2 a b = false.
Proof. unfold visible, ws2. lia. Qed.

Lemma visible_not_ws3_l a b c : visible a = true -> ws3 a b c = false.
Proof. unfold visible, ws3. lia. Qed.

Lemma visible_not_ws3_r a b c : visible c = true -> ws3 a b c = false.
Proof. unfold visible, ws3. lia. Qed.

Lemma trim_start_visible a s : visible a = true -> trim_start (String a s) = String a s.
Proof.
  intros Ha. simpl. rewrite visible_not_ws1 by done. destruct s as [|b s]; [done|].
  rewrite visible_not_ws2_l by done. destruct s as [|c s]; [done|].
  by rewrite visible_not_ws3_l.
Qed.

Lemma trim_start_rev_visible a s :
  visible a = true -> trim_start_rev (String a s) = String a s.
Proof.
  intros Ha. simpl. rewrite visible_not_ws1 by done. destruct s as [|b s]; [done|].
  rewrite visible_not_ws2_r by done. destruct s as [|c s]; [done|].
  by rewrite visible_not_ws3_r.
Qed.

Lemma str_rev_visible s : str_forallb visible s = true -> str_forallb visible (str_rev s) = true.
Proof.
  unfold str_forallb, str_rev. rewrite list_ascii_of_string_of_list_ascii, !forallb_forall.
  intros H x Hx%in_rev. auto.
Qed.

(** A text without blanks or control characters is its own trimming. *)
Lemma trim_visible s : str_forallb visible s = true -> trim s = s.
Proof.
  intros H. assert (trim_start s = s) as Hs.
  { destruct s as [|a s]; [done|]. apply trim_start_visible.
    unfold str_forallb in H. simpl in H. by bool_hyps. }
  unfold trim, trim_end. rewrite Hs. apply str_rev_visible in H.
  rewrite <- (str_rev_involutive s) at 2. f_equal.
  destruct (str_rev s) as [|a r]; [done|]. apply trim_start_rev_visible.
  unfold str_forallb in H. simpl in H. by bool_hyps.
Qed.

(** ** Decimal numerals *)

Definition is_digit (c : ascii) : bool := let n := byte_of c in ((48 <=? n) && (n <=? 57))%N.

Lemma digits_of_uint u : str_forallb is_digit (NilEmpty.string_of_uint u) = true.
Proof. unfold str_forallb. induction u; simpl; auto. Qed.

Lemma show_N_digits n : str_forallb is_digit (show_N n) = true.
Proof.
  unfold show_N, NilZero.string_of_uint. destruct (N.to_uint n); apply digits_of_uint || done.
Qed.

Lemma show_N_nonempty n : show_N n <> EmptyString.
Proof. unfold show_N, NilZero.string_of_uint. by destruct (N.to_uint n). Qed.

Lemma is_digit_visible c : is_digit c = true -> visible c = true.
Proof. unfold is_digit, visible. intros. bool_hyps. lia. Qed.

Lemma to_uint_nonnil n : N.to_uint n <> Decimal.Nil.
Proof.
  destruct n as [|p]; simpl; [done|]. apply DecimalPos.Unsigned.to_uint_nonnil.
Qed.

Lemma parse_dec_show n : parse_dec (show_N n) = Some n.
Proof.
  unfold parse_dec, show_N. rewrite NilZero.usu by apply to_uint_nonnil.
  by rewrite DecimalN.Unsigned.of_to.
Qed.

Lemma strip_plus_digits s :
  str_forallb is_digit s = true -> strip_prefix "+" s = None.
Proof.
  intros Hs. destruct (strip_prefix "+" s) as [r|] eqn:E; [|done].
  by apply strip_prefix_some in E as ->.
Qed.

Lemma parse_unsigned_show max n :
  (n <= max)%N -> parse_unsigned max (show_N n) = Some n.
Proof.
  intros Hn. unfold parse_unsigned. rewrite strip_plus_digits by apply show_N_digits.
  rewrite parse_dec_show. apply N.leb_le in Hn. by rewrite Hn.
Qed.

Lemma parse_unsigned_bound max s n : parse_unsigned max s = Some n -> (n <= max)%N.
Proof.
  unfold parse_unsigned. destruct (parse_dec _) as [m|]; [|done].
  destruct (m <=? max)%N eqn:E; [|done]. intros [= <-]. by apply N.leb_le.
Qed.

Lemma parse_i64_show z : (0 <= z <= i64_max)%Z -> parse_i64 (show_Z z) = Some z.
Proof.
  intros Hz. unfold parse_i64, show_Z. destruct (z <? 0)%Z eqn:E; [lia|].
  assert (Hm : strip_prefix "-" (show_N (Z.to_N z)) = None).
  { destruct (strip_prefix _ _) eqn:Es; [|done]. apply strip_prefix_some in Es.
    pose proof (show_N_digits (Z.to_N z)) as Hd. by rewrite Es in Hd. }
  rewrite Hm, parse_unsigned_show by lia. f_equal. lia.
Qed.

(** Whatever is printed parses back to itself or, past the width, to nothing. *)
Lemma parse_i64_show_inv z r : (0 <= z)%Z -> parse_i64 (show_Z z) = Some r -> r = z.
Proof.
  intros Hz. unfold parse_i64, show_Z. destruct (z <? 0)%Z eqn:E; [lia|].
  assert (Hm : strip_prefix "-" (show_N (Z.to_N z)) = None).
  { destruct (strip_prefix _ _) eqn:Es; [|done]. apply strip_prefix_some in Es.
    pose proof (show_N_digits (Z.to_N z)) as Hd. by rewrite Es in Hd. }
  rewrite Hm. unfold parse_unsigned. rewrite strip_plus_digits by apply show_N_digits.
  rewrite parse_dec_show. destruct (_ <=? _)%N; [|done]. intros [= <-]. lia.
Qed.

Lemma show_N_inj n m : show_N n = show_N m -> n = m.
Proof. intros H. pose proof (parse_dec_show n) as Hn. rewrite H, parse_dec_show in Hn. congruence. Qed.

#[export] Hint Resolve show_N_digits show_N_nonempty is_digit_visible : rust.

(** ** Closed vocabularies

    Every enum of the program with [ALL], [as_str] and
    [parse = ALL.find(|k| k.as_str() == s)] has the same contract. *)
Class Vocabulary {A} (all : list A) (word : A -> string) : Prop := {
  vocab_complete : forall a, In a all;
  vocab_inj : forall a b, word a = word b -> a = b;
}.

Lemma vocab_parse {A} (all : list A) (word : A -> string) `{!Vocabulary all word} s a :
  List.find (fun k => String.eqb (word k) s) all = Some a <-> word a = s.
Proof.
  split.
  - intros H%find_some. destruct H as [_ H]. by apply String.eqb_eq.
  - intros <-. destruct (List.find _ _) as [b|] eqn:E.
    + apply find_some in E as [_ E%String.eqb_eq]. f_equal. by apply vocab_inj.
    + pose proof (find_none _ _ E a (vocab_complete a)) as H. simpl in H.
      by rewrite String.eqb_refl in H.
Qed.

(** Discharges [Vocabulary] for an enum by evaluating its words. *)
Ltac solve_vocabulary :=
  split; [ intros []; vm_compute; tauto | intros [] [] H; first [reflexivity | discriminate H] ].
