(* ===== verification/Json.v ===== *)
(** JSON documents as [serde_json::Value] holds them: the agent-facing part of
    a VM spec travels through the controllers in this form.  An object is a
    [BTreeMap], so an association list in key order; a number is one of
    [serde_json]'s three representations. *)
From Stdlib Require Import Ascii String NArith ZArith List Bool Lia.
From Corelib Require Import SpecFloat.
From stdpp Require Import base list strings.
From S2P Require Import Prelude.

(** * Definitions *)

Inductive number :=
| PosInt (n : N)
| NegInt (z : Z)
| Float (f : spec_float).

Inductive value :=
| Null
| Bool (b : bool)
| Number (n : number)
| Str (s : string)
| Array (l : list value)
| Object (m : list (string * value)).

(** [Value::get] with a string: a field of an object, nothing elsewhere. *)
Definition jget (v : value) (field : string) : option value :=
  match v with Object m => sget field m | _ => None end.

Definition as_u64 (v : value) : option N :=
  match v with Number (PosInt n) => Some n | _ => None end.

Definition as_i64 (v : value) : option Z :=
  match v with
  | Number (PosInt n) => if (n <=? 9223372036854775807)%N then Some (Z.of_N n) else None
  | Number (NegInt z) => Some z
  | _ => None
  end.

Definition as_str (v : value) : option string :=
  match v with Str s => Some s | _ => None end.

Definition as_bool (v : value) : option bool :=
  match v with Bool b => Some b | _ => None end.

Definition as_array (v : value) : option (list value) :=
  match v with Array l => Some l | _ => None end.

Definition as_object (v : value) : option (list (string * value)) :=
  match v with Object m => Some m | _ => None end.

Definition is_null (v : value) : bool := match v with Null => true | _ => false end.

(** [v[field] = x]: inserts into an object, turns [null] into one; indexing
    anything else panics. *)
Definition jset (v : value) (field : string) (x : value) : option value :=
  match v with
  | Object m => Some (Object (sinsert field x m))
  | Null => Some (Object [(field, x)])
  | _ => None
  end.

Definition number_eqb (a b : number) : bool :=
  match a, b with
  | PosInt x, PosInt y => (x =? y)%N
  | NegInt x, NegInt y => (x =? y)%Z
  | Float x, Float y => SFeqb x y
  | _, _ => false
  end.

(** [PartialEq for Value]. *)
Fixpoint value_eqb (a b : value) {struct a} : bool :=
  match a, b with
  | Null, Null => true
  | Bool x, Bool y => Bool.eqb x y
  | Number x, Number y => number_eqb x y
  | Str x, Str y => String.eqb x y
  | Array x, Array y =>
      (fix go (x y : list value) {struct x} : bool :=
         match x, y with
         | [], [] => true
         | v :: x', w :: y' => value_eqb v w && go x' y'
         | _, _ => false
         end) x y
  | Object x, Object y =>
      (fix go (x y : list (string * value)) {struct x} : bool :=
         match x, y with
         | [], [] => true
         | (k, v) :: x', (l, w) :: y' => String.eqb k l && value_eqb v w && go x' y'
         | _, _ => false
         end) x y
  | _, _ => false
  end.

(** * Lemmas *)

(** Induction on documents, through the members of arrays and objects. *)
Lemma value_nested_ind (P : value -> Prop) :
  P Null -> (forall b, P (Bool b)) -> (forall n, P (Number n)) -> (forall s, P (Str s)) ->
  (forall l, Forall P l -> P (Array l)) ->
  (forall m, Forall (fun kv => P kv.2) m -> P (Object m)) ->
  forall v, P v.
Proof.
  intros HN HB HNum HS HA HO.
  fix IH 1. intros [|b|n|s|l|m]; [apply HN|apply HB|apply HNum|apply HS| |].
  - apply HA. induction l as [|v l IHl]; constructor; [apply IH|apply IHl].
  - apply HO. induction m as [|[k v] m IHm]; constructor; [apply IH|apply IHm].
Qed.

(** A document has no NaN in it: [serde_json] never builds one. *)
Fixpoint json_ok (v : value) : bool :=
  match v with
  | Number (Float f) => SFeqb f f
  | Array l => forallb json_ok l
  | Object m => forallb (fun kv => json_ok kv.2) m
  | _ => true
  end.

Lemma value_eqb_refl v : json_ok v = true -> value_eqb v v = true.
Proof.
  induction v as [|b|n|s|l IH|m IH] using value_nested_ind; simpl; try done.
  - by destruct b.
  - destruct n; simpl; intros; [apply N.eqb_refl | apply Z.eqb_refl | done].
  - intros _. apply String.eqb_refl.
  - induction IH as [|v l Hv _ IHl]; simpl; [done|]. intros. bool_hyps.
    rewrite Hv by done. by apply IHl.
  - induction IH as [|[k v] m Hv _ IHm]; simpl; [done|]. intros. bool_hyps. simpl in *.
    rewrite String.eqb_refl, Hv by done. by apply IHm.
Qed.

Lemma jget_jset_eq v f x v' : jset v f x = Some v' -> jget v' f = Some x.
Proof.
  destruct v; simpl; try done; intros [= <-]; simpl.
  - unfold sget. simpl. by rewrite cmp_refl by apply _.
  - apply bt_get_insert_eq. apply _.
Qed.

Lemma jget_jset_ne v f g x v' :
  f <> g -> jset v f x = Some v' -> jget v' g = jget v g.
Proof.
  intros Hne. destruct v; simpl; try done; intros [= <-]; simpl.
  - unfold sget. simpl. destruct (String.compare g f) eqn:E; [|done..].
    apply cmp_eq_iff in E; [congruence|apply _..].
  - apply bt_get_insert_ne; [apply _..|congruence].
Qed.
