(* ===== verification/Float64.v ===== *)
(** [f64] as the admission factors use it: IEEE binary64 on [SpecFloat],
    conversion from an integer, multiplication, and the truncating saturating
    cast back.  The lemmas bound the rounding error of multiplying a count by a
    factor. *)
From Stdlib Require Import NArith ZArith List Bool Lia Zpow_facts.
From Corelib Require Import SpecFloat.
From stdpp Require Import base tactics.
From S2P Require Import Prelude.

(** * Definitions *)

Definition f64 := spec_float.
Definition f64_prec : Z := 53.
Definition f64_emax : Z := 1024.

(** [n as f64]: round to nearest, ties to even. *)
Definition f64_of_N (n : N) : f64 := binary_normalize f64_prec f64_emax (Z.of_N n) 0 false.

Definition f64_mul : f64 -> f64 -> f64 := SFmul f64_prec f64_emax.

(** [x as uN]: towards zero, saturating, NaN to zero. *)
Definition f64_trunc (max : N) (x : f64) : N :=
  match x with
  | S754_zero _ | S754_nan => 0
  | S754_infinity s => if s then 0 else max
  | S754_finite s m e =>
      if s then 0
      else N.min (Z.to_N (match e with
                          | Zneg p => Z.pos m / 2 ^ Z.pos p
                          | _ => Z.pos m * 2 ^ e
                          end)) max
  end.

Definition f64_is_finite (x : f64) : bool :=
  match x with S754_infinity _ | S754_nan => false | _ => true end.

Definition f64_zero : f64 := S754_zero false.
Definition f64_one : f64 := S754_finite false 4503599627370496 (-52).
Definition f64_four : f64 := S754_finite false 4503599627370496 (-50).


(** * Lemmas *)

Local Open Scope Z_scope.

Lemma digits2_size p : digits2_pos p = Pos.size p.
Proof. induction p as [p IH|p IH|]; simpl; rewrite ?IH; done. Qed.

Lemma digits2_bounds p :
  2 ^ (Z.pos (digits2_pos p) - 1) <= Z.pos p < 2 ^ Z.pos (digits2_pos p).
Proof.
  rewrite digits2_size. pose proof (Pos.size_gt p) as Hgt. pose proof (Pos.size_le p) as Hle.
  assert (Hgt' : Z.pos p < 2 ^ Z.pos (Pos.size p)) by (rewrite <- Pos2Z.inj_pow; lia).
  assert (Hle' : 2 ^ Z.pos (Pos.size p) <= Z.pos p~0) by (rewrite <- Pos2Z.inj_pow; lia).
  split; [|done].
  replace (Z.pos (Pos.size p)) with (Z.succ (Z.pos (Pos.size p) - 1)) in Hle' by lia.
  rewrite Z.pow_succ_r in Hle' by lia. lia.
Qed.

(** The digit count is determined by the bounds. *)
Lemma digits2_unique p d :
  0 < d -> 2 ^ (d - 1) <= Z.pos p < 2 ^ d -> Z.pos (digits2_pos p) = d.
Proof.
  intros Hd [Hlo Hhi]. destruct (digits2_bounds p) as [H1 H2].
  destruct (Z.lt_trichotomy (Z.pos (digits2_pos p)) d) as [H|[H|H]]; [|done|].
  - assert (2 ^ Z.pos (digits2_pos p) <= 2 ^ (d - 1)) by (apply Z.pow_le_mono_r; lia). lia.
  - assert (2 ^ d <= 2 ^ (Z.pos (digits2_pos p) - 1)) by (apply Z.pow_le_mono_r; lia). lia.
Qed.

Lemma iter_pos_nat {A} (f : A -> A) p x : iter_pos f p x = Nat.iter (Pos.to_nat p) f x.
Proof.
  assert (Hadd : forall a b y, Nat.iter (a + b) f y = Nat.iter a f (Nat.iter b f y)).
  { intros a b y. induction a as [|a IH]; simpl; [done|]. by rewrite IH. }
  revert x. induction p as [p IH|p IH|]; intros x; cbn [iter_pos].
  - rewrite !IH, <- Hadd, Pos2Nat.inj_xI.
    replace (S (2 * Pos.to_nat p)) with ((Pos.to_nat p + Pos.to_nat p) + 1)%nat by lia.
    by rewrite (Hadd _ 1%nat).
  - rewrite !IH, <- Hadd, Pos2Nat.inj_xO. f_equal. lia.
  - done.
Qed.

(** Shifting right [k] times divides by [2^k]; the round and sticky bits
    remember whether anything was lost. *)
Lemma shr_iter k m :
  0 <= m ->
  let r := Nat.iter k shr_1 {| shr_m := m; shr_r := false; shr_s := false |} in
  shr_m r = m / 2 ^ Z.of_nat k /\
  ((shr_r r || shr_s r)%bool = true <-> m mod 2 ^ Z.of_nat k <> 0).
Proof.
  intros Hm. induction k as [|k IH].
  { simpl. rewrite Z.div_1_r, Z.mod_1_r. done. }
  cbn zeta in *. set (r := Nat.iter k shr_1 _) in *.
  change (Nat.iter (S k) shr_1 _) with (shr_1 r).
  destruct IH as [IHm IHb]. destruct r as [q rb sb] eqn:Er. simpl in IHm, IHb.
  assert (Hk : 0 < 2 ^ Z.of_nat k) by (apply Z.pow_pos_nonneg; lia).
  assert (Hq : 0 <= q) by (rewrite IHm; apply Z.div_pos; lia).
  assert (Hmq : m = 2 ^ Z.of_nat k * q + m mod 2 ^ Z.of_nat k)
    by (rewrite IHm; apply Z.div_mod; lia).
  pose proof (Z.mod_pos_bound m (2 ^ Z.of_nat k) Hk) as Hrem.
  rewrite Nat2Z.inj_succ, Z.pow_succ_r by lia.
  assert (Hstep : forall q' b, q = 2 * q' + b -> 0 <= b < 2 ->
            m / (2 * 2 ^ Z.of_nat k) = q' /\
            m mod (2 * 2 ^ Z.of_nat k) = 2 ^ Z.of_nat k * b + m mod 2 ^ Z.of_nat k).
  { intros q' b Hqb Hb. apply Z.div_mod_unique with (b := 2 * 2 ^ Z.of_nat k).
    - left. apply Z.mod_pos_bound. lia.
    - left. nia.
    - rewrite <- Z.div_mod by lia. nia. }
  destruct q as [|[q'|q'|]|q']; simpl; [| | | |lia].
  - destruct (Hstep 0 0 ltac:(lia) ltac:(lia)) as [-> ->]. split; [done|].
    rewrite IHb. lia.
  - destruct (Hstep (Z.pos q') 1 ltac:(lia) ltac:(lia)) as [-> ->]. split; [done|].
    split; [lia|done].
  - destruct (Hstep (Z.pos q') 0 ltac:(lia) ltac:(lia)) as [-> ->]. split; [done|].
    rewrite IHb. lia.
  - destruct (Hstep 0 1 ltac:(lia) ltac:(lia)) as [-> ->]. split; [done|]. split; [lia|done].
Qed.

(** The exponent a value with [d] digits at exponent [e] is rounded to. *)
Definition target_exp (d e : Z) : Z := Z.max (d + e - 53) (-1074).

Lemma fexp_eq d e : fexp f64_prec f64_emax (d + e) = target_exp d e.
Proof. unfold fexp, target_exp, f64_prec, f64_emax, emin. lia. Qed.

Lemma shr_noop mrs e n : n <= 0 -> shr mrs e n = (mrs, e).
Proof. unfold shr. by destruct n. Qed.

Lemma shr_shift m e n :
  0 <= m -> 0 < n ->
  exists r s, shr (shr_record_of_loc m loc_Exact) e n
              = ({| shr_m := m / 2 ^ n; shr_r := r; shr_s := s |}, e + n) /\
              ((r || s)%bool = true <-> m mod 2 ^ n <> 0).
Proof.
  intros Hm Hn. destruct n as [|p|p]; [lia| |lia]. cbn [shr shr_record_of_loc].
  rewrite iter_pos_nat. pose proof (shr_iter (Pos.to_nat p) m Hm) as [H1 H2]. cbn zeta in *.
  rewrite positive_nat_Z in *.
  destruct (Nat.iter _ _ _) as [q r s]. simpl in *. subst q. exists r, s. done.
Qed.

(** A value already at its exponent is kept as it is. *)
Lemma round_exact M E :
  target_exp (Z.pos (digits2_pos M)) E <= E -> E <= 971 ->
  binary_round_aux f64_prec f64_emax false (Z.pos M) E loc_Exact = S754_finite false M E.
Proof.
  intros Ht HE. unfold binary_round_aux, shr_fexp. cbn [Zdigits2].
  rewrite fexp_eq, shr_noop by lia. cbn. change (Z.pos (digits2_pos M)) with (Zdigits2 (Z.pos M)).
  rewrite fexp_eq, shr_noop by (simpl; lia). cbn.
  replace (E <=? f64_emax - f64_prec) with true by (unfold f64_emax, f64_prec; lia). done.
Qed.

(** Truncating a finite value at a nonpositive exponent is a division. *)
Lemma trunc_finite max m e :
  e <= 0 ->
  f64_trunc max (S754_finite false m e) = N.min (Z.to_N (Z.pos m / 2 ^ (- e))) max.
Proof.
  intros He. simpl. destruct e as [|p|p]; [|lia|done].
  by rewrite Z.mul_1_r, Z.div_1_r.
Qed.

(** The second pass of rounding: the mantissa may have carried to [2^53]. *)
Lemma round_carry max m e :
  0 <= m <= 2 ^ 53 -> -1074 <= e <= 0 ->
  f64_trunc max
    (let '(mrs, e') := shr_fexp f64_prec f64_emax m e loc_Exact in
     match shr_m mrs with
     | 0 => S754_zero false
     | Z.pos p => if e' <=? f64_emax - f64_prec then S754_finite false p e' else S754_infinity false
     | Z.neg _ => S754_nan
     end) = N.min (Z.to_N (m / 2 ^ (- e))) max.
Proof.
  intros [Hm0 Hm] He. unfold shr_fexp. destruct m as [|p|p]; [| |lia].
  { cbn [Zdigits2]. rewrite fexp_eq, shr_noop by (unfold target_exp; lia).
    cbn [shr_m shr_record_of_loc f64_trunc]. rewrite Z.div_0_l by (apply Z.pow_nonzero; lia).
    simpl. by rewrite N.min_0_l. }
  cbn [Zdigits2]. rewrite fexp_eq. destruct (digits2_bounds p) as [Hlo Hhi].
  destruct (Z.eq_dec (Z.pos p) (2 ^ 53)) as [Hc|Hc].
  - assert (p = 9007199254740992%positive) as -> by (change (2 ^ 53) with 9007199254740992 in Hc; lia).
    replace (target_exp _ _ - e) with 1 by (unfold target_exp; simpl; lia). cbn [shr].
    replace (iter_pos shr_1 1 (shr_record_of_loc 9007199254740992 loc_Exact))
      with {| shr_m := 4503599627370496; shr_r := false; shr_s := false |} by done.
    cbn [shr_m].
    replace (e + 1 <=? f64_emax - f64_prec) with true by (unfold f64_emax, f64_prec; lia).
    destruct (Z.eq_dec e 0) as [->|Hne]; [done|].
    rewrite trunc_finite by lia. do 2 f_equal.
    replace (- e) with (Z.succ (- (e + 1))) by lia. rewrite Z.pow_succ_r by lia.
    change 9007199254740992 with (2 * 4503599627370496).
    rewrite Z.div_mul_cancel_l; [done | apply Z.pow_nonzero; lia | lia].
  - assert (Z.pos (digits2_pos p) <= 53).
    { destruct (Z.le_gt_cases (Z.pos (digits2_pos p)) 53); [done|].
      assert (2 ^ 53 <= 2 ^ (Z.pos (digits2_pos p) - 1)) by (apply Z.pow_le_mono_r; lia). lia. }
    rewrite shr_noop by (unfold target_exp; lia). cbn [shr_m shr_record_of_loc].
    replace (e <=? f64_emax - f64_prec) with true by (unfold f64_emax, f64_prec; lia).
    by rewrite trunc_finite by lia.
Qed.

Lemma round_nearest_cases m l :
  round_nearest_even m l = m \/ (round_nearest_even m l = m + 1 /\ l <> loc_Exact).
Proof.
  destruct l as [|[]]; simpl; [by left|destruct (Z.even m)|by left|]; auto; right; done.
Qed.

(** Rounding a positive value and truncating it: the quotient, or one more
    when something was lost. *)
Lemma round_shift max M E :
  let e := target_exp (Z.pos (digits2_pos M)) E in
  E < e <= 0 ->
  exists m, (m = Z.pos M / 2 ^ (e - E) \/
             (m = Z.pos M / 2 ^ (e - E) + 1 /\ Z.pos M mod 2 ^ (e - E) <> 0)) /\
    f64_trunc max (binary_round_aux f64_prec f64_emax false (Z.pos M) E loc_Exact)
    = N.min (Z.to_N (m / 2 ^ (- e))) max.
Proof.
  intros e He. unfold binary_round_aux at 1. unfold shr_fexp at 1. cbn [Zdigits2].
  rewrite fexp_eq. fold e.
  destruct (shr_shift (Z.pos M) E (e - E)) as (r & s & -> & Hb); [lia|lia|].
  cbn [shr_m]. set (q := Z.pos M / 2 ^ (e - E)) in *.
  set (l := loc_of_shr_record _) in *.
  assert (Hl : l <> loc_Exact -> Z.pos M mod 2 ^ (e - E) <> 0).
  { intros Hne. apply Hb. unfold l in Hne. by destruct r, s. }
  replace (E + (e - E)) with e by lia.
  assert (Hq : 0 <= q < 2 ^ 53).
  { split; [apply Z.div_pos; [lia|apply Z.pow_pos_nonneg; lia]|].
    apply Z.div_lt_upper_bound; [apply Z.pow_pos_nonneg; lia|].
    rewrite <- Z.pow_add_r by lia. destruct (digits2_bounds M) as [_ Hhi].
    eapply Z.lt_le_trans; [exact Hhi|]. apply Z.pow_le_mono_r; [lia|].
    unfold e, target_exp. lia. }
  exists (round_nearest_even q l). split.
  - destruct (round_nearest_cases q l) as [->|[-> Hne]]; auto.
  - apply round_carry.
    + destruct (round_nearest_cases q l) as [->|[-> Hne]]; lia.
    + unfold e, target_exp in *. lia.
Qed.

Lemma shift_pos_spec d p : Z.pos (Pos.iter xO p d) = Z.pos p * 2 ^ Z.pos d.
Proof.
  change (Pos.iter xO p d) with (shift_pos d p). rewrite shift_pos_correct. apply Z.mul_comm.
Qed.

(** A count below [2^53] converts exactly, to a mantissa of 53 digits. *)
Lemma of_N_spec n :
  (0 < n < 2 ^ 53)%N ->
  exists m e, f64_of_N n = S754_finite false m e /\ -53 < e <= 0 /\
    Z.pos m = Z.of_N n * 2 ^ (- e) /\ Z.pos (digits2_pos m) = 53.
Proof.
  intros Hn. destruct n as [|p]; [lia|]. unfold f64_of_N. cbn [Z.of_N binary_normalize].
  unfold binary_round. rewrite fexp_eq. set (d := Z.pos (digits2_pos p)).
  destruct (digits2_bounds p) as [Hlo Hhi]. fold d in Hlo, Hhi.
  assert (Hd : 1 <= d <= 53).
  { split; [unfold d; lia|]. destruct (Z.le_gt_cases d 53); [done|].
    assert (2 ^ 53 <= 2 ^ (d - 1)) by (apply Z.pow_le_mono_r; lia).
    assert (Z.pos p < 2 ^ 53) by (change (2 ^ 53) with (Z.of_N (2 ^ 53)); lia). lia. }
  replace (target_exp d 0) with (d - 53) by (unfold target_exp; lia).
  unfold shl_align. rewrite Z.sub_0_r.
  assert (Hex : forall m, Z.pos m = Z.pos p * 2 ^ (53 - d) ->
    binary_round_aux f64_prec f64_emax false (Z.pos m) (d - 53) loc_Exact
    = S754_finite false m (d - 53) /\ Z.pos (digits2_pos m) = 53).
  { intros m Hm. assert (Hdig : Z.pos (digits2_pos m) = 53).
    { apply digits2_unique; [lia|]. rewrite Hm.
      assert (H53 : 2 ^ 53 = 2 ^ d * 2 ^ (53 - d)) by (rewrite <- Z.pow_add_r by lia; f_equal; lia).
      assert (H52 : 2 ^ (53 - 1) = 2 ^ (d - 1) * 2 ^ (53 - d))
        by (rewrite <- Z.pow_add_r by lia; f_equal; lia).
      rewrite H52, H53.
      assert (0 < 2 ^ (53 - d)) by (apply Z.pow_pos_nonneg; lia). nia. }
    split; [|done]. apply round_exact; [rewrite Hdig; unfold target_exp; lia|lia]. }
  destruct (d - 53) as [|k|k] eqn:Ed; [|lia|].
  - replace (53 - d) with 0 in Hex by lia. rewrite Z.pow_0_r, Z.mul_1_r in Hex.
    destruct (Hex p eq_refl) as [-> Hp]. exists p, 0. split_and!; [done|lia|lia|simpl; lia|done].
  - replace (53 - d) with (Z.pos k) in Hex by lia.
    destruct (Hex _ (shift_pos_spec k p)) as [-> Hp].
    exists (Pos.iter xO p k), (Z.neg k). rewrite shift_pos_spec.
    split_and!; [done|lia|lia|done|done].
Qed.

(** Truncation after rounding never exceeds an integer bound below [2^53]. *)
Lemma round_trunc_le max M E n :
  E <= 0 -> 0 <= n < 2 ^ 53 -> Z.pos M <= n * 2 ^ (- E) ->
  (f64_trunc max (binary_round_aux f64_prec f64_emax false (Z.pos M) E loc_Exact) <= Z.to_N n)%N.
Proof.
  intros HE Hn HM. destruct (digits2_bounds M) as [Hlo Hhi].
  set (d := Z.pos (digits2_pos M)) in *. set (e := target_exp d E).
  assert (HpE : 0 < 2 ^ (- E)) by (apply Z.pow_pos_nonneg; lia).
  assert (Hdiv : Z.pos M / 2 ^ (- E) <= n) by (apply Z.div_le_upper_bound; lia).
  assert (He : e <= 0).
  { assert (Hlt : 2 ^ (d - 1) < 2 ^ (53 - E)).
    { replace (53 - E) with (53 + (- E)) by lia. rewrite Z.pow_add_r by lia. nia. }
    apply Z.pow_lt_mono_r_iff in Hlt; [unfold e, target_exp; lia|lia|unfold d; lia]. }
  destruct (Z.le_gt_cases e E) as [HeE|HeE].
  - rewrite round_exact by (fold d e; lia). rewrite trunc_finite by done. lia.
  - destruct (round_shift max M E) as (m & Hm & ->); [fold d e; lia|]. fold d e in Hm |- *.
    assert (Hps : 0 < 2 ^ (e - E)) by (apply Z.pow_pos_nonneg; lia).
    assert (Hpe : 0 < 2 ^ (- e)) by (apply Z.pow_pos_nonneg; lia).
    assert (Hsplit : 2 ^ (- E) = 2 ^ (e - E) * 2 ^ (- e)).
    { rewrite <- Z.pow_add_r by lia. f_equal. lia. }
    assert (m <= n * 2 ^ (- e)).
    { pose proof (Z.div_mod (Z.pos M) (2 ^ (e - E)) ltac:(lia)) as Hdm.
      pose proof (Z.mod_pos_bound (Z.pos M) (2 ^ (e - E)) Hps) as Hmb.
      destruct Hm as [->|[-> Hrem]]; nia. }
    assert (m / 2 ^ (- e) <= n) by (apply Z.div_le_upper_bound; lia). lia.
Qed.

(** A factor of at most one: its mantissa and exponent. *)
Definition at_most_one (m : positive) (e : Z) : Prop := Z.pos m <= 2 ^ (- e) /\ e <= 0.

Lemma mul_trunc_le max n m e :
  (n < 2 ^ 53)%N -> at_most_one m e ->
  (f64_trunc max (f64_mul (f64_of_N n) (S754_finite false m e)) <= n)%N.
Proof.
  intros Hn [Hm He]. destruct (N.eq_dec n 0) as [->|Hnz]; [done|].
  destruct (of_N_spec n) as (mx & ex & -> & Hex & Hmx & _); [lia|].
  cbn [f64_mul SFmul xorb]. rewrite <- (N2Z.id n). apply round_trunc_le.
  - lia.
  - change (2 ^ 53) with (Z.of_N (2 ^ 53)). lia.
  - rewrite Pos2Z.inj_mul, Hmx. replace (- (ex + e)) with (- ex + - e) by lia.
    rewrite Z.pow_add_r by lia. nia.
Qed.

(** Multiplying by a power of two is exact while the product stays below
    [2^53], up to the saturation of the cast. *)
Lemma mul_pow2_exact max n k :
  (n * 2 ^ k < 2 ^ 53)%N ->
  f64_trunc max (f64_mul (f64_of_N n) (S754_finite false 4503599627370496 (Z.of_N k - 52)))
  = N.min (n * 2 ^ k) max.
Proof.
  intros Hn. destruct (N.eq_dec n 0) as [->|Hnz]; [by rewrite N.mul_0_l, N.min_0_l|].
  assert (Hk1 : (1 <= 2 ^ k)%N) by (pose proof (N.pow_nonzero 2 k); lia).
  destruct (of_N_spec n) as (mx & ex & -> & Hex & Hmx & Hdig); [nia|].
  cbn [f64_mul SFmul xorb]. set (M := (mx * 4503599627370496)%positive).
  destruct (digits2_bounds mx) as [Hlo Hhi]. rewrite Hdig in Hlo, Hhi.
  assert (HM : Z.pos M = Z.pos mx * 2 ^ 52) by done.
  assert (Hd : Z.pos (digits2_pos M) = 105).
  { apply digits2_unique; [lia|]. rewrite HM.
    change (2 ^ 105) with (2 ^ 53 * 2 ^ 52). change (2 ^ (105 - 1)) with (2 ^ (53 - 1) * 2 ^ 52).
    nia. }
  set (E := ex + (Z.of_N k - 52)).
  assert (HN : Z.of_N (n * 2 ^ k) = Z.of_N n * 2 ^ Z.of_N k)
    by (by rewrite N2Z.inj_mul, N2Z.inj_pow).
  assert (Hek : ex + Z.of_N k <= 0).
  { assert (Hlt : 2 ^ (52 + Z.of_N k) < 2 ^ (53 + - ex)); [|apply Z.pow_lt_mono_r_iff in Hlt; lia].
    rewrite !Z.pow_add_r by lia. change (53 - 1) with 52 in Hlo.
    assert (0 < 2 ^ (- ex)) by (apply Z.pow_pos_nonneg; lia).
    assert (Z.of_N n * 2 ^ Z.of_N k < 2 ^ 53)
      by (rewrite <- HN; change (2 ^ 53) with (Z.of_N (2 ^ 53)); lia).
    assert (0 < 2 ^ Z.of_N k) by (apply Z.pow_pos_nonneg; lia). nia. }
  assert (Ht : target_exp (Z.pos (digits2_pos M)) E = ex + Z.of_N k)
    by (rewrite Hd; unfold target_exp, E; lia).
  destruct (round_shift max M E) as (m & Hm & ->); [rewrite Ht; unfold E; lia|].
  rewrite Ht in *. replace (ex + Z.of_N k - E) with 52 in Hm by (unfold E; lia).
  assert (m = Z.pos mx) as ->.
  { rewrite HM, Z.mod_mul, Z.div_mul in Hm by lia. by destruct Hm as [->|[_ []]]. }
  f_equal. apply N2Z.inj. rewrite HN, Z2N.id by (apply Z.div_pos; [lia|apply Z.pow_pos_nonneg; lia]).
  rewrite Hmx. replace (- ex) with (Z.of_N k + - (ex + Z.of_N k)) by lia.
  rewrite Z.pow_add_r, Z.mul_assoc by lia. apply Z.div_mul. apply Z.pow_nonzero; lia.
Qed.
