(* ===== verification/Net.v ===== *)
(** IPv4 ranges: [src/shared/common/src/net.rs].  An [Ipv4Addr] is its [u32]
    value.  The file models parsing of CIDRs, single addresses and inclusive
    ranges, the containment, overlap and allocation predicates, the scan for
    the first free address, and the two printed forms; the theorems relate the
    predicates to the sets of addresses they stand for. *)
From Stdlib Require Import Ascii String NArith ZArith List Bool Lia.
From stdpp Require Import base list strings.
From S2P Require Import Prelude RustStr.
Local Open Scope N_scope.

(** * [std::net::Ipv4Addr] *)

Module Ipv4Addr.
Definition t := N.

Definition from_octets (a b c d : N) : N := a * 16777216 + b * 65536 + c * 256 + d.

Definition octets (n : N) : list N :=
  [n / 16777216; n / 65536 mod 256; n / 256 mod 256; n mod 256].

(** [Display for Ipv4Addr]. *)
Definition to_string (n : N) : string := join "." (map show_N (octets n)).

(** An octet as the standard library reads it: one to three digits, no
    leading zero, at most 255. *)
Definition parse_octet (s : string) : option N :=
  if (3 <? str_len s) || (starts_with "0" s && (1 <? str_len s)) then None
  else match parse_dec s with
       | Some n => if n <=? 255 then Some n else None
       | None => None
       end.

(** [FromStr for Ipv4Addr]. *)
Definition parse (s : string) : option N :=
  match map parse_octet (split_char "." s) with
  | [Some a; Some b; Some c; Some d] => Some (from_octets a b c d)
  | _ => None
  end.
End Ipv4Addr.

(** * [Ipv4Range] *)

Record Ipv4Range := {
  start : N;
  end_ : N;
  edges_reserved : bool;
}.

Inductive RangeError :=
| Empty
| Malformed (s : string)
| Inverted (s : string)
| PrefixTooLong (s : string).

#[export] Instance Ipv4Range_eq_dec : EqDecision Ipv4Range.
Proof. solve_decision. Defined.
#[export] Instance RangeError_eq_dec : EqDecision RangeError.
Proof. solve_decision. Defined.

Definition range_error_to_string (e : RangeError) : string :=
  match e with
  | Empty => "an address range cannot be empty"
  | Malformed s =>
      debug s +:+ " is not an address range; write a cidr (10.255.0.0/16), a single address (203.0.113.7) or a range (203.0.113.8-203.0.113.11)"
  | Inverted s => debug s +:+ " ends before it starts"
  | PrefixTooLong s => debug s +:+ " has a prefix length above 32"
  end.

Definition contains (r : Ipv4Range) (addr : N) : bool :=
  (start r <=? addr) && (addr <=? end_ r).

Definition overlaps (r other : Ipv4Range) : bool :=
  (start r <=? end_ other) && (start other <=? end_ r).

Definition covers (r other : Ipv4Range) : bool :=
  (start r <=? start other) && (end_ other <=? end_ r).

Definition len (r : Ipv4Range) : N := (end_ r - start r) + 1.

(** The inclusive range [from..=to], empty when [to] is below [from]. *)
Definition addr_range (from to : N) : list N :=
  map (fun i => from + N.of_nat i) (seq 0 (N.to_nat (to + 1 - from))).

Definition allocatable (r : Ipv4Range) : list N :=
  if edges_reserved r then addr_range (start r + 1) (end_ r - 1)
  else addr_range (start r) (end_ r).

Definition is_allocatable (r : Ipv4Range) (addr : N) : bool :=
  if negb (contains r addr) then false
  else negb (edges_reserved r) || (negb (addr =? start r) && negb (addr =? end_ r)).

(** [Display for Ipv4Range]; also [to_nft]. *)
Definition range_to_string (r : Ipv4Range) : string :=
  if start r =? end_ r then Ipv4Addr.to_string (start r)
  else Ipv4Addr.to_string (start r) +:+ "-" +:+ Ipv4Addr.to_string (end_ r).

Definition to_nft (r : Ipv4Range) : string := range_to_string r.

Fixpoint is_pow2_pos (p : positive) : bool :=
  match p with xH => true | xO p' => is_pow2_pos p' | xI _ => false end.

Definition is_power_of_two (n : N) : bool :=
  match n with N0 => false | Npos p => is_pow2_pos p end.

Fixpoint ctz_pos (p : positive) : N :=
  match p with xO p' => 1 + ctz_pos p' | _ => 0 end.

(** [u64::trailing_zeros]. *)
Definition trailing_zeros (n : N) : N :=
  match n with N0 => 64 | Npos p => ctz_pos p end.

Definition to_cidr (r : Ipv4Range) : option string :=
  let size := (end_ r - start r) + 1 in
  if negb (is_power_of_two size) then None
  else if negb (start r mod size =? 0) then None
  else Some (Ipv4Addr.to_string (start r) +:+ "/" +:+ show_N (32 - trailing_zeros size)).

Definition parse_addr (part whole : string) : result RangeError N :=
  ok_or (Malformed whole) (Ipv4Addr.parse (trim part)).

(** [!m] at [u32]. *)
Definition u32_not (m : N) : N := N.lxor m u32_max.

Definition prefix_mask (prefix : N) : N :=
  if prefix =? 0 then 0 else N.land (N.shiftl u32_max (32 - prefix)) u32_max.

(** The arm of [from_str] for [addr/prefix], once both are read. *)
Definition cidr_range (addr prefix : N) : Ipv4Range :=
  let mask := prefix_mask prefix in
  let base := N.land addr mask in
  {| start := base; end_ := N.lor base (u32_not mask); edges_reserved := prefix <=? 30 |}.

Definition range_from_str (s : string) : result RangeError Ipv4Range :=
  let text := trim s in
  if str_is_empty text then Err Empty
  else match split_once "-" text with
  | Some (a, b) =>
      start ← parse_addr a text;
      end' ← parse_addr b text;
      if end' <? start then Err (Inverted text)
      else Ok {| start := start; end_ := end'; edges_reserved := false |}
  | None =>
  match split_once "/" text with
  | Some (addr, prefix) =>
      addr ← parse_addr addr text;
      prefix ← ok_or (Malformed text) (parse_unsigned u32_max (trim prefix));
      if 32 <? prefix then Err (PrefixTooLong text) else Ok (cidr_range addr prefix)
  | None =>
      addr ← parse_addr text text;
      Ok {| start := addr; end_ := addr; edges_reserved := false |}
  end end.

(** * [Ipv4Ranges] *)

Module Ipv4Ranges.
Definition t := list Ipv4Range.

Definition parse (entries : list string) : result RangeError t :=
  try_map range_from_str entries.

Definition is_empty (rs : t) : bool := match rs with [] => true | _ => false end.

Definition contains (rs : t) (addr : N) : bool := existsb (fun r => Net.contains r addr) rs.

Definition overlaps (rs other : t) : bool :=
  existsb (fun a => existsb (fun b => Net.overlaps a b) other) rs.

Definition overlaps_range (rs : t) (other : Ipv4Range) : bool :=
  existsb (fun a => Net.overlaps a other) rs.

Definition len (rs : t) : N := foldr (fun r n => Net.len r + n) 0 rs.

(** [taken] is a [BTreeSet<Ipv4Addr>]: a set given by its members. *)
Definition first_free (rs : t) (taken : list N) : option N :=
  List.find (fun a => negb (existsb (N.eqb a) taken)) (flat_map allocatable rs).

Definition is_allocatable (rs : t) (addr : N) : bool :=
  existsb (fun r => Net.is_allocatable r addr) rs.

Definition to_nft (rs : t) : string := join ", " (map Net.to_nft rs).
End Ipv4Ranges.

(** * Lemmas *)

(** What every parsed range satisfies. *)
Definition range_wf (r : Ipv4Range) : Prop :=
  start r <= end_ r /\ end_ r <= u32_max /\ (edges_reserved r = true -> start r + 3 <= end_ r).

Lemma in_addr_range from to a : In a (addr_range from to) <-> from <= a /\ a <= to.
Proof.
  unfold addr_range. rewrite in_map_iff. split.
  - intros (i & <- & Hi%in_seq). lia.
  - intros [Hf Ht]. exists (N.to_nat (a - from)). split; [lia|]. apply in_seq. lia.
Qed.

Lemma in_allocatable r a :
  range_wf r -> (In a (allocatable r) <-> is_allocatable r a = true).
Proof.
  intros (Hse & Hmax & He). unfold allocatable, is_allocatable, contains.
  destruct (edges_reserved r); rewrite in_addr_range; [specialize (He eq_refl)|]; simpl;
    destruct (_ && _) eqn:E; simpl; lia.
Qed.

(** ** The mask *)

Lemma prefix_mask_testbit prefix i :
  prefix <= 32 ->
  N.testbit (prefix_mask prefix) i = (32 - prefix <=? i) && (i <? 32).
Proof.
  intros Hp. unfold prefix_mask. destruct (prefix =? 0) eqn:E.
  { rewrite N.bits_0. lia. }
  change u32_max with (N.ones 32). rewrite N.land_spec.
  destruct (N.lt_ge_cases i 32) as [Hi|Hi].
  - rewrite N.ones_spec_low by done.
    destruct (N.lt_ge_cases i (32 - prefix)) as [Hlt|Hge].
    + rewrite N.shiftl_spec_low by done. lia.
    + rewrite N.shiftl_spec_high' by done. rewrite N.ones_spec_low by lia. lia.
  - rewrite (N.ones_spec_high 32 i) by done. lia.
Qed.

Lemma u32_not_mask prefix :
  prefix <= 32 -> u32_not (prefix_mask prefix) = N.ones (32 - prefix).
Proof.
  intros Hp. apply N.bits_inj. intros i. unfold u32_not. change u32_max with (N.ones 32).
  rewrite N.lxor_spec, prefix_mask_testbit by done.
  destruct (N.lt_ge_cases i 32) as [Hi|Hi].
  - rewrite (N.ones_spec_low 32 i) by done.
    destruct (N.lt_ge_cases i (32 - prefix)) as [Hlt|Hge].
    + rewrite N.ones_spec_low by done. lia.
    + rewrite N.ones_spec_high by done. lia.
  - rewrite !N.ones_spec_high by lia. lia.
Qed.

Lemma land_mask addr prefix :
  addr <= u32_max -> prefix <= 32 ->
  N.land addr (prefix_mask prefix) = addr / 2 ^ (32 - prefix) * 2 ^ (32 - prefix).
Proof.
  intros Ha Hp. rewrite <- N.shiftr_div_pow2, <- N.shiftl_mul_pow2.
  apply N.bits_inj. intros i. rewrite N.land_spec, prefix_mask_testbit by done.
  destruct (N.lt_ge_cases i (32 - prefix)) as [Hlt|Hge].
  { rewrite N.shiftl_spec_low by done. lia. }
  rewrite N.shiftl_spec_high', N.shiftr_spec' by done.
  replace (i - (32 - prefix) + (32 - prefix)) with i by lia.
  destruct (N.lt_ge_cases i 32) as [Hi|Hi]; [lia|].
  replace (N.testbit addr i) with false; [lia|]. symmetry.
  destruct (N.eq_dec addr 0) as [->|Hz]; [apply N.bits_0|].
  apply N.bits_above_log2. apply N.log2_lt_pow2; [lia|].
  apply N.lt_le_trans with (2 ^ 32); [unfold u32_max in Ha; simpl; lia|].
  by apply N.pow_le_mono_r.
Qed.

(** The CIDR arm keeps the network bits and fills the host bits. *)
Lemma cidr_range_bounds addr prefix :
  addr <= u32_max -> prefix <= 32 ->
  let k := 32 - prefix in
  start (cidr_range addr prefix) = addr / 2 ^ k * 2 ^ k /\
  end_ (cidr_range addr prefix) = addr / 2 ^ k * 2 ^ k + (2 ^ k - 1).
Proof.
  intros Ha Hp k. unfold cidr_range. simpl.
  rewrite land_mask, u32_not_mask by done. fold k. split; [done|].
  assert (Hd : N.land (addr / 2 ^ k * 2 ^ k) (N.ones k) = 0).
  { rewrite N.land_ones, N.Div0.mod_mul. done. }
  rewrite <- N.lxor_lor, <- N.add_nocarry_lxor by done.
  by rewrite N.ones_equiv, <- N.sub_1_r.
Qed.

Lemma cidr_range_wf addr prefix :
  addr <= u32_max -> prefix <= 32 -> range_wf (cidr_range addr prefix).
Proof.
  intros Ha Hp. destruct (cidr_range_bounds addr prefix Ha Hp) as [Hs He].
  unfold range_wf. rewrite Hs, He.
  assert (2 ^ (32 - prefix) <> 0) by (by apply N.pow_nonzero).
  assert (Hk : 2 ^ 32 = 2 ^ prefix * 2 ^ (32 - prefix)).
  { rewrite <- N.pow_add_r. f_equal. lia. }
  assert (Hq : addr / 2 ^ (32 - prefix) < 2 ^ prefix).
  { apply N.Div0.div_lt_upper_bound. rewrite N.mul_comm, <- Hk.
    unfold u32_max in Ha. simpl. lia. }
  split_and!; [lia| |].
  - change u32_max with (2 ^ 32 - 1). nia.
  - simpl. intros Hp30%N.leb_le.
    assert (2 ^ 2 <= 2 ^ (32 - prefix)) by (apply N.pow_le_mono_r; lia). simpl in *. lia.
Qed.

(** ** Addresses *)

Lemma parse_octet_bound s n : Ipv4Addr.parse_octet s = Some n -> n <= 255.
Proof.
  unfold Ipv4Addr.parse_octet. destruct (_ || _); [done|].
  destruct (parse_dec s) as [m|]; [|done]. destruct (m <=? 255) eqn:E; [|done].
  intros [= <-]. lia.
Qed.

Lemma ipv4_parse_bound s n : Ipv4Addr.parse s = Some n -> n <= u32_max.
Proof.
  unfold Ipv4Addr.parse.
  destruct (split_char "." s) as [|a [|b [|c [|d [|? ?]]]]]; simpl; try done;
    repeat case_match; try done; try discriminate.
  intros [= <-].
  repeat match goal with H : Ipv4Addr.parse_octet _ = Some _ |- _ =>
    apply parse_octet_bound in H end.
  unfold Ipv4Addr.from_octets, u32_max. lia.
Qed.

Lemma parse_addr_bound a w n : parse_addr a w = Ok n -> n <= u32_max.
Proof.
  unfold parse_addr, ok_or. destruct (Ipv4Addr.parse _) eqn:E; [|done].
  intros [= <-]. by eapply ipv4_parse_bound.
Qed.

Lemma range_from_str_wf s r : range_from_str s = Ok r -> range_wf r.
Proof.
  unfold range_from_str. destruct (str_is_empty _); [done|].
  destruct (split_once "-" _) as [[a b]|].
  { destruct (parse_addr a _) as [x|] eqn:Ea; [|done]. simpl.
    destruct (parse_addr b _) as [y|] eqn:Eb; [|done]. simpl.
    destruct (y <? x) eqn:Hyx; [done|]. intros [= <-].
    apply parse_addr_bound in Ea, Eb. unfold range_wf. simpl. lia. }
  destruct (split_once "/" _) as [[a p]|].
  { destruct (parse_addr a _) as [x|] eqn:Ea; [|done]. simpl.
    destruct (ok_or _ _) as [y|]; [|done]. simpl.
    destruct (32 <? y) eqn:Hy; [done|]. intros [= <-].
    apply cidr_range_wf; [by eapply parse_addr_bound | lia]. }
  destruct (parse_addr _ _) as [x|] eqn:Ea; [|done]. simpl. intros [= <-].
  apply parse_addr_bound in Ea. unfold range_wf. simpl. lia.
Qed.

Lemma octets_bound n : n <= u32_max -> Forall (fun o => o <= 255) (Ipv4Addr.octets n).
Proof.
  unfold u32_max. intros Hn. repeat constructor.
  2-4: pose proof (N.mod_lt (n / 65536) 256); pose proof (N.mod_lt (n / 256) 256);
    pose proof (N.mod_lt n 256); lia.
  apply N.lt_succ_r. apply N.Div0.div_lt_upper_bound. lia.
Qed.

Lemma from_octets_octets n :
  n <= u32_max ->
  Ipv4Addr.from_octets (n / 16777216) (n / 65536 mod 256) (n / 256 mod 256) (n mod 256) = n.
Proof.
  intros _. unfold Ipv4Addr.from_octets.
  pose proof (N.div_mod n 256). pose proof (N.div_mod (n / 256) 256).
  pose proof (N.div_mod (n / 65536) 256).
  assert (n / 65536 = n / 256 / 256) by (rewrite N.Div0.div_div; done).
  assert (n / 16777216 = n / 65536 / 256) by (rewrite N.Div0.div_div; done).
  lia.
Qed.

Lemma show_octet_parse o : o <= 255 -> Ipv4Addr.parse_octet (show_N o) = Some o.
Proof.
  intros Ho.
  assert (H : forallb (fun i => bool_decide (Ipv4Addr.parse_octet (show_N (N.of_nat i))
                                = Some (N.of_nat i))) (seq 0 256) = true) by by vm_compute.
  rewrite forallb_forall in H. specialize (H (N.to_nat o)).
  rewrite N2Nat.id in H. apply bool_decide_eq_true in H; [done|]. apply in_seq. lia.
Qed.

Lemma show_N_no_char c n : is_digit c = false -> str_contains_char c (show_N n) = false.
Proof. apply str_forallb_not_in, show_N_digits. Qed.

Lemma ipv4_parse_to_string n :
  n <= u32_max -> Ipv4Addr.parse (Ipv4Addr.to_string n) = Some n.
Proof.
  intros Hn. unfold Ipv4Addr.parse, Ipv4Addr.to_string. simpl.
  pose proof (octets_bound n Hn) as Ho. unfold Ipv4Addr.octets in Ho.
  rewrite !Forall_cons in Ho. destruct Ho as (H1 & H2 & H3 & H4 & _).
  rewrite !str_app_cons, !str_app_nil_l.
  rewrite !split_char_app, split_char_none by (by apply show_N_no_char). simpl.
  rewrite !show_octet_parse by done. by rewrite from_octets_octets.
Qed.

(** The printed address: digits and dots only. *)
Definition addr_char (c : ascii) : bool := is_digit c || Ascii.eqb c ".".

Lemma addr_char_visible c : addr_char c = true -> visible c = true.
Proof.
  unfold addr_char. intros [H%is_digit_visible | ->%Ascii.eqb_eq]%orb_true_iff; done.
Qed.

Lemma ipv4_to_string_chars n : str_forallb addr_char (Ipv4Addr.to_string n) = true.
Proof.
  assert (Hs : forall m, str_forallb addr_char (show_N m) = true).
  { intros m. eapply str_forallb_impl; [|apply show_N_digits].
    unfold addr_char. intros c ->. done. }
  unfold Ipv4Addr.to_string. simpl. by rewrite !str_forallb_app, !Hs.
Qed.

Lemma ipv4_to_string_visible n : str_forallb visible (Ipv4Addr.to_string n) = true.
Proof.
  eapply str_forallb_impl; [apply addr_char_visible | apply ipv4_to_string_chars].
Qed.

Lemma parse_addr_to_string n w : n <= u32_max -> parse_addr (Ipv4Addr.to_string n) w = Ok n.
Proof.
  intros Hn. unfold parse_addr.
  by rewrite trim_visible, ipv4_parse_to_string by auto using ipv4_to_string_visible.
Qed.

Lemma ipv4_to_string_no_char c n :
  addr_char c = false -> str_contains_char c (Ipv4Addr.to_string n) = false.
Proof. apply str_forallb_not_in, ipv4_to_string_chars. Qed.

Lemma ipv4_to_string_nonempty n t : str_is_empty (Ipv4Addr.to_string n +:+ t) = false.
Proof.
  unfold Ipv4Addr.to_string. simpl.
  destruct (show_N (n / 16777216)) eqn:E; [by apply show_N_nonempty in E | done].
Qed.

Lemma is_pow2_pos_spec p : is_pow2_pos p = true -> Npos p = 2 ^ ctz_pos p.
Proof.
  induction p as [p IH|p IH|]; simpl; [done| |done].
  intros H. rewrite N.pow_add_r. rewrite <- IH by done. done.
Qed.

Lemma power_of_two_spec n : is_power_of_two n = true -> n = 2 ^ trailing_zeros n.
Proof. destruct n; [done|]. apply is_pow2_pos_spec. Qed.

Lemma size_trailing_zeros size :
  is_power_of_two size = true -> size <= 2 ^ 32 -> trailing_zeros size <= 32.
Proof.
  intros H%power_of_two_spec Hle. rewrite H in Hle.
  apply N.pow_le_mono_r_iff in Hle; lia.
Qed.

Lemma range_parse_display r :
  start r <= end_ r -> end_ r <= u32_max ->
  range_from_str (range_to_string r)
  = Ok {| start := start r; end_ := end_ r; edges_reserved := false |}.
Proof.
  intros Hse Hmax. assert (start r <= u32_max) by lia.
  unfold range_to_string, range_from_str. destruct (start r =? end_ r) eqn:E.
  - rewrite trim_visible by apply ipv4_to_string_visible.
    rewrite <- (str_app_nil_r (Ipv4Addr.to_string (start r))) at 1.
    rewrite ipv4_to_string_nonempty.
    rewrite !(proj2 (split_once_none _ _)) by (by apply ipv4_to_string_no_char).
    rewrite parse_addr_to_string by done. simpl. apply N.eqb_eq in E. by rewrite E.
  - rewrite trim_visible by (by rewrite !str_forallb_app, !ipv4_to_string_visible).
    rewrite ipv4_to_string_nonempty. rewrite str_app_cons, str_app_nil_l.
    rewrite split_once_app by (by apply ipv4_to_string_no_char).
    rewrite !parse_addr_to_string by done. simpl.
    by replace (end_ r <? start r) with false by lia.
Qed.

(** An address on its own prefix boundary is the base of its CIDR. *)
Lemma cidr_range_aligned addr k :
  addr <= u32_max -> k <= 32 -> addr mod 2 ^ k = 0 ->
  cidr_range addr (32 - k)
  = {| start := addr; end_ := addr + (2 ^ k - 1); edges_reserved := 32 - k <=? 30 |}.
Proof.
  intros Ha Hk Hmod. destruct (cidr_range_bounds addr (32 - k)) as [Hs He]; [done|lia|].
  replace (32 - (32 - k)) with k in * by lia.
  assert (Hdm : addr / 2 ^ k * 2 ^ k = addr).
  { assert (2 ^ k <> 0) by (by apply N.pow_nonzero).
    pose proof (N.div_mod addr (2 ^ k)). lia. }
  rewrite Hdm in Hs, He. destruct (cidr_range addr (32 - k)) eqn:E. simpl in *.
  unfold cidr_range in E. injection E. congruence.
Qed.

(** The printed form of an address with a prefix length reads as its block. *)
Lemma range_parse_block addr prefix :
  addr <= u32_max -> prefix <= 32 ->
  range_from_str (Ipv4Addr.to_string addr +:+ "/" +:+ show_N prefix) = Ok (cidr_range addr prefix).
Proof.
  intros Ha Hp. unfold range_from_str.
  rewrite trim_visible by (rewrite !str_forallb_app, ipv4_to_string_visible;
    eapply str_forallb_impl; [apply is_digit_visible | apply show_N_digits]).
  rewrite ipv4_to_string_nonempty.
  rewrite (proj2 (split_once_none "-" _)) by (rewrite !str_contains_char_app,
    ipv4_to_string_no_char, show_N_no_char; done).
  rewrite str_app_cons, str_app_nil_l.
  rewrite split_once_app by (by apply ipv4_to_string_no_char).
  rewrite parse_addr_to_string by lia. simpl.
  rewrite trim_visible
    by (eapply str_forallb_impl; [apply is_digit_visible | apply show_N_digits]).
  rewrite parse_unsigned_show by (unfold u32_max; lia). cbn -[N.ltb].
  by replace (32 <? prefix) with false by lia.
Qed.

Lemma range_parse_cidr r c :
  start r <= end_ r -> end_ r <= u32_max -> to_cidr r = Some c ->
  exists prefix, prefix <= 32 /\ len r = 2 ^ (32 - prefix) /\
    range_from_str c
    = Ok {| start := start r; end_ := end_ r; edges_reserved := prefix <=? 30 |}.
Proof.
  intros Hse Hmax. unfold to_cidr. fold (len r).
  destruct (is_power_of_two (len r)) eqn:Hp; [|done]. simpl.
  destruct (start r mod len r =? 0) eqn:Hm; [|done]. simpl. intros [= <-].
  assert (Hlen : len r <= 2 ^ 32) by (unfold len, u32_max in *; simpl; lia).
  pose proof (size_trailing_zeros _ Hp Hlen) as Hk. apply power_of_two_spec in Hp.
  set (k := trailing_zeros (len r)) in *.
  exists (32 - k). split_and!; [lia | rewrite Hp; f_equal; lia |].
  rewrite range_parse_block by lia.
  rewrite cidr_range_aligned; [|lia|done|rewrite <- Hp; lia].
  do 2 f_equal. unfold len in *. lia.
Qed.

(** * Theorems *)

(** Parsing a range yields a well-formed one: [start <= end], within 32
    bits, and with at least two allocatable addresses between reserved edges,
    so the subtractions and the [+ 1]/[- 1] of the operations cannot wrap. *)
Theorem parsed_ranges_wf entries rs :
  Ipv4Ranges.parse entries = Ok rs -> Forall range_wf rs.
Proof.
  intros H%try_map_ok. induction H as [|e r es rs He _ IH]; constructor; [|done].
  by eapply range_from_str_wf.
Qed.

Lemma parsed_ranges_wf_witness :
  exists rs, Ipv4Ranges.parse ["10.255.3.9/16"; " 203.0.113.8 - 203.0.113.11"; "1.2.3.4"] = Ok rs
             /\ Forall range_wf rs.
Proof.
  eexists. split; [by vm_compute|].
  apply (parsed_ranges_wf ["10.255.3.9/16"; " 203.0.113.8 - 203.0.113.11"; "1.2.3.4"]).
  by vm_compute.
Defined.

(** The overlap test decides whether two well-formed ranges share an
    address, and [covers] whether one contains every address of the other. *)
Theorem overlaps_iff_shared a b :
  range_wf a -> range_wf b ->
  (overlaps a b = true <-> exists x, contains a x = true /\ contains b x = true) /\
  (covers a b = true <-> forall x, contains b x = true -> contains a x = true).
Proof.
  intros (Ha & _) (Hb & _). unfold overlaps, covers, contains. split; split.
  - intros. exists (N.max (start a) (start b)). lia.
  - intros (x & Hx). lia.
  - intros H x Hx. lia.
  - intros H. pose proof (H (start b)). pose proof (H (end_ b)). lia.
Qed.

Lemma overlaps_iff_shared_witness :
  overlaps (cidr_range 167772160 8) (cidr_range 167837696 24) = true /\
  exists x, contains (cidr_range 167772160 8) x = true
            /\ contains (cidr_range 167837696 24) x = true.
Proof.
  split; [by vm_compute|].
  apply (overlaps_iff_shared (cidr_range 167772160 8) (cidr_range 167837696 24)).
  - vm_compute. split_and!; [done|done|done].
  - vm_compute. split_and!; [done|done|done].
  - by vm_compute.
Defined.

(** The scan for a free address returns an allocatable address that is
    not taken, and every address earlier in the scan is taken; it returns
    nothing exactly when every allocatable address is taken. *)
Theorem first_free_spec rs taken :
  Forall range_wf rs ->
  match Ipv4Ranges.first_free rs taken with
  | Some a =>
      Ipv4Ranges.is_allocatable rs a = true /\ ~ In a taken /\
      exists before after, flat_map allocatable rs = before ++ a :: after
                           /\ Forall (fun b => In b taken) before
  | None => forall a, Ipv4Ranges.is_allocatable rs a = true -> In a taken
  end.
Proof.
  intros Hwf. unfold Ipv4Ranges.first_free.
  assert (Hal : forall a, In a (flat_map allocatable rs) <-> Ipv4Ranges.is_allocatable rs a = true).
  { intros a. unfold Ipv4Ranges.is_allocatable. rewrite in_flat_map, existsb_exists.
    rewrite List.Forall_forall in Hwf.
    split; intros (r & Hr & Ha); exists r; split; auto; by apply in_allocatable; auto. }
  assert (Htk : forall a, negb (existsb (N.eqb a) taken) = false <-> In a taken).
  { intros a. rewrite negb_false_iff, existsb_exists. split.
    - intros (x & Hx & ->%N.eqb_eq). done.
    - intros Ha. exists a. by rewrite N.eqb_refl. }
  destruct (List.find _ _) as [a|] eqn:Hf.
  - apply find_first in Hf as (l1 & l2 & Heq & Ha & Hl1). split_and!.
    + apply Hal. rewrite Heq. apply in_app_iff. right. by left.
    + intros Hin%Htk. congruence.
    + exists l1, l2. split; [done|]. eapply Forall_impl; [exact Hl1|]. intros x. apply Htk.
  - intros a Ha%Hal. apply find_none_iff in Hf. rewrite List.Forall_forall in Hf.
    by apply Htk, Hf.
Qed.

Lemma first_free_spec_witness :
  Ipv4Ranges.first_free [cidr_range 3405803776 29] [3405803777; 3405803778] = Some 3405803779 /\
  ~ In 3405803779 [3405803777; 3405803778].
Proof.
  split; [by vm_compute|].
  pose proof (first_free_spec [cidr_range 3405803776 29] [3405803777; 3405803778]) as H.
  change (Ipv4Ranges.first_free [cidr_range 3405803776 29] [3405803777; 3405803778])
    with (Some 3405803779) in H.
  apply H. constructor; [|constructor]. vm_compute. split_and!; done.
Defined.

(** A well-formed range printed for nftables parses back to the same
    bounds; a prefix-shaped one printed as its canonical CIDR parses back to
    the same bounds too, with the edges reserved from /30 up. *)
Theorem range_print_parse r :
  range_wf r ->
  range_from_str (range_to_string r)
  = Ok {| start := start r; end_ := end_ r; edges_reserved := false |} /\
  forall c, to_cidr r = Some c ->
    exists prefix, prefix <= 32 /\ len r = 2 ^ (32 - prefix) /\
      range_from_str c
      = Ok {| start := start r; end_ := end_ r; edges_reserved := prefix <=? 30 |}.
Proof.
  intros (Hse & Hmax & _). split.
  - by apply range_parse_display.
  - intros c. by apply range_parse_cidr.
Qed.

Lemma range_print_parse_witness :
  exists prefix, prefix <= 32 /\ len (cidr_range 167837705 24) = 2 ^ (32 - prefix) /\
    range_from_str "10.1.0.0/24"
    = Ok {| start := 167837696; end_ := 167837951; edges_reserved := prefix <=? 30 |}.
Proof.
  apply (range_print_parse (cidr_range 167837705 24)); [|by vm_compute].
  vm_compute. split_and!; done.
Defined.
