(* ===== verification/Capability.v ===== *)
(** Capability strings: [src/shared/common/src/capability.rs].  Agents
    advertise [driver/profile] entries, schedulers match requests against
    them; snapshot and gateway claims carry a qualifier after a colon. *)
From Stdlib Require Import Ascii String NArith List Bool Lia.
From stdpp Require Import base list strings.
From S2P Require Import Prelude RustStr.

(** * Definitions *)

Definition VOLUME : string := "volume".
Definition SNAPSHOT : string := "snapshot".
Definition LVM_THIN : string := "lvm-thin".
Definition HYPERVISOR : string := "hypervisor".
Definition NETWORK : string := "network".
Definition VXLAN : string := "vxlan".
Definition EVPN : string := "evpn".
Definition GATEWAY : string := "gateway".
Definition DEFAULT_VOLUME_DRIVER : string := "filesystem".
Definition CONSISTENCY_SEP : ascii := ":".

Module SnapshotConsistency.
Inductive t := Atomic | NeedsQuiesce.

Definition ALL : list t := [Atomic; NeedsQuiesce].

Definition as_str (c : t) : string :=
  match c with Atomic => "atomic" | NeedsQuiesce => "needs-quiesce" end.

Definition parse (s : string) : option t := List.find (fun c => String.eqb (as_str c) s) ALL.
End SnapshotConsistency.

Definition snapshot_claim (backend : string) (consistency : SnapshotConsistency.t) : string :=
  backend +:+ "/" +:+ SNAPSHOT +:+ String CONSISTENCY_SEP (SnapshotConsistency.as_str consistency).

Definition parse_snapshot_claim (profile : string) : option (string * SnapshotConsistency.t) :=
  '(head, consistency) ← split_once CONSISTENCY_SEP profile;
  slashed ← strip_suffix SNAPSHOT head;
  backend ← strip_suffix "/" slashed;
  if str_is_empty backend then None
  else c ← SnapshotConsistency.parse consistency; Some (backend, c).

Definition gateway_claim (physnet : string) : string :=
  GATEWAY +:+ String CONSISTENCY_SEP physnet.

Definition parse_gateway_claim (profile : string) : option string :=
  '(head, physnet) ← split_once CONSISTENCY_SEP profile;
  if String.eqb head GATEWAY && negb (str_is_empty physnet) then Some physnet else None.

Definition gateway_physnets (catalogue : list string) : list string :=
  filter_map parse_gateway_claim (filter_map (strip_prefix (NETWORK +:+ "/")) catalogue).

Module Locality.
Inductive t := NodeLocal | Shared | Networked.

Definition ALL : list t := [NodeLocal; Shared; Networked].

Definition as_str (l : t) : string :=
  match l with
  | NodeLocal => "node-local"
  | Shared => "shared"
  | Networked => "networked"
  end.

Definition parse (s : string) : option t := List.find (fun l => String.eqb (as_str l) s) ALL.
End Locality.

#[export] Instance SnapshotConsistency_eq_dec : EqDecision SnapshotConsistency.t.
Proof. solve_decision. Defined.
#[export] Instance Locality_eq_dec : EqDecision Locality.t.
Proof. solve_decision. Defined.

Definition entry (driver : string) (profile : option string) : string :=
  match profile with Some p => driver +:+ "/" +:+ p | None => driver end.

Definition offers (catalogue : list string) (driver : string) (profile : option string) : bool :=
  match profile with
  | Some _ => str_in (entry driver profile) catalogue
  | None =>
      let prefix := driver +:+ "/" in
      existsb (fun have => String.eqb have driver || starts_with prefix have) catalogue
  end.

(** * Lemmas *)

Lemma str_rev_app s t : str_rev (s +:+ t) = str_rev t +:+ str_rev s.
Proof.
  unfold str_rev. rewrite list_ascii_app, rev_app_distr.
  generalize (rev (list_ascii_of_string t)), (rev (list_ascii_of_string s)). intros l1 l2.
  induction l1 as [|a l1 IH]; simpl; [done|]. by rewrite IH, str_app_cons.
Qed.

Lemma strip_suffix_some p s r : strip_suffix p s = Some r <-> s = r +:+ p.
Proof.
  unfold strip_suffix. split.
  - destruct (strip_prefix _ _) as [x|] eqn:E; [|done]. intros [= <-].
    apply strip_prefix_some in E. rewrite <- (str_rev_involutive s), E, str_rev_app.
    by rewrite str_rev_involutive.
  - intros ->. by rewrite str_rev_app, strip_prefix_app, str_rev_involutive.
Qed.

#[export] Instance SnapshotConsistency_vocabulary :
  Vocabulary SnapshotConsistency.ALL SnapshotConsistency.as_str.
Proof. solve_vocabulary. Qed.

#[export] Instance Locality_vocabulary : Vocabulary Locality.ALL Locality.as_str.
Proof. solve_vocabulary. Qed.

Lemma consistency_parse_as_str c s :
  SnapshotConsistency.parse s = Some c <-> SnapshotConsistency.as_str c = s.
Proof. apply (vocab_parse _ _). Qed.

(** A request for a named profile is met by exactly that entry; a bare one by
    the driver's own name or any of its profiles. *)
Lemma offers_spec catalogue driver profile :
  offers catalogue driver profile = true <->
  match profile with
  | Some p => In (driver +:+ "/" +:+ p) catalogue
  | None => In driver catalogue \/ exists p, In (driver +:+ "/" +:+ p) catalogue
  end.
Proof.
  destruct profile as [p|]; simpl; [apply str_in_spec|].
  rewrite existsb_exists. unfold starts_with. split.
  - intros (have & Hin & [->%String.eqb_eq|H]%orb_true_iff); [by left|].
    destruct (strip_prefix _ _) as [r|] eqn:E; [|done].
    apply strip_prefix_some in E as ->. right. exists r. by rewrite <- str_app_assoc.
  - intros [Hin|(p & Hin)].
    + exists driver. by rewrite String.eqb_refl.
    + exists (driver +:+ "/" +:+ p). split; [done|].
      by rewrite <- str_app_assoc, strip_prefix_app, orb_true_r.
Qed.

(** * Theorems *)

(** Parsing a qualified snapshot profile inverts building one: the parser
    accepts exactly the claims of a non-empty backend, and returns the backend
    and consistency the claim was built from, whenever the backend has no
    colon of its own. *)
Theorem snapshot_claim_roundtrip profile backend c :
  parse_snapshot_claim profile = Some (backend, c) <->
  profile = snapshot_claim backend c /\ backend <> EmptyString /\
  str_contains_char CONSISTENCY_SEP backend = false.
Proof.
  unfold parse_snapshot_claim, snapshot_claim. split.
  - intros H. apply bind_Some in H as ([head cons] & Hs & H).
    apply bind_Some in H as (slashed & Hsuf & H). apply bind_Some in H as (b & Hb & H).
    destruct (str_is_empty b) eqn:Eb; [done|].
    apply bind_Some in H as (c' & Hc & [= <- <-]).
    apply split_once_some in Hs as [-> Hh]. apply strip_suffix_some in Hsuf as ->.
    apply strip_suffix_some in Hb as ->. apply consistency_parse_as_str in Hc as <-.
    rewrite !str_contains_char_app in Hh. bool_hyps.
    split_and!; [by rewrite !str_app_assoc | by destruct b | done].
  - intros (-> & Hne & Hsep). rewrite <- !str_app_assoc, split_once_app;
      [|by rewrite !str_contains_char_app, Hsep]. simpl.
    rewrite (proj2 (strip_suffix_some SNAPSHOT _ _) eq_refl). simpl.
    rewrite (proj2 (strip_suffix_some "/" _ _) eq_refl). simpl.
    destruct backend; [done|]. simpl.
    by rewrite (proj2 (consistency_parse_as_str c _) eq_refl).
Qed.

Lemma gateway_claim_roundtrip profile physnet :
  parse_gateway_claim profile = Some physnet <->
  profile = gateway_claim physnet /\ physnet <> EmptyString.
Proof.
  unfold parse_gateway_claim, gateway_claim. split.
  - intros ([h p] & Hs & H)%bind_Some. apply split_once_some in Hs as [-> _].
    destruct (String.eqb h GATEWAY) eqn:E; [|done]. simpl in H.
    apply String.eqb_eq in E as ->. destruct p; simplify_eq/=. done.
  - intros [-> Hne]. rewrite split_once_app by done. simpl. by destruct physnet.
Qed.

(** The provider networks read off a node's catalogue are the non-empty
    ones it claims a gateway for, in advertisement order. *)
Theorem gateway_physnets_spec catalogue physnet :
  In physnet (gateway_physnets catalogue) <->
  physnet <> EmptyString /\ offers catalogue NETWORK (Some (gateway_claim physnet)) = true.
Proof.
  unfold gateway_physnets. rewrite in_filter_map, offers_spec. split.
  - intros (p & Hin & Hp). apply in_filter_map in Hin as (e & He & Hs).
    apply strip_prefix_some in Hs as ->. apply gateway_claim_roundtrip in Hp as [-> Hne].
    by rewrite str_app_assoc in He.
  - intros [Hne Hin]. exists (gateway_claim physnet). rewrite gateway_claim_roundtrip.
    split; [|done]. rewrite in_filter_map. eexists. split; [exact Hin|].
    apply strip_prefix_some. by rewrite str_app_assoc.
Qed.
