(* ===== verification/Phase.v ===== *)
(** Phases: [src/shared/controller-api/src/resources/phase.rs].  The macros
    [phases!], [reasons!] and [phased!] generate, per resource, a closed set of
    kinds, a closed set of reasons, the phase value with its evidence, the flat
    wire form, the recorded word of a peer, and the stamping of a derived
    phase.  Here the generated code is written once over two classes, one for
    the kinds of a resource and one for its reasons; each resource's macro
    invocation is an instance. *)
From Stdlib Require Import Ascii String NArith ZArith List Bool Lia.
From stdpp Require Import base list strings.
From S2P Require Import Prelude RustStr.

(** * The two closed sets *)

(** [reasons! { Name [n] { Variant => "Word", ... } }]. *)
Class ReasonSet (R : Type) := {
  reason_dec :: EqDecision R;
  Unrecorded : R;
  reason_all : list R;
  reason_str : R -> string;
  reason_vocab :: Vocabulary reason_all reason_str;
  reason_str_nonempty : forall r, reason_str r <> EmptyString;
}.

(** [phases! { Phase / Kind / Reason ... { Variant { fields } => "Word", ... } }].
    [carries k] says the variant [k] declares a [reason] field. *)
Class PhaseSet (K : Type) := {
  kind_dec :: EqDecision K;
  kind_default : K;
  kind_all : list K;
  kind_str : K -> string;
  carries : K -> bool;
  kind_terminal : K -> bool;
  kind_vocab :: Vocabulary kind_all kind_str;
  kind_default_first : head kind_all = Some kind_default;
}.

(** Instants, in any unit, from the Unix epoch. *)
Definition instant := Z.
Definition UNSTAMPED : instant := 0%Z.

(** * Definitions *)

Section phases.
Context {K R : Type} `{!PhaseSet K, !ReasonSet R}.

Definition kind_parse (s : string) : option K :=
  List.find (fun k => String.eqb (kind_str k) s) kind_all.

Definition reason_parse (s : string) : option R :=
  List.find (fun r => String.eqb (reason_str r) s) reason_all.

(** [$reason::read]. *)
Definition reason_read (word : string) (message : option string) : R * option string :=
  if str_is_empty word then (Unrecorded, message)
  else match reason_parse word with
       | Some reason => (reason, message)
       | None =>
           (Unrecorded,
            Some (match message with
                  | Some said =>
                      if negb (str_is_empty said) then word +:+ ": " +:+ said else word
                  | None => word
                  end))
       end.

(** [$phase]: a variant with its fields.  [ph_reason] is the [reason] field of
    a variant that has one. *)
Record phase := Phase {
  ph_kind : K;
  ph_reason : option R;
  ph_message : string;
  ph_since : instant;
}.

(** [$phase::new]: the reason is dropped for a variant that carries none. *)
Definition phase_new (kind : K) (reason : R) (message : option string) (since : instant) : phase :=
  let message := match message with Some m => m | None => EmptyString end in
  {| ph_kind := kind;
     ph_reason := if carries kind then Some reason else None;
     ph_message := message;
     ph_since := since |}.

Definition phase_of (kind : K) (since : instant) : phase := phase_new kind Unrecorded None since.

Definition phase_said (kind : K) (message : option string) (since : instant) : phase :=
  phase_new kind Unrecorded message since.

Definition reason_word (p : phase) : string :=
  match ph_reason p with
  | Some reason => if decide (reason = Unrecorded) then EmptyString else reason_str reason
  | None => EmptyString
  end.

Definition phase_message (p : phase) : option string :=
  if negb (str_is_empty (ph_message p)) then Some (ph_message p) else None.

Definition phase_default : phase := phase_of kind_default UNSTAMPED.

(** [$wire]: the flat form on a status. *)
Record wire := Wire {
  w_phase : K;
  w_reason : option string;
  w_message : option string;
  w_since : option instant;
}.

Definition to_wire (p : phase) : wire :=
  {| w_phase := ph_kind p;
     w_reason := if negb (str_is_empty (reason_word p)) then Some (reason_word p) else None;
     w_message := phase_message p;
     w_since := if decide (ph_since p = UNSTAMPED) then None else Some (ph_since p) |}.

(** [From<$wire> for $phase]; [now] is the clock an absent timestamp reads. *)
Definition from_wire (now : instant) (w : wire) : phase :=
  let '(reason, message) :=
    reason_read (match w_reason w with Some s => s | None => EmptyString end) (w_message w) in
  phase_new (w_phase w) reason message (match w_since w with Some s => s | None => now end).

(** [$said]: the word of a peer, or of this tier when [said_node] is empty. *)
Record reported := Reported {
  said_phase : K;
  said_reason : R;
  said_message : option string;
  said_at : instant;
  said_node : string;
}.

Definition said_by (node : string) (kind : K) (reason : R) (message : option string)
    (at_ : instant) : reported :=
  {| said_phase := kind; said_reason := reason; said_message := message; said_at := at_;
     said_node := node |}.

Definition said_here (kind : K) (reason : R) (message : option string) (at_ : instant) : reported :=
  {| said_phase := kind; said_reason := reason; said_message := message; said_at := at_;
     said_node := EmptyString |}.

Definition same_word (a b : reported) : bool :=
  bool_decide (said_phase a = said_phase b) && bool_decide (said_reason a = said_reason b)
  && bool_decide (said_message a = said_message b) && String.eqb (said_node a) (said_node b).

(** [$said::phase]: a resting word counts only when somebody's name is on it. *)
Definition reported_phase (r : reported) : option phase :=
  let resting :=
    match ph_reason (phase_new (said_phase r) (said_reason r) None UNSTAMPED) with
    | Some _ => false
    | None => true
    end in
  if negb resting || negb (str_is_empty (said_node r))
  then Some (phase_new (said_phase r) (said_reason r) (said_message r) UNSTAMPED)
  else None.

(** [standing], the view stuck detection takes of any status. *)
Record standing := Standing {
  word : string;
  terminal : bool;
  reason : string;
  since : instant;
}.

Definition phase_standing (p : phase) : standing :=
  {| word := kind_str (ph_kind p); terminal := kind_terminal (ph_kind p);
     reason := reason_word p; since := ph_since p |}.

(** [stamp]: [old] is the stored phase, [p] the derived one. *)
Definition stamp (old p : phase) (now : instant) : phase :=
  let since :=
    if bool_decide (ph_kind p = ph_kind old) && negb (bool_decide (ph_since old = UNSTAMPED))
    then ph_since old else now in
  phase_new (ph_kind p) (match ph_reason p with Some r => r | None => Unrecorded end)
    (phase_message p) since.

(** * Lemmas *)

(** A phase has a reason exactly when its variant declares one. *)
Definition phase_wf (p : phase) : Prop :=
  carries (ph_kind p) = match ph_reason p with Some _ => true | None => false end.

Lemma phase_new_wf k r m s : phase_wf (phase_new k r m s).
Proof. unfold phase_wf. simpl. by destruct (carries k). Qed.

Lemma stamp_wf old p now : phase_wf (stamp old p now).
Proof. apply phase_new_wf. Qed.

Lemma from_wire_wf now w : phase_wf (from_wire now w).
Proof. unfold from_wire. destruct (reason_read _ _). apply phase_new_wf. Qed.

Lemma reason_parse_str r : reason_parse (reason_str r) = Some r.
Proof. by apply (vocab_parse reason_all reason_str). Qed.

Lemma str_is_empty_false s : s <> EmptyString -> str_is_empty s = false.
Proof. by destruct s. Qed.

Lemma phase_new_message k r p s :
  phase_new k r (phase_message p) s = phase_new k r (Some (ph_message p)) s.
Proof. unfold phase_new, phase_message. by destruct (ph_message p). Qed.

Lemma phase_eta p :
  phase_wf p ->
  phase_new (ph_kind p) (match ph_reason p with Some r => r | None => Unrecorded end)
    (Some (ph_message p)) (ph_since p) = p.
Proof.
  unfold phase_wf, phase_new. intros ->. destruct p as [k r m s]. simpl. by destruct r.
Qed.

Lemma reason_read_word p :
  reason_read (match (if negb (str_is_empty (reason_word p)) then Some (reason_word p) else None)
               with Some s => s | None => EmptyString end) (phase_message p)
  = (match ph_reason p with Some r => r | None => Unrecorded end, phase_message p).
Proof.
  unfold reason_word, reason_read. destruct (ph_reason p) as [r|]; simpl; [|done].
  destruct (decide (r = Unrecorded)) as [->|Hr]; simpl; [done|].
  rewrite (str_is_empty_false (reason_str r)) by apply reason_str_nonempty. simpl.
  rewrite (str_is_empty_false (reason_str r)) by apply reason_str_nonempty.
  by rewrite reason_parse_str.
Qed.

(** Reading back what was written: exact, up to the timestamp an unstamped
    phase does not carry. *)
Lemma wire_roundtrip now p :
  phase_wf p ->
  from_wire now (to_wire p)
  = if decide (ph_since p = UNSTAMPED)
    then {| ph_kind := ph_kind p; ph_reason := ph_reason p; ph_message := ph_message p;
            ph_since := now |}
    else p.
Proof.
  intros Hwf. unfold from_wire. unfold to_wire at 1 2. cbn [w_reason w_message].
  rewrite reason_read_word, phase_new_message. simpl.
  destruct (decide (ph_since p = UNSTAMPED)).
  - pose proof (phase_eta p Hwf) as He. destruct p as [k r m t]. unfold phase_new in *.
    simpl in *. by injection He as ->.
  - by apply phase_eta.
Qed.

Lemma stamp_eq old p now :
  phase_wf p ->
  stamp old p now
  = {| ph_kind := ph_kind p; ph_reason := ph_reason p; ph_message := ph_message p;
       ph_since := if bool_decide (ph_kind p = ph_kind old)
                      && negb (bool_decide (ph_since old = UNSTAMPED))
                   then ph_since old else now |}.
Proof.
  intros Hwf. unfold stamp. rewrite phase_new_message.
  pose proof (phase_eta p Hwf) as He. destruct p as [k r m t]. unfold phase_new in *.
  simpl in *. by injection He as ->.
Qed.

(** Deriving the same phase again, at any later time, writes the same value:
    a settled object does not churn. *)
Lemma stamp_idempotent old p now now' :
  phase_wf p -> now <> UNSTAMPED -> stamp (stamp old p now) p now' = stamp old p now.
Proof.
  intros Hwf Hnow. rewrite !stamp_eq by done. simpl. f_equal.
  rewrite bool_decide_true by done. simpl.
  destruct (bool_decide (ph_kind p = ph_kind old)); simpl; [|by rewrite bool_decide_false].
  destruct (bool_decide (ph_since old = UNSTAMPED)) eqn:E; simpl; [by rewrite bool_decide_false|].
  by rewrite E.
Qed.

(** Only a word with a name on it puts an object into a resting phase. *)
Lemma reported_resting r p :
  reported_phase r = Some p -> ph_reason p = None -> said_node r <> EmptyString.
Proof.
  unfold reported_phase. simpl. destruct (carries (said_phase r)) eqn:E; simpl.
  - intros [= <-]. unfold phase_new. simpl. by rewrite E.
  - by destruct (said_node r).
Qed.

Lemma reported_phase_wf r p : reported_phase r = Some p -> phase_wf p.
Proof.
  unfold reported_phase. destruct (_ || _); [|done]. intros [= <-]. apply phase_new_wf.
Qed.

Lemma reported_phase_kind r p : reported_phase r = Some p -> ph_kind p = said_phase r.
Proof. unfold reported_phase. destruct (_ || _); [|done]. by intros [= <-]. Qed.
End phases.

Arguments phase K R : clear implicits.
Arguments reported K R : clear implicits.
Arguments wire K : clear implicits.
#[export] Hint Resolve phase_new_wf stamp_wf from_wire_wf reported_phase_wf : rust.

#[export] Instance phase_eq_dec {K R} `{EqDecision K, EqDecision R} : EqDecision (phase K R).
Proof. solve_decision. Defined.
#[export] Instance reported_eq_dec {K R} `{EqDecision K, EqDecision R} :
  EqDecision (reported K R).
Proof. solve_decision. Defined.
