(* ===== verification/Objects.v ===== *)
(** The resource envelope: [src/shared/controller-api/src/object.rs] and the
    shared parts of [resources/mod.rs].  An object has metadata, a spec and a
    status; [settle] derives the stored phase from facts already on the
    object before every write. *)
From Stdlib Require Import Ascii String NArith ZArith List Bool Lia.
From stdpp Require Import base list strings.
From S2P Require Import Prelude RustStr Phase.

(** * Definitions *)

Definition API_VERSION : string := "meister.io/v1".
Definition ANNOTATION_TRACEPARENT : string := "meister.io/traceparent".
Definition ANNOTATION_DRY_RUN : string := "meister.io/dry-run".
Definition ANNOTATION_CLOUD_GENERATION : string := "meister.io/cloud-generation".
Definition LABEL_MANAGED_BY : string := "meister.io/managed-by".
Definition MANAGED_BY_CLOUD : string := "cloud".
Definition LABEL_CLOUD_UID : string := "meister.io/cloud-uid".

Record Metadata := {
  name : string;
  uid : string;
  resource_version : string;
  generation : N;
  labels : smap string;
  annotations : smap string;
  creation_timestamp : option instant;
  deletion_timestamp : option instant;
  finalizers : list string;
}.

Definition metadata_default : Metadata :=
  {| name := ""; uid := ""; resource_version := ""; generation := 0; labels := [];
     annotations := []; creation_timestamp := None; deletion_timestamp := None;
     finalizers := [] |}.

Record Object (S St : Type) := {
  api_version : string;
  kind : string;
  metadata : Metadata;
  spec : S;
  status : St;
}.
Arguments api_version {S St} _.
Arguments kind {S St} _.
Arguments metadata {S St} _.
Arguments spec {S St} _.
Arguments status {S St} _.

(** [Object::new]; the fresh identifier and the clock are its two inputs from
    outside. *)
Definition object_new {S St} (api_version kind name uid : string) (now : instant) (spec : S)
    (status_default : St) : Object S St :=
  {| Objects.api_version := api_version; Objects.kind := kind;
     metadata := {| Objects.name := name; Objects.uid := uid; resource_version := "";
                    generation := 0; labels := []; annotations := [];
                    creation_timestamp := Some now; deletion_timestamp := None;
                    finalizers := [] |};
     Objects.spec := spec; status := status_default |}.

Definition is_deleting {S St} (o : Object S St) : bool :=
  match deletion_timestamp (metadata o) with Some _ => true | None => false end.

Definition traceparent (m : Metadata) : option string :=
  sget ANNOTATION_TRACEPARENT (annotations m).

Definition set_labels (m : Metadata) (l : smap string) : Metadata :=
  {| name := name m; uid := uid m; resource_version := resource_version m;
     generation := generation m; labels := l; annotations := annotations m;
     creation_timestamp := creation_timestamp m; deletion_timestamp := deletion_timestamp m;
     finalizers := finalizers m |}.

Definition set_annotations (m : Metadata) (a : smap string) : Metadata :=
  {| name := name m; uid := uid m; resource_version := resource_version m;
     generation := generation m; labels := labels m; annotations := a;
     creation_timestamp := creation_timestamp m; deletion_timestamp := deletion_timestamp m;
     finalizers := finalizers m |}.

Definition set_finalizers (m : Metadata) (f : list string) : Metadata :=
  {| name := name m; uid := uid m; resource_version := resource_version m;
     generation := generation m; labels := labels m; annotations := annotations m;
     creation_timestamp := creation_timestamp m; deletion_timestamp := deletion_timestamp m;
     finalizers := f |}.

Definition set_resource_version (m : Metadata) (v : string) : Metadata :=
  {| name := name m; uid := uid m; resource_version := v;
     generation := generation m; labels := labels m; annotations := annotations m;
     creation_timestamp := creation_timestamp m; deletion_timestamp := deletion_timestamp m;
     finalizers := finalizers m |}.

Definition set_generation (m : Metadata) (g : N) : Metadata :=
  {| name := name m; uid := uid m; resource_version := resource_version m;
     generation := g; labels := labels m; annotations := annotations m;
     creation_timestamp := creation_timestamp m; deletion_timestamp := deletion_timestamp m;
     finalizers := finalizers m |}.

Definition set_deletion (m : Metadata) (d : option instant) : Metadata :=
  {| name := name m; uid := uid m; resource_version := resource_version m;
     generation := generation m; labels := labels m; annotations := annotations m;
     creation_timestamp := creation_timestamp m; deletion_timestamp := d;
     finalizers := finalizers m |}.

Definition with_metadata {S St} (o : Object S St) (m : Metadata) : Object S St :=
  {| api_version := api_version o; kind := kind o; metadata := m; spec := spec o;
     status := status o |}.

Definition with_spec {S St} (o : Object S St) (s : S) : Object S St :=
  {| api_version := api_version o; kind := kind o; metadata := metadata o; spec := s;
     status := status o |}.

Definition with_status {S St} (o : Object S St) (s : St) : Object S St :=
  {| api_version := api_version o; kind := kind o; metadata := metadata o; spec := spec o;
     status := s |}.

Definition set_traceparent (m : Metadata) (tp : string) : Metadata :=
  set_annotations m (sinsert ANNOTATION_TRACEPARENT tp (annotations m)).

Definition managed_by_cloud (m : Metadata) : bool :=
  bool_decide (sget LABEL_MANAGED_BY (labels m) = Some MANAGED_BY_CLOUD).

Definition cloud_uid (m : Metadata) : option string := sget LABEL_CLOUD_UID (labels m).

Definition mark_managed_by_cloud (m : Metadata) (uid : string) : Metadata :=
  set_labels m (sinsert LABEL_CLOUD_UID uid (sinsert LABEL_MANAGED_BY MANAGED_BY_CLOUD (labels m))).

(** Tenancy of a reference: [None] and the empty string are both unscoped. *)
Definition same_tenancy (theirs : string) (mine : option string) : bool :=
  match mine with
  | Some mine =>
      if negb (str_is_empty mine) then String.eqb theirs mine else str_is_empty theirs
  | None => str_is_empty theirs
  end.

(** The tenant a normalised reader sees. *)
Definition tenancy (t : option string) : string :=
  match t with Some s => s | None => "" end.

(** * Refusals: [StoreError] of [store.rs], [ApiError] of [rest/mod.rs] *)

Module StoreError.
Inductive t :=
| NotFound (what : string)
| AlreadyExists (what : string)
| Terminating (what : string)
| Conflict (what : string)
| Invalid (what : string)
| Backend (what : string)
| Timeout (what : string) (after : N).
End StoreError.

Module ApiError.
Record t := { status : N; reason : string; message : string; field : option string }.

Definition new (status : N) (reason message : string) : t :=
  {| ApiError.status := status; reason := reason; message := message; field := None |}.
End ApiError.

Definition invalid (message : string) : ApiError.t := ApiError.new 422 "Invalid" message.

Definition invalid_field (field message : string) : ApiError.t :=
  {| ApiError.status := ApiError.status (invalid message);
     ApiError.reason := ApiError.reason (invalid message);
     ApiError.message := message; ApiError.field := Some field |}.

Definition conflict (message : string) : ApiError.t := ApiError.new 409 "Conflict" message.

Definition forbidden (message : string) : ApiError.t := ApiError.new 403 "Forbidden" message.

(** [From<StoreError> for ApiError]: the status and the reason. *)
Definition api_status (e : StoreError.t) : N * string :=
  match e with
  | StoreError.NotFound _ => (404, "NotFound")%N
  | StoreError.AlreadyExists _ => (409, "AlreadyExists")%N
  | StoreError.Terminating _ => (409, "Terminating")%N
  | StoreError.Conflict _ => (409, "Conflict")%N
  | StoreError.Invalid _ => (422, "Invalid")%N
  | StoreError.Backend _ => (500, "Internal")%N
  | StoreError.Timeout _ _ => (503, "Timeout")%N
  end.

(** [DryRun::preview]. *)
Definition preview {S St} (dry : bool) (o : Object S St) : option (Object S St) :=
  if dry then
    let m := metadata o in
    Some (with_metadata o
            (set_annotations
               (set_resource_version (set_generation m (N.max (generation m) 1)) "")
               (sinsert ANNOTATION_DRY_RUN "true" (annotations m))))
  else None.

(** * Lemmas *)

Lemma mark_managed_by_cloud_reads m u :
  managed_by_cloud (mark_managed_by_cloud m u) = true /\
  cloud_uid (mark_managed_by_cloud m u) = Some u.
Proof.
  unfold managed_by_cloud, cloud_uid, mark_managed_by_cloud, sget, sinsert. simpl. split.
  - rewrite bt_get_insert_ne by (apply _ || done). by rewrite bt_get_insert_eq by apply _.
  - by rewrite bt_get_insert_eq by apply _.
Qed.

(** Tenancy is equality of the normalised names. *)
Lemma same_tenancy_spec theirs mine :
  same_tenancy theirs mine = true <-> theirs = tenancy mine.
Proof.
  unfold same_tenancy, tenancy. destruct mine as [[|a m]|]; simpl.
  - destruct theirs; naive_solver.
  - apply String.eqb_eq.
  - destruct theirs; naive_solver.
Qed.
