(* ===== verification/Store.v ===== *)
(** The object store: [src/shared/controller-api/src/store.rs].

    etcd and serde are not part of the sources.  [Etcd] names the operations the
    store calls and [EtcdLaws] what etcd documents of them: a transaction
    compares revisions and applies its writes at one new revision, or applies
    nothing.  [Serde] is the codec of a resource kind.  Requests of other
    processes happen between any two requests of ours ([env]), and any request
    may fail, before or after taking effect ([fault]). *)
From Stdlib Require Import Ascii String NArith ZArith List Bool Lia.
From stdpp Require Import base list strings relations.
From S2P Require Import Prelude RustStr Json Phase Objects.

(** * etcd *)

Record kv (Bytes : Type) := KV {
  kv_value : Bytes;
  create_revision : Z;
  mod_revision : Z;
  kv_lease : Z;
}.
Arguments KV {Bytes} _ _ _ _.
Arguments kv_value {Bytes} _.
Arguments create_revision {Bytes} _.
Arguments mod_revision {Bytes} _.
Arguments kv_lease {Bytes} _.

(** [Compare]: a revision is compared for equality; an absent key has zero. *)
Inductive compare := CreateRevision (key : string) (rev : Z) | ModRevision (key : string) (rev : Z).

(** [PutOptions]. *)
Inductive put_lease := NoLease | WithLease (id : Z) | IgnoreLease.

Inductive write (Bytes : Type) :=
| Put (key : string) (value : Bytes) (lease : put_lease)
| Delete (key : string).
Arguments Put {Bytes} _ _ _.
Arguments Delete {Bytes} _.

(** What a transaction answers: whether it applied, the header's revision, and
    the key read on the failing branch. *)
Record txn_response (Bytes : Type) := TxnResponse {
  succeeded : bool;
  header : option Z;
  read_back : option (kv Bytes);
}.
Arguments TxnResponse {Bytes} _ _ _.
Arguments succeeded {Bytes} _.
Arguments header {Bytes} _.
Arguments read_back {Bytes} _.

Class Etcd (S Bytes : Type) := {
  revision : S -> Z;
  look : S -> string -> option (kv Bytes);
  range : S -> string -> list (string * kv Bytes);
  (** compares, writes, the key the [or_else] branch reads *)
  etcd_txn : S -> list compare -> list (write Bytes) -> option string -> S * txn_response Bytes;
  etcd_put : S -> string -> Bytes -> S;
  etcd_delete : S -> string -> S * option (kv Bytes);
}.

Section documented.
Context {S Bytes : Type} `{!Etcd S Bytes}.

Definition holds (s : S) (c : compare) : bool :=
  match c with
  | CreateRevision key rev =>
      Z.eqb (match look s key with Some kv => create_revision kv | None => 0%Z end) rev
  | ModRevision key rev =>
      Z.eqb (match look s key with Some kv => mod_revision kv | None => 0%Z end) rev
  end.

(** One key after a write at revision [rev]. *)
Definition after_write (rev : Z) (key : string) (old : option (kv Bytes)) (w : write Bytes)
    : option (kv Bytes) :=
  match w with
  | Put k value lease =>
      if String.eqb k key then
        Some {| kv_value := value;
                create_revision := match old with Some o => create_revision o | None => rev end;
                mod_revision := rev;
                kv_lease := match lease, old with
                            | NoLease, _ => 0%Z
                            | WithLease id, _ => id
                            | IgnoreLease, Some o => kv_lease o
                            | IgnoreLease, None => 0%Z
                            end |}
      else old
  | Delete k => if String.eqb k key then None else old
  end.

(** A put that keeps the lease, and a deletion that deletes something, need the
    key to be there. *)
Definition puttable (s : S) (w : write Bytes) : bool :=
  match w with Put k _ IgnoreLease | Delete k => is_some (look s k) | _ => true end.

Definition after_writes (rev : Z) (key : string) (old : option (kv Bytes)) (ws : list (write Bytes))
    : option (kv Bytes) := foldl (after_write rev key) old ws.
End documented.

(** What etcd documents. *)
Class EtcdLaws (S Bytes : Type) `{!Etcd S Bytes} : Prop := {
  look_bounds : forall (s : S) k kv, look s k = Some kv ->
    (0 < create_revision kv <= mod_revision kv)%Z /\ (mod_revision kv <= revision s)%Z;
  revision_nonneg : forall s : S, (0 <= revision s)%Z;
  range_spec : forall (s : S) p k kv, In (k, kv) (range s p) <-> starts_with p k = true /\ look s k = Some kv;
  range_nodup : forall (s : S) p, NoDup (map fst (range s p));
  txn_refused : forall (s : S) cs ws e, forallb (holds s) cs = false ->
    etcd_txn s cs ws e
    = (s, {| succeeded := false; header := Some (revision s); read_back := e ≫= look s |});
  txn_applied : forall (s : S) cs w ws e,
    forallb (holds s) cs = true -> forallb (puttable s) (w :: ws) = true ->
    exists s', etcd_txn s cs (w :: ws) e
      = (s', {| succeeded := true; header := Some (revision s'); read_back := None |})
      /\ revision s' = (revision s + 1)%Z
      /\ forall k, look s' k = after_writes (revision s') k (look s k) (w :: ws);
  txn_void : forall (s : S) cs w e, puttable s w = false -> (etcd_txn s cs [w] e).1 = s;
  put_spec : forall (s : S) key v,
    revision (etcd_put s key v) = (revision s + 1)%Z
    /\ forall k, look (etcd_put s key v) k
       = after_write (revision s + 1) k (look s k) (Put key v NoLease);
  delete_spec : forall (s : S) key s' old, etcd_delete s key = (s', old) ->
    old = look s key /\ (revision s <= revision s')%Z
    /\ forall k, look s' k = if String.eqb key k then None else look s k;
}.

(** * Resource kinds *)

Module NameShape.
Inductive t := DnsLabel | Dotted.
End NameShape.

(** [trait Resource]: the directory, the name syntax, and the derivation run
    before every write. *)
Class Resource (Sp St : Type) := {
  RESOURCE : string;
  NAME_SHAPE : NameShape.t;
  settle : instant -> Object Sp St -> Object Sp St;
}.

(** [settle] is total and derives status from facts on the object. *)
Class SettleLaws (Sp St : Type) `{!Resource Sp St} : Prop := {
  settle_metadata : forall now (o : Object Sp St), metadata (settle now o) = metadata o;
}.

(** [serde_json] for one kind. *)
Class Serde (Bytes Sp St : Type) := {
  to_vec : Object Sp St -> result string Bytes;
  from_slice : Bytes -> result string (Object Sp St);
}.

Class SerdeLaws (Bytes Sp St : Type) `{!Serde Bytes Sp St} : Prop := {
  from_to : forall (o : Object Sp St) b, to_vec o = Ok b -> from_slice b = Ok o;
}.

(** [serde_json::from_slice::<Value>]. *)
Class RawJson (Bytes : Type) := { raw : Bytes -> option value }.

(** * Names and keys *)

Definition MAX_NAME : N := 63.

Definition is_ascii_lowercase (c : ascii) : bool := let n := byte_of c in ((97 <=? n) && (n <=? 122))%N.
Definition is_ascii_uppercase (c : ascii) : bool := let n := byte_of c in ((65 <=? n) && (n <=? 90))%N.
Definition is_ascii_alphanumeric (c : ascii) : bool :=
  is_ascii_lowercase c || is_ascii_uppercase c || is_digit c.

Definition first_char_is (p : ascii -> bool) (s : string) : bool :=
  match s with String c _ => p c | EmptyString => false end.

(** [str::contains] of a pattern of two characters. *)
Fixpoint contains_two (a b : ascii) (s : string) : bool :=
  match s with
  | String x ((String y _) as rest) => (Ascii.eqb x a && Ascii.eqb y b) || contains_two a b rest
  | _ => false
  end.

Definition name_char (dotted : bool) (c : ascii) : bool :=
  is_ascii_lowercase c || is_digit c || Ascii.eqb c "-" || (dotted && Ascii.eqb c ".").

Definition check_name (name : string) (shape : NameShape.t) : result StoreError.t unit :=
  let invalid why := Err (StoreError.Invalid ("invalid object: metadata.name " +:+ debug name +:+ " " +:+ why)) in
  let dotted := match shape with NameShape.Dotted => true | NameShape.DnsLabel => false end in
  if str_is_empty name then Err (StoreError.Invalid "invalid object: metadata.name must be set")
  else if (MAX_NAME <? str_len name)%N then
    invalid ("is " +:+ show_N (str_len name) +:+ " bytes; at most " +:+ show_N MAX_NAME +:+ " are allowed")
  else if negb (str_forallb (name_char dotted) name) then
    invalid (if dotted
             then "may hold only lowercase letters, digits, '-' and '.' (it is one path segment: it becomes an etcd key and a file name)"
             else "may hold only lowercase letters, digits and '-' (it is a dns label: it becomes an etcd key, a file name and part of an interface name)")
  else if dotted && contains_two "." "." name then invalid ("may not hold " +:+ debug "..")
  else if negb (first_char_is is_ascii_alphanumeric name)
          || negb (first_char_is is_ascii_alphanumeric (str_rev name)) then
    invalid "must start and end with a letter or a digit"
  else Ok tt.

Definition object_key (prefix resource name : string) : string :=
  prefix +:+ "/registry/" +:+ resource +:+ "/" +:+ name.

Definition object_dir (prefix resource : string) : string := prefix +:+ "/registry/" +:+ resource +:+ "/".

Definition lease_key (prefix resource name : string) : string :=
  prefix +:+ "/leases/" +:+ resource +:+ "/" +:+ name.

Definition lease_dir (prefix resource : string) : string := prefix +:+ "/leases/" +:+ resource +:+ "/".

Definition fence_mark (resource name : string) : string := resource +:+ "/" +:+ name.

Module Fence.
Record t := { key : string; revision : Z }.
End Fence.

Definition metric_result (e : StoreError.t) : string :=
  match e with
  | StoreError.NotFound _ => "not-found"
  | StoreError.AlreadyExists _ => "already-exists"
  | StoreError.Terminating _ => "terminating"
  | StoreError.Conflict _ => "conflict"
  | StoreError.Invalid _ => "invalid"
  | StoreError.Backend _ => "backend"
  | StoreError.Timeout _ _ => "timeout"
  end.

(** * Requests *)

(** Seconds. *)
Definition REQUEST_TIMEOUT : N := 5.

(** How a request goes: answered, or failed with or without having applied; a
    failure is a timeout or an error of the client. *)
Inductive fate := Answered | Failed (applied : bool) (backend : option string).

(** The database and the number of requests made so far. *)
Record world (D : Type) := World { db : D; ticks : nat }.
Arguments World {D} _ _.
Arguments db {D} _.
Arguments ticks {D} _.

Definition store_m (D A : Type) : Type := world D -> world D * result StoreError.t A.

#[export] Instance store_ret {D} : MRet (store_m D) := fun _ a w => (w, Ok a).

#[export] Instance store_bind {D} : MBind (store_m D) := fun _ _ k m w =>
  match m w with (w', Ok a) => k a w' | (w', Err e) => (w', Err e) end.

Definition lift {D A} (r : result StoreError.t A) : store_m D A := fun w => (w, r).

(** The other processes' writes before request [n], how it goes, the clock. *)
Record surroundings (D : Type) := Surroundings {
  env : nat -> D -> D;
  fault : nat -> fate;
  clock : nat -> instant;
}.
Arguments Surroundings {D} _ _ _.
Arguments env {D} _ _ _.
Arguments fault {D} _ _.
Arguments clock {D} _ _.

(** [timed]. *)
Definition timed {D A} (sur : surroundings D) (what : string) (f : D -> D * A) : store_m D A :=
  fun w =>
    let s := env sur (ticks w) (db w) in
    let w' s := World s (S (ticks w)) in
    match fault sur (ticks w) with
    | Answered => let '(s', a) := f s in (w' s', Ok a)
    | Failed applied how =>
        (w' (if applied then (f s).1 else s),
         Err (match how with
              | Some msg => StoreError.Backend msg
              | None => StoreError.Timeout what REQUEST_TIMEOUT
              end))
    end.

(** * Operations *)

Section operations.
Context {D Bytes : Type} `{!Etcd D Bytes, !RawJson Bytes}.
Variable prefix : string.
Variable sur : surroundings D.

(** [Utc::now()] as the operation reads it. *)
Definition now : store_m D instant := fun w => (w, Ok (clock sur (ticks w))).

Definition txn (what : string) (cs : list compare) (ws : list (write Bytes)) (or_else : option string)
    : store_m D (txn_response Bytes) := timed sur what (fun s => etcd_txn s cs ws or_else).

Definition read {A} (what : string) (f : D -> A) : store_m D A := timed sur what (fun s => (s, f s)).

(** The half of a name collision that tells a deleting object apart. *)
Definition value_is_deleting (v : Bytes) : bool :=
  unwrap_or false
    (raw v ≫= fun v => jget v "metadata" ≫= fun m => jget m "deletionTimestamp" ≫= fun d =>
       match as_str d with Some s => Some (negb (str_is_empty s)) | None => None end).

Definition is_terminating (read_back : option (kv Bytes)) : bool :=
  match read_back with Some kv => value_is_deleting (kv_value kv) | None => false end.

(** [held]: [None] when the key a failed fenced create read is not there. *)
Definition held (read_back : option (kv Bytes)) : option bool :=
  match read_back with Some kv => Some (value_is_deleting (kv_value kv)) | None => None end.

Section kind.
Context {Sp St : Type} `{!Resource Sp St, !Serde Bytes Sp St}.
Abbreviation T := (Object Sp St).

Definition subject (name : string) : string := RESOURCE (Sp := Sp) (St := St) +:+ "/" +:+ name.

Definition key_of (name : string) : string := object_key prefix (RESOURCE (Sp := Sp) (St := St)) name.

Definition dir_of : string := object_dir prefix (RESOURCE (Sp := Sp) (St := St)).

Definition conflict_on (name why : string) : StoreError.t :=
  StoreError.Conflict ("resource version conflict on " +:+ subject name +:+ " (" +:+ why +:+ ")").

Definition decode (bytes : Bytes) (mod_revision : Z) : result StoreError.t T :=
  match from_slice bytes with
  | Ok obj => Ok (with_metadata obj (set_resource_version (metadata obj) (show_Z mod_revision)))
  | Err e => Err (StoreError.Invalid ("invalid object: does not parse: " +:+ e))
  end.

Definition clean (obj : T) : T := with_metadata obj (set_resource_version (metadata obj) "").

Definition encode (obj : T) (now : instant) : result StoreError.t Bytes :=
  match to_vec (settle now (clean obj)) with
  | Ok b => Ok b
  | Err e => Err (StoreError.Invalid ("invalid object: " +:+ e))
  end.

Definition get (name : string) : store_m D T :=
  found ← read "get" (fun s => look s (key_of name));
  match found with
  | None => lift (Err (StoreError.NotFound (subject name)))
  | Some kv => lift (decode (kv_value kv) (mod_revision kv))
  end.

(** Undecodable objects are skipped (and logged). *)
Definition decode_range (kvs : list (string * kv Bytes)) : list T :=
  filter_map (fun '(_, kv) => result_ok (decode (kv_value kv) (mod_revision kv))) kvs.

Definition list_counted : store_m D (list T * nat) :=
  kvs ← read "list" (fun s => range s dir_of);
  mret (decode_range kvs, length kvs).

Definition list_ : store_m D (list T) := r ← list_counted; mret r.1.

Definition list_complete (stake : string) : store_m D (list T) :=
  r ← list_counted;
  if negb (Nat.eqb (length r.1) r.2)
  then lift (Err (StoreError.Invalid ("some " +:+ RESOURCE (Sp := Sp) (St := St)
                                      +:+ " objects did not decode, so " +:+ stake)))
  else mret r.1.

Definition count : store_m D nat := read "count" (fun s => length (range s dir_of)).

Definition written (name : string) (value : Bytes) (resp : txn_response Bytes) : store_m D T :=
  match header resp with
  | Some revision => lift (decode value revision)
  | None => get name
  end.

(** The parse of a [resourceVersion] a write is guarded by. *)
Definition parsed_version (version why : string) : result StoreError.t Z :=
  ok_or (StoreError.Invalid why) (parse_i64 version).

Definition update_needs_version : string :=
  "invalid object: metadata.resourceVersion must be set for updates".

Definition with_generation_one (obj : T) : T := with_metadata obj (set_generation (metadata obj) 1).

Definition create_inner (obj : T) (lease : option Z) : store_m D T :=
  let name := name (metadata obj) in
  _ ← lift (check_name name (NAME_SHAPE (Sp := Sp) (St := St)));
  at_ ← now;
  value ← lift (encode (with_generation_one obj) at_);
  resp ← txn "create" [CreateRevision (key_of name) 0]
           [Put (key_of name) value (match lease with Some id => WithLease id | None => NoLease end)]
           (Some (key_of name));
  if negb (succeeded resp)
  then lift (Err (if is_terminating (read_back resp) then StoreError.Terminating (subject name)
                  else StoreError.AlreadyExists (subject name)))
  else written name value resp.

Definition create (obj : T) : store_m D T := create_inner obj None.

Definition update (obj : T) : store_m D T :=
  let name := name (metadata obj) in
  _ ← lift (check_name name (NAME_SHAPE (Sp := Sp) (St := St)));
  rev ← lift (parsed_version (resource_version (metadata obj)) update_needs_version);
  at_ ← now;
  value ← lift (encode obj at_);
  resp ← txn "update" [ModRevision (key_of name) rev] [Put (key_of name) value IgnoreLease] None;
  if negb (succeeded resp) then lift (Err (conflict_on name "concurrent write"))
  else written name value resp.

Definition create_fenced (to_bytes : string -> Bytes) (obj : T) (fence : Fence.t)
    : store_m D (option T) :=
  let name := name (metadata obj) in
  _ ← lift (check_name name (NAME_SHAPE (Sp := Sp) (St := St)));
  at_ ← now;
  value ← lift (encode (with_generation_one obj) at_);
  resp ← txn "create" [CreateRevision (key_of name) 0; ModRevision (Fence.key fence) (Fence.revision fence)]
           [Put (key_of name) value NoLease;
            Put (Fence.key fence) (to_bytes (fence_mark (RESOURCE (Sp := Sp) (St := St)) name)) NoLease]
           (Some (key_of name));
  if negb (succeeded resp) then
    match held (read_back resp) with
    | Some true => lift (Err (StoreError.Terminating (subject name)))
    | Some false => lift (Err (StoreError.AlreadyExists (subject name)))
    | None => mret None
    end
  else o ← written name value resp; mret (Some o).

Definition update_fenced (to_bytes : string -> Bytes) (obj : T) (fence : Fence.t)
    : store_m D (option T) :=
  let name := name (metadata obj) in
  _ ← lift (check_name name (NAME_SHAPE (Sp := Sp) (St := St)));
  rev ← lift (parsed_version (resource_version (metadata obj)) update_needs_version);
  at_ ← now;
  value ← lift (encode obj at_);
  resp ← txn "update" [ModRevision (key_of name) rev; ModRevision (Fence.key fence) (Fence.revision fence)]
           [Put (key_of name) value IgnoreLease;
            Put (Fence.key fence) (to_bytes (fence_mark (RESOURCE (Sp := Sp) (St := St)) name)) NoLease]
           (Some (key_of name));
  if negb (succeeded resp) then
    if is_some_and (fun kv => Z.eqb (mod_revision kv) rev) (read_back resp) then mret None
    else lift (Err (conflict_on name "concurrent write"))
  else o ← written name value resp; mret (Some o).

(** The retry loop of [mutate] and [mutate_if]; [admits] is the uid check.  The
    edit is an [FnMut]: a closure with state [c], called anew on every round. *)
Fixpoint mutate_loop {C} (admits : T -> option StoreError.t) (f : C -> T -> C * T) (name : string)
    (rounds : nat) (c : C) : store_m D (C * T) :=
  match rounds with
  | O => lift (Err (conflict_on name "retries exhausted"))
  | Datatypes.S rounds =>
      obj ← get name;
      match admits obj with
      | Some e => lift (Err e)
      | None => fun w =>
          let '(c', obj') := f c obj in
          match update obj' w with
          | (w', Ok o) => (w', Ok (c', o))
          | (w', Err (StoreError.Conflict _)) => mutate_loop admits f name rounds c' w'
          | (w', Err e) => (w', Err e)
          end
      end
  end.

Definition MUTATE_ROUNDS : nat := 8.

(** An edit without state of its own. *)
Definition stateless (f : T -> T) (c : unit) (o : T) : unit * T := (c, f o).

Definition mutate (name : string) (f : T -> T) : store_m D T :=
  r ← mutate_loop (fun _ => None) (stateless f) name MUTATE_ROUNDS tt; mret r.2.

Definition expects_uid (name uid : string) (obj : T) : option StoreError.t :=
  if negb (String.eqb (Objects.uid (metadata obj)) uid)
  then Some (conflict_on name "recreated under the same name") else None.

(** [mutate_if] with the closure's last state. *)
Definition mutate_if_with {C} (name uid : string) (f : C -> T -> C * T) (c : C) : store_m D (C * T) :=
  mutate_loop (expects_uid name uid) f name MUTATE_ROUNDS c.

Definition mutate_if (name uid : string) (f : T -> T) : store_m D T :=
  r ← mutate_if_with name uid (stateless f) tt; mret r.2.

Definition delete (name : string) : store_m D unit :=
  _ ← timed sur "delete" (fun s => etcd_delete s (key_of name)); mret tt.

Definition delete_if (name version : string) : store_m D unit :=
  rev ← lift (parsed_version version
                "invalid object: metadata.resourceVersion must be set for a guarded delete");
  resp ← txn "delete_if" [ModRevision (key_of name) rev] [Delete (key_of name)] None;
  if negb (succeeded resp) then lift (Err (conflict_on name "concurrent write")) else mret tt.

Definition take (name : string) : store_m D (option T) :=
  prev ← timed sur "take" (fun s => etcd_delete s (key_of name));
  match prev with
  | Some kv => o ← lift (decode (kv_value kv) (mod_revision kv)); mret (Some o)
  | None => mret None
  end.
End kind.

(** [fence]: the marker's revision, zero where nobody has passed it. *)
Definition fence (name : string) : store_m D Fence.t :=
  let key := prefix +:+ "/fences/" +:+ name in
  kv ← read "fence" (fun s => look s key);
  mret {| Fence.key := key;
          Fence.revision := match kv with Some kv => mod_revision kv | None => 0%Z end |}.

Section two_kinds.
Context {Sp St Sp' St' : Type} `{!Resource Sp St, !Serde Bytes Sp St, !Resource Sp' St', !Serde Bytes Sp' St'}.

(** Two listings at one revision.  etcd answers both ranges of the transaction. *)
Definition list2 : store_m D (list (Object Sp St) * list (Object Sp' St')) :=
  kvs ← read "list2" (fun s => (range s (dir_of (Sp := Sp) (St := St)), range s (dir_of (Sp := Sp') (St := St'))));
  mret (decode_range kvs.1, decode_range kvs.2).

Definition update_if_standing (obj : Object Sp St) (guard : Object Sp' St') : store_m D (Object Sp St) :=
  let name := name (metadata obj) in
  _ ← lift (check_name name (NAME_SHAPE (Sp := Sp) (St := St)));
  rev ← lift (parsed_version (resource_version (metadata obj)) update_needs_version);
  let guard_name := Objects.name (metadata guard) in
  guard_rev ← lift (parsed_version (resource_version (metadata guard))
                 "invalid guard: metadata.resourceVersion must be set for a guarded update");
  at_ ← now;
  value ← lift (encode obj at_);
  let guard_key := key_of (Sp := Sp') (St := St') guard_name in
  resp ← txn "update"
           [ModRevision (key_of (Sp := Sp) (St := St) name) rev; ModRevision guard_key guard_rev]
           [Put (key_of (Sp := Sp) (St := St) name) value IgnoreLease] (Some guard_key);
  if negb (succeeded resp) then
    lift (Err (if is_some_and (fun kv => Z.eqb (mod_revision kv) guard_rev) (read_back resp)
               then conflict_on (Sp := Sp) (St := St) name "concurrent write"
               else StoreError.Conflict
                      (subject (Sp := Sp') (St := St') guard_name
                       +:+ " no longer stands as it was read; "
                       +:+ subject (Sp := Sp) (St := St) name +:+ " was not written")))
  else written name value resp.
End two_kinds.
End operations.

(** * Lemmas *)

Section evolution.
Context {D Bytes : Type} `{!Etcd D Bytes, !EtcdLaws D Bytes}.

(** A write request of anybody, as the store makes them. *)
Inductive other : D -> D -> Prop :=
| other_txn s cs w ws e :
    forallb (puttable s) (w :: ws) = true -> other s (etcd_txn s cs (w :: ws) e).1
| other_put s k v : other s (etcd_put s k v)
| other_delete s k : other s (etcd_delete s k).1.

Definition evolves : D -> D -> Prop := rtc other.

(** A later value of a key is the earlier one, or was written since. *)
Definition newer (s s' : D) : Prop :=
  (revision s <= revision s')%Z
  /\ forall k b, look s' k = Some b -> look s k = Some b \/ (revision s < mod_revision b)%Z.

Lemma after_writes_some rev k old ws (b : kv Bytes) :
  after_writes rev k old ws = Some b -> old = Some b \/ mod_revision b = rev.
Proof.
  unfold after_writes. revert old. induction ws as [|w ws IH]; intros old; simpl; [auto|].
  intros [H|H]%IH; [|auto]. destruct w as [k' v l|k']; simpl in H; destruct (String.eqb k' k);
    auto; [injection H as <-; auto|done].
Qed.

Lemma newer_refl s : newer s s.
Proof. split; [lia|auto]. Qed.

Lemma newer_trans s1 s2 s3 : newer s1 s2 -> newer s2 s3 -> newer s1 s3.
Proof.
  intros [Hr H] [Hr' H']. split; [lia|]. intros k b Hb.
  destruct (H' k b Hb) as [Hb2|?]; [auto|right; lia].
Qed.

Lemma newer_txn s cs w ws e :
  forallb (puttable s) (w :: ws) = true -> newer s (etcd_txn s cs (w :: ws) e).1.
Proof.
  intros Hp. destruct (forallb (holds s) cs) eqn:E.
  - destruct (txn_applied s cs w ws e E Hp) as (s' & -> & Hr & Hl). simpl. split; [lia|].
    intros k b Hb. rewrite Hl in Hb. apply after_writes_some in Hb as [?|?]; [auto|right; lia].
  - rewrite txn_refused by done. apply newer_refl.
Qed.

Lemma newer_other s s' : other s s' -> newer s s'.
Proof.
  intros [s0 cs w ws e Hp|s0 k v|s0 k].
  - by apply newer_txn.
  - destruct (put_spec s0 k v) as [Hr Hl]. split; [lia|]. intros k' b Hb. rewrite Hl in Hb.
    simpl in Hb. destruct (String.eqb k k'); [|auto]. injection Hb as <-. right. simpl. lia.
  - destruct (etcd_delete s0 k) as [s1 o] eqn:E. destruct (delete_spec _ _ _ _ E) as (_ & Hr & Hl).
    simpl. split; [done|]. intros k' b Hb. rewrite Hl in Hb. destruct (String.eqb k k'); [done|auto].
Qed.

Lemma newer_evolves s s' : evolves s s' -> newer s s'.
Proof. induction 1; eauto using newer_refl, newer_trans, newer_other. Qed.

(** A revision names one value of a key. *)
Lemma same_revision_same_value s s' k a b :
  evolves s s' -> look s k = Some a -> look s' k = Some b -> mod_revision a = mod_revision b -> a = b.
Proof.
  intros [_ H]%newer_evolves Ha Hb He. destruct (H k b Hb) as [|Hlt]; [congruence|].
  apply look_bounds in Ha as [_ ?]. lia.
Qed.
End evolution.

(** ** What a successful request did *)

Lemma timed_ok {D A} (sur : surroundings D) what (f : D -> D * A) w w' a :
  timed sur what f w = (w', Ok a) ->
  w' = World (f (env sur (ticks w) (db w))).1 (S (ticks w)) /\ a = (f (env sur (ticks w) (db w))).2.
Proof.
  unfold timed. destruct (fault sur (ticks w)); [|by destruct backend].
  destruct (f _) as [s' a'] eqn:E. by intros [= <- <-].
Qed.

Lemma bind_ok {D A B} (m : store_m D A) (k : A -> store_m D B) w w' b :
  (m ≫= k) w = (w', Ok b) -> exists w1 a, m w = (w1, Ok a) /\ k a w1 = (w', Ok b).
Proof. unfold mbind, store_bind. destruct (m w) as [w1 [a|e]]; [|done]. eauto. Qed.

Lemma lift_ok {D A} (r : result StoreError.t A) (w w' : world D) a :
  lift r w = (w', Ok a) -> w' = w /\ r = Ok a.
Proof. unfold lift. by intros [= -> ->]. Qed.

Lemma check_name_err n shape e : check_name n shape = Err e -> exists why, e = StoreError.Invalid why.
Proof.
  unfold check_name.
  repeat match goal with |- (if ?b then _ else _) = _ -> _ => destruct b end; intros H;
    try done; injection H as <-; eauto.
Qed.

Section facts.
Context {D Bytes : Type} `{!Etcd D Bytes, !EtcdLaws D Bytes, !RawJson Bytes}.
Context {Sp St : Type} `{!Resource Sp St, !Serde Bytes Sp St, !SettleLaws Sp St, !SerdeLaws Bytes Sp St}.
Variable prefix : string.
Variable sur : surroundings D.
Abbreviation T := (Object Sp St).
Abbreviation key := (key_of (Sp := Sp) (St := St) prefix).

(** The database request [n] of the run acts on. *)
Definition before (w : world D) : D := env sur (ticks w) (db w).

Lemma get_ok name w w' (o : T) :
  get prefix sur name w = (w', Ok o) ->
  exists kv, look (before w) (key name) = Some kv /\ w' = World (before w) (S (ticks w))
    /\ decode (kv_value kv) (mod_revision kv) = Ok o.
Proof.
  intros (w1 & found & Hr & H)%bind_ok. apply timed_ok in Hr as [-> ->]. simpl in H.
  destruct (look _ _) as [kv|] eqn:E; [|done]. apply lift_ok in H as [-> H]. by exists kv.
Qed.

Lemma decode_version (b : Bytes) rev (o : T) :
  decode b rev = Ok o -> resource_version (metadata o) = show_Z rev.
Proof. unfold decode. destruct (from_slice b); [|done]. by intros [= <-]. Qed.

(** The state a successful one-key write leaves. *)
Definition wrote (s s' : D) (name : string) (lease : put_lease) (b : Bytes) : Prop :=
  revision s' = (revision s + 1)%Z
  /\ forall k, look s' k = after_write (revision s') k (look s k) (Put (key name) b lease).

Lemma update_ok (obj : T) rev w w' o :
  parse_i64 (resource_version (metadata obj)) = Some rev -> rev <> 0%Z ->
  update prefix sur obj w = (w', Ok o) ->
  exists kv b,
    look (before w) (key (name (metadata obj))) = Some kv /\ mod_revision kv = rev
    /\ encode obj (clock sur (ticks w)) = Ok b
    /\ ticks w' = S (ticks w) /\ wrote (before w) (db w') (name (metadata obj)) IgnoreLease b
    /\ decode b (revision (db w')) = Ok o.
Proof.
  intros Hrev Hne. unfold update. intros (w1 & [] & Hn & H)%bind_ok. apply lift_ok in Hn as [-> _].
  apply bind_ok in H as (w1 & rev' & Hv & H). apply lift_ok in Hv as [-> Hv].
  unfold parsed_version in Hv. rewrite Hrev in Hv. injection Hv as <-.
  apply bind_ok in H as (w1 & at_ & Ha & H). injection Ha as <- <-.
  apply bind_ok in H as (w1 & b & Hb & H). apply lift_ok in Hb as [-> Hb].
  apply bind_ok in H as (w1 & resp & Ht & H). apply timed_ok in Ht as [-> ->]. fold (before w) in *.
  destruct (forallb (holds (before w)) [ModRevision (key (name (metadata obj))) rev]) eqn:E.
  2:{ rewrite txn_refused in H by done. done. }
  simpl in E. destruct (look (before w) _) as [kv|] eqn:Ek; [|rewrite andb_true_r in E; lia].
  rewrite andb_true_r in E. apply Z.eqb_eq in E.
  destruct (txn_applied (before w) [ModRevision (key (name (metadata obj))) rev]
    (Put (key (name (metadata obj))) b IgnoreLease) [] None) as (s' & He & Hr & Hl).
  { simpl. rewrite Ek. by rewrite E, Z.eqb_refl. }
  { simpl. by rewrite Ek. }
  rewrite He in H. simpl in H. apply lift_ok in H as [-> H]. exists kv, b. simpl.
  split_and!; try done.
Qed.

Lemma encode_name (o : T) at_ b rev o' :
  encode o at_ = Ok b -> decode b rev = Ok o' ->
  o' = with_metadata (settle at_ (clean o)) (set_resource_version (metadata o) (show_Z rev)).
Proof.
  unfold encode. destruct (to_vec _) as [b'|] eqn:E; [|done]. intros [= <-].
  unfold decode. rewrite (from_to _ _ E). intros [= <-]. by rewrite settle_metadata.
Qed.

(** An edit that keeps the identity the write is guarded by. *)
Definition keeps_identity {C} (f : C -> T -> C * T) : Prop :=
  forall c o, name (metadata (f c o).2) = name (metadata o)
    /\ resource_version (metadata (f c o).2) = resource_version (metadata o).

(** The write that ended a retry loop, seen from the database. *)
Definition edited {C} (admits : T -> option StoreError.t) (f : C -> T -> C * T) (nm : string)
    (w' : world D) (r : C * T) : Prop :=
  exists s x kv b at_ c,
    look s (key nm) = Some kv /\ decode (kv_value kv) (mod_revision kv) = Ok x
    /\ admits x = None /\ encode (f c x).2 at_ = Ok b /\ r.1 = (f c x).1
    /\ wrote s (db w') nm IgnoreLease b /\ decode b (revision (db w')) = Ok r.2.

(** Every object is filed under its own name. *)
Definition filed (s : D) : Prop :=
  forall k kv x, look s (key k) = Some kv -> decode (kv_value kv) (mod_revision kv) = Ok x ->
    name (metadata (x : T)) = k.

(** What other processes may do: write through the store. *)
Definition fair : Prop :=
  forall n s, evolves s (env sur n s) /\ (filed s -> filed (env sur n s)).

(** A conflict is a write that did not happen. *)
Lemma update_conflict (obj : T) rev w w' why :
  parse_i64 (resource_version (metadata obj)) = Some rev -> rev <> 0%Z ->
  update prefix sur obj w = (w', Err (StoreError.Conflict why)) -> db w' = before w.
Proof.
  intros Hrev Hne. unfold update, parsed_version. rewrite Hrev. unfold mbind, store_bind.
  unfold lift, now, txn, timed. simpl. fold (before w).
  destruct (check_name _ _) as [[]|e] eqn:Ec; [|by destruct (check_name_err _ _ _ Ec) as [? ->]].
  destruct (encode _ _) as [b|e] eqn:Eb;
    [|by unfold encode in Eb; destruct (to_vec _); simplify_eq; intros [= <- ?]].
  destruct (fault sur (ticks w)); [|by destruct backend].
  destruct (forallb (holds (before w)) [ModRevision (key (name (metadata obj))) rev]) eqn:E.
  - destruct (txn_applied (before w) [ModRevision (key (name (metadata obj))) rev]
      (Put (key (name (metadata obj))) b IgnoreLease) [] None E) as (s' & -> & _).
    { cbn [forallb holds] in E. cbn [forallb puttable]. destruct (look (before w) _); [done|]. lia. }
    unfold written, lift, decode. simpl. destruct (from_slice b); intros H; simplify_eq.
  - rewrite txn_refused by done. simpl. intros H. unfold conflict_on in H. by simplify_eq.
Qed.

Lemma decoded_version (x : T) (kv : kv Bytes) rev :
  (0 <= mod_revision kv)%Z -> decode (kv_value kv) (mod_revision kv) = Ok x ->
  parse_i64 (resource_version (metadata x)) = Some rev -> rev = mod_revision kv.
Proof. intros Hpos Hx Hr. rewrite (decode_version _ _ _ Hx) in Hr. by apply parse_i64_show_inv in Hr. Qed.

(** An update that ends well or in a conflict had a version to parse. *)
Lemma update_parsed (obj : T) w w' r :
  update prefix sur obj w = (w', r) ->
  (exists o, r = Ok o) \/ (exists why, r = Err (StoreError.Conflict why)) ->
  exists rev, parse_i64 (resource_version (metadata obj)) = Some rev.
Proof.
  unfold update, mbind, store_bind, lift, parsed_version.
  destruct (check_name _ _) as [[]|e] eqn:Ec.
  - destruct (parse_i64 _) as [rev|]; [by exists rev|]. simpl. intros [= <- <-] [[??]|[??]]; done.
  - intros [= <- <-] [[??]|[why [= ->]]]; [done|].
    by destruct (check_name_err _ _ _ Ec) as [? ?].
Qed.

Lemma mutate_loop_ok {C} admits (f : C -> T -> C * T) nm rounds c w w' r :
  fair -> keeps_identity f -> filed (db w) ->
  mutate_loop prefix sur admits f nm rounds c w = (w', Ok r) -> edited admits f nm w' r.
Proof.
  intros Henv Hf. revert c w. induction rounds as [|n IH]; intros c w Hfiled; [done|]. simpl.
  intros (w1 & x & (kv & Hk & -> & Hx)%get_ok & H)%bind_ok.
  destruct (admits x) eqn:Ea; [done|]. destruct (Hf c x) as [Hn Hv].
  destruct (f c x) as [c' x'] eqn:Ef. simpl in Hn, Hv.
  assert (Hfb : filed (before w)) by (by apply Henv).
  pose proof (look_bounds _ _ _ Hk) as [Hpos _].
  destruct (update _ _ _ _) as [w2 u] eqn:Eu.
  assert (Hr : (exists o, u = Ok o) \/ (exists why, u = Err (StoreError.Conflict why))).
  { destruct u as [|[]]; eauto; done. }
  destruct (update_parsed _ _ _ _ Eu Hr) as [rev Er].
  assert (rev = mod_revision kv) as ->.
  { rewrite Hv in Er. eapply decoded_version; [|done..]. lia. }
  destruct Hr as [[o' ->]|[why ->]].
  - injection H as <- <-.
    destruct (update_ok x' _ _ _ _ Er ltac:(lia) Eu) as (kv2 & b & Hk2 & Hm & Hb & _ & Hw & Hd).
    rewrite Hn, (Hfb _ _ _ Hk Hx) in Hk2, Hw.
    assert (kv = kv2) as <- by (eapply same_revision_same_value; [apply Henv|done..]).
    eexists _, x, kv, b, _, c. rewrite Ef. by split_and!.
  - apply (IH c' w2); [|done]. rewrite (update_conflict _ _ _ _ _ Er ltac:(lia) Eu). by apply Henv, Hfb.
Qed.

(** What a retry loop leaves is the edit of an object it admitted, settled; no
    assumption about anybody else. *)
Lemma mutate_loop_written {C} admits (f : C -> T -> C * T) nm rounds c w w' r :
  (forall c o, resource_version (metadata (f c o).2) = resource_version (metadata o)) ->
  mutate_loop prefix sur admits f nm rounds c w = (w', Ok r) ->
  exists x c at_ rev, (0 < rev)%Z /\ admits x = None /\ r.1 = (f c x).1
    /\ r.2 = with_metadata (settle at_ (clean (f c x).2)) (set_resource_version (metadata (f c x).2) (show_Z rev)).
Proof.
  intros Hf. revert c w. induction rounds as [|n IH]; intros c w; [done|]. simpl.
  intros (w1 & x & (kv & Hk & -> & Hx)%get_ok & H)%bind_ok.
  destruct (admits x) eqn:Ea; [done|]. pose proof (Hf c x) as Hv.
  destruct (f c x) as [c' x'] eqn:Ef. simpl in Hv. pose proof (look_bounds _ _ _ Hk) as [Hpos _].
  destruct (update _ _ _ _) as [w2 [o|e]] eqn:Eu.
  - injection H as <- <-. destruct (update_parsed _ _ _ _ Eu) as [rev Er]; [eauto|].
    assert (rev = mod_revision kv) as ->.
    { rewrite Hv in Er. eapply decoded_version; [|done..]. lia. }
    destruct (update_ok x' _ _ _ _ Er ltac:(lia) Eu) as (kv2 & b & _ & _ & Hb & _ & [Hw _] & Hd).
    pose proof (revision_nonneg (before (World (before w) (S (ticks w))))).
    eexists x, c, _, _. rewrite Ef. split_and!; [|done..|].
    2: exact (encode_name _ _ _ _ _ Hb Hd).
    lia.
  - destruct e; try done. by eapply IH.
Qed.

(** A create answers a taken name as such, never as a conflict. *)
Lemma create_no_conflict (obj : T) w w' why : create prefix sur obj w <> (w', Err (StoreError.Conflict why)).
Proof.
  unfold create, create_inner, mbind, store_bind, lift, now.
  destruct (check_name _ _) as [[]|e] eqn:Ec; [|by destruct (check_name_err _ _ _ Ec) as [? ->]].
  unfold encode. destruct (to_vec _) as [b|e]; [|done].
  unfold txn, timed. destruct (fault sur _) as [|[] []]; try done. destruct (etcd_txn _ _ _ _) as [s' resp].
  destruct (succeeded resp); simpl; [|by destruct (is_terminating _)].
  unfold written, decode, get, decode, lift, read, timed, mbind, store_bind.
  destruct (header resp); [by destruct (from_slice _)|]. simpl.
  destruct (fault sur _) as [|[] []]; try done. destruct (look _ _); [|done]. by destruct (from_slice _).
Qed.

(** A transaction that succeeds had its comparisons hold. *)
Lemma txn_ok what cs w0 ws e w w' resp :
  forallb (puttable (before w)) (w0 :: ws) = true \/ forallb (holds (before w)) cs = false ->
  txn sur what cs (w0 :: ws) e w = (w', Ok resp) ->
  ticks w' = S (ticks w)
  /\ if succeeded resp then
       forallb (holds (before w)) cs = true /\ header resp = Some (revision (db w'))
       /\ revision (db w') = (revision (before w) + 1)%Z
       /\ (forall k, look (db w') k
             = after_writes (revision (db w')) k (look (before w) k) (w0 :: ws))
     else db w' = before w.
Proof.
  intros Hp [-> ->]%timed_ok. fold (before w). simpl. split; [done|].
  destruct (forallb (holds (before w)) cs) eqn:E.
  - destruct Hp as [Hp|?]; [|done].
    by destruct (txn_applied (before w) cs w0 ws e E Hp) as (s' & -> & ? & ?).
  - by rewrite txn_refused.
Qed.

Lemma create_ok (obj : T) lease w w' o :
  create_inner prefix sur obj lease w = (w', Ok o) ->
  exists b, look (before w) (key (name (metadata obj))) = None
    /\ encode (with_generation_one obj) (clock sur (ticks w)) = Ok b
    /\ ticks w' = S (ticks w)
    /\ wrote (before w) (db w') (name (metadata obj))
         (match lease with Some id => WithLease id | None => NoLease end) b
    /\ decode b (revision (db w')) = Ok o.
Proof.
  unfold create_inner. intros (w1 & [] & Hn & H)%bind_ok. apply lift_ok in Hn as [-> _].
  apply bind_ok in H as (w1 & at_ & Ha & H). injection Ha as <- <-.
  apply bind_ok in H as (w1 & b & Hb & H). apply lift_ok in Hb as [-> Hb].
  apply bind_ok in H as (w1 & resp & Ht & H). apply txn_ok in Ht as [Htk Ht]; [|left; by destruct lease].
  destruct (succeeded resp); [|done]. destruct Ht as (Hh & Hhd & Hr & Hl).
  unfold written in H. rewrite Hhd in H. simpl in H. apply lift_ok in H as [-> H].
  exists b. split_and!; [|done..]. simpl in Hh. destruct (look (before w) _) as [kv|] eqn:E; [|done].
  apply look_bounds in E. lia.
Qed.

(** A name that was taken is a create that did not happen. *)
Lemma create_exists (obj : T) lease w w' why :
  create_inner prefix sur obj lease w = (w', Err (StoreError.AlreadyExists why)) -> db w' = before w.
Proof.
  unfold create_inner, mbind, store_bind, lift, now.
  destruct (check_name _ _) as [[]|e] eqn:Ec; [|by destruct (check_name_err _ _ _ Ec) as [? ->]].
  destruct (encode _ _) as [b|e] eqn:Eb;
    [|by unfold encode in Eb; destruct (to_vec _); simplify_eq; intros [= <- ?]].
  destruct (txn _ _ _ _ _ _) as [w1 [resp|e]] eqn:Et.
  2:{ unfold txn, timed in Et. destruct (fault sur (ticks w)) as [|? []];
        [by destruct (etcd_txn _ _ _ _)|injection Et as <- <-; intros H; simplify_eq..]. }
  apply txn_ok in Et as [_ Et]; [|left; by destruct lease]. destruct (succeeded resp); simpl.
  - destruct Et as (_ & Hhd & _). unfold written, lift, decode. rewrite Hhd.
    destruct (from_slice b); intros H; simplify_eq.
  - intros H. by simplify_eq.
Qed.

(** The fence was as read, and is past that now. *)
Definition passed (f : Fence.t) (w w' : world D) : Prop :=
  holds (before w) (ModRevision (Fence.key f) (Fence.revision f)) = true
  /\ revision (db w') = (revision (before w) + 1)%Z
  /\ exists kv, look (db w') (Fence.key f) = Some kv /\ mod_revision kv = revision (db w').

Lemma passed_txn what c0 nm f b lease mark e w w' resp :
  forallb (puttable (before w)) [Put (key nm) b lease; Put (Fence.key f) mark NoLease] = true
  \/ holds (before w) c0 = false ->
  txn sur what [c0; ModRevision (Fence.key f) (Fence.revision f)]
    [Put (key nm) b lease; Put (Fence.key f) mark NoLease] e w = (w', Ok resp) ->
  succeeded resp = true -> header resp = Some (revision (db w')) /\ passed f w w'.
Proof.
  intros Hp Ht Hs. apply txn_ok in Ht as [_ Ht].
  2:{ destruct Hp as [|Hh]; [by left|right]. cbn [forallb]. by rewrite Hh. }
  rewrite Hs in Ht. destruct Ht as (Hh & Hhd & Hr & Hl). split; [done|].
  cbn [forallb] in Hh. apply andb_true_iff in Hh as [_ Hh]. rewrite andb_true_r in Hh.
  split_and!; [done..|]. rewrite Hl. unfold after_writes. simpl. rewrite String.eqb_refl. eauto.
Qed.

Lemma create_fenced_ok (to_bytes : string -> Bytes) (obj : T) f w w' o :
  create_fenced prefix sur to_bytes obj f w = (w', Ok (Some o)) -> passed f w w'.
Proof.
  unfold create_fenced. intros (w1 & [] & Hn & H)%bind_ok. apply lift_ok in Hn as [-> _].
  apply bind_ok in H as (w1 & at_ & Ha & H). injection Ha as <- <-.
  apply bind_ok in H as (w1 & b & Hb & H). apply lift_ok in Hb as [-> Hb].
  apply bind_ok in H as (w1 & resp & Ht & H). destruct (succeeded resp) eqn:Es.
  2:{ simpl in H. by destruct (held (read_back resp)) as [[]|]. }
  eapply passed_txn in Ht as [Hhd Hpass]; [|by left|done].
  apply bind_ok in H as (w2 & o' & H & Ho). unfold written in H. rewrite Hhd in H.
  apply lift_ok in H as [-> _]. by injection Ho as <- _.
Qed.

Lemma update_fenced_ok (to_bytes : string -> Bytes) (obj : T) f w w' o rev :
  parse_i64 (resource_version (metadata obj)) = Some rev -> rev <> 0%Z ->
  update_fenced prefix sur to_bytes obj f w = (w', Ok (Some o)) -> passed f w w'.
Proof.
  intros Hrev Hne. unfold update_fenced. intros (w1 & [] & Hn & H)%bind_ok.
  apply lift_ok in Hn as [-> _]. apply bind_ok in H as (w1 & rev' & Hv & H).
  apply lift_ok in Hv as [-> Hv]. unfold parsed_version in Hv. rewrite Hrev in Hv. injection Hv as <-.
  apply bind_ok in H as (w1 & at_ & Ha & H). injection Ha as <- <-.
  apply bind_ok in H as (w1 & b & Hb & H). apply lift_ok in Hb as [-> Hb].
  apply bind_ok in H as (w1 & resp & Ht & H). destruct (succeeded resp) eqn:Es.
  2:{ simpl in H. by destruct (is_some_and _ _). }
  eapply passed_txn in Ht as [Hhd Hpass]; [|cbn [forallb puttable holds]|done].
  2:{ destruct (look (before w) _); [by left|right]. lia. }
  apply bind_ok in H as (w2 & o' & H & Ho). unfold written in H. rewrite Hhd in H.
  apply lift_ok in H as [-> _]. by injection Ho as <- _.
Qed.

(** A create or an update that passed the fence. *)
Definition fenced_write (to_bytes : string -> Bytes) (obj : T) (f : Fence.t) (w w' : world D) : Prop :=
  (exists o, create_fenced prefix sur to_bytes obj f w = (w', Ok (Some o)))
  \/ (exists o rev, parse_i64 (resource_version (metadata obj)) = Some rev /\ rev <> 0%Z
        /\ update_fenced prefix sur to_bytes obj f w = (w', Ok (Some o))).

Lemma fenced_passed to_bytes obj f w w' : fenced_write to_bytes obj f w w' -> passed f w w'.
Proof.
  intros [[o H]|(o & rev & Hr & Hne & H)]; [by eapply create_fenced_ok|by eapply update_fenced_ok].
Qed.
End facts.

Section once.
Context {D Bytes : Type} `{!Etcd D Bytes, !EtcdLaws D Bytes, !RawJson Bytes}.
Context {Sp St : Type} `{!Resource Sp St, !Serde Bytes Sp St}.
Context (prefix : string).

(** One version of an object is consumed by one write, whoever makes it. *)
Lemma update_once sur sur' (o1 o2 : Object Sp St) rev w1 w1' x w2 w2' r :
  name (metadata o1) = name (metadata o2) -> resource_version (metadata o1) = resource_version (metadata o2) ->
  parse_i64 (resource_version (metadata o1)) = Some rev -> rev <> 0%Z ->
  update prefix sur o1 w1 = (w1', Ok x) -> evolves (db w1') (env sur' (ticks w2) (db w2)) ->
  update prefix sur' o2 w2 = (w2', r) -> exists e, r = Err e.
Proof.
  intros Hn Hv Hp Hz H1 Hev H2. destruct r as [y|e]; [exfalso|by exists e].
  destruct (update_ok _ _ o1 rev w1 w1' x Hp Hz H1) as (kv1 & b1 & L1 & R1 & _ & _ & [W1 W1'] & _).
  rewrite Hv in Hp.
  destruct (update_ok _ _ o2 rev w2 w2' y Hp Hz H2) as (kv2 & b2 & L2 & R2 & _).
  apply look_bounds in L1 as [_ ?]. rewrite Hn in W1'. pose proof (look_bounds _ _ _ L2) as [_ ?].
  destruct (newer_evolves _ _ Hev) as [_ Hnew]. destruct (Hnew _ _ L2) as [Hk|Hk]; [|lia].
  rewrite W1' in Hk. simpl in Hk. rewrite String.eqb_refl in Hk. injection Hk as <-. simpl in R2. lia.
Qed.
End once.
