(* ===== verification/StoreSafety.v ===== *)
(** What the object store guarantees to its callers, proved against etcd's
    documented behaviour, and an etcd in memory that has that behaviour. *)
From Stdlib Require Import Ascii String NArith ZArith List Bool Lia.
From stdpp Require Import base list strings gmap relations.
From S2P Require Import Prelude RustStr Json Phase Objects Store.

(** * An etcd in memory *)

Section memory.
Context {Bytes : Type}.

Definition kv_within (rev : Z) (kv : kv Bytes) : Prop :=
  (0 < create_revision kv <= mod_revision kv)%Z /\ (mod_revision kv <= rev)%Z.

Record mem := Mem {
  mem_rev : Z;
  mem_kvs : gmap string (kv Bytes);
  mem_wf : (0 <= mem_rev)%Z /\ map_Forall (fun _ => kv_within mem_rev) mem_kvs;
}.

Definition apply_write (rev : Z) (m : gmap string (kv Bytes)) (w : write Bytes)
    : gmap string (kv Bytes) :=
  let key := match w with Put k _ _ => k | Delete k => k end in
  match after_write rev key (m !! key) w with Some kv => <[key := kv]> m | None => base.delete key m end.

Lemma lookup_apply_write rev m w k :
  apply_write rev m w !! k = after_write rev k (m !! k) w.
Proof.
  unfold apply_write. destruct w as [k' v l|k']; simpl; rewrite String.eqb_refl;
    destruct (String.eqb_spec k' k) as [->|Hne].
  - by rewrite lookup_insert_eq.
  - by rewrite lookup_insert_ne.
  - by rewrite lookup_delete_eq.
  - by rewrite lookup_delete_ne.
Qed.

Lemma apply_write_wf rev m w :
  (0 < rev)%Z -> map_Forall (fun _ => kv_within rev) m ->
  map_Forall (fun _ => kv_within rev) (apply_write rev m w).
Proof.
  intros Hr Hm k kv Hk. rewrite lookup_apply_write in Hk.
  destruct w as [k' v l|k']; simpl in Hk; destruct (String.eqb k' k); [|by apply (Hm k)|done|by apply (Hm k)].
  injection Hk as <-. unfold kv_within. simpl. destruct (m !! k) as [o|] eqn:E; [|lia].
  destruct (Hm k o E). lia.
Qed.

Lemma apply_writes_wf rev m ws :
  (0 < rev)%Z -> map_Forall (fun _ => kv_within rev) m ->
  map_Forall (fun _ => kv_within rev) (foldl (apply_write rev) m ws).
Proof. intros Hr. revert m. induction ws as [|w ws IH]; intros m Hm; simpl; auto using apply_write_wf. Qed.

Lemma mem_next_wf (s : mem) ws :
  (0 <= mem_rev s + 1)%Z
  /\ map_Forall (fun _ => kv_within (mem_rev s + 1)) (foldl (apply_write (mem_rev s + 1)) (mem_kvs s) ws).
Proof.
  destruct (mem_wf s) as [Hr Hm]. split; [lia|]. apply apply_writes_wf; [lia|].
  intros k kv Hk. destruct (Hm k kv Hk). split; lia.
Qed.

Definition mem_commit (s : mem) (ws : list (write Bytes)) : mem :=
  {| mem_rev := mem_rev s + 1; mem_kvs := foldl (apply_write (mem_rev s + 1)) (mem_kvs s) ws;
     mem_wf := mem_next_wf s ws |}.

Definition mem_holds (m : gmap string (kv Bytes)) (c : compare) : bool :=
  match c with
  | CreateRevision key rev => Z.eqb (match m !! key with Some kv => create_revision kv | None => 0%Z end) rev
  | ModRevision key rev => Z.eqb (match m !! key with Some kv => mod_revision kv | None => 0%Z end) rev
  end.

(** A put that keeps the lease of an absent key fails the request; deleting
    absent keys writes nothing. *)
Definition mem_rejects (m : gmap string (kv Bytes)) (w : write Bytes) : bool :=
  match w with Put k _ IgnoreLease => negb (is_some (m !! k)) | _ => false end.

Definition mem_idle (m : gmap string (kv Bytes)) (w : write Bytes) : bool :=
  match w with Delete k => negb (is_some (m !! k)) | _ => false end.

#[export] Instance mem_etcd : Etcd mem Bytes := {
  revision := mem_rev;
  look s k := mem_kvs s !! k;
  range s p := List.filter (fun e => starts_with p e.1) (map_to_list (mem_kvs s));
  etcd_txn s cs ws e :=
    if forallb (mem_holds (mem_kvs s)) cs && negb (existsb (mem_rejects (mem_kvs s)) ws) then
      let s' := if forallb (mem_idle (mem_kvs s)) ws then s else mem_commit s ws in
      (s', {| succeeded := true; header := Some (mem_rev s'); read_back := None |})
    else (s, {| succeeded := false; header := Some (mem_rev s);
                read_back := e ≫= fun k => mem_kvs s !! k |});
  etcd_put s k v := mem_commit s [Put k v NoLease];
  etcd_delete s k := (mem_commit s [Delete k], mem_kvs s !! k);
}.

Lemma lookup_commit s ws k :
  mem_kvs (mem_commit s ws) !! k = after_writes (mem_rev s + 1) k (mem_kvs s !! k) ws.
Proof.
  simpl. unfold after_writes. generalize (mem_kvs s). induction ws as [|w ws IH]; intros m; simpl; [done|].
  by rewrite IH, lookup_apply_write.
Qed.

Lemma mem_puttable_accepted (s : mem) ws :
  forallb (puttable s) ws = true -> existsb (mem_rejects (mem_kvs s)) ws = false.
Proof.
  induction ws as [|w ws IH]; simpl; [done|]. intros [Hw Hws]%andb_prop. rewrite (IH Hws), orb_false_r.
  destruct w as [k v [|id|]|k]; simpl in Hw |- *; try done. by rewrite Hw.
Qed.

Lemma mem_puttable_busy (s : mem) w ws :
  forallb (puttable s) (w :: ws) = true -> forallb (mem_idle (mem_kvs s)) (w :: ws) = false.
Proof. simpl. intros [Hw _]%andb_prop. destruct w as [k v l|k]; simpl in Hw |- *; [done|]. by rewrite Hw. Qed.

#[export] Instance mem_laws : EtcdLaws mem Bytes.
Proof.
  split.
  - intros s k kv Hk. destruct (mem_wf s) as [_ Hm]. apply (Hm k kv Hk).
  - intros s. apply (mem_wf s).
  - intros s p k kv. simpl. rewrite filter_In. simpl. rewrite <- elem_of_map_to_list, list_elem_of_In. tauto.
  - intros s p. simpl. pose proof (NoDup_fst_map_to_list (mem_kvs s)) as H.
    induction (map_to_list (mem_kvs s)) as [|e l IH]; simpl in *; [done|]. apply NoDup_cons in H as [He Hl].
    destruct (starts_with p e.1); [|auto]. simpl. apply NoDup_cons. split; [|auto].
    intros Hin. apply He. apply list_elem_of_In in Hin. apply in_map_iff in Hin as (x & <- & [Hx _]%filter_In).
    apply list_elem_of_In. by apply in_map.
  - intros s cs ws e He. simpl. change (forallb (mem_holds (mem_kvs s)) cs) with (forallb (holds s) cs).
    by rewrite He.
  - intros s cs w ws e He Hp. unfold etcd_txn, mem_etcd.
    change (forallb (mem_holds (mem_kvs s)) cs) with (forallb (holds s) cs).
    rewrite He, (mem_puttable_accepted s (w :: ws) Hp), (mem_puttable_busy s w ws Hp).
    exists (mem_commit s (w :: ws)). split_and!; [reflexivity..|]. intros k. apply lookup_commit.
  - intros s cs w e Hw. simpl. destruct w as [k v [|id|]|k]; simpl in Hw |- *; try done; rewrite Hw; simpl.
    + by rewrite andb_false_r.
    + by destruct (forallb _ cs).
  - intros s key v. split; [done|]. intros k. apply (lookup_commit s [Put key v NoLease]).
  - intros s key s' old [= <- <-]. split_and!; [done|simpl; lia|]. intros k.
    etrans; [apply (lookup_commit s [Delete key])|]. reflexivity.
Qed.
End memory.
Arguments mem : clear implicits.

(** * Counters, the smallest stored kind *)

Module CounterSpec.
Record t := { next : N }.
End CounterSpec.

(** [CounterStatus] has no fields. *)
Definition Counter : Type := Object CounterSpec.t unit.

#[export] Instance counter_resource : Resource CounterSpec.t unit :=
  {| RESOURCE := "counters"; NAME_SHAPE := NameShape.DnsLabel; settle := fun _ o => o |}.

#[export] Instance counter_settle : SettleLaws CounterSpec.t unit.
Proof. by split. Qed.

(** A store that holds counters as they are. *)
#[export] Instance counter_serde : Serde Counter CounterSpec.t unit :=
  {| to_vec := fun o => Ok o; from_slice := fun o => Ok o |}.

#[export] Instance counter_serde_laws : SerdeLaws Counter CounterSpec.t unit.
Proof. split. by intros o b [= <-]. Qed.

#[export] Instance counter_raw : RawJson Counter := {| raw := fun _ => None |}.

Definition declare_counter (name uid : string) (now : instant) (next : N) : Counter :=
  object_new API_VERSION "Counter" name uid now {| CounterSpec.next := next |} tt.

(** ** A small store: one counter, nobody else, no faults *)

Definition mem_empty {Bytes} : mem Bytes :=
  {| mem_rev := 0; mem_kvs := ∅; mem_wf := conj (Z.le_refl 0) (map_Forall_empty _) |}.

Definition quiet {D} : surroundings D :=
  {| env := fun _ s => s; fault := fun _ => Answered; clock := fun _ => 0%Z |}.

Definition one_counter : mem Counter :=
  mem_commit mem_empty [Put "p/registry/counters/vni" (declare_counter "vni" "u-1" 1%Z 10000) NoLease].

Lemma str_app_inj_r p s t : p +:+ s = p +:+ t -> s = t.
Proof.
  induction p as [|c p IH]; [by rewrite !str_app_nil_l|]. rewrite !str_app_cons. intros [= H]. auto.
Qed.

(** A store in which every object of a kind is under its name, by evaluation. *)
Definition all_filed {Bytes Sp St} `{!Serde Bytes Sp St, !Resource Sp St} (prefix : string) (s : mem Bytes) : bool :=
  forallb (fun e => match decode (Sp := Sp) (St := St) (kv_value e.2) (mod_revision e.2) with
                    | Ok x => String.eqb e.1 (key_of (Sp := Sp) (St := St) prefix (name (metadata x)))
                              || negb (starts_with (dir_of (Sp := Sp) (St := St) prefix) e.1)
                    | Err _ => true
                    end) (map_to_list (mem_kvs s)).

Lemma mem_filed {Bytes Sp St} `{!Serde Bytes Sp St, !Resource Sp St} prefix (s : mem Bytes) :
  all_filed (Sp := Sp) (St := St) prefix s = true -> filed (Sp := Sp) (St := St) prefix s.
Proof.
  unfold all_filed. rewrite forallb_forall. intros Hall k kv x Hk Hx.
  change (look s ?y) with (mem_kvs s !! y) in Hk. apply elem_of_map_to_list, list_elem_of_In in Hk.
  apply Hall in Hk. simpl in Hk. rewrite Hx in Hk. apply orb_prop in Hk as [Hk|Hk].
  - apply String.eqb_eq in Hk. unfold key_of, object_key in Hk.
    repeat apply str_app_inj_r in Hk. done.
  - unfold key_of, dir_of, object_key, object_dir in Hk. rewrite !starts_with_app in Hk. done.
Qed.

Lemma one_counter_filed : filed (Sp := CounterSpec.t) (St := unit) "p" one_counter.
Proof. apply mem_filed. by vm_compute. Qed.

Lemma quiet_fair {D Bytes Sp St} `{!Etcd D Bytes, !Serde Bytes Sp St, !Resource Sp St} prefix :
  fair (D := D) (Sp := Sp) (St := St) prefix quiet.
Proof. intros n s. split; [apply rtc_refl|done]. Qed.

Definition bump (c : Counter) : Counter :=
  with_spec c {| CounterSpec.next := CounterSpec.next (spec c) + 1 |}.

(** * Properties *)

Section properties.
Context {D Bytes : Type} `{!Etcd D Bytes, !EtcdLaws D Bytes, !RawJson Bytes}.
Context {Sp St : Type} `{!Resource Sp St, !Serde Bytes Sp St, !SettleLaws Sp St, !SerdeLaws Bytes Sp St}.
Variable prefix : string.
Variable sur : surroundings D.
Abbreviation T := (Object Sp St).
Abbreviation key := (key_of (Sp := Sp) (St := St) prefix).

(** C8. A read-modify-write that succeeds is atomic: the edit was applied to
    the object exactly as it stood, under the expected uid, in the database the
    write went to; that write moved the revision by one, changed this key only
    and kept its lease; whatever other processes wrote between the requests and
    however often the loop retried. *)
Theorem mutate_if_atomic nm uid (f : T -> T) w w' o :
  fair (Sp := Sp) (St := St) prefix sur -> keeps_identity (stateless f) -> filed (Sp := Sp) (St := St) prefix (db w) ->
  mutate_if prefix sur nm uid f w = (w', Ok o) ->
  exists s x kv at_,
    look s (key nm) = Some kv /\ decode (kv_value kv) (mod_revision kv) = Ok x
    /\ Objects.uid (metadata x) = uid
    /\ o = with_metadata (settle at_ (clean (f x)))
             (set_resource_version (metadata (f x)) (show_Z (revision (db w'))))
    /\ revision (db w') = (revision s + 1)%Z
    /\ (exists kv', look (db w') (key nm) = Some kv'
          /\ decode (kv_value kv') (mod_revision kv') = Ok o /\ kv_lease kv' = kv_lease kv)
    /\ forall k, k <> key nm -> look (db w') k = look s k.
Proof.
  intros Hfair Hf Hfiled (w1 & r & H & Ho)%bind_ok. injection Ho as <- <-.
  apply mutate_loop_ok in H as (s & x & kv & b & at_ & c & Hk & Hx & Had & Hb & _ & [Hr Hw] & Hd); [|done..].
  exists s, x, kv, at_. unfold expects_uid in Had. destruct (String.eqb_spec (Objects.uid (metadata x)) uid) as [Hu|]; [|done].
  split_and!; [done..|by eapply encode_name|done| |].
  - rewrite Hw. simpl. rewrite String.eqb_refl, Hk. eexists. split_and!; done.
  - intros k Hne. rewrite Hw. simpl. destruct (String.eqb_spec (key nm) k); [congruence|done].
Qed.

(** A fence admits one writer: after a create or update passed a fence
    value, no other write passes the same value, as long as the marker is not
    removed, whatever happens in between; so two admission decisions made on
    one reading are never both carried out. *)
Theorem fence_admits_once to_bytes (obj obj' : T) f w1 w1' w2 w2' :
  fenced_write prefix sur to_bytes obj f w1 w1' ->
  evolves (db w1') (before sur w2) -> look (before sur w2) (Fence.key f) <> None ->
  ~ fenced_write prefix sur to_bytes obj' f w2 w2'.
Proof.
  intros (Hh & Hr & kv & Hk & Hm)%fenced_passed [_ Hev]%newer_evolves Hsome (Hh' & _)%fenced_passed.
  destruct (look (before sur w2) (Fence.key f)) as [kv2|] eqn:E2; [|done].
  assert (Hlow : (Fence.revision f <= revision (before sur w1))%Z).
  { simpl in Hh. apply Z.eqb_eq in Hh. rewrite <- Hh.
    destruct (look (before sur w1) (Fence.key f)) as [kv1|] eqn:E1; [apply (look_bounds _ _ _ E1)|].
    apply revision_nonneg. }
  simpl in Hh'. rewrite E2 in Hh'. apply Z.eqb_eq in Hh'.
  destruct (Hev _ _ E2) as [He|?]; [|lia]. rewrite Hk in He. injection He as <-. lia.
Qed.

(** What a create returns is what a read finds: the object as given, with
    generation one, its phase settled and the new revision as its version; the
    key was free before; and while nobody else writes, [get] returns the same
    object. *)
Theorem create_then_get (obj : T) w w' o :
  create prefix sur obj w = (w', Ok o) ->
  env sur (ticks w') (db w') = db w' -> fault sur (ticks w') = Answered ->
  look (before sur w) (key (name (metadata obj))) = None
  /\ o = with_metadata (settle (clock sur (ticks w)) (clean (with_generation_one obj)))
           (set_resource_version (set_generation (metadata obj) 1) (show_Z (revision (db w'))))
  /\ exists w'', get prefix sur (name (metadata obj)) w' = (w'', Ok o).
Proof.
  intros (b & Hfree & Hb & _ & [Hr Hw] & Hd)%create_ok Henv Hans. split; [done|]. split.
  { by apply (encode_name _ _ _ _ _ Hb Hd). }
  eexists. unfold get, read, mbind, store_bind, timed. rewrite Hans, Henv.
  rewrite Hw. simpl. rewrite String.eqb_refl. simpl. by rewrite Hd.
Qed.
End properties.

Section guarded.
Context {D Bytes : Type} `{!Etcd D Bytes, !EtcdLaws D Bytes, !RawJson Bytes}.
Context {Sp St Sp' St' : Type} `{!Resource Sp St, !Serde Bytes Sp St, !Resource Sp' St', !Serde Bytes Sp' St'}.
Variable prefix : string.
Variable sur : surroundings D.

(** A guarded update is written only while its guard stands: when it
    succeeds, the object and the guard were both at the revisions the caller
    read, in the very database the write went to, and no other key changed;
    when it reports a conflict, nothing was written. *)
Theorem update_if_standing_guarded (obj : Object Sp St) (guard : Object Sp' St') rev guard_rev w w' r :
  parse_i64 (resource_version (metadata obj)) = Some rev -> rev <> 0%Z ->
  parse_i64 (resource_version (metadata guard)) = Some guard_rev ->
  update_if_standing prefix sur obj guard w = (w', r) ->
  let key := key_of (Sp := Sp) (St := St) prefix (name (metadata obj)) in
  let guard_key := key_of (Sp := Sp') (St := St') prefix (name (metadata guard)) in
  match r with
  | Ok _ =>
      holds (before sur w) (ModRevision key rev) = true
      /\ holds (before sur w) (ModRevision guard_key guard_rev) = true
      /\ revision (db w') = (revision (before sur w) + 1)%Z
      /\ forall k, k <> key -> look (db w') k = look (before sur w) k
  | Err (StoreError.Conflict _) => db w' = before sur w
  | Err _ => True
  end.
Proof.
  intros Hrev Hne Hgrev. unfold update_if_standing, parsed_version. rewrite Hrev, Hgrev.
  set (key := key_of _ _). set (gkey := key_of _ (name (metadata guard))). cbn [ok_or].
  unfold mbind at 1, store_bind at 1, lift at 1.
  destruct (check_name _ _) as [[]|e] eqn:Ec; [|by destruct (check_name_err _ _ _ Ec) as [? ->]; intros [= <- <-]].
  unfold mbind at 1, store_bind at 1, lift at 1. unfold mbind at 1, store_bind at 1, lift at 1.
  unfold mbind at 1, store_bind at 1, now at 1. unfold mbind at 1, store_bind at 1, lift at 1.
  destruct (encode obj _) as [b|e] eqn:Eb;
    [|by unfold encode in Eb; destruct (to_vec _); simplify_eq; intros [= <- <-]].
  unfold mbind at 1, store_bind at 1. destruct (txn _ _ _ _ _ _) as [w1 [resp|e]] eqn:Et.
  2:{ unfold txn, timed in Et. destruct (fault sur (ticks w)) as [|? []];
        [by destruct (etcd_txn _ _ _ _)|by injection Et as <- <-; intros [= <- <-]..]. }
  apply txn_ok in Et as [_ Et].
  2:{ cbn [forallb puttable holds]. destruct (look (before sur w) key); [by left|right]. lia. }
  destruct (succeeded resp); cbn [negb].
  - destruct Et as (Hh & Hhd & Hr & Hl). unfold written, lift. rewrite Hhd. intros [= <- <-].
    unfold decode. destruct (from_slice b); [|done]. cbn [forallb] in Hh.
    apply andb_true_iff in Hh as [H1 H2]. rewrite andb_true_r in H2. split_and!; [done..|].
    intros k Hk. rewrite Hl. unfold after_writes. simpl. destruct (String.eqb_spec key k); [congruence|done].
  - intros [= <- <-]. by destruct (is_some_and _ _).
Qed.
End guarded.

Lemma mutate_if_atomic_witness :
  exists o s (x : Counter) kv,
    (mutate_if "p" quiet "vni" "u-1" bump (World one_counter 0)).2 = Ok o
    /\ CounterSpec.next (spec o) = 10001%N
    /\ look s "p/registry/counters/vni" = Some kv /\ decode (kv_value kv) (mod_revision kv) = Ok x.
Proof.
  eexists. destruct (mutate_if_atomic (Sp := CounterSpec.t) (St := unit) "p" quiet "vni" "u-1" bump
    (World one_counter 0) (mutate_if "p" quiet "vni" "u-1" bump (World one_counter 0)).1
    (with_metadata (bump (declare_counter "vni" "u-1" 1%Z 10000))
       (set_resource_version (metadata (declare_counter "vni" "u-1" 1%Z 10000)) "2")))
    as (s & x & kv & at_ & Hk & Hx & _).
  - apply quiet_fair.
  - done.
  - apply one_counter_filed.
  - by rewrite (surjective_pairing (mutate_if _ _ _ _ _ _)) at 1.
  - exists s, x, kv. split_and!; done.
Defined.

(** A fence read before anybody passed it. *)
Definition example_fence : Fence.t := {| Fence.key := "p/fences/quota"; Fence.revision := 0 |}.

Lemma fence_admits_once_witness :
  let w1 := World (D := mem Counter) mem_empty 0 in
  let mark := fun _ => declare_counter "" "" 0%Z 0 in
  let w1' := (create_fenced "p" quiet mark (declare_counter "a" "u-1" 1%Z 1) example_fence w1).1 in
  ~ fenced_write "p" quiet mark (declare_counter "b" "u-2" 1%Z 1) example_fence w1' w1'.
Proof.
  simpl. set (w1' := fst _).
  apply (fence_admits_once (Sp := CounterSpec.t) (St := unit) "p" quiet (fun _ => declare_counter "" "" 0%Z 0)
    (declare_counter "a" "u-1" 1%Z 1) _ example_fence (World (D := mem Counter) mem_empty 0) w1').
  - left. eexists. by rewrite (surjective_pairing (create_fenced _ _ _ _ _ _)).
  - apply rtc_refl.
  - done.
Defined.

Lemma create_then_get_witness :
  exists w'' o, get "p" quiet "vni"
    (create "p" quiet (declare_counter "vni" "u-1" 1%Z 7) (World (D := mem Counter) mem_empty 0)).1
    = (w'', Ok o) /\ CounterSpec.next (spec (o : Counter)) = 7%N.
Proof.
  destruct (create_then_get (Sp := CounterSpec.t) (St := unit) "p" quiet (declare_counter "vni" "u-1" 1%Z 7)
    (World (D := mem Counter) mem_empty 0)
    (create "p" quiet (declare_counter "vni" "u-1" 1%Z 7) (World (D := mem Counter) mem_empty 0)).1
    (with_metadata (declare_counter "vni" "u-1" 1%Z 7)
       (set_resource_version (set_generation (metadata (declare_counter "vni" "u-1" 1%Z 7)) 1) "1")))
    as (_ & _ & w'' & H).
  - by rewrite (surjective_pairing (create _ _ _ _)) at 1.
  - done.
  - done.
  - exists w''. eexists. split; [exact H|done].
Defined.

Lemma update_if_standing_guarded_witness :
  let c := with_metadata (declare_counter "vni" "u-1" 1%Z 7)
             (set_resource_version (metadata (declare_counter "vni" "u-1" 1%Z 7)) "1") in
  holds one_counter (ModRevision "p/registry/counters/vni" 1) = true
  /\ revision (db (update_if_standing "p" quiet c c (World one_counter 0)).1) = 2%Z.
Proof.
  intros c. pose proof (update_if_standing_guarded (Sp := CounterSpec.t) (St := unit)
    (Sp' := CounterSpec.t) (St' := unit) "p" quiet c c 1 1 (World one_counter 0) _ _
    eq_refl ltac:(done) eq_refl (surjective_pairing _)) as H.
  split; [exact (proj1 H)|]. by destruct H as (_ & _ & H & _).
Defined.
