(* ===== verification/Growth.v ===== *)
(** What the store's operations leave behind when others write between their
    requests: every operation of [src/shared/controller-api/src/store.rs] moves
    the database along its history, whether it succeeds, fails or is left
    unanswered. *)
From Stdlib Require Import Ascii String NArith ZArith List Bool Lia.
From stdpp Require Import base list strings relations.
From S2P Require Import Prelude RustStr Json Phase Objects Store.

Section growth.
Context {D Bytes : Type} `{!Etcd D Bytes, !EtcdLaws D Bytes, !RawJson Bytes}.
Variable prefix : string.
Variable sur : surroundings D.

(** The others write as the store's clients do. *)
Definition lawful_env : Prop := forall n s, evolves s (env sur n s).

Definition grows {A} (m : store_m D A) : Prop :=
  forall w w' r, m w = (w', r) -> evolves (db w) (db w').

Hypothesis Henv : lawful_env.

Lemma grows_lift {A} (r : result StoreError.t A) : grows (lift (D := D) r).
Proof using. intros w w' x [= <- <-]. by apply rtc_refl. Qed.

Lemma grows_ret {A} (a : A) : grows (mret (M := store_m D) a).
Proof using. intros w w' x [= <- <-]. by apply rtc_refl. Qed.

Lemma grows_now : grows (now sur).
Proof using. intros w w' x [= <- <-]. by apply rtc_refl. Qed.

Lemma grows_bind {A B} (m : store_m D A) (k : A -> store_m D B) :
  grows m -> (forall a, grows (k a)) -> grows (m ≫= k).
Proof using.
  intros Hm Hk w w' r. unfold mbind, store_bind. destruct (m w) as [w1 [a|e]] eqn:E.
  - intros Hr. etrans; [by eapply Hm|by eapply Hk].
  - intros [= <- <-]. by eapply Hm.
Qed.

Lemma grows_timed {A} what (f : D -> D * A) : (forall s, evolves s (f s).1) -> grows (timed sur what f).
Proof using Henv.
  intros Hf w w' r. unfold timed.
  assert (Ha : forall s, evolves (db w) s -> evolves (db w) (f s).1) by (intros; etrans; eauto).
  specialize (Ha _ (Henv (ticks w) (db w))).
  destruct (fault sur (ticks w)) as [|[] how].
  - destruct (f _) as [s a] eqn:E. intros [= <- <-]. done.
  - by intros [= <- <-].
  - intros [= <- <-]. apply Henv.
Qed.

Lemma grows_read {A} what (f : D -> A) : grows (read sur what f).
Proof using Henv. apply grows_timed. intros s. by apply rtc_refl. Qed.

Lemma grows_txn what cs w e : grows (txn sur what cs [w] e).
Proof using Henv EtcdLaws0.
  apply grows_timed. intros s. destruct (puttable s w) eqn:E.
  - apply rtc_once. constructor. simpl. by rewrite E.
  - rewrite txn_void by done. by apply rtc_refl.
Qed.

Section kind.
Context {Sp St : Type} `{!Resource Sp St, !Serde Bytes Sp St}.
Abbreviation T := (Object Sp St).

Lemma grows_get name : grows (get (Sp := Sp) (St := St) prefix sur name).
Proof using Henv. apply grows_bind; [apply grows_read|]. intros [kv|]; apply grows_lift. Qed.

Lemma grows_list : grows (list_ (Sp := Sp) (St := St) prefix sur).
Proof using Henv.
  apply grows_bind; [apply grows_bind; [apply grows_read|]|]; intros; apply grows_ret.
Qed.

Lemma grows_written name value resp : grows (written (Sp := Sp) (St := St) prefix sur name value resp).
Proof using Henv. unfold written. destruct (header resp); [apply grows_lift|apply grows_get]. Qed.

Lemma grows_create_inner (o : T) lease : grows (create_inner prefix sur o lease).
Proof using Henv EtcdLaws0.
  apply grows_bind; [apply grows_lift|intros _]. apply grows_bind; [apply grows_now|intros at_].
  apply grows_bind; [apply grows_lift|intros value]. apply grows_bind; [apply grows_txn|intros resp].
  destruct (succeeded resp); simpl; [apply grows_written|apply grows_lift].
Qed.

Lemma grows_create (o : T) : grows (create prefix sur o).
Proof using Henv EtcdLaws0. apply grows_create_inner. Qed.

Lemma grows_update (o : T) : grows (update prefix sur o).
Proof using Henv EtcdLaws0.
  apply grows_bind; [apply grows_lift|intros _]. apply grows_bind; [apply grows_lift|intros rev].
  apply grows_bind; [apply grows_now|intros at_].
  apply grows_bind; [apply grows_lift|intros value]. apply grows_bind; [apply grows_txn|intros resp].
  destruct (succeeded resp); simpl; [apply grows_written|apply grows_lift].
Qed.

Lemma grows_mutate_loop {C} admits (f : C -> T -> C * T) nm rounds c :
  grows (mutate_loop prefix sur admits f nm rounds c).
Proof using Henv EtcdLaws0.
  revert c. induction rounds as [|rounds IH]; intros c; [apply grows_lift|].
  apply grows_bind; [apply grows_get|intros o]. destruct (admits o); [apply grows_lift|].
  intros w w' r. destruct (f c o) as [c' o']. destruct (update prefix sur o' w) as [w1 x] eqn:E.
  apply grows_update in E. destruct x as [o''|[]]; try by intros [= <- <-].
  intros Hr. etrans; [done|by eapply IH].
Qed.

Lemma grows_mutate nm (f : T -> T) : grows (mutate prefix sur nm f).
Proof using Henv EtcdLaws0. apply grows_bind; [apply grows_mutate_loop|intros; apply grows_ret]. Qed.

Lemma grows_mutate_if nm uid (f : T -> T) : grows (mutate_if prefix sur nm uid f).
Proof using Henv EtcdLaws0. apply grows_bind; [apply grows_mutate_loop|intros; apply grows_ret]. Qed.

Lemma grows_delete_if nm version : grows (delete_if (Sp := Sp) (St := St) prefix sur nm version).
Proof using Henv EtcdLaws0.
  apply grows_bind; [apply grows_lift|intros rev]. apply grows_bind; [apply grows_txn|intros resp].
  destruct (succeeded resp); simpl; [apply grows_ret|apply grows_lift].
Qed.
End kind.

Lemma grows_update_if_standing {Sp St Sp' St'}
    `{!Resource Sp St, !Serde Bytes Sp St, !Resource Sp' St'}
    (o : Object Sp St) (guard : Object Sp' St') : grows (update_if_standing prefix sur o guard).
Proof using Henv EtcdLaws0.
  apply grows_bind; [apply grows_lift|intros _]. apply grows_bind; [apply grows_lift|intros rev].
  apply grows_bind; [apply grows_lift|intros guard_rev]. apply grows_bind; [apply grows_now|intros at_].
  apply grows_bind; [apply grows_lift|intros value]. apply grows_bind; [apply grows_txn|intros resp].
  destruct (succeeded resp); simpl; [apply grows_written|apply grows_lift].
Qed.

Lemma grows_list2 {Sp St Sp' St'} `{!Resource Sp St, !Serde Bytes Sp St, !Resource Sp' St', !Serde Bytes Sp' St'} :
  grows (list2 (Sp := Sp) (St := St) (Sp' := Sp') (St' := St') prefix sur).
Proof using Henv. apply grows_bind; [apply grows_read|intros; apply grows_ret]. Qed.
End growth.

(** The store's operations, for [eauto with growth]. *)
Create HintDb growth.
#[export] Hint Resolve grows_lift grows_ret grows_now grows_get grows_list grows_create grows_create_inner grows_update
  grows_update_if_standing
  grows_mutate grows_mutate_if grows_delete_if grows_list2 grows_mutate_loop : growth.

(** Follows a history through the hypotheses. *)
Ltac along :=
  first
    [ assumption
    | apply rtc_refl
    | match goal with H : evolves ?a ?b |- evolves ?a _ => transitivity b; [exact H|clear H; along] end ].
