(* ===== verification/Deletion.v ===== *)
(** Guarded deletes: [src/shared/controller-api/src/deletion.rs].  A delete
    removes the object that was judged, by uid and revision, never whatever its
    name names by then; a finalizer is taken off the revision that was judged. *)
From Stdlib Require Import Ascii String NArith ZArith List Bool Lia.
From stdpp Require Import base list strings gmap relations.
From S2P Require Import Prelude RustStr Json Phase Objects Store StoreSafety.

(** * Definitions *)

Definition FINISH_DELETE_ATTEMPTS : nat := 8.

Module TakenBack.
Inductive t := Gone | Marked.
End TakenBack.

Section deletion.
Context {D Bytes : Type} `{!Etcd D Bytes, !RawJson Bytes}.
Context {Sp St : Type} `{!Resource Sp St, !Serde Bytes Sp St}.
Variable prefix : string.
Variable sur : surroundings D.
Abbreviation T := (Object Sp St).
Abbreviation get := (get (Sp := Sp) (St := St) prefix sur).

(** One round of [finish_delete] on [current], then the rest. *)
Fixpoint finish_loop (nm uid : string) (concluded : T -> bool) (attempts : nat) (current : T)
    : store_m D bool :=
  match attempts with
  | O => mret false
  | Datatypes.S attempts =>
      if negb (concluded current) then mret false
      else fun w =>
        match delete_if (Sp := Sp) (St := St) prefix sur nm (resource_version (metadata current)) w with
        | (w', Ok _) => (w', Ok true)
        | (w', Err (StoreError.Conflict _)) =>
            match get nm w' with
            | (w'', Ok fresh) =>
                if String.eqb (Objects.uid (metadata fresh)) uid
                then finish_loop nm uid concluded attempts fresh w'' else (w'', Ok false)
            | (w'', Err (StoreError.NotFound _)) => (w'', Ok false)
            | (w'', Err e) => (w'', Err e)
            end
        | (w', Err e) => (w', Err e)
        end
  end.

Definition finish_delete (checked : T) (concluded : T -> bool) : store_m D bool :=
  finish_loop (name (metadata checked)) (Objects.uid (metadata checked)) concluded
    FINISH_DELETE_ATTEMPTS checked.

Definition is_gone (created : T) : store_m D bool := fun w =>
  match get (name (metadata created)) w with
  | (w', Ok current) =>
      (w', Ok (negb (String.eqb (Objects.uid (metadata current)) (Objects.uid (metadata created)))))
  | (w', Err (StoreError.NotFound _)) => (w', Ok true)
  | (w', Err e) => (w', Err e)
  end.

Definition take_back_created (created : T) : store_m D unit :=
  done ← finish_delete created (fun _ => true);
  gone ← (if done : bool then mret true else is_gone created);
  if gone : bool then mret tt
  else lift (Err (StoreError.Conflict
         (RESOURCE (Sp := Sp) (St := St) +:+ "/" +:+ name (metadata created)
          +:+ " kept changing while it was taken back and is still there"))).

(** [deletion_timestamp.get_or_insert_with(Utc::now)]. *)
Definition mark_deleting (at_ : instant) (o : T) : T :=
  with_metadata o (set_deletion (metadata o)
    (match deletion_timestamp (metadata o) with Some d => Some d | None => Some at_ end)).

(** [times] are the clock readings of the closure's calls, counted by its state. *)
Definition take_back_or_mark (times : nat -> instant) (created : T) (deletable : T -> bool)
    : store_m D TakenBack.t :=
  done ← finish_delete created deletable;
  if done : bool then mret TakenBack.Gone
  else (fun w =>
    match mutate_if_with prefix sur (name (metadata created)) (Objects.uid (metadata created))
            (fun calls o => (Datatypes.S calls, mark_deleting (times calls) o)) 0%nat w with
    | (w', Ok _) => (w', Ok TakenBack.Marked)
    | (w', Err e) =>
        match is_gone created w' with
        | (w'', Ok true) => (w'', Ok TakenBack.Gone)
        | (w'', Ok false) => (w'', Err e)
        | (w'', Err e') => (w'', Err e')
        end
    end) : store_m D TakenBack.t.

(** The closure of [take_finalizer]: [applied] is its state. *)
Definition drop_finalizer (finalizer : string) (still : T -> bool) (applied : bool) (o : T) : bool * T :=
  if still o
  then (true, with_metadata o (set_finalizers (metadata o)
                (List.filter (fun f => negb (String.eqb f finalizer)) (finalizers (metadata o)))))
  else (false, o).

Definition take_finalizer (checked : T) (finalizer : string) (still : T -> bool)
    : store_m D (option T) := fun w =>
  match mutate_if_with prefix sur (name (metadata checked)) (Objects.uid (metadata checked))
          (drop_finalizer finalizer still) false w with
  | (w', Ok (true, o)) => (w', Ok (Some o))
  | (w', Ok (false, _)) => (w', Ok None)
  | (w', Err (StoreError.Conflict _)) => (w', Ok None)
  | (w', Err (StoreError.NotFound _)) => (w', Ok None)
  | (w', Err e) => (w', Err e)
  end.

Definition finish_release (written : T) (finalizer : string) (still : T -> bool) : store_m D bool :=
  finish_delete written
    (fun o => still o && negb (existsb (fun f => String.eqb f finalizer) (finalizers (metadata o)))).

Definition release_and_delete (checked : T) (finalizer : string) (still : T -> bool) : store_m D bool :=
  written ← take_finalizer checked finalizer still;
  match written with
  | None => mret false
  | Some written => finish_release written finalizer still
  end.
End deletion.

(** * Lemmas *)

Section facts.
Context {D Bytes : Type} `{!Etcd D Bytes, !EtcdLaws D Bytes, !RawJson Bytes}.
Context {Sp St : Type} `{!Resource Sp St, !Serde Bytes Sp St, !SettleLaws Sp St, !SerdeLaws Bytes Sp St}.
Variable prefix : string.
Variable sur : surroundings D.
Abbreviation T := (Object Sp St).
Abbreviation key := (key_of (Sp := Sp) (St := St) prefix).

(** [o] is what database [s] holds under [nm]. *)
Definition read_from (s : D) (nm : string) (o : T) : Prop :=
  exists kv, look s (key nm) = Some kv /\ decode (kv_value kv) (mod_revision kv) = Ok o.

(** A guarded delete removes the revision it names, or nothing. *)
Lemma delete_if_spec nm version rev w w' r :
  parse_i64 version = Some rev -> rev <> 0%Z ->
  delete_if (Sp := Sp) (St := St) prefix sur nm version w = (w', r) ->
  match r with
  | Ok _ => (exists kv, look (before sur w) (key nm) = Some kv /\ mod_revision kv = rev)
      /\ (forall k, look (db w') k = if String.eqb (key nm) k then None else look (before sur w) k)
  | Err (StoreError.Conflict _) => db w' = before sur w
  | Err _ => True
  end.
Proof.
  intros Hrev Hne. unfold delete_if, parsed_version. rewrite Hrev. cbn [ok_or].
  unfold mbind at 1, store_bind at 1, lift at 1. unfold mbind at 1, store_bind at 1.
  destruct (txn _ _ _ _ _ _) as [w1 [resp|e]] eqn:Et.
  2:{ unfold txn, timed in Et. destruct (fault sur (ticks w)) as [|? []];
        [by destruct (etcd_txn _ _ _ _)|by injection Et as <- <-; intros [= <- <-]..]. }
  apply txn_ok in Et as [_ Et].
  2:{ cbn [forallb puttable holds]. destruct (look (before sur w) (key nm)); [by left|right]. lia. }
  destruct (succeeded resp); cbn [negb].
  - destruct Et as (Hh & _ & _ & Hl). intros [= <- <-]. split; [|apply Hl].
    cbn [forallb holds] in Hh. destruct (look (before sur w) (key nm)) as [kv|]; [|lia].
    exists kv. split; [done|]. lia.
  - by intros [= <- <-].
Qed.

Lemma read_from_version s nm (o : T) rev :
  read_from s nm o -> parse_i64 (resource_version (metadata o)) = Some rev ->
  rev <> 0%Z /\ exists kv, look s (key nm) = Some kv /\ mod_revision kv = rev
    /\ decode (kv_value kv) (mod_revision kv) = Ok o.
Proof.
  intros (kv & Hk & Ho) Hr. pose proof (look_bounds _ _ _ Hk) as [Hb _].
  assert (rev = mod_revision kv) as -> by (eapply decoded_version; [|done..]; lia).
  split; [lia|]. by exists kv.
Qed.

(** What the delete that ended the loop removed. *)
Definition removed (nm uid : string) (concluded : T -> bool) (w' : world D) : Prop :=
  exists s x, read_from s nm x /\ concluded x = true /\ Objects.uid (metadata x) = uid
    /\ forall k, look (db w') k = if String.eqb (key nm) k then None else look s k.

Lemma finish_loop_true nm uid concluded attempts current s0 w w' :
  (forall n s, evolves s (env sur n s)) ->
  read_from s0 nm current -> evolves s0 (db w) -> Objects.uid (metadata current) = uid ->
  finish_loop prefix sur nm uid concluded attempts current w = (w', Ok true) ->
  removed nm uid concluded w'.
Proof.
  intros Henv. revert current s0 w. induction attempts as [|n IH]; intros cur s0 w Hread Hev Hu; [done|].
  simpl. destruct (concluded cur) eqn:Ec; [|done]. simpl.
  destruct (delete_if _ _ _ _ _) as [w1 r] eqn:Ed.
  assert (Hp : (exists u, r = Ok u) \/ (exists why, r = Err (StoreError.Conflict why)) ->
    exists rev, parse_i64 (resource_version (metadata cur)) = Some rev).
  { unfold delete_if, parsed_version, mbind, store_bind, lift in Ed.
    destruct (parse_i64 _) as [rev|]; [by exists rev|]. injection Ed as <- <-. intros [[??]|[??]]; done. }
  assert (Hevb : evolves s0 (before sur w)) by (etrans; [exact Hev|apply Henv]).
  destruct r as [u|e]; [|destruct e; try done].
  - intros [= <-]. destruct Hp as [rev Hr]; [eauto|].
    destruct (read_from_version _ _ _ _ Hread Hr) as (Hne & kv & Hk & Hm & Ho).
    destruct (delete_if_spec _ _ _ _ _ _ Hr Hne Ed) as [(kv' & Hk' & Hm') Hl].
    assert (kv = kv') as <- by (eapply same_revision_same_value; [exact Hevb|done|done|congruence]).
    exists (before sur w), cur. split_and!; try done. by exists kv.
  - destruct Hp as [rev Hr]; [eauto|].
    destruct (read_from_version _ _ _ _ Hread Hr) as (Hne & _).
    pose proof (delete_if_spec _ _ _ _ _ _ Hr Hne Ed) as Hdb. simpl in Hdb.
    destruct (get _ _ _ _) as [w2 [fresh|e]] eqn:Eg; [|by destruct e].
    destruct (String.eqb_spec (Objects.uid (metadata fresh)) uid) as [Hfu|]; [|done].
    apply get_ok in Eg as (kv & Hk & -> & Hf). intros H.
    eapply IH; [|apply rtc_refl|exact Hfu|exact H]. by exists kv.
Qed.

(** * Properties *)

(** C22. A finished delete removed the object that was judged: when
    [finish_delete] answers true, the object it removed was, at the moment of
    the delete, the one with the uid of the object first checked, and the
    verdict held for that very revision; only its key is gone.  An object
    recreated under the name in the meantime is never removed. *)
Theorem finish_delete_exact (checked : T) concluded s0 w w' :
  (forall n s, evolves s (env sur n s)) ->
  read_from s0 (name (metadata checked)) checked -> evolves s0 (db w) ->
  finish_delete prefix sur checked concluded w = (w', Ok true) ->
  exists s x, read_from s (name (metadata checked)) x /\ concluded x = true
    /\ Objects.uid (metadata x) = Objects.uid (metadata checked)
    /\ forall k, look (db w') k = if String.eqb (key (name (metadata checked))) k then None else look s k.
Proof. intros Henv Hread Hev H. by apply (finish_loop_true _ _ _ _ _ s0 w) in H. Qed.

(** The last call of the closure decides what was written. *)
Lemma take_finalizer_some (checked : T) finalizer still w w' o :
  fair (Sp := Sp) (St := St) prefix sur -> filed (Sp := Sp) (St := St) prefix (db w) ->
  take_finalizer prefix sur checked finalizer still w = (w', Ok (Some o)) ->
  exists s x, read_from s (name (metadata checked)) x /\ still x = true
    /\ Objects.uid (metadata x) = Objects.uid (metadata checked)
    /\ read_from (db w') (name (metadata checked)) o
    /\ Objects.uid (metadata o) = Objects.uid (metadata x)
    /\ finalizers (metadata o)
       = List.filter (fun f => negb (String.eqb f finalizer)) (finalizers (metadata x)).
Proof.
  intros Hfair Hfiled. unfold take_finalizer.
  destruct (mutate_if_with _ _ _ _ _ _ _) as [w1 [[[] o']|[]]] eqn:Em; intros H; simplify_eq.
  apply mutate_loop_ok in Em as (s & x & kv & b & at_ & c & Hk & Hx & Had & Hb & Hc & [Hr Hw] & Hd);
    [|done| |done].
  2:{ intros c' o'. unfold drop_finalizer. by destruct (still o'). }
  unfold expects_uid in Had. destruct (String.eqb_spec (Objects.uid (metadata x)) (Objects.uid (metadata checked))) as [Hu|]; [|done].
  unfold drop_finalizer in Hb, Hc. destruct (still x) eqn:Es; [|done]. simpl in Hb, Hd.
  exists s, x. split_and!; [by exists kv|done..| | |].
  - eexists. split; [by rewrite Hw; simpl; rewrite String.eqb_refl, Hk|]. done.
  - by rewrite (encode_name _ _ _ _ _ Hb Hd).
  - by rewrite (encode_name _ _ _ _ _ Hb Hd).
Qed.
End facts.

(** A counter in a store of its own, judged and deleted. *)
Lemma finish_delete_exact_witness :
  let c := with_metadata (declare_counter "vni" "u-1" 1%Z 10000)
             (set_resource_version (metadata (declare_counter "vni" "u-1" 1%Z 10000)) "1") in
  exists s (x : Counter), read_from "p" s "vni" x /\ Objects.uid (metadata x) = "u-1".
Proof.
  intros c. destruct (finish_delete_exact (Sp := CounterSpec.t) (St := unit) "p" quiet c (fun _ => true)
    one_counter (World one_counter 0)
    (finish_delete "p" quiet c (fun _ => true) (World one_counter 0)).1) as (s & x & Hr & _ & Hu & _).
  - intros n s. apply rtc_refl.
  - eexists. split; reflexivity.
  - apply rtc_refl.
  - by rewrite (surjective_pairing (finish_delete _ _ _ _ _)) at 1.
  - by exists s, x.
Defined.
