(* ===== verification/Heartbeat.v ===== *)
(** Silence and freshness: [src/shared/controller-api/src/heartbeat.rs] and
    [mirror::is_current].  Instants are nanoseconds from the Unix epoch. *)
From Stdlib Require Import ZArith Bool Lia.
From stdpp Require Import base tactics.
From S2P Require Import Prelude Phase.
Local Open Scope Z_scope.

(** * Definitions *)

(** [a.signed_duration_since(b).num_seconds()]: whole seconds, towards zero. *)
Definition num_seconds_since (a b : instant) : Z := Z.quot (a - b) 1000000000.

(** [DateTime + Duration::seconds(n)]. *)
Definition plus_seconds (a : instant) (n : Z) : instant := a + n * 1000000000.

Definition HEARTBEAT_TIMEOUT_SECS : Z := 30.

Definition expired (last : option instant) (now : instant) : bool :=
  match last with
  | Some hb => HEARTBEAT_TIMEOUT_SECS <? num_seconds_since now hb
  | None => true
  end.

(** [Ord for Option]: [None] is below every [Some]. *)
Definition option_max (a b : option instant) : option instant :=
  match a, b with
  | Some x, Some y => Some (Z.max x y)
  | Some x, None => Some x
  | None, _ => b
  end.

Definition is_current (deletion observed : option instant) (reported_at : instant) : bool :=
  match option_max deletion observed with
  | Some floor => floor <=? reported_at
  | None => true
  end.

(** * Lemmas *)

Lemma num_seconds_gt a b n :
  0 <= n -> (n < num_seconds_since a b <-> plus_seconds b (n + 1) <= a).
Proof.
  intros Hn. unfold num_seconds_since, plus_seconds.
  destruct (Z.le_gt_cases 0 (a - b)) as [Hle|Hlt].
  - rewrite Z.quot_div_nonneg by lia.
    pose proof (Z.div_mod (a - b) 1000000000). pose proof (Z.mod_pos_bound (a - b) 1000000000).
    nia.
  - assert (Z.quot (a - b) 1000000000 <= 0); [|lia].
    replace (a - b) with (- (b - a)) by lia. rewrite Z.quot_opp_l by lia.
    assert (0 <= Z.quot (b - a) 1000000000) by (apply Z.quot_pos; lia). lia.
Qed.

(** A peer is silent from the thirty-first full second after its last beat. *)
Lemma expired_spec last now :
  expired last now = true <->
  match last with Some hb => plus_seconds hb 31 <= now | None => True end.
Proof.
  unfold expired. destruct last as [hb|]; [|done].
  rewrite Z.ltb_lt. apply (num_seconds_gt now hb 30). lia.
Qed.

Lemma is_current_spec deletion observed at_ :
  is_current deletion observed at_ = true <->
  (forall d, deletion = Some d -> d <= at_) /\ (forall o, observed = Some o -> o <= at_).
Proof.
  unfold is_current, option_max.
  destruct deletion as [d|], observed as [o|]; rewrite ?Z.leb_le; split;
    try naive_solver lia.
  intros [Hd Ho]. specialize (Hd _ eq_refl). specialize (Ho _ eq_refl). lia.
Qed.
