(* ===== verification/Nics.v ===== *)
(** The network interfaces of a VM spec: the pure parts of
    [src/shared/controller-api/src/vni.rs] and [floating.rs], the ownership
    check of the cloud's VM edge and [bind_nics] of the cluster session.
    Together they decide which wire a guest is plugged into. *)
From Stdlib Require Import Ascii String NArith ZArith List Bool Lia.
From stdpp Require Import base list strings.
From S2P Require Import Prelude RustStr Json Phase Objects.

(** * Definitions *)

Definition DEFAULT_VNI_BASE : N := 10000.
Definition VNI_MAX : N := 16777215.
Definition COUNTER_VNI : string := "vni".

Definition next_vni (current : option N) (base : N) : result StoreError.t (N * N) :=
  let base := N.max base 1 in
  let issued := N.max (unwrap_or base current) base in
  if (VNI_MAX <? issued)%N then
    Err (StoreError.Invalid
           ("cannot allocate a vni: " +:+ show_N issued
            +:+ " is past the 24-bit range a vxlan identifier has (" +:+ show_N VNI_MAX
            +:+ "); the tenant counter is exhausted"))
  else Ok (issued, issued + 1)%N.

Definition physnet_of (nic : smap value) : option string :=
  match sget "physnet" nic ≫= as_str with
  | Some p => if negb (str_is_empty p) then Some p else None
  | None => None
  end.

Definition on_a_provider_network (nic : smap value) : bool := is_some (physnet_of nic).

(** [spec.get_mut("nics").and_then(as_array_mut)] and a loop over the NICs that
    are objects: [f] is the new NIC where the loop changes it. *)
Definition update_nic (f : smap value -> option (smap value)) (nic : value) : value * N :=
  match nic with
  | Json.Object m => match f m with Some m' => (Json.Object m', 1%N) | None => (nic, 0%N) end
  | _ => (nic, 0%N)
  end.

Definition update_nics (f : smap value -> option (smap value)) (spec : value) : value * N :=
  match spec with
  | Json.Object m =>
      match sget "nics" m with
      | Some (Array nics) =>
          (Json.Object (sinsert "nics" (Array (map (fun n => (update_nic f n).1) nics)) m),
           foldr (fun n k => (update_nic f n).2 + k)%N 0%N nics)
      | _ => (spec, 0%N)
      end
  | _ => (spec, 0%N)
  end.

Definition inject_vxlan (vni : N) (nic : smap value) : option (smap value) :=
  if is_some_and (fun v => negb (is_null v)) (sget "vxlan_id" nic) || on_a_provider_network nic
  then None
  else Some (sinsert "vxlan_id" (Number (PosInt vni)) nic).

Definition inject_vxlan_id (spec : value) (vni : N) : value * N :=
  update_nics (inject_vxlan vni) spec.

Definition NIC_FLOATING_IPS : string := "floating_ips".
Definition NIC_ROUTED_SUBNETS : string := "routed_subnets".

Definition inject_list (field : string) (values : list string) (nic : smap value)
    : option (smap value) :=
  if is_some_and (fun p => negb (is_null p)) (sget "physnet" nic) then None
  else
    let already :=
      is_some_and (fun a => match a with [] => false | _ => true end)
        (sget field nic ≫= as_array) in
    if already then None else Some (sinsert field (Array (map Str values)) nic).

Definition inject_nic_list (spec : value) (field : string) (values : list string) : value * N :=
  match values with [] => (spec, 0%N) | _ => update_nics (inject_list field values) spec end.

Definition without_lists (nic : smap value) : option (smap value) :=
  Some (sremove NIC_ROUTED_SUBNETS (sremove NIC_FLOATING_IPS nic)).

Definition without_nic_lists (spec : value) : value := (update_nics without_lists spec).1.

(** The [nics] array as the readers see it. *)
Definition nics_of (vm : value) : list value := unwrap_or [] (jget vm "nics" ≫= as_array).

Definition WIRE_FIELDS : list string := ["physnet"; "bridge"].

Module OwnWire.
Record t := { nic : nat; field : string; name : string }.
End OwnWire.

Definition own_wire (i : nat) (entry : value) (field : string) : option OwnWire.t :=
  match jget entry field ≫= as_str with
  | Some name =>
      if negb (str_is_empty name)
      then Some {| OwnWire.nic := i; OwnWire.field := field; OwnWire.name := name |}
      else None
  | None => None
  end.

Definition own_wires (vm : value) : list OwnWire.t :=
  flat_map (fun '(i, entry) => filter_map (own_wire i entry) WIRE_FIELDS)
    (enumerate (nics_of vm)).

Definition check_tenant_nics (vm : value) : result ApiError.t unit :=
  match own_wires vm with
  | wire :: _ =>
      let path := "spec.vm.nics[" +:+ show_N (N.of_nat (OwnWire.nic wire)) +:+ "]."
                  +:+ OwnWire.field wire in
      Err (invalid_field path
             (path +:+ " is not a tenant's to set: a tenant's vm hangs on its own overlay, and a provider network or a host bridge is shared with everybody on it"))
  | [] => Ok tt
  end.

(** The two nested loops of [check_owned_nic_fields], as a search. *)
Definition owned_field (nic : value) : option string :=
  List.find (fun field => is_some_and (fun v => negb (is_null v)) (jget nic field))
    ["vxlan_id"; NIC_FLOATING_IPS; NIC_ROUTED_SUBNETS].

Definition check_owned_nic_fields (vm : value) : result ApiError.t unit :=
  match find_map (fun '(i, nic) => match owned_field nic with
                                   | Some f => Some (i, f)
                                   | None => None
                                   end) (enumerate (nics_of vm)) with
  | Some (i, field) =>
      Err (invalid ("spec.vm.nics[" +:+ show_N (N.of_nat i) +:+ "]." +:+ field
                    +:+ " is control-plane-owned; the cloud fills it in from the vm's tenant"))
  | None => Ok tt
  end.

(** [bind_nics]: what the cluster writes onto a VM the cloud hands down. *)
Definition bind_nics (vni : option N) (floating_ips routed_subnets : list string)
    (vm_spec : value) : value :=
  let s1 := match vni with Some v => (inject_vxlan_id vm_spec v).1 | None => vm_spec end in
  let s2 := (inject_nic_list s1 NIC_FLOATING_IPS floating_ips).1 in
  (inject_nic_list s2 NIC_ROUTED_SUBNETS routed_subnets).1.

(** * Lemmas *)

Lemma next_vni_spec current base v n :
  next_vni current base = Ok (v, n) ->
  n = (v + 1)%N /\ (1 <= v <= VNI_MAX)%N /\ (base <= v)%N /\
  (forall c, current = Some c -> (c <= v)%N).
Proof.
  unfold next_vni. destruct (_ <? _)%N eqn:E; [done|]. intros [= <- <-].
  split_and!; [done|lia|lia|lia|]. intros c ->. simpl. lia.
Qed.

Lemma nics_of_update f spec :
  nics_of (update_nics f spec).1 = map (fun n => (update_nic f n).1) (nics_of spec).
Proof.
  unfold update_nics, nics_of. destruct spec as [| | | | |m]; simpl; try done.
  destruct (sget "nics" m) as [[| | | |nics|]|] eqn:E; simpl; rewrite ?E; simpl; try done.
  unfold sget, sinsert. by rewrite bt_get_insert_eq by apply _.
Qed.

(** Injection touches nothing but the NICs. *)
Lemma jget_update_nics f spec g :
  g <> "nics" -> jget (update_nics f spec).1 g = jget spec g.
Proof.
  intros Hg. unfold update_nics. destruct spec as [| | | | |m]; simpl; try done.
  destruct (sget "nics" m) as [[| | | |nics|]|]; simpl; try done.
  unfold sget, sinsert. by rewrite bt_get_insert_ne by (apply _ || done).
Qed.

Lemma in_enumerate {A} (l : list A) x : In x l -> exists i, In (i, x) (enumerate l).
Proof.
  unfold enumerate. generalize 0%nat. induction l as [|a l IH]; intros k; simpl; [done|].
  intros [->|Hin]; [eauto|]. destruct (IH (S k) Hin) as [i Hi]. eauto.
Qed.

Lemma tenant_nics_no_wire vm nic :
  check_tenant_nics vm = Ok tt -> In nic (nics_of vm) ->
  forall field, In field WIRE_FIELDS -> own_wire 0 nic field = None.
Proof.
  unfold check_tenant_nics. destruct (own_wires vm) as [|w ws] eqn:E; [|done]. intros _ Hin field Hf.
  destruct (in_enumerate _ _ Hin) as [i Hi].
  destruct (own_wire 0 nic field) as [w|] eqn:Hw; [|done]. exfalso.
  assert (In {| OwnWire.nic := i; OwnWire.field := OwnWire.field w; OwnWire.name := OwnWire.name w |}
            (own_wires vm)) as Hbad; [|by rewrite E in Hbad].
  unfold own_wires. apply in_flat_map. exists (i, nic). split; [done|].
  apply in_filter_map. exists field. split; [done|].
  unfold own_wire in *. destruct (jget nic field ≫= as_str) as [n|]; [|done].
  destruct (negb (str_is_empty n)); [|done]. by injection Hw as <-.
Qed.

Lemma owned_nics_clean vm nic field :
  check_owned_nic_fields vm = Ok tt -> In nic (nics_of vm) ->
  In field ["vxlan_id"; NIC_FLOATING_IPS; NIC_ROUTED_SUBNETS] ->
  is_some_and (fun v => negb (is_null v)) (jget nic field) = false.
Proof.
  unfold check_owned_nic_fields. destruct (find_map _ _) as [[i f]|] eqn:E; [done|]. intros _ Hin Hf.
  apply find_map_none in E. rewrite List.Forall_forall in E.
  destruct (in_enumerate _ _ Hin) as [i Hi]. specialize (E _ Hi). simpl in E.
  destruct (owned_field nic) eqn:Ho; [done|]. apply find_none_iff in Ho.
  rewrite List.Forall_forall in Ho. by apply Ho.
Qed.

Lemma physnet_own_wire m :
  own_wire 0 (Json.Object m) "physnet" = None -> on_a_provider_network m = false.
Proof.
  unfold own_wire, on_a_provider_network, physnet_of. simpl.
  destruct (sget "physnet" m ≫= as_str) as [p|]; [|done]. by destruct (str_is_empty p).
Qed.

(** The two properties of a bound NIC. *)
Definition nic_on_overlay (vni : N) (nic : smap value) : Prop :=
  sget "vxlan_id" nic = Some (Number (PosInt vni)) /\ on_a_provider_network nic = false.

(** Injecting an address list keeps every NIC on its wire. *)
Lemma inject_nic_list_keeps s field values vni :
  field <> "vxlan_id" -> field <> "physnet" ->
  (forall nic, In (Json.Object nic) (nics_of s) -> nic_on_overlay vni nic) ->
  (forall nic, In (Json.Object nic) (nics_of (inject_nic_list s field values).1) ->
     nic_on_overlay vni nic) /\
  length (nics_of (inject_nic_list s field values).1) = length (nics_of s) /\
  (forall f, f <> "nics" -> jget (inject_nic_list s field values).1 f = jget s f).
Proof.
  intros Hf1 Hf2 H. unfold inject_nic_list. destruct values as [|v vs]; [done|].
  set (l := v :: vs). split_and!; [|by rewrite nics_of_update, length_map|].
  - intros nic. rewrite nics_of_update, in_map_iff. intros (n0 & Hn0 & Hin).
    destruct n0 as [| | | | |m]; try done. simpl in Hn0. specialize (H _ Hin).
    destruct (inject_list field l m) as [m'|] eqn:E; simpl in Hn0; injection Hn0 as <-; [|done].
    unfold inject_list in E. repeat case_match; try done. injection E as <-.
    unfold nic_on_overlay, on_a_provider_network, physnet_of, sget, sinsert in *.
    by rewrite !bt_get_insert_ne by (apply _ || done).
  - intros f Hf. by apply jget_update_nics.
Qed.

Lemma inject_vxlan_settled vni vni' m m' :
  inject_vxlan vni m = Some m' -> inject_vxlan vni' m' = None.
Proof.
  unfold inject_vxlan. destruct (_ || _); [done|]. intros [= <-].
  unfold sget, sinsert. by rewrite bt_get_insert_eq by apply _.
Qed.

(** A NIC injected once is left alone. *)
Lemma update_nic_settled vni vni' n :
  update_nic (inject_vxlan vni') (update_nic (inject_vxlan vni) n).1
  = ((update_nic (inject_vxlan vni) n).1, 0%N).
Proof.
  destruct n as [| | | | |m]; simpl; try done.
  destruct (inject_vxlan vni m) as [m'|] eqn:E; simpl.
  - by rewrite (inject_vxlan_settled vni vni' m m' E).
  - assert (inject_vxlan vni' m = None) as ->; [|done].
    unfold inject_vxlan in *. by destruct (_ || _).
Qed.

Lemma update_nics_count f spec :
  (forall n, In n (nics_of spec) -> (update_nic f n).2 = 0%N) -> (update_nics f spec).2 = 0%N.
Proof.
  unfold update_nics, nics_of. destruct spec as [| | | | |m]; simpl; try done.
  destruct (sget "nics" m) as [[| | | |nics|]|]; simpl; try done.
  induction nics as [|n nics IH]; simpl; intros H; [done|].
  rewrite H by auto. rewrite IH; [done|]. auto.
Qed.

(** * Theorems *)

(** Tenant confinement.  A VM that passed the cloud's two NIC checks and is
    bound by its cluster to a tenant's VNI has exactly that VNI on every NIC,
    and no NIC on a provider network; no other field of the spec changes. *)
Theorem bound_tenant_nics_confined vm vni fips subnets :
  check_owned_nic_fields vm = Ok tt -> check_tenant_nics vm = Ok tt ->
  let bound := bind_nics (Some vni) fips subnets vm in
  (forall nic, In (Json.Object nic) (nics_of bound) ->
     sget "vxlan_id" nic = Some (Number (PosInt vni)) /\ on_a_provider_network nic = false) /\
  length (nics_of bound) = length (nics_of vm) /\
  (forall f, f <> "nics" -> jget bound f = jget vm f).
Proof.
  intros Howned Hwires bound. unfold bound, bind_nics.
  set (s1 := (inject_vxlan_id vm vni).1).
  assert (H1 : forall nic, In (Json.Object nic) (nics_of s1) ->
    sget "vxlan_id" nic = Some (Number (PosInt vni)) /\ on_a_provider_network nic = false).
  { intros nic. unfold s1, inject_vxlan_id. rewrite nics_of_update, in_map_iff.
    intros (n0 & Hn0 & Hin). destruct n0 as [| | | | |m]; try done.
    pose proof (owned_nics_clean vm _ "vxlan_id" Howned Hin ltac:(by left)) as Hv.
    pose proof (tenant_nics_no_wire vm _ Hwires Hin "physnet" ltac:(by left)) as Hp.
    apply physnet_own_wire in Hp. simpl in Hn0. unfold inject_vxlan in Hn0.
    simpl in Hv. rewrite Hv, Hp in Hn0. simpl in Hn0. injection Hn0 as <-.
    unfold on_a_provider_network, physnet_of, sget, sinsert in *.
    rewrite bt_get_insert_eq, bt_get_insert_ne by (apply _ || done). done. }
  destruct (inject_nic_list_keeps s1 NIC_FLOATING_IPS fips vni) as (H2 & H2l & H2f);
    [done|done|done|].
  destruct (inject_nic_list_keeps (inject_nic_list s1 NIC_FLOATING_IPS fips).1
              NIC_ROUTED_SUBNETS subnets vni) as (H3 & H3l & H3f); [done|done|done|].
  split_and!; [done| |].
  - rewrite H3l, H2l. unfold s1, inject_vxlan_id. by rewrite nics_of_update, length_map.
  - intros f Hf. rewrite H3f, H2f by done. by apply jget_update_nics.
Qed.

(** One NIC that names nothing, one with an empty [physnet]. *)
Definition example_vm_spec : value :=
  Json.Object [("nics", Array [Json.Object []; Json.Object [("physnet", Str "")]])].

Lemma bound_tenant_nics_confined_witness :
  length (nics_of (bind_nics (Some 10007%N) ["10.255.0.7"] [] example_vm_spec)) = 2%nat /\
  forall nic, In (Json.Object nic) (nics_of (bind_nics (Some 10007%N) ["10.255.0.7"] [] example_vm_spec)) ->
    sget "vxlan_id" nic = Some (Number (PosInt 10007)) /\ on_a_provider_network nic = false.
Proof.
  split; [done|].
  apply (bound_tenant_nics_confined example_vm_spec 10007 ["10.255.0.7"] []); by vm_compute.
Defined.

(** The two injectors disagree about an empty [physnet]: for VNI injection
    it selects nothing and the NIC joins the tenant's overlay, but the
    address-list injection takes it for a provider NIC, so a NIC on the overlay
    is left without the source addresses its VM was given. *)
Theorem empty_physnet_gets_no_address_list :
  exists vm nic, check_owned_nic_fields vm = Ok tt /\ check_tenant_nics vm = Ok tt /\
    In (Json.Object nic) (nics_of (bind_nics (Some 10007%N) ["10.255.0.7"] [] vm)) /\
    nic_on_overlay 10007 nic /\ sget NIC_FLOATING_IPS nic = None.
Proof.
  exists example_vm_spec, [("physnet", Str ""); ("vxlan_id", Number (PosInt 10007))].
  split_and!; [by vm_compute|by vm_compute|vm_compute; by auto|by split; vm_compute|by vm_compute].
Qed.

(** Binding is idempotent on the overlay: NICs bound once are not touched
    by a second hand-down, whatever VNI it carries. *)
Theorem inject_vxlan_idempotent vm vni vni' :
  nics_of (inject_vxlan_id (inject_vxlan_id vm vni).1 vni').1
  = nics_of (inject_vxlan_id vm vni).1 /\
  (inject_vxlan_id (inject_vxlan_id vm vni).1 vni').2 = 0%N.
Proof.
  split.
  - unfold inject_vxlan_id. rewrite !nics_of_update, map_map. apply map_ext_in.
    intros n _. by rewrite update_nic_settled.
  - unfold inject_vxlan_id at 1. apply update_nics_count. intros n Hin.
    unfold inject_vxlan_id in Hin. rewrite nics_of_update, in_map_iff in Hin.
    destruct Hin as (n0 & <- & _). by rewrite update_nic_settled.
Qed.
