(* ===== verification/Vni.v ===== *)
(** Handing out overlay ids: [allocate] and [peek] of
    [src/shared/controller-api/src/vni.rs], over the stored counter. *)
From Stdlib Require Import Ascii String NArith ZArith List Bool Lia.
From stdpp Require Import base list strings gmap relations.
From S2P Require Import Prelude RustStr Json Phase Objects Store StoreSafety Nics.

(** * Definitions *)

Definition ALLOCATE_ROUNDS : nat := 16.

Section allocate.
Context {D Bytes : Type} `{!Etcd D Bytes, !RawJson Bytes, !Serde Bytes CounterSpec.t unit}.
Variable prefix : string.
Variable sur : surroundings D.
(** The fresh identifier of a declared counter. *)
Variable new_uid : nat -> string.

Abbreviation get := (get (Sp := CounterSpec.t) (St := unit) prefix sur).

Definition set_next (c : Counter) (next : N) : Counter := with_spec c {| CounterSpec.next := next |}.

Definition peek (base : N) : store_m D N := fun w =>
  match get COUNTER_VNI w with
  | (w', Ok counter) =>
      (w', match next_vni (Some (CounterSpec.next (spec counter))) base with Ok (i, _) => Ok i | Err e => Err e end)
  | (w', Err (StoreError.NotFound _)) =>
      (w', match next_vni None base with Ok (i, _) => Ok i | Err e => Err e end)
  | (w', Err e) => (w', Err e)
  end.

Fixpoint allocate_loop (base : N) (rounds : nat) : store_m D N :=
  match rounds with
  | O => lift (Err (conflict_on (Sp := CounterSpec.t) (St := unit) COUNTER_VNI "retries exhausted"))
  | Datatypes.S rounds => fun w =>
      match get COUNTER_VNI w with
      | (w', Ok counter) =>
          match next_vni (Some (CounterSpec.next (spec counter))) base with
          | Err e => (w', Err e)
          | Ok (issued, next) =>
              match update prefix sur (set_next counter next) w' with
              | (w'', Ok _) => (w'', Ok issued)
              | (w'', Err (StoreError.Conflict _)) => allocate_loop base rounds w''
              | (w'', Err e) => (w'', Err e)
              end
          end
      | (w', Err (StoreError.NotFound _)) =>
          match next_vni None base with
          | Err e => (w', Err e)
          | Ok (issued, next) =>
              match create prefix sur
                      (declare_counter COUNTER_VNI (new_uid (ticks w')) (clock sur (ticks w')) next) w' with
              | (w'', Ok _) => (w'', Ok issued)
              | (w'', Err (StoreError.AlreadyExists _)) => allocate_loop base rounds w''
              | (w'', Err e) => (w'', Err e)
              end
          end
      | (w', Err e) => (w', Err e)
      end
  end.

Definition allocate (base : N) : store_m D N := allocate_loop base ALLOCATE_ROUNDS.
End allocate.

(** * Lemmas *)

Section facts.
Context {D Bytes : Type} `{!Etcd D Bytes, !EtcdLaws D Bytes, !RawJson Bytes}.
Context `{!Serde Bytes CounterSpec.t unit, !SerdeLaws Bytes CounterSpec.t unit}.
Variable prefix : string.
Variable sur : surroundings D.
Variable new_uid : nat -> string.
Abbreviation key := (key_of (Sp := CounterSpec.t) (St := unit) prefix COUNTER_VNI).

(** What the stored counter would hand out next. *)
Definition next_of (s : D) : option N :=
  kv ← look s key;
  match decode (Sp := CounterSpec.t) (St := unit) (kv_value kv) (mod_revision kv) with
  | Ok c => Some (CounterSpec.next (spec c))
  | Err _ => None
  end.

(** The counter does not move back. *)
Definition counter_le (s s' : D) : Prop :=
  forall v, next_of s = Some v -> exists v', next_of s' = Some v' /\ (v <= v')%N.

(** Other processes write through the store and only ever advance the counter. *)
Definition advancing : Prop :=
  fair (Sp := CounterSpec.t) (St := unit) prefix sur /\ forall n s, counter_le s (env sur n s).

Lemma counter_le_trans s1 s2 s3 : counter_le s1 s2 -> counter_le s2 s3 -> counter_le s1 s3.
Proof.
  intros H1 H2 v Hv. destruct (H1 v Hv) as (v1 & Hv1 & ?). destruct (H2 v1 Hv1) as (v2 & ? & ?).
  exists v2. split; [done|lia].
Qed.

Lemma next_of_wrote s s' lease b (c : Counter) :
  wrote (Sp := CounterSpec.t) (St := unit) prefix s s' COUNTER_VNI lease b ->
  decode b (revision s') = Ok c -> next_of s' = Some (CounterSpec.next (spec c)).
Proof.
  intros [_ Hw] Hd. unfold next_of. rewrite Hw. simpl. rewrite String.eqb_refl. simpl. by rewrite Hd.
Qed.

(** The number issued is past the counter, and the counter is past the number. *)
Definition issued_at (base v : N) (s : D) (w' : world D) : Prop :=
  (1 <= v <= VNI_MAX)%N /\ (base <= v)%N /\ next_of (db w') = Some (v + 1)%N
  /\ forall c, next_of s = Some c -> (c <= v)%N.

Lemma issued_mono base v s s0 w' : counter_le s0 s -> issued_at base v s w' -> issued_at base v s0 w'.
Proof.
  intros Hle (? & ? & ? & Hc). repeat (split; [done|]). intros c Hs. destruct (Hle c Hs) as (c' & Hc' & ?).
  specialize (Hc c' Hc'). lia.
Qed.

Lemma allocate_found base counter kv issued next w w1 r :
  advancing -> look (before sur w) key = Some kv ->
  decode (kv_value kv) (mod_revision kv) = Ok counter ->
  name (metadata counter) = COUNTER_VNI ->
  next_vni (Some (CounterSpec.next (spec counter))) base = Ok (issued, next) ->
  update prefix sur (set_next counter next) (World (before sur w) (S (ticks w))) = (w1, r) ->
  match r with
  | Ok _ => issued_at base issued (db w) w1
  | Err (StoreError.Conflict _) => counter_le (db w) (db w1)
      /\ (filed (Sp := CounterSpec.t) (St := unit) prefix (before sur w) ->
          filed (Sp := CounterSpec.t) (St := unit) prefix (db w1))
  | Err _ => True
  end.
Proof.
  intros [Hfair Hadv] Hk Hc Hn Hv Hu. destruct (next_vni_spec _ _ _ _ Hv) as (-> & Hb & Hbase & Hge).
  pose proof (look_bounds _ _ _ Hk) as [Hpos _].
  destruct r as [o|e]; [|destruct e; try done].
  - destruct (update_parsed _ _ _ _ _ _ Hu) as [rev Hr]; [eauto|].
    assert (rev = mod_revision kv) as -> by (eapply decoded_version; [|exact Hc|exact Hr]; lia).
    destruct (update_ok _ _ _ _ _ _ _ Hr ltac:(lia) Hu) as (kv2 & b & _ & _ & Hb2 & _ & Hw & Hd).
    simpl in Hw. rewrite Hn in Hw. split_and!; [lia|lia|lia| |].
    + rewrite (next_of_wrote _ _ _ _ _ Hw Hd). by rewrite (encode_name _ _ _ _ _ Hb2 Hd).
    + intros c Hs. destruct (Hadv (ticks w) (db w) c Hs) as (c' & Hc' & ?).
      unfold next_of in Hc'. fold (before sur w) in Hc'. rewrite Hk in Hc'. simpl in Hc'. rewrite Hc in Hc'.
      injection Hc' as <-. specialize (Hge _ eq_refl). lia.
  - destruct (update_parsed _ _ _ _ _ _ Hu) as [rev Hr]; [eauto|].
    assert (rev = mod_revision kv) as -> by (eapply decoded_version; [|exact Hc|exact Hr]; lia).
    rewrite (update_conflict _ _ _ _ _ _ _ Hr ltac:(lia) Hu). unfold before at 1 3. simpl. split.
    + eapply counter_le_trans; [apply Hadv|apply Hadv].
    + intros Hf. by apply Hfair.
Qed.

Lemma get_not_found w w' why :
  get (Sp := CounterSpec.t) (St := unit) prefix sur COUNTER_VNI w = (w', Err (StoreError.NotFound why)) ->
  db w' = before sur w /\ ticks w' = S (ticks w) /\ look (before sur w) key = None.
Proof.
  unfold get, read, mbind, store_bind, timed, lift. fold (before sur w).
  destruct (fault sur (ticks w)) as [|[] []]; [|intros H; simplify_eq..].
  destruct (look (before sur w) key) as [kv|] eqn:E; intros H.
  - unfold decode in H. destruct (from_slice _); simplify_eq.
  - by simplify_eq.
Qed.

Lemma allocate_missing base issued next w w1 r :
  advancing -> look (before sur w) key = None ->
  next_vni None base = Ok (issued, next) ->
  create prefix sur (declare_counter COUNTER_VNI (new_uid (S (ticks w))) (clock sur (S (ticks w))) next)
    (World (before sur w) (S (ticks w))) = (w1, r) ->
  match r with
  | Ok _ => issued_at base issued (db w) w1
  | Err (StoreError.AlreadyExists _) => counter_le (db w) (db w1)
      /\ (filed (Sp := CounterSpec.t) (St := unit) prefix (before sur w) ->
          filed (Sp := CounterSpec.t) (St := unit) prefix (db w1))
  | Err _ => True
  end.
Proof.
  intros [Hfair Hadv] Hk Hv Hc. destruct (next_vni_spec _ _ _ _ Hv) as (-> & Hb & Hbase & _).
  destruct r as [o|e]; [|destruct e; try done].
  - apply create_ok in Hc as (b & _ & Hb2 & _ & Hw & Hd). split; [lia|]. split; [lia|]. split.
    + rewrite (next_of_wrote _ _ _ _ _ Hw Hd). by rewrite (encode_name _ _ _ _ _ Hb2 Hd).
    + intros c Hs. destruct (Hadv (ticks w) (db w) c Hs) as (c' & Hc' & ?).
      unfold next_of in Hc'. fold (before sur w) in Hc'. by rewrite Hk in Hc'.
  - unfold create in Hc. rewrite (create_exists _ _ _ _ _ _ _ Hc). unfold before at 1 3. simpl. split.
    + eapply counter_le_trans; [apply Hadv|apply Hadv].
    + intros Hf. by apply Hfair.
Qed.

Lemma allocate_loop_ok base rounds w w' v :
  advancing -> filed (Sp := CounterSpec.t) (St := unit) prefix (db w) ->
  allocate_loop prefix sur new_uid base rounds w = (w', Ok v) -> issued_at base v (db w) w'.
Proof.
  intros Hadv. revert w. induction rounds as [|n IH]; intros w Hf; [done|]. simpl.
  assert (Hfb : filed (Sp := CounterSpec.t) (St := unit) prefix (before sur w)) by (by apply Hadv).
  destruct (get _ _ _ _) as [w1 [counter|e]] eqn:Eg.
  - apply get_ok in Eg as (kv & Hk & -> & Hd).
    destruct (next_vni _ base) as [[issued next]|] eqn:Ev; [|done].
    destruct (update _ _ _ _) as [w2 r] eqn:Eu.
    pose proof (allocate_found _ _ _ _ _ _ _ _ Hadv Hk Hd (Hfb _ _ _ Hk Hd) Ev Eu) as Hr.
    destruct r as [o|[]]; intros H; simplify_eq; [done|]. destruct Hr as [Hle Hf2].
    eapply issued_mono; [exact Hle|]. apply IH; auto.
  - destruct e; try done. destruct w1 as [d1 t1]. apply get_not_found in Eg as (Hd1 & Ht1 & Hk). simpl in *. subst d1 t1.
    destruct (next_vni _ base) as [[issued next]|] eqn:Ev; [|done].
    destruct (create _ _ _ _) as [w2 r] eqn:Ec.
    pose proof (allocate_missing _ _ _ _ _ _ Hadv Hk Ev Ec) as Hr.
    destruct r as [o|[]]; intros H; simplify_eq; [done|]. destruct Hr as [Hle Hf2].
    eapply issued_mono; [exact Hle|]. apply IH; auto.
Qed.

(** * Properties *)

(** Overlay ids are never handed out twice: of two successful allocations,
    by any replicas with any floors, the later one is larger; both are
    nonzero, at or above their floor and within 24 bits, whatever other
    allocations, retries and failed requests happen around them. *)
Theorem vni_allocations_increase base1 base2 w1 w1' v1 w2 w2' v2 :
  advancing -> filed (Sp := CounterSpec.t) (St := unit) prefix (db w1) ->
  filed (Sp := CounterSpec.t) (St := unit) prefix (db w2) ->
  allocate prefix sur new_uid base1 w1 = (w1', Ok v1) -> counter_le (db w1') (db w2) ->
  allocate prefix sur new_uid base2 w2 = (w2', Ok v2) ->
  (1 <= v1 <= VNI_MAX)%N /\ (1 <= v2 <= VNI_MAX)%N /\ (base1 <= v1)%N /\ (base2 <= v2)%N /\ (v1 < v2)%N.
Proof.
  intros Hadv Hf1 Hf2 (Hr1 & Hb1 & Hn1 & _)%allocate_loop_ok Hle (Hr2 & Hb2 & _ & Hc2)%allocate_loop_ok;
    [|done..]. destruct (Hle _ Hn1) as (c & Hc & ?). specialize (Hc2 c Hc). lia.
Qed.
End facts.

Lemma vni_allocations_increase_witness :
  let a := fun w => allocate (D := mem Counter) "p" quiet (fun _ => "u-2") 10000 w in
  let w1 := World one_counter 0 in
  (a w1).2 = Ok 10000%N /\ (a (a w1).1).2 = Ok 10001%N /\ (10000 < 10001)%N.
Proof.
  intros a w1. split; [by vm_compute|]. split; [by vm_compute|].
  assert (Hr : forall w r, (a w).2 = r -> a w = ((a w).1, r)) by (intros w r <-; apply surjective_pairing).
  apply (vni_allocations_increase (D := mem Counter) "p" quiet (fun _ => "u-2") 10000 10000
    w1 (a w1).1 10000 (a w1).1 (a (a w1).1).1 10001).
  - split; [apply quiet_fair|]. intros n s v Hv. exists v. split; [done|lia].
  - apply mem_filed. by vm_compute.
  - apply mem_filed. by vm_compute.
  - apply Hr. by vm_compute.
  - intros v Hv. exists v. split; [done|lia].
  - apply Hr. by vm_compute.
Defined.
