(* ===== verification/Vm.v ===== *)
(** VM intent, evidence and the derived phase:
    [src/shared/controller-api/src/resources/vm.rs].  Each struct of the source
    is a module whose [t] is the record; [settle_vm] is the derivation both
    controller tiers store.  [to_rfc3339] prints an instant; it belongs to the
    date library and is an argument of what uses it. *)
From Stdlib Require Import Ascii String NArith ZArith List Bool Lia.
From stdpp Require Import base list strings.
From S2P Require Import Prelude RustStr Json Phase Objects Heartbeat.

(** * Closed sets *)

Module RunStrategy.
Inductive t := Running | Stopped | Paused.
Definition ALL : list t := [Running; Stopped; Paused].
Definition as_str (s : t) : string :=
  match s with Running => "Running" | Stopped => "Stopped" | Paused => "Paused" end.
End RunStrategy.

Module Evacuation.
Inductive t := Never | Restart.
Definition ALL : list t := [Never; Restart].
Definition as_str (e : t) : string := match e with Never => "never" | Restart => "restart" end.
Definition parse (s : string) : option t := List.find (fun e => String.eqb (as_str e) s) ALL.
Definition is_never (e : t) : bool := match e with Never => true | Restart => false end.
End Evacuation.

Module VmReason.
Inductive t :=
| Unrecorded | AwaitingNode | Unplaced | NotReady | VolumeHeld | Unbound | Dispatched | Refused
| Silent | Working | Backoff | AwaitingGuest | GuestLeft | ReceiveFailed | VmmGone | BackendGone
| ResumeIneffective | Stopping.

Definition ALL : list t :=
  [Unrecorded; AwaitingNode; Unplaced; NotReady; VolumeHeld; Unbound; Dispatched; Refused;
   Silent; Working; Backoff; AwaitingGuest; GuestLeft; ReceiveFailed; VmmGone; BackendGone;
   ResumeIneffective; Stopping].

Definition as_str (r : t) : string :=
  match r with
  | Unrecorded => "Unrecorded"
  | AwaitingNode => "AwaitingNode"
  | Unplaced => "Unplaced"
  | NotReady => "NotReady"
  | VolumeHeld => "VolumeHeld"
  | Unbound => "Unbound"
  | Dispatched => "Dispatched"
  | Refused => "Refused"
  | Silent => "Silent"
  | Working => "Working"
  | Backoff => "Backoff"
  | AwaitingGuest => "AwaitingGuest"
  | GuestLeft => "GuestLeft"
  | ReceiveFailed => "ReceiveFailed"
  | VmmGone => "VmmGone"
  | BackendGone => "BackendGone"
  | ResumeIneffective => "ResumeIneffective"
  | Stopping => "Stopping"
  end.
End VmReason.

Module VmPhaseKind.
Inductive t :=
| Pending | Provisioning | Running | Stopped | Paused | Failed | Quarantined | Unknown.

Definition ALL : list t :=
  [Pending; Provisioning; Running; Stopped; Paused; Failed; Quarantined; Unknown].

Definition as_str (k : t) : string :=
  match k with
  | Pending => "Pending"
  | Provisioning => "Provisioning"
  | Running => "Running"
  | Stopped => "Stopped"
  | Paused => "Paused"
  | Failed => "Failed"
  | Quarantined => "Quarantined"
  | Unknown => "Unknown"
  end.

(** The variants declared with a [reason] field. *)
Definition carries_reason (k : t) : bool :=
  match k with Running | Stopped | Paused => false | _ => true end.

Definition is_stable (k : t) : bool :=
  match k with Running | Stopped | Paused => true | _ => false end.

Definition is_terminal (k : t) : bool :=
  is_stable k || match k with Quarantined => true | _ => false end.
End VmPhaseKind.

#[export] Instance RunStrategy_eq_dec : EqDecision RunStrategy.t.
Proof. solve_decision. Defined.
#[export] Instance Evacuation_eq_dec : EqDecision Evacuation.t.
Proof. solve_decision. Defined.
#[export] Instance VmReason_eq_dec : EqDecision VmReason.t.
Proof. solve_decision. Defined.
#[export] Instance VmPhaseKind_eq_dec : EqDecision VmPhaseKind.t.
Proof. solve_decision. Defined.

#[export] Program Instance VmReason_set : ReasonSet VmReason.t := {
  Unrecorded := VmReason.Unrecorded;
  reason_all := VmReason.ALL;
  reason_str := VmReason.as_str;
}.
Next Obligation. solve_vocabulary. Qed.
Next Obligation. by intros []. Qed.

#[export] Program Instance VmPhase_set : PhaseSet VmPhaseKind.t := {
  kind_default := VmPhaseKind.Pending;
  kind_all := VmPhaseKind.ALL;
  kind_str := VmPhaseKind.as_str;
  carries := VmPhaseKind.carries_reason;
  kind_terminal := VmPhaseKind.is_terminal;
}.
Next Obligation. solve_vocabulary. Qed.
Next Obligation. done. Qed.

Definition VmPhase : Type := phase VmPhaseKind.t VmReason.t.
Definition VmReported : Type := reported VmPhaseKind.t VmReason.t.

(** * Specs *)

Definition CLASS_VM : string := "vm".
Definition CLASS_ROUTER : string := "router".

Definition accepts_class (accepts : list string) (class : string) : bool :=
  match accepts with [] => true | _ => existsb (fun a => String.eqb a class) accepts end.

Module AntiAffinity.
Record t := { selector : smap string; required : bool }.
End AntiAffinity.

Module VmSpec.
Record t := {
  node_name : option string;
  cluster_name : option string;
  run_strategy : RunStrategy.t;
  evacuation : Evacuation.t;
  tenant : option string;
  class_ : string;
  cluster_selector : smap string;
  node_selector : smap string;
  anti_affinity : list AntiAffinity.t;
  vm : value;
}.

Definition class (s : t) : string := if str_is_empty (class_ s) then CLASS_VM else class_ s.

Definition refers_to_a_volume (entry : value) : bool :=
  match jget entry "volume" ≫= as_str with
  | Some name => negb (str_is_empty name)
  | None => false
  end.

Definition describes : list string :=
  ["size_bytes"; "base_image"; "base_image_url"; "base_image_sha256"; "base_image_uid"; "driver"].

Definition malformed_volume_reference (s : t) : option string :=
  entries ← jget (vm s) "volumes" ≫= as_array;
  find_map
    (fun e => List.find (fun field => match jget e field with
                                      | Some v => negb (is_null v)
                                      | None => false
                                      end) describes)
    (List.filter refers_to_a_volume entries).

Definition user_data_from (s : t) : option (string * string) :=
  config ← jget (vm s) "cloud_init";
  from ← jget config "user_data_from";
  secret ← jget from "secret" ≫= as_str;
  key ← jget from "key" ≫= as_str;
  if negb (str_is_empty secret) && negb (str_is_empty key) then Some (secret, key) else None.

Definition user_data_said_twice (s : t) : bool :=
  match jget (vm s) "cloud_init" with
  | None => false
  | Some config =>
      let literal := match jget config "user_data" ≫= as_str with
                     | Some u => negb (str_is_empty u)
                     | None => false
                     end in
      literal && match user_data_from s with Some _ => true | None => false end
  end.

Definition referenced_volumes (s : t) : list string :=
  match jget (vm s) "volumes" ≫= as_array with
  | Some entries =>
      List.filter (fun name => negb (str_is_empty name))
        (filter_map as_str (filter_map (fun e => jget e "volume") entries))
  | None => []
  end.
End VmSpec.

(** The part of [spec.vm] an update may not change. *)
Definition frozen_vm_shape (vm : value) : value :=
  match jget vm "volumes" ≫= as_array with
  | None => vm
  | Some entries =>
      let frozen :=
        map snd (List.filter (fun '(i, entry) =>
                   Nat.eqb i 0 || negb (VmSpec.refers_to_a_volume entry)) (enumerate entries)) in
      (* the index assignment inserts: a document with a field is an object *)
      match jset vm "volumes" (Array frozen) with Some out => out | None => vm end
  end.

Definition vm_shape_unchanged (current next : value) : bool :=
  value_eqb (frozen_vm_shape current) (frozen_vm_shape next).

Definition unbind_only (current next : value) : bool :=
  value_eqb current next || is_null next.

Definition grows_only (current next : value) : bool :=
  match as_u64 current, as_u64 next with
  | Some was, Some now => (was <=? now)%N
  | _, _ => value_eqb current next
  end.

(** * Status *)

Module VmAddressKind.
Inductive t := Mac | FloatingIp.
End VmAddressKind.

#[export] Instance VmAddressKind_eq_dec : EqDecision VmAddressKind.t.
Proof. solve_decision. Defined.

Module VmAddress.
Record t := {
  kind : VmAddressKind.t;
  nic : string;
  mac : option string;
  address : option string;
}.
End VmAddress.

Module VolumeAttachmentStatus.
Record t := { name : string; attached : bool }.
End VolumeAttachmentStatus.

Module Refusal.
Record t := { node : string; message : string; until : instant }.
End Refusal.

Module EvacuationStep.
Inductive t := Stopping | Moving.
Definition ALL : list t := [Stopping; Moving].
Definition as_str (s : t) : string :=
  match s with Stopping => "Stopping" | Moving => "Moving" end.
Definition parse (s : string) : option t := List.find (fun st => String.eqb (as_str st) s) ALL.
End EvacuationStep.

Module Evacuating.
Record t := { from : string; step : string; since : instant }.
End Evacuating.

Module HandDownRefused.
Record t := {
  at_ : instant;
  generation : N;
  labels : smap string;
  message : string;
  cluster : string;
}.
End HandDownRefused.

Module HandedDown.
Record t := { at_ : instant; labels : smap string }.
End HandedDown.

Module VmSilence.
Record t := { holder : string; last_heard : option instant; since : instant }.
End VmSilence.

Module VmPlacement.
Record t := { reason : VmReason.t; message : string; at_ : instant }.
End VmPlacement.

Module VmStatus.
Record t := {
  phase : VmPhase;
  reported : option VmReported;
  silence : option VmSilence.t;
  placement : option VmPlacement.t;
  observed_generation : N;
  node_name : option string;
  cluster_name : option string;
  observed_at : option instant;
  addresses : list VmAddress.t;
  volumes : list VolumeAttachmentStatus.t;
  reschedules : N;
  refused_by : list Refusal.t;
  requeue_attempts : N;
  last_requeue : option instant;
  evacuating : option Evacuating.t;
  handed_down : option HandedDown.t;
  hand_down_refused : option HandDownRefused.t;
  bound_at : option instant;
}.

Definition default : t :=
  {| phase := phase_default; reported := None; silence := None; placement := None;
     observed_generation := 0; node_name := None; cluster_name := None; observed_at := None;
     addresses := []; volumes := []; reschedules := 0; refused_by := []; requeue_attempts := 0;
     last_requeue := None; evacuating := None; handed_down := None; hand_down_refused := None;
     bound_at := None |}.

Definition set_phase (s : t) (p : VmPhase) : t :=
  {| phase := p; reported := reported s; silence := silence s; placement := placement s;
     observed_generation := observed_generation s; node_name := node_name s;
     cluster_name := cluster_name s; observed_at := observed_at s; addresses := addresses s;
     volumes := volumes s; reschedules := reschedules s; refused_by := refused_by s;
     requeue_attempts := requeue_attempts s; last_requeue := last_requeue s;
     evacuating := evacuating s; handed_down := handed_down s;
     hand_down_refused := hand_down_refused s; bound_at := bound_at s |}.
End VmStatus.

(** * Deriving the phase *)

Section settle.
Variable to_rfc3339 : instant -> string.

Definition silence_message (s : VmSilence.t) : string :=
  match VmSilence.last_heard s with
  | Some last =>
      VmSilence.holder s +:+ " last reported " +:+ to_rfc3339 last +:+ ", more than "
      +:+ show_N (Z.to_N HEARTBEAT_TIMEOUT_SECS)
      +:+ "s ago; what the guest is doing is not known here"
  | None =>
      VmSilence.holder s +:+ " has never reported, more than "
      +:+ show_N (Z.to_N HEARTBEAT_TIMEOUT_SECS)
      +:+ "s ago; what the guest is doing is not known here"
  end.

(** Rule 3's guard: the spec has been rebound to somebody else than the peer
    whose word is on the status. *)
Definition stale_holder (spec : VmSpec.t) (said : option VmReported) : bool :=
  match said with
  | Some r =>
      negb (str_is_empty (said_node r))
      && (match VmSpec.node_name spec with
          | Some bound => negb (String.eqb bound (said_node r))
          | None => false
          end
          || match VmSpec.cluster_name spec with
             | Some bound => negb (String.eqb bound (said_node r))
             | None => false
             end)
  | None => false
  end.

Definition claimed (spec : VmSpec.t) (status : VmStatus.t) : bool :=
  is_some (VmSpec.node_name spec) || is_some (VmSpec.cluster_name spec)
  || is_some (VmStatus.node_name status) || is_some (VmStatus.cluster_name status).

(** The [waiting] and [scheduler] closures of [settle_vm]. *)
Definition waiting (rm : VmReason.t * option string) : VmPhase :=
  phase_new VmPhaseKind.Pending rm.1 rm.2 UNSTAMPED.

Definition scheduler_said (status : VmStatus.t) : option (VmReason.t * option string) :=
  match VmStatus.placement status with
  | Some p => Some (VmPlacement.reason p, Some (VmPlacement.message p))
  | None => None
  end.

(** Rule 2: nobody holds it. *)
Definition settle_unclaimed (status : VmStatus.t) : VmPhase :=
  waiting
    (unwrap_or (VmReason.AwaitingNode, Some "not placed yet")
       (option_or (scheduler_said status)
          (match VmStatus.reported status with
           | Some r => Some (said_reason r, said_message r)
           | None => None
           end))).

(** Rule 4: somebody holds it and has not said anything usable. *)
Definition settle_awaiting (spec : VmSpec.t) (status : VmStatus.t) : VmPhase :=
  let holder :=
    unwrap_or "nobody"
      (option_or (option_or (option_or (VmStatus.node_name status)
         (VmStatus.cluster_name status)) (VmSpec.node_name spec)) (VmSpec.cluster_name spec)) in
  waiting
    (unwrap_or (VmReason.AwaitingNode, Some (holder +:+ " has not reported yet"))
       (scheduler_said status)).

Definition settle_vm (spec : VmSpec.t) (status : VmStatus.t) : VmPhase :=
  match VmStatus.silence status with
  | Some silence =>
      phase_new VmPhaseKind.Unknown VmReason.Silent (Some (silence_message silence)) UNSTAMPED
  | None =>
      let said := VmStatus.reported status in
      if negb (claimed spec status) then settle_unclaimed status
      else if stale_holder spec said then settle_awaiting spec status
      else match said ≫= reported_phase with
           | Some phase => phase
           | None => settle_awaiting spec status
           end
  end.

Definition Vm : Type := Object VmSpec.t VmStatus.t.

(** [Resource::settle] for a VM. *)
Definition vm_settle (now : instant) (vm : Vm) : Vm :=
  with_status vm
    (VmStatus.set_phase (status vm)
       (stamp (VmStatus.phase (status vm)) (settle_vm (spec vm) (status vm)) now)).
End settle.

Definition new_vm (name uid : string) (now : instant) (spec : VmSpec.t) : Vm :=
  let vm := object_new API_VERSION "Vm" name uid now spec VmStatus.default in
  with_metadata vm (set_finalizers (metadata vm) (finalizers (metadata vm) ++ ["meister.io/teardown"])).

(** * Lemmas *)

Lemma settle_vm_wf fmt s st : phase_wf (settle_vm fmt s st).
Proof.
  unfold settle_vm, settle_unclaimed, settle_awaiting, waiting.
  repeat case_match; auto using phase_new_wf.
  match goal with H : _ ≫= _ = Some _ |- _ => apply bind_Some in H as (? & _ & ?) end.
  by eapply reported_phase_wf.
Qed.

(** The derivation reads nothing of the phase it replaces. *)
Lemma settle_vm_ignores_phase fmt s st p :
  settle_vm fmt s (VmStatus.set_phase st p) = settle_vm fmt s st.
Proof. by destruct st. Qed.

Lemma set_phase_twice st p q :
  VmStatus.set_phase (VmStatus.set_phase st p) q = VmStatus.set_phase st q.
Proof. done. Qed.

(** A word that is not stale comes from whoever the spec binds the VM to. *)
Lemma stale_holder_false s r :
  stale_holder s (Some r) = false -> said_node r <> "" ->
  (forall n, VmSpec.node_name s = Some n -> n = said_node r) /\
  (forall c, VmSpec.cluster_name s = Some c -> c = said_node r).
Proof.
  unfold stale_holder. intros H Hne. rewrite (str_is_empty_false _ Hne) in H. simpl in H.
  apply orb_false_iff in H as [Hn Hc].
  split; intros x Hx; rewrite Hx in *; by bool_hyps.
Qed.

(** ** The frozen part of a spec *)

(** The entries an update may not touch: the boot entry and every inline
    disk. *)
Definition frozen_entries (entries : list value) : list value :=
  match entries with
  | [] => []
  | boot :: rest => boot :: List.filter (fun e => negb (VmSpec.refers_to_a_volume e)) rest
  end.

Lemma filter_enumerate_from k (entries : list value) :
  (0 < k)%nat ->
  map snd (List.filter (fun '(i, entry) => Nat.eqb i 0 || negb (VmSpec.refers_to_a_volume entry))
             (combine (seq k (length entries)) entries))
  = List.filter (fun e => negb (VmSpec.refers_to_a_volume e)) entries.
Proof.
  revert k; induction entries as [|e entries IH]; intros k Hk; simpl; [done|].
  destruct k as [|k]; [lia|]. simpl.
  destruct (negb (VmSpec.refers_to_a_volume e)); simpl; rewrite IH by lia; done.
Qed.

Lemma frozen_vm_shape_object m entries :
  sget "volumes" m = Some (Array entries) ->
  frozen_vm_shape (Json.Object m) = Json.Object (sinsert "volumes" (Array (frozen_entries entries)) m).
Proof.
  intros Hm. unfold frozen_vm_shape. simpl. rewrite Hm. simpl. do 3 f_equal.
  destruct entries as [|e rest]; [done|]. unfold enumerate. simpl. f_equal.
  by apply filter_enumerate_from; lia.
Qed.

Lemma value_eqb_array l1 l2 : value_eqb (Array l1) (Array l2) = true <->
  Forall2 (fun a b => value_eqb a b = true) l1 l2.
Proof.
  revert l2; induction l1 as [|a l1 IH]; intros [|b l2]; simpl; try (by split; inversion 1).
  rewrite andb_true_iff. specialize (IH l2). simpl in IH. rewrite IH.
  split; [intros [? ?]; by constructor | by inversion 1].
Qed.

Lemma value_eqb_object_get m1 m2 f :
  value_eqb (Json.Object m1) (Json.Object m2) = true ->
  match sget f m1, sget f m2 with
  | Some a, Some b => value_eqb a b = true
  | None, None => True
  | _, _ => False
  end.
Proof.
  revert m2; induction m1 as [|[k v] m1 IH]; intros [|[l w] m2]; simpl; try done.
  intros [[->%String.eqb_eq Hv]%andb_true_iff Hm]%andb_true_iff.
  unfold sget. simpl. destruct (String.compare f l); [done| |]; by apply (IH m2).
Qed.

(** * Theorems *)

(** A stored VM reads Running, Stopped or Paused only on evidence: the
    holder is not silent, somebody holds the VM, the recorded word is that very
    state, a named peer said it, and the spec binds the VM to no other peer. *)
Theorem settle_vm_stable_needs_evidence fmt s st :
  VmPhaseKind.is_stable (ph_kind (settle_vm fmt s st)) = true ->
  VmStatus.silence st = None /\ claimed s st = true /\
  exists r, VmStatus.reported st = Some r /\ said_node r <> "" /\
    said_phase r = ph_kind (settle_vm fmt s st) /\
    (forall n, VmSpec.node_name s = Some n -> n = said_node r) /\
    (forall c, VmSpec.cluster_name s = Some c -> c = said_node r).
Proof.
  unfold settle_vm. destruct (VmStatus.silence st) as [sil|]; [done|].
  destruct (claimed s st) eqn:Hc; simpl; [|done].
  destruct (stale_holder _ _) eqn:Hst; [done|].
  destruct (VmStatus.reported st) as [r|]; simpl; [|done].
  destruct (reported_phase r) as [p|] eqn:Hr; [|done]. intros Hp.
  pose proof (reported_phase_kind _ _ Hr) as Hk. pose proof (reported_phase_wf _ _ Hr) as Hwf.
  assert (Hne : said_node r <> "").
  { apply (reported_resting r p Hr). unfold phase_wf in Hwf. simpl in Hwf.
    destruct (ph_reason p); [|done]. by destruct (ph_kind p). }
  split_and!; [done|done|]. exists r. split_and!; [done|done|done|..];
    by eapply stale_holder_false.
Qed.

(** A Running VM on [agent-1], for the evaluations below. *)
Definition example_spec : VmSpec.t :=
  {| VmSpec.node_name := Some "agent-1"; VmSpec.cluster_name := None;
     VmSpec.run_strategy := RunStrategy.Running; VmSpec.evacuation := Evacuation.Never;
     VmSpec.tenant := None; VmSpec.class_ := ""; VmSpec.cluster_selector := [];
     VmSpec.node_selector := []; VmSpec.anti_affinity := [];
     VmSpec.vm := Json.Object [("memory_mib", Number (PosInt 512)); ("vcpus", Number (PosInt 2))] |}.

Definition example_status : VmStatus.t :=
  {| VmStatus.phase := phase_default;
     VmStatus.reported := Some (said_by "agent-1" VmPhaseKind.Running VmReason.Unrecorded None 5%Z);
     VmStatus.silence := None; VmStatus.placement := None; VmStatus.observed_generation := 1;
     VmStatus.node_name := Some "agent-1"; VmStatus.cluster_name := None;
     VmStatus.observed_at := None; VmStatus.addresses := []; VmStatus.volumes := [];
     VmStatus.reschedules := 0; VmStatus.refused_by := []; VmStatus.requeue_attempts := 0;
     VmStatus.last_requeue := None; VmStatus.evacuating := None; VmStatus.handed_down := None;
     VmStatus.hand_down_refused := None; VmStatus.bound_at := None |}.

Lemma settle_vm_stable_needs_evidence_witness :
  ph_kind (settle_vm (fun _ => "") example_spec example_status) = VmPhaseKind.Running /\
  exists r, VmStatus.reported example_status = Some r /\ said_node r <> "".
Proof.
  split; [done|].
  destruct (settle_vm_stable_needs_evidence (fun _ => "") example_spec example_status eq_refl)
    as (_ & _ & r & Hr & Hn & _).
  exists r. done.
Defined.

(** Settling writes the derived phase and nothing else; settling again at
    any later time, with the facts unchanged, writes the same object, so a
    settled VM does not churn in the store; and the transition time moves
    exactly when the word does. *)
Theorem vm_settle_idempotent fmt now now' vm :
  now <> UNSTAMPED ->
  vm_settle fmt now' (vm_settle fmt now vm) = vm_settle fmt now vm /\
  let old := VmStatus.phase (status vm) in
  let new := VmStatus.phase (status (vm_settle fmt now vm)) in
  ph_kind new = ph_kind (settle_vm fmt (spec vm) (status vm)) /\
  ph_reason new = ph_reason (settle_vm fmt (spec vm) (status vm)) /\
  (ph_kind new = ph_kind old -> ph_since old <> UNSTAMPED -> ph_since new = ph_since old) /\
  (ph_kind new <> ph_kind old -> ph_since new = now).
Proof.
  intros Hnow. split.
  - unfold vm_settle, with_status. simpl.
    rewrite settle_vm_ignores_phase, set_phase_twice.
    by rewrite stamp_idempotent by auto using settle_vm_wf.
  - unfold vm_settle, with_status. cbn [status VmStatus.set_phase VmStatus.phase].
    rewrite stamp_eq by apply settle_vm_wf. simpl. split_and!; [done|done|..].
    + intros He Hs. by rewrite bool_decide_true, bool_decide_false by done.
    + intros Hne. by rewrite bool_decide_false by done.
Qed.

Lemma vm_settle_idempotent_witness :
  vm_settle (fun _ => "") 9%Z (vm_settle (fun _ => "") 7%Z (new_vm "a" "u" 1%Z example_spec))
  = vm_settle (fun _ => "") 7%Z (new_vm "a" "u" 1%Z example_spec).
Proof. apply (vm_settle_idempotent (fun _ => "") 7%Z 9%Z). done. Defined.

(** The update check on [spec.vm] admits exactly the hot-plug edits.  For
    two documents with a disk list it accepts only when the boot disk and the
    inline disks agree in order, and every other field agrees; and it accepts
    any two lists with the same boot disk and the same inline disks, whatever
    volume references come after the first entry. *)
Theorem vm_shape_hotplug m1 m2 l1 l2 :
  sget "volumes" m1 = Some (Array l1) -> sget "volumes" m2 = Some (Array l2) ->
  (vm_shape_unchanged (Json.Object m1) (Json.Object m2) = true ->
   Forall2 (fun a b => value_eqb a b = true) (frozen_entries l1) (frozen_entries l2) /\
   forall f, f <> "volumes" ->
     match sget f m1, sget f m2 with
     | Some a, Some b => value_eqb a b = true
     | None, None => True
     | _, _ => False
     end) /\
  (forall l, json_ok (Json.Object (sinsert "volumes" (Array (frozen_entries l1)) m1)) = true ->
     frozen_entries l = frozen_entries l1 ->
     vm_shape_unchanged (Json.Object m1) (Json.Object (sinsert "volumes" (Array l) m1)) = true).
Proof.
  intros H1 H2. split.
  - unfold vm_shape_unchanged. erewrite !frozen_vm_shape_object by eassumption. intros Heq.
    pose proof (fun f => value_eqb_object_get _ _ f Heq) as Hget. clear Heq. split.
    + specialize (Hget "volumes"). unfold sget, sinsert in Hget.
      rewrite !bt_get_insert_eq in Hget by apply _. by apply value_eqb_array.
    + intros f Hf. specialize (Hget f). unfold sget, sinsert in Hget.
      by rewrite !bt_get_insert_ne in Hget by (apply _ || done).
  - intros l Hok Hl. unfold vm_shape_unchanged.
    rewrite (frozen_vm_shape_object m1 l1) by done.
    rewrite (frozen_vm_shape_object _ l) by (apply bt_get_insert_eq, _).
    rewrite Hl. unfold sinsert. rewrite bt_insert_twice by apply _.
    by apply value_eqb_refl.
Qed.

(** Two disk lists for the evaluation of the update check. *)
Definition boot_disk : value := Json.Object [("size_bytes", Number (PosInt 1024))].
Definition volume_ref (n : string) : value := Json.Object [("volume", Str n)].
Definition disks (l : list value) : list (string * value) :=
  [("vcpus", Number (PosInt 2)); ("volumes", Array l)].

Lemma vm_shape_hotplug_witness :
  vm_shape_unchanged (Json.Object (disks [boot_disk]))
    (Json.Object (sinsert "volumes" (Array [boot_disk; volume_ref "data"]) (disks [boot_disk])))
  = true.
Proof.
  apply (vm_shape_hotplug (disks [boot_disk]) (disks [boot_disk]) [boot_disk] [boot_disk]);
    by vm_compute.
Defined.
