(* ===== verification/Node.v ===== *)
(** Nodes as the controllers see them:
    [src/shared/controller-api/src/resources/node.rs], the per-node summary of
    [resources/cluster.rs] and the class lists of [resources/network.rs].
    Health conditions and their placement veto, machine profiles and the
    compatibility check before a live migration, drain evidence. *)
From Stdlib Require Import Ascii String NArith ZArith List Bool Lia Permutation Sorted.
From stdpp Require Import base list strings.
From S2P Require Import Prelude RustStr Capability Phase Objects Vm.

(** * Definitions *)

Module NodeSpec.
Record t := {
  schedulable : bool;
  drain : bool;
  labels : smap string;
  accepts : list string;
}.

Definition default : t := {| schedulable := true; drain := false; labels := []; accepts := [] |}.
End NodeSpec.

Module NodeCapacity.
Record t := {
  vcpus : N;
  mem_mib : N;
  capabilities : list string;
  volume_localities : smap Locality.t;
}.
End NodeCapacity.

Module MachineProfile.
Record t := {
  cpu_vendor : string;
  cpu_model : string;
  cpu_flags : string;
  nested : bool;
  hypervisor : string;
  cpu_profile : string;
  hypervisor_version : string;
  kernel : string;
  host : string;
}.

Definition default : t :=
  {| cpu_vendor := ""; cpu_model := ""; cpu_flags := ""; nested := false; hypervisor := "";
     cpu_profile := ""; hypervisor_version := ""; kernel := ""; host := "" |}.

#[export] Instance t_eq_dec : EqDecision t.
Proof. solve_decision. Defined.

Definition said_anything (p : t) : bool := negb (bool_decide (p = default)).

Definition describe (p : t) : string :=
  let cpu := if str_is_empty (cpu_model p)
             then if str_is_empty (cpu_vendor p) then "an unnamed cpu" else cpu_vendor p
             else cpu_model p in
  let out := if nested p
             then cpu +:+ " on nested "
                  +:+ (if str_is_empty (hypervisor p) then "virtualisation" else hypervisor p)
             else cpu in
  if negb (str_is_empty (host p)) then out +:+ " (host " +:+ host p +:+ ")" else out.
End MachineProfile.

Definition same_physical_host (a b : MachineProfile.t) : bool :=
  negb (str_is_empty (MachineProfile.host a))
  && String.eqb (MachineProfile.host a) (MachineProfile.host b).

(** The [differs] closure: both said, and not the same. *)
Definition differs (a b : string) : bool :=
  negb (str_is_empty a) && negb (str_is_empty b) && negb (String.eqb a b).

Definition live_migration_refusal (source_node : string) (source : MachineProfile.t)
    (target_node : string) (target : MachineProfile.t) : option string :=
  let refuse what fix_ :=
    Some ("live migration refused: " +:+ what +:+ ". " +:+ source_node +:+ " is "
          +:+ MachineProfile.describe source +:+ ", " +:+ target_node +:+ " is "
          +:+ MachineProfile.describe target +:+ " — " +:+ fix_) in
  if negb (MachineProfile.said_anything source) || negb (MachineProfile.said_anything target)
  then None
  else if differs (MachineProfile.cpu_vendor source) (MachineProfile.cpu_vendor target) then
    refuse "the two machines are not the same make of cpu"
      "a saved vcpu state does not cross vendors; move it with `vm reschedule`, or set spec.evacuation = restart so a drain reboots it"
  else if differs (MachineProfile.cpu_model source) (MachineProfile.cpu_model target) then
    refuse "the two machines are different cpu models"
      "cloud-hypervisor gives a guest this machine's own cpuid (profile Host), so the saved state names registers the destination does not have; move it with `vm reschedule`, or set spec.evacuation = restart"
  else if differs (MachineProfile.cpu_profile source) (MachineProfile.cpu_profile target) then
    refuse "the two nodes give their guests different cpu profiles"
      "live migration needs the same profile at both ends; set the same one in [hypervisor.cloud-hypervisor] on both nodes, or move it with `vm reschedule`"
  else if MachineProfile.nested source && MachineProfile.nested target
          && negb (same_physical_host source target) then
    refuse "both machines are themselves guests, and this cannot be shown to be one physical host"
      "nested state does not cross a physical host — measured, twice, on this lab's own hardware (D-X1). Put the two nodes on one host and set `physical_host` on both so this can be seen, or move the guest with `vm reschedule`"
  else None.

Module NodeConditionType.
Inductive t := DiskPressure | StoreUnhealthy | CgroupUnusable | DriverUnavailable.

Definition ALL : list t := [DiskPressure; StoreUnhealthy; CgroupUnusable; DriverUnavailable].

Definition as_str (c : t) : string :=
  match c with
  | DiskPressure => "DiskPressure"
  | StoreUnhealthy => "StoreUnhealthy"
  | CgroupUnusable => "CgroupUnusable"
  | DriverUnavailable => "DriverUnavailable"
  end.

Definition vetoes_placement (c : t) : bool :=
  match c with DriverUnavailable => false | _ => true end.

Definition parse (s : string) : option t := List.find (fun c => String.eqb (as_str c) s) ALL.
End NodeConditionType.

Module NodeCondition.
Record t := { type_ : string; message : string }.

Definition vetoes_placement (c : t) : bool :=
  is_none_or NodeConditionType.vetoes_placement (NodeConditionType.parse (type_ c)).

Definition vetoing (conditions : list t) : list string :=
  map type_ (List.filter vetoes_placement conditions).
End NodeCondition.

Module StayReason.
Inductive t := EvacuationNever | NodeLocalDisk | NoTarget.

Definition ALL : list t := [EvacuationNever; NodeLocalDisk; NoTarget].

Definition as_str (r : t) : string :=
  match r with
  | EvacuationNever => "evacuation-never"
  | NodeLocalDisk => "node-local-disk"
  | NoTarget => "no-target"
  end.

Definition parse (s : string) : option t := List.find (fun r => String.eqb (as_str r) s) ALL.

Definition settles_a_drain (r : t) : bool :=
  match r with EvacuationNever | NodeLocalDisk => true | NoTarget => false end.
End StayReason.

#[export] Instance StayReason_eq_dec : EqDecision StayReason.t.
Proof. solve_decision. Defined.

Module StayingVm.
Record t := { vm : string; reason : string; message : string }.
End StayingVm.

Module Draining.
Record t := {
  leaving : N;
  leaving_vms : list string;
  moved_total : N;
  staying : N;
  reasons : list StayingVm.t;
  complete : bool;
}.
End Draining.

Module NodeStatus.
Record t := {
  ready : bool;
  last_heartbeat : option instant;
  agent_version : option string;
  capacity : NodeCapacity.t;
  vms : N;
  session_endpoint : option string;
  draining : option Draining.t;
  conditions : list NodeCondition.t;
  machine : option MachineProfile.t;
}.
End NodeStatus.

Definition Node : Type := Object NodeSpec.t NodeStatus.t.

(** A node as its cluster reports it to the cloud. *)
Module NodeSummary.
Record t := {
  name : string;
  ready : bool;
  schedulable : bool;
  drain : bool;
  labels : smap string;
  vcpus : N;
  mem_mib : N;
  bound_vcpus : N;
  bound_mem_mib : N;
  capabilities : list string;
  vms : N;
  conditions : list NodeCondition.t;
  draining : option Draining.t;
  accepts : list string;
}.

Definition usable (n : t) : bool :=
  ready n && schedulable n && negb (existsb NodeCondition.vetoes_placement (conditions n)).
End NodeSummary.

(** The classes the usable nodes of a cluster accept; empty is unrestricted. *)
Definition cluster_accepts (nodes : list NodeSummary.t) : list string :=
  let usable := List.filter NodeSummary.usable nodes in
  match usable with
  | [] => []
  | _ =>
      if existsb (fun n => match NodeSummary.accepts n with [] => true | _ => false end) usable
      then []
      else dedup String.eqb (sort_by String.compare (flat_map NodeSummary.accepts usable))
  end.

(** * Lemmas *)

#[export] Instance NodeConditionType_vocabulary :
  Vocabulary NodeConditionType.ALL NodeConditionType.as_str.
Proof. solve_vocabulary. Qed.

#[export] Instance StayReason_vocabulary : Vocabulary StayReason.ALL StayReason.as_str.
Proof. solve_vocabulary. Qed.

Lemma in_dedup {A} (eqb : A -> A -> bool) (Heq : forall a b, eqb a b = true <-> a = b) l x :
  In x (dedup eqb l) <-> In x l.
Proof.
  induction l as [|a l IH]; [done|]. simpl.
  destruct (dedup eqb l) as [|b r] eqn:E; simpl in *; [naive_solver|].
  destruct (eqb a b) eqn:Hab; simpl.
  - apply Heq in Hab as ->. naive_solver.
  - naive_solver.
Qed.

Lemma accepts_class_spec accepts class :
  accepts_class accepts class = true <-> accepts = [] \/ In class accepts.
Proof.
  unfold accepts_class. destruct accepts as [|a l]; [naive_solver|].
  rewrite existsb_exists. split.
  - intros (x & Hin & ->%String.eqb_eq). by right.
  - intros [?|Hin]; [done|]. exists class. by rewrite String.eqb_refl.
Qed.

(** Only the known capability-withdrawing condition leaves a node placeable;
    every other word, known or not, vetoes. *)
Lemma vetoes_placement_spec c :
  NodeCondition.vetoes_placement c = false <-> NodeCondition.type_ c = "DriverUnavailable".
Proof.
  unfold NodeCondition.vetoes_placement.
  destruct (NodeConditionType.parse _) as [k|] eqn:E; simpl.
  - apply (vocab_parse NodeConditionType.ALL NodeConditionType.as_str) in E.
    rewrite <- E. by destruct k.
  - split; [done|]. intros H. by rewrite H in E.
Qed.

(** * Theorems *)

(** A live migration is refused only on evidence both machines gave, and
    the compatibility check never depends on the direction of the move: the
    refusal exists for one direction exactly when it exists for the other, and
    it exists exactly when both machines said something and their vendors,
    models or profiles are known and different, or both are nested without
    naming one common physical host. *)
Theorem live_migration_refusal_iff sn s tn t :
  let refused := live_migration_refusal sn s tn t <> None in
  (refused <-> live_migration_refusal tn t sn s <> None) /\
  (refused <->
   MachineProfile.said_anything s = true /\ MachineProfile.said_anything t = true /\
   (differs (MachineProfile.cpu_vendor s) (MachineProfile.cpu_vendor t) = true \/
    differs (MachineProfile.cpu_model s) (MachineProfile.cpu_model t) = true \/
    differs (MachineProfile.cpu_profile s) (MachineProfile.cpu_profile t) = true \/
    (MachineProfile.nested s = true /\ MachineProfile.nested t = true /\
     same_physical_host s t = false))).
Proof.
  assert (Hiff : forall sn s tn t, live_migration_refusal sn s tn t <> None <->
    MachineProfile.said_anything s = true /\ MachineProfile.said_anything t = true /\
    (differs (MachineProfile.cpu_vendor s) (MachineProfile.cpu_vendor t) = true \/
     differs (MachineProfile.cpu_model s) (MachineProfile.cpu_model t) = true \/
     differs (MachineProfile.cpu_profile s) (MachineProfile.cpu_profile t) = true \/
     (MachineProfile.nested s = true /\ MachineProfile.nested t = true /\
      same_physical_host s t = false))).
  { clear. intros sn s tn t. unfold live_migration_refusal.
    destruct (MachineProfile.said_anything s), (MachineProfile.said_anything t); simpl;
      try naive_solver.
    destruct (differs (MachineProfile.cpu_vendor s) _); [naive_solver|].
    destruct (differs (MachineProfile.cpu_model s) _); [naive_solver|].
    destruct (differs (MachineProfile.cpu_profile s) _); [naive_solver|].
    destruct (MachineProfile.nested s), (MachineProfile.nested t), (same_physical_host s t);
      simpl; naive_solver. }
  assert (Hd : forall a b, differs a b = differs b a).
  { intros a b. unfold differs. rewrite (String.eqb_sym a b).
    by destruct (str_is_empty a), (str_is_empty b). }
  assert (Hh : same_physical_host s t = same_physical_host t s).
  { unfold same_physical_host. destruct (String.eqb_spec (MachineProfile.host s) (MachineProfile.host t)) as [->|H].
    - by rewrite String.eqb_refl.
    - apply String.eqb_neq in H. rewrite String.eqb_sym in H. by rewrite H, !andb_false_r. }
  split; [|apply Hiff]. rewrite !Hiff, Hh, (Hd (MachineProfile.cpu_vendor s)),
    (Hd (MachineProfile.cpu_model s)), (Hd (MachineProfile.cpu_profile s)). tauto.
Qed.

(** The class list a cluster advertises is exact for its usable nodes: with
    at least one usable node, the cluster accepts a class exactly when some
    usable node does. *)
Theorem cluster_accepts_exact nodes class :
  existsb NodeSummary.usable nodes = true ->
  accepts_class (cluster_accepts nodes) class = true <->
  exists n, In n nodes /\ NodeSummary.usable n = true /\
            accepts_class (NodeSummary.accepts n) class = true.
Proof.
  intros Hu. assert (Hin : forall n, In n nodes /\ NodeSummary.usable n = true <->
                                     In n (List.filter NodeSummary.usable nodes))
    by (intros; by rewrite filter_In).
  unfold cluster_accepts.
  destruct (List.filter NodeSummary.usable nodes) as [|n0 us] eqn:E.
  { apply existsb_exists in Hu as (n & Hn & Hun). by destruct (proj1 (Hin n) (conj Hn Hun)). }
  clear E. lazy iota. set (l := n0 :: us) in *. clearbody l. destruct (existsb _ l) eqn:Hopen.
  - split; [|done]. intros _. apply existsb_exists in Hopen as (n & Hn & He).
    apply Hin in Hn as [Hn Hun]. exists n. split_and!; [done|done|].
    by destruct (NodeSummary.accepts n).
  - rewrite accepts_class_spec, in_dedup by apply String.eqb_eq.
    rewrite (in_sort_by String.compare), in_flat_map. split.
    + intros [Hnil|(n & Hn & Hc)].
      * exfalso. apply existsb_exists in Hu as (n & Hn & Hun).
        assert (Hnf := proj1 (Hin n) (conj Hn Hun)).
        pose proof (proj1 (existsb_false _ _) Hopen n Hnf) as Hne. simpl in Hne.
        destruct (NodeSummary.accepts n) as [|c cs] eqn:Ea; [done|].
        assert (In c []) as []. rewrite <- Hnil. apply in_dedup; [apply String.eqb_eq|].
        apply (in_sort_by String.compare), in_flat_map. exists n. rewrite Ea. split; [done|by left].
      * apply Hin in Hn as [Hn Hun]. exists n. rewrite accepts_class_spec. auto.
    + intros (n & Hn & Hun & Hc). assert (Hnf := proj1 (Hin n) (conj Hn Hun)).
      pose proof (proj1 (existsb_false _ _) Hopen n Hnf) as Hne. simpl in Hne.
      apply accepts_class_spec in Hc as [Hc|Hc]; [by rewrite Hc in Hne|]. right. eauto.
Qed.

(** A node with nothing on it, for evaluations. *)
Definition example_summary (name : string) (accepts : list string) : NodeSummary.t :=
  {| NodeSummary.name := name; NodeSummary.ready := true; NodeSummary.schedulable := true;
     NodeSummary.drain := false; NodeSummary.labels := []; NodeSummary.vcpus := 8;
     NodeSummary.mem_mib := 16384; NodeSummary.bound_vcpus := 0; NodeSummary.bound_mem_mib := 0;
     NodeSummary.capabilities := []; NodeSummary.vms := 0; NodeSummary.conditions := [];
     NodeSummary.draining := None; NodeSummary.accepts := accepts |}.

Lemma cluster_accepts_exact_witness :
  accepts_class (cluster_accepts [example_summary "a" ["router"]; example_summary "b" ["gpu"]]) "gpu"
  = true.
Proof.
  apply (cluster_accepts_exact [example_summary "a" ["router"]; example_summary "b" ["gpu"]]);
    [done|].
  exists (example_summary "b" ["gpu"]). split_and!; [right; by left | done | done].
Defined.
