(* ===== verification/Storage.v ===== *)
(** Storage objects: [src/shared/controller-api/src/resources/pool.rs],
    [volume.rs] and [migration.rs].  Pools and their reach, volumes with their
    attachment claim and the nodes that hold them open, snapshots, live
    migrations; each with its reasons, its phases and its derivation. *)
From Stdlib Require Import Ascii String NArith ZArith List Bool Lia Sorted.
From stdpp Require Import base list strings gmap.
From S2P Require Import Prelude RustStr Json Capability Phase Objects Vm Node.

(** * Storage pools *)

Module StoragePoolReason.
Inductive t := Unrecorded | AwaitingNode | Disagreement | ClusterSilent | ClusterHasNoPool.
Definition ALL : list t := [Unrecorded; AwaitingNode; Disagreement; ClusterSilent; ClusterHasNoPool].
Definition as_str (r : t) : string :=
  match r with
  | Unrecorded => "Unrecorded"
  | AwaitingNode => "AwaitingNode"
  | Disagreement => "Disagreement"
  | ClusterSilent => "ClusterSilent"
  | ClusterHasNoPool => "ClusterHasNoPool"
  end.
End StoragePoolReason.

Module StoragePoolPhaseKind.
Inductive t := Pending | Ready | Failed.
Definition ALL : list t := [Pending; Ready; Failed].
Definition as_str (k : t) : string :=
  match k with Pending => "Pending" | Ready => "Ready" | Failed => "Failed" end.
Definition carries_reason (k : t) : bool := match k with Ready => false | _ => true end.
Definition is_terminal (k : t) : bool := match k with Ready => true | _ => false end.
End StoragePoolPhaseKind.

#[export] Instance StoragePoolReason_eq_dec : EqDecision StoragePoolReason.t.
Proof. solve_decision. Defined.
#[export] Instance StoragePoolPhaseKind_eq_dec : EqDecision StoragePoolPhaseKind.t.
Proof. solve_decision. Defined.

#[export] Program Instance StoragePoolReason_set : ReasonSet StoragePoolReason.t := {
  Unrecorded := StoragePoolReason.Unrecorded;
  reason_all := StoragePoolReason.ALL;
  reason_str := StoragePoolReason.as_str;
}.
Next Obligation. solve_vocabulary. Qed.
Next Obligation. by intros []. Qed.

#[export] Program Instance StoragePoolPhase_set : PhaseSet StoragePoolPhaseKind.t := {
  kind_default := StoragePoolPhaseKind.Pending;
  kind_all := StoragePoolPhaseKind.ALL;
  kind_str := StoragePoolPhaseKind.as_str;
  carries := StoragePoolPhaseKind.carries_reason;
  kind_terminal := StoragePoolPhaseKind.is_terminal;
}.
Next Obligation. solve_vocabulary. Qed.
Next Obligation. done. Qed.

Definition StoragePoolPhase : Type := phase StoragePoolPhaseKind.t StoragePoolReason.t.

Definition DEFAULT_QUOTA_STORAGE_GIB : N := 100.

Module PoolAtCluster.
Record t := {
  cluster : string;
  phase : StoragePoolPhaseKind.t;
  reason : StoragePoolReason.t;
  locality : option Locality.t;
  nodes : list string;
  params : option value;
  message : option string;
}.
End PoolAtCluster.

Module PoolDisagreement.
Record t := { node : string; says : Locality.t; other : string; other_says : Locality.t }.
End PoolDisagreement.

Module PoolPointer.
Record t := { cluster : string; reported_at : instant }.
End PoolPointer.

Module StoragePoolStatus.
Record t := {
  phase : StoragePoolPhase;
  locality : option Locality.t;
  nodes : list string;
  claims : smap string;
  clusters : list PoolAtCluster.t;
  disagreement : option PoolDisagreement.t;
  pointer_target : option PoolPointer.t;
}.
End StoragePoolStatus.

(** [Option<Value>] equality. *)
Definition opt_value_eqb (a b : option value) : bool :=
  match a, b with
  | Some x, Some y => value_eqb x y
  | None, None => true
  | _, _ => false
  end.

Module StoragePoolSpec.
Record t := {
  driver : string;
  nodes : list string;
  params : option value;
  default : bool;
  quota : smap N;
  cluster : string;
  clusters : list string;
  description : string;
}.

Definition QUOTA_EVERYONE : string := "*".

Definition quota_for (s : t) (tenant : string) : N :=
  unwrap_or DEFAULT_QUOTA_STORAGE_GIB
    (option_or (sget tenant (quota s)) (sget QUOTA_EVERYONE (quota s))).

(** [entry(..).or_insert(..)] on the quota map. *)
Definition default_quota (q : smap N) : smap N :=
  match sget QUOTA_EVERYONE q with
  | Some _ => q
  | None => sinsert QUOTA_EVERYONE DEFAULT_QUOTA_STORAGE_GIB q
  end.

Definition state_default_quota (s : t) : t :=
  {| driver := driver s; nodes := nodes s; params := params s; default := default s;
     quota := default_quota (quota s); cluster := cluster s; clusters := clusters s;
     description := description s |}.

Definition reaches (s : t) (node : string) : bool :=
  match nodes s with [] => true | l => existsb (fun n => String.eqb n node) l end.

(** One iteration of the loop of [served_by]. *)
Definition serve (out : list string) (c : string) : list string :=
  if negb (str_is_empty c) && negb (str_in c out) then out ++ [c] else out.

Definition served_by (s : t) : list string :=
  foldl serve (if negb (str_is_empty (cluster s)) then [cluster s] else []) (clusters s).

Definition home (s : t) : option string := head (served_by s).

Definition serves (s : t) (cluster : string) : bool := str_in cluster (served_by s).

(** The loop of [disagreeing]: [seen] is the first entry. *)
Fixpoint disagreeing_from (seen : PoolAtCluster.t) (l : list PoolAtCluster.t)
    : option (string * string) :=
  match l with
  | [] => None
  | entry :: l' =>
      if negb (opt_value_eqb (PoolAtCluster.params seen) (PoolAtCluster.params entry))
      then Some (PoolAtCluster.cluster seen, PoolAtCluster.cluster entry)
      else disagreeing_from seen l'
  end.

Definition disagreeing (status : StoragePoolStatus.t) : option (string * string) :=
  match StoragePoolStatus.clusters status with
  | [] => None
  | first :: rest => disagreeing_from first rest
  end.
End StoragePoolSpec.

Definition StoragePool : Type := Object StoragePoolSpec.t StoragePoolStatus.t.

Definition settle_storage_pool (name : string) (spec : StoragePoolSpec.t)
    (status : StoragePoolStatus.t) : StoragePoolPhase :=
  match StoragePoolSpec.home spec with
  | Some home =>
      match List.find (fun e => String.eqb (PoolAtCluster.cluster e) home)
              (StoragePoolStatus.clusters status) with
      | Some entry =>
          phase_new (PoolAtCluster.phase entry) (PoolAtCluster.reason entry)
            (PoolAtCluster.message entry) UNSTAMPED
      | None =>
          let spoken := is_some_and (fun p => String.eqb (PoolPointer.cluster p) home)
                          (StoragePoolStatus.pointer_target status) in
          phase_new StoragePoolPhaseKind.Pending
            (if spoken then StoragePoolReason.ClusterHasNoPool else StoragePoolReason.ClusterSilent)
            (Some (if spoken then home +:+ " reports no pool named " +:+ name
                   else home +:+ " has not reported"))
            UNSTAMPED
      end
  | None =>
      match StoragePoolStatus.disagreement status with
      | Some split =>
          phase_new StoragePoolPhaseKind.Failed StoragePoolReason.Disagreement
            (Some ("nodes disagree about storage driver " +:+ StoragePoolSpec.driver spec +:+ ": "
                   +:+ PoolDisagreement.other split +:+ " says "
                   +:+ Locality.as_str (PoolDisagreement.other_says split) +:+ ", "
                   +:+ PoolDisagreement.node split +:+ " says "
                   +:+ Locality.as_str (PoolDisagreement.says split)
                   +:+ "; that is a version mix, not a setting"))
            UNSTAMPED
      | None =>
          match StoragePoolStatus.locality status with
          | Some _ => phase_said StoragePoolPhaseKind.Ready None UNSTAMPED
          | None =>
              phase_new StoragePoolPhaseKind.Pending StoragePoolReason.AwaitingNode
                (Some ("no node serving " +:+ name +:+ " has said anything about driver "
                       +:+ StoragePoolSpec.driver spec +:+ " yet"))
                UNSTAMPED
          end
      end
  end.

(** * Live migrations *)

Module VmMigrationReason.
Inductive t := Unrecorded | AwaitingTarget | Dispatched | Abandoned | Reported.
Definition ALL : list t := [Unrecorded; AwaitingTarget; Dispatched; Abandoned; Reported].
Definition as_str (r : t) : string :=
  match r with
  | Unrecorded => "Unrecorded"
  | AwaitingTarget => "AwaitingTarget"
  | Dispatched => "Dispatched"
  | Abandoned => "Abandoned"
  | Reported => "Reported"
  end.
End VmMigrationReason.

Module VmMigrationPhaseKind.
Inductive t := Pending | Preparing | Running | Succeeded | Failed.
Definition ALL : list t := [Pending; Preparing; Running; Succeeded; Failed].
Definition as_str (k : t) : string :=
  match k with
  | Pending => "Pending"
  | Preparing => "Preparing"
  | Running => "Running"
  | Succeeded => "Succeeded"
  | Failed => "Failed"
  end.
Definition carries_reason (k : t) : bool := match k with Succeeded => false | _ => true end.
Definition is_final (k : t) : bool := match k with Succeeded | Failed => true | _ => false end.
Definition is_terminal (k : t) : bool := is_final k.
End VmMigrationPhaseKind.

#[export] Instance VmMigrationReason_eq_dec : EqDecision VmMigrationReason.t.
Proof. solve_decision. Defined.
#[export] Instance VmMigrationPhaseKind_eq_dec : EqDecision VmMigrationPhaseKind.t.
Proof. solve_decision. Defined.

#[export] Program Instance VmMigrationReason_set : ReasonSet VmMigrationReason.t := {
  Unrecorded := VmMigrationReason.Unrecorded;
  reason_all := VmMigrationReason.ALL;
  reason_str := VmMigrationReason.as_str;
}.
Next Obligation. solve_vocabulary. Qed.
Next Obligation. by intros []. Qed.

#[export] Program Instance VmMigrationPhase_set : PhaseSet VmMigrationPhaseKind.t := {
  kind_default := VmMigrationPhaseKind.Pending;
  kind_all := VmMigrationPhaseKind.ALL;
  kind_str := VmMigrationPhaseKind.as_str;
  carries := VmMigrationPhaseKind.carries_reason;
  kind_terminal := VmMigrationPhaseKind.is_terminal;
}.
Next Obligation. solve_vocabulary. Qed.
Next Obligation. done. Qed.

Definition VmMigrationPhase : Type := phase VmMigrationPhaseKind.t VmMigrationReason.t.
Definition VmMigrationReported : Type := reported VmMigrationPhaseKind.t VmMigrationReason.t.

Module VmMigrationSpec.
Record t := { tenant : string; vm : string; target_node : option string }.
End VmMigrationSpec.

Module VmMigrationStatus.
Record t := {
  migration_id : option string;
  vm_uid : option string;
  recovery_required : bool;
  cancelling : bool;
  phase : VmMigrationPhase;
  reported : option VmMigrationReported;
  observed_generation : N;
  source_node : option string;
  target_node : option string;
  peer : option string;
  started_at : option instant;
  finished_at : option instant;
  target_reported : option string;
  source_reported : option string;
  source_message : option string;
}.
End VmMigrationStatus.

Definition SEND_SENDING : string := "Sending".
Definition SEND_GONE : string := "Gone".
Definition SEND_STILL_HERE : string := "StillHere".

Definition VmMigration : Type := Object VmMigrationSpec.t VmMigrationStatus.t.

Definition settle_vm_migration (status : VmMigrationStatus.t) : VmMigrationPhase :=
  match VmMigrationStatus.reported status ≫= reported_phase with
  | Some phase => phase
  | None =>
      phase_new VmMigrationPhaseKind.Pending VmMigrationReason.AwaitingTarget
        (Some "no target chosen yet") UNSTAMPED
  end.

(** * Volumes *)

Module VolumeMode.
Inductive t := Block | Filesystem.
Definition ALL : list t := [Block; Filesystem].
Definition as_str (m : t) : string :=
  match m with Block => "Block" | Filesystem => "Filesystem" end.
End VolumeMode.

Module AccessMode.
Inductive t := ReadWriteOnce.
End AccessMode.

Module VolumeReason.
Inductive t :=
| Unrecorded | AwaitingNode | Unplaced | Following | Dispatched | Undeliverable | SourceMissing
| HeldBy | Working | DriverRefused | NotOnBackend | Deprovisioned.
Definition ALL : list t :=
  [Unrecorded; AwaitingNode; Unplaced; Following; Dispatched; Undeliverable; SourceMissing;
   HeldBy; Working; DriverRefused; NotOnBackend; Deprovisioned].
Definition as_str (r : t) : string :=
  match r with
  | Unrecorded => "Unrecorded"
  | AwaitingNode => "AwaitingNode"
  | Unplaced => "Unplaced"
  | Following => "Following"
  | Dispatched => "Dispatched"
  | Undeliverable => "Undeliverable"
  | SourceMissing => "SourceMissing"
  | HeldBy => "HeldBy"
  | Working => "Working"
  | DriverRefused => "DriverRefused"
  | NotOnBackend => "NotOnBackend"
  | Deprovisioned => "Deprovisioned"
  end.
End VolumeReason.

Module VolumePhaseKind.
Inductive t := Pending | Provisioning | Ready | Releasing | Failed.
Definition ALL : list t := [Pending; Provisioning; Ready; Releasing; Failed].
Definition as_str (k : t) : string :=
  match k with
  | Pending => "Pending"
  | Provisioning => "Provisioning"
  | Ready => "Ready"
  | Releasing => "Releasing"
  | Failed => "Failed"
  end.
Definition carries_reason (k : t) : bool := match k with Ready => false | _ => true end.
Definition is_terminal (k : t) : bool := match k with Ready => true | _ => false end.
End VolumePhaseKind.

#[export] Instance VolumeReason_eq_dec : EqDecision VolumeReason.t.
Proof. solve_decision. Defined.
#[export] Instance VolumePhaseKind_eq_dec : EqDecision VolumePhaseKind.t.
Proof. solve_decision. Defined.

#[export] Program Instance VolumeReason_set : ReasonSet VolumeReason.t := {
  Unrecorded := VolumeReason.Unrecorded;
  reason_all := VolumeReason.ALL;
  reason_str := VolumeReason.as_str;
}.
Next Obligation. solve_vocabulary. Qed.
Next Obligation. by intros []. Qed.

#[export] Program Instance VolumePhase_set : PhaseSet VolumePhaseKind.t := {
  kind_default := VolumePhaseKind.Pending;
  kind_all := VolumePhaseKind.ALL;
  kind_str := VolumePhaseKind.as_str;
  carries := VolumePhaseKind.carries_reason;
  kind_terminal := VolumePhaseKind.is_terminal;
}.
Next Obligation. solve_vocabulary. Qed.
Next Obligation. done. Qed.

Definition VolumePhase : Type := phase VolumePhaseKind.t VolumeReason.t.
Definition VolumeReported : Type := reported VolumePhaseKind.t VolumeReason.t.

Module VolumeSpec.
Record t := {
  tenant : string;
  pool : string;
  size_gib : N;
  mode : VolumeMode.t;
  access_mode : AccessMode.t;
  base_image : option string;
  from_snapshot : option string;
  description : string;
}.
End VolumeSpec.

(** [binary_search_by(|n| n.cmp(node))] on a sorted list: the index of a match,
    or where to insert. *)
Fixpoint binary_search (l : list string) (node : string) (at_ : nat) : result nat nat :=
  match l with
  | [] => Err at_
  | n :: l' =>
      match String.compare n node with
      | Lt => binary_search l' node (S at_)
      | Eq => Ok at_
      | Gt => Err at_
      end
  end.

(** [Vec::insert] and [Vec::remove]. *)
Definition vec_insert (l : list string) (at_ : nat) (x : string) : list string :=
  take at_ l ++ x :: drop at_ l.
Definition vec_remove (l : list string) (at_ : nat) : list string :=
  take at_ l ++ drop (S at_) l.

Module VolumeStatus.
Record t := {
  phase : VolumePhase;
  reported : option VolumeReported;
  holder : option string;
  claimant_gone : bool;
  backend : string;
  node : option string;
  open_on : list string;
  cluster : option string;
  attached_to : option string;
  attached_uid : option string;
  size_gib : N;
  untold_gib : N;
  observed_generation : N;
  observed_at : option instant;
  requeue_attempts : N;
  last_requeue : option instant;
}.

Definition set_open_on (s : t) (o : list string) : t :=
  {| phase := phase s; reported := reported s; holder := holder s;
     claimant_gone := claimant_gone s; backend := backend s; node := node s; open_on := o;
     cluster := cluster s; attached_to := attached_to s; attached_uid := attached_uid s;
     size_gib := size_gib s; untold_gib := untold_gib s;
     observed_generation := observed_generation s; observed_at := observed_at s;
     requeue_attempts := requeue_attempts s; last_requeue := last_requeue s |}.

Definition set_phase (s : t) (p : VolumePhase) : t :=
  {| phase := p; reported := reported s; holder := holder s;
     claimant_gone := claimant_gone s; backend := backend s; node := node s;
     open_on := open_on s;
     cluster := cluster s; attached_to := attached_to s; attached_uid := attached_uid s;
     size_gib := size_gib s; untold_gib := untold_gib s;
     observed_generation := observed_generation s; observed_at := observed_at s;
     requeue_attempts := requeue_attempts s; last_requeue := last_requeue s |}.

(** The three assignments [settle] makes when a claim falls. *)
Definition drop_claim (s : t) : t :=
  {| phase := phase s; reported := reported s; holder := holder s;
     claimant_gone := false; backend := backend s; node := node s; open_on := open_on s;
     cluster := cluster s; attached_to := None; attached_uid := None;
     size_gib := size_gib s; untold_gib := untold_gib s;
     observed_generation := observed_generation s; observed_at := observed_at s;
     requeue_attempts := requeue_attempts s; last_requeue := last_requeue s |}.

Definition claimed_by (s : t) (uid : string) : bool :=
  is_some (attached_to s) && bool_decide (attached_uid s = Some uid).

Definition held_by (s : t) (name uid : string) : bool :=
  match attached_uid s with
  | Some held => String.eqb held uid
  | None => bool_decide (attached_to s = Some name)
  end.

Definition open_here (s : t) (node : string) : t * bool :=
  match binary_search (open_on s) node 0 with
  | Ok _ => (s, false)
  | Err at_ => (set_open_on s (vec_insert (open_on s) at_ node), true)
  end.

Definition closed_here (s : t) (node : string) : t * bool :=
  match binary_search (open_on s) node 0 with
  | Ok at_ => (set_open_on s (vec_remove (open_on s) at_), true)
  | Err _ => (s, false)
  end.

Definition open_elsewhere (s : t) (node : string) : option string :=
  List.find (fun open => negb (String.eqb open node)) (open_on s).
End VolumeStatus.

Definition volume_claim_holds (status : VolumeStatus.t) : bool :=
  match VolumeStatus.attached_to status with
  | None => true
  | Some _ =>
      negb (VolumeStatus.claimant_gone status)
      || match VolumeStatus.open_on status with [] => false | _ => true end
  end.

Definition settle_volume (deleting : bool) (status : VolumeStatus.t) : VolumePhase :=
  let said := VolumeStatus.reported status in
  if deleting then
    match VolumeStatus.holder status with
    | Some holder =>
        phase_new VolumePhaseKind.Releasing VolumeReason.HeldBy (Some holder) UNSTAMPED
    | None =>
        let gone :=
          is_some_and (fun r => bool_decide (said_reason r = VolumeReason.Deprovisioned)) said in
        phase_new VolumePhaseKind.Releasing
          (if gone then VolumeReason.Deprovisioned else VolumeReason.Dispatched)
          (option_or (said ≫= said_message)
             (Some "waiting for the node to say the bytes are gone"))
          UNSTAMPED
    end
  else match said ≫= reported_phase with
       | Some phase => phase
       | None =>
           phase_new VolumePhaseKind.Pending VolumeReason.AwaitingNode
             (Some (match VolumeStatus.node status with
                    | Some node => node +:+ " was chosen; the provision has not gone out yet"
                    | None => "not placed yet"
                    end))
             UNSTAMPED
       end.

Definition second_open_is_a_migration (phase : option VmMigrationPhaseKind.t) : bool :=
  match phase with
  | Some VmMigrationPhaseKind.Preparing | Some VmMigrationPhaseKind.Running => true
  | _ => false
  end.

Definition VOLUME_RELEASE_FINALIZER : string := "meister.io/release".

Definition Volume : Type := Object VolumeSpec.t VolumeStatus.t.

(** [Resource::settle] for a volume. *)
Definition volume_settle (now : instant) (v : Volume) : Volume :=
  let st := if negb (volume_claim_holds (status v)) then VolumeStatus.drop_claim (status v)
            else status v in
  let phase := settle_volume (is_some (deletion_timestamp (metadata v))) st in
  with_status v (VolumeStatus.set_phase st (stamp (VolumeStatus.phase st) phase now)).

(** * Snapshots *)

Module VolumeSnapshotReason.
Inductive t :=
| Unrecorded | AwaitingNode | Dispatched | Requeued | SourceGone | Undeliverable | Working
| DriverRefused | Dropped.
Definition ALL : list t :=
  [Unrecorded; AwaitingNode; Dispatched; Requeued; SourceGone; Undeliverable; Working;
   DriverRefused; Dropped].
Definition as_str (r : t) : string :=
  match r with
  | Unrecorded => "Unrecorded"
  | AwaitingNode => "AwaitingNode"
  | Dispatched => "Dispatched"
  | Requeued => "Requeued"
  | SourceGone => "SourceGone"
  | Undeliverable => "Undeliverable"
  | Working => "Working"
  | DriverRefused => "DriverRefused"
  | Dropped => "Dropped"
  end.
End VolumeSnapshotReason.

Module VolumeSnapshotPhaseKind.
Inductive t := Pending | Creating | Ready | Failed.
Definition ALL : list t := [Pending; Creating; Ready; Failed].
Definition as_str (k : t) : string :=
  match k with
  | Pending => "Pending"
  | Creating => "Creating"
  | Ready => "Ready"
  | Failed => "Failed"
  end.
Definition carries_reason (k : t) : bool := match k with Ready => false | _ => true end.
Definition is_terminal (k : t) : bool := match k with Ready => true | _ => false end.
End VolumeSnapshotPhaseKind.

#[export] Instance VolumeSnapshotReason_eq_dec : EqDecision VolumeSnapshotReason.t.
Proof. solve_decision. Defined.
#[export] Instance VolumeSnapshotPhaseKind_eq_dec : EqDecision VolumeSnapshotPhaseKind.t.
Proof. solve_decision. Defined.

#[export] Program Instance VolumeSnapshotReason_set : ReasonSet VolumeSnapshotReason.t := {
  Unrecorded := VolumeSnapshotReason.Unrecorded;
  reason_all := VolumeSnapshotReason.ALL;
  reason_str := VolumeSnapshotReason.as_str;
}.
Next Obligation. solve_vocabulary. Qed.
Next Obligation. by intros []. Qed.

#[export] Program Instance VolumeSnapshotPhase_set : PhaseSet VolumeSnapshotPhaseKind.t := {
  kind_default := VolumeSnapshotPhaseKind.Pending;
  kind_all := VolumeSnapshotPhaseKind.ALL;
  kind_str := VolumeSnapshotPhaseKind.as_str;
  carries := VolumeSnapshotPhaseKind.carries_reason;
  kind_terminal := VolumeSnapshotPhaseKind.is_terminal;
}.
Next Obligation. solve_vocabulary. Qed.
Next Obligation. done. Qed.

Module VolumeSnapshotStatus.
Record t := {
  phase : phase VolumeSnapshotPhaseKind.t VolumeSnapshotReason.t;
  reported : option (reported VolumeSnapshotPhaseKind.t VolumeSnapshotReason.t);
  node : option string;
  backend : string;
  size_gib : N;
  observed_at : option instant;
  requeue_attempts : N;
  last_requeue : option instant;
}.
End VolumeSnapshotStatus.

Definition settle_volume_snapshot (status : VolumeSnapshotStatus.t)
    : phase VolumeSnapshotPhaseKind.t VolumeSnapshotReason.t :=
  match VolumeSnapshotStatus.reported status ≫= reported_phase with
  | Some phase => phase
  | None =>
      phase_new VolumeSnapshotPhaseKind.Pending VolumeSnapshotReason.AwaitingNode
        (Some "no node has been told to take it yet") UNSTAMPED
  end.

(** * Lemmas *)

(** The nodes holding a volume open, in strict order: a set. *)
Definition sorted_set (l : list string) : Prop :=
  StronglySorted (fun a b => String.compare a b = Lt) l.

Lemma binary_search_spec l node k :
  sorted_set l ->
  match binary_search l node k with
  | Ok i => exists l1 l2, l = l1 ++ node :: l2 /\ i = (k + length l1)%nat
  | Err i =>
      exists l1 l2, l = l1 ++ l2 /\ i = (k + length l1)%nat /\
        Forall (fun x => String.compare x node = Lt) l1 /\
        Forall (fun x => String.compare node x = Lt) l2
  end.
Proof.
  intros Hs. revert k. induction Hs as [|n l Hs IH Hn]; intros k; simpl.
  { exists [], []. split_and!; [done|simpl; lia|constructor|constructor]. }
  destruct (String.compare n node) eqn:E.
  - apply cmp_eq_iff in E as ->; [|apply _..]. exists [], l. split; [done|simpl; lia].
  - specialize (IH (S k)). destruct (binary_search l node (S k)) as [i|i].
    + destruct IH as (l1 & l2 & -> & ->). exists (n :: l1), l2. split; [done|simpl; lia].
    + destruct IH as (l1 & l2 & -> & -> & H1 & H2). exists (n :: l1), l2.
      split_and!; [done|simpl; lia|by constructor|done].
  - assert (E' : String.compare node n = Lt).
    { rewrite (cmp_antisym (cmp := String.compare)), E. done. }
    exists [], (n :: l). split_and!; [done|simpl; lia|constructor|].
    constructor; [done|]. eapply Forall_impl; [exact Hn|]. simpl. intros x Hx.
    by eapply (cmp_lt_trans String.compare).
Qed.

Lemma vec_insert_app l1 l2 x : vec_insert (l1 ++ l2) (length l1) x = l1 ++ x :: l2.
Proof. unfold vec_insert. by rewrite take_app_length, drop_app_length. Qed.

Lemma vec_remove_app l1 l2 x : vec_remove (l1 ++ x :: l2) (length l1) = l1 ++ l2.
Proof.
  unfold vec_remove. rewrite take_app_length. f_equal.
  change (x :: l2) with ([x] ++ l2). rewrite (assoc app).
  replace (S (length l1)) with (length (l1 ++ [x])) by (rewrite length_app; simpl; lia).
  by rewrite drop_app_length.
Qed.

Lemma sorted_set_app l1 l2 :
  sorted_set (l1 ++ l2) <->
  sorted_set l1 /\ sorted_set l2 /\
  Forall (fun a => Forall (fun b => String.compare a b = Lt) l2) l1.
Proof.
  unfold sorted_set. induction l1 as [|a l1 IH]; simpl.
  - split; [intros H; split_and!; [constructor|done|constructor] | naive_solver].
  - split.
    + inversion 1 as [|? ? Hs Ha]; subst. apply IH in Hs as (H1 & H2 & H3).
      rewrite Forall_app in Ha. destruct Ha.
      split_and!; [by constructor|done|by constructor].
    + intros (H1 & H2 & H3). inversion H1; subst. inversion H3; subst.
      constructor; [by apply IH|]. by apply Forall_app.
Qed.

Lemma sorted_set_not_in l x :
  Forall (fun y => String.compare x y = Lt) l -> ~ In x l.
Proof.
  rewrite List.Forall_forall. intros H Hin%H. by rewrite (cmp_refl String.compare) in Hin.
Qed.

Lemma open_here_spec s node s' changed :
  sorted_set (VolumeStatus.open_on s) -> VolumeStatus.open_here s node = (s', changed) ->
  sorted_set (VolumeStatus.open_on s') /\
  (forall x, In x (VolumeStatus.open_on s') <-> x = node \/ In x (VolumeStatus.open_on s)) /\
  (changed = true <-> ~ In node (VolumeStatus.open_on s)) /\
  (changed = false -> s' = s).
Proof.
  unfold VolumeStatus.open_here. intros Hs. pose proof (binary_search_spec _ node 0 Hs) as Hb.
  destruct (binary_search _ _ _) as [i|i]; intros [= <- <-]; simpl.
  - destruct Hb as (l1 & l2 & Heq & _). split_and!; [done| |split; [done|]|done].
    + intros x. split; [auto|]. intros [->|?]; [|done]. rewrite Heq.
      apply in_app_iff. right. by left.
    + intros H. destruct H. rewrite Heq. apply in_app_iff. right. by left.
  - destruct Hb as (l1 & l2 & Heq & -> & H1 & H2). rewrite Heq in *. simpl.
    rewrite vec_insert_app. apply sorted_set_app in Hs as (Hs1 & Hs2 & Hs12).
    split_and!; [|intros x; rewrite !in_app_iff; simpl; naive_solver|split; [|done]|done].
    + apply sorted_set_app. split_and!; [done|by constructor|].
      rewrite List.Forall_forall in *. intros a Ha. constructor; [by apply H1|by apply Hs12].
    + intros _ [Hin|Hin]%in_app_iff; [|by eapply sorted_set_not_in].
      rewrite List.Forall_forall in H1. apply H1 in Hin.
      by rewrite (cmp_refl String.compare) in Hin.
Qed.

Lemma closed_here_spec s node s' changed :
  sorted_set (VolumeStatus.open_on s) -> VolumeStatus.closed_here s node = (s', changed) ->
  sorted_set (VolumeStatus.open_on s') /\
  (forall x, In x (VolumeStatus.open_on s') <-> x <> node /\ In x (VolumeStatus.open_on s)) /\
  (changed = true <-> In node (VolumeStatus.open_on s)) /\
  (changed = false -> s' = s).
Proof.
  unfold VolumeStatus.closed_here. intros Hs. pose proof (binary_search_spec _ node 0 Hs) as Hb.
  destruct (binary_search _ _ _) as [i|i]; intros [= <- <-]; simpl.
  - destruct Hb as (l1 & l2 & Heq & ->). rewrite Heq in *. simpl. rewrite vec_remove_app.
    apply sorted_set_app in Hs as (Hs1 & Hs2 & Hs12). inversion Hs2 as [|? ? Hs2' Hn]; subst.
    assert (Hn1 : ~ In node l1).
    { intros Hin. rewrite List.Forall_forall in Hs12. apply Hs12 in Hin.
      inversion Hin as [|? ? Hc]; subst. by rewrite (cmp_refl String.compare) in Hc. }
    assert (Hn2 : ~ In node l2) by by apply sorted_set_not_in.
    split_and!; [|intros x; rewrite !in_app_iff; simpl; naive_solver| |done].
    + apply sorted_set_app. split_and!; [done|done|]. eapply Forall_impl; [exact Hs12|].
      simpl. by inversion 1.
    + split; [|done]. intros _. apply in_app_iff. right. by left.
  - destruct Hb as (l1 & l2 & Heq & _ & H1 & H2).
    assert (Hnin : ~ In node (VolumeStatus.open_on s)).
    { rewrite Heq. intros [Hin|Hin]%in_app_iff; [|by eapply sorted_set_not_in].
      rewrite List.Forall_forall in H1. apply H1 in Hin.
      by rewrite (cmp_refl String.compare) in Hin. }
    split_and!; [done| |split; [done|by intros ?%Hnin]|done].
    intros x. split; [|naive_solver]. intros Hin. split; [|done]. by intros ->.
Qed.

Lemma settle_volume_wf d st : phase_wf (settle_volume d st).
Proof.
  unfold settle_volume. repeat case_match; auto using phase_new_wf.
  match goal with H : _ ≫= _ = Some _ |- _ => apply bind_Some in H as (? & _ & ?) end.
  by eapply reported_phase_wf.
Qed.

(** The abstract view of [open_on]. *)
Definition open_set (s : VolumeStatus.t) : gset string := list_to_set (VolumeStatus.open_on s).

Lemma elem_open_set x s : x ∈ open_set s <-> In x (VolumeStatus.open_on s).
Proof. unfold open_set. by rewrite elem_of_list_to_set, <- list_elem_of_In. Qed.

Lemma serve_inv out c :
  NoDup out -> ~ In "" out ->
  NoDup (StoragePoolSpec.serve out c) /\ ~ In "" (StoragePoolSpec.serve out c) /\
  (forall x, In x (StoragePoolSpec.serve out c) <-> In x out \/ (x = c /\ c <> "")).
Proof.
  intros Hnd Hne. unfold StoragePoolSpec.serve.
  destruct (str_is_empty c) eqn:Ec; simpl.
  { destruct c; [|done]. split_and!; [done|done|naive_solver]. }
  assert (c <> "") by by destruct c.
  destruct (str_in c out) eqn:Ei; simpl.
  - apply str_in_spec in Ei. split_and!; [done|done|naive_solver].
  - assert (~ In c out) by (intros H'%str_in_spec; congruence). split_and!.
    + apply NoDup_app. split_and!; [done| |apply NoDup_singleton].
      intros x Hx%list_elem_of_In ->%list_elem_of_singleton. done.
    + rewrite in_app_iff. simpl. naive_solver.
    + intros x. rewrite in_app_iff. simpl. naive_solver.
Qed.

Lemma foldl_serve_inv cs out :
  NoDup out -> ~ In "" out ->
  NoDup (foldl StoragePoolSpec.serve out cs) /\ ~ In "" (foldl StoragePoolSpec.serve out cs) /\
  (forall x, In x (foldl StoragePoolSpec.serve out cs) <-> In x out \/ (In x cs /\ x <> "")).
Proof.
  revert out; induction cs as [|c cs IH]; intros out Hnd Hne; simpl.
  { split_and!; [done|done|naive_solver]. }
  destruct (serve_inv out c Hnd Hne) as (H1 & H2 & H3).
  destruct (IH _ H1 H2) as (H4 & H5 & H6). split_and!; [done|done|].
  intros x. rewrite H6, H3. naive_solver.
Qed.

Lemma serve_head out c h : head out = Some h -> head (StoragePoolSpec.serve out c) = Some h.
Proof. unfold StoragePoolSpec.serve. destruct (_ && _); [|done]. by destruct out. Qed.

Lemma foldl_serve_head cs out h :
  head out = Some h -> head (foldl StoragePoolSpec.serve out cs) = Some h.
Proof. revert out; induction cs as [|c cs IH]; intros out H; simpl; [done|]. by apply IH, serve_head. Qed.

(** * Theorems *)

(** The list of nodes that hold a volume open behaves as a set: recording
    an open adds the node, recording a close removes it, both keep the list in
    strict order, and each says it changed something exactly when it did, so a
    repeated report writes nothing. *)
Theorem volume_open_refines_set s node so co sc cc :
  sorted_set (VolumeStatus.open_on s) ->
  VolumeStatus.open_here s node = (so, co) -> VolumeStatus.closed_here s node = (sc, cc) ->
  (sorted_set (VolumeStatus.open_on so) /\ open_set so = {[ node ]} ∪ open_set s /\
   (co = true <-> node ∉ open_set s) /\ (co = false -> so = s)) /\
  (sorted_set (VolumeStatus.open_on sc) /\ open_set sc = open_set s ∖ {[ node ]} /\
   (cc = true <-> node ∈ open_set s) /\ (cc = false -> sc = s)).
Proof.
  intros Hs Ho Hc.
  destruct (open_here_spec _ _ _ _ Hs Ho) as (H1 & H2 & H3 & H4).
  destruct (closed_here_spec _ _ _ _ Hs Hc) as (H5 & H6 & H7 & H8).
  split; split_and!; try done; rewrite ?elem_open_set; try done.
  - apply set_eq. intros x. rewrite elem_of_union, elem_of_singleton, !elem_open_set. apply H2.
  - apply set_eq. intros x. rewrite elem_of_difference, elem_of_singleton, !elem_open_set, H6.
    naive_solver.
Qed.

(** A volume open on two nodes, for evaluations. *)
Definition example_volume_status : VolumeStatus.t :=
  {| VolumeStatus.phase := phase_default; VolumeStatus.reported := None;
     VolumeStatus.holder := None; VolumeStatus.claimant_gone := true;
     VolumeStatus.backend := ""; VolumeStatus.node := Some "agent-1";
     VolumeStatus.open_on := ["agent-1"; "agent-3"]; VolumeStatus.cluster := None;
     VolumeStatus.attached_to := Some "vm-1"; VolumeStatus.attached_uid := Some "u-1";
     VolumeStatus.size_gib := 10; VolumeStatus.untold_gib := 0;
     VolumeStatus.observed_generation := 1; VolumeStatus.observed_at := None;
     VolumeStatus.requeue_attempts := 0; VolumeStatus.last_requeue := None |}.

Lemma volume_open_refines_set_witness :
  VolumeStatus.open_on (VolumeStatus.open_here example_volume_status "agent-2").1
  = ["agent-1"; "agent-2"; "agent-3"] /\
  open_set (VolumeStatus.open_here example_volume_status "agent-2").1
  = {[ "agent-2" ]} ∪ open_set example_volume_status.
Proof.
  split; [done|].
  assert (Hs : sorted_set (VolumeStatus.open_on example_volume_status)).
  { repeat constructor. }
  apply (volume_open_refines_set example_volume_status "agent-2" _ true
           (VolumeStatus.closed_here example_volume_status "agent-2").1 false); done.
Defined.

(** Settling a volume lets the attachment claim fall only when its
    claimant is gone and no node reports the bytes open, and then clears the
    whole claim; otherwise name and uid of the claim are untouched.  A deleted
    volume always reads Releasing, and a volume reads Ready only on the word of
    a named node. *)
Theorem volume_settle_safe now v :
  let st := status v in
  let st' := status (volume_settle now v) in
  (VolumeStatus.attached_to st <> None ->
   (VolumeStatus.attached_to st' = VolumeStatus.attached_to st /\
    VolumeStatus.attached_uid st' = VolumeStatus.attached_uid st) \/
   (VolumeStatus.claimant_gone st = true /\ VolumeStatus.open_on st = [] /\
    VolumeStatus.attached_to st' = None /\ VolumeStatus.attached_uid st' = None)) /\
  (is_deleting v = true -> ph_kind (VolumeStatus.phase st') = VolumePhaseKind.Releasing) /\
  (ph_kind (VolumeStatus.phase st') = VolumePhaseKind.Ready ->
   is_deleting v = false /\
   exists r, VolumeStatus.reported st = Some r /\ said_phase r = VolumePhaseKind.Ready /\
             said_node r <> "").
Proof.
  assert (Hrep : forall st, ph_kind (settle_volume false st) = VolumePhaseKind.Ready ->
    exists r, VolumeStatus.reported st = Some r /\ said_phase r = VolumePhaseKind.Ready /\
              said_node r <> "").
  { intros st. unfold settle_volume. destruct (VolumeStatus.reported st) as [r|]; [|done]. simpl.
    destruct (reported_phase r) as [p|] eqn:Hr; [|done]. intros Hk. exists r.
    pose proof (reported_phase_kind _ _ Hr) as Hkind. pose proof (reported_phase_wf _ _ Hr) as Hwf.
    split_and!; [done|congruence|]. apply (reported_resting r p Hr).
    unfold phase_wf in Hwf. rewrite Hk in Hwf. by destruct (ph_reason p). }
  assert (Hdel : forall st, ph_kind (settle_volume true st) = VolumePhaseKind.Releasing).
  { intros st. unfold settle_volume. by destruct (VolumeStatus.holder st). }
  cbn zeta. unfold volume_settle, with_status, is_deleting, is_some.
  cbn [status VolumeStatus.phase VolumeStatus.set_phase VolumeStatus.attached_to
       VolumeStatus.attached_uid].
  rewrite stamp_eq by apply settle_volume_wf. cbn [ph_kind].
  split_and!.
  - intros Hatt. destruct (volume_claim_holds (status v)) eqn:Hc; simpl; [by left|right].
    unfold volume_claim_holds in Hc. destruct (VolumeStatus.attached_to (status v)); [|done].
    bool_hyps. by destruct (VolumeStatus.open_on (status v)).
  - destruct (deletion_timestamp (metadata v)); [|done]. intros _. apply Hdel.
  - destruct (deletion_timestamp (metadata v)); [by rewrite Hdel|]. intros Hk. split; [done|].
    apply Hrep in Hk. by destruct (negb (volume_claim_holds (status v))).
Qed.

(** A pool's serving clusters are listed once each, none empty, exactly the
    named ones, with the primary cluster as the home; and stating the default
    quota changes no tenant's ceiling. *)
Theorem pool_served_by_exact s :
  NoDup (StoragePoolSpec.served_by s) /\
  (forall c, StoragePoolSpec.serves s c = true <->
     c <> "" /\ (c = StoragePoolSpec.cluster s \/ In c (StoragePoolSpec.clusters s))) /\
  (StoragePoolSpec.cluster s <> "" -> StoragePoolSpec.home s = Some (StoragePoolSpec.cluster s)) /\
  (forall tenant, StoragePoolSpec.quota_for (StoragePoolSpec.state_default_quota s) tenant
                  = StoragePoolSpec.quota_for s tenant).
Proof.
  unfold StoragePoolSpec.serves, StoragePoolSpec.home, StoragePoolSpec.served_by.
  set (out := if negb (str_is_empty (StoragePoolSpec.cluster s)) then _ else _).
  assert (Hout : NoDup out /\ ~ In "" out /\
                 forall c, In c out <-> c = StoragePoolSpec.cluster s /\ c <> "").
  { unfold out. destruct (StoragePoolSpec.cluster s) as [|a c]; simpl.
    - split_and!; [constructor|naive_solver|naive_solver].
    - split_and!; [apply NoDup_singleton|naive_solver|naive_solver]. }
  destruct Hout as (Hnd & Hne & Hin).
  destruct (foldl_serve_inv (StoragePoolSpec.clusters s) out Hnd Hne) as (H1 & _ & H3).
  split_and!; [done| | |].
  - intros c. rewrite str_in_spec, H3, Hin. naive_solver.
  - intros Hc. apply foldl_serve_head. unfold out. by destruct (StoragePoolSpec.cluster s).
  - intros tenant. unfold StoragePoolSpec.quota_for, StoragePoolSpec.state_default_quota,
      StoragePoolSpec.default_quota. simpl.
    destruct (sget StoragePoolSpec.QUOTA_EVERYONE (StoragePoolSpec.quota s)) eqn:Eq; [by rewrite Eq|].
    unfold sget, sinsert in *. rewrite bt_get_insert_eq by apply _.
    destruct (String.eqb_spec tenant StoragePoolSpec.QUOTA_EVERYONE) as [->|Hn].
    + by rewrite bt_get_insert_eq, Eq by apply _.
    + rewrite bt_get_insert_ne by (apply _ || done). by destruct (bt_get String.compare tenant _).
Qed.
