(* ===== verification/Sizing.v ===== *)
(** Sizes and admission: [Capacity] and [Overcommit] of
    [src/shared/controller-api/src/scheduler.rs].  [u32] and [u64] arithmetic
    saturates as written; [f64] is IEEE binary64 (see [Float64]). *)
From Stdlib Require Import Ascii String NArith ZArith List Bool Lia.
From Corelib Require Import SpecFloat.
From stdpp Require Import base list strings.
From S2P Require Import Prelude RustStr Json Float64 Phase Objects Vm.

(** * [Capacity] *)

Module Capacity.
Record t := { vcpus : N; mem_mib : N }.

#[export] Instance t_eq_dec : EqDecision t.
Proof. solve_decision. Defined.

Definition default : t := {| vcpus := 0; mem_mib := 0 |}.

Definition wanted_by_spec (spec : value) : t :=
  let number field := jget spec field ≫= as_u64 in
  {| vcpus := N.min (unwrap_or 0%N (number "vcpus")) u32_max;
     mem_mib := unwrap_or 0%N (number "memory_mib") |}.

Definition wanted_by (vm : Vm) : t := wanted_by_spec (VmSpec.vm (spec vm)).

Definition minus (a b : t) : t :=
  {| vcpus := vcpus a - vcpus b; mem_mib := mem_mib a - mem_mib b |}.

Definition plus (a b : t) : t :=
  {| vcpus := sat_add u32_max (vcpus a) (vcpus b);
     mem_mib := sat_add u64_max (mem_mib a) (mem_mib b) |}.

Definition fits_in (a room : t) : bool :=
  (vcpus a <=? vcpus room)%N && (mem_mib a <=? mem_mib room)%N.
End Capacity.

(** The tuple order [(mem_mib, vcpus)] rooms are ranked by. *)
Definition room_cmp (a b : Capacity.t) : comparison :=
  then_with (N.compare (Capacity.mem_mib a) (Capacity.mem_mib b))
    (N.compare (Capacity.vcpus a) (Capacity.vcpus b)).

(** * [Overcommit] *)

Module Overcommit.
Record t := { vcpu : f64; memory : f64 }.

Definition VCPU_DEFAULT : f64 := f64_four.
Definition MEMORY_DEFAULT : f64 := f64_one.

(** What [check] refuses; each is one of its messages. *)
Inductive refusal := MemoryNotPositive | MemoryOvercommitted (memory : f64) | VcpuNotPositive.

Definition check (o : t) : result refusal unit :=
  if negb (f64_is_finite (memory o) && SFltb f64_zero (memory o)) then Err MemoryNotPositive
  else if SFltb MEMORY_DEFAULT (memory o) then Err (MemoryOvercommitted (memory o))
  else if negb (f64_is_finite (vcpu o) && SFltb f64_zero (vcpu o)) then Err VcpuNotPositive
  else Ok tt.

Definition allowance (o : t) (capacity : Capacity.t) : Capacity.t :=
  {| Capacity.vcpus := f64_trunc u32_max (f64_mul (f64_of_N (Capacity.vcpus capacity)) (vcpu o));
     Capacity.mem_mib := f64_trunc u64_max (f64_mul (f64_of_N (Capacity.mem_mib capacity)) (memory o)) |}.

Definition default : t := {| vcpu := VCPU_DEFAULT; memory := MEMORY_DEFAULT |}.
End Overcommit.

(** * Lemmas *)

Local Open Scope N_scope.

(** Sizes within their widths. *)
Definition capacity_wf (c : Capacity.t) : Prop :=
  Capacity.vcpus c <= u32_max /\ Capacity.mem_mib c <= u64_max.

(** Componentwise order. *)
Definition capacity_le (a b : Capacity.t) : Prop :=
  Capacity.vcpus a <= Capacity.vcpus b /\ Capacity.mem_mib a <= Capacity.mem_mib b.

(** Exact sums, without the saturation of [plus]. *)
Definition capacity_add (a b : Capacity.t) : Capacity.t :=
  {| Capacity.vcpus := Capacity.vcpus a + Capacity.vcpus b;
     Capacity.mem_mib := Capacity.mem_mib a + Capacity.mem_mib b |}.

Lemma fits_in_spec a room : Capacity.fits_in a room = true <-> capacity_le a room.
Proof. unfold Capacity.fits_in, capacity_le. lia. Qed.

Lemma capacity_le_refl a : capacity_le a a.
Proof. unfold capacity_le. lia. Qed.

Lemma capacity_le_trans a b c : capacity_le a b -> capacity_le b c -> capacity_le a c.
Proof. unfold capacity_le. lia. Qed.

Lemma minus_le a b : capacity_le (Capacity.minus a b) a.
Proof. unfold capacity_le, Capacity.minus. simpl. lia. Qed.

(** A size that fits in what is left fits on top of what was taken. *)
Lemma fits_in_minus a room taken :
  capacity_le taken room ->
  Capacity.fits_in a (Capacity.minus room taken) = true <->
  capacity_le (capacity_add taken a) room.
Proof.
  rewrite fits_in_spec. unfold capacity_le, Capacity.minus, capacity_add. simpl. lia.
Qed.

Lemma plus_exact a b :
  capacity_wf (capacity_add a b) -> Capacity.plus a b = capacity_add a b.
Proof.
  unfold capacity_wf, Capacity.plus, capacity_add, sat_add. simpl. intros [Hv Hm].
  f_equal; lia.
Qed.

Lemma plus_ge_l a b : capacity_wf a -> capacity_le a (Capacity.plus a b).
Proof. unfold capacity_wf, capacity_le, Capacity.plus, sat_add. simpl. lia. Qed.

Lemma plus_wf a b : capacity_wf (Capacity.plus a b).
Proof. unfold capacity_wf, Capacity.plus, sat_add. simpl. lia. Qed.

(** Saturation only ever under-reports a sum that no room can hold anyway. *)
Lemma plus_le_room a b room :
  capacity_wf room -> capacity_le (capacity_add a b) room ->
  capacity_le (Capacity.plus a b) room.
Proof. unfold capacity_wf, capacity_le, capacity_add, Capacity.plus, sat_add. simpl. lia. Qed.

#[export] Hint Resolve capacity_le_refl minus_le plus_wf : rust.

Lemma check_ok_memory o :
  Overcommit.check o = Ok tt ->
  exists m e, Overcommit.memory o = S754_finite false m e /\
    (valid_binary f64_prec f64_emax (Overcommit.memory o) = true -> at_most_one m e).
Proof.
  unfold Overcommit.check, Overcommit.MEMORY_DEFAULT, f64_one.
  destruct (Overcommit.memory o) as [s|s| |s m e]; simpl; try done.
  destruct s; simpl; [done|]. destruct (SFltb (S754_finite false _ _) _) eqn:Hlt; [done|].
  intros _. exists m, e. split; [done|]. intros Hv.
  unfold bounded, canonical_mantissa in Hv. apply andb_true_iff in Hv as [Hc _].
  apply Z.eqb_eq in Hc. rewrite fexp_eq in Hc.
  destruct (digits2_bounds m) as [_ Hhi].
  assert (Hd : (Z.pos (digits2_pos m) <= 53)%Z) by (unfold target_exp in Hc; lia).
  assert (Hm : (Z.pos m < 2 ^ 53)%Z).
  { eapply Z.lt_le_trans; [exact Hhi|]. apply Z.pow_le_mono_r; lia. }
  unfold SFltb, SFcompare in Hlt. destruct (Z.compare (-52) e) eqn:He; [|done|].
  - apply Z.compare_eq_iff in He as <-.
    assert (Hle : (m <= 4503599627370496)%positive).
    { intros Hgt. apply Pos.compare_gt_iff, Pos.compare_lt_iff in Hgt.
      unfold Pos.compare in Hgt. by rewrite Hgt in Hlt. }
    split; [exact Hle | done].
  - apply Z.compare_gt_iff in He. split; [|lia]. apply Z.lt_le_incl. eapply Z.lt_le_trans; [exact Hm|].
    apply Z.pow_le_mono_r; lia.
Qed.

(** * Theorems *)

(** A configuration the start-up check accepts never overcommits memory:
    for every memory factor [check] admits, and every machine below [2^53] MiB,
    the memory a node may be asked to carry is at most the memory it has. *)
Theorem allowance_memory_bounded o c :
  Overcommit.check o = Ok tt ->
  valid_binary f64_prec f64_emax (Overcommit.memory o) = true ->
  Capacity.mem_mib c < 2 ^ 53 ->
  Capacity.mem_mib (Overcommit.allowance o c) <= Capacity.mem_mib c.
Proof.
  intros Hc Hv Hm. destruct (check_ok_memory o Hc) as (m & e & He & Hone).
  unfold Overcommit.allowance. simpl. rewrite He. apply mul_trunc_le; auto.
Qed.

(** Three quarters. *)
Definition f64_three_quarters : f64 := S754_finite false 6755399441055744 (-53).

Lemma allowance_memory_bounded_witness :
  Capacity.mem_mib (Overcommit.allowance
    {| Overcommit.vcpu := f64_four; Overcommit.memory := f64_three_quarters |}
    {| Capacity.vcpus := 8; Capacity.mem_mib := 4097 |}) = 3072 /\
  Capacity.mem_mib (Overcommit.allowance
    {| Overcommit.vcpu := f64_four; Overcommit.memory := f64_three_quarters |}
    {| Capacity.vcpus := 8; Capacity.mem_mib := 4097 |}) <= 4097.
Proof.
  split; [by vm_compute|].
  apply (allowance_memory_bounded
    {| Overcommit.vcpu := f64_four; Overcommit.memory := f64_three_quarters |}
    {| Capacity.vcpus := 8; Capacity.mem_mib := 4097 |}); by vm_compute.
Defined.

(** The default factors are exact: four times the vCPUs, saturating at
    [u32], and the memory itself, for every machine below [2^53] MiB. *)
Theorem allowance_default_exact c :
  capacity_wf c -> Capacity.mem_mib c < 2 ^ 53 ->
  Overcommit.allowance Overcommit.default c
  = {| Capacity.vcpus := N.min (4 * Capacity.vcpus c) u32_max;
       Capacity.mem_mib := Capacity.mem_mib c |}.
Proof.
  intros [Hv Hm64] Hm. unfold Overcommit.allowance. f_equal.
  - etransitivity; [apply (mul_pow2_exact u32_max (Capacity.vcpus c) 2)|].
    + unfold u32_max in Hv. change (2 ^ 2) with 4. change (2 ^ 53) with 9007199254740992. lia.
    + change (2 ^ 2) with 4. f_equal. lia.
  - etransitivity; [apply (mul_pow2_exact u64_max (Capacity.mem_mib c) 0)|].
    + by rewrite N.pow_0_r, N.mul_1_r.
    + rewrite N.pow_0_r, N.mul_1_r. lia.
Qed.

Lemma allowance_default_exact_witness :
  Overcommit.allowance Overcommit.default {| Capacity.vcpus := 12; Capacity.mem_mib := 65536 |}
  = {| Capacity.vcpus := 48; Capacity.mem_mib := 65536 |}.
Proof.
  apply (allowance_default_exact {| Capacity.vcpus := 12; Capacity.mem_mib := 65536 |}).
  - by split; vm_compute.
  - by vm_compute.
Defined.

(** Past [2^53] MiB the conversion of the capacity itself rounds to
    nearest, so an allowance can exceed the machine by the rounding error even
    at the default factor of one. *)
Theorem allowance_rounds_up_past_2_53 :
  exists c, capacity_wf c /\ Overcommit.check Overcommit.default = Ok tt /\
    Capacity.mem_mib c < Capacity.mem_mib (Overcommit.allowance Overcommit.default c).
Proof.
  exists {| Capacity.vcpus := 1; Capacity.mem_mib := 9007199254740995 |}.
  split_and!; [by split; vm_compute | by vm_compute | by vm_compute].
Qed.
