(* ===== verification/Placement.v ===== *)
(** Placement: the candidates, constraints and strategies of
    [src/shared/controller-api/src/scheduler.rs].  [feasible] applies the hard
    constraints; storage and volume rules narrow candidates; [FirstFit] and
    [Spread] choose among what is left, [spend] books a choice within a pass. *)
From Stdlib Require Import Ascii String NArith ZArith List Bool Lia.
From stdpp Require Import base list strings.
From S2P Require Import Prelude RustStr Json Capability Phase Objects Vm Nics Node Storage Sizing.

(** * Candidates *)

Module CandidateKind.
Inductive t := Node | Cluster.
End CandidateKind.

Module Hosted.
Record t := { tenant : option string; labels : smap string }.

Definition of_ (vm : Vm) : t :=
  {| tenant := VmSpec.tenant (spec vm); labels := Objects.labels (metadata vm) |}.
End Hosted.

Module Candidate.
Record t := {
  name : string;
  connected : bool;
  alive : bool;
  schedulable : bool;
  unhealthy : list string;
  free : Capacity.t;
  catalogue : list string;
  kind : CandidateKind.t;
  labels : smap string;
  accepts : list string;
  hosted : list Hosted.t;
  machine : option MachineProfile.t;
}.

(** The two fields [spend] and [hold] write. *)
Definition set_free (c : t) (f : Capacity.t) : t :=
  {| name := name c; connected := connected c; alive := alive c; schedulable := schedulable c;
     unhealthy := unhealthy c; free := f; catalogue := catalogue c; kind := kind c;
     labels := labels c; accepts := accepts c; hosted := hosted c; machine := machine c |}.

Definition push_hosted (c : t) (h : Hosted.t) : t :=
  {| name := name c; connected := connected c; alive := alive c; schedulable := schedulable c;
     unhealthy := unhealthy c; free := free c; catalogue := catalogue c; kind := kind c;
     labels := labels c; accepts := accepts c; hosted := hosted c ++ [h]; machine := machine c |}.
End Candidate.

Definition hosted_on (on : string) (vms : list Vm) (bound : Vm -> option string) : list Hosted.t :=
  map Hosted.of_ (List.filter (fun v => bool_decide (bound v = Some on)) vms).

Definition selects (selector labels : smap string) : bool :=
  forallb (fun '(k, v) => bool_decide (sget k labels = Some v)) selector.

Definition selector_for (vm : Vm) (kind : CandidateKind.t) : smap string :=
  match kind with
  | CandidateKind.Node => VmSpec.node_selector (spec vm)
  | CandidateKind.Cluster => VmSpec.cluster_selector (spec vm)
  end.

Definition collides (term : AntiAffinity.t) (vm : Vm) (candidate : Candidate.t) : bool :=
  existsb (fun h => selects (AntiAffinity.selector term) (Hosted.labels h))
    (List.filter (fun h => bool_decide (Hosted.tenant h = VmSpec.tenant (spec vm)))
       (Candidate.hosted candidate)).

(** * Capability requests *)

(** The [array] closure of [resource_requests]. *)
Definition spec_array (vm : Vm) (field : string) : list value :=
  unwrap_or [] (jget (VmSpec.vm (spec vm)) field ≫= as_array).

Definition device_request (d : value) : option (string * option string) :=
  driver ← jget d "driver" ≫= as_str;
  Some (driver, jget d "profile" ≫= as_str).

Definition volume_request (v : value) : option (string * option string) :=
  driver ← jget v "driver" ≫= as_str;
  if negb (String.eqb driver DEFAULT_VOLUME_DRIVER) then Some (VOLUME, Some driver) else None.

Definition resource_requests (vm : Vm) : list (string * option string) :=
  let nics := spec_array vm "nics" in
  filter_map device_request (spec_array vm "devices")
  ++ filter_map volume_request (spec_array vm "volumes")
  ++ (if existsb (fun n => is_some_and (fun v => negb (is_null v)) (jget n "vxlan_id")) nics
      then [(NETWORK, Some VXLAN)] else [])
  ++ map (fun physnet => (NETWORK, Some (gateway_claim physnet)))
       (dedup String.eqb (filter_map (fun n => as_object n ≫= physnet_of) nics))
  ++ [(HYPERVISOR, None)].

Module DevicePolicy.
Definition t := list (string * option string).

Definition of_ (vm : Vm) : t := resource_requests vm.

Definition is_empty (p : t) : bool := match p with [] => true | _ => false end.

Definition met_by (p : t) (catalogue : list string) : bool :=
  forallb (fun '(driver, profile) => offers catalogue driver profile) p.

Definition unmet (p : t) (candidates : list Candidate.t) : list string :=
  let usable := List.filter (fun c => Candidate.connected c && Candidate.schedulable c) candidates in
  map (fun '(driver, profile) => entry driver profile)
    (List.filter (fun '(driver, profile) =>
       negb (existsb (fun c => offers (Candidate.catalogue c) driver profile) usable)) p).
End DevicePolicy.

(** * Feasibility *)

Definition is_usable (c : Candidate.t) : bool :=
  Candidate.connected c && Candidate.schedulable c
  && match Candidate.unhealthy c with [] => true | _ => false end.

Definition is_alive (c : Candidate.t) : bool :=
  Candidate.alive c && Candidate.schedulable c
  && match Candidate.unhealthy c with [] => true | _ => false end.

Definition usable (candidates : list Candidate.t) : list Candidate.t :=
  List.filter is_usable candidates.

(** The required anti-affinity terms a candidate must not collide with. *)
Definition no_required_collision (vm : Vm) (c : Candidate.t) : bool :=
  negb (existsb (fun t => collides t vm c)
          (List.filter AntiAffinity.required (VmSpec.anti_affinity (spec vm)))).

Definition feasible (vm : Vm) (candidates : list Candidate.t) : list Candidate.t :=
  let wanted := DevicePolicy.of_ vm in
  let size := Capacity.wanted_by vm in
  List.filter (no_required_collision vm)
    (List.filter (fun c => DevicePolicy.met_by wanted (Candidate.catalogue c))
      (List.filter (fun c => selects (selector_for vm (Candidate.kind c)) (Candidate.labels c))
        (List.filter (fun c => Capacity.fits_in size (Candidate.free c))
          (List.filter (fun c => accepts_class (Candidate.accepts c) (VmSpec.class (spec vm)))
            (usable candidates))))).

(** * Storage constraints *)

Module StoragePolicy.
Record t := { driver : string; nodes : list string }.

Definition of_ (pool : StoragePool) : t :=
  {| driver := StoragePoolSpec.driver (spec pool); nodes := StoragePoolSpec.nodes (spec pool) |}.

Definition wanted (p : t) : string := entry VOLUME (Some (driver p)).

Definition reaches (p : t) (name : string) : bool :=
  match nodes p with [] => true | l => existsb (fun n => String.eqb n name) l end.

Definition met_by (p : t) (c : Candidate.t) : bool :=
  reaches p (Candidate.name c) && offers (Candidate.catalogue c) VOLUME (Some (driver p)).
End StoragePolicy.

Definition feasible_for_storage (policy : StoragePolicy.t) (candidates : list Candidate.t)
    : list Candidate.t :=
  List.filter (StoragePolicy.met_by policy) (usable candidates).

Definition prefer_local (feasible : list Candidate.t) (holders : list string) : list Candidate.t :=
  match holders with
  | [] => feasible
  | _ =>
      let local :=
        List.filter (fun c => existsb (fun h => String.eqb h (Candidate.name c)) holders) feasible in
      match local with [] => feasible | _ => local end
  end.

Module VolumeBinding.
Record t := {
  volume : string;
  node : option string;
  locality : option Locality.t;
  pool_nodes : list string;
  driver : option string;
}.

Definition required (b : t) : option (list string) :=
  match locality b with
  | Some Locality.NodeLocal => match node b with Some n => Some [n] | None => None end
  | Some Locality.Shared => match pool_nodes b with [] => None | l => Some l end
  | Some Locality.Networked | None => None
  end.

Definition claim (b : t) : option string :=
  match locality b with
  | Some Locality.Networked =>
      match driver b with
      | Some d => if negb (str_is_empty d) then Some d else None
      | None => None
      end
  | _ => None
  end.

Definition pins_elsewhere (b : t) (node : string) : bool :=
  is_some_and (fun allowed => negb (existsb (fun n => String.eqb n node) allowed)) (required b).
End VolumeBinding.

(** One iteration of the loop of [feasible_for_volumes]. *)
Definition retain_binding (allowed : list Candidate.t) (b : VolumeBinding.t) : list Candidate.t :=
  let allowed :=
    match VolumeBinding.claim b with
    | Some claim => List.filter (fun c => offers (Candidate.catalogue c) VOLUME (Some claim)) allowed
    | None => allowed
    end in
  match VolumeBinding.required b with
  | Some nodes =>
      List.filter (fun c => existsb (fun n => String.eqb n (Candidate.name c)) nodes) allowed
  | None => allowed
  end.

Definition feasible_for_volumes (bindings : list VolumeBinding.t) (candidates : list Candidate.t)
    : list Candidate.t := foldl retain_binding candidates bindings.

Definition preferred_for_volumes (bindings : list VolumeBinding.t) (feasible : list Candidate.t)
    : list Candidate.t :=
  let holders :=
    filter_map VolumeBinding.node
      (List.filter (fun b => negb (is_some (VolumeBinding.required b))) bindings) in
  prefer_local feasible holders.

Definition narrow_allowed (current next : option (list string)) : option (list string) :=
  match current, next with
  | None, next => next
  | current, None => current
  | Some current, Some next => Some (List.filter (fun c => str_in c next) current)
  end.

(** * Strategies *)

Definition preferred (vm : Vm) (feasible : list Candidate.t) : list Candidate.t :=
  let soft := List.filter (fun t => negb (AntiAffinity.required t)) (VmSpec.anti_affinity (spec vm)) in
  match soft with
  | [] => feasible
  | _ =>
      let clean := List.filter (fun c => negb (existsb (fun t => collides t vm c) soft)) feasible in
      match clean with [] => feasible | _ => clean end
  end.

(** [trait Scheduler]. *)
Class Scheduler (assign : Vm -> list Candidate.t -> option string) : Prop := {
  assign_feasible : forall vm cs n, assign vm cs = Some n ->
    exists c, In c (feasible vm cs) /\ Candidate.name c = n;
  assign_complete : forall vm cs, assign vm cs = None <-> feasible vm cs = [];
}.

Definition FirstFit_assign (vm : Vm) (candidates : list Candidate.t) : option string :=
  match head (preferred vm (feasible vm candidates)) with
  | Some c => Some (Candidate.name c)
  | None => None
  end.

Definition spread_cmp (a b : Candidate.t) : comparison :=
  then_with (Nat.compare (length (Candidate.hosted a)) (length (Candidate.hosted b)))
    (String.compare (Candidate.name a) (Candidate.name b)).

Definition Spread_assign (vm : Vm) (candidates : list Candidate.t) : option string :=
  match min_by spread_cmp (preferred vm (feasible vm candidates)) with
  | Some c => Some (Candidate.name c)
  | None => None
  end.

(** [SchedulerConfig::into_scheduler]. *)
Definition into_scheduler (this : option string)
    : result string (Vm -> list Candidate.t -> option string) :=
  match this with
  | None => Ok FirstFit_assign
  | Some s =>
      if String.eqb s "first-fit" then Ok FirstFit_assign
      else if String.eqb s "spread" then Ok Spread_assign
      else Err ("scheduler = " +:+ debug s +:+ ", expected " +:+ debug "first-fit" +:+ " or "
                +:+ debug "spread")
  end.

(** Booking within a pass: the first candidate of that name. *)
Fixpoint spend (candidates : list Candidate.t) (name : string) (vm : Vm) : list Candidate.t :=
  match candidates with
  | [] => []
  | c :: cs =>
      if String.eqb (Candidate.name c) name
      then Candidate.push_hosted
             (Candidate.set_free c (Capacity.minus (Candidate.free c) (Capacity.wanted_by vm)))
             (Hosted.of_ vm) :: cs
      else c :: spend cs name vm
  end.

Definition bound_on (node : string) (vms : list Vm) : Capacity.t :=
  foldl (fun sum vm => Capacity.plus sum (Capacity.wanted_by vm)) Capacity.default
    (List.filter (fun v => bool_decide (VmSpec.node_name (spec v) = Some node)) vms).

Definition free_on (node : string) (capacity : NodeCapacity.t) (vms : list Vm)
    (overcommit : Overcommit.t) : Capacity.t :=
  Capacity.minus
    (Overcommit.allowance overcommit
       {| Capacity.vcpus := NodeCapacity.vcpus capacity;
          Capacity.mem_mib := NodeCapacity.mem_mib capacity |})
    (bound_on node vms).

Definition unplaced_demand (vms : list Vm) : list Capacity.t :=
  map Capacity.wanted_by
    (List.filter (fun v => negb (is_some (VmSpec.node_name (spec v))) && negb (is_deleting v)) vms).

(** * Lemmas *)

Lemma filter_filter_and {A} (p q : A -> bool) l :
  List.filter p (List.filter q l) = List.filter (fun x => q x && p x) l.
Proof.
  induction l as [|x l IH]; simpl; [done|]. destruct (q x); simpl; [|done].
  destruct (p x); by rewrite IH.
Qed.

Lemma filter_nil_iff {A} (p : A -> bool) l :
  List.filter p l = [] <-> forall x, In x l -> p x = false.
Proof.
  induction l as [|x l IH]; simpl; [naive_solver|].
  destruct (p x) eqn:E.
  - split; [done|]. intros H. rewrite (H x) in E by auto. done.
  - rewrite IH. split; [intros H y [<-|Hy]; auto | auto].
Qed.

(** The hard constraints on one candidate. *)
Definition feasible_one (vm : Vm) (c : Candidate.t) : bool :=
  is_usable c && accepts_class (Candidate.accepts c) (VmSpec.class (spec vm))
  && Capacity.fits_in (Capacity.wanted_by vm) (Candidate.free c)
  && selects (selector_for vm (Candidate.kind c)) (Candidate.labels c)
  && DevicePolicy.met_by (DevicePolicy.of_ vm) (Candidate.catalogue c)
  && no_required_collision vm c.

(** The chain of filters is one filter: inventory order is kept. *)
Lemma feasible_eq vm cs : feasible vm cs = List.filter (feasible_one vm) cs.
Proof.
  unfold feasible, usable. rewrite !filter_filter_and. apply filter_ext. intros c.
  unfold feasible_one. by rewrite !andb_assoc.
Qed.

Lemma in_feasible vm cs c : In c (feasible vm cs) <-> In c cs /\ feasible_one vm c = true.
Proof. rewrite feasible_eq. apply filter_In. Qed.

Lemma selects_spec selector labels :
  selects selector labels = true <-> forall k v, In (k, v) selector -> sget k labels = Some v.
Proof.
  unfold selects. rewrite forallb_forall. split.
  - intros H k v Hin. specialize (H _ Hin). simpl in H. by apply bool_decide_eq_true in H.
  - intros H [k v] Hin. apply bool_decide_eq_true. by apply H.
Qed.

(** No soft term of [vm] collides with what [c] hosts. *)
Definition soft_clean (vm : Vm) (c : Candidate.t) : bool :=
  negb (existsb (fun t => collides t vm c)
    (List.filter (fun t => negb (AntiAffinity.required t)) (VmSpec.anti_affinity (spec vm)))).

Lemma preferred_eq vm l :
  preferred vm l = match List.filter (soft_clean vm) l with [] => l | clean => clean end.
Proof.
  unfold preferred, soft_clean.
  destruct (List.filter (fun t => negb (AntiAffinity.required t)) _) as [|t ts];
    [|by destruct (List.filter _ l)].
  assert (Hall : List.filter (fun _ : Candidate.t => true) l = l).
  { induction l as [|x l IH]; simpl in *; [done|]. by rewrite IH. }
  simpl. rewrite Hall. by destruct l.
Qed.

Lemma preferred_nil vm l : preferred vm l = [] <-> l = [].
Proof.
  rewrite preferred_eq. destruct (List.filter _ l) eqn:E; [done|].
  split; [done|]. intros ->. done.
Qed.

Lemma in_preferred vm l c :
  In c (preferred vm l) ->
  In c l /\ (soft_clean vm c = true \/ forall d, In d l -> soft_clean vm d = false).
Proof.
  rewrite preferred_eq. destruct (List.filter (soft_clean vm) l) as [|x xs] eqn:E.
  - intros Hin. split; [done|]. right. by apply filter_nil_iff.
  - rewrite <- E. intros [Hin Hc]%filter_In. auto.
Qed.

#[export] Instance spread_cmp_total : CmpTotal spread_cmp.
Proof.
  apply (then_with_total (fun a b => Nat.compare (length (Candidate.hosted a)) (length (Candidate.hosted b)))
    (fun a b => String.compare (Candidate.name a) (Candidate.name b))).
Qed.

#[export] Instance FirstFit_scheduler : Scheduler FirstFit_assign.
Proof.
  split.
  - intros vm cs n. unfold FirstFit_assign.
    destruct (preferred vm (feasible vm cs)) as [|c l] eqn:E; [done|]. intros [= <-].
    exists c. split; [|done]. apply (in_preferred vm). rewrite E. by left.
  - intros vm cs. unfold FirstFit_assign. rewrite <- (preferred_nil vm (feasible vm cs)).
    by destruct (preferred vm (feasible vm cs)).
Qed.

#[export] Instance Spread_scheduler : Scheduler Spread_assign.
Proof.
  split.
  - intros vm cs n. unfold Spread_assign. destruct (min_by _ _) as [c|] eqn:E; [|done].
    intros [= <-]. apply min_by_some in E as [Hin _]; [|apply _].
    exists c. split; [|done]. by apply in_preferred in Hin as [? _].
  - intros vm cs. unfold Spread_assign. rewrite <- (preferred_nil vm (feasible vm cs)).
    destruct (min_by _ _) eqn:E.
    + split; [done|]. intros H. by rewrite H in E.
    + split; [|done]. intros _. by apply min_by_none in E.
Qed.

(** ** Volumes *)

Lemma in_retain_binding c allowed b :
  In c (retain_binding allowed b) <->
  In c allowed /\
  (forall d, VolumeBinding.claim b = Some d -> offers (Candidate.catalogue c) VOLUME (Some d) = true) /\
  (forall nodes, VolumeBinding.required b = Some nodes -> In (Candidate.name c) nodes).
Proof.
  unfold retain_binding.
  assert (Hn : forall nodes, existsb (fun n => String.eqb n (Candidate.name c)) nodes = true <->
                             In (Candidate.name c) nodes).
  { intros nodes. rewrite existsb_exists. split.
    - by intros (x & Hx & ->%String.eqb_eq).
    - intros H. exists (Candidate.name c). by rewrite String.eqb_refl. }
  destruct (VolumeBinding.claim b) as [d|], (VolumeBinding.required b) as [nodes|];
    rewrite ?filter_In, ?Hn; naive_solver.
Qed.

Lemma in_feasible_for_volumes c bindings cs :
  In c (feasible_for_volumes bindings cs) <->
  In c cs /\ forall b, In b bindings ->
    (forall d, VolumeBinding.claim b = Some d -> offers (Candidate.catalogue c) VOLUME (Some d) = true) /\
    (forall nodes, VolumeBinding.required b = Some nodes -> In (Candidate.name c) nodes).
Proof.
  unfold feasible_for_volumes. revert cs; induction bindings as [|b bs IH]; intros cs; simpl.
  { naive_solver. }
  rewrite IH, in_retain_binding. naive_solver.
Qed.

(** What a chain of [narrow_allowed] allows: the nodes every volume allows. *)
Definition allows (o : option (list string)) (n : string) : Prop :=
  match o with Some l => In n l | None => True end.

Lemma narrow_allowed_spec a b n : allows (narrow_allowed a b) n <-> allows a n /\ allows b n.
Proof.
  destruct a as [la|], b as [lb|]; simpl; try tauto.
  rewrite filter_In, str_in_spec. done.
Qed.

(** ** Booking *)

Lemma spend_names cs n vm : map Candidate.name (spend cs n vm) = map Candidate.name cs.
Proof.
  induction cs as [|c cs IH]; simpl; [done|].
  destruct (String.eqb_spec (Candidate.name c) n); simpl; by rewrite ?IH.
Qed.

(** A candidate as [spend] leaves it. *)
Definition booked (c : Candidate.t) (vm : Vm) : Candidate.t :=
  Candidate.push_hosted
    (Candidate.set_free c (Capacity.minus (Candidate.free c) (Capacity.wanted_by vm)))
    (Hosted.of_ vm).

Lemma spend_in cs n vm c :
  NoDup (map Candidate.name cs) -> In c cs ->
  In (if String.eqb (Candidate.name c) n then booked c vm else c) (spend cs n vm).
Proof.
  induction cs as [|d cs IH]; simpl; [done|]. intros [Hnin Hnd]%NoDup_cons [->|Hin].
  - destruct (String.eqb (Candidate.name c) n); by left.
  - destruct (String.eqb_spec (Candidate.name d) n) as [<-|Hne].
    + destruct (String.eqb_spec (Candidate.name c) (Candidate.name d)) as [He|]; [|by right].
      destruct Hnin. rewrite <- He. apply list_elem_of_In, in_map_iff. eauto.
    + right. by apply IH.
Qed.

(** Exact sums of demands. *)
Definition demand (vms : list Vm) : Capacity.t :=
  foldr (fun v s => capacity_add (Capacity.wanted_by v) s) Capacity.default vms.

(** A pass: VMs placed one after the other, each choice booked before the
    next.  [placed] lists the choices, latest first. *)
Inductive pass (assign : Vm -> list Candidate.t -> option string) (cs : list Candidate.t)
  : list Candidate.t -> list (Vm * string) -> Prop :=
| pass_start : pass assign cs cs []
| pass_place cs' placed vm n :
    pass assign cs cs' placed -> assign vm cs' = Some n ->
    pass assign cs (spend cs' n vm) ((vm, n) :: placed)
| pass_wait cs' placed vm :
    pass assign cs cs' placed -> assign vm cs' = None -> pass assign cs cs' placed.

(** The VMs a pass put on a node. *)
Definition placed_on (n : string) (placed : list (Vm * string)) : list Vm :=
  map fst (List.filter (fun '(_, m) => String.eqb m n) placed).

Lemma unique_by_name cs c d :
  NoDup (map Candidate.name cs) -> In c cs -> In d cs ->
  Candidate.name c = Candidate.name d -> c = d.
Proof.
  induction cs as [|x cs IH]; simpl; [done|]. intros [Hnin Hnd]%NoDup_cons.
  assert (Hx : forall y, In y cs -> Candidate.name y <> Candidate.name x).
  { intros y Hy He. destruct Hnin. rewrite <- He. apply list_elem_of_In, in_map_iff. eauto. }
  intros [->|Hc] [->|Hd] He; [done| | |by apply IH].
  - by destruct (Hx d Hd).
  - by destruct (Hx c Hc).
Qed.

Lemma pass_names assign cs cs' placed :
  pass assign cs cs' placed -> map Candidate.name cs' = map Candidate.name cs.
Proof. induction 1; [done| |done]. by rewrite spend_names. Qed.

Lemma placed_on_cons vm m n placed :
  placed_on n ((vm, m) :: placed)
  = if String.eqb m n then vm :: placed_on n placed else placed_on n placed.
Proof. unfold placed_on. simpl. by destruct (String.eqb m n). Qed.

(** What a pass has done to one candidate. *)
Definition pass_inv (c c' : Candidate.t) (vms : list Vm) : Prop :=
  Candidate.name c' = Candidate.name c /\
  capacity_le (demand vms) (Candidate.free c) /\
  Candidate.free c' = Capacity.minus (Candidate.free c) (demand vms) /\
  Candidate.hosted c' = Candidate.hosted c ++ map Hosted.of_ (rev vms).

Lemma pass_inv_booked c c' vms vm :
  pass_inv c c' vms -> Capacity.fits_in (Capacity.wanted_by vm) (Candidate.free c') = true ->
  pass_inv c (booked c' vm) (vm :: vms).
Proof.
  intros (Hn & Hle & Hf & Hh) Hfit. rewrite Hf in Hfit.
  apply fits_in_minus in Hfit; [|done]. unfold pass_inv, booked. simpl. split_and!; [done| | |].
  - unfold capacity_le, capacity_add in *. simpl in *. lia.
  - rewrite Hf. unfold Capacity.minus, capacity_add. simpl. f_equal; lia.
  - by rewrite Hh, map_app, (assoc app).
Qed.

Lemma pass_invariant assign `{!Scheduler assign} cs cs' placed :
  NoDup (map Candidate.name cs) -> pass assign cs cs' placed ->
  forall c, In c cs -> exists c', In c' cs' /\ pass_inv c c' (placed_on (Candidate.name c) placed).
Proof.
  intros Hnd Hpass. induction Hpass as [|cs' placed vm n Hp IH Ha|cs' placed vm Hp IH Ha];
    [|intros c Hc|done].
  { intros c Hc. exists c. split; [done|]. unfold pass_inv, capacity_le, placed_on. simpl.
    split_and!; [done|lia|lia| |by rewrite app_nil_r].
    unfold Capacity.minus. simpl. rewrite !N.sub_0_r. by destruct (Candidate.free c). }
  destruct (IH c Hc) as (c' & Hc' & Hinv).
  assert (Hnd' : NoDup (map Candidate.name cs')) by (by rewrite (pass_names _ _ _ _ Hp)).
  exists (if String.eqb (Candidate.name c') n then booked c' vm else c').
  split; [by apply spend_in|]. rewrite placed_on_cons.
  replace (String.eqb n (Candidate.name c)) with (String.eqb (Candidate.name c') n)
    by (rewrite String.eqb_sym; by destruct Hinv as [-> _]).
  destruct (String.eqb_spec (Candidate.name c') n) as [Hn|Hn]; [|done].
  apply pass_inv_booked; [done|].
  destruct (assign_feasible _ _ _ Ha) as (d & Hd & Hdn). apply in_feasible in Hd as [Hd Hfd].
  assert (d = c') as -> by (eapply unique_by_name; eauto; congruence).
  unfold feasible_one in Hfd. by bool_hyps.
Qed.

(** A pass cut at one of its placements. *)
Lemma pass_prefix assign cs cs' placed :
  pass assign cs cs' placed -> forall later vm n earlier,
  placed = later ++ (vm, n) :: earlier ->
  exists cs1, pass assign cs cs1 earlier /\ assign vm cs1 = Some n.
Proof.
  induction 1 as [|cs' placed vm n Hp IH Ha|cs' placed vm Hp IH Ha]; intros later v m earlier Heq.
  - by destruct later.
  - destruct later as [|x later]; simplify_eq/=; [eauto|]. by eapply IH.
  - by eapply IH.
Qed.

Lemma no_required_collision_hosted vm c vms w t h :
  no_required_collision vm c = true -> Candidate.hosted c = h ++ map Hosted.of_ (rev vms) ->
  In w vms -> VmSpec.tenant (spec w) = VmSpec.tenant (spec vm) ->
  In t (VmSpec.anti_affinity (spec vm)) -> AntiAffinity.required t = true ->
  selects (AntiAffinity.selector t) (Objects.labels (metadata w)) = false.
Proof.
  unfold no_required_collision. intros Hc Hh Hw Hten Ht Hreq. apply negb_true_iff in Hc.
  pose proof (proj1 (existsb_false _ _) Hc t) as Hcol.
  specialize (Hcol (proj2 (filter_In _ _ _) (conj Ht Hreq))).
  unfold collides in Hcol. pose proof (proj1 (existsb_false _ _) Hcol (Hosted.of_ w)) as H.
  apply H, filter_In. split; [|by apply bool_decide_eq_true].
  rewrite Hh. apply in_app_iff. right. apply in_map, in_rev. by rewrite rev_involutive.
Qed.

(** * Theorems *)

(** The two strategies are sound and complete: both pick a candidate that
    satisfies every hard constraint, leave a VM unplaced exactly when none
    does, pick one free of soft collisions whenever such a candidate exists,
    and Spread's choice hosts the fewest VMs, ties by name, of the preferred
    ones. *)
Theorem strategies_sound vm cs :
  (forall assign, assign = FirstFit_assign \/ assign = Spread_assign ->
     (assign vm cs = None <-> forall c, In c cs -> feasible_one vm c = false) /\
     (forall n, assign vm cs = Some n ->
        exists c, In c cs /\ Candidate.name c = n /\ feasible_one vm c = true /\
          (soft_clean vm c = true \/
           forall d, In d cs -> feasible_one vm d = true -> soft_clean vm d = false))) /\
  (forall n, Spread_assign vm cs = Some n ->
     exists c, Candidate.name c = n /\ In c (preferred vm (feasible vm cs)) /\
       forall d, In d (preferred vm (feasible vm cs)) ->
         (length (Candidate.hosted c) < length (Candidate.hosted d))%nat \/
         (length (Candidate.hosted c) = length (Candidate.hosted d) /\
          String.compare (Candidate.name c) (Candidate.name d) <> Gt)).
Proof.
  split.
  - intros assign Ha.
    assert (Scheduler assign) as Hs by (destruct Ha as [->| ->]; apply _). split.
    + rewrite assign_complete, feasible_eq. apply filter_nil_iff.
    + intros n Hn. assert (exists c, In c (preferred vm (feasible vm cs)) /\ Candidate.name c = n)
        as (c & Hin & Hname).
      { destruct Ha as [->| ->]; [unfold FirstFit_assign in Hn|unfold Spread_assign in Hn].
        - destruct (preferred vm (feasible vm cs)) as [|c l]; [done|]. exists c.
          simpl in Hn. split; [by left|congruence].
        - destruct (min_by _ _) as [c|] eqn:E; [|done].
          apply min_by_some in E as [Hin _]; [|apply _]. exists c. split; [done|congruence]. }
      apply in_preferred in Hin as [Hf Hsoft]. apply in_feasible in Hf as [Hin Hf].
      exists c. split_and!; [done|done|done|]. destruct Hsoft as [|Hsoft]; [by left|right].
      intros d Hd Hfd. apply Hsoft. by apply in_feasible.
  - intros n. unfold Spread_assign. destruct (min_by _ _) as [c|] eqn:E; [|done]. intros [= <-].
    apply min_by_some in E as [Hin Hmin]; [|apply _]. exists c. split_and!; [done|done|].
    intros d Hd. rewrite List.Forall_forall in Hmin. specialize (Hmin d Hd).
    unfold cmp_le, spread_cmp, then_with in Hmin.
    destruct (Nat.compare_spec (length (Candidate.hosted c)) (length (Candidate.hosted d))); auto.
    done.
Qed.

(** A placement pass never overbooks and never breaks a required
    anti-affinity term.  Whatever VMs it is given, with either strategy, the
    exact sum of the sizes it put on a candidate fits in the room the candidate
    had at the start; and no VM lands where an earlier one of its own tenant,
    matched by one of its required terms, was put before it. *)
Theorem pass_never_overbooks assign cs cs' placed c :
  Scheduler assign -> NoDup (map Candidate.name cs) -> pass assign cs cs' placed -> In c cs ->
  capacity_le (demand (placed_on (Candidate.name c) placed)) (Candidate.free c) /\
  (forall later vm earlier w t, placed = later ++ (vm, Candidate.name c) :: earlier ->
     In w (placed_on (Candidate.name c) earlier) ->
     VmSpec.tenant (spec w) = VmSpec.tenant (spec vm) ->
     In t (VmSpec.anti_affinity (spec vm)) -> AntiAffinity.required t = true ->
     selects (AntiAffinity.selector t) (Objects.labels (metadata w)) = false).
Proof.
  intros Hs Hnd Hp Hc. split.
  - destruct (pass_invariant assign cs cs' placed Hnd Hp c Hc) as (c' & _ & _ & Hle & _). done.
  - intros later vm earlier w t Hpl Hw Hten Ht Hreq.
    destruct (pass_prefix _ _ _ _ Hp _ _ _ _ Hpl) as (cs1 & Hp1 & Ha).
    destruct (pass_invariant assign cs cs1 earlier Hnd Hp1 c Hc) as (c1 & Hc1 & Hn1 & _ & _ & Hh).
    destruct (assign_feasible _ _ _ Ha) as (d & Hd & Hdn). apply in_feasible in Hd as [Hd Hf].
    assert (d = c1) as ->.
    { apply (unique_by_name cs1); [by rewrite (pass_names _ _ _ _ Hp1)|done|done|congruence]. }
    unfold feasible_one in Hf. bool_hyps. by eapply no_required_collision_hosted.
Qed.

(** A small fleet and a VM for evaluations. *)
Definition example_candidate (name : string) (mem : N) : Candidate.t :=
  {| Candidate.name := name; Candidate.connected := true; Candidate.alive := true;
     Candidate.schedulable := true; Candidate.unhealthy := [];
     Candidate.free := {| Capacity.vcpus := 8; Capacity.mem_mib := mem |};
     Candidate.catalogue := ["hypervisor/cloud-hypervisor"];
     Candidate.kind := CandidateKind.Node; Candidate.labels := []; Candidate.accepts := [];
     Candidate.hosted := []; Candidate.machine := None |}.

Definition example_vm (name : string) : Vm := new_vm name name 1%Z example_spec.

Lemma pass_never_overbooks_witness :
  let cs := [example_candidate "a" 600; example_candidate "b" 600] in
  let placed := [(example_vm "v2", "b"); (example_vm "v1", "a")] in
  demand (placed_on "a" placed) = {| Capacity.vcpus := 2; Capacity.mem_mib := 512 |} /\
  capacity_le (demand (placed_on "a" placed)) (Candidate.free (example_candidate "a" 600)).
Proof.
  split; [by vm_compute|].
  apply (pass_never_overbooks FirstFit_assign
    [example_candidate "a" 600; example_candidate "b" 600]
    (spend (spend [example_candidate "a" 600; example_candidate "b" 600] "a" (example_vm "v1"))
       "b" (example_vm "v2"))
    [(example_vm "v2", "b"); (example_vm "v1", "a")] (example_candidate "a" 600)).
  - apply _.
  - apply (bool_decide_unpack _). by vm_compute.
  - apply pass_place; [apply pass_place; [apply pass_start|by vm_compute]|by vm_compute].
  - by left.
Defined.

(** Volume locality is enforced exactly: a candidate survives the volume
    filter when it offers the driver every networked volume claims and is on
    the list of every node-local or shared one; the intersection the cloud
    computes with [narrow_allowed] allows exactly the nodes no volume pins
    away from, and no survivor is pinned elsewhere. *)
Theorem volume_constraints_exact bindings cs :
  (forall c, In c (feasible_for_volumes bindings cs) <->
     In c cs /\ forall b, In b bindings ->
       VolumeBinding.pins_elsewhere b (Candidate.name c) = false /\
       (forall d, VolumeBinding.claim b = Some d ->
          offers (Candidate.catalogue c) VOLUME (Some d) = true)) /\
  (forall n, allows (foldl narrow_allowed None (map VolumeBinding.required bindings)) n <->
     forall b, In b bindings -> VolumeBinding.pins_elsewhere b n = false).
Proof.
  assert (Hpin : forall b n, VolumeBinding.pins_elsewhere b n = false <->
                             allows (VolumeBinding.required b) n).
  { intros b n. unfold VolumeBinding.pins_elsewhere, allows.
    destruct (VolumeBinding.required b) as [l|]; simpl; [|tauto].
    rewrite negb_false_iff, existsb_exists. split.
    - by intros (x & Hx & ->%String.eqb_eq).
    - intros H. exists n. by rewrite String.eqb_refl. }
  split.
  - intros c. rewrite in_feasible_for_volumes. unfold allows in Hpin.
    split; intros [Hin H]; (split; [done|]); intros b Hb; destruct (H b Hb) as [H1 H2].
    + split; [|done]. apply Hpin. destruct (VolumeBinding.required b); [|done]. by apply H2.
    + split; [done|]. intros nodes Hr. apply Hpin in H1. by rewrite Hr in H1.
  - intros n. assert (Hfold : forall acc,
      allows (foldl narrow_allowed acc (map VolumeBinding.required bindings)) n <->
      allows acc n /\ forall b, In b bindings -> allows (VolumeBinding.required b) n).
    { induction bindings as [|b bs IH]; intros acc; simpl; [naive_solver|].
      rewrite IH, narrow_allowed_spec. naive_solver. }
    rewrite Hfold. simpl. setoid_rewrite Hpin. tauto.
Qed.
