(* ===== verification/Diagnosis.v ===== *)
(** Why a VM is not placed: the pending reasons and diagnostic cuts of
    [src/shared/controller-api/src/scheduler.rs].  Each cut keeps the
    candidates past one constraint and has a verdict for when none is left; the
    first cut that empties the usable candidates names the reason. *)
From Stdlib Require Import Ascii String NArith ZArith List Bool Lia.
From stdpp Require Import base list strings.
From S2P Require Import Prelude RustStr Json Capability Phase Objects Vm Nics Node Storage Sizing.
From S2P Require Import Placement.

(** * Reasons *)

Module PendingReason.
Inductive t :=
| NoCandidates | NoneUsable | NodeUnhealthy | NoCapacity | ClassRefused | SelectorUnmatched
| Unserved | Split | AntiAffinity | VolumeNotReady | NoNodeForVolume | SecretNotReady
| RoomUnknown.

#[global] Instance t_eq_dec : EqDecision t.
Proof. solve_decision. Defined.

Definition ALL : list t :=
  [NoCandidates; NoneUsable; NodeUnhealthy; ClassRefused; NoCapacity; SelectorUnmatched; Unserved;
   Split; AntiAffinity; VolumeNotReady; NoNodeForVolume; SecretNotReady; RoomUnknown].

(** [iter().position(..)]. *)
Fixpoint position (l : list t) (r : t) : option nat :=
  match l with
  | [] => None
  | x :: l' => if bool_decide (x = r) then Some 0%nat
               else match position l' r with Some i => Some (S i) | None => None end
  end.

(** [index]: the [expect] panics on [None]. *)
Definition index (r : t) : option nat := position ALL r.

Definition as_str (r : t) : string :=
  match r with
  | NoCandidates => "no-candidates"
  | NoneUsable => "none-usable"
  | NodeUnhealthy => "node-unhealthy"
  | ClassRefused => "class-refused"
  | NoCapacity => "no-capacity"
  | SelectorUnmatched => "selector-unmatched"
  | Unserved => "unserved-request"
  | Split => "split-request"
  | AntiAffinity => "anti-affinity"
  | VolumeNotReady => "volume-not-ready"
  | SecretNotReady => "secret-not-ready"
  | NoNodeForVolume => "no-node-for-volume"
  | RoomUnknown => "room-unknown"
  end.

Definition category (r : t) : VmReason.t :=
  match r with
  | VolumeNotReady | SecretNotReady => VmReason.NotReady
  | _ => VmReason.Unplaced
  end.
End PendingReason.

(** [PendingTally]: one [AtomicI64] per slot of [ALL].  [fetch_add] wraps; a
    panic (the [expect] of [index], an index out of range) is [None]. *)
Module PendingTally.
Definition t := list Z.

Definition wrap_i64 (z : Z) : Z := ((z + 2 ^ 63) mod 2 ^ 64 - 2 ^ 63)%Z.

Definition new : t := replicate (length PendingReason.ALL) 0%Z.

Definition note (tally : t) (r : PendingReason.t) : option t :=
  i ← PendingReason.index r;
  n ← tally !! i;
  Some (<[i := wrap_i64 (n + 1)]> tally).

(** What [publish] sets, label by label, in the order of [ALL]. *)
Definition publish (tally : t) : option (list (string * Z)) :=
  mapM (fun r => i ← PendingReason.index r; n ← tally !! i; Some (PendingReason.as_str r, n))
    PendingReason.ALL.

(** A pass: every reason noted in turn. *)
Definition note_all (tally : t) (rs : list PendingReason.t) : option t :=
  foldl (fun acc r => acc ≫= fun tally => note tally r) (Some tally) rs.
End PendingTally.

(** * Sentences *)

Definition wedged (candidates : list Candidate.t) : list Candidate.t :=
  List.filter (fun c => Candidate.connected c && Candidate.schedulable c
                        && match Candidate.unhealthy c with [] => false | _ => true end) candidates.

Definition wedged_sentence (field : list Candidate.t) : string :=
  join ", " (map (fun c => Candidate.name c +:+ " (" +:+ join ", " (Candidate.unhealthy c) +:+ ")")
               (wedged field)).

Definition wedged_message (w : string) : string :=
  "every candidate that is up and willing says something is wrong with itself: " +:+ w.

Definition none_usable_message (n : nat) : string :=
  "none of the " +:+ show_N (N.of_nat n) +:+ " known candidates is both connected and schedulable".

Definition split (wanted : DevicePolicy.t) : PendingReason.t * string :=
  (PendingReason.Split,
   "no single candidate offers all of ["
   +:+ join ", " (map (fun '(d, p) => entry d p) wanted)
   +:+ "] at once, though each part is served somewhere").

(** * The cuts *)

Record Cut := {
  keep : Vm -> Capacity.t -> DevicePolicy.t -> Candidate.t -> bool;
  verdict : Vm -> Capacity.t -> DevicePolicy.t -> list Candidate.t -> PendingReason.t * string;
}.

Definition cut_usable : Cut := {|
  keep := fun _ _ _ _ => true;
  verdict := fun _ _ _ field =>
    match field with
    | [] => (PendingReason.NoCandidates, "no candidates are known here yet")
    | _ =>
        let wedged := wedged_sentence field in
        if negb (str_is_empty wedged) then (PendingReason.NodeUnhealthy, wedged_message wedged)
        else (PendingReason.NoneUsable, none_usable_message (length field))
    end
|}.

Definition cut_class : Cut := {|
  keep := fun vm _ _ c => accepts_class (Candidate.accepts c) (VmSpec.class (spec vm));
  verdict := fun vm _ _ field =>
    let takers := map (fun c => Candidate.name c +:+ " (" +:+ join ", " (Candidate.accepts c) +:+ ")")
                    (List.filter is_usable field) in
    (PendingReason.ClassRefused,
     "no candidate accepts the class " +:+ debug (VmSpec.class (spec vm)) +:+ ": "
     +:+ join ", " takers)
|}.

Definition cut_room : Cut := {|
  keep := fun _ size _ c => Capacity.fits_in size (Candidate.free c);
  verdict := fun _ size _ field =>
    let biggest := unwrap_or Capacity.default
                     (max_by room_cmp (map Candidate.free (List.filter is_usable field))) in
    (PendingReason.NoCapacity,
     "no candidate has room for " +:+ show_N (Capacity.vcpus size) +:+ " vcpu and "
     +:+ show_N (Capacity.mem_mib size) +:+ " MiB; the roomiest has "
     +:+ show_N (Capacity.vcpus biggest) +:+ " vcpu and " +:+ show_N (Capacity.mem_mib biggest)
     +:+ " MiB free")
|}.

Definition cut_selector : Cut := {|
  keep := fun vm _ _ c => selects (selector_for vm (Candidate.kind c)) (Candidate.labels c);
  verdict := fun vm _ _ field =>
    let kind := match List.find is_usable field with
                | Some c => Candidate.kind c
                | None => CandidateKind.Node
                end in
    let asked := join ", " (map (fun '(k, v) => k +:+ "=" +:+ v) (selector_for vm kind)) in
    (PendingReason.SelectorUnmatched,
     "no candidate carries the labels this vm selects [" +:+ asked +:+ "]")
|}.

Definition cut_catalogue : Cut := {|
  keep := fun _ _ wanted c => DevicePolicy.met_by wanted (Candidate.catalogue c);
  verdict := fun _ _ wanted field =>
    match DevicePolicy.unmet wanted field with
    | [] => split wanted
    | unmet => (PendingReason.Unserved,
                "no connected candidate offers [" +:+ join ", " unmet +:+ "]")
    end
|}.

Definition cut_anti_affinity : Cut := {|
  keep := fun vm _ _ c => no_required_collision vm c;
  verdict := fun _ _ _ _ =>
    (PendingReason.AntiAffinity,
     "every candidate that would otherwise do already holds a vm this one must stay away from")
|}.

Definition CUTS : list Cut :=
  [cut_usable; cut_class; cut_room; cut_selector; cut_catalogue; cut_anti_affinity].

(** The loop of [pending_reason_of] over the remaining cuts. *)
Fixpoint walk_cuts (vm : Vm) (size : Capacity.t) (wanted : DevicePolicy.t) (cuts : list Cut)
    (field : list Candidate.t) : PendingReason.t * string :=
  match cuts with
  | [] => split wanted
  | cut :: cuts' =>
      let next := List.filter (fun c => negb (is_usable c) || keep cut vm size wanted c) field in
      if negb (existsb is_usable next) then verdict cut vm size wanted field
      else walk_cuts vm size wanted cuts' next
  end.

Definition pending_reason_of (vm : Vm) (candidates : list Candidate.t) : PendingReason.t * string :=
  walk_cuts vm (Capacity.wanted_by vm) (DevicePolicy.of_ vm) CUTS candidates.

Definition pending_reason (vm : Vm) (candidates : list Candidate.t) : string :=
  (pending_reason_of vm candidates).2.

(** * Storage and volumes *)

Definition storage_pending_reason (policy : StoragePolicy.t) (pool : string)
    (candidates : list Candidate.t) : PendingReason.t * string :=
  match candidates with
  | [] => (PendingReason.NoCandidates, "no candidates are known here yet")
  | _ =>
      match usable candidates with
      | [] =>
          let wedged := wedged_sentence candidates in
          if negb (str_is_empty wedged) then (PendingReason.NodeUnhealthy, wedged_message wedged)
          else (PendingReason.NoneUsable, none_usable_message (length candidates))
      | us =>
          match List.filter (fun c => offers (Candidate.catalogue c) VOLUME
                                        (Some (StoragePolicy.driver policy))) us with
          | [] =>
              (PendingReason.Unserved,
               "no connected candidate offers [" +:+ StoragePolicy.wanted policy
               +:+ "], which storage pool " +:+ pool +:+ " is made of")
          | _ =>
              (PendingReason.Unserved,
               "storage pool " +:+ pool +:+ " names [" +:+ join ", " (StoragePolicy.nodes policy)
               +:+ "], and none of them is a connected candidate that offers "
               +:+ StoragePolicy.wanted policy)
          end
      end
  end.

Fixpoint volume_pending_reason_from (all rest : list VolumeBinding.t) (candidates : list Candidate.t)
    : PendingReason.t * string :=
  match rest with
  | [] =>
      (PendingReason.Split,
       "no single candidate can reach all " +:+ show_N (N.of_nat (length all))
       +:+ " of this vm's volumes at once")
  | binding :: rest' =>
      match VolumeBinding.required binding with
      | None => volume_pending_reason_from all rest' candidates
      | Some nodes =>
          if existsb (fun c => existsb (fun n => String.eqb n (Candidate.name c)) nodes) candidates
          then volume_pending_reason_from all rest' candidates
          else
            let locality := match VolumeBinding.locality binding with
                            | Some l => Locality.as_str l
                            | None => "of unknown locality"
                            end in
            (PendingReason.NoNodeForVolume,
             "volume " +:+ VolumeBinding.volume binding +:+ " is " +:+ locality +:+ " and lives on ["
             +:+ join ", " nodes
             +:+ "]; none of them is a candidate that can also run this vm")
      end
  end.

Definition volume_pending_reason (bindings : list VolumeBinding.t) (candidates : list Candidate.t)
    : PendingReason.t * string := volume_pending_reason_from bindings bindings candidates.

(** The [state] closure of [volume_nodes_unusable]. *)
Definition unusable_state (c : Candidate.t) : string :=
  if negb (Candidate.connected c) then "not connected"
  else if negb (Candidate.schedulable c) then "drained"
  else "reporting " +:+ join ", " (Candidate.unhealthy c).

Definition volume_nodes_unusable (bindings : list VolumeBinding.t) (allowed : list Candidate.t)
    : option (PendingReason.t * string) :=
  if forallb (fun b => negb (is_some (VolumeBinding.required b))) bindings then None
  else match allowed with
  | [] => None
  | c0 :: _ =>
      if existsb is_usable allowed then None
      else
        let names := map Candidate.name allowed in
        let first := unusable_state c0 in
        let sentence :=
          if forallb (fun c => String.eqb (unusable_state c) first) allowed then
            match names with
            | [only] => "the node holding this vm's volumes (" +:+ only +:+ ") is " +:+ first
            | _ => "the nodes holding this vm's volumes (" +:+ join ", " names +:+ ") are " +:+ first
            end
          else "no node holding this vm's volumes can take it: "
               +:+ join ", " (map (fun c => Candidate.name c +:+ " is " +:+ unusable_state c) allowed)
        in
        Some (PendingReason.NoNodeForVolume, sentence)
  end.

(** * Lemmas *)

Definition keeps (vm : Vm) (cuts : list Cut) (c : Candidate.t) : bool :=
  forallb (fun cut => keep cut vm (Capacity.wanted_by vm) (DevicePolicy.of_ vm) c) cuts.

(** What the loop holds in [field] after the cuts [pre]. *)
Definition field_after (vm : Vm) (pre : list Cut) (cs : list Candidate.t) : list Candidate.t :=
  List.filter (fun c => negb (is_usable c) || keeps vm pre c) cs.

(** A usable candidate past the cuts [pre]. *)
Definition survives (vm : Vm) (pre : list Cut) (cs : list Candidate.t) : Prop :=
  exists c, In c cs /\ is_usable c = true /\ keeps vm pre c = true.

Lemma keeps_snoc vm pre cut c :
  keeps vm (pre ++ [cut]) c
  = keeps vm pre c && keep cut vm (Capacity.wanted_by vm) (DevicePolicy.of_ vm) c.
Proof. unfold keeps. rewrite forallb_app. simpl. by rewrite andb_true_r. Qed.

Lemma field_after_snoc vm pre cut cs :
  List.filter (fun c => negb (is_usable c)
                 || keep cut vm (Capacity.wanted_by vm) (DevicePolicy.of_ vm) c)
    (field_after vm pre cs) = field_after vm (pre ++ [cut]) cs.
Proof.
  unfold field_after. rewrite filter_filter_and. apply filter_ext. intros c.
  rewrite keeps_snoc. by destruct (is_usable c), (keeps vm pre c).
Qed.

Lemma existsb_field_after vm pre cs :
  existsb is_usable (field_after vm pre cs) = true <-> survives vm pre cs.
Proof.
  rewrite existsb_exists. unfold field_after, survives. split.
  - intros (c & [Hin Hk]%filter_In & Hu). exists c. rewrite Hu in Hk. simpl in Hk. auto.
  - intros (c & Hin & Hu & Hk). exists c. split; [|done]. apply filter_In.
    rewrite Hk, orb_true_r. auto.
Qed.

(** The loop stops at the first cut with no usable survivor. *)
Lemma walk_cuts_spec vm cs post pre :
  (exists mid cut rest, post = mid ++ cut :: rest
    /\ walk_cuts vm (Capacity.wanted_by vm) (DevicePolicy.of_ vm) post (field_after vm pre cs)
       = verdict cut vm (Capacity.wanted_by vm) (DevicePolicy.of_ vm)
           (field_after vm (pre ++ mid) cs)
    /\ ~ survives vm (pre ++ mid ++ [cut]) cs
    /\ (mid <> [] -> survives vm (pre ++ mid) cs))
  \/ (walk_cuts vm (Capacity.wanted_by vm) (DevicePolicy.of_ vm) post (field_after vm pre cs)
      = split (DevicePolicy.of_ vm)
      /\ (post <> [] -> survives vm (pre ++ post) cs)).
Proof.
  revert pre. induction post as [|cut post IH]; intros pre; simpl; [by right|].
  rewrite field_after_snoc. destruct (existsb is_usable _) eqn:E; simpl.
  - apply existsb_field_after in E.
    destruct (IH (pre ++ [cut])) as [(mid & cut' & rest & -> & Hw & Hn & Hs)|[Hw Hs]].
    + left. exists (cut :: mid), cut', rest. rewrite <- !app_assoc in Hw, Hn, Hs. simpl in *.
      split_and!; [done..|]. intros _. destruct mid; [done|]. by apply Hs.
    + right. rewrite <- app_assoc in Hs. split; [done|]. intros _.
      destruct post; [done|]. by apply Hs.
  - left. exists [], cut, post. rewrite app_nil_r. split_and!; [done..| |done].
    intros Hs. apply existsb_field_after in Hs. simpl in Hs. congruence.
Qed.

(** ** What each reason means *)

Definition some_candidate (p : Candidate.t -> bool) (cs : list Candidate.t) : Prop :=
  exists c, In c cs /\ p c = true.

Definition no_candidate (p : Candidate.t -> bool) (cs : list Candidate.t) : Prop :=
  forall c, In c cs -> p c = false.

(** The constraints in the order they are diagnosed. *)
Definition takes_class (vm : Vm) (c : Candidate.t) : bool :=
  is_usable c && accepts_class (Candidate.accepts c) (VmSpec.class (spec vm)).
Definition has_room (vm : Vm) (c : Candidate.t) : bool :=
  takes_class vm c && Capacity.fits_in (Capacity.wanted_by vm) (Candidate.free c).
Definition selected (vm : Vm) (c : Candidate.t) : bool :=
  has_room vm c && selects (selector_for vm (Candidate.kind c)) (Candidate.labels c).
Definition serves (vm : Vm) (c : Candidate.t) : bool :=
  selected vm c && DevicePolicy.met_by (DevicePolicy.of_ vm) (Candidate.catalogue c).

(** Whose catalogue the [Unserved] sentence looks at: the selected candidates
    and those up and willing that report a health problem. *)
Definition asked_for_parts (vm : Vm) (c : Candidate.t) : bool :=
  Candidate.connected c && Candidate.schedulable c && (negb (is_usable c) || selected vm c).

Definition explained (vm : Vm) (cs : list Candidate.t) (r : PendingReason.t) : Prop :=
  match r with
  | PendingReason.NoCandidates => cs = []
  | PendingReason.NodeUnhealthy => usable cs = [] /\ wedged cs <> []
  | PendingReason.NoneUsable => cs <> [] /\ usable cs = [] /\ wedged cs = []
  | PendingReason.ClassRefused => some_candidate is_usable cs /\ no_candidate (takes_class vm) cs
  | PendingReason.NoCapacity =>
      some_candidate (takes_class vm) cs /\ no_candidate (has_room vm) cs
  | PendingReason.SelectorUnmatched =>
      some_candidate (has_room vm) cs /\ no_candidate (selected vm) cs
  | PendingReason.Unserved =>
      some_candidate (selected vm) cs
      /\ exists d p, In (d, p) (DevicePolicy.of_ vm)
         /\ forall c, In c cs -> asked_for_parts vm c = true -> offers (Candidate.catalogue c) d p = false
  | PendingReason.Split =>
      feasible vm cs <> []
      \/ (some_candidate (selected vm) cs /\ no_candidate (serves vm) cs
          /\ forall d p, In (d, p) (DevicePolicy.of_ vm) ->
             exists c, In c cs /\ asked_for_parts vm c = true /\ offers (Candidate.catalogue c) d p = true)
  | PendingReason.AntiAffinity => some_candidate (serves vm) cs /\ feasible vm cs = []
  | _ => False
  end.

Lemma survives_some vm pre cs p :
  (forall c, p c = is_usable c && keeps vm pre c) -> survives vm pre cs <-> some_candidate p cs.
Proof.
  intros Hp. unfold survives, some_candidate.
  split; intros (c & Hin & H); exists c; rewrite Hp, andb_true_iff in *; tauto.
Qed.

Lemma not_survives vm pre cs p :
  (forall c, p c = is_usable c && keeps vm pre c) -> ~ survives vm pre cs -> no_candidate p cs.
Proof.
  intros Hp Hn c Hin. destruct (p c) eqn:E; [|done]. exfalso. apply Hn.
  apply (survives_some vm pre cs p Hp). by exists c.
Qed.

Ltac stage := intros ?; unfold serves, selected, has_room, takes_class, keeps; simpl;
  rewrite ?andb_true_r, ?andb_assoc; reflexivity.

Lemma wedged_sentence_empty cs : str_is_empty (wedged_sentence cs) = true <-> wedged cs = [].
Proof.
  unfold wedged_sentence. destruct (wedged cs) as [|c l]; [done|]. split; [|done].
  simpl. destruct (map _ l); simpl; destruct (Candidate.name c); simpl; done.
Qed.

(** The four cuts before the catalogue. *)
Definition before_catalogue : list Cut := [cut_usable; cut_class; cut_room; cut_selector].

Lemma in_asked_for_parts vm cs c :
  In c (List.filter (fun c => Candidate.connected c && Candidate.schedulable c)
          (field_after vm before_catalogue cs))
  <-> In c cs /\ asked_for_parts vm c = true.
Proof.
  unfold field_after. rewrite filter_filter_and, filter_In.
  replace (asked_for_parts vm c) with ((negb (is_usable c) || keeps vm before_catalogue c)
    && (Candidate.connected c && Candidate.schedulable c)); [done|].
  rewrite andb_comm. unfold asked_for_parts, selected, has_room, takes_class, keeps. f_equal. simpl.
  destruct (is_usable c); [simpl|done]. by rewrite andb_true_r, !andb_assoc.
Qed.

Lemma unmet_none vm cs :
  DevicePolicy.unmet (DevicePolicy.of_ vm) (field_after vm before_catalogue cs) = []
  <-> forall d p, In (d, p) (DevicePolicy.of_ vm) ->
      exists c, In c cs /\ asked_for_parts vm c = true /\ offers (Candidate.catalogue c) d p = true.
Proof.
  unfold DevicePolicy.unmet. split.
  - intros H%map_eq_nil d p Hin. rewrite filter_nil_iff in H. specialize (H _ Hin). simpl in H.
    apply negb_false_iff, existsb_exists in H as (c & [??]%in_asked_for_parts & ?). by exists c.
  - intros H. rewrite (proj2 (filter_nil_iff _ _)); [done|]. intros [d p] Hin.
    destruct (H d p Hin) as (c & ? & ? & ?). apply negb_false_iff, existsb_exists.
    exists c. by rewrite in_asked_for_parts.
Qed.

Lemma unmet_some vm cs e l :
  DevicePolicy.unmet (DevicePolicy.of_ vm) (field_after vm before_catalogue cs) = e :: l ->
  exists d p, In (d, p) (DevicePolicy.of_ vm)
    /\ forall c, In c cs -> asked_for_parts vm c = true -> offers (Candidate.catalogue c) d p = false.
Proof.
  unfold DevicePolicy.unmet. intros H.
  destruct (List.filter _ (DevicePolicy.of_ vm)) as [|[d p] ?] eqn:E; [done|].
  assert (Hin : In (d, p) ((d, p) :: l0)) by by left. rewrite <- E in Hin.
  apply filter_In in Hin as [Hin Hno]. apply negb_true_iff in Hno. exists d, p.
  split; [done|]. intros c Hc Ha. rewrite existsb_false in Hno. apply Hno. by rewrite in_asked_for_parts.
Qed.

Lemma field_after_first vm cs : field_after vm [] cs = cs.
Proof.
  unfold field_after. induction cs as [|c cs IH]; [done|].
  simpl. rewrite orb_true_r. by f_equal.
Qed.

Lemma usable_verdict_explained vm cs :
  ~ survives vm [cut_usable] cs ->
  explained vm cs (verdict cut_usable vm (Capacity.wanted_by vm) (DevicePolicy.of_ vm) cs).1.
Proof.
  intros Hn. assert (Hu : usable cs = []).
  { apply filter_nil_iff. apply (not_survives vm [cut_usable]); [|done]. intros c. simpl.
    by rewrite andb_true_r. }
  pose proof (wedged_sentence_empty cs) as Hw. cbn [verdict cut_usable].
  destruct cs as [|c cs]; [done|].
  destruct (str_is_empty (wedged_sentence (c :: cs))); cbn [negb fst explained].
  - split_and!; [done..|]. by apply Hw.
  - split; [done|]. intros H. by apply Hw in H.
Qed.

Lemma catalogue_verdict_explained vm cs :
  survives vm before_catalogue cs -> ~ survives vm (before_catalogue ++ [cut_catalogue]) cs ->
  explained vm cs (verdict cut_catalogue vm (Capacity.wanted_by vm) (DevicePolicy.of_ vm)
                     (field_after vm before_catalogue cs)).1.
Proof.
  intros Hs Hn. apply (survives_some vm _ cs (selected vm)) in Hs; [|stage].
  apply (not_survives vm _ cs (serves vm)) in Hn; [|stage].
  cbn [verdict cut_catalogue]. destruct (DevicePolicy.unmet _ _) as [|e l] eqn:E.
  - right. split_and!; [done..|]. by apply unmet_none.
  - split; [done|]. by eapply unmet_some.
Qed.

Lemma feasible_survives vm cs : survives vm CUTS cs <-> feasible vm cs <> [].
Proof.
  rewrite (survives_some vm CUTS cs (feasible_one vm)).
  2:{ intros c. unfold feasible_one, keeps. simpl. by rewrite !andb_true_r, !andb_assoc. }
  rewrite feasible_eq. unfold some_candidate. split.
  - intros (c & Hin & Hf) H. rewrite filter_nil_iff in H. rewrite (H c Hin) in Hf. done.
  - destruct (List.filter (feasible_one vm) cs) as [|c l] eqn:E; [done|]. intros _. exists c.
    apply filter_In. rewrite E. by left.
Qed.

(** * Properties *)


(** A healthy node without the GPU and an unhealthy one that has it. *)
Definition gpu_vm : Vm :=
  new_vm "v" "v" 1%Z
    {| VmSpec.node_name := None; VmSpec.cluster_name := None;
       VmSpec.run_strategy := RunStrategy.Running; VmSpec.evacuation := Evacuation.Never;
       VmSpec.tenant := None; VmSpec.class_ := ""; VmSpec.cluster_selector := [];
       VmSpec.node_selector := []; VmSpec.anti_affinity := [];
       VmSpec.vm := Json.Object [("devices", Array [Json.Object [("driver", Str "nvrm")]])] |}.

Definition wedged_gpu_node : Candidate.t :=
  {| Candidate.name := "b"; Candidate.connected := true; Candidate.alive := true;
     Candidate.schedulable := true; Candidate.unhealthy := ["DiskPressure"];
     Candidate.free := {| Capacity.vcpus := 8; Capacity.mem_mib := 4096 |};
     Candidate.catalogue := ["hypervisor/cloud-hypervisor"; "nvrm"];
     Candidate.kind := CandidateKind.Node; Candidate.labels := []; Candidate.accepts := [];
     Candidate.hosted := []; Candidate.machine := None |}.

(** The [Split] sentence can be wrong: where the only candidate offering
    everything is up and willing but reports a health problem, the reason is
    [Split], "no single candidate offers all of it at once", although that
    candidate does; its health is never mentioned. *)
Theorem split_overlooks_unhealthy :
  let cs := [example_candidate "a" 4096; wedged_gpu_node] in
  pending_reason_of gpu_vm cs
  = (PendingReason.Split,
     "no single candidate offers all of [nvrm, hypervisor] at once, though each part is served somewhere")
  /\ In wedged_gpu_node cs
  /\ DevicePolicy.met_by (DevicePolicy.of_ gpu_vm) (Candidate.catalogue wedged_gpu_node) = true.
Proof. simpl. split_and!; [by vm_compute|auto|by vm_compute]. Qed.

(** ** The tally *)

Module TallyFacts.
Lemma index_total r :
  exists i, PendingReason.index r = Some i /\ PendingReason.ALL !! i = Some r.
Proof. destruct r; eexists; split; reflexivity. Qed.

Lemma index_inj r r' i :
  PendingReason.index r = Some i -> PendingReason.index r' = Some i -> r = r'.
Proof.
  intros H H'. destruct (index_total r) as (j & Hj & Hr), (index_total r') as (k & Hk & Hr').
  congruence.
Qed.

Definition count (r : PendingReason.t) (rs : list PendingReason.t) : Z :=
  Z.of_nat (length (List.filter (fun x => bool_decide (x = r)) rs)).

(** The tally holds the counts of [rs]. *)
Definition counts (tally : PendingTally.t) (rs : list PendingReason.t) : Prop :=
  length tally = length PendingReason.ALL
  /\ forall r i, PendingReason.index r = Some i -> tally !! i = Some (count r rs).

Lemma count_snoc r rs x :
  count r (rs ++ [x]) = (count r rs + if bool_decide (x = r) then 1 else 0)%Z.
Proof.
  unfold count. rewrite List.filter_app, length_app. simpl. case_bool_decide; simpl; lia.
Qed.

Lemma count_le r rs : (0 <= count r rs <= Z.of_nat (length rs))%Z.
Proof. unfold count. pose proof (List.filter_length_le (fun x => bool_decide (x = r)) rs). lia. Qed.

Lemma wrap_small z : (0 <= z < 2 ^ 63)%Z -> PendingTally.wrap_i64 z = z.
Proof. intros H. unfold PendingTally.wrap_i64. rewrite Z.mod_small; lia. Qed.

Lemma note_counts tally rs r :
  counts tally rs -> (Z.of_nat (length rs) < 2 ^ 63 - 1)%Z ->
  exists tally', PendingTally.note tally r = Some tally' /\ counts tally' (rs ++ [r]).
Proof.
  intros [Hl Hc] Hn. destruct (index_total r) as (i & Hi & _).
  unfold PendingTally.note. rewrite Hi. simpl. rewrite (Hc r i Hi). simpl.
  pose proof (count_le r rs). rewrite wrap_small by lia. eexists. split; [done|].
  split; [by etrans; [apply length_insert|]|]. intros r' j Hj. rewrite count_snoc.
  destruct (decide (i = j)) as [->|Hne].
  - rewrite (index_inj r r' j Hi Hj), bool_decide_true by done.
    apply list_lookup_insert_eq. eapply lookup_lt_Some, Hc, Hj.
  - rewrite bool_decide_false by (intros ->; congruence). rewrite Z.add_0_r.
    etrans; [by apply list_lookup_insert_ne|]. by apply Hc.
Qed.

Lemma note_all_counts rs tally done_ :
  counts tally done_ -> (Z.of_nat (length (done_ ++ rs)) < 2 ^ 63)%Z ->
  exists tally', PendingTally.note_all tally rs = Some tally' /\ counts tally' (done_ ++ rs).
Proof.
  unfold PendingTally.note_all. revert tally done_. induction rs as [|r rs IH]; intros tally d Hc Hn.
  - exists tally. by rewrite app_nil_r.
  - destruct (note_counts tally d r Hc) as (t' & Ht & Hc'); [rewrite length_app in Hn; simpl in Hn; lia|].
    simpl. rewrite Ht. destruct (IH t' (d ++ [r]) Hc') as (t'' & Ht'' & Hc'');
      [by rewrite <- app_assoc|]. exists t''. by rewrite <- app_assoc in Hc''.
Qed.
End TallyFacts.

(** A pass's tally publishes, under every label and in the order of [ALL],
    exactly how many VMs were noted for that reason, zero included; no slot is
    shared by two reasons and no [index] panics. *)
Theorem tally_publishes_counts rs :
  (Z.of_nat (length rs) < 2 ^ 63)%Z ->
  exists tally, PendingTally.note_all PendingTally.new rs = Some tally
    /\ PendingTally.publish tally
       = Some (map (fun r => (PendingReason.as_str r, TallyFacts.count r rs)) PendingReason.ALL).
Proof.
  intros Hn. destruct (TallyFacts.note_all_counts rs PendingTally.new []) as (t & Ht & _ & Hc).
  - split; [done|]. intros r i Hi. destruct r; injection Hi as <-; done.
  - done.
  - exists t. split; [done|]. unfold PendingTally.publish. apply mapM_Some_2.
    apply Forall2_fmap_r, Forall_Forall2_diag, Forall_forall.
    intros r _. destruct (TallyFacts.index_total r) as (i & Hi & _). rewrite Hi. simpl.
    by rewrite (Hc r i Hi).
Qed.

Lemma tally_publishes_counts_witness :
  exists tally,
    PendingTally.note_all PendingTally.new [PendingReason.Split; PendingReason.NoCapacity; PendingReason.Split]
    = Some tally
    /\ PendingTally.publish tally
       = Some (map (fun r => (PendingReason.as_str r,
           TallyFacts.count r [PendingReason.Split; PendingReason.NoCapacity; PendingReason.Split]))
           PendingReason.ALL).
Proof. apply tally_publishes_counts. reflexivity. Defined.
