(* ===== verification/Rooms.v ===== *)
(** One node's room as the cloud measures it: [NodeDemand], [NodeRoom],
    [node_rooms] and [roomiest] of
    [src/shared/controller-api/src/scheduler.rs].  A cluster's capacity is a
    sum; a VM needs one node of it. *)
From Stdlib Require Import Ascii String NArith ZArith List Bool Lia.
From stdpp Require Import base list strings.
From S2P Require Import Prelude RustStr Json Float64 Capability Phase Objects Vm Node Storage.
From S2P Require Import Sizing Placement.

(** * Rooms *)

Module NodeRoom.
Record t := { node : NodeSummary.t; room : Capacity.t }.

Definition set_room (r : t) (c : Capacity.t) : t := {| node := node r; room := c |}.

Definition reported (n : NodeSummary.t) (overcommit : Overcommit.t) : t :=
  let capacity := {| Capacity.vcpus := NodeSummary.vcpus n; Capacity.mem_mib := NodeSummary.mem_mib n |} in
  let bound := {| Capacity.vcpus := NodeSummary.bound_vcpus n;
                  Capacity.mem_mib := NodeSummary.bound_mem_mib n |} in
  {| node := n; room := Capacity.minus (Overcommit.allowance overcommit capacity) bound |}.

Definition takes (r : t) (size : Capacity.t) : bool :=
  NodeSummary.usable (node r) && Capacity.fits_in size (room r).
End NodeRoom.

(** Memory, then vCPUs, then the name backwards. *)
Definition roomier (a b : nat * NodeRoom.t) : comparison :=
  then_with (room_cmp (NodeRoom.room a.2) (NodeRoom.room b.2))
    (String.compare (NodeSummary.name (NodeRoom.node b.2)) (NodeSummary.name (NodeRoom.node a.2))).

Definition roomiest (rooms : list NodeRoom.t) (size : Capacity.t) (wants : NodeRoom.t -> bool)
    : option nat :=
  match max_by roomier
          (List.filter (fun '(_, r) => NodeRoom.takes r size && wants r) (enumerate rooms)) with
  | Some (at_, _) => Some at_
  | None => None
  end.

(** [rooms[at].room = rooms[at].room.minus(size)]. *)
Definition take_off (rooms : list NodeRoom.t) (at_ : nat) (size : Capacity.t) : list NodeRoom.t :=
  alter (fun r => NodeRoom.set_room r (Capacity.minus (NodeRoom.room r) size)) at_ rooms.

(** One iteration of the loop of [node_rooms]. *)
Definition charge (rooms : list NodeRoom.t) (size : Capacity.t) : list NodeRoom.t :=
  match roomiest rooms size (fun _ => true) with
  | Some at_ => take_off rooms at_ size
  | None => rooms
  end.

Definition node_rooms (nodes : list NodeSummary.t) (overcommit : Overcommit.t)
    (unplaced : list Capacity.t) : list NodeRoom.t :=
  foldl charge (map (fun n => NodeRoom.reported n overcommit) nodes) unplaced.

(** * Demands *)

Module NodeDemand.
Record t := {
  selector : smap string;
  allowed : option (list string);
  size : Capacity.t;
  class : string;
}.

Definition wants (d : t) (n : NodeSummary.t) : bool :=
  selects (selector d) (NodeSummary.labels n)
  && is_none_or (fun allowed => existsb (fun a => String.eqb a (NodeSummary.name n)) allowed) (allowed d)
  && accepts_class (NodeSummary.accepts n) (class d).

Definition node_for (d : t) (rooms : list NodeRoom.t) : option nat :=
  roomiest rooms (size d) (fun r => wants d (NodeRoom.node r)).

Definition met_by_a_node (d : t) (rooms : list NodeRoom.t) : bool := is_some (node_for d rooms).

Definition debit (d : t) (rooms : list NodeRoom.t) : bool * list NodeRoom.t :=
  match node_for d rooms with
  | None => (false, rooms)
  | Some at_ => (true, take_off rooms at_ (size d))
  end.

Definition debit_each (d : t) (rooms : list NodeRoom.t) : list NodeRoom.t :=
  map (fun r => if NodeRoom.takes r (size d) && wants d (NodeRoom.node r)
                then NodeRoom.set_room r (Capacity.minus (NodeRoom.room r) (size d)) else r) rooms.
End NodeDemand.

(** * Lemmas *)

Lemma in_enumerate_lookup {A} (l : list A) i x : In (i, x) (enumerate l) <-> l !! i = Some x.
Proof.
  unfold enumerate.
  assert (H : forall k, In (i, x) (combine (seq k (length l)) l) <-> (k <= i)%nat /\ l !! (i - k)%nat = Some x).
  { induction l as [|y l IH]; intros k; simpl; [by split; [|intros [_ ?]]|].
    rewrite IH. destruct (Nat.lt_trichotomy i k) as [Hlt|[->|Hgt]].
    - split; [intros [[= -> ->]|[??]]; lia | intros [??]; lia].
    - rewrite Nat.sub_diag. simpl. split; [intros [[= ->]|[??]]; [auto|lia]|].
      intros [_ [= ->]]. by left.
    - replace (i - k)%nat with (S (i - S k)) by lia. simpl.
      split; [intros [[= -> ->]|[??]]; [lia|split; [lia|done]]|]. intros [_ ?]. right. split; [lia|done]. }
  rewrite H, Nat.sub_0_r. split; [by intros [_ ?]|]. intros ?. split; [lia|done].
Qed.

#[export] Instance room_cmp_total : CmpTotal room_cmp.
Proof.
  apply (then_with_total (fun a b => N.compare (Capacity.mem_mib a) (Capacity.mem_mib b))
    (fun a b => N.compare (Capacity.vcpus a) (Capacity.vcpus b))).
Qed.

(** Not an instance: it would apply to itself for ever. *)
Lemma flip_total {A} (c : A -> A -> comparison) `{!CmpTotal c} : CmpTotal (fun a b => c b a).
Proof.
  split; intros; [apply cmp_antisym | by eapply (cmp_le_trans (cmp := c))].
Qed.

#[export] Instance roomier_total : CmpTotal roomier.
Proof.
  pose proof (flip_total (fun a b : nat * NodeRoom.t =>
    String.compare (NodeSummary.name (NodeRoom.node a.2)) (NodeSummary.name (NodeRoom.node b.2)))).
  pose proof (on_key_total (fun a : nat * NodeRoom.t => NodeRoom.room a.2) room_cmp).
  by apply then_with_total.
Qed.

Lemma in_eligible rooms size wants i r :
  In (i, r) (List.filter (fun '(_, r) => NodeRoom.takes r size && wants r) (enumerate rooms))
  <-> rooms !! i = Some r /\ NodeRoom.takes r size = true /\ wants r = true.
Proof. rewrite filter_In, in_enumerate_lookup, andb_true_iff. done. Qed.

Lemma roomiest_some rooms size wants i :
  roomiest rooms size wants = Some i ->
  exists r, rooms !! i = Some r /\ NodeRoom.takes r size = true /\ wants r = true
    /\ forall j r', rooms !! j = Some r' -> NodeRoom.takes r' size = true -> wants r' = true ->
       roomier (j, r') (i, r) <> Gt.
Proof.
  unfold roomiest. destruct (max_by roomier _) as [[k r]|] eqn:E; [|done]. intros [= ->].
  apply max_by_some in E as [Hin Hmax]; [|apply _].
  apply in_eligible in Hin as (? & ? & ?). exists r. split_and!; [done..|].
  intros j r' ???. rewrite List.Forall_forall in Hmax. apply (Hmax (j, r')). by apply in_eligible.
Qed.

Lemma roomiest_none rooms size wants :
  roomiest rooms size wants = None <->
  forall i r, rooms !! i = Some r -> NodeRoom.takes r size && wants r = false.
Proof.
  unfold roomiest. destruct (max_by roomier _) as [[k r]|] eqn:E.
  - split; [done|]. intros H. apply max_by_some in E as [Hin _]; [|apply _].
    apply in_eligible in Hin as (Hk & Ht & Hw). specialize (H _ _ Hk). by rewrite Ht, Hw in H.
  - apply max_by_none in E. split; [|done]. intros _ i r Hi.
    destruct (_ && _) eqn:Ht; [|done]. apply andb_true_iff in Ht as [??].
    assert (Hin : In (i, r) []) by (rewrite <- E; by apply in_eligible). done.
Qed.

Lemma takes_spec r size :
  NodeRoom.takes r size = true
  <-> NodeSummary.usable (NodeRoom.node r) = true /\ capacity_le size (NodeRoom.room r).
Proof. unfold NodeRoom.takes. by rewrite andb_true_iff, fits_in_spec. Qed.

Lemma lookup_take_off rooms i size j :
  take_off rooms i size !! j
  = (fun r => if decide (i = j) then NodeRoom.set_room r (Capacity.minus (NodeRoom.room r) size) else r)
    <$> rooms !! j.
Proof.
  unfold take_off. destruct (decide (i = j)) as [->|].
  - apply list_lookup_alter_eq.
  - rewrite list_lookup_alter_ne by done. by destruct (rooms !! j).
Qed.

(** The rooms [a] are those of [b], each with no more room. *)
Definition rooms_le (a b : list NodeRoom.t) : Prop :=
  Forall2 (fun x y => NodeRoom.node x = NodeRoom.node y
             /\ capacity_le (NodeRoom.room x) (NodeRoom.room y)) a b.

(** Less room meets fewer demands. *)
Lemma met_mono d a b :
  rooms_le a b -> NodeDemand.met_by_a_node d a = true -> NodeDemand.met_by_a_node d b = true.
Proof.
  unfold NodeDemand.met_by_a_node, NodeDemand.node_for. intros Hle.
  destruct (roomiest a _ _) as [i|] eqn:E; [|done]. intros _.
  apply roomiest_some in E as (r & Hi & [Hu Hf]%takes_spec & Hw & _).
  destruct (roomiest b _ _) eqn:E2; [done|]. rewrite roomiest_none in E2.
  eapply Forall2_lookup_l in Hle as (r' & Hi' & Hn & Hr); [|done].
  specialize (E2 _ _ Hi'). rewrite <- Hn, Hw, andb_true_r in E2.
  assert (NodeRoom.takes r' (NodeDemand.size d) = true); [|congruence].
  apply takes_spec. rewrite <- Hn. split; [done|]. by eapply capacity_le_trans.
Qed.

Lemma debit_each_le d rooms i r :
  rooms !! i = Some r -> NodeRoom.takes r (NodeDemand.size d) = true ->
  NodeDemand.wants d (NodeRoom.node r) = true ->
  rooms_le (NodeDemand.debit_each d rooms) (take_off rooms i (NodeDemand.size d)).
Proof.
  intros Hi Ht Hw. apply Forall2_same_length_lookup_2.
  { unfold NodeDemand.debit_each, take_off. by rewrite length_map, length_alter. }
  intros j x y. unfold NodeDemand.debit_each. rewrite lookup_take_off, list_lookup_fmap.
  destruct (rooms !! j) as [s|] eqn:Hj; [|done]. simpl. intros [= <-] [= <-].
  destruct (decide (i = j)) as [->|].
  - replace s with r by congruence. rewrite Ht, Hw. simpl. split; [done|apply capacity_le_refl].
  - destruct (_ && _); simpl; (split; [done|]); [apply minus_le|apply capacity_le_refl].
Qed.

Lemma take_off_le rooms i size : rooms_le (take_off rooms i size) rooms.
Proof.
  apply Forall2_same_length_lookup_2; [unfold take_off; by rewrite length_alter|].
  intros j x y. rewrite lookup_take_off. destruct (rooms !! j); [|done]. simpl. intros [= <-] [= <-].
  destruct (decide _); simpl; (split; [done|]); [apply minus_le|apply capacity_le_refl].
Qed.

Lemma rooms_le_refl a : rooms_le a a.
Proof. apply Forall_Forall2_diag, Forall_forall. intros r _. split; [done|apply capacity_le_refl]. Qed.

Lemma charge_le rooms size : rooms_le (charge rooms size) rooms.
Proof. unfold charge. destruct (roomiest _ _ _); [apply take_off_le|apply rooms_le_refl]. Qed.

Lemma takes_mono a b size :
  rooms_le a b -> (forall i r, b !! i = Some r -> NodeRoom.takes r size = false) ->
  forall i r, a !! i = Some r -> NodeRoom.takes r size = false.
Proof.
  intros Hle Hb i r Hi. eapply Forall2_lookup_l in Hle as (r' & Hi' & Hn & Hr); [|done].
  destruct (NodeRoom.takes r size) eqn:E; [|done]. apply takes_spec in E as [Hu Hf].
  rewrite <- (Hb i r' Hi'). symmetry. apply takes_spec. rewrite <- Hn.
  split; [done|]. by eapply capacity_le_trans.
Qed.

Lemma minus_add room size :
  capacity_le size room -> capacity_add (Capacity.minus room size) size = room.
Proof.
  destruct room, size. unfold capacity_le, capacity_add, Capacity.minus. simpl. intros [??].
  f_equal; lia.
Qed.

(** The sizes charged to node [i]. *)
Definition charged_to (i : nat) (charges : list (Capacity.t * option nat)) : Capacity.t :=
  foldr (fun '(size, at_) sum => if bool_decide (at_ = Some i) then capacity_add size sum else sum)
    Capacity.default charges.

(** Every charge came off one node, exactly; what was charged to none fits none. *)
Definition accounted (start rooms : list NodeRoom.t) (charges : list (Capacity.t * option nat)) : Prop :=
  (forall i, match start !! i, rooms !! i with
     | Some s, Some r => NodeRoom.node r = NodeRoom.node s
         /\ capacity_add (NodeRoom.room r) (charged_to i charges) = NodeRoom.room s
     | None, None => True
     | _, _ => False
     end)
  /\ forall size, In (size, None) charges ->
     forall i r, rooms !! i = Some r -> NodeRoom.takes r size = false.

Lemma capacity_add_assoc a b c :
  capacity_add a (capacity_add b c) = capacity_add (capacity_add a b) c.
Proof. unfold capacity_add. simpl. f_equal; lia. Qed.

(** The latest charge is put first. *)
Lemma charge_accounted start rooms charges size :
  accounted start rooms charges ->
  exists at_, accounted start (charge rooms size) ((size, at_) :: charges).
Proof.
  intros [Hacc Hnone]. exists (roomiest rooms size (fun _ => true)).
  pose proof (charge_le rooms size) as Hle. unfold charge in *.
  destruct (roomiest rooms size (fun _ => true)) as [k|] eqn:E.
  - apply roomiest_some in E as (r & Hk & [_ Hf]%takes_spec & _). split.
    + intros i. specialize (Hacc i). rewrite lookup_take_off. simpl.
      destruct (start !! i) as [s|], (rooms !! i) as [q|] eqn:Hi; try done. simpl.
      destruct (decide (k = i)) as [->|]; simpl.
      * rewrite bool_decide_true by done. replace q with r in * by congruence.
        rewrite capacity_add_assoc, minus_add by done. done.
      * rewrite bool_decide_false by congruence. done.
    + intros size' [?|Hin]; [done|]. by apply (takes_mono _ rooms); [|apply Hnone].
  - split; [intros i; apply Hacc|]. intros size' [[= <-]|Hin]; [|by apply Hnone].
    intros i r Hi. rewrite roomiest_none in E. specialize (E i r Hi). by rewrite andb_true_r in E.
Qed.

Lemma charges_accounted unplaced start rooms charges :
  accounted start rooms charges ->
  exists ats, length ats = length unplaced
    /\ accounted start (foldl charge rooms unplaced) (rev (combine unplaced ats) ++ charges).
Proof.
  revert rooms charges. induction unplaced as [|size l IH]; intros rooms charges H; simpl.
  - exists []. done.
  - destruct (charge_accounted _ _ _ size H) as [at_ H'].
    destruct (IH _ _ H') as (ats & Hl & Hacc). exists (at_ :: ats). simpl.
    rewrite <- app_assoc. auto.
Qed.

(** * Properties *)

(** Debiting is exact: it succeeds when some usable node with the room,
    the labels, the volumes' locality and the class takes the VM, and then
    takes the VM's size off one such node without truncating and leaves the
    others; it fails, changing nothing, when no node takes it. *)
Theorem debit_exact d rooms :
  match NodeDemand.debit d rooms with
  | (true, rooms') => exists i r room',
      rooms !! i = Some r /\ NodeRoom.takes r (NodeDemand.size d) = true
      /\ NodeDemand.wants d (NodeRoom.node r) = true
      /\ rooms' = <[i := NodeRoom.set_room r room']> rooms
      /\ capacity_add room' (NodeDemand.size d) = NodeRoom.room r
  | (false, rooms') => rooms' = rooms
      /\ forall i r, rooms !! i = Some r ->
         NodeRoom.takes r (NodeDemand.size d) && NodeDemand.wants d (NodeRoom.node r) = false
  end.
Proof.
  unfold NodeDemand.debit, NodeDemand.node_for. destruct (roomiest _ _ _) as [i|] eqn:E.
  - apply roomiest_some in E as (r & Hi & Ht & Hw & _).
    exists i, r, (Capacity.minus (NodeRoom.room r) (NodeDemand.size d)). split_and!; [done..| |].
    + apply list_eq. intros j. rewrite lookup_take_off. destruct (decide (i = j)) as [->|].
      * rewrite Hi, list_lookup_insert_eq by (by eapply lookup_lt_Some). done.
      * rewrite list_lookup_insert_ne by done. by destruct (rooms !! j).
    + apply minus_add. by apply takes_spec in Ht as [_ ?].
  - split; [done|]. rewrite roomiest_none in E. apply E.
Qed.

(** Debiting every node a VM may be on is conservative: whichever of them
    the VM is really on, a later demand that finds a node afterwards also finds
    one in the rooms with the VM's size taken off its real node. *)
Theorem debit_each_conservative d rooms i r d' :
  rooms !! i = Some r -> NodeRoom.takes r (NodeDemand.size d) = true ->
  NodeDemand.wants d (NodeRoom.node r) = true ->
  NodeDemand.met_by_a_node d' (NodeDemand.debit_each d rooms) = true ->
  NodeDemand.met_by_a_node d' (take_off rooms i (NodeDemand.size d)) = true.
Proof. intros ???. apply met_mono. by eapply debit_each_le. Qed.

(** The rooms of a cluster account for every unplaced VM: each came off
    one node, in full, or was charged to none, and then no node takes it even
    at the end; a node's room plus what was charged to it is what it reported. *)
Theorem node_rooms_accounted nodes oc unplaced :
  exists ats, length ats = length unplaced
    /\ accounted (map (fun n => NodeRoom.reported n oc) nodes) (node_rooms nodes oc unplaced)
         (rev (combine unplaced ats)).
Proof.
  destruct (charges_accounted unplaced (map (fun n => NodeRoom.reported n oc) nodes)
    (map (fun n => NodeRoom.reported n oc) nodes) []) as (ats & ? & H).
  - split; [|done]. intros i. destruct (_ !! i) as [s|]; [|done]. split; [done|].
    destruct s as [? []]. unfold capacity_add. simpl. f_equal; lia.
  - exists ats. by rewrite app_nil_r in H.
Qed.

(** Two nodes: the first with more memory, the second with more vCPUs. *)
Definition sized_summary (name : string) (vcpus mem : N) : NodeSummary.t :=
  {| NodeSummary.name := name; NodeSummary.ready := true; NodeSummary.schedulable := true;
     NodeSummary.drain := false; NodeSummary.labels := []; NodeSummary.vcpus := vcpus;
     NodeSummary.mem_mib := mem; NodeSummary.bound_vcpus := 0; NodeSummary.bound_mem_mib := 0;
     NodeSummary.capabilities := []; NodeSummary.vms := 0; NodeSummary.conditions := [];
     NodeSummary.draining := None; NodeSummary.accepts := [] |}.

Definition plain_demand (vcpus mem : N) : NodeDemand.t :=
  {| NodeDemand.selector := []; NodeDemand.allowed := None;
     NodeDemand.size := {| Capacity.vcpus := vcpus; Capacity.mem_mib := mem |};
     NodeDemand.class := CLASS_VM |}.

(** Charging an unplaced VM to the roomiest node can overstate what the
    next VM finds: rooms are ranked by memory first, and where the unplaced VM
    really lands on the node with more vCPUs, a VM the rooms say a node takes
    is taken by none. *)
Theorem node_rooms_overstates :
  let nodes := [sized_summary "a" 1 10240; sized_summary "b" 4 8192] in
  let unplaced := {| Capacity.vcpus := 2; Capacity.mem_mib := 4096 |} in
  let next := plain_demand 16 8192 in
  NodeDemand.met_by_a_node next (node_rooms nodes Overcommit.default [unplaced]) = true
  /\ Capacity.fits_in unplaced (NodeRoom.room (NodeRoom.reported (sized_summary "b" 4 8192) Overcommit.default)) = true
  /\ NodeDemand.met_by_a_node next
       (take_off (node_rooms nodes Overcommit.default []) 1 unplaced) = false.
Proof. vm_compute. auto. Qed.

Lemma debit_each_conservative_witness :
  let rooms := node_rooms [sized_summary "a" 4 10240; sized_summary "b" 4 8192] Overcommit.default [] in
  NodeDemand.met_by_a_node (plain_demand 2 4096) (take_off rooms 1 (NodeDemand.size (plain_demand 2 4096)))
  = true.
Proof.
  simpl. eapply (debit_each_conservative (plain_demand 2 4096)
    (node_rooms [sized_summary "a" 4 10240; sized_summary "b" 4 8192] Overcommit.default []) 1);
    by vm_compute.
Defined.
