(* ===== verification/Reservation.v ===== *)
(** Capacity claims: [src/shared/controller-api/src/resources/reservation.rs],
    the reservation half of [scheduler.rs] and the verdict of [capacity.rs].
    A guest on its way to a node holds room there by a claim object; claims are
    ranked by the revision the store wrote them at, and a claim holds when the
    room covers it after every claim ahead of it. *)
From Stdlib Require Import Ascii String NArith ZArith List Bool Lia.
From stdpp Require Import base list strings.
From S2P Require Import Prelude RustStr Json Float64 Capability Phase Objects Heartbeat Vm Node.
From S2P Require Import Storage Sizing Placement.

(** * The claim object *)

Definition STALE_PLACEMENT_AFTER_SECS : Z := 60.
Definition PLACEMENT_CLAIM_PREFIX : string := "place.".

Module Claimant.
Inductive t := Migration | Placement.

#[global] Instance t_eq_dec : EqDecision t.
Proof. solve_decision. Defined.
End Claimant.

Module CapacityReservationSpec.
Record t := {
  node : string;
  vm : string;
  vm_uid : string;
  claimant : Claimant.t;
  migration : string;
  migration_uid : string;
  vcpus : N;
  mem_mib : N;
}.

Definition size (s : t) : Capacity.t :=
  {| Capacity.vcpus := vcpus s; Capacity.mem_mib := mem_mib s |}.
End CapacityReservationSpec.

Definition CapacityReservation : Type := Object CapacityReservationSpec.t unit.

(** [Object::declare] for this kind; uid and time come from outside. *)
Definition declare_reservation (name uid : string) (now : instant) (spec : CapacityReservationSpec.t)
    : CapacityReservation :=
  object_new API_VERSION "CapacityReservation" name uid now spec tt.

Definition reservation_of (uid : string) (now : instant) (m : VmMigration) (v : Vm) (node : string)
    : CapacityReservation :=
  let size := Capacity.wanted_by v in
  declare_reservation (name (metadata m)) uid now
    {| CapacityReservationSpec.node := node; CapacityReservationSpec.vm := name (metadata v);
       CapacityReservationSpec.vm_uid := Objects.uid (metadata v);
       CapacityReservationSpec.claimant := Claimant.Migration;
       CapacityReservationSpec.migration := name (metadata m);
       CapacityReservationSpec.migration_uid := Objects.uid (metadata m);
       CapacityReservationSpec.vcpus := Capacity.vcpus size;
       CapacityReservationSpec.mem_mib := Capacity.mem_mib size |}.

Definition reservation_for_placement (uid : string) (now : instant) (v : Vm) (node : string)
    : CapacityReservation :=
  let size := Capacity.wanted_by v in
  declare_reservation (PLACEMENT_CLAIM_PREFIX +:+ Objects.uid (metadata v)) uid now
    {| CapacityReservationSpec.node := node; CapacityReservationSpec.vm := name (metadata v);
       CapacityReservationSpec.vm_uid := Objects.uid (metadata v);
       CapacityReservationSpec.claimant := Claimant.Placement;
       CapacityReservationSpec.migration := ""; CapacityReservationSpec.migration_uid := "";
       CapacityReservationSpec.vcpus := Capacity.vcpus size;
       CapacityReservationSpec.mem_mib := Capacity.mem_mib size |}.

Definition belongs_to (r : CapacityReservation) (m : VmMigration) : bool :=
  bool_decide (CapacityReservationSpec.claimant (spec r) = Claimant.Migration)
  && String.eqb (CapacityReservationSpec.migration (spec r)) (name (metadata m))
  && String.eqb (CapacityReservationSpec.migration_uid (spec r)) (Objects.uid (metadata m)).

Definition is_placement_of (r : CapacityReservation) (v : Vm) : bool :=
  bool_decide (CapacityReservationSpec.claimant (spec r) = Claimant.Placement)
  && String.eqb (CapacityReservationSpec.vm_uid (spec r)) (Objects.uid (metadata v)).

Definition is_live (r : CapacityReservation) (migrations : list VmMigration) (vms : list Vm)
    (now : instant) : bool :=
  match CapacityReservationSpec.claimant (spec r) with
  | Claimant.Migration =>
      existsb (fun m => belongs_to r m && negb (is_some (deletion_timestamp (metadata m)))
                 && negb (VmMigrationPhaseKind.is_final (ph_kind (VmMigrationStatus.phase (status m)))))
        migrations
  | Claimant.Placement =>
      is_some_and (fun made => (num_seconds_since now made <=? STALE_PLACEMENT_AFTER_SECS)%Z)
        (creation_timestamp (metadata r))
      && existsb (fun v => String.eqb (Objects.uid (metadata v)) (CapacityReservationSpec.vm_uid (spec r))
                   && negb (is_some (deletion_timestamp (metadata v)))
                   && negb (is_some (VmSpec.node_name (spec v)))) vms
  end.

Definition orphaned_reservations (held : list CapacityReservation) (migrations : list VmMigration)
    (vms : list Vm) (now : instant) : list CapacityReservation :=
  List.filter (fun r => negb (is_live r migrations vms now)) held.

(** * The claims in the scheduler *)

Definition reserved_on (node : string) (held : list CapacityReservation) : Capacity.t :=
  foldl (fun sum r => Capacity.plus sum (CapacityReservationSpec.size (spec r))) Capacity.default
    (List.filter (fun r => String.eqb (CapacityReservationSpec.node (spec r)) node) held).

Definition hold (candidates : list Candidate.t) (held : list CapacityReservation) : list Candidate.t :=
  map (fun c => Candidate.set_free c
                  (Capacity.minus (Candidate.free c) (reserved_on (Candidate.name c) held)))
    candidates.

Definition made_at (r : CapacityReservation) : Z * string :=
  (unwrap_or i64_max (parse_i64 (resource_version (metadata r))), name (metadata r)).

(** The tuple order on [made_at]. *)
Definition made_cmp (a b : CapacityReservation) : comparison :=
  then_with (Z.compare (made_at a).1 (made_at b).1) (String.compare (made_at a).2 (made_at b).2).

Definition made_before (a b : CapacityReservation) : bool :=
  match made_cmp a b with Lt => true | _ => false end.

Definition reservation_holds (room : Capacity.t) (mine : CapacityReservation)
    (held : list CapacityReservation) : bool :=
  let ahead :=
    foldl (fun sum r => Capacity.plus sum (CapacityReservationSpec.size (spec r))) Capacity.default
      (List.filter (fun r => made_before r mine)
        (List.filter (fun r => String.eqb (CapacityReservationSpec.node (spec r))
                                 (CapacityReservationSpec.node (spec mine))
                               && negb (String.eqb (name (metadata r)) (name (metadata mine)))) held)) in
  Capacity.fits_in (CapacityReservationSpec.size (spec mine)) (Capacity.minus room ahead).

(** * The verdict: [capacity::confirmed] *)

(** [StoreError]'s text is part of the message; a failed reading is an error. *)
Definition confirmed (store_error : StoreError.t -> string) (node : result StoreError.t Node)
    (seen : result StoreError.t (list Vm * list CapacityReservation)) (mine : CapacityReservation)
    (overcommit : Overcommit.t) : result string bool :=
  let on := CapacityReservationSpec.node (spec mine) in
  match node with
  | Err e => Err ("node " +:+ on +:+ " could not be read to confirm its room: " +:+ store_error e)
  | Ok node =>
      match seen with
      | Err e => Err ("the vms and reservations could not be listed to confirm the room on " +:+ on
                      +:+ ": " +:+ store_error e)
      | Ok (vms, held) =>
          let room := free_on on (NodeStatus.capacity (status node)) vms overcommit in
          Ok (reservation_holds room mine held)
      end
  end.

(** * Lemmas *)

#[export] Instance made_cmp_total : CmpTotal made_cmp.
Proof.
  apply (then_with_total (fun a b => Z.compare (made_at a).1 (made_at b).1)
    (fun a b => String.compare (made_at a).2 (made_at b).2)).
Qed.

(** ** Sums, one dimension at a time *)

Definition sum_of {A} (f : A -> N) (l : list A) : N := foldr (fun x acc => f x + acc)%N 0%N l.

Lemma sum_of_app {A} (f : A -> N) l l' : sum_of f (l ++ l') = (sum_of f l + sum_of f l')%N.
Proof. induction l as [|x l IH]; simpl; [done|]. rewrite IH. lia. Qed.

Lemma sum_of_filter_le {A} (f : A -> N) (p : A -> bool) l :
  (sum_of f (List.filter p l) <= sum_of f l)%N.
Proof. induction l as [|x l IH]; simpl; [done|]. destruct (p x); simpl; lia. Qed.

Lemma sum_of_filter_mono {A} (f : A -> N) (p q : A -> bool) l :
  (forall x, In x l -> p x = true -> q x = true) ->
  (sum_of f (List.filter p l) <= sum_of f (List.filter q l))%N.
Proof.
  induction l as [|x l IH]; intros H; simpl; [done|].
  pose proof (IH (fun y Hy => H y (or_intror Hy))) as IH'.
  destruct (p x) eqn:E; [rewrite (H x (or_introl eq_refl) E)|destruct (q x)]; simpl; lia.
Qed.

(** One element that [q] keeps and [p] does not. *)
Lemma sum_of_filter_strict {A} (f : A -> N) (p q : A -> bool) l x :
  In x l -> p x = false -> q x = true -> (forall y, In y l -> p y = true -> q y = true) ->
  (sum_of f (List.filter p l) + f x <= sum_of f (List.filter q l))%N.
Proof.
  induction l as [|y l IH]; intros Hin Hp Hq H; simpl; [done|].
  pose proof (sum_of_filter_mono f p q l (fun z Hz => H z (or_intror Hz))) as Hm.
  destruct Hin as [->|Hin].
  - rewrite Hp, Hq. simpl. lia.
  - pose proof (IH Hin Hp Hq (fun z Hz => H z (or_intror Hz))) as IH'.
    destruct (p y) eqn:E; [rewrite (H y (or_introl eq_refl) E)|destruct (q y)]; simpl; lia.
Qed.

(** What [p] keeps, [q] keeps too, but for one element. *)
Lemma sum_of_filter_but_one {A} (f : A -> N) (p q : A -> bool) l x :
  NoDup l -> (forall y, In y l -> p y = true -> q y = true \/ y = x) ->
  (sum_of f (List.filter p l) <= sum_of f (List.filter q l) + f x)%N.
Proof.
  induction l as [|y l IH]; intros Hnd H; simpl; [lia|]. apply NoDup_cons in Hnd as [Hy Hnd].
  pose proof (IH Hnd (fun z Hz => H z (or_intror Hz))) as IH'.
  destruct (p y) eqn:E; [|destruct (q y); simpl; lia].
  destruct (H y (or_introl eq_refl) E) as [H1 | ->]; [rewrite H1|]; simpl; [lia|].
  assert (Hm : (sum_of f (List.filter p l) <= sum_of f (List.filter q l))%N); [|destruct (q x); simpl; lia].
  apply sum_of_filter_mono. intros z Hz Hp. destruct (H z (or_intror Hz) Hp) as [? | ->]; [done|].
  by apply list_elem_of_In in Hz.
Qed.

(** [plus] saturates: the folded sum is the exact one, cut at the width. *)
Lemma fold_plus_dims {A} (size : A -> Capacity.t) l acc :
  capacity_wf acc ->
  let s := foldl (fun sum x => Capacity.plus sum (size x)) acc l in
  Capacity.vcpus s = N.min (Capacity.vcpus acc + sum_of (fun x => Capacity.vcpus (size x)) l) u32_max
  /\ Capacity.mem_mib s = N.min (Capacity.mem_mib acc + sum_of (fun x => Capacity.mem_mib (size x)) l) u64_max.
Proof.
  revert acc. induction l as [|x l IH]; intros acc [H1 H2]; simpl.
  - lia.
  - destruct (IH (Capacity.plus acc (size x)) (plus_wf _ _)) as [-> ->].
    unfold Capacity.plus, sat_add. simpl. lia.
Qed.

(** A dimension of a capacity and its width. *)
Inductive dim := Vcpus | Mem.

Definition along (d : dim) (c : Capacity.t) : N :=
  match d with Vcpus => Capacity.vcpus c | Mem => Capacity.mem_mib c end.

Definition width (d : dim) : N := match d with Vcpus => u32_max | Mem => u64_max end.

Lemma along_le a b : (forall d, (along d a <= along d b)%N) <-> capacity_le a b.
Proof.
  split; [intros H; split; [apply (H Vcpus)|apply (H Mem)]|]. intros [??] []; done.
Qed.

Lemma along_minus d a b : along d (Capacity.minus a b) = (along d a - along d b)%N.
Proof. by destruct d. Qed.

Lemma along_fold {A} (size : A -> Capacity.t) l d :
  along d (foldl (fun sum x => Capacity.plus sum (size x)) Capacity.default l)
  = N.min (sum_of (fun x => along d (size x)) l) (width d).
Proof.
  destruct (fold_plus_dims size l Capacity.default) as [H1 H2]; [by split|].
  destruct d; simpl in *; [rewrite H1|rewrite H2]; f_equal; lia.
Qed.

(** ** The verdict, dimension by dimension *)

Definition claim_size (d : dim) (r : CapacityReservation) : N :=
  along d (CapacityReservationSpec.size (spec r)).

Definition same_node (r mine : CapacityReservation) : bool :=
  String.eqb (CapacityReservationSpec.node (spec r)) (CapacityReservationSpec.node (spec mine)).

(** The claims counted ahead of [mine]. *)
Definition ahead_of (mine r : CapacityReservation) : bool :=
  same_node r mine && negb (String.eqb (name (metadata r)) (name (metadata mine)))
  && made_before r mine.

Lemma reservation_holds_spec room mine held :
  capacity_wf room ->
  reservation_holds room mine held = true <->
  forall d, claim_size d mine = 0%N
    \/ (sum_of (claim_size d) (List.filter (ahead_of mine) held) + claim_size d mine <= along d room)%N.
Proof.
  intros Hwf. unfold reservation_holds. rewrite filter_filter_and, fits_in_spec, <- along_le.
  change (fun x => _ && made_before x mine) with (ahead_of mine).
  assert (Hw : forall d, (along d room <= width d)%N) by (destruct Hwf; intros []; done).
  split; intros H d; specialize (H d); specialize (Hw d); rewrite along_minus, along_fold in *;
    fold (claim_size d mine) in *;
    change (sum_of (fun r => along d (CapacityReservationSpec.size (spec r)))) with (sum_of (claim_size d)) in *;
    lia.
Qed.

Lemma made_before_trans a b c :
  made_before a b = true -> made_before b c = true -> made_before a c = true.
Proof.
  unfold made_before. destruct (made_cmp a b) eqn:E1; try done.
  destruct (made_cmp b c) eqn:E2; try done. intros _ _. by rewrite (cmp_lt_trans made_cmp a b c E1 E2).
Qed.

(** Two claims under different names are never made at the same place. *)
Lemma made_before_total a b :
  name (metadata a) <> name (metadata b) -> made_before a b = negb (made_before b a).
Proof.
  intros Hn. unfold made_before. rewrite (cmp_antisym (cmp := made_cmp) b a).
  destruct (made_cmp a b) eqn:E; try done. exfalso. apply Hn.
  unfold made_cmp, then_with in E. destruct (_ ?= _)%Z; try done. simpl in E.
  by apply String.compare_eq_iff in E.
Qed.

(** * Properties *)

(** A claim's place in the queue is settled when it is written: claims made
    after it, by whatever replica and on whatever road, never change its
    verdict, so replicas that read the store at different times agree. *)
Theorem claim_verdict_stable room mine held later :
  (forall r, In r later -> made_before mine r = true) ->
  reservation_holds room mine (held ++ later) = reservation_holds room mine held.
Proof.
  intros Hlater. unfold reservation_holds. rewrite !filter_filter_and, List.filter_app.
  rewrite (proj2 (filter_nil_iff _ later)); [by rewrite app_nil_r|].
  intros r Hr. apply andb_false_iff. right. specialize (Hlater r Hr). unfold made_before in *.
  rewrite (cmp_antisym (cmp := made_cmp) r mine). by destruct (made_cmp mine r).
Qed.

(** Claims of the example guest, written at a revision. *)
Definition claim_at (uid : string) (rev : Z) : CapacityReservation :=
  let r := reservation_for_placement "c" 1%Z (example_vm uid) "agent-2" in
  with_metadata r (set_resource_version (metadata r) (show_Z rev)).

Lemma claim_verdict_stable_witness :
  let room := {| Capacity.vcpus := 4; Capacity.mem_mib := 1024 |} in
  reservation_holds room (claim_at "b" 11) ([claim_at "a" 10] ++ [claim_at "c" 12])
  = reservation_holds room (claim_at "b" 11) [claim_at "a" 10].
Proof.
  intros room. apply (claim_verdict_stable room (claim_at "b" 11) [claim_at "a" 10] [claim_at "c" 12]).
  intros r [<-|[]]. by vm_compute.
Defined.
