(* ===== verification/Claims.v ===== *)
(** The capacity commit: how a guest comes to be bound to a node, over all
    controller replicas.  A claim is created, confirmed against one reading of
    VMs and claims ([capacity::confirmed]), turned into a binding only while it
    stands ([EtcdStore::update_if_standing]) and released afterwards; see
    [cluster-controller/src/reconcile/placement.rs] and
    [controller-api/src/capacity.rs].  The steps of any number of replicas
    interleave freely on one store. *)
From Stdlib Require Import Ascii String NArith ZArith List Bool Lia.
From stdpp Require Import base list strings relations.
From S2P Require Import Prelude RustStr Json Float64 Capability Phase Objects Vm Node Storage.
From S2P Require Import Sizing Placement Reservation.

(** * The binding *)

(** What the placement writes: the node, and no pending sentence any more. *)
Definition bound_to (v : Vm) (node : string) : Vm :=
  let sp := spec v in
  let st := status v in
  with_status
    (with_spec v
      {| VmSpec.node_name := Some node; VmSpec.cluster_name := VmSpec.cluster_name sp;
         VmSpec.run_strategy := VmSpec.run_strategy sp; VmSpec.evacuation := VmSpec.evacuation sp;
         VmSpec.tenant := VmSpec.tenant sp; VmSpec.class_ := VmSpec.class_ sp;
         VmSpec.cluster_selector := VmSpec.cluster_selector sp;
         VmSpec.node_selector := VmSpec.node_selector sp;
         VmSpec.anti_affinity := VmSpec.anti_affinity sp; VmSpec.vm := VmSpec.vm sp |})
    {| VmStatus.phase := VmStatus.phase st; VmStatus.reported := VmStatus.reported st;
       VmStatus.silence := VmStatus.silence st; VmStatus.placement := None;
       VmStatus.observed_generation := VmStatus.observed_generation st;
       VmStatus.node_name := VmStatus.node_name st; VmStatus.cluster_name := VmStatus.cluster_name st;
       VmStatus.observed_at := VmStatus.observed_at st; VmStatus.addresses := VmStatus.addresses st;
       VmStatus.volumes := VmStatus.volumes st; VmStatus.reschedules := VmStatus.reschedules st;
       VmStatus.refused_by := VmStatus.refused_by st;
       VmStatus.requeue_attempts := VmStatus.requeue_attempts st;
       VmStatus.last_requeue := VmStatus.last_requeue st;
       VmStatus.evacuating := VmStatus.evacuating st; VmStatus.handed_down := VmStatus.handed_down st;
       VmStatus.hand_down_refused := VmStatus.hand_down_refused st;
       VmStatus.bound_at := VmStatus.bound_at st |}.

(** * The protocol on one node *)

Section protocol.
(** The node as stored, the overcommit policy, and the text of a store error. *)
Variable node : Node.
Variable overcommit : Overcommit.t.
Variable store_error : StoreError.t -> string.

Definition on : string := name (metadata node).

(** What every replica sees, and what the replicas know: the claims with a
    standing positive verdict, and those already turned into a binding. *)
Record pstate := {
  vms : list Vm;
  held : list CapacityReservation;
  ok : list string;
  spent : list string;
  revision : Z;
}.

Definition claim_name (r : CapacityReservation) : string := name (metadata r).

Definition drop_name (n : string) (l : list string) : list string :=
  List.filter (fun x => negb (String.eqb x n)) l.

Definition on_node (v : Vm) : bool := bool_decide (VmSpec.node_name (spec v) = Some on).

(** What the guests bound to the node ask for along [d], exactly. *)
Definition bound_along (d : dim) (l : list Vm) : N :=
  sum_of (fun v => along d (Capacity.wanted_by v)) (List.filter on_node l).

Inductive step : pstate -> pstate -> Prop :=
| step_claim s r :
    ~ In (claim_name r) (map claim_name (held s)) ->
    (revision s < i64_max)%Z ->
    resource_version (metadata r) = show_Z (revision s + 1) ->
    step s {| vms := vms s; held := held s ++ [r]; ok := ok s; spent := spent s;
              revision := revision s + 1 |}
| step_confirm s r :
    In r (held s) -> CapacityReservationSpec.node (spec r) = on ->
    ~ In (claim_name r) (spent s) ->
    confirmed store_error (Ok node) (Ok (vms s, held s)) r overcommit = Ok true ->
    step s {| vms := vms s; held := held s; ok := claim_name r :: ok s; spent := spent s;
              revision := revision s |}
| step_bind s r l v l' :
    In r (held s) -> In (claim_name r) (ok s) ->
    vms s = l ++ v :: l' -> on_node v = false ->
    Capacity.wanted_by v = CapacityReservationSpec.size (spec r) ->
    step s {| vms := l ++ bound_to v on :: l'; held := held s;
              ok := drop_name (claim_name r) (ok s); spent := claim_name r :: spent s;
              revision := revision s + 1 |}
| step_release s r :
    In r (held s) ->
    step s {| vms := vms s;
              held := List.filter (fun q => negb (String.eqb (claim_name q) (claim_name r))) (held s);
              ok := drop_name (claim_name r) (ok s); spent := drop_name (claim_name r) (spent s);
              revision := revision s + 1 |}
| step_vms s vms' :
    (forall d, (bound_along d vms' <= bound_along d (vms s))%N) ->
    step s {| vms := vms'; held := held s; ok := ok s; spent := spent s;
              revision := revision s + 1 |}.

(** * Invariant *)

Definition allowed : Capacity.t :=
  Overcommit.allowance overcommit
    {| Capacity.vcpus := NodeCapacity.vcpus (NodeStatus.capacity (status node));
       Capacity.mem_mib := NodeCapacity.mem_mib (NodeStatus.capacity (status node)) |}.

(** The unspent claims on the node up to and including [r]. *)
Definition upto (s : pstate) (r q : CapacityReservation) : bool :=
  String.eqb (CapacityReservationSpec.node (spec q)) on
  && negb (str_in (claim_name q) (spent s))
  && (String.eqb (claim_name q) (claim_name r) || made_before q r).

Definition covered (s : pstate) (d : dim) (r : CapacityReservation) : Prop :=
  claim_size d r = 0%N
  \/ (bound_along d (vms s) + sum_of (claim_size d) (List.filter (upto s r) (held s))
      <= along d allowed)%N.

Record inv (s : pstate) : Prop := {
  inv_names : NoDup (map claim_name (held s));
  inv_known : forall x, In x (ok s) \/ In x (spent s) -> In x (map claim_name (held s));
  inv_revision : (0 <= revision s)%Z;
  inv_stamped : forall r, In r (held s) ->
    exists z, (0 <= z <= revision s)%Z /\ (made_at r).1 = z;
  inv_bound : forall d, (bound_along d (vms s) <= along d allowed)%N;
  inv_covered : forall r, In r (held s) -> In (claim_name r) (ok s) ->
    CapacityReservationSpec.node (spec r) = on /\ ~ In (claim_name r) (spent s)
    /\ forall d, covered s d r;
}.

(** ** Lemmas *)

Lemma trunc_width max x : (f64_trunc max x <= max)%N.
Proof. unfold f64_trunc. destruct x as [[]|[]| |[]]; lia. Qed.

Lemma allowed_width d : (along d allowed <= width d)%N.
Proof. destruct d; apply trunc_width. Qed.

(** The room the verdict measures, where the bound guests fit. *)
Lemma room_along s d :
  (bound_along d (vms s) <= along d allowed)%N ->
  along d (free_on on (NodeStatus.capacity (status node)) (vms s) overcommit)
  = (along d allowed - bound_along d (vms s))%N.
Proof.
  intros Hb. pose proof (allowed_width d). unfold free_on. fold allowed.
  rewrite along_minus. unfold bound_on. rewrite along_fold. fold on_node.
  change (sum_of _ _) with (bound_along d (vms s)). lia.
Qed.

Lemma room_wf s : capacity_wf (free_on on (NodeStatus.capacity (status node)) (vms s) overcommit).
Proof.
  pose proof (allowed_width Vcpus). pose proof (allowed_width Mem). simpl in *.
  split; unfold free_on; fold allowed; simpl; lia.
Qed.

Lemma in_drop_name x n l : In x (drop_name n l) <-> In x l /\ x <> n.
Proof.
  unfold drop_name. rewrite filter_In, negb_true_iff. by rewrite String.eqb_neq.
Qed.

Lemma same_name_same s r q :
  inv s -> In r (held s) -> In q (held s) -> claim_name r = claim_name q -> r = q.
Proof.
  intros [Hn _ _ _ _ _] Hr Hq He. apply list_elem_of_In in Hr, Hq.
  apply list_elem_of_lookup in Hr as [i Hi], Hq as [j Hj].
  assert (i = j) as ->; [|congruence].
  eapply (NoDup_lookup (map claim_name (held s))); [done| |].
  - rewrite list_lookup_fmap, Hi. done.
  - rewrite list_lookup_fmap, Hj. simpl. by rewrite He.
Qed.

Lemma upto_ahead s r q :
  inv s -> In r (held s) -> In q (held s) -> CapacityReservationSpec.node (spec r) = on ->
  upto s r q = true -> ahead_of r q = true \/ q = r.
Proof.
  intros Hinv Hr Hq Hon. unfold upto, ahead_of, same_node. rewrite Hon.
  intros [[H1 _]%andb_true_iff H3]%andb_true_iff.
  destruct (String.eqb (claim_name q) (claim_name r)) eqn:E.
  - right. apply String.eqb_eq in E. by apply (same_name_same s).
  - left. unfold claim_name in E. rewrite H1, E. done.
Qed.

Lemma inv_step_confirm s r :
  inv s -> In r (held s) -> CapacityReservationSpec.node (spec r) = on ->
  ~ In (claim_name r) (spent s) ->
  confirmed store_error (Ok node) (Ok (vms s, held s)) r overcommit = Ok true ->
  inv {| vms := vms s; held := held s; ok := claim_name r :: ok s; spent := spent s;
         revision := revision s |}.
Proof.
  intros Hinv Hr Hon Hsp Hok. simpl in Hok. rewrite Hon in Hok. injection Hok as Hok.
  rewrite reservation_holds_spec in Hok by apply room_wf.
  pose proof Hinv as [Hn Hk H0 Hst Hb Hc]. split; simpl; [done| |done..|].
  - intros x [[<-|?]|?]; [by apply in_map|apply Hk; auto..].
  - intros q Hq [He|Hin]; [|by apply Hc].
    apply (same_name_same s r q Hinv Hr Hq) in He as <-. split_and!; [done..|].
    intros d. destruct (Hok d) as [|Hd]; [by left|]. right.
    rewrite room_along in Hd by done.
    pose proof (sum_of_filter_but_one (claim_size d) (upto s r) (ahead_of r) (held s) r
      (NoDup_fmap_1 claim_name _ Hn) (fun q Hq => upto_ahead s r q Hinv Hr Hq Hon)) as Hle.
    specialize (Hb d). simpl. change (List.filter (upto _ r) (held s)) with (List.filter (upto s r) (held s)).
    lia.
Qed.

Lemma inv_step_claim s r :
  inv s -> ~ In (claim_name r) (map claim_name (held s)) -> (revision s < i64_max)%Z ->
  resource_version (metadata r) = show_Z (revision s + 1) ->
  inv {| vms := vms s; held := held s ++ [r]; ok := ok s; spent := spent s;
         revision := revision s + 1 |}.
Proof.
  intros [Hn Hk H0 Hst Hb Hc] Hnew Hmax Hrv.
  assert (Hr : (made_at r).1 = (revision s + 1)%Z).
  { unfold made_at. rewrite Hrv, parse_i64_show by lia. done. }
  split; simpl; [| |lia| |done|].
  - rewrite map_app. apply NoDup_app. split_and!; [done| |apply NoDup_singleton].
    intros x Hx Hx'. apply list_elem_of_singleton in Hx'. subst x. apply Hnew.
    by apply list_elem_of_In.
  - intros x Hx. rewrite map_app. apply in_or_app. left. by apply Hk.
  - intros q [Hq|[<-|[]]]%in_app_or; [|exists (revision s + 1)%Z; split; [lia|done]].
    destruct (Hst q Hq) as (z & ? & ?). exists z. split; [lia|done].
  - intros q [Hq|[<-|[]]]%in_app_or Hin; [|exfalso; apply Hnew, Hk; auto].
    destruct (Hc q Hq Hin) as (Hon & Hsp & Hcov). split_and!; [done..|].
    intros d. destruct (Hcov d) as [|Hd]; [by left|]. right. simpl.
    rewrite List.filter_app. simpl.
    replace (upto _ q r) with false; [by rewrite app_nil_r|]. symmetry. unfold upto. simpl.
    apply andb_false_iff. right. apply orb_false_iff. split.
    + apply String.eqb_neq. intros He. apply Hnew. rewrite He. by apply in_map.
    + destruct (Hst q Hq) as (z & ? & Hz). unfold made_before, made_cmp. rewrite Hr, Hz.
      destruct (Z.compare_spec (revision s + 1) z); [lia..|done].
Qed.

Lemma bound_along_bind d l v l' :
  on_node v = false ->
  bound_along d (l ++ bound_to v on :: l')
  = (bound_along d (l ++ v :: l') + along d (Capacity.wanted_by v))%N.
Proof.
  intros Hv. unfold bound_along. rewrite !List.filter_app, !sum_of_app. simpl. rewrite Hv.
  replace (on_node (bound_to v on)) with true; [simpl; unfold Capacity.wanted_by; simpl; lia|].
  symmetry. by apply bool_decide_eq_true.
Qed.

Lemma upto_spec s r q :
  upto s r q = true <->
  CapacityReservationSpec.node (spec q) = on /\ ~ In (claim_name q) (spent s)
  /\ (claim_name q = claim_name r \/ made_before q r = true).
Proof.
  unfold upto. rewrite !andb_true_iff, orb_true_iff, negb_true_iff, !String.eqb_eq.
  rewrite <- not_true_iff_false, str_in_spec. tauto.
Qed.

Lemma upto_false s r q : In (claim_name q) (spent s) -> upto s r q = false.
Proof. intros H. apply not_true_iff_false. rewrite upto_spec. tauto. Qed.

(** Binding moves a claim's size from the claims to the bound guests. *)
Lemma covered_after_bind s r q d vms' ok' rev' :
  inv s -> In r (held s) -> In (claim_name r) (ok s) -> In q (held s) -> In (claim_name q) (ok s) ->
  claim_name q <> claim_name r ->
  bound_along d vms' = (bound_along d (vms s) + claim_size d r)%N ->
  covered {| vms := vms'; held := held s; ok := ok'; spent := claim_name r :: spent s;
             revision := rev' |} d q.
Proof.
  intros Hinv Hr Hrok Hq Hqok Hne Hb. pose proof Hinv as [_ _ _ _ _ Hc].
  destruct (Hc r Hr Hrok) as (Hron & Hrsp & Hrcov), (Hc q Hq Hqok) as (_ & _ & Hqcov).
  set (s' := Build_pstate _ _ _ _ _).
  assert (Hr' : upto s' q r = false) by (apply upto_false; by left).
  assert (Hup : forall x, upto s' q x = true -> upto s q x = true).
  { intros x. rewrite !upto_spec. simpl. tauto. }
  destruct (Hqcov d) as [|Hqd]; [by left|]. right. simpl. rewrite Hb.
  destruct (made_before r q) eqn:Eb.
  - pose proof (sum_of_filter_strict (claim_size d) (upto s' q) (upto s q) (held s) r Hr Hr'
      ltac:(apply upto_spec; auto) (fun y _ => Hup y)). lia.
  - destruct (Hrcov d) as [Hz|Hrd].
    + pose proof (sum_of_filter_mono (claim_size d) (upto s' q) (upto s q) (held s) (fun y _ => Hup y)). lia.
    + assert (Hqr : made_before q r = true) by (rewrite made_before_total, Eb by done; done).
      assert (Hlt : forall y, In y (held s) -> upto s' q y = true -> upto s r y = true).
      { intros y Hy. rewrite !upto_spec. simpl. intros (? & Hnot & [He|?]).
        - apply (same_name_same s y q Hinv Hy Hq) in He as ->. tauto.
        - split_and!; [done|tauto|]. right. by apply (made_before_trans y q r). }
      pose proof (sum_of_filter_strict (claim_size d) (upto s' q) (upto s r) (held s) r Hr Hr'
        ltac:(apply upto_spec; auto) Hlt). lia.
Qed.

Lemma inv_step_bind s r l v l' :
  inv s -> In r (held s) -> In (claim_name r) (ok s) -> vms s = l ++ v :: l' -> on_node v = false ->
  Capacity.wanted_by v = CapacityReservationSpec.size (spec r) ->
  inv {| vms := l ++ bound_to v on :: l'; held := held s; ok := drop_name (claim_name r) (ok s);
         spent := claim_name r :: spent s; revision := revision s + 1 |}.
Proof.
  intros Hinv Hr Hrok Hv Hoff Hsize.
  assert (Hb : forall d, bound_along d (l ++ bound_to v on :: l') = (bound_along d (vms s) + claim_size d r)%N).
  { intros d. rewrite bound_along_bind by done. by rewrite Hv, Hsize. }
  pose proof Hinv as [Hn Hk H0 Hst Hbd Hc]. split; simpl; [done| |lia| | |].
  - intros x [[Hx _]%in_drop_name|[<-|Hx]]; [auto|by apply in_map|auto].
  - intros q Hq. destruct (Hst q Hq) as (z & ? & ?). exists z. split; [lia|done].
  - intros d. rewrite Hb. destruct (Hc r Hr Hrok) as (? & ? & Hcov).
    destruct (Hcov d) as [Hz|Hd]; [specialize (Hbd d); lia|].
    pose proof (sum_of_filter_strict (claim_size d) (fun _ => false) (upto s r) (held s) r Hr eq_refl
      ltac:(apply upto_spec; auto) (fun _ _ H => ltac:(done))) as Hle. simpl in Hle. lia.
  - intros q Hq [Hqok Hne]%in_drop_name. destruct (Hc q Hq Hqok) as (? & Hqs & _).
    split_and!; [done|intros [?|?]; congruence|]. intros d. by apply covered_after_bind.
Qed.

Lemma inv_step_release s r :
  inv s ->
  inv {| vms := vms s;
         held := List.filter (fun q => negb (String.eqb (claim_name q) (claim_name r))) (held s);
         ok := drop_name (claim_name r) (ok s); spent := drop_name (claim_name r) (spent s);
         revision := revision s + 1 |}.
Proof.
  intros [Hn Hk H0 Hst Hb Hc]. split; simpl; [| |lia| |done|].
  - clear -Hn. induction (held s) as [|q l IH]; simpl in *; [done|]. apply NoDup_cons in Hn as [Hq Hn].
    destruct (negb _); [|auto]. simpl. apply NoDup_cons. split; [|auto].
    intros Hin. apply Hq. apply list_elem_of_In in Hin. apply list_elem_of_In.
    apply in_map_iff in Hin as (x & <- & [Hx _]%filter_In). by apply in_map.
  - intros x Hx. assert (Hin : In x (map claim_name (held s)) /\ x <> claim_name r).
    { destruct Hx as [[??]%in_drop_name|[??]%in_drop_name]; auto. }
    destruct Hin as [(q & <- & Hq)%in_map_iff Hne]. apply in_map, filter_In. split; [done|].
    apply negb_true_iff. by apply String.eqb_neq.
  - intros q [Hq _]%filter_In. destruct (Hst q Hq) as (z & ? & ?). exists z. split; [lia|done].
  - intros q [Hq _]%filter_In [Hqok _]%in_drop_name. destruct (Hc q Hq Hqok) as (? & ? & Hcov).
    split_and!; [done|rewrite in_drop_name; tauto|]. intros d.
    destruct (Hcov d) as [|Hd]; [by left|]. right. simpl. rewrite filter_filter_and.
    etrans; [|exact Hd]. apply N.add_le_mono_l, sum_of_filter_mono.
    intros x _ [Hx Hup]%andb_true_iff. apply negb_true_iff, String.eqb_neq in Hx.
    rewrite upto_spec in *. simpl in Hup. rewrite in_drop_name in Hup. tauto.
Qed.

Lemma inv_step s s' : step s s' -> inv s -> inv s'.
Proof.
  intros [] Hinv; eauto using inv_step_claim, inv_step_confirm, inv_step_bind, inv_step_release.
  destruct Hinv as [Hn Hk H0 Hst Hb Hc]. split; simpl; [done..|lia| | |].
  - intros q Hq. destruct (Hst q Hq) as (z & ? & ?). exists z. split; [lia|done].
  - intros d. etrans; [apply H|done].
  - intros q Hq Hqok. destruct (Hc q Hq Hqok) as (? & ? & Hcov). split_and!; [done..|].
    intros d. destruct (Hcov d) as [|Hd]; [by left|]. right. simpl. specialize (H d).
    change (List.filter (upto _ q) (held s0)) with (List.filter (upto s0 q) (held s0)). lia.
Qed.

(** The claims somebody may still turn into a binding. *)
Definition ok_claims (s : pstate) : list CapacityReservation :=
  List.filter (fun r => str_in (claim_name r) (ok s)) (held s).

(** No claims, and the bound guests fit. *)
Definition start (s : pstate) : Prop :=
  held s = [] /\ ok s = [] /\ spent s = [] /\ (0 <= revision s)%Z
  /\ forall d, (bound_along d (vms s) <= along d allowed)%N.

Lemma inv_start s : start s -> inv s.
Proof.
  intros (Hh & Ho & Hs & Hr & Hb). split; rewrite ?Hh, ?Ho, ?Hs; try done; [constructor|].
  by intros x [?|?].
Qed.

Lemma sum_of_filter_pos {A} (f : A -> N) (p : A -> bool) l :
  sum_of f (List.filter p l) = sum_of f (List.filter (fun x => p x && (0 <? f x)%N) l).
Proof.
  induction l as [|x l IH]; simpl; [done|]. destruct (p x); simpl; [|done].
  destruct (N.ltb_spec 0 (f x)); simpl; rewrite IH; lia.
Qed.

(** The last confirmed claim with a demand covers all of them. *)
Lemma inv_ok_fits s d :
  inv s -> (bound_along d (vms s) + sum_of (claim_size d) (ok_claims s) <= along d allowed)%N.
Proof.
  intros Hinv. pose proof Hinv as [_ _ _ _ Hb Hc]. unfold ok_claims. rewrite sum_of_filter_pos.
  set (p := fun x => _ && _). destruct (max_by made_cmp (List.filter p (held s))) as [m|] eqn:E.
  - apply max_by_some in E as [[Hm Hp]%filter_In Hmax]; [|apply _].
    apply andb_true_iff in Hp as [Hok%str_in_spec Hpos%N.ltb_lt].
    destruct (Hc m Hm Hok) as (_ & _ & Hcov). destruct (Hcov d) as [|Hd]; [lia|].
    etrans; [|exact Hd]. apply N.add_le_mono_l, sum_of_filter_mono. intros q Hq Hpq.
    pose proof Hpq as [Hqok%str_in_spec _]%andb_true_iff. destruct (Hc q Hq Hqok) as (? & ? & _).
    apply upto_spec. split_and!; [done..|].
    destruct (decide (claim_name q = claim_name m)) as [|Hne]; [by left|]. right.
    rewrite List.Forall_forall in Hmax. specialize (Hmax q ltac:(by apply filter_In)).
    unfold cmp_le in Hmax. pose proof (made_before_total q m Hne) as Ht. unfold made_before in *.
    rewrite (cmp_antisym (cmp := made_cmp) m q) in Ht. by destruct (made_cmp q m).
  - apply max_by_none in E. rewrite E. simpl. specialize (Hb d). lia.
Qed.

(** * Properties *)

(** C1. No interleaving of replicas overfills a node: after any sequence of
    claims, confirmations, bindings, releases and reaps, what the bound guests
    ask for and what every confirmed claim still to be bound asks for fit in
    the node's allowance together, in vCPUs and in memory, provided the guests
    bound at the start fit. *)
Theorem node_never_overfilled s0 s d :
  start s0 -> rtc step s0 s ->
  (bound_along d (vms s) + sum_of (claim_size d) (ok_claims s) <= along d allowed)%N.
Proof.
  intros Hs Hr. apply inv_ok_fits. apply inv_start in Hs.
  induction Hr; eauto using inv_step.
Qed.
End protocol.

(** A node with room for one example guest, and a placement that gets there. *)
Definition small_node : Node :=
  object_new API_VERSION "Node" "agent-9" "n-9" 1%Z NodeSpec.default
    {| NodeStatus.ready := true; NodeStatus.last_heartbeat := None; NodeStatus.agent_version := None;
       NodeStatus.capacity :=
         {| NodeCapacity.vcpus := 2; NodeCapacity.mem_mib := 600; NodeCapacity.capabilities := [];
            NodeCapacity.volume_localities := [] |};
       NodeStatus.vms := 0; NodeStatus.session_endpoint := None; NodeStatus.draining := None;
       NodeStatus.conditions := []; NodeStatus.machine := None |}.

Definition stamped (r : CapacityReservation) (rev : Z) : CapacityReservation :=
  with_metadata r (set_resource_version (metadata r) (show_Z rev)).

Definition example_claim : CapacityReservation :=
  stamped (reservation_for_placement "c-1" 1%Z (example_vm "v1") "agent-9") 8.

Definition run_start : pstate :=
  {| vms := [example_vm "v1"]; held := []; ok := []; spent := []; revision := 7 |}.

Definition run_end : pstate :=
  {| vms := [bound_to (example_vm "v1") "agent-9"]; held := [example_claim]; ok := [];
     spent := [claim_name example_claim]; revision := 9 |}.

Lemma node_never_overfilled_witness :
  bound_along small_node Mem (vms run_end) = 512%N
  /\ (bound_along small_node Mem (vms run_end) + sum_of (claim_size Mem) (ok_claims run_end)
      <= along Mem (allowed small_node Overcommit.default))%N.
Proof.
  split; [by vm_compute|].
  apply (node_never_overfilled small_node Overcommit.default (fun _ => "") run_start run_end Mem).
  - split_and!; [done..|]. intros []; apply N.leb_le; by vm_compute.
  - eapply rtc_l; [apply (step_claim _ _ _ run_start example_claim); [by intros []|done|done]|].
    eapply rtc_l; [apply (step_confirm _ _ _ _ example_claim);
                   [by left|done|by intros []|by vm_compute]|].
    eapply rtc_l; [|apply rtc_refl].
    apply (step_bind small_node Overcommit.default (fun _ => "")
             {| vms := [example_vm "v1"]; held := [example_claim]; ok := [claim_name example_claim];
                spent := []; revision := 8 |} example_claim [] (example_vm "v1") []);
      [by left|by left|done|by vm_compute|by vm_compute].
Defined.
