(* ===== verification/Commit.v ===== *)
(** The capacity commit over the store: [claim_holds] and [release] of
    [src/shared/controller-api/src/capacity.rs], and [claim] of
    [src/components/cluster-controller/src/reconcile/placement.rs]. *)
From Stdlib Require Import Ascii String NArith ZArith List Bool Lia.
From stdpp Require Import base list strings gmap relations.
From S2P Require Import Prelude RustStr Json Float64 Capability Phase Objects Store StoreSafety.
From S2P Require Import Heartbeat Vm Node Storage Sizing Placement Reservation Claims.

(** * The kinds *)

#[export] Instance node_resource : Resource NodeSpec.t NodeStatus.t :=
  {| RESOURCE := "nodes"; NAME_SHAPE := NameShape.DnsLabel; settle := fun _ o => o |}.

#[export] Instance reservation_resource : Resource CapacityReservationSpec.t unit :=
  {| RESOURCE := "capacityreservations"; NAME_SHAPE := NameShape.Dotted; settle := fun _ o => o |}.

(** The text of an instant is the date library's. *)
Definition vm_resource (to_rfc3339 : instant -> string) : Resource VmSpec.t VmStatus.t :=
  {| RESOURCE := "vms"; NAME_SHAPE := NameShape.DnsLabel; settle := vm_settle to_rfc3339 |}.

(** * Operations *)

Module Claimed.
Inductive t := Fresh (mine : CapacityReservation) | Standing (mine : CapacityReservation) | Gone.
End Claimed.

Section commit.
Context {D Bytes : Type} `{!Etcd D Bytes, !RawJson Bytes}.
Context `{!Serde Bytes NodeSpec.t NodeStatus.t, !Serde Bytes VmSpec.t VmStatus.t,
  !Serde Bytes CapacityReservationSpec.t unit, !Resource VmSpec.t VmStatus.t}.
Variable prefix : string.
Variable sur : surroundings D.
Variable store_error : StoreError.t -> string.

Definition claim_holds (mine : CapacityReservation) (overcommit : Overcommit.t) (w : world D)
    : world D * result string bool :=
  let '(w1, node) := get (Sp := NodeSpec.t) (St := NodeStatus.t) prefix sur
                       (CapacityReservationSpec.node (spec mine)) w in
  let '(w2, seen) := list2 (Sp := VmSpec.t) (St := VmStatus.t) (Sp' := CapacityReservationSpec.t)
                       (St' := unit) prefix sur w1 in
  (w2, confirmed store_error node seen mine overcommit).

(** Best effort: every outcome is logged and dropped. *)
Definition release (mine : CapacityReservation) (w : world D) : world D :=
  (delete_if (Sp := CapacityReservationSpec.t) (St := unit) prefix sur (name (metadata mine))
     (resource_version (metadata mine)) w).1.

(** The identifier and the time of the new claim come from outside; a failure is
    a store error or the sentence of a foreign claim. *)
Definition claim (uid : string) (now : instant) (v : Vm) (node : string) (w : world D)
    : world D * result (StoreError.t + string) Claimed.t :=
  let want := reservation_for_placement uid now v node in
  let key := name (metadata want) in
  match create prefix sur want w with
  | (w', Ok mine) => (w', Ok (Claimed.Fresh mine))
  | (w', Err (StoreError.AlreadyExists _)) | (w', Err (StoreError.Terminating _)) =>
      match get (Sp := CapacityReservationSpec.t) (St := unit) prefix sur key w' with
      | (w'', Ok standing) =>
          if is_placement_of standing v then (w'', Ok (Claimed.Standing standing))
          else (w'', Err (inr ("the claim key " +:+ key
                +:+ " is held by something that is not this guest's claim (vm uid "
                +:+ CapacityReservationSpec.vm_uid (spec standing) +:+ "); leaving it to the reaper")))
      | (w'', Err (StoreError.NotFound _)) => (w'', Ok Claimed.Gone)
      | (w'', Err e) => (w'', Err (inl e))
      end
  | (w', Err e) => (w', Err (inl e))
  end.
End commit.

(** * Lemmas *)

(** What a DNS label is. *)
Lemma check_label n :
  check_name n NameShape.DnsLabel = Ok tt ->
  str_is_empty n = false /\ (str_len n <= MAX_NAME)%N /\ str_forallb (name_char false) n = true
  /\ first_char_is is_ascii_alphanumeric n = true
  /\ first_char_is is_ascii_alphanumeric (str_rev n) = true.
Proof.
  unfold check_name. cbn [andb].
  destruct (str_is_empty n); [done|]. destruct (N.ltb_spec MAX_NAME (str_len n)); [done|].
  destruct (str_forallb _ n); [|done]. cbn [negb].
  destruct (first_char_is _ n); [|done]. destruct (first_char_is _ (str_rev n)); [|done]. done.
Qed.

Lemma contains_two_none a b s :
  str_forallb (fun c => negb (Ascii.eqb c a)) s = true -> contains_two a b s = false.
Proof.
  unfold str_forallb. induction s as [|x s IH]; [done|]. cbn [list_ascii_of_string forallb contains_two].
  intros [Hx Hs]%andb_true_iff. destruct s as [|y s]; [done|].
  apply negb_true_iff in Hx. rewrite Hx. cbn [andb orb]. by apply IH.
Qed.

Lemma first_char_app p s t :
  first_char_is p s = true -> first_char_is p (s +:+ t) = true.
Proof. destruct s; [done|]. by rewrite str_app_cons. Qed.

Lemma label_no_dot n :
  str_forallb (name_char false) n = true -> str_forallb (fun c => negb (Ascii.eqb c ".")) n = true.
Proof.
  apply str_forallb_impl. intros c Hc. apply negb_true_iff. apply Ascii.eqb_neq. by intros ->.
Qed.

Lemma placement_no_dots u :
  str_forallb (fun c => negb (Ascii.eqb c ".")) u = true ->
  contains_two "." "." (PLACEMENT_CLAIM_PREFIX +:+ u) = false.
Proof.
  intros Hu. unfold PLACEMENT_CLAIM_PREFIX. rewrite !str_app_cons, str_app_nil_l.
  cbn [contains_two Ascii.eqb Bool.eqb andb orb]. destruct u as [|c u]; [done|].
  rewrite contains_two_none by done. unfold str_forallb in Hu. simpl in Hu.
  apply andb_true_iff in Hu as [Hc _]. apply negb_true_iff in Hc. by rewrite Hc.
Qed.

Lemma str_len_app s t : str_len (s +:+ t) = (str_len s + str_len t)%N.
Proof.
  unfold str_len. induction s as [|c s IH]; [by rewrite str_app_nil_l|].
  rewrite str_app_cons. simpl String.length. lia.
Qed.

(** * Properties *)

(** The two roads to a node share a directory and never a key: a placement
    claim's name is never a valid migration name, whatever the guest's uid; and
    for a uid that is a label of at most 57 bytes, as generated uids are, the
    name is one the store accepts for a claim. *)
Theorem claim_keys_disjoint uid now v node :
  let claim_name := name (metadata (reservation_for_placement uid now v node)) in
  (forall m, check_name (name (metadata (m : VmMigration))) NameShape.DnsLabel = Ok tt ->
     name (metadata m) <> claim_name)
  /\ (check_name (Objects.uid (metadata v)) NameShape.DnsLabel = Ok tt ->
      (str_len (Objects.uid (metadata v)) <= 57)%N ->
      check_name claim_name (NAME_SHAPE (Sp := CapacityReservationSpec.t) (St := unit)) = Ok tt).
Proof.
  simpl. set (u := Objects.uid (metadata v)). split.
  - intros m (_ & _ & Hchars & _)%check_label He. rewrite He, str_forallb_app in Hchars.
    by apply andb_true_iff in Hchars as [? _].
  - intros (Hne & _ & Hchars & _ & Hlast)%check_label Hlen. unfold check_name.
    replace (str_is_empty (PLACEMENT_CLAIM_PREFIX +:+ u)) with false by done.
    replace (MAX_NAME <? str_len (PLACEMENT_CLAIM_PREFIX +:+ u))%N with false.
    2:{ symmetry. apply N.ltb_ge. rewrite str_len_app. unfold MAX_NAME. change (str_len PLACEMENT_CLAIM_PREFIX) with 6%N. lia. }
    rewrite str_forallb_app. rewrite (str_forallb_impl (name_char false) (name_char true) u) by
      (try done; intros c; unfold name_char; destruct (is_ascii_lowercase c || is_digit c || _); done).
    replace (contains_two "." "." (PLACEMENT_CLAIM_PREFIX +:+ u)) with false.
    2:{ symmetry. by apply placement_no_dots, label_no_dot. }
    rewrite str_rev_app. rewrite (first_char_app _ (str_rev u)) by done. done.
Qed.

(** Stored bytes that decode as one kind, or as none. *)
Inductive stored := StoredNode (n : Node) | StoredVm (v : Vm) | StoredClaim (r : CapacityReservation) | Undecodable.

#[export] Instance stored_raw : RawJson stored := {| raw := fun _ => None |}.

#[export] Instance stored_node : Serde stored NodeSpec.t NodeStatus.t :=
  {| to_vec := fun n => Ok (StoredNode n);
     from_slice := fun b => match b with StoredNode n => Ok n | _ => Err "expected value" end |}.

#[export] Instance stored_vm : Serde stored VmSpec.t VmStatus.t :=
  {| to_vec := fun v => Ok (StoredVm v);
     from_slice := fun b => match b with StoredVm v => Ok v | _ => Err "expected value" end |}.

#[export] Instance stored_claim : Serde stored CapacityReservationSpec.t unit :=
  {| to_vec := fun r => Ok (StoredClaim r);
     from_slice := fun b => match b with StoredClaim r => Ok r | _ => Err "expected value" end |}.

(** A node of 600 MiB, one guest of 512 MiB under [vms/v0], and a claim of
    512 MiB. *)
Definition full_node (guest : stored) : mem stored :=
  mem_commit mem_empty
    [Put "p/registry/nodes/agent-9" (StoredNode small_node) NoLease;
     Put "p/registry/vms/v0" guest NoLease;
     Put "p/registry/capacityreservations/place.v1" (StoredClaim example_claim) NoLease].

(** The capacity verdict does not see a guest the store cannot decode: on a
    full node the claim is refused, and when the bytes of the guest bound there
    no longer decode, the same claim is confirmed, without an error; the
    listing skips the object, and nothing compares it with the count of keys. *)
Theorem claim_holds_skips_undecodable :
  let ask guest := (claim_holds (Resource0 := vm_resource (fun _ => "")) "p" quiet (fun _ => "")
                      example_claim Overcommit.default (World (full_node guest) 0)).2 in
  ask (StoredVm (bound_to (example_vm "v0") "agent-9")) = Ok false
  /\ ask Undecodable = Ok true.
Proof. vm_compute. auto. Qed.
