(* ===== verification/Floating.v ===== *)
(** Floating addresses and routed subnets:
    [src/shared/controller-api/src/floating.rs] and its resources
    [src/shared/controller-api/src/resources/floating.rs].

    A reservation is an object named after its address, so that the store's
    create decides a race for it; the quota is asked again after the write, from a
    complete reading, and a reservation beyond it is taken back.  Subnets are cut
    out of the routed pools block by block. *)
From Stdlib Require Import Ascii String NArith ZArith List Bool Lia.
From stdpp Require Import base list strings gmap relations.
From S2P Require Import Prelude RustStr Json Phase Objects Net Store StoreSafety Deletion.

(** * Resources *)

Definition DEFAULT_QUOTA_PRIVATE : N := 4.
Definition DEFAULT_QUOTA_PUBLIC : N := 0.

Module FloatingPoolSpec.
Record t := mk {
  cidrs : list string;
  public : bool;
  default : bool;
  quota : smap N;
  description : string }.

Definition quota_for (p : t) (tenant : string) : N :=
  unwrap_or (if public p then DEFAULT_QUOTA_PUBLIC else DEFAULT_QUOTA_PRIVATE) (sget tenant (quota p)).
End FloatingPoolSpec.

Module FloatingIpSpec.
Record t := mk {
  tenant : string;
  pool : string;
  address : string;
  vm : option string;
  router : string;
  internal_address : string }.
End FloatingIpSpec.

Module FloatingIpStatus.
Record t := mk { observed_generation : N }.
End FloatingIpStatus.

Module RoutedSubnetSpec.
Record t := mk {
  tenant : string;
  cidr : string;
  prefix_len : option N;
  description : string }.
End RoutedSubnetSpec.

Module RoutedSubnetStatus.
Record t := mk { observed_generation : N }.
End RoutedSubnetStatus.

Definition FloatingPool : Type := Object FloatingPoolSpec.t unit.
Definition FloatingIp : Type := Object FloatingIpSpec.t FloatingIpStatus.t.
Definition RoutedSubnet : Type := Object RoutedSubnetSpec.t RoutedSubnetStatus.t.

#[export] Instance floating_pool_resource : Resource FloatingPoolSpec.t unit :=
  {| RESOURCE := "floatingpools"; NAME_SHAPE := NameShape.DnsLabel; settle := fun _ o => o |}.
#[export] Instance floating_ip_resource : Resource FloatingIpSpec.t FloatingIpStatus.t :=
  {| RESOURCE := "floatingips"; NAME_SHAPE := NameShape.Dotted; settle := fun _ o => o |}.
#[export] Instance routed_subnet_resource : Resource RoutedSubnetSpec.t RoutedSubnetStatus.t :=
  {| RESOURCE := "routedsubnets"; NAME_SHAPE := NameShape.DnsLabel; settle := fun _ o => o |}.
#[export] Instance floating_ip_settle : SettleLaws FloatingIpSpec.t FloatingIpStatus.t.
Proof. by constructor. Qed.

(** * Addresses *)

Definition MAX_ROUNDS : nat := 16.

Definition names {Sp St} (l : list (Object Sp St)) : string :=
  join ", " (map (fun o => name (metadata o)) l).

Definition pick_pool (pools : list FloatingPool) (named : option string)
  : result StoreError.t FloatingPool :=
  match (n ← named; if str_is_empty n then None else Some n) with
  | Some n =>
      ok_or (StoreError.NotFound ("floatingpools/" +:+ n))
        (List.find (fun p => String.eqb (name (metadata p)) n) pools)
  | None =>
      match List.filter (fun p => FloatingPoolSpec.default (spec p)) pools with
      | [one] => Ok one
      | [] =>
          Err (StoreError.Invalid
            (match pools with
             | [] => "this cloud has no floating pool; an administrator creates one with `meister floatingpool create`"
             | _ => "no floating pool is marked default; name one with --pool (have: " +:+ names pools +:+ ")"
             end))
      | many =>
          Err (StoreError.Invalid (show_N (N.of_nat (length many)) +:+ " pools are marked default (" +:+
                 names many +:+ "); exactly one may be"))
      end
  end.

(** A [BTreeSet<Ipv4Addr>], as its members in order. *)
Definition addresses (ips : list FloatingIp) : list N :=
  map fst (foldl (fun s a => bt_insert N.compare a tt s) []
             (filter_map (fun ip => Ipv4Addr.parse (FloatingIpSpec.address (spec ip))) ips)).

Definition holds_in (tenant pool : string) (ip : FloatingIp) : bool :=
  String.eqb (FloatingIpSpec.tenant (spec ip)) tenant && String.eqb (FloatingIpSpec.pool (spec ip)) pool.

(** [count() as u32]. *)
Definition held_by (ips : list FloatingIp) (tenant pool : string) : N :=
  N.of_nat (length (List.filter (holds_in tenant pool) ips)) mod (u32_max + 1).

Definition pick_address (ranges : Ipv4Ranges.t) (pool : FloatingPool) (wanted : option N) (taken : list N)
  : result StoreError.t N :=
  let nm := name (metadata pool) in
  let listed := join ", " (FloatingPoolSpec.cidrs (spec pool)) in
  match wanted with
  | None =>
      ok_or (StoreError.Conflict ("floating pool " +:+ nm +:+ " has no free address left (" +:+
               show_N (N.of_nat (length taken)) +:+ " of " +:+ show_N (Ipv4Ranges.len ranges) +:+ " in use)"))
        (Ipv4Ranges.first_free ranges taken)
  | Some addr =>
      let a := Ipv4Addr.to_string addr in
      if negb (Ipv4Ranges.contains ranges addr)
      then Err (StoreError.Conflict (a +:+ " is not in floating pool " +:+ nm +:+ " (" +:+ listed +:+ ")"))
      else if negb (Ipv4Ranges.is_allocatable ranges addr)
      then Err (StoreError.Conflict (a +:+ " is the network or the broadcast address of a range in floating pool "
                  +:+ nm +:+ " (" +:+ listed +:+ ") and is not handed out"))
      else if existsb (N.eqb addr) taken
      then Err (StoreError.Conflict (a +:+ " is already reserved"))
      else Ok addr
  end.

Definition within_quota (after : list FloatingIp) (tenant pool : string) (quota : N) : bool :=
  (held_by after tenant pool <=? quota)%N.

Module Pointing.
Record t := mk { vm : option string; router : string; internal_address : string }.
End Pointing.

Definition reservation (tenant : string) (pool : FloatingPool) (address uid : string) (now : instant)
    (p : Pointing.t) : FloatingIp :=
  object_new API_VERSION "FloatingIp" address uid now
    (FloatingIpSpec.mk tenant (name (metadata pool)) address (Pointing.vm p) (Pointing.router p)
       (Pointing.internal_address p))
    (FloatingIpStatus.mk 0).

Definition over_quota (tenant : string) (pool : FloatingPool) (quota : N) : StoreError.t :=
  let nm := name (metadata pool) in
  StoreError.Invalid
    (if (quota =? 0)%N
     then "tenant " +:+ tenant +:+ " has no quota in floating pool " +:+ nm +:+
          "; an administrator grants one with `meister floatingpool quota " +:+ nm +:+ " " +:+ tenant +:+ " <n>`"
     else "tenant " +:+ tenant +:+ " already holds all " +:+ show_N quota +:+
          " of its addresses in floating pool " +:+ nm +:+
          "; an administrator raises it with `meister floatingpool quota " +:+ nm +:+ " " +:+ tenant +:+ " <n>`").

Section allocate.
Context {D Bytes : Type} `{!Etcd D Bytes, !RawJson Bytes, !Serde Bytes FloatingIpSpec.t FloatingIpStatus.t}.
Variable prefix : string.
Variable sur : surroundings D.
(** The fresh identifier of a declared reservation. *)
Variable new_uid : nat -> string.

Definition all_reservations : store_m D (list FloatingIp) :=
  list_complete prefix sur
    "which addresses are taken cannot be established; refusing rather than handing out one twice".

(** One round at a chosen address; [again] is the rest of the loop. *)
Definition reserve (quota : N) (pool : FloatingPool) (tenant : string) (wanted : option N)
    (pointing : Pointing.t) (dry : bool) (again : store_m D FloatingIp) (address : N) : store_m D FloatingIp :=
  fun w =>
    let object := reservation tenant pool (Ipv4Addr.to_string address) (new_uid (ticks w))
                    (clock sur (ticks w)) pointing in
    match preview dry object with
    | Some shown => (w, Ok shown)
    | None =>
        match create prefix sur object w with
        | (w', Ok created) =>
            (after ← all_reservations;
             if within_quota after tenant (name (metadata pool)) quota then mret created
             else _ ← take_back_created prefix sur created; again) w'
        | (w', Err (StoreError.AlreadyExists _)) =>
            match wanted with
            | Some _ => (w', Err (StoreError.Conflict (Ipv4Addr.to_string address +:+ " is already reserved")))
            | None => again w'
            end
        | (w', Err e) => (w', Err e)
        end
    end.

(** [for _ in 0..MAX_ROUNDS]. *)
Fixpoint allocate_loop (ranges : Ipv4Ranges.t) (quota : N) (pool : FloatingPool) (tenant : string)
    (wanted : option N) (pointing : Pointing.t) (dry : bool) (rounds : nat) : store_m D FloatingIp :=
  match rounds with
  | O => lift (Err (StoreError.Conflict ("lost " +:+ show_N (N.of_nat MAX_ROUNDS) +:+
           " races for an address in floating pool " +:+ name (metadata pool) +:+ " (retries exhausted)")))
  | Datatypes.S rounds =>
      existing ← all_reservations;
      if (quota <=? held_by existing tenant (name (metadata pool)))%N then lift (Err (over_quota tenant pool quota))
      else
        address ← lift (pick_address ranges pool wanted (addresses existing));
        reserve quota pool tenant wanted pointing dry
          (allocate_loop ranges quota pool tenant wanted pointing dry rounds) address
  end.

Definition allocate (pool : FloatingPool) (tenant : string) (wanted : option N) (pointing : Pointing.t)
    (dry : bool) : store_m D FloatingIp :=
  ranges ← lift (map_err (fun e => StoreError.Invalid ("floating pool " +:+ name (metadata pool) +:+
                   " has an unusable range: " +:+ range_error_to_string e))
                 (Ipv4Ranges.parse (FloatingPoolSpec.cidrs (spec pool))));
  allocate_loop ranges (FloatingPoolSpec.quota_for (spec pool) tenant) pool tenant wanted pointing dry MAX_ROUNDS.
End allocate.

(** * Routed subnets *)

Definition occupied (pools : list FloatingPool) (subnets : list RoutedSubnet) (except : option string)
  : list (string * Ipv4Range) :=
  flat_map (fun p =>
    filter_map (fun entry =>
      option_map (fun range => ("floating pool " +:+ name (metadata p), range)) (result_ok (range_from_str entry)))
      (FloatingPoolSpec.cidrs (spec p))) pools
  ++ filter_map (fun s =>
       if bool_decide (except = Some (name (metadata s))) then None
       else option_map (fun range => ("routed subnet " +:+ name (metadata s) +:+ " (tenant " +:+
                                        RoutedSubnetSpec.tenant (spec s) +:+ ")", range))
              (result_ok (range_from_str (RoutedSubnetSpec.cidr (spec s))))) subnets.

Definition check_free (candidate : Ipv4Range) (taken : list (string * Ipv4Range)) : result StoreError.t unit :=
  match List.find (fun p => overlaps p.2 candidate) taken with
  | Some (what, range) =>
      Err (StoreError.Conflict (range_to_string candidate +:+ " overlaps " +:+ what +:+ " (" +:+
             range_to_string range +:+ ")"))
  | None => Ok tt
  end.

(** The [while] loop over the blocks of one range, from [base]; [Err] is the early
    return of a candidate that does not parse. *)
Fixpoint cut_blocks (fuel : nat) (prefix_len size last base : N) (taken : list (string * Ipv4Range))
  : result unit (option Ipv4Range) :=
  match fuel with
  | O => Ok None
  | Datatypes.S fuel =>
      if (base + size - 1 <=? last)%N then
        match range_from_str (Ipv4Addr.to_string base +:+ "/" +:+ show_N prefix_len) with
        | Err _ => Err tt
        | Ok candidate =>
            if negb (existsb (fun p => overlaps p.2 candidate) taken) then Ok (Some candidate)
            else cut_blocks fuel prefix_len size last (base + size) taken
        end
      else Ok None
  end.

Definition div_ceil (a b : N) : N := ((a + b - 1) / b)%N.

Fixpoint cut_ranges (prefix_len size : N) (supers : Ipv4Ranges.t) (taken : list (string * Ipv4Range))
  : option Ipv4Range :=
  match supers with
  | [] => None
  | range :: supers =>
      let base := (div_ceil (start range) size * size)%N in
      match cut_blocks (N.to_nat ((end_ range + 1 - start range) / size)) prefix_len size (end_ range) base taken with
      | Err _ => None
      | Ok (Some candidate) => Some candidate
      | Ok None => cut_ranges prefix_len size supers taken
      end
  end.

Definition cut_subnet (supers : Ipv4Ranges.t) (prefix_len : N) (taken : list (string * Ipv4Range))
  : option Ipv4Range :=
  if (32 <? prefix_len)%N then None
  else cut_ranges prefix_len (N.shiftl 1 (32 - prefix_len)) supers taken.

Section lists.
Context {D Bytes : Type} `{!Etcd D Bytes, !Serde Bytes FloatingPoolSpec.t unit,
  !Serde Bytes RoutedSubnetSpec.t RoutedSubnetStatus.t}.
Variable prefix : string.
Variable sur : surroundings D.

Definition all_subnets : store_m D (list RoutedSubnet) :=
  list_complete prefix sur
    "an overlap check cannot be made; refusing rather than cutting a subnet on top of another one".

Definition all_pools : store_m D (list FloatingPool) :=
  list_complete prefix sur
    "the pools are not all known; refusing rather than allocating out of a list that is not all of them".
End lists.

(** * Lemmas *)

(** ** Cutting *)

Lemma existsb_taken (taken : list (string * Ipv4Range)) r :
  existsb (fun p => overlaps p.2 r) taken = false <-> Forall (fun p => overlaps p.2 r = false) taken.
Proof.
  induction taken as [|p l IH]; simpl; [by split|].
  rewrite orb_false_iff, IH, Forall_cons. done.
Qed.

(** The block of [2 ^ (32 - prefix_len)] addresses at an aligned base. *)
Definition block (prefix_len base : N) : Ipv4Range :=
  {| start := base; end_ := base + (2 ^ (32 - prefix_len) - 1); edges_reserved := (prefix_len <=? 30)%N |}.

Lemma block_parses prefix_len base :
  (prefix_len <= 32)%N -> (base <= u32_max)%N -> (base mod 2 ^ (32 - prefix_len) = 0)%N ->
  range_from_str (Ipv4Addr.to_string base +:+ "/" +:+ show_N prefix_len) = Ok (block prefix_len base).
Proof.
  intros Hp Hb Hm. rewrite range_parse_block by done. f_equal.
  replace prefix_len with (32 - (32 - prefix_len))%N at 1 by lia.
  rewrite cidr_range_aligned by lia. unfold block. f_equal. f_equal. lia.
Qed.

(** Whether a block is free, and within a range. *)
Definition free_block (prefix_len : N) (taken : list (string * Ipv4Range)) (b : N) : Prop :=
  Forall (fun p => overlaps p.2 (block prefix_len b) = false) taken.
Definition block_in (prefix_len b : N) (s : Ipv4Range) : Prop :=
  (b mod 2 ^ (32 - prefix_len) = 0 /\ start s <= b /\ b + (2 ^ (32 - prefix_len) - 1) <= end_ s)%N.

(** Aligned numbers are a block apart. *)
Lemma aligned_next size base b :
  (size <> 0 -> base mod size = 0 -> b mod size = 0 -> base <= b -> b = base \/ base + size <= b)%N.
Proof.
  intros Hs Hm%N.Div0.div_exact Hb%N.Div0.div_exact Hle. rewrite Hm, Hb in *.
  set (q := (base / size)%N) in *. set (r := (b / size)%N) in *. clearbody q r.
  destruct (N.lt_trichotomy q r) as [?|[->|?]]; [right|by left|]; nia.
Qed.

(** One range: the lowest free block from [base] on, or none is free. *)
Lemma cut_blocks_spec fuel prefix_len last base taken :
  let size := (2 ^ (32 - prefix_len))%N in
  (prefix_len <= 32)%N -> (last <= u32_max)%N -> (base mod size = 0)%N ->
  (last + 1 < base + size * (N.of_nat fuel + 1))%N ->
  match cut_blocks fuel prefix_len size last base taken with
  | Ok (Some r) => exists b, r = block prefix_len b /\ (b mod size = 0)%N /\ (base <= b)%N /\
      (b + (size - 1) <= last)%N /\ free_block prefix_len taken b /\
      forall b', (b' mod size = 0)%N -> (base <= b' < b)%N -> ~ free_block prefix_len taken b'
  | Ok None => forall b, (b mod size = 0)%N -> (base <= b)%N -> (b + (size - 1) <= last)%N ->
      ~ free_block prefix_len taken b
  | Err _ => False
  end.
Proof.
  intros size Hp Hl. assert (Hs : size <> 0%N) by (by apply N.pow_nonzero).
  revert base. induction fuel as [|fuel IH]; intros base Hm Hf; simpl.
  { intros b Hb Hle Hin. rewrite N.mul_1_r in Hf. lia. }
  destruct (base + size - 1 <=? last)%N eqn:E; [|intros b; lia].
  assert (Hnext : ((base + size) mod size = 0)%N).
  { rewrite <- (N.mul_1_l size) at 1. rewrite N.Div0.mod_add. done. }
  assert (Hstep : forall b, (b mod size = 0)%N -> (base <= b)%N -> b = base \/ (base + size <= b)%N).
  { intros b Hb Hle. by apply aligned_next. }
  rewrite block_parses; [|lia|lia|done].
  destruct (existsb _ taken) eqn:Ex; simpl.
  - assert (Hbusy : ~ free_block prefix_len taken base).
    { intros Hfree. apply existsb_taken in Hfree. congruence. }
    specialize (IH (base + size)%N Hnext ltac:(rewrite Nat2N.inj_succ in Hf; lia)).
    destruct (cut_blocks _ _ _ _ _ _) as [[r|]|]; [| |done].
    + destruct IH as (b & -> & Hb & Hle & Hin & Hfree & Hlow). exists b. split_and!; try done; [lia|].
      intros b' Hb' Hr. destruct (Hstep b' Hb') as [->|]; [lia|done|]. apply Hlow; [done|lia].
    + intros b Hb Hle Hin. destruct (Hstep b Hb Hle) as [->|]; [done|]. by apply IH.
  - exists base. apply existsb_taken in Ex. split_and!; try done; [lia|]. intros b' _ ?. lia.
Qed.

Lemma cut_fuel_enough s size :
  (size <> 0 -> start s <= end_ s ->
   let base := div_ceil (start s) size * size in
   start s <= base /\ base mod size = 0 /\ (forall b, b mod size = 0 -> start s <= b -> base <= b) /\
   end_ s + 1 < base + size * (N.of_nat (N.to_nat ((end_ s + 1 - start s) / size)) + 1))%N.
Proof.
  intros Hs Hse base. subst base. unfold div_ceil. rewrite N2Nat.id.
  pose proof (N.div_mod (start s + size - 1) size Hs).
  pose proof (N.mod_lt (start s + size - 1) size Hs).
  pose proof (N.div_mod (end_ s + 1 - start s) size Hs).
  pose proof (N.mod_lt (end_ s + 1 - start s) size Hs).
  set (q := ((start s + size - 1) / size)%N) in *.
  split_and!; [lia|by rewrite N.Div0.mod_mul| |lia].
  intros b Hb%N.Div0.div_exact Hle. set (r := (b / size)%N) in *. clearbody q r.
  assert (q <= r)%N; [|nia]. apply N.le_ngt. intros Hlt.
  assert (size * (r + 1) <= size * q)%N by (apply N.mul_le_mono_l; lia).
  generalize dependent ((start s + size - 1) mod size)%N. intros. clear H1 H2. lia.
Qed.

Lemma cut_ranges_spec prefix_len supers taken :
  (prefix_len <= 32)%N -> Forall range_wf supers ->
  match cut_ranges prefix_len (2 ^ (32 - prefix_len)) supers taken with
  | Some r => exists before s after b, supers = before ++ s :: after /\ r = block prefix_len b /\
      block_in prefix_len b s /\ free_block prefix_len taken b /\
      (forall b', block_in prefix_len b' s -> (b' < b)%N -> ~ free_block prefix_len taken b') /\
      Forall (fun s' => forall b', block_in prefix_len b' s' -> ~ free_block prefix_len taken b') before
  | None => Forall (fun s => forall b, block_in prefix_len b s -> ~ free_block prefix_len taken b) supers
  end.
Proof.
  intros Hp. assert (Hs : (2 ^ (32 - prefix_len) <> 0)%N) by (by apply N.pow_nonzero).
  induction supers as [|s supers IH]; [constructor|].
  intros [(Hse & Hmax & _) Hwf]%Forall_cons. cbn [cut_ranges].
  destruct (cut_fuel_enough s _ Hs Hse) as (Hb1 & Hb2 & Hb3 & Hb4).
  pose proof (cut_blocks_spec _ _ _ _ taken Hp Hmax Hb2 Hb4) as H. revert H.
  destruct (cut_blocks _ _ _ _ _ _) as [[r|]|]; [| |done].
  - intros (b & -> & Hm & Hle & Hin & Hf & Hlow). exists [], s, supers, b.
    split_and!; try done; [split_and!; [done|lia|done]|].
    intros b' (Hm' & Hs' & Hi') Hlt. apply Hlow; [done|]. split; [by apply Hb3|done].
  - intros Hnone. assert (Hhead : forall b, block_in prefix_len b s -> ~ free_block prefix_len taken b).
    { intros b (Hm' & Hs' & Hi'). apply Hnone; [done|by apply Hb3|done]. }
    specialize (IH Hwf). destruct (cut_ranges _ _ supers _) as [r|]; [|by constructor].
    destruct IH as (bf & s' & af & b & -> & -> & Hin & Hf & Hlow & Hbf).
    exists (s :: bf), s', af, b. split_and!; try done. by constructor.
Qed.

(** Cutting a routed subnet is exact.  For a prefix length up to 32 the cut is the
    first free aligned block of that size: it lies in one of the routed pools,
    overlaps nothing that is taken, and every earlier aligned block, lower in that pool
    or in an earlier one, overlaps something taken; and nothing is cut exactly when
    every aligned block of every pool is taken, so the scan runs to the end of the
    pools. *)
Theorem cut_subnet_exact supers prefix_len taken :
  Forall range_wf supers -> (prefix_len <= 32)%N ->
  match cut_subnet supers prefix_len taken with
  | Some r => exists before s after b, supers = before ++ s :: after /\ r = block prefix_len b /\
      block_in prefix_len b s /\ free_block prefix_len taken b /\
      (forall b', block_in prefix_len b' s -> (b' < b)%N -> ~ free_block prefix_len taken b') /\
      Forall (fun s' => forall b', block_in prefix_len b' s' -> ~ free_block prefix_len taken b') before
  | None => Forall (fun s => forall b, block_in prefix_len b s -> ~ free_block prefix_len taken b) supers
  end.
Proof.
  intros Hwf Hp. unfold cut_subnet. replace (32 <? prefix_len)%N with false by lia.
  rewrite N.shiftl_1_l. by apply cut_ranges_spec.
Qed.

(** ** A fact about the database that operations keep *)

Section stays.
Context {D Bytes : Type} `{!Etcd D Bytes, !EtcdLaws D Bytes, !RawJson Bytes}.
Context (prefix : string) (sur : surroundings D) (P : D -> Prop).

(** Whatever the outcome, [P] outlives the operation. *)
Definition stays {A} (m : store_m D A) : Prop := forall w, P (db w) -> P (db (m w).1).

Lemma stays_ret {A} (a : A) : stays (mret a).
Proof. by intros w. Qed.

Lemma stays_lift {A} (r : result StoreError.t A) : stays (lift r).
Proof. by intros w. Qed.

Lemma stays_bind {A B} (m : store_m D A) (k : A -> store_m D B) :
  stays m -> (forall a, stays (k a)) -> stays (m ≫= k).
Proof.
  intros Hm Hk w Hw. specialize (Hm w Hw). unfold mbind, store_bind.
  destruct (m w) as [w1 [a|e]]; [by apply Hk|done].
Qed.

Context (Henv : forall n s, P s -> P (env sur n s)).

Lemma stays_timed {A} what (f : D -> D * A) : (forall s, P s -> P (f s).1) -> stays (timed sur what f).
Proof.
  intros Hf w Hw. unfold timed. destruct (fault sur (ticks w)) as [|[] how]; simpl.
  - specialize (Hf _ (Henv (ticks w) _ Hw)). by destruct (f _).
  - auto.
  - auto.
Qed.

Lemma stays_read {A} what (f : D -> A) : stays (read sur what f).
Proof. by apply stays_timed. Qed.
End stays.

(** ** A key that is there *)

Section present.
Context {D Bytes : Type} `{!Etcd D Bytes, !EtcdLaws D Bytes, !RawJson Bytes}.
Context {Sp St : Type} `{!Resource Sp St, !Serde Bytes Sp St}.
Context (prefix : string) (sur : surroundings D) (k0 : string).
Abbreviation key := (key_of (Sp := Sp) (St := St) prefix).

Definition present (s : D) : Prop := is_some (look s k0) = true.
Context (Henv : forall n s, present s -> present (env sur n s)).

Lemma present_txn s cs w ws e :
  forallb (puttable s) (w :: ws) = true -> Forall (fun w => w <> Delete k0) (w :: ws) ->
  present s -> present (etcd_txn s cs (w :: ws) e).1.
Proof.
  intros Hp Hw Hs. destruct (forallb (holds s) cs) eqn:E; [|by rewrite txn_refused].
  destruct (txn_applied s cs w ws e E Hp) as (s' & -> & _ & Hl). unfold present. simpl. rewrite Hl.
  unfold after_writes. unfold present in Hs. generalize dependent (look s k0). clear -Hw.
  generalize dependent (w :: ws). intros l Hw. induction Hw as [|x l Hx _ IH]; simpl; [done|].
  intros o Ho. apply IH. destruct x as [k v ls|k]; simpl; destruct (String.eqb_spec k k0); try done.
  by subst.
Qed.

Lemma stays_get nm : stays present (get (Sp := Sp) (St := St) prefix sur nm).
Proof.
  apply stays_bind; [by apply stays_read|]. intros [kv|]; apply stays_lift.
Qed.

Lemma stays_list_complete stake : stays present (list_complete (Sp := Sp) (St := St) prefix sur stake).
Proof.
  apply stays_bind.
  - apply stays_bind; [by apply stays_read|]. intros kvs. apply stays_ret.
  - intros r. destruct (negb _); [apply stays_lift|apply stays_ret].
Qed.

Lemma stays_create (o : Object Sp St) : stays present (create prefix sur o).
Proof.
  apply stays_bind; [apply stays_lift|]. intros []. apply stays_bind; [by intros w|].
  intros at_. apply stays_bind; [apply stays_lift|]. intros value.
  apply stays_bind.
  - apply stays_timed; [done|]. intros s Hs. apply present_txn; [done| |done]. by repeat constructor.
  - intros resp. destruct (negb _); [apply stays_lift|]. unfold written.
    destruct (header resp); [apply stays_lift|apply stays_get].
Qed.

(** An object read from the store names a revision. *)
Definition versioned (o : Object Sp St) : Prop :=
  forall rev, parse_i64 (resource_version (metadata o)) = Some rev -> rev <> 0%Z.

Lemma decode_versioned (b : Bytes) rev (o : Object Sp St) :
  (0 < rev)%Z -> decode b rev = Ok o -> versioned o.
Proof.
  intros Hr Hd v Hv. rewrite (decode_version _ _ _ Hd) in Hv. apply parse_i64_show_inv in Hv; lia.
Qed.

Lemma stays_delete_if nm (o : Object Sp St) :
  key nm <> k0 -> versioned o ->
  stays present (delete_if (Sp := Sp) (St := St) prefix sur nm (resource_version (metadata o))).
Proof.
  intros Hne Hv w Hw. unfold delete_if, parsed_version.
  destruct (parse_i64 _) as [rev|] eqn:E; [|done]. specialize (Hv rev E).
  change (present (db ((txn sur "delete_if" [ModRevision (key nm) rev] [Delete (key nm)] None ≫=
    fun resp => if negb (succeeded resp) then lift (Err (conflict_on (Sp := Sp) (St := St) nm "concurrent write"))
                else mret tt) w).1)).
  revert w Hw. change (stays present (txn sur "delete_if" [ModRevision (key nm) rev] [Delete (key nm)] None ≫=
    fun resp => if negb (succeeded resp) then lift (Err (conflict_on (Sp := Sp) (St := St) nm "concurrent write"))
                else mret tt)).
  apply stays_bind.
  - apply stays_timed; [done|]. intros s Hs. destruct (look s (key nm)) as [kv|] eqn:El.
    + apply present_txn; [simpl; by rewrite El| |done]. repeat constructor. congruence.
    + rewrite txn_refused; [done|]. simpl. rewrite El. lia.
  - intros resp. destruct (negb _); [apply stays_lift|apply stays_ret].
Qed.

Lemma stays_finish_loop nm uid concluded attempts (o : Object Sp St) :
  key nm <> k0 -> versioned o -> stays present (finish_loop prefix sur nm uid concluded attempts o).
Proof.
  intros Hne. revert o. induction attempts as [|n IH]; intros o Hv; [apply stays_ret|]. simpl.
  destruct (concluded o); simpl; [|apply stays_ret]. intros w Hw.
  pose proof (stays_delete_if nm o Hne Hv w Hw) as H1.
  destruct (delete_if _ _ _ _ _) as [w1 [[]|e]] eqn:E1; [done|]. destruct e; try done. simpl in H1.
  pose proof (stays_get nm w1 H1) as H2.
  destruct (get _ _ _ _) as [w2 [fresh|e]] eqn:E2; simpl in H2; [|by destruct e].
  destruct (String.eqb _ _); [|done]. apply IH; [|done].
  apply get_ok in E2 as (kv & Hk & _ & Hd). eapply decode_versioned; [|exact Hd].
  apply look_bounds in Hk as [? _]. lia.
Qed.

Lemma stays_take_back (o : Object Sp St) :
  key (name (metadata o)) <> k0 -> versioned o -> stays present (take_back_created prefix sur o).
Proof.
  intros Hne Hv. apply stays_bind; [by apply stays_finish_loop|]. intros done_. apply stays_bind.
  - destruct done_; [apply stays_ret|]. intros w Hw. unfold is_gone.
    pose proof (stays_get (name (metadata o)) w Hw) as H1.
    by destruct (get _ _ _ _) as [w1 [?|[]]].
  - intros gone. destruct gone; [apply stays_ret|apply stays_lift].
Qed.
End present.

(** ** Allocation *)

Lemma pick_address_ok ranges pool wanted taken a :
  Forall range_wf ranges -> pick_address ranges pool wanted taken = Ok a ->
  Ipv4Ranges.is_allocatable ranges a = true /\ ~ In a taken /\ (forall x, wanted = Some x -> a = x).
Proof.
  intros Hwf. unfold pick_address. destruct wanted as [addr|].
  - destruct (Ipv4Ranges.contains _ _); [|done]. simpl.
    destruct (Ipv4Ranges.is_allocatable _ _) eqn:E; [|done]. simpl.
    destruct (existsb _ _) eqn:Ex; [done|]. intros [= <-]. split_and!; [done| |by intros x [= ->]].
    intros Hin. assert (existsb (N.eqb addr) taken = true); [|congruence].
    apply existsb_exists. exists addr. split; [done|apply N.eqb_refl].
  - unfold Ipv4Ranges.first_free. destruct (List.find _ _) as [b|] eqn:E; [|done]. intros [= <-].
    apply find_some in E as [Hin Hf]. split_and!; [| |done].
    + apply in_flat_map in Hin as (r & Hr & Hb). apply existsb_exists. exists r. split; [done|].
      apply in_allocatable; [|done]. by eapply (proj1 (List.Forall_forall _ _) Hwf).
    + intros Ht. assert (existsb (N.eqb b) taken = true); [|by destruct (existsb _ _)].
      apply existsb_exists. exists b. split; [done|apply N.eqb_refl].
Qed.

Section complete.
Context {D Bytes : Type} `{!Etcd D Bytes, !EtcdLaws D Bytes, !RawJson Bytes}.
Context {Sp St : Type} `{!Resource Sp St, !Serde Bytes Sp St}.
Abbreviation dir p := (dir_of (Sp := Sp) (St := St) p).

(** A complete listing: every key decoded. *)
Lemma list_complete_ok (prefix : string) (sur : surroundings D) stake w w' (l : list (Object Sp St)) :
  list_complete prefix sur stake w = (w', Ok l) ->
  w' = World (before sur w) (S (ticks w)) /\ l = decode_range (range (before sur w) (dir prefix)) /\
  length l = length (range (before sur w) (dir prefix)).
Proof.
  unfold list_complete. intros (w1 & r & H & Hl)%bind_ok.
  apply bind_ok in H as (w2 & kvs & Hr & H). apply timed_ok in Hr as [-> ->]. injection H as <- <-.
  simpl in Hl. fold (before sur w) in *.
  destruct (Nat.eqb_spec (length (decode_range (range (before sur w) (dir prefix))))
              (length (range (before sur w) (dir prefix)))); [|done].
  by injection Hl as <- <-.
Qed.

(** Nothing was left out of it. *)
Lemma decode_all (kvs : list (string * kv Bytes)) k v :
  length (decode_range (Sp := Sp) (St := St) kvs) = length kvs -> In (k, v) kvs ->
  exists o, decode (kv_value v) (mod_revision v) = Ok o /\ In o (decode_range (Sp := Sp) (St := St) kvs).
Proof.
  assert (Hle : forall l, (length (decode_range (Sp := Sp) (St := St) l) <= length l)%nat).
  { unfold decode_range. intros l. induction l as [|[k0 v0] l IH]; simpl; [lia|]. destruct (result_ok _); simpl; lia. }
  induction kvs as [|[k0 v0] kvs IH]; simpl; [done|]. specialize (Hle kvs). unfold decode_range in *. simpl.
  destruct (decode (kv_value v0) (mod_revision v0)) as [o|e] eqn:E; simpl; [|intros Hbad; exfalso; lia].
  intros [= Hlen] [[= <- <-]|Hin]; [exists o; auto|]. destruct (IH Hlen Hin) as (o' & Ho & Hi). exists o'. auto.
Qed.
End complete.

Section facts.
Context {D Bytes : Type} `{!Etcd D Bytes, !EtcdLaws D Bytes, !RawJson Bytes}.
Context `{!Serde Bytes FloatingIpSpec.t FloatingIpStatus.t, !SerdeLaws Bytes FloatingIpSpec.t FloatingIpStatus.t}.
Variable prefix : string.
Variable sur : surroundings D.
Variable new_uid : nat -> string.
Abbreviation key := (key_of (Sp := FloatingIpSpec.t) (St := FloatingIpStatus.t) prefix).
Abbreviation dir := (dir_of (Sp := FloatingIpSpec.t) (St := FloatingIpStatus.t) prefix).

(** The reservations a database holds, as far as they decode. *)
Definition reservations (s : D) : list FloatingIp := decode_range (range s dir).

(** All of them do. *)
Definition all_decode (s : D) : Prop := length (reservations s) = length (range s dir).

Lemma all_reservations_ok w w' l :
  all_reservations prefix sur w = (w', Ok l) ->
  w' = World (before sur w) (S (ticks w)) /\ l = reservations (before sur w) /\ all_decode (before sur w).
Proof.
  unfold all_reservations. intros (-> & -> & Hl)%list_complete_ok. done.
Qed.

(** A reservation written where there was none, and the reading that kept it. *)
Definition granted (quota : N) (pool : FloatingPool) (tenant : string) (pointing : Pointing.t) (a : N)
    (w' : world D) (ip : FloatingIp) : Prop :=
  name (metadata ip) = Ipv4Addr.to_string a /\
  spec ip = FloatingIpSpec.mk tenant (name (metadata pool)) (Ipv4Addr.to_string a)
              (Pointing.vm pointing) (Pointing.router pointing) (Pointing.internal_address pointing) /\
  (exists s s1 n b, look s (key (Ipv4Addr.to_string a)) = None /\
     wrote (Sp := FloatingIpSpec.t) (St := FloatingIpStatus.t) prefix s s1 (Ipv4Addr.to_string a) NoLease b /\
     decode b (revision s1) = Ok ip /\ db w' = env sur n s1) /\
  all_decode (db w') /\ (held_by (reservations (db w')) tenant (name (metadata pool)) <= quota)%N.

(** What a create of a reservation wrote. *)
Lemma created_reservation tenant pool nm uid at_ pointing w w' o :
  create prefix sur (reservation tenant pool nm uid at_ pointing) w = (w', Ok o) ->
  look (before sur w) (key nm) = None /\ ticks w' = S (ticks w) /\ name (metadata o) = nm /\
  spec o = FloatingIpSpec.mk tenant (name (metadata pool)) nm (Pointing.vm pointing)
             (Pointing.router pointing) (Pointing.internal_address pointing) /\
  versioned o /\
  exists b, wrote (Sp := FloatingIpSpec.t) (St := FloatingIpStatus.t) prefix (before sur w) (db w') nm NoLease b /\
            decode b (revision (db w')) = Ok o.
Proof.
  intros (b & Hn & Hb & Ht & Hw & Hd)%create_ok. pose proof (encode_name _ _ _ _ _ Hb Hd) as Ho.
  split_and!; [done|done|by rewrite Ho|by rewrite Ho| |by exists b].
  eapply decode_versioned; [|exact Hd]. destruct Hw as [-> _].
  pose proof (revision_nonneg (before sur w)). lia.
Qed.

Lemma floating_loop_ok ranges quota pool tenant wanted pointing rounds w w' ip :
  Forall range_wf ranges ->
  allocate_loop prefix sur new_uid ranges quota pool tenant wanted pointing false rounds w = (w', Ok ip) ->
  exists a, Ipv4Ranges.is_allocatable ranges a = true /\ (forall x, wanted = Some x -> a = x) /\
            granted quota pool tenant pointing a w' ip.
Proof.
  intros Hwf. revert w. induction rounds as [|n IH]; intros w; [done|].
  cbn [allocate_loop]. intros (w1 & existing & Hr & H)%bind_ok.
  destruct (quota <=? _)%N; [done|]. apply bind_ok in H as (w2 & a & Ha & H).
  apply lift_ok in Ha as [-> Ha]. destruct (pick_address_ok _ _ _ _ _ Hwf Ha) as (Hal & _ & Hx).
  unfold reserve in H. simpl in H.
  destruct (create _ _ _ w1) as [w2 [created|e]] eqn:Ec.
  2:{ destruct e; try done. destruct wanted; [done|]. by eapply IH. }
  apply created_reservation in Ec as (Hn & _ & Hnm & Hsp & _ & b & Hw & Hd).
  apply bind_ok in H as (w3 & after & Hr3 & H).
  destruct (within_quota _ _ _ _) eqn:Eq.
  - injection H as <- <-. apply all_reservations_ok in Hr3 as (-> & -> & Hall).
    exists a. split; [done|]. split; [done|]. split; [done|]. split; [done|]. split; [|split; [done|]].
    + exists (before sur w1), (db w2), (ticks w2), b. by split_and!.
    + unfold within_quota in Eq. by apply N.leb_le.
  - apply bind_ok in H as (w4 & [] & _ & H). by eapply IH.
Qed.

Lemma key_inj a b : key a = key b -> a = b.
Proof. unfold key_of, object_key. intros H. do 4 apply str_app_inj_r in H. done. Qed.

Lemma allocate_loop_keeps a ranges quota pool tenant wanted pointing rounds w w' r :
  (forall n s, present (key a) s -> present (key a) (env sur n s)) -> present (key a) (db w) ->
  allocate_loop prefix sur new_uid ranges quota pool tenant wanted pointing false rounds w = (w', r) ->
  present (key a) (db w') /\ (forall ip, r = Ok ip -> name (metadata ip) <> a).
Proof.
  intros Henv. revert w. induction rounds as [|n IH]; intros w Hw; [by intros [= <- <-]|].
  cbn [allocate_loop]. unfold mbind, store_bind, all_reservations.
  pose proof (stays_list_complete (Sp := FloatingIpSpec.t) (St := FloatingIpStatus.t) prefix sur (key a) Henv
    "which addresses are taken cannot be established; refusing rather than handing out one twice" w Hw) as H1.
  destruct (list_complete _ _ _ _) as [w1 [existing|e]]; [|by intros [= <- <-]]. simpl in H1.
  destruct (quota <=? _)%N; [by intros [= <- <-]|]. unfold lift.
  destruct (pick_address _ _ _ _) as [b|e]; [|by intros [= <- <-]].
  unfold reserve. simpl.
  set (o := reservation _ _ _ _ _ _).
  pose proof (stays_create prefix sur (key a) Henv o w1 H1) as H2.
  destruct (create _ _ o w1) as [w2 [created|e]] eqn:Ec; simpl in H2.
  2:{ destruct e; try (by intros [= <- <-]). destruct wanted; [by intros [= <- <-]|by apply IH]. }
  apply created_reservation in Ec as (Hn & _ & Hnm & _ & Hv & _).
  assert (Hne : Ipv4Addr.to_string b <> a).
  { intros <-. specialize (Henv (ticks w1) (db w1) H1). unfold present in Henv.
    fold (before sur w1) in Henv. by rewrite Hn in Henv. }
  unfold mbind, store_bind, all_reservations.
  pose proof (stays_list_complete (Sp := FloatingIpSpec.t) (St := FloatingIpStatus.t) prefix sur (key a) Henv
    "which addresses are taken cannot be established; refusing rather than handing out one twice" w2 H2) as H3.
  destruct (list_complete _ _ _ w2) as [w3 [after|e]]; [|by intros [= <- <-]]. simpl in H3.
  destruct (within_quota _ _ _ _).
  - intros [= <- <-]. split; [done|]. intros ip [= <-]. congruence.
  - pose proof (stays_take_back prefix sur (key a) Henv created) as Ht. rewrite Hnm in Ht.
    specialize (Ht (fun He => Hne (key_inj _ _ He)) Hv w3 H3).
    destruct (take_back_created _ _ _ _) as [w4 [[]|e]]; [by apply IH|by intros [= <- <-]].
Qed.

(** C14. A floating address is granted soundly.  Whatever other processes write and
    whichever requests fail, an allocation that answers with a reservation chose
    an address the pool hands out (the one asked for, if one was), wrote it where
    the database held no reservation of that address, and after the write read every
    reservation there is and found the tenant within its quota in the pool. *)
Theorem floating_grant_sound pool tenant wanted pointing w w' ip :
  allocate prefix sur new_uid pool tenant wanted pointing false w = (w', Ok ip) ->
  exists ranges a, Ipv4Ranges.parse (FloatingPoolSpec.cidrs (spec pool)) = Ok ranges /\
    Ipv4Ranges.is_allocatable ranges a = true /\ (forall x, wanted = Some x -> a = x) /\
    granted (FloatingPoolSpec.quota_for (spec pool) tenant) pool tenant pointing a w' ip.
Proof.
  unfold allocate. intros (w1 & ranges & Hr & H)%bind_ok. apply lift_ok in Hr as [-> Hr].
  destruct (Ipv4Ranges.parse _) as [rs|] eqn:E; [|done]. injection Hr as ->.
  assert (Hwf : Forall range_wf ranges).
  { apply try_map_ok in E. clear -E. induction E; constructor; [by eapply range_from_str_wf|done]. }
  destruct (floating_loop_ok _ _ _ _ _ _ _ _ _ _ Hwf H) as (a & Ha & Hx & Hg). by exists ranges, a.
Qed.

(** A reserved address is nobody else's.  While nobody releases the reservation of
    an address, an allocation by anybody leaves it standing, whatever it answers:
    also when it takes back an address of its own that went over the quota; and it
    never answers with that address. *)
Theorem reserved_address_kept a pool tenant wanted pointing w w' r :
  (forall n s, present (key a) s -> present (key a) (env sur n s)) -> present (key a) (db w) ->
  allocate prefix sur new_uid pool tenant wanted pointing false w = (w', r) ->
  present (key a) (db w') /\ (forall ip, r = Ok ip -> name (metadata ip) <> a).
Proof.
  intros Henv Hw. unfold allocate, mbind, store_bind, lift.
  destruct (map_err _ _) as [ranges|e]; [|by intros [= <- <-]]. by apply allocate_loop_keeps.
Qed.
End facts.

(** * Witnesses *)

(** A store that holds reservations as they are. *)
#[export] Instance floating_ip_serde : Serde FloatingIp FloatingIpSpec.t FloatingIpStatus.t :=
  {| to_vec := fun o => Ok o; from_slice := fun o => Ok o |}.
#[export] Instance floating_ip_serde_laws : SerdeLaws FloatingIp FloatingIpSpec.t FloatingIpStatus.t.
Proof. split. by intros o b [= <-]. Qed.
#[export] Instance floating_ip_raw : RawJson FloatingIp := {| raw := fun _ => None |}.

(** A private pool of two addresses, of which a tenant may hold one. *)
Definition a_pool : FloatingPool :=
  object_new API_VERSION "FloatingPool" "lab" "u-0" 0%Z
    (FloatingPoolSpec.mk ["10.0.0.4/30"] false true [("acme", 1%N)] "") tt.
Definition nowhere : Pointing.t := Pointing.mk None "" "".
Definition grant_one (w : world (mem FloatingIp)) (tenant : string) : world (mem FloatingIp) * result StoreError.t FloatingIp :=
  allocate "p" quiet (fun _ => "u-1") a_pool tenant None nowhere false w.
Definition no_reservations : world (mem FloatingIp) := World mem_empty 0.

(** The scan over the two pools of a cloud whose first /24 is taken. *)
Lemma cut_subnet_exact_witness :
  exists b, cut_subnet [cidr_range 167772160 23; cidr_range 184549376 24] 24
              [("a pool", cidr_range 167772160 24)] = Some (block 24 b) /\
            free_block 24 [("a pool", cidr_range 167772160 24)] b.
Proof.
  pose proof (cut_subnet_exact [cidr_range 167772160 23; cidr_range 184549376 24] 24
    [("a pool", cidr_range 167772160 24)]) as H.
  destruct (cut_subnet _ _ _) as [r|] eqn:E; [|by vm_compute in E].
  destruct H as (bf & s & af & b & _ & -> & _ & Hf & _).
  - repeat constructor; by vm_compute.
  - done.
  - by exists b.
Defined.

(** An address of the pool, for a tenant with one to its name. *)
Lemma floating_grant_sound_witness :
  exists ip a, (grant_one no_reservations "acme").2 = Ok ip /\ name (metadata ip) = Ipv4Addr.to_string a /\
    Ipv4Ranges.is_allocatable [cidr_range 167772164 30] a = true.
Proof.
  assert (Hok : is_some (result_ok (grant_one no_reservations "acme").2) = true) by (by vm_compute).
  destruct (grant_one no_reservations "acme") as [w' [ip|e]] eqn:E; [|done].
  destruct (floating_grant_sound (D := mem FloatingIp) "p" quiet (fun _ => "u-1") a_pool "acme" None nowhere
              no_reservations w' ip E) as (ranges & a & Hr & Ha & _ & Hn & _).
  assert (Hp : Ipv4Ranges.parse ["10.0.0.4/30"] = Ok [cidr_range 167772164 30]) by (by vm_compute).
  change (FloatingPoolSpec.cidrs (spec a_pool)) with ["10.0.0.4/30"] in Hr. rewrite Hp in Hr.
  injection Hr as <-. exists ip, a. split; [reflexivity|]. split; [exact Hn|exact Ha].
Defined.

(** The next tenant gets the other address, and the first reservation stands. *)
Lemma reserved_address_kept_witness :
  let w1 := (grant_one no_reservations "acme").1 in
  is_some (look (db (grant_one w1 "other").1) "p/registry/floatingips/10.0.0.5") = true.
Proof.
  intros w1. destruct (grant_one w1 "other") as [w' r] eqn:E.
  apply (reserved_address_kept (D := mem FloatingIp) "p" quiet (fun _ => "u-1") "10.0.0.5" a_pool "other" None
           nowhere w1 w' r); [done| |exact E].
  by vm_compute.
Defined.
