(* ===== verification/Quota.v ===== *)
(** Tenant quotas and their admission:
    [src/shared/controller-api/src/quota.rs], the tenant and event resources, the
    event log of [src/shared/controller-api/src/events.rs], and the admission of VMs
    and volumes in [src/components/cloud-controller/src/api/]: [admission.rs], and
    the quota steps of [vms.rs] and [storage.rs].

    An admission reads the tenant's fence, then what the tenant holds, decides, and
    writes through the fence: the write succeeds only if nobody passed the fence
    since. *)
From Stdlib Require Import Ascii String NArith ZArith List Bool Lia Permutation.
From stdpp Require Import base list strings gmap relations.
From S2P Require Import Prelude RustStr Json Heartbeat Vm Node Storage Sizing Placement Reservation Claims Commit.
From S2P Require Import Phase Objects Store StoreSafety.

(** * Resources *)

Module TenantQuota.
Record t := mk { max_vms : option N; max_vcpus : option N; max_mem_mib : option N }.

Definition is_unset (q : t) : bool :=
  negb (is_some (max_vms q)) && negb (is_some (max_vcpus q)) && negb (is_some (max_mem_mib q)).
End TenantQuota.

Module TenantUsage.
Record t := mk { vms : N; vcpus : N; mem_mib : N }.
End TenantUsage.

Module TenantSpec.
Record t := mk {
  description : string;
  quota : TenantQuota.t;
  vni : option N;
  network_prefixes : list string;
  labels : smap string }.
End TenantSpec.

Module TenantStatus.
Record t := mk { used : TenantUsage.t }.
End TenantStatus.

Definition Tenant : Type := Object TenantSpec.t TenantStatus.t.

#[export] Instance tenant_resource : Resource TenantSpec.t TenantStatus.t :=
  {| RESOURCE := "tenants"; NAME_SHAPE := NameShape.DnsLabel; settle := fun _ o => o |}.

Module EventType.
Inductive t := Normal | Warning.
End EventType.

Module EventSpec.
Record t := mk {
  involved_kind : string;
  involved_name : string;
  involved_uid : string;
  reason : string;
  message : string;
  event_type : EventType.t;
  tenant : option string;
  count : N;
  first_seen : instant;
  last_seen : instant }.
End EventSpec.

Definition Event : Type := Object EventSpec.t unit.

#[export] Instance event_resource : Resource EventSpec.t unit :=
  {| RESOURCE := "events"; NAME_SHAPE := NameShape.DnsLabel; settle := fun _ o => o |}.

#[export] Instance volume_resource : Resource VolumeSpec.t VolumeStatus.t :=
  {| RESOURCE := "volumes"; NAME_SHAPE := NameShape.DnsLabel; settle := volume_settle |}.

(** * Accounting *)

Definition fence_name (tenant : string) : string := "quota/" +:+ tenant.

Module Usage.
Record t := mk { vms : N; size : Capacity.t }.

Definition default : t := mk 0 Capacity.default.

Definition plus (u : t) (size : Capacity.t) : t :=
  mk (sat_add u32_max (vms u) 1) (Capacity.plus (Usage.size u) size).

Definition of_ (tenant : string) (vms : list Vm) (except : option string) : t :=
  foldl (fun acc vm => plus acc (Capacity.wanted_by vm)) default
    (List.filter (fun v => negb (bool_decide (Some (name (metadata v)) = except)))
       (List.filter (fun v => bool_decide (VmSpec.tenant (spec v) = Some tenant)) vms)).

Definition reported (u : t) : TenantUsage.t :=
  TenantUsage.mk (vms u) (Capacity.vcpus (size u)) (Capacity.mem_mib (size u)).
End Usage.

Definition over (tenant what : string) (want limit : N) : string :=
  "tenant " +:+ tenant +:+ " would hold " +:+ show_N want +:+ " " +:+ what +:+ ", and its quota is " +:+ show_N limit.

Definition check (quota : TenantQuota.t) (tenant : string) (after : Usage.t) : result string unit :=
  let exceeds limit n := is_some_and (fun max => (max <? n)%N) limit in
  if exceeds (TenantQuota.max_vms quota) (Usage.vms after)
  then Err (over tenant "vms" (Usage.vms after) (unwrap_or 0%N (TenantQuota.max_vms quota)))
  else if exceeds (TenantQuota.max_vcpus quota) (Capacity.vcpus (Usage.size after))
  then Err (over tenant "vcpus" (Capacity.vcpus (Usage.size after)) (unwrap_or 0%N (TenantQuota.max_vcpus quota)))
  else if exceeds (TenantQuota.max_mem_mib quota) (Capacity.mem_mib (Usage.size after))
  then Err (over tenant "MiB of memory" (Capacity.mem_mib (Usage.size after))
              (unwrap_or 0%N (TenantQuota.max_mem_mib quota)))
  else Ok tt.

Module StorageUsage.
Record t := mk { volumes : N; gib : N }.

Definition default : t := mk 0 0.

Definition plus (u : t) (gib : N) : t :=
  mk (sat_add u32_max (volumes u) 1) (sat_add u64_max (StorageUsage.gib u) gib).

Definition of_ (tenant pool : string) (volumes : list Volume) (except : option string) : t :=
  foldl (fun acc v => plus acc (VolumeSpec.size_gib (spec v))) default
    (List.filter (fun v => negb (bool_decide (Some (name (metadata v)) = except)))
       (List.filter (fun v => String.eqb (VolumeSpec.tenant (spec v)) tenant
                              && String.eqb (VolumeSpec.pool (spec v)) pool) volumes)).
End StorageUsage.

Definition check_storage (pool : StoragePool) (tenant : string) (after : StorageUsage.t) : result string unit :=
  let limit := StoragePoolSpec.quota_for (spec pool) tenant in
  if (limit <? StorageUsage.gib after)%N
  then Err ("tenant " +:+ tenant +:+ " would hold " +:+ show_N (StorageUsage.gib after) +:+ " GiB in storage pool "
            +:+ name (metadata pool) +:+ ", and its quota there is " +:+ show_N limit +:+ " GiB")
  else Ok tt.

(** * The API *)

Definition store_error_text (e : StoreError.t) : string :=
  match e with
  | StoreError.NotFound s => "object not found: " +:+ s
  | StoreError.AlreadyExists s => "object already exists: " +:+ s
  | StoreError.Terminating s => "object is being deleted: " +:+ s
  | StoreError.Conflict s | StoreError.Invalid s => s
  | StoreError.Backend s => "etcd: " +:+ s
  | StoreError.Timeout what after => "etcd " +:+ what +:+ " did not answer within " +:+ show_N after +:+ "s"
  end.

(** [From<StoreError> for ApiError]. *)
Definition api_of_store (e : StoreError.t) : ApiError.t :=
  let (status, reason) := api_status e in ApiError.new status reason (store_error_text e).

Definition api_m (D A : Type) : Type := world D -> world D * result ApiError.t A.

#[export] Instance api_ret {D} : MRet (api_m D) := fun _ a w => (w, Ok a).
#[export] Instance api_bind {D} : MBind (api_m D) := fun _ _ k m w =>
  match m w with (w', Ok a) => k a w' | (w', Err e) => (w', Err e) end.

Definition refuse {D A} (e : ApiError.t) : api_m D A := fun w => (w, Err e).

(** A store operation and [?]. *)
Definition stored {D A} (m : store_m D A) : api_m D A := fun w =>
  let (w', r) := m w in (w', map_err api_of_store r).

Definition ADMISSION_ROUNDS : nat := 8.

(** [admit]. *)
Fixpoint admit_rounds {D A} (tenant : string) (attempt : api_m D (option A)) (rounds : nat) : api_m D A :=
  match rounds with
  | O => refuse (conflict ("tenant " +:+ tenant +:+ " is being changed by " +:+
           show_N (N.of_nat ADMISSION_ROUNDS) +:+ " other requests at once; try again"))
  | Datatypes.S rounds =>
      decided ← attempt;
      match decided with
      | Some a => mret a
      | None => admit_rounds tenant attempt rounds
      end
  end.

Section admission.
Context {D Bytes : Type} `{!Etcd D Bytes, !RawJson Bytes}.
Variable prefix : string.
Variable sur : surroundings D.
(** The bytes of a fence's mark. *)
Variable to_bytes : string -> Bytes.

Section under.
Context {Sp St : Type} `{!Resource Sp St, !Serde Bytes Sp St}.

Definition create_under (o : Object Sp St) (fence : option Fence.t) : api_m D (option (Object Sp St)) :=
  match fence with
  | Some fence => stored (create_fenced prefix sur to_bytes o fence)
  | None => stored (o ← create prefix sur o; mret (Some o))
  end.

Definition update_under (o : Object Sp St) (fence : option Fence.t) : api_m D (option (Object Sp St)) :=
  match fence with
  | Some fence => stored (update_fenced prefix sur to_bytes o fence)
  | None => stored (o ← update prefix sur o; mret (Some o))
  end.
End under.

(** ** Events *)

Section events.
Context `{!Serde Bytes EventSpec.t unit}.
(** The lease a grant answers with, and the fresh identifier of an event. *)
Variable new_lease : Z -> nat -> Z.
Variable new_uid : nat -> string.

Definition TTL_SECS : Z := 3600.

(** The names that go in are ASCII: kinds, reasons, labels and uids. *)
Definition name_of (kind uid name reason : string) : string :=
  let identity := if str_is_empty uid then name else uid in
  to_ascii_lowercase kind +:+ "-" +:+ to_ascii_lowercase identity +:+ "-" +:+ to_ascii_lowercase reason.


(** [create_with_ttl]: a lease is granted, which writes no key. *)
Definition create_with_ttl (o : Event) (ttl : Z) : store_m D Event := fun w =>
  match timed sur "lease_grant" (fun s => (s, new_lease ttl (ticks w))) w with
  | (w', Ok lease) => create_inner prefix sur o (Some lease) w'
  | (w', Err e) => (w', Err e)
  end.

Definition again (now : instant) (message : string) (e : Event) : Event :=
  let s := spec e in
  with_spec e (EventSpec.mk (EventSpec.involved_kind s) (EventSpec.involved_name s) (EventSpec.involved_uid s)
    (EventSpec.reason s) message (EventSpec.event_type s) (EventSpec.tenant s)
    (sat_add u32_max (EventSpec.count s) 1) (EventSpec.first_seen s) now).

(** [record]: best effort. *)
Definition record (kind nm uid reason message : string) (event_type : EventType.t) (tenant : option string)
    (w : world D) : world D :=
  let now := clock sur (ticks w) in
  let key := name_of kind uid nm reason in
  let event := object_new API_VERSION "Event" key (new_uid (ticks w)) now
    (EventSpec.mk kind nm uid reason message event_type tenant 1 now now) tt in
  match create_with_ttl event TTL_SECS w with
  | (w', Err (StoreError.AlreadyExists _)) => (mutate prefix sur key (again now message) w').1
  | (w', _) => w'
  end.
End events.

(** ** VMs *)

Section vms.
Context `{!Serde Bytes EventSpec.t unit, !Serde Bytes TenantSpec.t TenantStatus.t, !Serde Bytes VmSpec.t VmStatus.t,
  !Resource VmSpec.t VmStatus.t}.
Variable new_lease : Z -> nat -> Z.
Variable new_uid : nat -> string.

Definition check_quota (tenant : option string) (adding : Capacity.t) (except : option string)
  : api_m D (option Fence.t) :=
  match tenant with
  | None => mret None
  | Some tenant =>
      fence ← stored (fence prefix sur (fence_name tenant));
      object ← stored (get (Sp := TenantSpec.t) (St := TenantStatus.t) prefix sur tenant);
      let quota := TenantSpec.quota (spec object) in
      if TenantQuota.is_unset quota then mret (Some fence)
      else
        listed ← stored (list_counted (Sp := VmSpec.t) (St := VmStatus.t) prefix sur);
        if negb (Nat.eqb (length listed.1) listed.2)
        then refuse (conflict "cannot tell how much this tenant is holding (some vm objects did not decode); refusing to let it grow")
        else
          match check quota tenant (Usage.plus (Usage.of_ tenant listed.1 except) adding) with
          | Ok _ => mret (Some fence)
          | Err why => fun w =>
              (record new_lease new_uid "Tenant" tenant (Objects.uid (metadata object)) "QuotaExceeded" why
                 EventType.Warning (Some tenant) w, Err (invalid why))
          end
  end.

(** The admission of [create_vm_traced]: the quota and the write as one decision. *)
Definition admit_vm (dry : bool) (owner : string) (vm : Vm) : api_m D Vm :=
  let wanted := Capacity.wanted_by_spec (VmSpec.vm (spec vm)) in
  admit_rounds owner
    (fence ← check_quota (Some owner) wanted None;
     match preview dry vm with
     | Some shown => mret (Some shown)
     | None => create_under vm fence
     end) ADMISSION_ROUNDS.
End vms.

(** ** Volumes *)

Section volumes.
Context `{!Serde Bytes VolumeSpec.t VolumeStatus.t}.

Definition all_volumes : api_m D (list Volume) :=
  listed ← stored (list_counted (Sp := VolumeSpec.t) (St := VolumeStatus.t) prefix sur);
  if negb (Nat.eqb (length listed.1) listed.2)
  then refuse (conflict "some volume objects did not decode, so how much storage is held cannot be established; refusing rather than handing out room twice")
  else mret listed.1.

Definition check_storage_quota (pool : StoragePool) (tenant : string) (gib : N) (except : option string)
  : api_m D Fence.t :=
  fence ← stored (fence prefix sur (fence_name tenant));
  volumes ← all_volumes;
  match check_storage pool tenant
          (StorageUsage.plus (StorageUsage.of_ tenant (name (metadata pool)) volumes except) gib) with
  | Ok _ => mret fence
  | Err why => refuse (conflict why)
  end.

(** The admission of [create_volume]. *)
Definition admit_volume (dry : bool) (owner : string) (pool : StoragePool) (volume : Volume) : api_m D Volume :=
  admit_rounds owner
    (fence ← check_storage_quota pool owner (VolumeSpec.size_gib (spec volume)) None;
     match preview dry volume with
     | Some shown => mret (Some shown)
     | None => create_under volume (Some fence)
     end) ADMISSION_ROUNDS.
End volumes.
End admission.

(** * Lemmas *)

Lemma filter_map_perm {A B} (f : A -> option B) l l' :
  Permutation l l' -> Permutation (filter_map f l) (filter_map f l').
Proof.
  induction 1 as [|x l l' _ IH|x y l|l1 l2 l3 _ IH1 _ IH2]; simpl; [done| | |by etrans].
  - destruct (f x); [by constructor|done].
  - destruct (f x), (f y); try done. constructor.
Qed.

Lemma sum_of_perm {A} (f : A -> N) l l' : Permutation l l' -> sum_of f l = sum_of f l'.
Proof. induction 1; simpl; unfold sum_of in *; simpl in *; lia. Qed.

Section measure.
Context {D Bytes : Type} `{!Etcd D Bytes, !EtcdLaws D Bytes, !RawJson Bytes}.
Context {Sp St : Type} `{!Resource Sp St, !Serde Bytes Sp St}.
Context (prefix : string) (sur : surroundings D).
Abbreviation T := (Object Sp St).
Abbreviation key := (key_of (Sp := Sp) (St := St) prefix).
Abbreviation dir := (dir_of (Sp := Sp) (St := St) prefix).

(** What the objects of a kind weigh together. *)
Definition total (weight : T -> N) (s : D) : N := sum_of weight (decode_range (range s dir)).

Definition fence_key (tenant : string) : string := prefix +:+ "/fences/" +:+ fence_name tenant.

(** The revision a fence is at. *)
Definition fence_rev (k : string) (s : D) : Z := match look s k with Some kv => mod_revision kv | None => 0%Z end.

(** Two writes, a new object and the fence. *)
Lemma total_created weight s s' nm tenant b mark (o : T) :
  look s (key nm) = None -> decode b (revision s') = Ok o ->
  (forall k, look s' k = after_writes (revision s') k (look s k)
                           [Put (key nm) b NoLease; Put (fence_key tenant) mark NoLease]) ->
  total weight s' = (weight o + total weight s)%N.
Proof.
  intros Hn Hd Hl.
  assert (Hf : starts_with dir (fence_key tenant) = false).
  { unfold dir_of, object_dir, fence_key. by rewrite starts_with_app. }
  assert (Hk : starts_with dir (key nm) = true).
  { unfold dir_of, object_dir, key_of, object_key. rewrite !starts_with_app.
    replace ("/" +:+ nm) with (String "/" nm) by done. by destruct nm. }
  set (kv := {| kv_value := b; create_revision := revision s'; mod_revision := revision s'; kv_lease := 0 |}).
  assert (Hp : Permutation (range s' dir) ((key nm, kv) :: range s dir)).
  { apply NoDup_Permutation.
    - apply NoDup_fmap_1 with fst. apply range_nodup.
    - constructor; [|apply NoDup_fmap_1 with fst; apply range_nodup].
      intros Hin%list_elem_of_In. apply range_spec in Hin as [_ Hin]. congruence.
    - intros [k v]. rewrite !list_elem_of_In; simpl; rewrite !range_spec, Hl. unfold after_writes. simpl.
      destruct (String.eqb_spec (fence_key tenant) k) as [<-|Hne]; [rewrite Hf; naive_solver congruence|].
      destruct (String.eqb_spec (key nm) k) as [<-|Hne2]; [|naive_solver].
      rewrite Hn, Hk. fold kv. naive_solver. }
  unfold total, decode_range. rewrite (sum_of_perm _ _ _ (filter_map_perm _ _ _ Hp)). simpl.
  by rewrite Hd.
Qed.
End measure.

(** ** A fence that did not move *)

Section drift.
Context {D Bytes : Type} `{!Etcd D Bytes, !EtcdLaws D Bytes}.
Context (sur : surroundings D) (fk : string).

(** What other processes do between our requests. *)
Definition drift : D -> D -> Prop := rtc (fun s s' => exists n, s' = env sur n s).

(** Other processes write through etcd, leave a fence that is there in place, and
    let [measure] grow only by passing the fence. *)
Definition fenced_growth (measure : D -> N) : Prop :=
  forall n s, evolves s (env sur n s) /\
    (is_some (look s fk) = true -> is_some (look (env sur n s) fk) = true) /\
    (fence_rev fk (env sur n s) = fence_rev fk s -> (measure (env sur n s) <= measure s)%N).

Lemma fence_rev_bound s : (0 <= fence_rev fk s <= revision s)%Z.
Proof.
  unfold fence_rev. pose proof (revision_nonneg s). destruct (look s fk) eqn:E; [|lia].
  apply look_bounds in E. lia.
Qed.

Lemma fence_between s s1 s2 :
  newer s s1 -> newer s1 s2 ->
  (is_some (look s fk) = true -> is_some (look s1 fk) = true) ->
  (is_some (look s1 fk) = true -> is_some (look s2 fk) = true) ->
  fence_rev fk s2 = fence_rev fk s -> fence_rev fk s1 = fence_rev fk s.
Proof.
  intros [Hr H1] [Hr' H2] Hp Hp2 He. pose proof (fence_rev_bound s) as Hb. unfold fence_rev in *.
  destruct (look s1 fk) as [b|] eqn:E1.
  2:{ destruct (look s fk); [by specialize (Hp eq_refl)|done]. }
  destruct (H1 fk b E1) as [->|Hlt]; [done|].
  destruct (look s2 fk) as [b2|] eqn:E2; [|by specialize (Hp2 eq_refl)].
  destruct (H2 fk b2 E2) as [Hs|Hlt2].
  - rewrite E1 in Hs. injection Hs as ->. lia.
  - apply look_bounds in E1. lia.
Qed.

Context (measure : D -> N) (Hg : fenced_growth measure).

Lemma drift_keeps s s' :
  drift s s' -> newer s s' /\ (is_some (look s fk) = true -> is_some (look s' fk) = true).
Proof.
  induction 1 as [s|s s1 s' [n ->] _ [IH1 IH2]]; [split; [apply newer_refl|done]|].
  destruct (Hg n s) as (He & Hp & _). split; [|auto].
  eapply newer_trans; [by apply newer_evolves|done].
Qed.

(** While the fence stands still, nothing grew. *)
Lemma drift_measure s s' :
  drift s s' -> fence_rev fk s' = fence_rev fk s -> (measure s' <= measure s)%N.
Proof.
  induction 1 as [s|s s1 s' [n ->] Hd IH]; [lia|]. intros He.
  destruct (Hg n s) as (Hev & Hp & Hm). destruct (drift_keeps _ _ Hd) as [Hn Hp2].
  assert (Hb : fence_rev fk (env sur n s) = fence_rev fk s).
  { eapply fence_between; [by apply newer_evolves|exact Hn|done|done|done]. }
  etrans; [apply IH; congruence|by apply Hm].
Qed.
End drift.

(** ** What a successful request did *)

Lemma api_bind_ok {D A B} (m : api_m D A) (k : A -> api_m D B) w w' b :
  (m ≫= k) w = (w', Ok b) -> exists w1 a, m w = (w1, Ok a) /\ k a w1 = (w', Ok b).
Proof. unfold mbind, api_bind. destruct (m w) as [w1 [a|e]]; [|done]. eauto. Qed.

Lemma stored_ok {D A} (m : store_m D A) w w' a : stored m w = (w', Ok a) -> m w = (w', Ok a).
Proof. unfold stored. destruct (m w) as [w1 [x|e]]; [|done]. by intros [= <- <-]. Qed.

(** An admission that answers decided in one of its rounds; the rounds before it
    wrote nothing. *)
Lemma admit_rounds_ok {D A} (sur : surroundings D) tenant (attempt : api_m D (option A)) rounds w w' a :
  (forall u u', attempt u = (u', Ok None) -> drift sur (db u) (db u')) ->
  admit_rounds tenant attempt rounds w = (w', Ok a) ->
  exists w0, drift sur (db w) (db w0) /\ attempt w0 = (w', Ok (Some a)).
Proof.
  intros Hn. revert w. induction rounds as [|n IH]; intros w; [done|]. simpl.
  intros (w1 & [x|] & H & Hk)%api_bind_ok.
  - injection Hk as <- <-. exists w. split; [apply rtc_refl|done].
  - destruct (IH _ Hk) as (w0 & Hd & Ha). exists w0. split; [|done]. etrans; [by apply Hn|done].
Qed.

Section requests.
Context {D Bytes : Type} `{!Etcd D Bytes, !EtcdLaws D Bytes, !RawJson Bytes}.
Context {Sp St : Type} `{!Resource Sp St, !Serde Bytes Sp St}.
Context (prefix : string) (sur : surroundings D) (to_bytes : string -> Bytes).
Abbreviation T := (Object Sp St).
Abbreviation key := (key_of (Sp := Sp) (St := St) prefix).
Abbreviation dir := (dir_of (Sp := Sp) (St := St) prefix).

Lemma fence_ok nm w w' f :
  Store.fence prefix sur nm w = (w', Ok f) ->
  w' = World (before sur w) (S (ticks w)) /\ Fence.key f = prefix +:+ "/fences/" +:+ nm /\
  Fence.revision f = fence_rev (Fence.key f) (before sur w).
Proof.
  unfold Store.fence. intros (w1 & x & Hr & H)%bind_ok. apply timed_ok in Hr as [-> ->].
  injection H as <- <-. done.
Qed.

Lemma list_counted_ok w w' (l : list T) n :
  list_counted prefix sur w = (w', Ok (l, n)) ->
  w' = World (before sur w) (S (ticks w)) /\ l = decode_range (range (before sur w) dir).
Proof.
  unfold list_counted. intros (w1 & kvs & Hr & H)%bind_ok. apply timed_ok in Hr as [-> ->].
  by injection H as <- <- _.
Qed.

Lemma create_fenced_wrote (o : T) f w w' created :
  create_fenced prefix sur to_bytes o f w = (w', Ok (Some created)) ->
  exists b mark, look (before sur w) (key (name (metadata o))) = None /\
    encode (with_generation_one o) (clock sur (ticks w)) = Ok b /\
    fence_rev (Fence.key f) (before sur w) = Fence.revision f /\
    decode b (revision (db w')) = Ok created /\
    forall k, look (db w') k = after_writes (revision (db w')) k (look (before sur w) k)
      [Put (key (name (metadata o))) b NoLease; Put (Fence.key f) mark NoLease].
Proof.
  unfold create_fenced. intros (w1 & [] & Hn & H)%bind_ok. apply lift_ok in Hn as [-> _].
  apply bind_ok in H as (w1 & at_ & Ha & H). injection Ha as <- <-.
  apply bind_ok in H as (w1 & b & Hb & H). apply lift_ok in Hb as [-> Hb].
  apply bind_ok in H as (w1 & resp & Ht & H). destruct (succeeded resp) eqn:Es.
  2:{ simpl in H. by destruct (held (read_back resp)) as [[]|]. }
  apply txn_ok in Ht as [_ Ht]; [|by left]. rewrite Es in Ht. destruct Ht as (Hh & Hhd & _ & Hl).
  apply bind_ok in H as (w2 & o' & H & Ho). unfold written in H. rewrite Hhd in H.
  apply lift_ok in H as [-> H]. injection Ho as <- <-.
  eexists b, _. cbn [forallb holds] in Hh. apply andb_true_iff in Hh as [Hc Hh].
  rewrite andb_true_r in Hh. split_and!; [|done| |done|exact Hl].
  - destruct (look (before sur w) _) as [kv|] eqn:E; [|done]. apply look_bounds in E. lia.
  - unfold fence_rev. by apply Z.eqb_eq.
Qed.

(** A fence that moved: nothing was written. *)
Lemma create_fenced_passed (o : T) f w w' :
  create_fenced prefix sur to_bytes o f w = (w', Ok None) -> drift sur (db w) (db w').
Proof.
  unfold create_fenced. intros (w1 & [] & Hn & H)%bind_ok. apply lift_ok in Hn as [-> _].
  apply bind_ok in H as (w1 & at_ & Ha & H). injection Ha as <- <-.
  apply bind_ok in H as (w1 & b & Hb & H). apply lift_ok in Hb as [-> Hb].
  apply bind_ok in H as (w1 & resp & Ht & H). destruct (succeeded resp) eqn:Es.
  { apply bind_ok in H as (w2 & o' & _ & Ho). done. }
  apply txn_ok in Ht as [_ Ht]; [|by left]. rewrite Es in Ht. simpl in H.
  destruct (held (read_back resp)) as [[]|]; [done..|]. injection H as <-.
  apply rtc_once. by exists (ticks w).
Qed.

(** Whatever the objects weigh, the write added the new one to what the listing
    behind the fence found, or less. *)
Lemma fenced_create_total (weight : T -> N) tenant (o : T) f w w' created s0 s1 :
  Fence.key f = fence_key prefix tenant ->
  fenced_growth sur (fence_key prefix tenant) (total prefix weight) ->
  drift sur s0 s1 -> drift sur s1 (db w) -> Fence.revision f = fence_rev (fence_key prefix tenant) s0 ->
  create_fenced prefix sur to_bytes o f w = (w', Ok (Some created)) ->
  (total prefix weight (db w') <= weight created + total prefix weight s1)%N.
Proof.
  intros Hk Hg Hd0 Hd1 Hf (b & mark & Hn & _ & Hr & Hdec & Hl)%create_fenced_wrote.
  rewrite Hk in Hr, Hl. rewrite (total_created _ _ _ _ _ _ _ _ _ Hn Hdec Hl).
  assert (Hd2 : drift sur s1 (before sur w)).
  { eapply rtc_r; [exact Hd1|]. by exists (ticks w). }
  assert (Hrev : fence_rev (fence_key prefix tenant) (before sur w) = fence_rev (fence_key prefix tenant) s1).
  { destruct (drift_keeps sur _ _ Hg _ _ Hd0) as [Hn0 Hp0]. destruct (drift_keeps sur _ _ Hg _ _ Hd2) as [Hn2 Hp2].
    rewrite Hr, Hf. symmetry. eapply fence_between; [exact Hn0|exact Hn2|done|done|congruence]. }
  pose proof (drift_measure sur _ _ Hg _ _ Hd2 Hrev). lia.
Qed.
End requests.

(** ** Usage as totals *)

Definition vm_weight (tenant : string) (f : Capacity.t -> N) (v : Vm) : N :=
  if bool_decide (VmSpec.tenant (spec v) = Some tenant) then f (Capacity.wanted_by v) else 0.
Definition volume_weight (tenant pool : string) (f : N -> N) (v : Volume) : N :=
  if String.eqb (VolumeSpec.tenant (spec v)) tenant && String.eqb (VolumeSpec.pool (spec v)) pool
  then f (VolumeSpec.size_gib (spec v)) else 0.

Lemma sum_of_filter {A} (f : A -> N) (p : A -> bool) l :
  sum_of f (List.filter p l) = sum_of (fun x => if p x then f x else 0%N) l.
Proof.
  induction l as [|x l IH]; simpl; [done|]. destruct (p x); simpl; unfold sum_of in *; simpl; lia.
Qed.

Lemma filter_true {A} (p : A -> bool) l : (forall x, p x = true) -> List.filter p l = l.
Proof. intros H. induction l as [|x l IH]; simpl; [done|]. by rewrite H, IH. Qed.

Lemma vms_usage acc l :
  (Usage.vms acc <= u32_max)%N -> (Capacity.vcpus (Usage.size acc) <= u32_max)%N ->
  (Capacity.mem_mib (Usage.size acc) <= u64_max)%N ->
  foldl (fun acc vm => Usage.plus acc (Capacity.wanted_by vm)) acc l =
  Usage.mk (N.min (Usage.vms acc + sum_of (fun _ => 1%N) l) u32_max)
    {| Capacity.vcpus := N.min (Capacity.vcpus (Usage.size acc)
                                  + sum_of (fun v => Capacity.vcpus (Capacity.wanted_by v)) l) u32_max;
       Capacity.mem_mib := N.min (Capacity.mem_mib (Usage.size acc)
                                    + sum_of (fun v => Capacity.mem_mib (Capacity.wanted_by v)) l) u64_max |}.
Proof.
  revert acc. induction l as [|v l IH]; intros acc H1 H2 H3; simpl.
  - rewrite !N.add_0_r, !N.min_l by done. by destruct acc as [? []].
  - rewrite IH; unfold Usage.plus, Capacity.plus, sat_add; simpl; [|lia..].
    unfold sum_of. simpl. f_equal; [lia|]. f_equal; lia.
Qed.

Lemma usage_totals tenant vms :
  Usage.of_ tenant vms None =
  Usage.mk (N.min (sum_of (vm_weight tenant (fun _ => 1%N)) vms) u32_max)
    {| Capacity.vcpus := N.min (sum_of (vm_weight tenant Capacity.vcpus) vms) u32_max;
       Capacity.mem_mib := N.min (sum_of (vm_weight tenant Capacity.mem_mib) vms) u64_max |}.
Proof.
  unfold Usage.of_. rewrite (filter_true (fun v => negb _)) by done.
  rewrite vms_usage by done. simpl. by rewrite !sum_of_filter.
Qed.

Lemma volumes_usage acc l :
  (StorageUsage.volumes acc <= u32_max)%N -> (StorageUsage.gib acc <= u64_max)%N ->
  foldl (fun acc (v : Volume) => StorageUsage.plus acc (VolumeSpec.size_gib (spec v))) acc l =
  StorageUsage.mk (N.min (StorageUsage.volumes acc + sum_of (fun _ => 1%N) l) u32_max)
    (N.min (StorageUsage.gib acc + sum_of (fun v : Volume => VolumeSpec.size_gib (spec v)) l) u64_max).
Proof.
  revert acc. induction l as [|v l IH]; intros acc H1 H2; simpl.
  - rewrite !N.add_0_r, !N.min_l by done. by destruct acc.
  - rewrite IH; unfold StorageUsage.plus, sat_add; simpl; [|lia..].
    unfold sum_of. simpl. f_equal; lia.
Qed.

Lemma storage_totals tenant pool volumes :
  StorageUsage.of_ tenant pool volumes None =
  StorageUsage.mk (N.min (sum_of (volume_weight tenant pool (fun _ => 1%N)) volumes) u32_max)
    (N.min (sum_of (volume_weight tenant pool (fun g => g)) volumes) u64_max).
Proof.
  unfold StorageUsage.of_. rewrite (filter_true (fun v => negb _)) by done.
  rewrite volumes_usage by done. simpl. by rewrite !sum_of_filter.
Qed.

Lemma check_ok quota tenant u :
  check quota tenant u = Ok tt <->
  (forall m, TenantQuota.max_vms quota = Some m -> (Usage.vms u <= m)%N) /\
  (forall m, TenantQuota.max_vcpus quota = Some m -> (Capacity.vcpus (Usage.size u) <= m)%N) /\
  (forall m, TenantQuota.max_mem_mib quota = Some m -> (Capacity.mem_mib (Usage.size u) <= m)%N).
Proof.
  assert (He : forall (o : option N) n, is_some_and (fun max => (max <? n)%N) o = false <->
                                        (forall m, o = Some m -> (n <= m)%N)).
  { intros [m|] n; simpl; [|naive_solver]. rewrite N.ltb_ge. naive_solver. }
  unfold check. rewrite <- !He.
  do 3 (destruct (is_some_and _ _); [by split; [done|intros (?&?&?)]|]). done.
Qed.

Lemma check_unset quota tenant u : TenantQuota.is_unset quota = true -> check quota tenant u = Ok tt.
Proof. destruct quota as [[] [] []]; simpl; done. Qed.

(** A usage that is nowhere larger is within the same quota. *)
Lemma check_mono quota tenant u u' :
  (Usage.vms u' <= Usage.vms u)%N -> (Capacity.vcpus (Usage.size u') <= Capacity.vcpus (Usage.size u))%N ->
  (Capacity.mem_mib (Usage.size u') <= Capacity.mem_mib (Usage.size u))%N ->
  check quota tenant u = Ok tt -> check quota tenant u' = Ok tt.
Proof.
  rewrite !check_ok. intros H1 H2 H3 (Hv & Hc & Hm). split_and!; intros m Hq.
  - specialize (Hv m Hq). lia.
  - specialize (Hc m Hq). lia.
  - specialize (Hm m Hq). lia.
Qed.

(** * Theorems *)

Section admitted.
Context {D Bytes : Type} `{!Etcd D Bytes, !EtcdLaws D Bytes, !RawJson Bytes}.
Context `{!Serde Bytes EventSpec.t unit, !Serde Bytes TenantSpec.t TenantStatus.t,
  !Serde Bytes VmSpec.t VmStatus.t, !SerdeLaws Bytes VmSpec.t VmStatus.t,
  !Serde Bytes VolumeSpec.t VolumeStatus.t, !SerdeLaws Bytes VolumeSpec.t VolumeStatus.t}.
Context (prefix : string) (sur : surroundings D) (to_bytes : string -> Bytes).
Context (new_lease : Z -> nat -> Z) (new_uid : nat -> string) (to_rfc3339 : instant -> string).
#[local] Instance vms_kind : Resource VmSpec.t VmStatus.t := vm_resource to_rfc3339.
#[local] Instance vms_kind_settle : SettleLaws VmSpec.t VmStatus.t.
Proof. by split. Qed.
#[local] Instance volumes_kind_settle : SettleLaws VolumeSpec.t VolumeStatus.t.
Proof. by split. Qed.

(** The VMs and the volumes a database holds, as far as they decode. *)
Definition vms_in (s : D) : list Vm := decode_range (range s (dir_of (Sp := VmSpec.t) (St := VmStatus.t) prefix)).
Definition volumes_in (s : D) : list Volume :=
  decode_range (range s (dir_of (Sp := VolumeSpec.t) (St := VolumeStatus.t) prefix)).

(** The tenant as a database holds it. *)
Definition tenant_in (s : D) (nm : string) (t : Tenant) : Prop :=
  exists kv, look s (key_of (Sp := TenantSpec.t) (St := TenantStatus.t) prefix nm) = Some kv /\
    decode (kv_value kv) (mod_revision kv) = Ok t.

(** Other processes let a tenant's VMs grow, in number, vCPUs or memory, only by
    passing its fence. *)
Definition vms_fenced (tenant : string) : Prop :=
  forall f, In f [(fun _ => 1%N); Capacity.vcpus; Capacity.mem_mib] ->
    fenced_growth sur (fence_key prefix tenant)
      (total (Sp := VmSpec.t) (St := VmStatus.t) prefix (vm_weight tenant f)).

Lemma drift_before w : drift sur (db w) (before sur w).
Proof. apply rtc_once. by exists (ticks w). Qed.

(** What [check_quota] found, behind the fence it read. *)
Lemma check_quota_ok tenant adding w w' fo :
  check_quota prefix sur new_lease new_uid (Some tenant) adding None w = (w', Ok fo) ->
  exists f s0 s1 s t, fo = Some f /\ Fence.key f = fence_key prefix tenant /\
    Fence.revision f = fence_rev (fence_key prefix tenant) s0 /\
    drift sur (db w) s0 /\ drift sur s0 s1 /\ drift sur s1 (db w') /\
    drift sur (db w) s /\ tenant_in s tenant t /\
    (TenantQuota.is_unset (TenantSpec.quota (spec t)) = true \/
     check (TenantSpec.quota (spec t)) tenant (Usage.plus (Usage.of_ tenant (vms_in s1) None) adding) = Ok tt).
Proof.
  unfold check_quota. intros (w1 & f & (-> & Hk & Hr)%stored_ok%fence_ok & H)%api_bind_ok.
  change (prefix +:+ "/fences/" +:+ fence_name tenant) with (fence_key prefix tenant) in Hk. rewrite Hk in Hr.
  set (w1 := World (before sur w) (S (ticks w))) in *. pose proof (drift_before w) as D0.
  pose proof (drift_before w1) as D1. change (db w1) with (before sur w) in D1.
  apply api_bind_ok in H as (w2 & t & (kv & Hl & -> & Hd)%stored_ok%get_ok & H).
  set (w2 := World (before sur w1) (S (ticks w1))) in *. pose proof (drift_before w2) as D2.
  change (db w2) with (before sur w1) in D2.
  assert (Ht : tenant_in (before sur w1) tenant t) by (by exists kv).
  destruct (TenantQuota.is_unset _) eqn:Eu.
  - injection H as <- <-. exists f, (before sur w), (before sur w1), (before sur w1), t.
    split_and!; try done; [by etrans|by left].
  - apply api_bind_ok in H as (w3 & [l n] & (-> & ->)%stored_ok%list_counted_ok & H). simpl in H.
    destruct (negb _); [done|]. destruct (check _ _ _) as [[]|why] eqn:Ec; [|done].
    injection H as <- <-. exists f, (before sur w), (before sur w2), (before sur w1), t.
    split_and!; try done; [by etrans|by etrans|by right].
Qed.

Lemma create_under_passed {Sp St} `{!Resource Sp St, !Serde Bytes Sp St} (o : Object Sp St) f w w' :
  create_under prefix sur to_bytes o (Some f) w = (w', Ok None) -> drift sur (db w) (db w').
Proof. intros H%stored_ok. by eapply create_fenced_passed. Qed.

(** C9. An admitted VM leaves its tenant within the quota that was read during the
    admission, counting every VM of the tenant that is stored when the write is
    done, whatever other requests did in between, provided they too let the
    tenant's VMs grow only by passing its fence. *)
Theorem tenant_quota_holds owner (vm created : Vm) w w' :
  VmSpec.tenant (spec vm) = Some owner -> vms_fenced owner ->
  admit_vm prefix sur to_bytes new_lease new_uid false owner vm w = (w', Ok created) ->
  exists s t, drift sur (db w) s /\ tenant_in s owner t /\
    check (TenantSpec.quota (spec t)) owner (Usage.of_ owner (vms_in (db w')) None) = Ok tt.
Proof.
  intros Ho Hg. unfold admit_vm, preview. cbv beta iota zeta. intros (w0 & Hd & H)%(admit_rounds_ok sur).
  2:{ intros u u' (u1 & fo & H1 & H2)%api_bind_ok.
      apply check_quota_ok in H1 as (f & s0 & s1 & s & t & -> & _ & _ & D0 & D1 & D2 & _).
      apply create_under_passed in H2. by repeat (etrans; [eassumption|]). }
  apply api_bind_ok in H as (w1 & fo & Hq & Hc).
  apply check_quota_ok in Hq as (f & s0 & s1 & s & t & -> & Hk & Hr & D0 & D1 & D2 & Ds & Ht & Hok).
  apply stored_ok in Hc. exists s, t. split; [by etrans|]. split; [done|].
  destruct Hok as [Hu|Hok]; [by apply check_unset|].
  assert (Hsp : spec created = spec vm).
  { pose proof Hc as (b & mark & _ & He & _ & Hdec & _)%create_fenced_wrote.
    by rewrite (encode_name _ _ _ _ _ He Hdec). }
  assert (Hw : forall f, vm_weight owner f created = f (Capacity.wanted_by_spec (VmSpec.vm (spec vm)))).
  { intros g. unfold vm_weight, Capacity.wanted_by. rewrite Hsp. by rewrite bool_decide_true. }
  assert (Hb : forall g, In g [(fun _ => 1%N); Capacity.vcpus; Capacity.mem_mib] ->
    (sum_of (vm_weight owner g) (vms_in (db w')) <=
     g (Capacity.wanted_by_spec (VmSpec.vm (spec vm))) + sum_of (vm_weight owner g) (vms_in s1))%N).
  { intros g Hin. rewrite <- Hw. by eapply fenced_create_total; eauto. }
  clear Hw. set (c := Capacity.wanted_by_spec _) in *. clearbody c.
  revert Hok. rewrite !usage_totals. apply check_mono; unfold Usage.plus, Capacity.plus, sat_add; simpl.
  - specialize (Hb _ (or_introl eq_refl)). simpl in Hb. lia.
  - specialize (Hb _ (or_intror (or_introl eq_refl))). lia.
  - specialize (Hb _ (or_intror (or_intror (or_introl eq_refl)))). lia.
Qed.

(** Other processes let a tenant's volumes in a pool grow only by passing the
    tenant's fence. *)
Definition volumes_fenced (tenant pool : string) : Prop :=
  fenced_growth sur (fence_key prefix tenant)
    (total (Sp := VolumeSpec.t) (St := VolumeStatus.t) prefix (volume_weight tenant pool (fun gib => gib))).

Lemma check_storage_quota_ok pool tenant gib w w' f :
  check_storage_quota prefix sur pool tenant gib None w = (w', Ok f) ->
  exists s0 s1, Fence.key f = fence_key prefix tenant /\
    Fence.revision f = fence_rev (fence_key prefix tenant) s0 /\
    drift sur (db w) s0 /\ drift sur s0 s1 /\ drift sur s1 (db w') /\
    check_storage pool tenant
      (StorageUsage.plus (StorageUsage.of_ tenant (name (metadata pool)) (volumes_in s1) None) gib) = Ok tt.
Proof.
  unfold check_storage_quota. intros (w1 & f' & (-> & Hk & Hr)%stored_ok%fence_ok & H)%api_bind_ok.
  change (prefix +:+ "/fences/" +:+ fence_name tenant) with (fence_key prefix tenant) in Hk. rewrite Hk in Hr.
  set (w1 := World (before sur w) (S (ticks w))) in *. pose proof (drift_before w) as D0.
  pose proof (drift_before w1) as D1. change (db w1) with (before sur w) in D1.
  apply api_bind_ok in H as (w2 & vs & Hv & H). unfold all_volumes in Hv.
  apply api_bind_ok in Hv as (w3 & [l n] & (-> & ->)%stored_ok%list_counted_ok & Hv). simpl in Hv.
  destruct (negb _); [done|]. injection Hv as <- <-.
  destruct (check_storage _ _ _) as [[]|why] eqn:Ec; [|done]. injection H as <- <-.
  exists (before sur w), (before sur w1). by split_and!.
Qed.

(** An admitted volume leaves its tenant within the pool's quota for it, counting
    every volume the tenant has in the pool when the write is done, whatever other
    requests did in between, provided they too let the tenant's volumes grow only
    by passing its fence. *)
Theorem storage_quota_holds owner pool (volume created : Volume) w w' :
  VolumeSpec.tenant (spec volume) = owner -> VolumeSpec.pool (spec volume) = name (metadata pool) ->
  volumes_fenced owner (name (metadata pool)) ->
  admit_volume prefix sur to_bytes false owner pool volume w = (w', Ok created) ->
  (StorageUsage.gib (StorageUsage.of_ owner (name (metadata pool)) (volumes_in (db w')) None)
   <= StoragePoolSpec.quota_for (spec pool) owner)%N.
Proof.
  intros Ho Hp Hg. unfold admit_volume, preview. cbv beta iota zeta. intros (w0 & Hd & H)%(admit_rounds_ok sur).
  2:{ intros u u' (u1 & f & H1 & H2)%api_bind_ok.
      apply check_storage_quota_ok in H1 as (s0 & s1 & _ & _ & D0 & D1 & D2 & _).
      apply create_under_passed in H2. by repeat (etrans; [eassumption|]). }
  apply api_bind_ok in H as (w1 & f & Hq & Hc).
  apply check_storage_quota_ok in Hq as (s0 & s1 & Hk & Hr & D0 & D1 & D2 & Hok).
  apply stored_ok in Hc.
  assert (Hsp : spec created = spec volume).
  { pose proof Hc as (b & mark & _ & He & _ & Hdec & _)%create_fenced_wrote.
    by rewrite (encode_name _ _ _ _ _ He Hdec). }
  assert (Hw : volume_weight owner (name (metadata pool)) (fun g => g) created = VolumeSpec.size_gib (spec volume)).
  { unfold volume_weight. by rewrite Hsp, Ho, Hp, !String.eqb_refl. }
  assert (Hb : (sum_of (volume_weight owner (name (metadata pool)) (fun g => g)) (volumes_in (db w')) <=
    VolumeSpec.size_gib (spec volume)
    + sum_of (volume_weight owner (name (metadata pool)) (fun g => g)) (volumes_in s1))%N).
  { rewrite <- Hw. by eapply fenced_create_total; eauto. }
  revert Hok. unfold check_storage. destruct (_ <? _)%N eqn:E; [done|]. intros _. apply N.ltb_ge in E.
  revert E. rewrite !storage_totals. unfold StorageUsage.plus, sat_add. simpl. lia.
Qed.
End admitted.

(** * Witnesses *)

(** Stored bytes that decode as one kind, or a fence's mark. *)
Inductive kept := KeptTenant (t : Tenant) | KeptVm (v : Vm) | KeptVolume (v : Volume) | KeptEvent (e : Event) | Mark (s : string).

#[export] Instance kept_raw : RawJson kept := {| raw := fun _ => None |}.
#[export] Instance kept_tenant : Serde kept TenantSpec.t TenantStatus.t :=
  {| to_vec := fun t => Ok (KeptTenant t);
     from_slice := fun b => match b with KeptTenant t => Ok t | _ => Err "expected value" end |}.
#[export] Instance kept_event : Serde kept EventSpec.t unit :=
  {| to_vec := fun e => Ok (KeptEvent e);
     from_slice := fun b => match b with KeptEvent e => Ok e | _ => Err "expected value" end |}.
#[export] Instance kept_vm : Serde kept VmSpec.t VmStatus.t :=
  {| to_vec := fun v => Ok (KeptVm v);
     from_slice := fun b => match b with KeptVm v => Ok v | _ => Err "expected value" end |}.
#[export] Instance kept_vm_laws : SerdeLaws kept VmSpec.t VmStatus.t.
Proof. split. by intros o b [= <-]. Qed.
#[export] Instance kept_volume : Serde kept VolumeSpec.t VolumeStatus.t :=
  {| to_vec := fun v => Ok (KeptVolume v);
     from_slice := fun b => match b with KeptVolume v => Ok v | _ => Err "expected value" end |}.
#[export] Instance kept_volume_laws : SerdeLaws kept VolumeSpec.t VolumeStatus.t.
Proof. split. by intros o b [= <-]. Qed.

(** Nobody else writes. *)
Lemma quiet_growth {Bytes} fk (measure : mem Bytes -> N) : fenced_growth quiet fk measure.
Proof. intros n s. simpl. split; [apply rtc_refl|]. split; [done|lia]. Qed.

(** A tenant that may have one VM, and no VM yet. *)
Definition acme : Tenant :=
  object_new API_VERSION "Tenant" "acme" "u-t" 0%Z
    (TenantSpec.mk "" (TenantQuota.mk (Some 1%N) None None) None [] []) (TenantStatus.mk (TenantUsage.mk 0 0 0)).
Definition one_tenant : world (mem kept) :=
  World (mem_commit mem_empty [Put "p/registry/tenants/acme" (KeptTenant acme) NoLease]) 0.
Definition vm_of (nm tenant : string) : Vm :=
  let s := spec (example_vm nm) in
  with_spec (example_vm nm)
    {| VmSpec.node_name := VmSpec.node_name s; VmSpec.cluster_name := VmSpec.cluster_name s;
       VmSpec.run_strategy := VmSpec.run_strategy s; VmSpec.evacuation := VmSpec.evacuation s;
       VmSpec.tenant := Some tenant; VmSpec.class_ := VmSpec.class_ s;
       VmSpec.cluster_selector := VmSpec.cluster_selector s; VmSpec.node_selector := VmSpec.node_selector s;
       VmSpec.anti_affinity := VmSpec.anti_affinity s; VmSpec.vm := VmSpec.vm s |}.
Definition ask_vm (nm : string) (w : world (mem kept)) : world (mem kept) * result ApiError.t Vm :=
  admit_vm (Resource0 := vm_resource (fun _ => "")) "p" quiet Mark (fun _ _ => 1%Z) (fun _ => "u-e") false "acme"
    (vm_of nm "acme") w.

(** The first VM is admitted, and then no second one. *)
Lemma tenant_quota_holds_witness :
  let w' := (ask_vm "v1" one_tenant).1 in
  is_some (result_ok (ask_vm "v2" w').2) = false /\
  exists s t, drift quiet (db one_tenant) s /\ tenant_in "p" s "acme" t /\
    check (TenantSpec.quota (spec t)) "acme" (Usage.of_ "acme" (vms_in "p" (fun _ => "") (db w')) None) = Ok tt.
Proof.
  assert (Hok : is_some (result_ok (ask_vm "v1" one_tenant).2) = true) by (by vm_compute).
  split; [by vm_compute|]. destruct (ask_vm "v1" one_tenant) as [w' [created|e]] eqn:E; [|done].
  apply (tenant_quota_holds (D := mem kept) "p" quiet Mark (fun _ _ => 1%Z) (fun _ => "u-e") (fun _ => "")
           "acme" (vm_of "v1" "acme") created one_tenant w'); [done| |exact E].
  intros f _. apply quiet_growth.
Defined.

(** A pool of which the tenant may hold 10 GiB. *)
Definition ten_gib : StoragePool :=
  object_new API_VERSION "StoragePool" "fast" "u-p" 0%Z
    {| StoragePoolSpec.driver := "lvm"; StoragePoolSpec.nodes := []; StoragePoolSpec.params := None;
       StoragePoolSpec.default := true; StoragePoolSpec.quota := [("acme", 10%N)]; StoragePoolSpec.cluster := "c1";
       StoragePoolSpec.clusters := []; StoragePoolSpec.description := "" |}
    {| StoragePoolStatus.phase := phase_default; StoragePoolStatus.locality := None; StoragePoolStatus.nodes := [];
       StoragePoolStatus.claims := []; StoragePoolStatus.clusters := []; StoragePoolStatus.disagreement := None;
       StoragePoolStatus.pointer_target := None |}.
Definition volume_of (nm : string) (gib : N) : Volume :=
  object_new API_VERSION "Volume" nm "u-v" 0%Z
    {| VolumeSpec.tenant := "acme"; VolumeSpec.pool := "fast"; VolumeSpec.size_gib := gib;
       VolumeSpec.mode := VolumeMode.Block; VolumeSpec.access_mode := AccessMode.ReadWriteOnce;
       VolumeSpec.base_image := None; VolumeSpec.from_snapshot := None; VolumeSpec.description := "" |}
    example_volume_status.
Definition ask_volume (nm : string) (gib : N) (w : world (mem kept)) : world (mem kept) * result ApiError.t Volume :=
  admit_volume "p" quiet Mark false "acme" ten_gib (volume_of nm gib) w.

(** Six of ten GiB are admitted, and then no further five. *)
Lemma storage_quota_holds_witness :
  let w' := (ask_volume "d1" 6 one_tenant).1 in
  is_some (result_ok (ask_volume "d2" 5 w').2) = false /\
  (StorageUsage.gib (StorageUsage.of_ "acme" "fast" (volumes_in "p" (db w')) None) <= 10)%N.
Proof.
  assert (Hok : is_some (result_ok (ask_volume "d1" 6 one_tenant).2) = true) by (by vm_compute).
  split; [by vm_compute|]. destruct (ask_volume "d1" 6 one_tenant) as [w' [created|e]] eqn:E; [|done].
  apply (storage_quota_holds (D := mem kept) "p" quiet Mark "acme" ten_gib (volume_of "d1" 6) created one_tenant w');
    [done|done| |exact E].
  apply quiet_growth.
Defined.
