(* ===== verification/AddressSpace.v ===== *)
(** Who claims which IPv4 address space, and what a tenant's guests may send from:
    [src/shared/controller-api/src/address_space.rs], the provider network and
    router resources of [src/shared/controller-api/src/resources/network.rs], and
    the address book of [src/components/cloud-controller/src/reconcile/floating.rs].

    A tenant writes the inside address of its routers itself, and the prefix it is
    on would let every guest of the tenant send from it.  The cloud judges it
    against everybody else's claims, read together and completely. *)
From Stdlib Require Import Ascii String NArith ZArith List Bool Lia.
From stdpp Require Import base list strings gmap relations.
From S2P Require Import Prelude RustStr Json Net Capability Heartbeat Vm Node Floating Quota.
From S2P Require Import Phase Objects Store StoreSafety.

(** * Resources *)

Module ProviderNetworkSpec.
Record t := mk {
  physnet : string;
  cidr : string;
  gateway : string;
  allocation : list string;
  description : string }.
End ProviderNetworkSpec.

Definition ProviderNetwork : Type := Object ProviderNetworkSpec.t unit.

#[export] Instance provider_network_resource : Resource ProviderNetworkSpec.t unit :=
  {| RESOURCE := "providernetworks"; NAME_SHAPE := NameShape.DnsLabel; settle := fun _ o => o |}.

Module NatKind.
Inductive t := Snat | DnatAndSnat | Routed.
Definition ALL : list t := [Snat; DnatAndSnat; Routed].
Definition as_str (k : t) : string :=
  match k with
  | Snat => "snat"
  | DnatAndSnat => "dnat_and_snat"
  | Routed => "routed"
  end.
Definition parse (s : string) : option t := List.find (fun k => String.eqb (as_str k) s) ALL.
End NatKind.

Module NatRule.
Record t := mk { kind : NatKind.t; external_ip : string; logical_ip : string }.
End NatRule.

#[export] Instance NatKind_eq_dec : EqDecision NatKind.t.
Proof. solve_decision. Defined.
#[export] Instance NatRule_eq_dec : EqDecision NatRule.t.
Proof. solve_decision. Defined.

Definition CLASS_ROUTER : string := "router".

Module RouterSpec.
Record t := mk {
  tenant : string;
  provider_network : string;
  class_ : string;
  snat : bool;
  vni : option N;
  internal_addr : string;
  routed_subnets : list string;
  description : string }.

Definition default : t := mk "" "" "" true None "" [] "".

Definition class (s : t) : string := if str_is_empty (class_ s) then CLASS_ROUTER else class_ s.
End RouterSpec.

Module RouterReason.
Inductive t :=
| Unrecorded | AwaitingNode | Unplaced | Dispatched | Refused | Silent
| NetnsGone | LegGone | DriverUnreachable.
Definition ALL : list t :=
  [Unrecorded; AwaitingNode; Unplaced; Dispatched; Refused; Silent; NetnsGone; LegGone; DriverUnreachable].
Definition as_str (r : t) : string :=
  match r with
  | Unrecorded => "Unrecorded"
  | AwaitingNode => "AwaitingNode"
  | Unplaced => "Unplaced"
  | Dispatched => "Dispatched"
  | Refused => "Refused"
  | Silent => "Silent"
  | NetnsGone => "NetnsGone"
  | LegGone => "LegGone"
  | DriverUnreachable => "DriverUnreachable"
  end.
End RouterReason.

Module RouterPhaseKind.
Inductive t := Pending | Provisioning | Active | Standby | Failed | Unknown.
Definition ALL : list t := [Pending; Provisioning; Active; Standby; Failed; Unknown].
Definition as_str (k : t) : string :=
  match k with
  | Pending => "Pending"
  | Provisioning => "Provisioning"
  | Active => "Active"
  | Standby => "Standby"
  | Failed => "Failed"
  | Unknown => "Unknown"
  end.
Definition carries_reason (k : t) : bool := match k with Active | Standby => false | _ => true end.
Definition is_terminal (k : t) : bool := match k with Active | Standby => true | _ => false end.
End RouterPhaseKind.

#[export] Instance RouterReason_eq_dec : EqDecision RouterReason.t.
Proof. solve_decision. Defined.
#[export] Instance RouterPhaseKind_eq_dec : EqDecision RouterPhaseKind.t.
Proof. solve_decision. Defined.

#[export] Program Instance RouterReason_set : ReasonSet RouterReason.t := {
  Unrecorded := RouterReason.Unrecorded;
  reason_all := RouterReason.ALL;
  reason_str := RouterReason.as_str;
}.
Next Obligation. solve_vocabulary. Qed.
Next Obligation. by intros []. Qed.

#[export] Program Instance RouterPhase_set : PhaseSet RouterPhaseKind.t := {
  kind_default := RouterPhaseKind.Pending;
  kind_all := RouterPhaseKind.ALL;
  kind_str := RouterPhaseKind.as_str;
  carries := RouterPhaseKind.carries_reason;
  kind_terminal := RouterPhaseKind.is_terminal;
}.
Next Obligation. solve_vocabulary. Qed.
Next Obligation. done. Qed.

Definition RouterPhase : Type := phase RouterPhaseKind.t RouterReason.t.
Definition RouterReported : Type := reported RouterPhaseKind.t RouterReason.t.

Module RouterStatus.
Record t := mk {
  phase : RouterPhase;
  reported : option RouterReported;
  external_addr : string;
  cluster : string;
  nodes : list string;
  active_node : string;
  nats : list NatRule.t;
  refused : list string;
  releasing : list string;
  announced : list string;
  observed_generation : N }.

Definition default : t := mk phase_default None "" "" [] "" [] [] [] [] 0.

Definition set_phase (s : t) (p : RouterPhase) : t :=
  mk p (reported s) (external_addr s) (cluster s) (nodes s) (active_node s) (nats s) (refused s)
    (releasing s) (announced s) (observed_generation s).

Definition set_external_addr (s : t) (a : string) : t :=
  mk (phase s) (reported s) a (cluster s) (nodes s) (active_node s) (nats s) (refused s)
    (releasing s) (announced s) (observed_generation s).

Definition set_nats (s : t) (l : list NatRule.t) (a : list string) : t :=
  mk (phase s) (reported s) (external_addr s) (cluster s) (nodes s) (active_node s) l (refused s)
    (releasing s) a (observed_generation s).
End RouterStatus.

Definition Router : Type := Object RouterSpec.t RouterStatus.t.

Definition settle_router (status : RouterStatus.t) : RouterPhase :=
  match RouterStatus.reported status ≫= reported_phase with
  | Some phase => phase
  | None =>
      phase_new RouterPhaseKind.Pending RouterReason.AwaitingNode (Some "no pass has placed it yet") UNSTAMPED
  end.

Definition router_settle (now : instant) (r : Router) : Router :=
  let st := status r in
  with_status r (RouterStatus.set_phase st (stamp (RouterStatus.phase st) (settle_router st) now)).

#[export] Instance router_resource : Resource RouterSpec.t RouterStatus.t :=
  {| RESOURCE := "routers"; NAME_SHAPE := NameShape.DnsLabel; settle := router_settle |}.
#[export] Instance router_settle_laws : SettleLaws RouterSpec.t RouterStatus.t.
Proof. by split. Qed.

(** * Claims on the address space *)

(** Ranges, each with what claims it. *)
Abbreviation claims := (list (string * Ipv4Range)).

Definition off_limits_to_tenant (tenant : string) (pools : list FloatingPool) (subnets : list RoutedSubnet)
    (routed_pools : Ipv4Ranges.t) : claims :=
  let others := List.filter (fun s => negb (String.eqb (RoutedSubnetSpec.tenant (spec s)) tenant)) subnets in
  occupied pools others None ++ map (fun range => ("the routed pools", range)) routed_pools.

Definition tenant_networks (tenants : list Tenant) (except : option string) : claims :=
  flat_map (fun t =>
    filter_map (fun prefix =>
      option_map (fun range => ("tenant " +:+ name (metadata t) +:+ "'s network", range))
        (result_ok (range_from_str prefix)))
      (TenantSpec.network_prefixes (spec t)))
    (List.filter (fun t => negb (bool_decide (Some (name (metadata t)) = except))) tenants).

Definition provider_wires (networks : list ProviderNetwork) : claims :=
  flat_map (fun n =>
    let what := "provider network " +:+ name (metadata n) in
    let s := spec n in
    let entries := if str_is_empty (ProviderNetworkSpec.cidr s)
                   then ProviderNetworkSpec.allocation s ++ [ProviderNetworkSpec.gateway s]
                   else [ProviderNetworkSpec.cidr s] in
    map (fun range => (what, range)) (filter_map (fun entry => result_ok (range_from_str entry)) entries))
    networks.

Definition inside_address (router : Router) : result string (option (N * Ipv4Range)) :=
  let inside := RouterSpec.internal_addr (spec router) in
  if str_is_empty inside then Ok None
  else
    match '(host, _) ← split_once "/" inside; Ipv4Addr.parse (trim host) with
    | None => Err (debug inside +:+ " is not an address with its prefix length, like 10.30.0.1/24")
    | Some host =>
        match range_from_str inside with
        | Ok prefix => Ok (Some (host, prefix))
        | Err e => Err (range_error_to_string e)
        end
    end.

Definition inside_prefix (router : Router) : result string (option Ipv4Range) :=
  inside ← inside_address router; Ok (option_map snd inside).

Definition cidr_of (range : Ipv4Range) : string := unwrap_or (range_to_string range) (to_cidr range).

Definition covered_by_any (entries : list string) (prefix : Ipv4Range) : bool :=
  existsb (fun range => covers range prefix) (filter_map (fun entry => result_ok (range_from_str entry)) entries).

Definition prefix_beyond_own (router : Router) (subnets : list RoutedSubnet) (declared : list string)
  : result string (option Ipv4Range) :=
  inside ← inside_prefix router;
  match inside with
  | None => Ok None
  | Some prefix =>
      let tenant := RouterSpec.tenant (spec router) in
      let own_subnets := map (fun s => RoutedSubnetSpec.cidr (spec s))
        (List.filter (fun s => String.eqb (RoutedSubnetSpec.tenant (spec s)) tenant) subnets) in
      if covered_by_any own_subnets prefix || covered_by_any declared prefix then Ok None
      else
        match declared with
        | [] => Ok (Some prefix)
        | _ => Err (cidr_of prefix +:+ " is not inside tenant " +:+ tenant +:+ "'s network (" +:+
                    join ", " declared +:+ ")")
        end
  end.

Definition UNTOLD : string :=
  "the address space they claim cannot be told; refusing rather than letting a prefix onto it".

Module ClaimedSpace.
Record t := mk {
  pools : list FloatingPool;
  subnets : list RoutedSubnet;
  tenants : list Tenant;
  provider_networks : list ProviderNetwork;
  routed_pools : Ipv4Ranges.t }.

Definition network_of (c : t) (tenant : string) : list string :=
  match List.find (fun t => String.eqb (name (metadata t)) tenant) (tenants c) with
  | Some t => TenantSpec.network_prefixes (spec t)
  | None => []
  end.

Definition off_limits_to_inside_prefix (c : t) (tenant : string) : claims :=
  let others_subnets :=
    map (fun range => ("another tenant's routed subnet", range))
      (filter_map (fun s : RoutedSubnet => result_ok (range_from_str (RoutedSubnetSpec.cidr (spec s))))
         (List.filter (fun s => negb (String.eqb (RoutedSubnetSpec.tenant (spec s)) tenant)) (subnets c))) in
  let routed := map (fun range => ("the routed pools", range)) (routed_pools c) in
  let others_networks :=
    map (fun p => ("another tenant's network", p.2)) (tenant_networks (tenants c) (Some tenant)) in
  occupied (pools c) [] None ++ others_subnets ++ routed ++ others_networks
  ++ provider_wires (provider_networks c).

Definition refusal_of (c : t) (tenant : string) (prefix : Ipv4Range) : option string :=
  option_map (fun p => cidr_of prefix +:+ " overlaps " +:+ p.1 +:+ "; tenant " +:+ tenant +:+
                       " declares no network its routers' prefixes could lie in")
    (List.find (fun p => overlaps p.2 prefix) (off_limits_to_inside_prefix c tenant)).

Definition opened_by_router (c : t) (router : Router) (declared : list string)
  : result string (option Ipv4Range) :=
  beyond ← prefix_beyond_own router (subnets c) declared;
  match beyond with
  | None => Ok None
  | Some prefix =>
      match refusal_of c (RouterSpec.tenant (spec router)) prefix with
      | Some why => Err why
      | None => Ok (Some prefix)
      end
  end.

Section read.
Context {D Bytes : Type} `{!Etcd D Bytes, !RawJson Bytes}.
Context `{!Serde Bytes FloatingPoolSpec.t unit, !Serde Bytes RoutedSubnetSpec.t RoutedSubnetStatus.t,
  !Serde Bytes TenantSpec.t TenantStatus.t, !Serde Bytes ProviderNetworkSpec.t unit}.

Definition read (prefix : string) (sur : surroundings D) (routed_pools : Ipv4Ranges.t) : store_m D t :=
  pools ← all_pools prefix sur;
  subnets ← all_subnets prefix sur;
  tenants ← list_complete prefix sur UNTOLD;
  provider_networks ← list_complete prefix sur UNTOLD;
  mret (mk pools subnets tenants provider_networks routed_pools).
End read.
End ClaimedSpace.

(** * The address book of a pass *)

Module RefusedPrefix.
Record t := mk { router : string; uid : string; tenant : string; why : string }.

Definition of_ (r : Router) (why : string) : t :=
  mk (name (metadata r)) (Objects.uid (metadata r)) (RouterSpec.tenant (spec r)) why.
End RefusedPrefix.

Module Carried.
Record t := mk { resource : string; name : string; uid : string; generation : N }.

Definition of_ {S St} (o : Object S St) (resource : string) : t :=
  mk resource (Objects.name (metadata o)) (Objects.uid (metadata o)) (Objects.generation (metadata o)).
End Carried.

Module Addresses.
Record t := mk {
  floating_ips : list string;
  source_prefixes : list string;
  carried : list Carried.t;
  refused : list RefusedPrefix.t }.

Definition default : t := mk [] [] [] [].
End Addresses.

(** [vm.spec.tenant.as_deref().filter(|t| !t.is_empty())]. *)
Definition tenant_of (vm : Vm) : option string :=
  match VmSpec.tenant (spec vm) with
  | Some t => if negb (str_is_empty t) then Some t else None
  | None => None
  end.

Module AddressBook.
Record t := mk {
  reservations : list FloatingIp;
  subnets : list RoutedSubnet;
  routers : list Router }.

Definition routers_of (b : t) (tenant : string) : list Router :=
  List.filter (fun r => String.eqb (RouterSpec.tenant (spec r)) tenant) (routers b).

Definition beyond_own (b : t) (router : Router) (declared : list string) : result string (option Ipv4Range) :=
  prefix_beyond_own router (subnets b) declared.

Definition opened_by (b : t) (router : Router) (declared : list string) (claimed : option ClaimedSpace.t)
  : result string (option Ipv4Range) :=
  beyond ← beyond_own b router declared;
  match beyond with
  | None => Ok None
  | Some prefix =>
      match claimed with
      | None => Err (cidr_of prefix +:+ " could not be judged against the address space claimed in the cloud")
      | Some claimed =>
          match ClaimedSpace.refusal_of claimed (RouterSpec.tenant (spec router)) prefix with
          | Some why => Err why
          | None => Ok (Some prefix)
          end
      end
  end.

(** One iteration of the loop over the tenant's routers. *)
Definition note_router (b : t) (declared : list string) (claimed : option ClaimedSpace.t)
    (acc : list string * list RefusedPrefix.t) (router : Router) : list string * list RefusedPrefix.t :=
  match opened_by b router declared claimed with
  | Ok (Some p) => (acc.1 ++ [cidr_of p], acc.2)
  | Ok None => acc
  | Err why => (acc.1, acc.2 ++ [RefusedPrefix.of_ router why])
  end.

Definition network_prefixes (b : t) (tenant : string) (declared : list string) (claimed : option ClaimedSpace.t)
  : list string * list RefusedPrefix.t :=
  foldl (note_router b declared claimed) (declared, []) (routers_of b tenant).

Definition tenant_reaching_beyond_own (b : t) (vm : Vm) (declared : list string) : option string :=
  tenant ← tenant_of vm;
  if existsb (fun r => match beyond_own b r declared with Ok (Some _) => true | _ => false end)
       (routers_of b tenant)
  then Some tenant else None.

(** The reservations of the tenant that name the VM. *)
Definition mine (tenant vm : string) (ip : FloatingIp) : bool :=
  String.eqb (FloatingIpSpec.tenant (spec ip)) tenant && bool_decide (FloatingIpSpec.vm (spec ip) = Some vm).

Definition for_vm (b : t) (vm : Vm) (declared : list string) (claimed : option ClaimedSpace.t) : Addresses.t :=
  match tenant_of vm with
  | None => Addresses.default
  | Some tenant =>
      let nm := name (metadata vm) in
      let ips := List.filter (mine tenant nm) (reservations b) in
      let own := List.filter (fun s : RoutedSubnet => String.eqb (RoutedSubnetSpec.tenant (spec s)) tenant)
                   (subnets b) in
      let (network, refused) := network_prefixes b tenant declared claimed in
      Addresses.mk
        (sort_by String.compare (map (fun ip => FloatingIpSpec.address (spec ip)) ips))
        (dedup String.eqb
           (sort_by String.compare (map (fun s : RoutedSubnet => RoutedSubnetSpec.cidr (spec s)) own ++ network)))
        (map (fun ip => Carried.of_ ip "floatingips") ips
         ++ map (fun s => Carried.of_ s "routedsubnets") own)
        refused
  end.

Section read.
Context {D Bytes : Type} `{!Etcd D Bytes, !RawJson Bytes}.
Context `{!Serde Bytes FloatingIpSpec.t FloatingIpStatus.t, !Serde Bytes RoutedSubnetSpec.t RoutedSubnetStatus.t,
  !Serde Bytes RouterSpec.t RouterStatus.t}.

Definition all_routers (prefix : string) (sur : surroundings D) : store_m D (list Router) :=
  list_complete prefix sur
    "the prefixes behind them cannot be named; refusing rather than guarding their tenants' taps on a list without them".

Definition read (prefix : string) (sur : surroundings D) : store_m D t :=
  reservations ← all_reservations prefix sur;
  subnets ← all_subnets prefix sur;
  routers ← all_routers prefix sur;
  mret (mk reservations subnets routers).
End read.
End AddressBook.

(** The pass's book and claimed space, each read on first use and kept; a read that
    failed is not kept. *)
Module LazyBook.
Record t := mk {
  book : option AddressBook.t;
  claimed : option ClaimedSpace.t;
  routed_pools : Ipv4Ranges.t }.

Definition new (routed_pools : Ipv4Ranges.t) : t := mk None None routed_pools.

(** An [anyhow] error: its context, where one was added, and its cause. *)
Definition failure : Type := option string * StoreError.t.

Section addresses.
Context {D Bytes : Type} `{!Etcd D Bytes, !RawJson Bytes}.
Context `{!Serde Bytes FloatingIpSpec.t FloatingIpStatus.t, !Serde Bytes RoutedSubnetSpec.t RoutedSubnetStatus.t,
  !Serde Bytes RouterSpec.t RouterStatus.t, !Serde Bytes FloatingPoolSpec.t unit,
  !Serde Bytes TenantSpec.t TenantStatus.t, !Serde Bytes ProviderNetworkSpec.t unit}.
Context (prefix : string) (sur : surroundings D).

(** [OnceCell::get_or_try_init]. *)
Definition get_or_try_init {A} (cell : option A) (init : store_m D A) (w : world D)
  : world D * result StoreError.t A :=
  match cell with
  | Some a => (w, Ok a)
  | None => init w
  end.

Definition addresses (lazy : t) (vm : Vm) (declared : list string) (w : world D)
  : t * world D * result failure Addresses.t :=
  match get_or_try_init (book lazy) (AddressBook.read prefix sur) w with
  | (w1, Err e) => (lazy, w1, Err (None, e))
  | (w1, Ok b) =>
      let lazy1 := mk (Some b) (claimed lazy) (routed_pools lazy) in
      match AddressBook.tenant_reaching_beyond_own b vm declared with
      | None => (lazy1, w1, Ok (AddressBook.for_vm b vm declared None))
      | Some tenant =>
          match get_or_try_init (claimed lazy) (ClaimedSpace.read prefix sur (routed_pools lazy)) w1 with
          | (w2, Err e) =>
              (lazy1, w2, Err (Some ("judging the prefix behind a router of tenant " +:+ tenant), e))
          | (w2, Ok c) =>
              (mk (Some b) (Some c) (routed_pools lazy), w2, Ok (AddressBook.for_vm b vm declared (Some c)))
          end
      end
  end.
End addresses.
End LazyBook.

(** * Lemmas *)

(** A range that somebody else than the tenant claims. *)
Definition claimed_by_other (c : ClaimedSpace.t) (tenant : string) (r : Ipv4Range) : Prop :=
  (exists pool e, In pool (ClaimedSpace.pools c) /\ In e (FloatingPoolSpec.cidrs (spec pool)) /\
     range_from_str e = Ok r)
  \/ (exists s, In s (ClaimedSpace.subnets c) /\ RoutedSubnetSpec.tenant (spec s) <> tenant /\
     range_from_str (RoutedSubnetSpec.cidr (spec s)) = Ok r)
  \/ In r (ClaimedSpace.routed_pools c)
  \/ (exists t e, In t (ClaimedSpace.tenants c) /\ name (metadata t) <> tenant /\
     In e (TenantSpec.network_prefixes (spec t)) /\ range_from_str e = Ok r)
  \/ (exists n e, In n (ClaimedSpace.provider_networks c) /\
     In e (if str_is_empty (ProviderNetworkSpec.cidr (spec n))
           then ProviderNetworkSpec.gateway (spec n) :: ProviderNetworkSpec.allocation (spec n)
           else [ProviderNetworkSpec.cidr (spec n)]) /\
     range_from_str e = Ok r).

Lemma in_parsed {A} (f : Ipv4Range -> A) (entries : list string) x :
  In x (filter_map (fun e => option_map f (result_ok (range_from_str e))) entries) <->
  exists e r, In e entries /\ range_from_str e = Ok r /\ x = f r.
Proof.
  rewrite in_filter_map. split.
  - intros (e & Hin & He). destruct (range_from_str e) as [r|] eqn:E; [|done]. injection He as <-. eauto.
  - intros (e & r & Hin & He & ->). exists e. rewrite He. done.
Qed.

Lemma in_pools pools what r :
  In (what, r) (occupied pools [] None) <->
  exists pool e, In pool pools /\ In e (FloatingPoolSpec.cidrs (spec pool)) /\ range_from_str e = Ok r /\
    what = "floating pool " +:+ name (metadata pool).
Proof.
  unfold occupied. simpl. rewrite app_nil_r, in_flat_map. split.
  - intros (pool & Hp & (e & r' & He & Hr & [= -> ->])%in_parsed). by exists pool, e.
  - intros (pool & e & Hp & He & Hr & ->). exists pool. split; [done|]. apply in_parsed. by exists e, r.
Qed.

Lemma in_tenant_networks tenants tenant r :
  (exists what, In (what, r) (tenant_networks tenants (Some tenant))) <->
  exists t e, In t tenants /\ name (metadata t) <> tenant /\ In e (TenantSpec.network_prefixes (spec t)) /\
    range_from_str e = Ok r.
Proof.
  unfold tenant_networks. setoid_rewrite in_flat_map. setoid_rewrite filter_In. split.
  - intros (what & t & [Hin Hn] & (e & r' & He & Hr & [= -> ->])%in_parsed).
    apply negb_true_iff, bool_decide_eq_false in Hn. exists t, e. naive_solver.
  - intros (t & e & Hin & Hn & He & Hr). eexists _, t. split; [|apply in_parsed; by exists e, r].
    split; [done|]. apply negb_true_iff, bool_decide_eq_false. naive_solver.
Qed.

Lemma in_provider_wires networks what r :
  In (what, r) (provider_wires networks) <->
  exists n e, In n networks /\
    In e (if str_is_empty (ProviderNetworkSpec.cidr (spec n))
          then ProviderNetworkSpec.gateway (spec n) :: ProviderNetworkSpec.allocation (spec n)
          else [ProviderNetworkSpec.cidr (spec n)]) /\
    range_from_str e = Ok r /\ what = "provider network " +:+ name (metadata n).
Proof.
  unfold provider_wires. rewrite in_flat_map.
  assert (Hp : forall entries r, In r (filter_map (fun entry => result_ok (range_from_str entry)) entries) <->
                                 exists e, In e entries /\ range_from_str e = Ok r).
  { intros entries r0. rewrite in_filter_map. split; intros (e & Hin & He); exists e; split; try done;
      by destruct (range_from_str e); simpl in *; congruence. }
  setoid_rewrite in_map_iff. setoid_rewrite Hp. split.
  - intros (n & Hn & r' & [= <- <-] & e & He & Hr). exists n, e. split_and!; try done.
    destruct (str_is_empty _); [|done]. rewrite in_app_iff in He. simpl in *. naive_solver.
  - intros (n & e & Hn & He & Hr & ->). exists n. split; [done|]. exists r. split; [done|]. exists e. split; [|done].
    destruct (str_is_empty _); [|done]. rewrite in_app_iff. simpl in *. naive_solver.
Qed.

Lemma in_others_subnets (l : list RoutedSubnet) tenant r :
  In r (filter_map (fun s : RoutedSubnet => result_ok (range_from_str (RoutedSubnetSpec.cidr (spec s))))
          (List.filter (fun s => negb (String.eqb (RoutedSubnetSpec.tenant (spec s)) tenant)) l)) <->
  exists s, In s l /\ RoutedSubnetSpec.tenant (spec s) <> tenant /\
    range_from_str (RoutedSubnetSpec.cidr (spec s)) = Ok r.
Proof.
  rewrite in_filter_map. setoid_rewrite filter_In. split.
  - intros (s & [Hin Hn] & Hr). bool_hyps. exists s. destruct (range_from_str _); simpl in *; naive_solver.
  - intros (s & Hin & Hn & Hr). exists s. rewrite Hr. split; [|done]. split; [done|].
    by apply negb_true_iff, String.eqb_neq.
Qed.

(** The words a refusal may use for a claim. *)
Definition claim_word (c : ClaimedSpace.t) (what : string) : Prop :=
  (exists pool, In pool (ClaimedSpace.pools c) /\ what = "floating pool " +:+ name (metadata pool))
  \/ what = "another tenant's routed subnet" \/ what = "the routed pools" \/ what = "another tenant's network"
  \/ (exists n, In n (ClaimedSpace.provider_networks c) /\ what = "provider network " +:+ name (metadata n)).

Lemma in_off_limits c tenant what r :
  In (what, r) (ClaimedSpace.off_limits_to_inside_prefix c tenant) ->
  claimed_by_other c tenant r /\ claim_word c what.
Proof.
  unfold ClaimedSpace.off_limits_to_inside_prefix, claimed_by_other, claim_word.
  intros [H|[H|[H|[H|H]%in_app_or]%in_app_or]%in_app_or]%in_app_or.
  - apply in_pools in H. naive_solver.
  - apply in_map_iff in H as (r' & [= <- <-] & H%in_others_subnets). naive_solver.
  - apply in_map_iff in H as (r' & [= <- <-] & H). naive_solver.
  - apply in_map_iff in H as ([w r'] & [= <- <-] & H).
    assert (Ht : exists what, In (what, r') (tenant_networks (ClaimedSpace.tenants c) (Some tenant))) by eauto.
    apply in_tenant_networks in Ht. naive_solver.
  - apply in_provider_wires in H as (n & e & H). naive_solver.
Qed.

Lemma off_limits_complete c tenant r :
  claimed_by_other c tenant r -> exists what, In (what, r) (ClaimedSpace.off_limits_to_inside_prefix c tenant).
Proof.
  unfold ClaimedSpace.off_limits_to_inside_prefix, claimed_by_other.
  intros [(pool & e & Hp & He & Hr)|[H|[H|[H|(n & e & Hn & He & Hr)]]]].
  - eexists. apply in_or_app. left. apply in_pools. by exists pool, e.
  - eexists. apply in_or_app. right. apply in_or_app. left. apply in_map_iff. exists r. split; [done|].
    by apply in_others_subnets.
  - eexists. do 2 (apply in_or_app; right). apply in_or_app. left. apply in_map_iff. by exists r.
  - apply in_tenant_networks in H as [what H]. eexists. do 3 (apply in_or_app; right). apply in_or_app. left.
    apply in_map_iff. by exists (what, r).
  - eexists. do 4 (apply in_or_app; right). apply in_provider_wires. by exists n, e.
Qed.

(** Two ranges that share no address. *)
Definition apart (p r : Ipv4Range) : Prop := forall a, contains p a = true -> contains r a = false.

Lemma apart_overlaps p r : range_wf p -> range_wf r -> (overlaps r p = false <-> apart p r).
Proof.
  intros (Hp & _) (Hr & _). unfold apart, overlaps, contains. split.
  - intros H a Ha. bool_hyps. apply andb_false_iff in H as [H|H]; apply N.leb_gt in H;
      apply andb_false_iff; rewrite !N.leb_gt; lia.
  - intros H. destruct (andb _ _) eqn:E; [|done]. bool_hyps.
    specialize (H (N.max (start p) (start r))). rewrite <- H; [|apply andb_true_iff; rewrite !N.leb_le; lia].
    symmetry. apply andb_true_iff. rewrite !N.leb_le. lia.
Qed.

Lemma claimed_wf c tenant r :
  Forall range_wf (ClaimedSpace.routed_pools c) -> claimed_by_other c tenant r -> range_wf r.
Proof.
  rewrite List.Forall_forall. intros Hw [(pool & e & _ & _ & H)|[(s & _ & _ & H)|[H|[(t & e & _ & _ & _ & H)|(n & e & _ & _ & H)]]]];
    first [by eapply range_from_str_wf|by apply Hw].
Qed.

(** No refusal: nobody else's claim has an address of the prefix. *)
Lemma refusal_none c tenant p :
  Forall range_wf (ClaimedSpace.routed_pools c) -> range_wf p ->
  (ClaimedSpace.refusal_of c tenant p = None <-> forall r, claimed_by_other c tenant r -> apart p r).
Proof.
  intros Hw Hp. unfold ClaimedSpace.refusal_of. destruct (List.find _ _) as [[what r]|] eqn:E; simpl.
  - apply find_some in E as [Hin Ho]. simpl in Ho. apply in_off_limits in Hin as [Hc _]. split; [done|].
    intros H. pose proof (claimed_wf _ _ _ Hw Hc) as Hr. apply H, apart_overlaps in Hc; [congruence|done..].
  - split; [|done]. intros _ r Hc. pose proof (claimed_wf _ _ _ Hw Hc) as Hr. apply apart_overlaps; [done..|].
    destruct (off_limits_complete _ _ _ Hc) as [what Hin]. exact (find_none _ _ E _ Hin).
Qed.

Lemma inside_address_some router h p :
  inside_address router = Ok (Some (h, p)) -> range_from_str (RouterSpec.internal_addr (spec router)) = Ok p.
Proof.
  unfold inside_address. destruct (str_is_empty _); [done|]. case_match; [|done].
  destruct (range_from_str _) as [r|] eqn:E; [|done]. by intros [= _ <-].
Qed.

Lemma inside_prefix_wf router p : inside_prefix router = Ok (Some p) -> range_wf p.
Proof.
  unfold inside_prefix. destruct (inside_address router) as [[[h q]|]|e] eqn:E; simpl; try done.
  intros [= <-]. by eapply range_from_str_wf, inside_address_some.
Qed.

(** What is left to the claims of others: the prefix of a tenant that declares no
    network, outside its own subnets. *)
Lemma beyond_own_some router subnets declared p :
  prefix_beyond_own router subnets declared = Ok (Some p) <->
  declared = [] /\ inside_prefix router = Ok (Some p) /\
  covered_by_any (map (fun s : RoutedSubnet => RoutedSubnetSpec.cidr (spec s))
    (List.filter (fun s => String.eqb (RoutedSubnetSpec.tenant (spec s)) (RouterSpec.tenant (spec router))) subnets)) p
  = false.
Proof.
  unfold prefix_beyond_own. set (own := map _ _).
  destruct (inside_prefix router) as [[q|]|e]; simpl; [|split; [done|intros (_ & H & _); discriminate H]..].
  destruct (covered_by_any own q) eqn:E1; simpl.
  { split; [done|]. intros (_ & [= <-] & H). congruence. }
  destruct declared as [|d l].
  - change (covered_by_any [] q) with false. simpl. split; [intros [= <-]|intros (_ & [= <-] & _)]; done.
  - destruct (covered_by_any (d :: l) q); split; try done; by intros (H & _).
Qed.

Lemma in_network_prefixes b tenant declared claimed x :
  In x (AddressBook.network_prefixes b tenant declared claimed).1 <->
  In x declared \/ exists router p, In router (AddressBook.routers_of b tenant) /\
    AddressBook.opened_by b router declared claimed = Ok (Some p) /\ x = cidr_of p.
Proof.
  unfold AddressBook.network_prefixes. generalize (@nil RefusedPrefix.t) as refused.
  generalize (AddressBook.routers_of b tenant) as l. generalize declared at 2 3 as acc.
  intros acc l. revert acc. induction l as [|r l IH]; intros acc refused; simpl.
  { split; [auto|]. intros [H|(? & ? & [] & _)]; done. }
  unfold AddressBook.note_router at 2.
  destruct (AddressBook.opened_by b r declared claimed) as [[p|]|why] eqn:E; rewrite IH; simpl.
  - rewrite in_app_iff. simpl. split.
    + intros [[H|[<-|[]]]|(r0 & q & Hin & Ho & ->)]; eauto 10.
    + intros [H|(r0 & q & [<-|Hin] & Ho & ->)]; [auto| |eauto 10]. assert (q = p) as -> by congruence. auto.
  - split; intros [H|(r0 & q & Hin & Ho & ->)]; eauto 10. destruct Hin as [<-|Hin]; [congruence|eauto 10].
  - split; intros [H|(r0 & q & Hin & Ho & ->)]; eauto 10. destruct Hin as [<-|Hin]; [congruence|eauto 10].
Qed.

Lemma in_own_subnets (l : list RoutedSubnet) tenant text :
  In text (map (fun s : RoutedSubnet => RoutedSubnetSpec.cidr (spec s))
             (List.filter (fun s => String.eqb (RoutedSubnetSpec.tenant (spec s)) tenant) l)) <->
  exists s, In s l /\ RoutedSubnetSpec.tenant (spec s) = tenant /\ text = RoutedSubnetSpec.cidr (spec s).
Proof.
  rewrite in_map_iff. split.
  - intros (s & <- & [Hin Ht]%filter_In). apply String.eqb_eq in Ht. eauto.
  - intros (s & Hin & Ht & ->). exists s. split; [done|]. apply filter_In. by rewrite String.eqb_eq.
Qed.

(** The prefix behind a router opens when it reaches beyond what its tenant holds and
    lies on nobody else's claim. *)
Lemma opened_by_some b router declared claimed p :
  (forall c, claimed = Some c -> Forall range_wf (ClaimedSpace.routed_pools c)) ->
  AddressBook.opened_by b router declared claimed = Ok (Some p) <->
  AddressBook.beyond_own b router declared = Ok (Some p) /\
  exists c, claimed = Some c /\ forall r, claimed_by_other c (RouterSpec.tenant (spec router)) r -> apart p r.
Proof.
  intros Hw. unfold AddressBook.opened_by.
  destruct (AddressBook.beyond_own b router declared) as [[q|]|e] eqn:E; simpl; [|naive_solver..].
  assert (Hq : range_wf q) by (by apply beyond_own_some in E as (_ & H%inside_prefix_wf & _)).
  destruct claimed as [c|]; [|naive_solver].
  pose proof (refusal_none c (RouterSpec.tenant (spec router)) q (Hw c eq_refl) Hq) as Hr.
  destruct (ClaimedSpace.refusal_of _ _ q) as [why|] eqn:Ew.
  - split; [done|]. intros ([= <-] & c' & [= <-] & H). by apply Hr in H.
  - split; [intros [= <-]; split; [done|]; exists c; split; [done|by apply Hr]|naive_solver].
Qed.

Section allowlist.
Context {D Bytes : Type} `{!Etcd D Bytes, !EtcdLaws D Bytes, !RawJson Bytes}.
Context `{!Serde Bytes FloatingIpSpec.t FloatingIpStatus.t, !Serde Bytes RoutedSubnetSpec.t RoutedSubnetStatus.t,
  !Serde Bytes RouterSpec.t RouterStatus.t, !Serde Bytes FloatingPoolSpec.t unit,
  !Serde Bytes TenantSpec.t TenantStatus.t, !Serde Bytes ProviderNetworkSpec.t unit}.
Context (prefix : string) (sur : surroundings D).

(** A book and a claimed space that were read from the store. *)
Definition book_read (b : AddressBook.t) : Prop := exists u u', AddressBook.read prefix sur u = (u', Ok b).
Definition space_read (pools : Ipv4Ranges.t) (c : ClaimedSpace.t) : Prop :=
  exists u u', ClaimedSpace.read prefix sur pools u = (u', Ok c).

(** What the cells of a pass hold was read. *)
Definition kept (lazy : LazyBook.t) : Prop :=
  (forall b, LazyBook.book lazy = Some b -> book_read b) /\
  (forall c, LazyBook.claimed lazy = Some c -> space_read (LazyBook.routed_pools lazy) c).

Lemma space_read_pools pools c : space_read pools c -> ClaimedSpace.routed_pools c = pools.
Proof.
  intros (u & u' & H). unfold ClaimedSpace.read in H.
  do 4 (apply bind_ok in H as (? & ? & _ & H)). by injection H as _ <-.
Qed.

Lemma addresses_ok lazy lazy' vm declared w w' a :
  kept lazy -> LazyBook.addresses prefix sur lazy vm declared w = (lazy', w', Ok a) ->
  kept lazy' /\ exists b claimed, book_read b /\ a = AddressBook.for_vm b vm declared claimed /\
    match claimed with
    | Some c => space_read (LazyBook.routed_pools lazy) c
    | None => AddressBook.tenant_reaching_beyond_own b vm declared = None
    end.
Proof.
  intros [Hb Hc]. unfold LazyBook.addresses.
  destruct (LazyBook.get_or_try_init (LazyBook.book lazy) _ w) as [w1 [b|e]] eqn:E1; [|done].
  assert (Hr : book_read b).
  { destruct (LazyBook.book lazy) as [b'|]; simpl in E1; [injection E1 as _ <-; auto|by exists w, w1]. }
  destruct (AddressBook.tenant_reaching_beyond_own b vm declared) as [tenant|] eqn:Et.
  - destruct (LazyBook.get_or_try_init (LazyBook.claimed lazy) _ w1) as [w2 [c|e]] eqn:E2; [|done].
    assert (Hs : space_read (LazyBook.routed_pools lazy) c).
    { destruct (LazyBook.claimed lazy) as [c'|]; simpl in E2; [injection E2 as _ <-; auto|by exists w1, w2]. }
    intros [= <- <- <-]. split; [split; simpl; by intros ? [= <-]|]. by exists b, (Some c).
  - intros [= <- <- <-]. split; [split; simpl; [by intros ? [= <-]|done]|]. by exists b, None.
Qed.

(** C21. The source prefixes the cloud hands down for a VM are exactly these: the
    network declared on its tenant, the tenant's own routed subnets, and, for a
    tenant that declares no network, the inside prefix of one of its routers that
    shares no address with any floating pool, any other tenant's routed subnet or
    network, the routed pools or any provider network's wire.  The claims are a
    complete reading of the store, and are read whenever a router's prefix has to
    be judged by them. *)
Theorem allowlist_exact lazy lazy' vm declared tenant w w' a :
  Forall range_wf (LazyBook.routed_pools lazy) -> kept lazy -> tenant_of vm = Some tenant ->
  LazyBook.addresses prefix sur lazy vm declared w = (lazy', w', Ok a) ->
  exists b claimed, book_read b /\ (forall c, claimed = Some c -> space_read (LazyBook.routed_pools lazy) c) /\
    (claimed = None -> forall router p, In router (AddressBook.routers_of b tenant) ->
       prefix_beyond_own router (AddressBook.subnets b) declared <> Ok (Some p)) /\
    forall text, In text (Addresses.source_prefixes a) <->
      In text declared
      \/ (exists s, In s (AddressBook.subnets b) /\ RoutedSubnetSpec.tenant (spec s) = tenant /\
            text = RoutedSubnetSpec.cidr (spec s))
      \/ (exists router p c, In router (AddressBook.routers_of b tenant) /\ text = cidr_of p /\
            prefix_beyond_own router (AddressBook.subnets b) declared = Ok (Some p) /\
            claimed = Some c /\ forall r, claimed_by_other c tenant r -> apart p r).
Proof.
  intros Hw Hk Ht H. apply addresses_ok in H as (_ & b & claimed & Hb & -> & Hc); [|done].
  exists b, claimed. split; [done|]. split; [by intros c ->|]. split.
  { intros -> router p Hin Hp. unfold AddressBook.tenant_reaching_beyond_own in Hc. rewrite Ht in Hc. simpl in Hc.
    destruct (existsb _ _) eqn:E; [done|]. apply (proj1 (existsb_false _ _) E) in Hin.
    unfold AddressBook.beyond_own in Hin. by rewrite Hp in Hin. }
  intros text. unfold AddressBook.for_vm. rewrite Ht.
  pose proof (in_network_prefixes b tenant declared claimed text) as Hn.
  destruct (AddressBook.network_prefixes b tenant declared claimed) as [network refused]. simpl in *.
  rewrite in_dedup by apply String.eqb_eq. rewrite in_sort_by, in_app_iff, Hn, in_own_subnets.
  assert (Hcw : forall c, claimed = Some c -> Forall range_wf (ClaimedSpace.routed_pools c)).
  { intros c ->. by rewrite (space_read_pools _ _ Hc). }
  setoid_rewrite (opened_by_some b _ declared claimed _ Hcw).
  assert (Hr : forall router, In router (AddressBook.routers_of b tenant) -> RouterSpec.tenant (spec router) = tenant).
  { intros router [_ Hin]%filter_In. by apply String.eqb_eq. }
  split.
  - intros [H|[H|(router & p & Hin & (Hp & c & -> & Ha) & ->)]]; [auto..|].
    right. right. exists router, p, c. rewrite (Hr router Hin) in Ha. auto 10.
  - intros [H|[H|(router & p & c & Hin & -> & Hp & -> & Ha)]]; [auto..|].
    right. right. exists router, p. split; [done|]. split; [|done]. split; [done|]. exists c. by rewrite (Hr router Hin).
Qed.

(** The objects of a kind under a state's keys are all in a list. *)
Definition all_listed {Sp St} `{!Resource Sp St, !Serde Bytes Sp St} (s : D) (l : list (Object Sp St)) : Prop :=
  forall k kv, In (k, kv) (range s (dir_of (Sp := Sp) (St := St) prefix)) ->
    exists o, decode (kv_value kv) (mod_revision kv) = Ok o /\ In o l.

Lemma complete_listed {Sp St} `{!Resource Sp St, !Serde Bytes Sp St} stake w w' (l : list (Object Sp St)) :
  list_complete prefix sur stake w = (w', Ok l) ->
  drift sur (db w) (db w') /\ all_listed (db w') l.
Proof.
  intros (-> & -> & Hl)%list_complete_ok. simpl. split; [apply rtc_once; by exists (ticks w)|].
  intros k kv Hin. by eapply decode_all.
Qed.

(** The address space a prefix is judged against is complete: of each kind, every
    object the store held when that kind was read decoded and is in the reading;
    one that does not decode fails the reading instead. *)
Theorem claimed_space_complete pools w w' c :
  ClaimedSpace.read prefix sur pools w = (w', Ok c) ->
  ClaimedSpace.routed_pools c = pools /\
  exists s1 s2 s3, drift sur (db w) s1 /\ drift sur s1 s2 /\ drift sur s2 s3 /\ drift sur s3 (db w') /\
    all_listed s1 (ClaimedSpace.pools c) /\ all_listed s2 (ClaimedSpace.subnets c) /\
    all_listed s3 (ClaimedSpace.tenants c) /\ all_listed (db w') (ClaimedSpace.provider_networks c).
Proof.
  unfold ClaimedSpace.read, all_pools, all_subnets.
  intros (w1 & l1 & (D1 & H1)%complete_listed & H)%bind_ok.
  apply bind_ok in H as (w2 & l2 & (D2 & H2)%complete_listed & H).
  apply bind_ok in H as (w3 & l3 & (D3 & H3)%complete_listed & H).
  apply bind_ok in H as (w4 & l4 & (D4 & H4)%complete_listed & H). injection H as <- <-.
  split; [done|]. by exists (db w1), (db w2), (db w3).
Qed.
End allowlist.

(** A refusal tells a tenant nothing of another tenant's claims but their kind:
    its text is made of the prefix, the tenant's own name, and the name of a
    floating pool or provider network or one of three fixed phrases. *)
Theorem refusal_names_kinds c tenant p why :
  ClaimedSpace.refusal_of c tenant p = Some why ->
  exists what r, claim_word c what /\ claimed_by_other c tenant r /\ overlaps r p = true /\
    why = cidr_of p +:+ " overlaps " +:+ what +:+ "; tenant " +:+ tenant +:+
          " declares no network its routers' prefixes could lie in".
Proof.
  unfold ClaimedSpace.refusal_of. destruct (List.find _ _) as [[what r]|] eqn:E; [|done].
  intros [= <-]. apply find_some in E as [[Hc Hw]%in_off_limits Ho]. by exists what, r.
Qed.

(** * Witnesses *)

(** Stored bytes that decode as one kind. *)
Inductive claim_bytes :=
| IpBytes (o : FloatingIp) | SubnetBytes (o : RoutedSubnet) | RouterBytes (o : Router)
| PoolBytes (o : FloatingPool) | TenantBytes (o : Tenant) | NetworkBytes (o : ProviderNetwork).

#[export] Instance claim_raw : RawJson claim_bytes := {| raw := fun _ => None |}.
#[export] Instance claim_ip : Serde claim_bytes FloatingIpSpec.t FloatingIpStatus.t :=
  {| to_vec := fun o => Ok (IpBytes o);
     from_slice := fun b => match b with IpBytes o => Ok o | _ => Err "expected value" end |}.
#[export] Instance claim_subnet : Serde claim_bytes RoutedSubnetSpec.t RoutedSubnetStatus.t :=
  {| to_vec := fun o => Ok (SubnetBytes o);
     from_slice := fun b => match b with SubnetBytes o => Ok o | _ => Err "expected value" end |}.
#[export] Instance claim_router : Serde claim_bytes RouterSpec.t RouterStatus.t :=
  {| to_vec := fun o => Ok (RouterBytes o);
     from_slice := fun b => match b with RouterBytes o => Ok o | _ => Err "expected value" end |}.
#[export] Instance claim_pool : Serde claim_bytes FloatingPoolSpec.t unit :=
  {| to_vec := fun o => Ok (PoolBytes o);
     from_slice := fun b => match b with PoolBytes o => Ok o | _ => Err "expected value" end |}.
#[export] Instance claim_tenant : Serde claim_bytes TenantSpec.t TenantStatus.t :=
  {| to_vec := fun o => Ok (TenantBytes o);
     from_slice := fun b => match b with TenantBytes o => Ok o | _ => Err "expected value" end |}.
#[export] Instance claim_network : Serde claim_bytes ProviderNetworkSpec.t unit :=
  {| to_vec := fun o => Ok (NetworkBytes o);
     from_slice := fun b => match b with NetworkBytes o => Ok o | _ => Err "expected value" end |}.

Definition router_of (nm tenant inside : string) : Router :=
  object_new API_VERSION "Router" nm ("u-" +:+ nm) 0%Z
    (RouterSpec.mk tenant "ext" "" true None inside [] "") RouterStatus.default.
Definition subnet_of (nm tenant cidr : string) : RoutedSubnet :=
  object_new API_VERSION "RoutedSubnet" nm ("u-" +:+ nm) 0%Z
    (RoutedSubnetSpec.mk tenant cidr None "") (RoutedSubnetStatus.mk 0).

(** A subnet of each of two tenants and a router of one of them, on free space or on
    the other's subnet. *)
Definition small_cloud (inside : string) : world (mem claim_bytes) :=
  World (mem_commit mem_empty
    [Put "p/registry/routedsubnets/mine" (SubnetBytes (subnet_of "mine" "acme" "10.7.1.0/24")) NoLease;
     Put "p/registry/routedsubnets/theirs" (SubnetBytes (subnet_of "theirs" "rival" "10.7.2.0/24")) NoLease;
     Put "p/registry/routers/out" (RouterBytes (router_of "out" "acme" inside)) NoLease]) 0.
Definition ask_addresses (inside : string) : world (mem claim_bytes) * result LazyBook.failure Addresses.t :=
  let '(_, w', r) := LazyBook.addresses "p" quiet (LazyBook.new []) (vm_of "v1" "acme") [] (small_cloud inside) in
  (w', r).

(** The tenant's subnets are on the list whatever its router names, and the prefix
    of the router is when it is free. *)
Lemma allowlist_exact_witness :
  option_map Addresses.source_prefixes (result_ok (ask_addresses "10.7.2.1/24").2) = Some ["10.7.1.0/24"] /\
  option_map Addresses.source_prefixes (result_ok (ask_addresses "10.42.0.1/24").2) = Some ["10.42.0.0/24"; "10.7.1.0/24"] /\
  exists a b, (ask_addresses "10.42.0.1/24").2 = Ok a /\ book_read "p" quiet b /\
    forall s, In s (AddressBook.subnets b) -> RoutedSubnetSpec.tenant (spec s) = "acme" ->
      In (RoutedSubnetSpec.cidr (spec s)) (Addresses.source_prefixes a).
Proof.
  split; [by vm_compute|]. split; [by vm_compute|].
  assert (Hok : is_some (result_ok (ask_addresses "10.42.0.1/24").2) = true) by (by vm_compute).
  unfold ask_addresses in *.
  destruct (LazyBook.addresses "p" quiet _ _ _ _) as [[lazy' w'] [a|e]] eqn:E; [|discriminate Hok].
  destruct (allowlist_exact (D := mem claim_bytes) "p" quiet (LazyBook.new []) lazy' (vm_of "v1" "acme") [] "acme"
              (small_cloud "10.42.0.1/24") w' a) as (b & claimed & Hb & _ & _ & H);
    [constructor|split; intros ? Hf; discriminate Hf|reflexivity|exact E|].
  exists a, b. split; [reflexivity|]. split; [exact Hb|]. intros s Hs Ht. apply H. right. left.
  exists s. split; [exact Hs|]. split; [exact Ht|reflexivity].
Defined.

Lemma claimed_space_complete_witness :
  exists c, (ClaimedSpace.read "p" quiet [] (small_cloud "")).2 = Ok c /\ ClaimedSpace.routed_pools c = [].
Proof.
  assert (Hok : is_some (result_ok (ClaimedSpace.read "p" quiet [] (small_cloud "")).2) = true) by (by vm_compute).
  destruct (ClaimedSpace.read "p" quiet [] (small_cloud "")) as [w' [c|e]] eqn:E; [|discriminate Hok].
  exists c. split; [reflexivity|].
  exact (proj1 (claimed_space_complete (D := mem claim_bytes) "p" quiet [] (small_cloud "") w' c E)).
Defined.

Definition rivals_claim : ClaimedSpace.t :=
  ClaimedSpace.mk [] [subnet_of "theirs" "rival" "10.7.2.0/24"] [] [] [].

Lemma refusal_names_kinds_witness :
  exists what, claim_word rivals_claim what.
Proof.
  assert (Hok : is_some (ClaimedSpace.refusal_of rivals_claim "acme" (cidr_range 168231424 23)) = true) by (by vm_compute).
  destruct (ClaimedSpace.refusal_of rivals_claim "acme" (cidr_range 168231424 23)) as [why|] eqn:E; [|done].
  destruct (refusal_names_kinds _ _ _ _ E) as (what & r & Hw & _). by exists what.
Defined.
