(* ===== verification/Gateways.v ===== *)
(** Routers on gateway nodes: the planning and the backend of
    [src/shared/controller-api/src/network.rs], and the pass over a cluster's routers
    in [src/components/cluster-controller/src/reconcile/routers.rs] with its memo
    of what was said, [told.rs].

    Every replica plans from the same fleet and the same store, so the plan must
    not depend on who makes it.  A router is built on up to two nodes and one of
    them answers for its addresses. *)
From Stdlib Require Import Ascii String NArith ZArith List Bool Lia Permutation Sorted.
From stdpp Require Import base list strings gmap relations.
From S2P Require Import Prelude RustStr Json Net Capability Heartbeat Vm Node Sizing Placement Floating Quota AddressSpace.
From S2P Require Import Phase Objects Store StoreSafety.

(** * Planning *)

Definition GATEWAY_CHASSIS : nat := 2.

(** The order of [sort_by_key]: planned load, then name. *)
Definition by_load (load : smap nat) (a b : Candidate.t) : comparison :=
  let of_ (c : Candidate.t) := unwrap_or 0%nat (sget (Candidate.name c) load) in
  then_with (Nat.compare (of_ a) (of_ b)) (String.compare (Candidate.name a) (Candidate.name b)).

Definition claims_physnet (physnet : string) (c : Candidate.t) : bool :=
  str_in physnet (gateway_physnets (Candidate.catalogue c)).

Definition gateway_candidates (physnet class : string) (refused : list string) (load : smap nat)
    (candidates : list Candidate.t) : list Candidate.t :=
  sort_by (by_load load)
    (List.filter (claims_physnet physnet)
      (List.filter (fun c => negb (existsb (fun r => String.eqb r (Candidate.name c)) refused))
        (List.filter (fun c => accepts_class (Candidate.accepts c) class)
          (List.filter is_alive candidates)))).

Definition sole_gateway (physnet : string) (candidates : list Candidate.t) : bool :=
  (length (List.filter (claims_physnet physnet) candidates) <=? 1)%nat.

(** The loop that fills the free slots. *)
Fixpoint fill_nodes (planned : list string) (candidates : list Candidate.t) : list string :=
  match candidates with
  | [] => planned
  | c :: rest =>
      if (GATEWAY_CHASSIS <=? length planned)%nat then planned
      else fill_nodes (if existsb (fun n => String.eqb n (Candidate.name c)) planned then planned
                       else planned ++ [Candidate.name c]) rest
  end.

Definition plan_nodes (current : list string) (candidates : list Candidate.t) : list string :=
  let eligible := map Candidate.name candidates in
  firstn GATEWAY_CHASSIS (fill_nodes (List.filter (fun n => str_in n eligible) current) candidates).

Definition active_node (planned : list string) (candidates : list Candidate.t) : option string :=
  List.find (fun n => existsb (fun c => String.eqb (Candidate.name c) n && Candidate.alive c) candidates) planned.

Definition router_load (routers : list Router) : smap nat :=
  foldl (fun load (router : Router) =>
    foldl (fun load node => sinsert node (S (unwrap_or 0%nat (sget node load))) load) load
      (RouterStatus.nodes (status router))) [] routers.

(** * External addresses *)

(** [str::rsplit_once] on one character. *)
Definition rsplit_once (c : ascii) (s : string) : option (string * string) :=
  '(tail, head) ← split_once c (str_rev s); Some (str_rev head, str_rev tail).

Definition bare_addr (stored : string) : string :=
  match split_once "/" stored with Some (host, _) => host | None => stored end.

Definition cut_external_addr (network : ProviderNetwork) (routers : list Router) : option string :=
  ranges ← result_ok (Ipv4Ranges.parse (ProviderNetworkSpec.allocation (spec network)));
  let taken := filter_map (fun r : Router => Ipv4Addr.parse (bare_addr (RouterStatus.external_addr (status r)))) routers in
  address ← Ipv4Ranges.first_free ranges taken;
  let prefix := unwrap_or 32%N ('(_, len) ← rsplit_once "/" (ProviderNetworkSpec.cidr (spec network));
                                parse_unsigned 255 len) in
  Some (Ipv4Addr.to_string address +:+ "/" +:+ show_N prefix).

Module AddressClaim.
Inductive t := Keep | Take (address : string) | Yield.
End AddressClaim.

Definition other_holders (nm address : string) (routers : list Router) : list string :=
  let wanted := bare_addr address in
  if str_is_empty wanted then []
  else sort_by String.compare
         (map (fun r => name (metadata r))
            (List.filter (fun r : Router => String.eqb (bare_addr (RouterStatus.external_addr (status r))) wanted)
               (List.filter (fun r : Router => negb (String.eqb (name (metadata r)) nm)) routers))).

(** [<] on [str]. *)
Definition str_lt (a b : string) : bool := match String.compare a b with Lt => true | _ => false end.

Definition claim_external_addr (router : Router) (network : ProviderNetwork) (routers : list Router) : AddressClaim.t :=
  let nm := name (metadata router) in
  let held := RouterStatus.external_addr (status router) in
  if str_is_empty (bare_addr held) then
    match cut_external_addr network routers with
    | Some address => AddressClaim.Take address
    | None => AddressClaim.Keep
    end
  else if existsb (fun other => str_lt other nm) (other_holders nm held routers)
  then AddressClaim.Yield else AddressClaim.Keep.

Definition with_external_addr (a : string) (r : Router) : Router :=
  with_status r (RouterStatus.set_external_addr (status r) a).

Section settle_address.
Context {D Bytes : Type} `{!Etcd D Bytes, !RawJson Bytes}.
Context `{!Serde Bytes RouterSpec.t RouterStatus.t}.
Variable prefix : string.
Variable sur : surroundings D.

(** The [for] loop; [rounds] counts down. *)
Fixpoint settle_rounds (rounds : nat) (nm uid : string) (network : ProviderNetwork) (router : Router)
  : store_m D Router :=
  match rounds with
  | O => mret router
  | Datatypes.S rounds =>
      routers ← list_ (Sp := RouterSpec.t) (St := RouterStatus.t) prefix sur;
      match claim_external_addr router network routers with
      | AddressClaim.Keep => mret router
      | AddressClaim.Take address =>
          router ← mutate_if prefix sur nm uid (with_external_addr address);
          settle_rounds rounds nm uid network router
      | AddressClaim.Yield => mutate_if prefix sur nm uid (with_external_addr "")
      end
  end.

Definition settle_external_addr (router : Router) (network : ProviderNetwork) : store_m D Router :=
  settle_rounds 2 (name (metadata router)) (Objects.uid (metadata router)) network router.
End settle_address.

(** * Translations *)

Definition inside_address_refusal (router : Router) (internal : string) : option string :=
  let nm := name (metadata router) in
  match Ipv4Addr.parse internal with
  | None => Some (debug internal +:+ " is not an ipv4 address")
  | Some address =>
      let inside := RouterSpec.internal_addr (spec router) in
      match inside_address router with
      | Ok (Some (own, prefix)) =>
          if (address =? own)%N then Some (internal +:+ " is router " +:+ nm +:+ "'s own inside address")
          else if negb (is_allocatable prefix address)
          then Some (internal +:+ " is not a guest address on router " +:+ nm +:+ "'s inside prefix " +:+ inside)
          else None
      | _ => Some ("router " +:+ nm +:+ " has no inside prefix (" +:+ debug inside +:+ ") to place " +:+
                   internal +:+ " in")
      end
  end.

Definition translates_through (router : Router) (ip : FloatingIp) : bool :=
  String.eqb (FloatingIpSpec.router (spec ip)) (name (metadata router))
  && String.eqb (FloatingIpSpec.tenant (spec ip)) (RouterSpec.tenant (spec router))
  && negb (str_is_empty (FloatingIpSpec.address (spec ip)))
  && negb (str_is_empty (FloatingIpSpec.internal_address (spec ip)))
  && negb (is_some (inside_address_refusal router (FloatingIpSpec.internal_address (spec ip)))).

Definition nat_rules (router : Router) (floating : list FloatingIp) (announced : list string) : list NatRule.t :=
  let external := bare_addr (RouterStatus.external_addr (status router)) in
  let snat := if RouterSpec.snat (spec router) && negb (str_is_empty external)
              then [NatRule.mk NatKind.Snat external ""] else [] in
  let ours := sort_by (fun a b : FloatingIp => String.compare (FloatingIpSpec.address (spec a)) (FloatingIpSpec.address (spec b)))
                (List.filter (translates_through router) floating) in
  let prefixes := dedup String.eqb (sort_by String.compare (List.filter (fun p => negb (str_is_empty p)) announced)) in
  snat
  ++ map (fun f : FloatingIp => NatRule.mk NatKind.DnatAndSnat (FloatingIpSpec.address (spec f))
                     (FloatingIpSpec.internal_address (spec f))) ours
  ++ map (fun p => NatRule.mk NatKind.Routed "" p) prefixes.

(** * The backend *)

Module RouterPlan.
Record t := mk {
  id : string;
  name : string;
  physnet : string;
  external_addr : string;
  external_gateway : string;
  vni : N;
  internal_addr : string;
  nats : list NatRule.t;
  nodes : list string;
  active : option string;
  release : list string;
  sole_gateway : bool }.
End RouterPlan.

#[export] Instance RouterPlan_eq_dec : EqDecision RouterPlan.t.
Proof. solve_decision. Defined.

Module RouterOutcome.
Record t := mk {
  built : list string;
  active_node : string;
  released : list string;
  refused : list string;
  phase : RouterPhaseKind.t;
  reason : RouterReason.t;
  message : option string }.

Definition default : t := mk [] "" [] [] RouterPhaseKind.Pending RouterReason.Unrecorded None.
End RouterOutcome.

(** [proto::EnsureRouter] and [proto::NatRule], the fields the sources set. *)
Module EnsureRouter.
Record t := mk {
  id : string;
  physnet : string;
  external_addr : string;
  external_gateway : string;
  vni : N;
  internal_addr : string;
  nats : list (string * string * string);
  active : bool;
  sole_gateway : bool }.
End EnsureRouter.

Definition ensure_for (plan : RouterPlan.t) (active : bool) : EnsureRouter.t :=
  EnsureRouter.mk (RouterPlan.id plan) (RouterPlan.physnet plan) (RouterPlan.external_addr plan)
    (RouterPlan.external_gateway plan) (RouterPlan.vni plan) (RouterPlan.internal_addr plan)
    (map (fun r => (NatKind.as_str (NatRule.kind r), NatRule.external_ip r, NatRule.logical_ip r)) (RouterPlan.nats plan))
    active (RouterPlan.sole_gateway plan).

(** A failed command: its error chain as printed, and whether the outermost refusal
    in it says [CANNOT_SERVE]. *)
Module SinkError.
Record t := mk { text : string; cannot_serve : bool }.
End SinkError.

(** [RouterSink]: commands to a fleet of which [K] is the state. *)
Record RouterSink (K : Type) := {
  sink_ensure : string -> EnsureRouter.t -> K -> K * result SinkError.t unit;
  sink_destroy : string -> string -> K -> K * result SinkError.t unit }.
Arguments sink_ensure {K} _ _ _ _.
Arguments sink_destroy {K} _ _ _ _.

Definition verdict (plan : RouterPlan.t) (out : RouterOutcome.t) (unreachable : list string)
  : RouterPhaseKind.t * RouterReason.t :=
  match RouterPlan.nodes plan, RouterOutcome.built out with
  | [], _ => (RouterPhaseKind.Pending, RouterReason.Unplaced)
  | _, [] =>
      match unreachable with
      | [] => (RouterPhaseKind.Failed, RouterReason.Refused)
      | _ => (RouterPhaseKind.Unknown, RouterReason.Silent)
      end
  | _, _ =>
      if str_is_empty (RouterOutcome.active_node out) then (RouterPhaseKind.Standby, RouterReason.Unrecorded)
      else (RouterPhaseKind.Active, RouterReason.Unrecorded)
  end.

Section realise.
Context {K : Type} (sink : RouterSink K).

Fixpoint release_all (id : string) (nodes : list string) (out : RouterOutcome.t) (k : K) : K * RouterOutcome.t :=
  match nodes with
  | [] => (k, out)
  | node :: rest =>
      let (k, r) := sink_destroy sink node id k in
      let out := match r with
                 | Ok _ => RouterOutcome.mk (RouterOutcome.built out) (RouterOutcome.active_node out)
                             (RouterOutcome.released out ++ [node]) (RouterOutcome.refused out)
                             (RouterOutcome.phase out) (RouterOutcome.reason out) (RouterOutcome.message out)
                 | Err _ => out
                 end in
      release_all id rest out k
  end.

(** Standbys first, the active one last. *)
Definition ordered (plan : RouterPlan.t) : list string :=
  let active n := bool_decide (Some n = RouterPlan.active plan) in
  List.filter (fun n => negb (active n)) (RouterPlan.nodes plan) ++ List.filter active (RouterPlan.nodes plan).

(** The answer of one node, noted. *)
Definition note_answer (plan : RouterPlan.t) (node : string) (r : result SinkError.t unit)
    (acc : RouterOutcome.t * list string) : RouterOutcome.t * list string :=
  let (out, unreachable) := acc in
  match r with
  | Ok _ =>
      (RouterOutcome.mk (RouterOutcome.built out ++ [node])
         (if bool_decide (Some node = RouterPlan.active plan) then node else RouterOutcome.active_node out)
         (RouterOutcome.released out) (RouterOutcome.refused out) (RouterOutcome.phase out)
         (RouterOutcome.reason out) (RouterOutcome.message out), unreachable)
  | Err e =>
      let message := Some (node +:+ ": " +:+ SinkError.text e) in
      if SinkError.cannot_serve e
      then (RouterOutcome.mk (RouterOutcome.built out) (RouterOutcome.active_node out) (RouterOutcome.released out)
              (RouterOutcome.refused out ++ [node]) (RouterOutcome.phase out) (RouterOutcome.reason out) message,
            unreachable)
      else (RouterOutcome.mk (RouterOutcome.built out) (RouterOutcome.active_node out) (RouterOutcome.released out)
              (RouterOutcome.refused out) (RouterOutcome.phase out) (RouterOutcome.reason out) message,
            unreachable ++ [node])
  end.

Fixpoint ensure_all (plan : RouterPlan.t) (nodes : list string) (acc : RouterOutcome.t * list string) (k : K)
  : K * (RouterOutcome.t * list string) :=
  match nodes with
  | [] => (k, acc)
  | node :: rest =>
      let (k, r) := sink_ensure sink node (ensure_for plan (bool_decide (Some node = RouterPlan.active plan))) k in
      ensure_all plan rest (note_answer plan node r acc) k
  end.

(** [MeisterNetwork::realise]. *)
Definition realise (plan : RouterPlan.t) (k : K) : K * RouterOutcome.t :=
  let (k, out) := release_all (RouterPlan.id plan) (RouterPlan.release plan) RouterOutcome.default k in
  let '(k, (out, unreachable)) := ensure_all plan (ordered plan) (out, []) k in
  let (phase, reason) := verdict plan out unreachable in
  (k, RouterOutcome.mk (RouterOutcome.built out) (RouterOutcome.active_node out) (RouterOutcome.released out)
        (RouterOutcome.refused out) phase reason (RouterOutcome.message out)).
End realise.

(** ** The wire *)

(** What [Dispatch] sends for an [EnsureRouter]; a rule whose kind does not parse is
    dropped. *)
Definition dispatched_nats (r : EnsureRouter.t) : list NatRule.t :=
  filter_map (fun '(kind, external, logical) =>
    option_map (fun kind => NatRule.mk kind external logical) (NatKind.parse kind)) (EnsureRouter.nats r).

(** * The pass of a cluster *)

Definition may_reconcile_router (router : Router) (sessions : list string) : bool :=
  match RouterStatus.nodes (status router) with
  | [] => true
  | nodes => existsb (fun n => str_in n sessions) nodes
  end.

Definition owed (router : Router) : list string :=
  RouterStatus.nodes (status router) ++ RouterStatus.releasing (status router).

Definition gateway_sentence (physnet : string) (router : Router) (candidates : list Candidate.t) : string :=
  let claiming := List.filter (claims_physnet physnet) candidates in
  let taking := List.filter (fun c => accepts_class (Candidate.accepts c) (RouterSpec.class (spec router))) claiming in
  match claiming, RouterStatus.refused (status router), taking with
  | [], _, _ =>
      "no node of this cluster gives an interface away for physnet " +:+ physnet +:+
      "; a gateway node says so with `[network.provider] physnets = { " +:+ physnet +:+ " = " +:+
      String dquote ("…" +:+ String dquote " }`")
  | _, (_ :: _) as refused, _ =>
      "every node claiming physnet " +:+ physnet +:+ " has refused this router: " +:+ join ", " refused
  | _, [], [] =>
      "no node claiming physnet " +:+ physnet +:+ " accepts the class " +:+ debug (RouterSpec.class (spec router)) +:+ ": " +:+
      join ", " (map (fun c => Candidate.name c +:+ " (" +:+ join ", " (Candidate.accepts c) +:+ ")") claiming)
  | _, [], _ =>
      "every node claiming physnet " +:+ physnet +:+ " is down, drained or unhealthy: " +:+
      join ", " (map Candidate.name taking)
  end.

Definition plan_router (router : Router) (networks : list ProviderNetwork) (load : smap nat)
    (candidates : list Candidate.t) : result (RouterPhaseKind.t * string) RouterPlan.t :=
  let s := spec router in
  let st := status router in
  match List.find (fun n : ProviderNetwork => String.eqb (name (metadata n)) (RouterSpec.provider_network s)) networks with
  | None => Err (RouterPhaseKind.Pending, "no provider network called " +:+ RouterSpec.provider_network s +:+ " at this cluster")
  | Some network =>
  match RouterSpec.vni s with
  | None => Err (RouterPhaseKind.Pending,
      "spec.vni is unset, so this router has no overlay to put its inside leg on; the cloud fills it in from the tenant, and a standalone cluster names it")
  | Some vni =>
  if str_is_empty (RouterSpec.internal_addr s) then Err (RouterPhaseKind.Pending,
      "spec.internalAddr is unset, so the guests have no gateway address to point at; this stack allocates no tenant addresses, so somebody has to say which one it is")
  else if str_is_empty (RouterStatus.external_addr st) then Err (RouterPhaseKind.Pending,
      "no free address left in the allocation of provider network " +:+ name (metadata network) +:+ " (" +:+
      join ", " (ProviderNetworkSpec.allocation (spec network)) +:+ ")")
  else
    let physnet := ProviderNetworkSpec.physnet (spec network) in
    let fit := gateway_candidates physnet (RouterSpec.class s) (RouterStatus.refused st) load candidates in
    match plan_nodes (RouterStatus.nodes st) fit with
    | [] => Err (RouterPhaseKind.Pending, gateway_sentence physnet router candidates)
    | nodes =>
        let release :=
          List.filter (fun n => existsb (fun c => String.eqb (Candidate.name c) n && Candidate.alive c) candidates)
            (List.filter (fun n => negb (str_in n nodes)) (owed router)) in
        Ok (RouterPlan.mk (Objects.uid (metadata router)) (name (metadata router)) physnet
              (RouterStatus.external_addr st) (ProviderNetworkSpec.gateway (spec network)) vni
              (RouterSpec.internal_addr s) (RouterStatus.nats st) nodes (active_node nodes fit) release
              (sole_gateway physnet candidates))
    end
  end end.

(** A [BTreeSet] of strings, in order. *)
Definition still_owed (router : Router) (planned released : list string) : list string :=
  dedup String.eqb (sort_by String.compare
    (List.filter (fun n => negb (str_in n released)) (List.filter (fun n => negb (str_in n planned)) (owed router)))).

(** [Placement] of [routers.rs]: where a router stands on the machines. *)
Module Stand.
Record t := mk { nodes : list string; active : string; refused : list string; releasing : list string }.
End Stand.

(** ** What was said lately *)

(** Nanoseconds. *)
Definition RETELL_AFTER : Z := 30000000000.

Module Memo.
Section memo.
Context {T : Type} `{EqDecision T}.

Definition t : Type := smap (T * instant).

(** [Instant::elapsed] does not go below zero. *)
Definition recent (now at_ : instant) : bool := (Z.max 0 (now - at_) <? RETELL_AFTER)%Z.

Definition said_lately (m : t) (uid : string) (what : T) (now : instant) : bool :=
  match sget uid m with
  | Some (said, at_) => bool_decide (said = what) && recent now at_
  | None => false
  end.

Definition note (m : t) (uid : string) (what : T) (now : instant) : t :=
  sinsert uid (what, now) (List.filter (fun e => recent now e.2.2) m).

Definition forget (m : t) (uid : string) : t := sremove uid m.
End memo.
Arguments t : clear implicits.
End Memo.

(** ** One router *)

(** A pass: the store, the fleet, and what was said. *)
Record pass_state (D K : Type) := PassState {
  ps_store : world D;
  ps_fleet : K;
  ps_told : Memo.t RouterPlan.t }.
Arguments PassState {D K} _ _ _.
Arguments ps_store {D K} _.
Arguments ps_fleet {D K} _.
Arguments ps_told {D K} _.

Definition router_m (D K A : Type) : Type := pass_state D K -> pass_state D K * result StoreError.t A.

#[export] Instance router_ret {D K} : MRet (router_m D K) := fun _ a p => (p, Ok a).
#[export] Instance router_bind {D K} : MBind (router_m D K) := fun _ _ k m p =>
  match m p with (p', Ok a) => k a p' | (p', Err e) => (p', Err e) end.

Definition on_store {D K A} (m : store_m D A) : router_m D K A := fun p =>
  let (w, r) := m (ps_store p) in (PassState w (ps_fleet p) (ps_told p), r).

Section pass.
Context {D Bytes K : Type} `{!Etcd D Bytes, !RawJson Bytes}.
Context `{!Serde Bytes RouterSpec.t RouterStatus.t, !Serde Bytes FloatingIpSpec.t FloatingIpStatus.t,
  !Serde Bytes ProviderNetworkSpec.t unit, !Serde Bytes EventSpec.t unit}.
Variable prefix : string.
Variable sur : surroundings D.
Variable new_lease : Z -> nat -> Z.
Variable new_uid : nat -> string.
Variable sink : RouterSink K.

Definition ensure_external_addr (router : Router) (networks : list ProviderNetwork) : store_m D Router :=
  match List.find (fun n : ProviderNetwork => String.eqb (name (metadata n)) (RouterSpec.provider_network (spec router)))
          networks with
  | None => mret router
  | Some network => settle_external_addr prefix sur router network
  end.

Definition ensure_nats (router : Router) : store_m D Router :=
  if managed_by_cloud (metadata router) then mret router
  else
    floating ← list_ (Sp := FloatingIpSpec.t) (St := FloatingIpStatus.t) prefix sur;
    let announced := RouterSpec.routed_subnets (spec router) in
    let nats := nat_rules router floating announced in
    if bool_decide (RouterStatus.nats (status router) = nats)
       && bool_decide (RouterStatus.announced (status router) = announced)
    then mret router
    else mutate_if prefix sur (name (metadata router)) (Objects.uid (metadata router))
           (fun r => with_status r (RouterStatus.set_nats (status r) nats announced)).

(** The write of [note]. *)
Definition noted (said : RouterReported) (generation : N) (stand : option Stand.t) (r : Router) : Router :=
  let st := status r in
  let '(nodes, active, refused, releasing) :=
    match stand with
    | Some p => (Stand.nodes p, Stand.active p, Stand.refused p, Stand.releasing p)
    | None => (RouterStatus.nodes st, RouterStatus.active_node st, RouterStatus.refused st, RouterStatus.releasing st)
    end in
  with_status r (RouterStatus.mk (RouterStatus.phase st) (Some said) (RouterStatus.external_addr st)
    (RouterStatus.cluster st) nodes active (RouterStatus.nats st) refused releasing (RouterStatus.announced st) generation).

(** The node a resting word names. *)
Definition speaker (stand : option Stand.t) : string :=
  match stand with
  | Some p => if str_is_empty (Stand.active p) then unwrap_or "" (head (Stand.nodes p)) else Stand.active p
  | None => ""
  end.

Definition note (router : Router) (phase : RouterPhaseKind.t) (reason : RouterReason.t) (message : option string)
    (stand : option Stand.t) : store_m D unit := fun w =>
  let st := status router in
  let generation := generation (metadata router) in
  let said := said_by (speaker stand) phase reason message (clock sur (ticks w)) in
  let unchanged :=
    match RouterStatus.reported st with Some held => same_word held said | None => false end
    && match stand with
       | Some p => bool_decide (RouterStatus.nodes st = Stand.nodes p)
                   && String.eqb (RouterStatus.active_node st) (Stand.active p)
                   && bool_decide (RouterStatus.refused st = Stand.refused p)
                   && bool_decide (RouterStatus.releasing st = Stand.releasing p)
       | None => true
       end
    && N.eqb (RouterStatus.observed_generation st) generation in
  if unchanged then (w, Ok tt)
  else
    let nm := name (metadata router) in
    let uid := Objects.uid (metadata router) in
    let tell reason message event_type w :=
      record prefix sur new_lease new_uid "Router" nm uid reason message event_type
        (Some (RouterSpec.tenant (spec router))) w in
    match mutate_if prefix sur nm uid (noted said generation stand) w with
    | (w, Err e) => (w, Err e)
    | (w, Ok _) =>
        let was := ph_kind (RouterStatus.phase st) in
        let w := if negb (bool_decide (was = phase))
                 then tell "PhaseChanged" (unwrap_or (RouterPhaseKind.as_str phase) message)
                        (if bool_decide (phase = RouterPhaseKind.Failed) then EventType.Warning else EventType.Normal) w
                 else w in
        match stand with
        | Some p =>
            let was_active := RouterStatus.active_node st in
            (if negb (String.eqb (Stand.active p) was_active) && negb (str_is_empty (Stand.active p))
                && negb (str_is_empty was_active)
             then tell "ActiveChanged" ("now forwarding on " +:+ Stand.active p +:+ ", was " +:+ was_active)
                    EventType.Warning w
             else w, Ok tt)
        | None => (w, Ok tt)
        end
    end.

(** Where [settle] says the router stands. *)
Definition stand_after (router : Router) (plan : RouterPlan.t) (outcome : RouterOutcome.t) : Stand.t :=
  let refused := sort_by String.compare
    (foldl (fun refused node => if str_in node refused then refused else refused ++ [node])
       (RouterStatus.refused (status router)) (RouterOutcome.refused outcome)) in
  Stand.mk (List.filter (fun n => negb (str_in n refused)) (RouterPlan.nodes plan)) (RouterOutcome.active_node outcome)
    refused (still_owed router (RouterPlan.nodes plan) (RouterOutcome.released outcome)).

Definition settle_outcome (router : Router) (plan : RouterPlan.t) (outcome : RouterOutcome.t) : store_m D unit :=
  note router (RouterOutcome.phase outcome) (RouterOutcome.reason outcome) (RouterOutcome.message outcome)
    (Some (stand_after router plan outcome)).

(** Carry the plan down and remember it while the router rests. *)
Definition carry (plan : RouterPlan.t) : router_m D K RouterOutcome.t := fun p =>
  let (k, outcome) := realise sink plan (ps_fleet p) in
  let now := clock sur (ticks (ps_store p)) in
  let told := if RouterPhaseKind.is_terminal (RouterOutcome.phase outcome)
              then Memo.note (ps_told p) (RouterPlan.id plan) plan now
              else Memo.forget (ps_told p) (RouterPlan.id plan) in
  (PassState (ps_store p) k told, Ok outcome).

Definition lately (plan : RouterPlan.t) : router_m D K bool := fun p =>
  (p, Ok (Memo.said_lately (ps_told p) (RouterPlan.id plan) plan (clock sur (ticks (ps_store p))))).

Definition reconcile_router (candidates : list Candidate.t) (networks : list ProviderNetwork) (load : smap nat)
    (router : Router) : router_m D K unit :=
  router ← on_store (ensure_external_addr router networks);
  router ← on_store (ensure_nats router);
  match plan_router router networks load candidates with
  | Err (phase, message) => on_store (note router phase RouterReason.Unplaced (Some message) None)
  | Ok plan =>
      said ← lately plan;
      if RouterPhaseKind.is_terminal (ph_kind (RouterStatus.phase (status router))) && said then mret tt
      else
        outcome ← carry plan;
        on_store (settle_outcome router plan outcome)
  end.

(** The loop of the pass: a router that fails is logged, and the next one follows.
    The fleet's candidates are read anew for each router. *)
Fixpoint reconcile_each (candidates : nat -> list Candidate.t) (sessions : list string) (networks : list ProviderNetwork)
    (load : smap nat) (routers : list Router) (p : pass_state D K) : pass_state D K :=
  match routers with
  | [] => p
  | router :: rest =>
      let p := if may_reconcile_router router sessions
               then (reconcile_router (candidates (ticks (ps_store p))) networks load router p).1 else p in
      reconcile_each candidates sessions networks load rest p
  end.

Definition reconcile_all (candidates : nat -> list Candidate.t) (sessions : list string)
    (networks : list ProviderNetwork) (routers : list Router) : router_m D K unit := fun p =>
  (reconcile_each candidates sessions networks (router_load routers) routers p, Ok tt).

Definition reconcile_routers (candidates : nat -> list Candidate.t) (sessions : list string) : router_m D K unit :=
  routers ← on_store (list_ (Sp := RouterSpec.t) (St := RouterStatus.t) prefix sur);
  match routers with
  | [] => mret tt
  | _ =>
      networks ← on_store (list_ (Sp := ProviderNetworkSpec.t) (St := unit) prefix sur);
      reconcile_all candidates sessions networks routers
  end.
End pass.

(** * Lemmas *)

(** ** The order of the gateways *)

#[local] Instance by_load_total load : CmpTotal (by_load load).
Proof.
  split.
  - intros a b. unfold by_load, then_with. rewrite Nat.compare_antisym.
    destruct (Nat.compare _ _); simpl; [|done..]. apply cmp_antisym.
  - intros a b c. unfold by_load, then_with.
    set (na := unwrap_or _ _). set (nb := unwrap_or _ _). set (nc := unwrap_or _ _).
    destruct (Nat.compare_spec na nb), (Nat.compare_spec nb nc), (Nat.compare_spec na nc); try done; try lia.
    apply cmp_le_trans.
Qed.

(** Candidates of different names are in one order only. *)
Lemma sort_by_load_perm load cs cs' :
  NoDup (map Candidate.name cs) -> Permutation cs cs' -> sort_by (by_load load) cs = sort_by (by_load load) cs'.
Proof.
  intros Hn Hp. apply (sorted_perm_eq_on (by_load load)); [|apply (sort_by_sorted (by_load load))..|by rewrite !sort_by_perm].
  intros a b Ha%in_sort_by Hb%in_sort_by. unfold by_load, then_with.
  destruct (Nat.compare _ _); [|done..]. intros He%cmp_eq_leibniz.
  clear Hp. induction cs as [|c cs IH]; [done|]. simpl in Hn. apply NoDup_cons in Hn as [Hc Hn].
  rewrite list_elem_of_In in Hc. destruct Ha as [->|Ha], Hb as [->|Hb]; [done|..|by auto].
  - destruct Hc. rewrite He. by apply in_map.
  - destruct Hc. rewrite <- He. by apply in_map.
Qed.

Lemma filter_perm {A} (f : A -> bool) l l' : Permutation l l' -> Permutation (List.filter f l) (List.filter f l').
Proof.
  induction 1 as [|x l l' _ IH|x y l|l1 l2 l3 _ IH1 _ IH2]; simpl; [done| | |by etrans].
  - destruct (f x); [by constructor|done].
  - destruct (f x), (f y); try done. constructor.
Qed.

Lemma nodup_names_filter (f : Candidate.t -> bool) cs :
  NoDup (map Candidate.name cs) -> NoDup (map Candidate.name (List.filter f cs)).
Proof.
  induction cs as [|c cs IH]; simpl; [done|]. intros [Hc Hn]%NoDup_cons. destruct (f c); simpl; [|auto].
  constructor; [|auto]. rewrite list_elem_of_In in *. intros (d & He & [Hd _]%filter_In)%in_map_iff.
  apply Hc. rewrite <- He. by apply in_map.
Qed.

Lemma gateway_candidates_perm physnet class refused load cs cs' :
  NoDup (map Candidate.name cs) -> Permutation cs cs' ->
  gateway_candidates physnet class refused load cs = gateway_candidates physnet class refused load cs'.
Proof.
  intros Hn Hp. apply sort_by_load_perm; [by repeat apply nodup_names_filter|by repeat apply filter_perm].
Qed.

Lemma existsb_perm {A} (f : A -> bool) l l' : Permutation l l' -> existsb f l = existsb f l'.
Proof.
  intros Hp. apply Bool.eq_iff_eq_true. rewrite !existsb_exists.
  split; intros (x & Hin & Hx); exists x; (split; [|done]); by eapply Permutation_in; [|exact Hin].
Qed.

(** ** Filling the slots *)

(** The plan keeps what is planned and adds candidates, at most two in all. *)
Lemma fill_nodes_spec planned cs :
  NoDup planned -> exists extra, fill_nodes planned cs = planned ++ extra /\ NoDup (planned ++ extra) /\
    (forall n, In n extra -> In n (map Candidate.name cs)) /\
    (length (planned ++ extra) <= Nat.max 2 (length planned))%nat /\
    ((length (planned ++ extra) < 2)%nat -> forall n, In n (map Candidate.name cs) -> In n (planned ++ extra)).
Proof.
  revert planned. induction cs as [|c cs IH]; intros planned Hn.
  { exists []. rewrite app_nil_r. simpl. split_and!; try done; lia. }
  cbn [fill_nodes]. destruct (Nat.leb_spec GATEWAY_CHASSIS (length planned)) as [Hl|Hl]; unfold GATEWAY_CHASSIS in Hl.
  { exists []. rewrite app_nil_r. split_and!; try done; lia. }
  destruct (existsb _ planned) eqn:E.
  - destruct (IH planned Hn) as (extra & -> & H1 & H2 & H3 & H4). exists extra. split_and!; try done.
    + intros n Hin. right. auto.
    + intros Hlt n [<-|Hin]; [|auto]. apply existsb_exists in E as (m & Hm & ->%String.eqb_eq). apply in_or_app. auto.
  - assert (Hc : ~ In (Candidate.name c) planned).
    { intros Hin. assert (Ht : existsb (fun n => String.eqb n (Candidate.name c)) planned = true).
      { apply existsb_exists. exists (Candidate.name c). by rewrite String.eqb_refl. } congruence. }
    destruct (IH (planned ++ [Candidate.name c])) as (extra & -> & H1 & H2 & H3 & H4).
    { apply NoDup_app. split_and!; [done| |by apply NoDup_singleton].
      intros x Hx ->%list_elem_of_singleton. by apply list_elem_of_In in Hx. }
    rewrite <- app_assoc in *. simpl in *. exists (Candidate.name c :: extra). split_and!; try done.
    + intros n [<-|Hin]; [by left|right; auto].
    + rewrite !length_app in *. simpl in *. lia.
    + intros Hlt n [<-|Hin]; [apply in_or_app; right; by left|auto].
Qed.

Lemma NoDup_filter_list {A} (f : A -> bool) (l : list A) : NoDup l -> NoDup (List.filter f l).
Proof.
  induction 1 as [|x l Hx _ IH]; simpl; [constructor|]. destruct (f x); [|done]. constructor; [|done].
  rewrite list_elem_of_In in *. by intros [? _]%filter_In.
Qed.

Lemma NoDup_same_length {A} (l l' : list A) :
  NoDup l -> NoDup l' -> (forall x, In x l <-> In x l') -> length l = length l'.
Proof.
  intros H H' He. apply Permutation_length, NoDup_Permutation; [done..|]. intros x. by rewrite !list_elem_of_In.
Qed.

Lemma NoDup_incl_le {A} (l l' : list A) : NoDup l -> (forall x, In x l -> In x l') -> (length l <= length l')%nat.
Proof.
  intros H Hi. apply NoDup_incl_length; [|done]. induction H as [|x l Hx _ IH]; constructor.
  - by rewrite list_elem_of_In in Hx.
  - apply IH. intros y Hy. apply Hi. by right.
Qed.

(** The gateways of a plan. *)
Lemma plan_nodes_spec current fit :
  NoDup current -> NoDup (map Candidate.name fit) ->
  let plan := plan_nodes current fit in
  NoDup plan /\ length plan = Nat.min 2 (length fit) /\ (forall n, In n plan -> In n (map Candidate.name fit)) /\
  exists rest, plan = firstn 2 (List.filter (fun n => str_in n (map Candidate.name fit)) current) ++ rest.
Proof.
  intros Hc Hf plan. unfold plan, plan_nodes.
  set (kept := List.filter _ current). assert (Hk : NoDup kept) by (by apply NoDup_filter_list).
  assert (Hke : forall n, In n kept -> In n (map Candidate.name fit)).
  { intros n [_ Hn]%filter_In. by apply str_in_spec. }
  destruct (fill_nodes_spec kept fit Hk) as (extra & -> & Hn & Hin & Hlen & Hall).
  assert (Hsub : forall n, In n (kept ++ extra) -> In n (map Candidate.name fit)).
  { intros n [H|H]%in_app_or; auto. }
  unfold GATEWAY_CHASSIS. split_and!.
  - eapply sublist_NoDup; [exact Hn|apply sublist_take].
  - rewrite length_firstn. pose proof (NoDup_incl_le _ _ Hn Hsub) as Hle. rewrite length_map in Hle.
    destruct (Nat.ltb_spec (length (kept ++ extra)) 2) as [Hlt|Hge]; [|lia].
    assert (He : length (kept ++ extra) = length (map Candidate.name fit)).
    { apply NoDup_same_length; [done..|]. split; auto. }
    rewrite length_map in He. lia.
  - intros n Hn'. apply Hsub. rewrite <- (firstn_skipn 2 (kept ++ extra)). apply in_or_app. by left.
  - rewrite firstn_app. by eexists.
Qed.

(** The gateways planned for a router are two different nodes, or as many as there
    are, each alive, taking the router's class, claiming its wire and not having
    refused it; the nodes that carry the router and still qualify come first, in
    their order, so that a working gateway is not moved. *)
Theorem gateway_plan_sound physnet class refused load candidates current :
  NoDup current -> NoDup (map Candidate.name candidates) ->
  let fit := gateway_candidates physnet class refused load candidates in
  let plan := plan_nodes current fit in
  NoDup plan /\ length plan = Nat.min 2 (length fit) /\
  (forall n, In n plan -> exists c, In c candidates /\ Candidate.name c = n /\ is_alive c = true /\
     accepts_class (Candidate.accepts c) class = true /\ ~ In n refused /\
     In physnet (gateway_physnets (Candidate.catalogue c))) /\
  exists rest, plan = firstn 2 (List.filter (fun n => str_in n (map Candidate.name fit)) current) ++ rest.
Proof.
  intros Hc Hn fit plan.
  assert (Hp : Permutation fit (List.filter (claims_physnet physnet)
      (List.filter (fun c => negb (existsb (fun r => String.eqb r (Candidate.name c)) refused))
        (List.filter (fun c => accepts_class (Candidate.accepts c) class)
          (List.filter is_alive candidates))))) by apply sort_by_perm.
  assert (Hf : NoDup (map Candidate.name fit)).
  { rewrite Hp. by repeat apply nodup_names_filter. }
  destruct (plan_nodes_spec current fit Hc Hf) as (H1 & H2 & H3 & H4). split_and!; try done.
  intros n (c & <- & Hin)%H3%in_map_iff. apply (Permutation_in _ Hp) in Hin.
  rewrite !filter_In in Hin. destruct Hin as [[[[Hin Ha] Hcl] Hr] Hw]. exists c. split_and!; try done.
  - intros Hrf. bool_hyps. assert (Ht : existsb (fun r => String.eqb r (Candidate.name c)) refused = true); [|congruence].
    apply existsb_exists. exists (Candidate.name c). by rewrite String.eqb_refl.
  - by apply str_in_spec.
Qed.

(** Replicas plan alike: a plan does not depend on the order in which a replica's
    inventory lists the nodes. *)
Theorem replicas_plan_alike router networks load candidates candidates' plan :
  NoDup (map Candidate.name candidates) -> Permutation candidates candidates' ->
  plan_router router networks load candidates = Ok plan ->
  plan_router router networks load candidates' = Ok plan.
Proof.
  intros Hn Hp. unfold plan_router. case_match; [|done]. case_match; [|done].
  destruct (str_is_empty _); [done|]. destruct (str_is_empty _); [done|].
  rewrite <- (gateway_candidates_perm _ _ _ _ _ _ Hn Hp).
  destruct (plan_nodes _ _) as [|m l]; [done|]. intros [= <-]. f_equal. f_equal.
  - apply List.filter_ext. intros x. symmetry. by apply existsb_perm.
  - unfold sole_gateway. f_equal. symmetry. by apply Permutation_length, filter_perm.
Qed.

(** ** Addresses *)

Lemma in_other_holders nm address routers x :
  In x (other_holders nm address routers) <->
  bare_addr address <> "" /\ exists r, In r routers /\ name (metadata r) = x /\ x <> nm /\
    bare_addr (RouterStatus.external_addr (status r)) = bare_addr address.
Proof.
  unfold other_holders. destruct (str_is_empty (bare_addr address)) eqn:E.
  { assert (bare_addr address = "") as -> by (by destruct (bare_addr address)). simpl. naive_solver. }
  rewrite in_sort_by, in_map_iff. setoid_rewrite filter_In. setoid_rewrite filter_In.
  assert (Hne : bare_addr address <> "") by (intros H; by rewrite H in E). split.
  - intros (r & <- & [[Hin Hn] Ha]). bool_hyps. eauto 10.
  - intros (_ & r & Hin & <- & Hn & Ha). exists r. rewrite Ha, String.eqb_refl. split_and!; try done.
    by apply negb_true_iff, String.eqb_neq.
Qed.

Lemma claim_keep_or_yield router network routers :
  bare_addr (RouterStatus.external_addr (status router)) <> "" ->
  claim_external_addr router network routers =
    if existsb (fun other => str_lt other (name (metadata router)))
         (other_holders (name (metadata router)) (RouterStatus.external_addr (status router)) routers)
    then AddressClaim.Yield else AddressClaim.Keep.
Proof.
  intros Hne. unfold claim_external_addr. destruct (str_is_empty _) eqn:E; [|done].
  destruct Hne. by destruct (bare_addr _).
Qed.

(** A router that keeps its address is the first by name of those that hold it. *)
Lemma claim_keeps_others router network routers :
  bare_addr (RouterStatus.external_addr (status router)) <> "" ->
  claim_external_addr router network routers = AddressClaim.Keep <->
  forall r, In r routers -> name (metadata r) <> name (metadata router) ->
    bare_addr (RouterStatus.external_addr (status r)) = bare_addr (RouterStatus.external_addr (status router)) ->
    String.compare (name (metadata router)) (name (metadata r)) = Lt.
Proof.
  intros Hne. rewrite claim_keep_or_yield by done. destruct (existsb _ _) eqn:E.
  - split; [done|]. intros H. apply existsb_exists in E as (x & Hx & Hlt).
    apply in_other_holders in Hx as (_ & r & Hin & <- & Hn & Ha). specialize (H r Hin Hn Ha).
    unfold str_lt in Hlt. rewrite cmp_antisym, H in Hlt. done.
  - split; [|done]. intros _ r Hin Hn Ha. apply (proj1 (existsb_false _ _)) with (x := name (metadata r)) in E.
    2:{ apply in_other_holders. split; [done|]. eauto 10. }
    unfold str_lt in E. rewrite cmp_antisym. destruct (String.compare (name (metadata r)) _) eqn:Ec; [|done|done].
    by apply cmp_eq_leibniz in Ec.
Qed.

Lemma claim_not_keep router network routers :
  bare_addr (RouterStatus.external_addr (status router)) <> "" ->
  claim_external_addr router network routers <> AddressClaim.Keep ->
  claim_external_addr router network routers = AddressClaim.Yield.
Proof. intros Hne. rewrite claim_keep_or_yield by done. by destruct (existsb _ _). Qed.

(** A list of routers has a first one by name. *)
Lemma first_by_name (l : list Router) :
  l <> [] -> exists r, In r l /\ forall r', In r' l -> String.compare (name (metadata r)) (name (metadata r')) <> Gt.
Proof.
  induction l as [|r l IH]; [done|]. intros _. destruct l as [|r2 l].
  { exists r. split; [by left|]. intros r' [->|[]]. by rewrite (cmp_refl String.compare). }
  destruct IH as (m & Hm & Hle); [done|].
  destruct (String.compare (name (metadata r)) (name (metadata m))) eqn:E.
  3:{ exists m. split; [by right|]. intros r' [<-|Hin]; [|auto].
      rewrite (cmp_antisym (cmp := String.compare)), E. done. }
  all: exists r; split; [by left|]; intros r' [<-|Hin]; [by rewrite (cmp_refl String.compare)|].
  all: apply (cmp_le_trans (cmp := String.compare) _ (name (metadata m))); [by rewrite E|by apply Hle].
Qed.

(** When routers hold one external address, as concurrent allocations from stale
    listings may leave them, one of them keeps it and all others yield, whichever
    of them judges and in whatever order the routers are listed. *)
Theorem one_router_keeps_the_address network routers a :
  NoDup (map (fun r : Router => name (metadata r)) routers) -> a <> "" ->
  (exists r : Router, In r routers /\ bare_addr (RouterStatus.external_addr (status r)) = a) ->
  exists keeper : Router, In keeper routers /\ bare_addr (RouterStatus.external_addr (status keeper)) = a /\
    claim_external_addr keeper network routers = AddressClaim.Keep /\
    forall r, In r routers -> bare_addr (RouterStatus.external_addr (status r)) = a ->
      name (metadata r) <> name (metadata keeper) -> claim_external_addr r network routers = AddressClaim.Yield.
Proof.
  intros Hn Ha (r0 & Hr0 & Hh0).
  destruct (first_by_name (List.filter (fun r : Router => String.eqb (bare_addr (RouterStatus.external_addr (status r))) a) routers))
    as (k & [Hk Hka%String.eqb_eq]%filter_In & Hmin).
  { intros He. assert (H : In r0 []); [|done]. rewrite <- He. apply filter_In. by rewrite Hh0, String.eqb_refl. }
  assert (Hlt : forall r, In r routers -> name (metadata r) <> name (metadata k) ->
    bare_addr (RouterStatus.external_addr (status r)) = a -> String.compare (name (metadata k)) (name (metadata r)) = Lt).
  { intros r Hin Hne Hra. specialize (Hmin r). rewrite filter_In, Hra, String.eqb_refl in Hmin.
    specialize (Hmin (conj Hin eq_refl)). destruct (String.compare _ _) eqn:E; [|done|done].
    apply cmp_eq_leibniz in E. congruence. }
  exists k. split_and!; try done.
  - apply claim_keeps_others; [congruence|]. rewrite Hka. auto.
  - intros r Hin Hra Hne. apply claim_not_keep; [congruence|]. intros Hkeep.
    rewrite claim_keeps_others in Hkeep by congruence. specialize (Hkeep k Hk (not_eq_sym Hne)). rewrite Hka, Hra in Hkeep.
    specialize (Hkeep eq_refl). specialize (Hlt r Hin Hne Hra). rewrite cmp_antisym, Hlt in Hkeep. done.
Qed.

Section settled.
Context {D Bytes : Type} `{!Etcd D Bytes, !EtcdLaws D Bytes, !RawJson Bytes}.
Context `{!Serde Bytes RouterSpec.t RouterStatus.t, !SerdeLaws Bytes RouterSpec.t RouterStatus.t}.
Context (prefix : string) (sur : surroundings D).

(** A router that was written carries what the edit gave it. *)
Lemma router_written nm uid f w w' (r : Router) :
  keeps_identity (stateless f) -> mutate_if prefix sur nm uid f w = (w', Ok r) ->
  exists x at_ m, r = with_metadata (router_settle at_ (clean (f x))) m.
Proof.
  intros Hf (w1 & [[] r'] & H & Ho)%bind_ok. injection Ho as <- <-.
  destruct (mutate_loop_written prefix sur _ _ _ _ _ _ _ _ (fun c o => proj2 (Hf c o)) H)
    as (x & c & at_ & rev & _ & _ & _ & Hr).
  eexists x, at_, _. exact Hr.
Qed.

Lemma address_written nm uid a w w' r :
  mutate_if prefix sur nm uid (with_external_addr a) w = (w', Ok r) -> RouterStatus.external_addr (status r) = a.
Proof. intros (x & at_ & m & ->)%router_written; [done|]. by split. Qed.

(** An address that is cut is one. *)
Lemma cut_not_empty network routers a : cut_external_addr network routers = Some a -> bare_addr a <> "".
Proof.
  unfold cut_external_addr. intros (rs & _ & (n & _ & [= <-])%bind_Some)%bind_Some.
  unfold bare_addr. replace ("/" +:+ show_N _) with (String "/" (show_N (unwrap_or 32%N
    ('(_, len) ← rsplit_once "/" (ProviderNetworkSpec.cidr (spec network)); parse_unsigned 255 len)))) by done.
  rewrite split_once_app by (by apply ipv4_to_string_no_char).
  pose proof (ipv4_to_string_nonempty n "") as H. rewrite str_app_nil_r in H. intros Hz. rewrite Hz in H. done.
Qed.

(** What the loop leaves: no address, or one that the last listing did not contest. *)
Definition unopposed (w' : world D) (r : Router) : Prop :=
  bare_addr (RouterStatus.external_addr (status r)) = "" \/
  exists u listed, list_ prefix sur u = (w', Ok listed) /\
    forall other : Router, In other listed -> name (metadata other) <> name (metadata r) ->
      bare_addr (RouterStatus.external_addr (status other)) = bare_addr (RouterStatus.external_addr (status r)) ->
      String.compare (name (metadata r)) (name (metadata other)) = Lt.

Lemma keep_unopposed u u' listed (r : Router) network :
  list_ prefix sur u = (u', Ok listed) -> claim_external_addr r network listed = AddressClaim.Keep -> unopposed u' r.
Proof.
  intros Hl Hc. destruct (decide (bare_addr (RouterStatus.external_addr (status r)) = "")) as [|Hne]; [by left|].
  right. exists u, listed. split; [done|]. by rewrite claim_keeps_others in Hc.
Qed.

(** A settled address is unopposed: the router that comes out of the claim loop
    has no address, or no router with a lower name had the same one in the last
    listing, which was read after any address was written; whatever other
    controllers do in between. *)
Theorem settled_address_unopposed router network w w' r :
  settle_external_addr prefix sur router network w = (w', Ok r) -> unopposed w' r.
Proof.
  unfold settle_external_addr. cbn [settle_rounds]. intros (w1 & l1 & Hl1 & H)%bind_ok.
  destruct (claim_external_addr router network l1) as [|a|] eqn:Ec.
  - injection H as <- <-. by eapply keep_unopposed.
  - apply bind_ok in H as (w2 & r2 & Hm & H). apply address_written in Hm.
    assert (Ha : bare_addr a <> "").
    { unfold claim_external_addr in Ec. destruct (str_is_empty _); [|by destruct (existsb _ _)].
      destruct (cut_external_addr _ _) as [a'|] eqn:E; [|done]. injection Ec as <-. by eapply cut_not_empty. }
    apply bind_ok in H as (w3 & l2 & Hl2 & H).
    rewrite claim_keep_or_yield in H by congruence. destruct (existsb _ _) eqn:E.
    + left. apply address_written in H. by rewrite H.
    + injection H as <- <-. eapply (keep_unopposed _ _ _ _ network); [exact Hl2|].
      rewrite claim_keep_or_yield by congruence. by rewrite E.
  - left. apply address_written in H. by rewrite H.
Qed.
End settled.

(** ** Translations *)

Lemma inside_accepted router internal :
  inside_address_refusal router internal = None <->
  exists a own p, Ipv4Addr.parse internal = Some a /\ inside_address router = Ok (Some (own, p)) /\ a <> own /\
    is_allocatable p a = true.
Proof.
  unfold inside_address_refusal. destruct (Ipv4Addr.parse internal) as [a|].
  2:{ split; [done|]. intros (? & ? & ? & [=] & _). }
  destruct (inside_address router) as [[[own p]|]|e].
  - destruct (N.eqb_spec a own) as [->|Hne].
    { split; [done|]. by intros (? & ? & ? & [= <-] & [= <- <-] & ? & _). }
    destruct (is_allocatable p a) eqn:E; simpl.
    + split; [intros _; by exists a, own, p|done].
    + split; [done|]. intros (? & ? & ? & [= <-] & [= <- <-] & _ & ?). congruence.
  - split; [done|]. by intros (? & ? & ? & _ & [=] & _).
  - split; [done|]. by intros (? & ? & ? & _ & [=] & _).
Qed.

Lemma translates_iff router (ip : FloatingIp) :
  translates_through router ip = true <->
  FloatingIpSpec.router (spec ip) = name (metadata router) /\
  FloatingIpSpec.tenant (spec ip) = RouterSpec.tenant (spec router) /\ FloatingIpSpec.address (spec ip) <> "" /\
  exists a own p, Ipv4Addr.parse (FloatingIpSpec.internal_address (spec ip)) = Some a /\
    inside_address router = Ok (Some (own, p)) /\ a <> own /\ is_allocatable p a = true.
Proof.
  unfold translates_through. rewrite <- inside_accepted, !andb_true_iff, !negb_true_iff, !String.eqb_eq.
  destruct (FloatingIpSpec.address (spec ip)) as [|ca sa]; [naive_solver|].
  destruct (FloatingIpSpec.internal_address (spec ip)) as [|c0 s0] eqn:E.
  - split; [naive_solver|]. intros (_ & _ & _ & H). apply inside_accepted in H as (a & own & p & H & _). by vm_compute in H.
  - destruct (inside_address_refusal _ _); naive_solver.
Qed.

(** The rules a router carries are exactly these: masquerading behind its own
    external address, when it asks for it and has one; a translation for each
    floating address of its own tenant that names it and whose inside end is a
    guest address on the router's inside prefix, not the router's own; and the
    announcement of each prefix. *)
Theorem nat_rules_exact router floating announced rule :
  In rule (nat_rules router floating announced) <->
  (RouterSpec.snat (spec router) = true /\ bare_addr (RouterStatus.external_addr (status router)) <> "" /\
     rule = NatRule.mk NatKind.Snat (bare_addr (RouterStatus.external_addr (status router))) "")
  \/ (exists ip : FloatingIp, In ip floating /\ FloatingIpSpec.router (spec ip) = name (metadata router) /\
        FloatingIpSpec.tenant (spec ip) = RouterSpec.tenant (spec router) /\ FloatingIpSpec.address (spec ip) <> "" /\
        (exists a own p, Ipv4Addr.parse (FloatingIpSpec.internal_address (spec ip)) = Some a /\
           inside_address router = Ok (Some (own, p)) /\ a <> own /\ is_allocatable p a = true) /\
        rule = NatRule.mk NatKind.DnatAndSnat (FloatingIpSpec.address (spec ip)) (FloatingIpSpec.internal_address (spec ip)))
  \/ (exists p, In p announced /\ p <> "" /\ rule = NatRule.mk NatKind.Routed "" p).
Proof.
  unfold nat_rules. rewrite !in_app_iff, !in_map_iff. apply Morphisms_Prop.or_iff_morphism; [|apply Morphisms_Prop.or_iff_morphism].
  - destruct (RouterSpec.snat (spec router)); simpl; [|naive_solver].
    destruct (bare_addr _) as [|c0 s0]; simpl; naive_solver.
  - split.
    + intros (ip & <- & [Hin Ht]%in_sort_by%filter_In). apply translates_iff in Ht. exists ip. naive_solver.
    + intros (ip & Hin & H1 & H2 & H3 & H4 & ->). exists ip. split; [done|]. apply in_sort_by, filter_In.
      split; [done|]. by apply translates_iff.
  - split.
    + intros (p & <- & Hin). apply in_dedup in Hin; [|apply String.eqb_eq]. apply in_sort_by, filter_In in Hin as [Hin Hp].
      exists p. split_and!; try done. by intros ->.
    + intros (p & Hin & Hp & ->). exists p. split; [done|]. apply in_dedup; [apply String.eqb_eq|].
      apply in_sort_by, filter_In. split; [done|]. by destruct p.
Qed.

(** ** Commands *)

Inductive command := Destroy (node id : string) | Ensure (node : string) (r : EnsureRouter.t).

(** A fleet that answers as [answer] says from the commands so far. *)
Definition recording (answer : list command -> command -> result SinkError.t unit) : RouterSink (list command) :=
  {| sink_ensure := fun node r k => (k ++ [Ensure node r], answer k (Ensure node r));
     sink_destroy := fun node id k => (k ++ [Destroy node id], answer k (Destroy node id)) |}.

Section commands.
Context (answer : list command -> command -> result SinkError.t unit).

Lemma release_all_commands id nodes out k :
  let r := release_all (recording answer) id nodes out k in
  r.1 = k ++ map (fun n => Destroy n id) nodes /\
  RouterOutcome.built r.2 = RouterOutcome.built out /\ RouterOutcome.active_node r.2 = RouterOutcome.active_node out /\
  RouterOutcome.refused r.2 = RouterOutcome.refused out /\
  (forall n, In n (RouterOutcome.released r.2) -> In n (RouterOutcome.released out) \/
     exists k', In n nodes /\ answer k' (Destroy n id) = Ok tt).
Proof.
  revert out k. induction nodes as [|n nodes IH]; intros out k; simpl.
  { rewrite app_nil_r. split_and!; auto. }
  destruct (answer k (Destroy n id)) as [[]|e] eqn:E.
  - edestruct IH as (H1 & H2 & H3 & H4 & H5). rewrite H1, <- app_assoc, H2, H3, H4. split_and!; try done.
    intros m Hm. apply H5 in Hm as [Hm|(k' & Hin & Hok)]; [|right; exists k'; auto]. simpl in Hm.
    apply in_app_or in Hm as [Hm|[<-|[]]]; [by left|]. right. exists k. auto.
  - edestruct IH as (H1 & H2 & H3 & H4 & H5). rewrite H1, <- app_assoc, H2, H3, H4. split_and!; try done.
    intros m Hm. apply H5 in Hm as [Hm|(k' & Hin & Hok)]; [by left|right; exists k'; auto].
Qed.

Lemma ensure_all_commands plan nodes acc k :
  (ensure_all (recording answer) plan nodes acc k).1 =
  k ++ map (fun n => Ensure n (ensure_for plan (bool_decide (Some n = RouterPlan.active plan)))) nodes.
Proof.
  revert acc k. induction nodes as [|n nodes IH]; intros acc k; simpl; [by rewrite app_nil_r|].
  by rewrite IH, <- app_assoc.
Qed.

Lemma ensure_all_app {K} (sink : RouterSink K) plan l1 l2 acc k :
  ensure_all sink plan (l1 ++ l2) acc k =
  let (k1, acc1) := ensure_all sink plan l1 acc k in ensure_all sink plan l2 acc1 k1.
Proof.
  revert acc k. induction l1 as [|n l1 IH]; intros acc k; simpl; [done|]. by destruct (sink_ensure _ _ _ _).
Qed.

(** Standbys do not become the active node, and a node is refused only by its own
    answer. *)
Lemma ensure_all_notes {K} (sink : RouterSink K) plan nodes acc k :
  let r := ensure_all sink plan nodes acc k in
  RouterOutcome.released r.2.1 = RouterOutcome.released acc.1 /\
  (forall n, In n (RouterOutcome.refused acc.1) -> In n (RouterOutcome.refused r.2.1)) /\
  ((forall n, In n nodes -> Some n <> RouterPlan.active plan) ->
   RouterOutcome.active_node r.2.1 = RouterOutcome.active_node acc.1).
Proof.
  revert acc k. induction nodes as [|n nodes IH]; intros [out un] k; [done|].
  cbn [ensure_all]. destruct (sink_ensure _ _ _ _) as [k1 a] eqn:E.
  destruct (IH (note_answer plan n a (out, un)) k1) as (H1 & H2 & H3). cbv zeta. rewrite H1. split_and!.
  - destruct a as [[]|e]; simpl; [done|]. by destruct (SinkError.cannot_serve e).
  - intros m Hm. apply H2. destruct a as [[]|e]; simpl; [done|].
    destruct (SinkError.cannot_serve e); [|done]. apply in_or_app. by left.
  - intros Hs. rewrite H3 by (intros m Hm; apply Hs; by right). destruct a as [[]|e]; simpl.
    + rewrite bool_decide_false; [done|]. apply Hs. by left.
    + by destruct (SinkError.cannot_serve e).
Qed.

Lemma ordered_active plan a :
  NoDup (RouterPlan.nodes plan) -> RouterPlan.active plan = Some a -> In a (RouterPlan.nodes plan) ->
  ordered plan = List.filter (fun n => negb (String.eqb n a)) (RouterPlan.nodes plan) ++ [a].
Proof.
  intros Hn Ha Hin. unfold ordered. rewrite Ha.
  assert (He : forall n, bool_decide (Some n = Some a) = String.eqb n a).
  { intros n. destruct (String.eqb_spec n a) as [->|Hne]; [by apply bool_decide_true|].
    apply bool_decide_false. naive_solver. }
  f_equal; [apply List.filter_ext; intros n; by rewrite He|].
  rewrite (List.filter_ext _ (fun n => String.eqb n a) He). clear He Ha.
  induction Hn as [|n l Hx Hn IH]; [done|]. simpl. destruct (String.eqb_spec n a) as [->|Hne].
  - f_equal. rewrite list_elem_of_In in Hx. clear -Hx. induction l as [|m l IH]; [done|]. simpl in *.
    destruct (String.eqb_spec m a) as [->|]; [tauto|]. apply IH. tauto.
  - apply IH. by destruct Hin.
Qed.

(** The node that is to answer for a router's addresses is told last, after every
    release and every standby was tried, and it is the only one told to be active;
    the router counts as active exactly when that node acknowledged. *)
Theorem active_told_last plan a k :
  NoDup (RouterPlan.nodes plan) -> RouterPlan.active plan = Some a -> In a (RouterPlan.nodes plan) -> a <> "" ->
  let r := realise (recording answer) plan k in
  let earlier := k ++ map (fun n => Destroy n (RouterPlan.id plan)) (RouterPlan.release plan)
                   ++ map (fun n => Ensure n (ensure_for plan false))
                        (List.filter (fun n => negb (String.eqb n a)) (RouterPlan.nodes plan)) in
  r.1 = earlier ++ [Ensure a (ensure_for plan true)] /\
  (RouterOutcome.phase r.2 = RouterPhaseKind.Active <-> answer earlier (Ensure a (ensure_for plan true)) = Ok tt).
Proof.
  intros Hn Ha Hin Hne r earlier. subst r. unfold realise.
  pose proof (release_all_commands (RouterPlan.id plan) (RouterPlan.release plan) RouterOutcome.default k) as (H1 & H2 & H3 & H4 & _).
  destruct (release_all _ _ _ _ _) as [k1 out1]. simpl in H1, H2, H3, H4. rewrite (ordered_active _ _ Hn Ha Hin), ensure_all_app.
  set (standbys := List.filter _ _) in *.
  assert (Hs : forall n, In n standbys -> Some n <> RouterPlan.active plan).
  { intros n [_ Hx]%filter_In. rewrite Ha. bool_hyps. naive_solver. }
  pose proof (ensure_all_commands plan standbys (out1, []) k1) as Hc.
  pose proof (ensure_all_notes (recording answer) plan standbys (out1, []) k1) as (_ & _ & Hact). specialize (Hact Hs).
  destruct (ensure_all _ _ _ _ _) as [k2 [out2 un2]]. simpl in Hc, Hact. rewrite H3 in Hact.
  assert (k2 = earlier) as ->.
  { rewrite Hc, H1, <- app_assoc. unfold earlier. do 2 f_equal. apply map_ext_in. intros n Hx.
    rewrite bool_decide_false; [done|]. auto. }
  simpl. rewrite bool_decide_true by done.
  destruct (answer earlier (Ensure a (ensure_for plan true))) as [[]|e] eqn:E; simpl.
  - unfold verdict. simpl. destruct (RouterPlan.nodes plan) as [|n0 l0]; [done|].
    destruct (RouterOutcome.built out2 ++ [a]) as [|b0 bs] eqn:Eb; [by destruct (RouterOutcome.built out2)|].
    by rewrite str_is_empty_false.
  - unfold verdict. destruct (SinkError.cannot_serve e); simpl; rewrite Hact;
      destruct (RouterPlan.nodes plan), (RouterOutcome.built out2); simpl; try done;
      by (destruct un2 || destruct (un2 ++ [a])).
Qed.
End commands.

(** ** Debts *)


(** A node is sent the rules of the plan, whole and in order: none is lost on the
    way through the wire's words. *)
Theorem wire_keeps_rules plan active : dispatched_nats (ensure_for plan active) = RouterPlan.nats plan.
Proof.
  unfold dispatched_nats, ensure_for. simpl. induction (RouterPlan.nats plan) as [|[kind e l] rules IH]; simpl; [done|].
  rewrite IH. by destruct kind.
Qed.

(** * A stale pass *)

(** Stored bytes that decode as one kind. *)
Inductive gateway_bytes :=
| GRouter (o : Router) | GIp (o : FloatingIp) | GNetwork (o : ProviderNetwork) | GEvent (o : Event).

#[export] Instance gateway_raw : RawJson gateway_bytes := {| raw := fun _ => None |}.
#[export] Instance gateway_router : Serde gateway_bytes RouterSpec.t RouterStatus.t :=
  {| to_vec := fun o => Ok (GRouter o);
     from_slice := fun b => match b with GRouter o => Ok o | _ => Err "expected value" end |}.
#[export] Instance gateway_router_laws : SerdeLaws gateway_bytes RouterSpec.t RouterStatus.t.
Proof. split. by intros o b [= <-]. Qed.
#[export] Instance gateway_ip : Serde gateway_bytes FloatingIpSpec.t FloatingIpStatus.t :=
  {| to_vec := fun o => Ok (GIp o);
     from_slice := fun b => match b with GIp o => Ok o | _ => Err "expected value" end |}.
#[export] Instance gateway_network : Serde gateway_bytes ProviderNetworkSpec.t unit :=
  {| to_vec := fun o => Ok (GNetwork o);
     from_slice := fun b => match b with GNetwork o => Ok o | _ => Err "expected value" end |}.
#[export] Instance gateway_event : Serde gateway_bytes EventSpec.t unit :=
  {| to_vec := fun o => Ok (GEvent o);
     from_slice := fun b => match b with GEvent o => Ok o | _ => Err "expected value" end |}.

Definition ext_network : ProviderNetwork :=
  object_new API_VERSION "ProviderNetwork" "ext" "u-ext" 0%Z
    (ProviderNetworkSpec.mk "ext" "203.0.113.0/24" "203.0.113.1" ["203.0.113.10-203.0.113.11"] "") tt.

(** A router with an address, built on some nodes. *)
Definition router_on (nm addr : string) (nodes : list string) : Router :=
  object_new API_VERSION "Router" nm ("u-" +:+ nm) 0%Z
    (RouterSpec.mk "acme" "ext" "" false (Some 7%N) "10.42.0.1/24" [] "")
    (RouterStatus.mk phase_default None addr "" nodes (unwrap_or "" (head nodes)) [] [] [] [] 0).

Definition gateway (nm : string) (alive : bool) : Candidate.t :=
  {| Candidate.name := nm; Candidate.connected := alive; Candidate.alive := alive; Candidate.schedulable := true;
     Candidate.unhealthy := []; Candidate.free := Capacity.default; Candidate.catalogue := ["network/gateway:ext"];
     Candidate.kind := CandidateKind.Node; Candidate.labels := []; Candidate.accepts := []; Candidate.hosted := [];
     Candidate.machine := None |}.

Definition yes (_ : list command) (_ : command) : result SinkError.t unit := Ok tt.

(** Another replica built the router on a second gateway, which is down now. *)
Definition built_elsewhere : pass_state (mem gateway_bytes) (list command) :=
  PassState (World (mem_commit mem_empty
    [Put "p/registry/routers/out" (GRouter (router_on "out" "203.0.113.10/24" ["g1"; "g2"])) NoLease]) 0) [] [].

(** The nodes the stored router is on, and those it owes a teardown to. *)
Definition books (p : pass_state (mem gateway_bytes) (list command)) : option (list string * list string) :=
  kv ← look (db (ps_store p)) "p/registry/routers/out";
  r ← result_ok (decode (Sp := RouterSpec.t) (St := RouterStatus.t) (kv_value kv) (mod_revision kv));
  Some (RouterStatus.nodes (status r), RouterStatus.releasing (status r)).

(** The pass of a replica that listed the router before that. *)
Definition stale_pass : pass_state (mem gateway_bytes) (list command) * result StoreError.t unit :=
  reconcile_router "p" quiet (fun _ _ => 1%Z) (fun _ => "u-e") (recording yes)
    [gateway "g1" true; gateway "g2" false; gateway "g3" true] [ext_network] []
    (router_on "out" "203.0.113.10/24" ["g1"]) built_elsewhere.

(** A replica that writes its outcome over a router another replica has placed in
    the meantime drops that placement: the store named [g2] as a holder, the pass
    succeeds, and afterwards [g2] is neither a holder nor owed a teardown, and was
    never sent one. *)
Theorem stale_pass_drops_debt :
  books built_elsewhere = Some (["g1"; "g2"], []) /\ is_some (result_ok stale_pass.2) = true /\
  books stale_pass.1 = Some (["g1"; "g3"], []) /\
  forallb (fun c => match c with Destroy _ _ => false | Ensure n _ => negb (String.eqb n "g2") end)
    (ps_fleet stale_pass.1) = true.
Proof. vm_compute. auto. Qed.

(** * Witnesses *)

Definition three_gateways : list Candidate.t := [gateway "g1" true; gateway "g2" false; gateway "g3" true].

Lemma three_gateways_named : NoDup (map Candidate.name three_gateways).
Proof. repeat constructor; rewrite list_elem_of_In; simpl; intuition discriminate. Qed.

Lemma gateway_plan_sound_witness :
  plan_nodes ["g3"] (gateway_candidates "ext" "router" [] [] three_gateways) = ["g3"; "g1"] /\
  NoDup (plan_nodes ["g3"] (gateway_candidates "ext" "router" [] [] three_gateways)).
Proof.
  split; [by vm_compute|].
  apply (gateway_plan_sound "ext" "router" [] [] three_gateways ["g3"]); [apply NoDup_singleton|apply three_gateways_named].
Defined.

Definition routed_out : Router := router_on "out" "203.0.113.10/24" ["g1"].

Lemma replicas_plan_alike_witness :
  exists plan, plan_router routed_out [ext_network] [] three_gateways = Ok plan /\
    plan_router routed_out [ext_network] [] (rev three_gateways) = Ok plan.
Proof.
  assert (Hok : is_some (result_ok (plan_router routed_out [ext_network] [] three_gateways)) = true) by (by vm_compute).
  destruct (plan_router routed_out [ext_network] [] three_gateways) as [plan|e] eqn:E; [|discriminate Hok].
  exists plan. split; [reflexivity|].
  apply (replicas_plan_alike routed_out [ext_network] [] three_gateways (rev three_gateways) plan
           three_gateways_named (Permutation_rev three_gateways) E).
Defined.

(** Two routers that took one address. *)
Definition rivals : list Router := [router_on "b" "203.0.113.10/24" []; router_on "a" "203.0.113.10/32" []].

Lemma one_router_keeps_the_address_witness :
  exists keeper, In keeper rivals /\ claim_external_addr keeper ext_network rivals = AddressClaim.Keep.
Proof.
  destruct (one_router_keeps_the_address ext_network rivals "203.0.113.10") as (keeper & Hin & _ & Hk & _).
  - repeat constructor; rewrite list_elem_of_In; simpl; intuition discriminate.
  - discriminate.
  - exists (router_on "b" "203.0.113.10/24" []). split; [by left|reflexivity].
  - by exists keeper.
Defined.

(** A router without an address takes the one that is free. *)
Definition settle_second : world (mem gateway_bytes) * result StoreError.t Router :=
  settle_external_addr "p" quiet (router_on "late" "" []) ext_network
    (World (mem_commit mem_empty
       [Put "p/registry/routers/out" (GRouter routed_out) NoLease;
        Put "p/registry/routers/late" (GRouter (router_on "late" "" [])) NoLease]) 0).

Lemma settled_address_unopposed_witness :
  option_map (fun r : Router => RouterStatus.external_addr (status r)) (result_ok settle_second.2) = Some "203.0.113.11/24" /\
  exists r, unopposed "p" quiet settle_second.1 r.
Proof.
  split; [by vm_compute|].
  assert (Hok : is_some (result_ok settle_second.2) = true) by (by vm_compute).
  destruct settle_second as [w' [r|e]] eqn:E; [|discriminate Hok].
  exists r. exact (settled_address_unopposed "p" quiet _ ext_network _ w' r E).
Defined.

Definition two_node_plan : RouterPlan.t :=
  RouterPlan.mk "u-out" "out" "ext" "203.0.113.10/24" "203.0.113.1" 7 "10.42.0.1/24" [] ["g1"; "g3"] (Some "g1") ["g2"] false.

Lemma active_told_last_witness :
  RouterOutcome.phase (realise (recording yes) two_node_plan []).2 = RouterPhaseKind.Active.
Proof.
  apply (active_told_last yes two_node_plan "g1" []); [|reflexivity|by left|discriminate|reflexivity].
  repeat constructor; rewrite list_elem_of_In; simpl; intuition discriminate.
Defined.

