(* ===== verification/Lifecycle.v ===== *)
(** Policies both controllers share about a guest's life:
    [src/shared/controller-api/src/lifecycle.rs] (drift of intent against
    observation, and when a binding may be let go), [requeue.rs] with the cluster
    controller's [reconcile/requeue.rs] (retrying Failed VMs), [drain.rs] (what a
    drain does about one VM) and [stuck.rs] (phases past their deadline).

    Durations are nanoseconds, as instants are. *)
From Stdlib Require Import Ascii String NArith ZArith List Bool Lia.
From stdpp Require Import base list strings.
From S2P Require Import Prelude RustStr Phase Objects Heartbeat Vm Node.

Definition from_secs (n : Z) : Z := (n * 1000000000)%Z.

(** * Intent against observation *)

Module Lifecycle.
Inductive t := Start | Stop | Pause | Resume.
End Lifecycle.

#[export] Instance Lifecycle_eq_dec : EqDecision Lifecycle.t.
Proof. solve_decision. Defined.

Definition lifecycle_command (strategy : RunStrategy.t) (phase : VmPhaseKind.t) : option Lifecycle.t :=
  match strategy, phase with
  | RunStrategy.Running, VmPhaseKind.Stopped => Some Lifecycle.Start
  | RunStrategy.Running, VmPhaseKind.Paused => Some Lifecycle.Resume
  | RunStrategy.Stopped, VmPhaseKind.Running => Some Lifecycle.Stop
  | RunStrategy.Stopped, VmPhaseKind.Paused => Some Lifecycle.Stop
  | RunStrategy.Paused, VmPhaseKind.Running => Some Lifecycle.Pause
  | RunStrategy.Paused, VmPhaseKind.Stopped => Some Lifecycle.Pause
  | _, _ => None
  end.

Definition stopped_enough (strategy : RunStrategy.t) (phase : VmPhaseKind.t) : bool :=
  bool_decide (strategy = RunStrategy.Stopped)
  && match phase with
     | VmPhaseKind.Stopped | VmPhaseKind.Failed | VmPhaseKind.Unknown => true
     | _ => false
     end.

Definition not_stopped_enough (strategy : RunStrategy.t) (phase : VmPhaseKind.t) : string :=
  match strategy with
  | RunStrategy.Stopped =>
      "this vm has been told to stop and is still " +:+ VmPhaseKind.as_str phase
      +:+ "; wait for it to come to rest, then let the binding go"
  | _ =>
      "reschedule needs a vm nobody wants running (runStrategy " +:+ RunStrategy.as_str strategy
      +:+ ", phase " +:+ VmPhaseKind.as_str phase
      +:+ "); set runStrategy to Stopped first, then let the binding go"
  end.

(** [lifecycle::Holder]. *)
Module HolderKind.
Inductive t := Node | Cluster.
Definition as_str (h : t) : string := match h with Node => "node" | Cluster => "cluster" end.
End HolderKind.

Section words.
Variable to_rfc3339 : instant -> string.

Definition unknown_needs_its_holder (phase : VmPhaseKind.t) (holder : HolderKind.t) (name : string)
    (last_heartbeat : option instant) (now : instant) : option string :=
  if negb (bool_decide (phase = VmPhaseKind.Unknown)) then None
  else if negb (expired last_heartbeat now) then None
  else
    let what := HolderKind.as_str holder in
    let since := match last_heartbeat with
                 | Some last => "has not reported since " +:+ to_rfc3339 last
                 | None => "has never reported"
                 end in
    Some (what +:+ " " +:+ name +:+ " " +:+ since +:+ ", more than "
          +:+ show_N (Z.to_N HEARTBEAT_TIMEOUT_SECS)
          +:+ "s ago, and that is why this vm's phase is Unknown: the guest may still be running there. Letting the binding go now would place the vm a second time while the first one still holds its disks open. Wait for "
          +:+ name +:+ " to report — the phase then settles into one this call takes — or drain the "
          +:+ what +:+ ", which is how the control plane is told what became of its guests").
End words.

Definition released_while_unknown (holder : HolderKind.t) (name : string) : string :=
  "the binding to " +:+ HolderKind.as_str holder +:+ " " +:+ name
  +:+ " was let go while the phase was Unknown; " +:+ name
  +:+ " was reporting at the time, so the guest was asked to stop before the vm was placed again".

(** * Retrying Failed VMs *)

(** [2u32.saturating_pow]: the exponent is at most five. *)
Definition backoff (attempts : N) : Z :=
  Z.min (from_secs 10 * Z.of_N (2 ^ N.min attempts 5)) (from_secs 300).

(** [trait RequeuePolicy]. *)
Record RequeuePolicy := { next_delay : N -> option Z }.

Definition NoRequeue : RequeuePolicy := {| next_delay := fun _ => None |}.
Definition RetryCount (n : N) : RequeuePolicy :=
  {| next_delay := fun attempts => if (attempts <? n)%N then Some (backoff attempts) else None |}.
Definition CrashLoopBackoff : RequeuePolicy := {| next_delay := fun attempts => Some (backoff attempts) |}.

Module RequeueConfig.
Inductive t := Count (n : N) | Named (s : string).

Definition into_policy (this : option t) : result string RequeuePolicy :=
  match this with
  | None => Ok CrashLoopBackoff
  | Some (Count n) => Ok (RetryCount n)
  | Some (Named s) =>
      if String.eqb s "crash-loop-backoff" then Ok CrashLoopBackoff
      else if String.eqb s "none" then Ok NoRequeue
      else Err ("retry = " +:+ debug s +:+ "; expected " +:+ debug "none" +:+ ", "
                +:+ debug "crash-loop-backoff" +:+ " or a number")
  end.
End RequeueConfig.

Module Requeue.
Inductive t := Not | Arm | Kick | Reset.
End Requeue.

#[export] Instance Requeue_eq_dec : EqDecision Requeue.t.
Proof. solve_decision. Defined.

Definition vm_kind (v : Vm) : VmPhaseKind.t := ph_kind (VmStatus.phase (status v)).

Definition requeue_decision (v : Vm) (policy : RequeuePolicy) (now : instant) : Requeue.t :=
  if negb (bool_decide (vm_kind v = VmPhaseKind.Failed)) then
    if (0 <? VmStatus.requeue_attempts (status v))%N || is_some (VmStatus.last_requeue (status v))
    then Requeue.Reset else Requeue.Not
  else if bool_decide (VmSpec.run_strategy (spec v) = RunStrategy.Stopped)
          || negb (is_some (VmSpec.node_name (spec v))) then Requeue.Not
  else match VmStatus.last_requeue (status v) with
       | None => Requeue.Arm
       | Some since =>
           match next_delay policy (VmStatus.requeue_attempts (status v)) with
           | None => Requeue.Not
           | Some delay =>
               (* a clock behind [since] has no [std] duration *)
               if (0 <=? now - since)%Z && (delay <=? now - since)%Z then Requeue.Kick else Requeue.Not
           end
       end.

(** * Draining *)

Module DrainVerdict.
Inductive t := Moving | Reschedule | Restart | Live | Stays (why : StayReason.t).
End DrainVerdict.

Module DrainFacts.
Record t := {
  has_device : bool;
  node_local_disk : option string;
  live_possible : bool;
  live_refusal : option string;
}.
End DrainFacts.

Definition drain_verdict (v : Vm) (facts : DrainFacts.t) : DrainVerdict.t :=
  if is_some (VmStatus.evacuating (status v)) then DrainVerdict.Moving
  else if is_some (DrainFacts.node_local_disk facts) then DrainVerdict.Stays StayReason.NodeLocalDisk
  else
    let at_rest := bool_decide (VmSpec.run_strategy (spec v) = RunStrategy.Stopped)
                   && bool_decide (vm_kind v = VmPhaseKind.Stopped) in
    if at_rest then DrainVerdict.Reschedule
    else
      let could_live := DrainFacts.live_possible facts && negb (DrainFacts.has_device facts) in
      match VmSpec.evacuation (spec v) with
      | Evacuation.Restart => DrainVerdict.Restart
      | Evacuation.Never =>
          if could_live then DrainVerdict.Live else DrainVerdict.Stays StayReason.EvacuationNever
      end.

Definition drain_sentence (reason : StayReason.t) (vm : string) (facts : DrainFacts.t) : string :=
  match reason with
  | StayReason.EvacuationNever =>
      vm +:+ " stays: evacuation is never"
      +:+ match DrainFacts.has_device facts, DrainFacts.live_refusal facts with
          | true, _ => ", and a vm with a device cannot move live in any case; set spec.evacuation = restart to move it by reboot"
          | false, Some why => ", and it could not have moved live either: " +:+ why
                               +:+ ". Set spec.evacuation = restart to move it by reboot"
          | false, None => "; set spec.evacuation = restart to move it by reboot"
          end
  | StayReason.NodeLocalDisk =>
      let disk := unwrap_or "a local disk" (DrainFacts.node_local_disk facts) in
      vm +:+ " stays: volume " +:+ disk
      +:+ " is node-local, so its bytes are on this machine and no move takes them with it"
  | StayReason.NoTarget => vm +:+ " would move and there is nowhere for it to go yet"
  end.

(** * Deadlines *)

Definition STUCK_AFTER_PENDING : Z := from_secs (5 * 60).
Definition STUCK_AFTER_PROVISIONING : Z := from_secs (15 * 60).
Definition STUCK_AFTER_UNKNOWN : Z := from_secs (10 * 60).

Definition stuck_after (word : string) : option Z :=
  if String.eqb word "Pending" then Some STUCK_AFTER_PENDING
  else if str_in word ["Provisioning"; "Creating"; "Preparing"; "Releasing"; "Receiving"]
  then Some STUCK_AFTER_PROVISIONING
  else if String.eqb word "Unknown" then Some STUCK_AFTER_UNKNOWN
  else None.

Definition stuck (terminal : bool) (word : string) (since now : instant) : option Z :=
  if terminal then None
  else budget ← stuck_after word;
       age ← (if (0 <=? now - since)%Z then Some (now - since)%Z else None);
       if (budget <? age)%Z then Some (age - budget)%Z else None.

Module Crossed.
Record t := {
  kind : string;
  name : string;
  uid : string;
  tenant : option string;
  word : string;
  reason : string;
  over : Z;
}.

Definition sentence (c : t) : string :=
  let since := if str_is_empty (reason c) then "" else " (" +:+ reason c +:+ ")" in
  name c +:+ " has been " +:+ word c +:+ since +:+ " for "
  +:+ show_N (Z.to_N (over c / 1000000000)) +:+ "s longer than the "
  +:+ show_N (Z.to_N (match stuck_after (word c) with Some b => b / 1000000000 | None => 0 end))
  +:+ "s this phase is given; nothing here will change it on account of that".
End Crossed.

(** [About]. *)
Module Subject.
Record t := { kind : string; name : string; uid : string; tenant : option string }.
End Subject.

Module Late.
(** [counted] by kind, word and reason. *)
Record t := { counted : list ((string * string * string) * Z); crossed : list Crossed.t }.

Definition default : t := {| counted := []; crossed := [] |}.

Definition cell_eqb (a b : string * string * string) : bool := bool_decide (a = b).

(** [*counted.entry(cell).or_default() += 1]. *)
Fixpoint bump (cell : string * string * string) (counted : list ((string * string * string) * Z))
    : list ((string * string * string) * Z) :=
  match counted with
  | [] => [(cell, 1%Z)]
  | (c, n) :: rest => if cell_eqb c cell then (c, (n + 1)%Z) :: rest else (c, n) :: bump cell rest
  end.

Definition look (l : t) (about : Subject.t) (st : standing) (now : instant) (tick : Z) : t :=
  match stuck (terminal st) (word st) (since st) now with
  | None => l
  | Some over =>
      let counted := bump (Subject.kind about, word st, reason st) (counted l) in
      {| counted := counted;
         crossed :=
           if (over <? tick)%Z
           then crossed l ++ [{| Crossed.kind := Subject.kind about; Crossed.name := Subject.name about;
                                 Crossed.uid := Subject.uid about; Crossed.tenant := Subject.tenant about;
                                 Crossed.word := word st; Crossed.reason := reason st;
                                 Crossed.over := over |}]
           else crossed l |}
  end.

Definition total (l : t) : Z := foldr (fun e acc => (e.2 + acc)%Z) 0%Z (counted l).
End Late.

(** * The bookkeeping of a retry *)

Module Retry.
Definition set (attempts : N) (last : option instant) (s : VmStatus.t) : VmStatus.t :=
  {| VmStatus.phase := VmStatus.phase s; VmStatus.reported := VmStatus.reported s;
     VmStatus.silence := VmStatus.silence s; VmStatus.placement := VmStatus.placement s;
     VmStatus.observed_generation := VmStatus.observed_generation s;
     VmStatus.node_name := VmStatus.node_name s; VmStatus.cluster_name := VmStatus.cluster_name s;
     VmStatus.observed_at := VmStatus.observed_at s; VmStatus.addresses := VmStatus.addresses s;
     VmStatus.volumes := VmStatus.volumes s; VmStatus.reschedules := VmStatus.reschedules s;
     VmStatus.refused_by := VmStatus.refused_by s; VmStatus.requeue_attempts := attempts;
     VmStatus.last_requeue := last; VmStatus.evacuating := VmStatus.evacuating s;
     VmStatus.handed_down := VmStatus.handed_down s;
     VmStatus.hand_down_refused := VmStatus.hand_down_refused s;
     VmStatus.bound_at := VmStatus.bound_at s |}.

(** The three edits of [heal_if_failed] and [kick]. *)
Definition reset (v : Vm) : Vm := with_status v (set 0 None (status v)).

Definition arm (now : instant) (v : Vm) : Vm :=
  match VmStatus.last_requeue (status v) with
  | None => with_status v (set (VmStatus.requeue_attempts (status v)) (Some now) (status v))
  | Some _ => v
  end.

Definition count (attempt : N) (now : instant) (v : Vm) : Vm :=
  with_status v (set attempt (Some now) (status v)).
End Retry.

(** One pass over a VM nobody else writes: the VM after it, and whether a kick
    went out. *)
Definition heal_pass (policy : RequeuePolicy) (now : instant) (v : Vm) : Vm * bool :=
  match requeue_decision v policy now with
  | Requeue.Not => (v, false)
  | Requeue.Reset => (Retry.reset v, false)
  | Requeue.Arm => (Retry.arm now v, false)
  | Requeue.Kick => (Retry.count (VmStatus.requeue_attempts (status v) + 1) now v, true)
  end.

(** The kicks of a run of passes. *)
Fixpoint kicks (policy : RequeuePolicy) (v : Vm) (passes : list instant) : list instant :=
  match passes with
  | [] => []
  | now :: rest =>
      let '(v', kicked) := heal_pass policy now v in
      if kicked then now :: kicks policy v' rest else kicks policy v' rest
  end.

(** * Lemmas *)

Lemma lifecycle_needs_stable s k a : lifecycle_command s k = Some a -> VmPhaseKind.is_stable k = true.
Proof. by destruct s, k. Qed.

Lemma backoff_bounds a : (from_secs 10 <= backoff a <= from_secs 300)%Z.
Proof.
  unfold backoff, from_secs. pose proof (N.pow_nonzero 2 (N.min a 5)). lia.
Qed.

Lemma backoff_mono a b : (a <= b)%N -> (backoff a <= backoff b)%Z.
Proof.
  intros H. unfold backoff, from_secs.
  assert (2 ^ N.min a 5 <= 2 ^ N.min b 5)%N by (apply N.pow_le_mono_r; lia). lia.
Qed.

(** Wanted running or paused, bound, and Failed. *)
Definition retriable (v : Vm) : Prop :=
  vm_kind v = VmPhaseKind.Failed /\ VmSpec.run_strategy (spec v) <> RunStrategy.Stopped
  /\ VmSpec.node_name (spec v) <> None.

(** Each delay since the last kick, or since the clock was armed. *)
Fixpoint paced (since : instant) (attempts : N) (l : list instant) : Prop :=
  match l with
  | [] => True
  | t :: l => (since + backoff attempts <= t)%Z /\ paced t (attempts + 1) l
  end.

Lemma decision_armed v policy now since :
  retriable v -> VmStatus.last_requeue (status v) = Some since ->
  requeue_decision v policy now
  = match next_delay policy (VmStatus.requeue_attempts (status v)) with
    | Some delay => if (0 <=? now - since)%Z && (delay <=? now - since)%Z then Requeue.Kick else Requeue.Not
    | None => Requeue.Not
    end.
Proof.
  intros (Hk & Hs & Hn) Hl. unfold requeue_decision.
  rewrite bool_decide_eq_true_2, Hl by done. rewrite bool_decide_eq_false_2 by done.
  by destruct (VmSpec.node_name (spec v)).
Qed.

Lemma count_retriable a now v : retriable v -> retriable (Retry.count a now v).
Proof. done. Qed.

Lemma kicks_spec policy v since passes :
  (forall a d, next_delay policy a = Some d -> d = backoff a) ->
  retriable v -> VmStatus.last_requeue (status v) = Some since ->
  paced since (VmStatus.requeue_attempts (status v)) (kicks policy v passes)
  /\ (forall i t, nth_error (kicks policy v passes) i = Some t ->
        next_delay policy (VmStatus.requeue_attempts (status v) + N.of_nat i) <> None).
Proof.
  intros Hd. revert v since. induction passes as [|now rest IH]; intros v since Hr Hl.
  { split; [done|]. by intros []. }
  simpl. unfold heal_pass. rewrite (decision_armed _ _ _ _ Hr Hl).
  destruct (next_delay _ _) as [d|] eqn:E; [|by apply IH].
  destruct (_ && _) eqn:Eb; [|by apply IH].
  apply andb_prop in Eb as [_ Eb]. apply Z.leb_le in Eb. rewrite (Hd _ _ E) in Eb.
  destruct (IH (Retry.count (VmStatus.requeue_attempts (status v) + 1) now v) now
              (count_retriable _ _ _ Hr) eq_refl) as [Hp Hb].
  split; [split; [lia|done]|]. intros [|i] t Ht; simpl in Ht.
  - rewrite N.add_0_r, E. done.
  - apply Hb in Ht. cbn in Ht. by replace (_ + N.of_nat (S i))%N
      with (VmStatus.requeue_attempts (status v) + 1 + N.of_nat i)%N by lia.
Qed.


(** ** Deadlines *)

Lemma stuck_spec terminal word since now over :
  stuck terminal word since now = Some over <->
  terminal = false /\ exists budget, stuck_after word = Some budget
    /\ (since + budget < now)%Z /\ over = (now - since - budget)%Z.
Proof.
  unfold stuck. destruct terminal; [naive_solver|].
  destruct (stuck_after word) as [b|] eqn:E; simpl; [|naive_solver].
  assert (0 <= b)%Z.
  { revert E. unfold stuck_after, STUCK_AFTER_PENDING, STUCK_AFTER_PROVISIONING, STUCK_AFTER_UNKNOWN, from_secs.
    repeat case_match; intros [= <-]; lia. }
  destruct (Z.leb_spec 0 (now - since)); simpl.
  - destruct (Z.ltb_spec b (now - since)); split; [|naive_solver lia| |naive_solver lia].
    + intros [= <-]. split; [done|]. exists b. split_and!; [done|lia|lia].
    + done.
  - split; [done|]. intros (_ & b' & [= <-] & ? & _). lia.
Qed.

(** Whether a look records the crossing. *)
Definition reports (about : Subject.t) (st : standing) (now : instant) (tick : Z) : bool :=
  negb (bool_decide (Late.crossed (Late.look Late.default about st now tick) = [])).

Lemma reports_spec about st now tick budget :
  terminal st = false -> stuck_after (word st) = Some budget ->
  (reports about st now tick = true <->
   (since st + budget < now < since st + budget + tick)%Z).
Proof.
  intros Ht Hb. unfold reports, Late.look.
  destruct (stuck (terminal st) (word st) (since st) now) as [over|] eqn:E.
  - apply stuck_spec in E as (_ & b & Hb' & Hlt & ->). rewrite Hb in Hb'. injection Hb' as <-. simpl.
    destruct (Z.ltb_spec (now - since st - budget) tick).
    + rewrite bool_decide_eq_false_2 by done. simpl. split; [lia|done].
    + rewrite bool_decide_eq_true_2 by done. simpl. split; [done|lia].
  - simpl. split; [done|]. intros Hlt.
    enough (stuck (terminal st) (word st) (since st) now = Some (now - since st - budget)%Z) by congruence.
    apply stuck_spec. split; [done|]. exists budget. split_and!; [done|lia|done].
Qed.

Lemma total_bump cell l : Late.total {| Late.counted := Late.bump cell l; Late.crossed := [] |}
  = (foldr (fun e acc => (e.2 + acc)%Z) 0%Z l + 1)%Z.
Proof.
  unfold Late.total. simpl. induction l as [|[c n] l IH]; simpl; [done|].
  destruct (Late.cell_eqb c cell); simpl; lia.
Qed.

Definition about_vm (v : Vm) : Subject.t :=
  {| Subject.kind := "Vm"; Subject.name := name (metadata v); Subject.uid := uid (metadata v);
     Subject.tenant := VmSpec.tenant (spec v) |}.

(** A deadline is seen and never acted on, and its crossing is an edge.
    Every look past the deadline counts the object once; a look records the
    crossing exactly when it happens later than the deadline and less than one
    interval later.  So passes one interval apart record it at most once, and
    exactly once when they began before the deadline and none falls on it. *)
Theorem crossing_recorded_once about st budget tick start :
  terminal st = false -> stuck_after (word st) = Some budget -> (0 < tick)%Z ->
  let at_ (k : nat) := (start + Z.of_nat k * tick)%Z in
  let deadline := (since st + budget)%Z in
  (forall l now, Late.total (Late.look l about st now tick)
     = (Late.total l + if (deadline <? now)%Z then 1 else 0)%Z) /\
  (forall i j, reports about st (at_ i) tick = true -> reports about st (at_ j) tick = true -> i = j) /\
  ((start <= deadline)%Z -> (forall k, at_ k <> deadline) ->
   exists k, reports about st (at_ k) tick = true).
Proof.
  intros Ht Hb Hpos at_ deadline. split_and!.
  - intros l now. unfold Late.look.
    destruct (stuck (terminal st) (word st) (since st) now) as [over|] eqn:E.
    + apply stuck_spec in E as (_ & b & Hb' & Hlt & ->). rewrite Hb in Hb'. injection Hb' as <-.
      destruct (Z.ltb_spec deadline now); [|unfold deadline in *; lia].
      pose proof (total_bump (Subject.kind about, word st, reason st) (Late.counted l)) as H'.
      unfold Late.total in *. simpl in *. lia.
    + destruct (Z.ltb_spec deadline now) as [Hlt|]; [|lia].
      enough (stuck (terminal st) (word st) (since st) now = Some (now - since st - budget)%Z) by congruence.
      apply stuck_spec. split; [done|]. exists budget. split_and!; [done|unfold deadline in *; lia|done].
  - intros i j Hi Hj. apply (reports_spec _ _ _ _ _ Ht Hb) in Hi, Hj. unfold at_ in *.
    destruct (Nat.lt_trichotomy i j) as [H|[H|H]]; [|done|]; nia.
  - intros Hs Hne. exists (Z.to_nat ((deadline - start) / tick) + 1)%nat.
    apply (reports_spec _ _ _ _ _ Ht Hb). fold deadline. unfold at_.
    pose proof (Z.div_mod (deadline - start) tick ltac:(lia)).
    pose proof (Z.mod_pos_bound (deadline - start) tick ltac:(lia)).
    assert (0 <= (deadline - start) / tick)%Z by (apply Z.div_pos; lia).
    assert ((deadline - start) mod tick <> 0)%Z.
    { intros Hz. apply (Hne (Z.to_nat ((deadline - start) / tick))). unfold at_. lia. }
    lia.
Qed.

(** ** Letting a binding go *)

(** A binding is let go only on evidence that no guest is being left
    behind: nobody wants the VM running, and the guest was last seen stopped or
    failed, or its phase is Unknown while its holder reported within the
    heartbeat timeout.  Everything else is refused. *)
Theorem release_needs_evidence fmt strategy phase holder nm heard now :
  (stopped_enough strategy phase = true /\ unknown_needs_its_holder fmt phase holder nm heard now = None) <->
  strategy = RunStrategy.Stopped /\
  (phase = VmPhaseKind.Stopped \/ phase = VmPhaseKind.Failed
   \/ phase = VmPhaseKind.Unknown /\ exists t, heard = Some t /\ (now < plus_seconds t 31)%Z).
Proof.
  unfold stopped_enough, unknown_needs_its_holder, expired. split.
  - intros [[Hs Hp]%andb_prop Hu]. apply bool_decide_eq_true in Hs. split; [done|].
    destruct phase; try done; auto. right. right. split; [done|]. simpl in Hu.
    destruct heard as [t|]; [|done]. exists t. split; [done|].
    destruct (Z.ltb_spec HEARTBEAT_TIMEOUT_SECS (num_seconds_since now t)) as [|Hle]; [done|].
    apply Z.nlt_ge in Hle. rewrite num_seconds_gt in Hle by done. unfold HEARTBEAT_TIMEOUT_SECS, plus_seconds in *. lia.
  - intros [-> [->|[->|[-> (t & -> & Hlt)]]]]; try done. split; [done|]. simpl.
    destruct (Z.ltb_spec HEARTBEAT_TIMEOUT_SECS (num_seconds_since now t)) as [Hgt|]; [|done].
    rewrite num_seconds_gt in Hgt by done. unfold HEARTBEAT_TIMEOUT_SECS, plus_seconds in *. lia.
Qed.

(** * Witnesses *)

Definition failed_vm : Vm :=
  let v := new_vm "web" "u-1" 0%Z
    {| VmSpec.node_name := Some "n1"; VmSpec.cluster_name := None;
       VmSpec.run_strategy := RunStrategy.Running; VmSpec.evacuation := Evacuation.Never;
       VmSpec.tenant := None; VmSpec.class_ := ""; VmSpec.cluster_selector := [];
       VmSpec.node_selector := []; VmSpec.anti_affinity := []; VmSpec.vm := Json.Null |} in
  with_status v (Retry.set 1 (Some 0%Z)
    (VmStatus.set_phase (status v) (phase_new VmPhaseKind.Failed VmReason.Refused None 0%Z))).


Definition pending_standing : standing :=
  {| word := "Pending"; terminal := false; reason := "Unplaced"; since := 0%Z |}.

Lemma crossing_recorded_once_witness :
  exists k, reports (about_vm failed_vm) pending_standing (from_secs 10 + Z.of_nat k * from_secs 60)%Z
              (from_secs 60) = true.
Proof.
  apply (crossing_recorded_once (about_vm failed_vm) pending_standing STUCK_AFTER_PENDING (from_secs 60)
           (from_secs 10)); [reflexivity|reflexivity|done|done|].
  intros k. unfold from_secs, STUCK_AFTER_PENDING, from_secs. simpl. lia.
Defined.
