(* ===== verification/Dispatch.v ===== *)
(** Commands to nodes, from any replica:
    [src/components/cluster-controller/src/dispatch.rs], the refusals of
    [src/shared/controller-api/src/command.rs] and the one sibling hop of
    [forward.rs].  Also the state and the effects of a reconcile pass: the store,
    the commands handed to sessions and siblings so far, the pass's candidates,
    its tally of reasons and its memo of what was said.

    Sessions, siblings and the JSON of a refusal are outside: what a peer answers
    is a parameter, a function of everything it was sent before. *)
From Stdlib Require Import Ascii String NArith ZArith List Bool Lia.
From stdpp Require Import base list strings relations.
From S2P Require Import Prelude RustStr Json Vm Node Placement Diagnosis Lifecycle Quota Gateways.
From S2P Require Import Phase Objects Store Growth.

(** * Refusals and failures *)

Definition CANNOT_SERVE : string := "CannotServe".
Definition CANNOT_SEND : string := "CannotSend".

(** [controller_api::Refusal]. *)
Module NodeRefusal.
Record t := { message : string; reason : string }.

Definition plain (message : string) : t := {| message := message; reason := "" |}.
End NodeRefusal.

(** [anyhow::Error]: what [{:#}] prints, and the outermost refusal of its chain. *)
Module Failure.
Record t := { text : string; refusal : option NodeRefusal.t }.

Definition msg (text : string) : t := {| text := text; refusal := None |}.

Definition of_refusal (r : NodeRefusal.t) : t :=
  {| text := NodeRefusal.message r; refusal := Some r |}.

Definition context (c : string) (e : t) : t :=
  {| text := c +:+ ": " +:+ text e; refusal := refusal e |}.

Definition of_store (e : StoreError.t) : t := msg (store_error_text e).
End Failure.

(** [Refusal::saying], [Refusal::reason_of]. *)
Definition saying (e : Failure.t) (reason : string) : option NodeRefusal.t :=
  match Failure.refusal e with
  | Some r => if String.eqb (NodeRefusal.reason r) reason then Some r else None
  | None => None
  end.

Definition reason_of (e : Failure.t) : string :=
  match Failure.refusal e with Some r => NodeRefusal.reason r | None => "" end.

(** * Commands *)

(** [command::Op], as far as these passes send it. *)
Module Op.
Inductive t :=
| Create (id spec_json : string)
| Destroy (id : string)
| Start (id : string)
| Stop (id : string) (grace_secs : option N)
| Pause (id : string)
| Resume (id : string)
| PrepareMigration (id spec_json listen migration_id : string)
| MigrateOut (id peer migration_id : string)
| CleanupMigration (id migration_id : string) (source : bool)
| ProvisionVolume (id spec_json from_snapshot : string)
| ForgetVolume (id : string)
| EnsureRouter (r : EnsureRouter.t)
| DestroyRouter (id : string)
| DropImage (name uid : string)
| DeprovisionVolume (id : string)
| ResizeVolume (id : string) (size_bytes : N)
| ResizeAttachment (vm volume_id : string) (size_bytes : N)
| SnapshotVolume (id snapshot_id : string)
| DropSnapshot (snapshot_id : string).
End Op.

Module NodeCommand.
Inductive t :=
| PrepareMigration (id spec_json migration_id : string)
| MigrateOut (id peer migration_id : string)
| CleanupMigration (id migration_id : string) (source : bool)
| Destroy (id : string)
| ProvisionVolume (id spec_json : string)
| EnsureRouter (r : EnsureRouter.t)
| DestroyRouter (id : string)
| ForgetVolume (id : string)
| DropImage (name uid : string).

Definition into_op (c : t) : Op.t :=
  match c with
  | PrepareMigration id spec_json migration_id => Op.PrepareMigration id spec_json "" migration_id
  | MigrateOut id peer migration_id => Op.MigrateOut id peer migration_id
  | CleanupMigration id migration_id source => Op.CleanupMigration id migration_id source
  | Destroy id => Op.Destroy id
  | ProvisionVolume id spec_json => Op.ProvisionVolume id spec_json ""
  | EnsureRouter r => Op.EnsureRouter r
  | DestroyRouter id => Op.DestroyRouter id
  | ForgetVolume id => Op.ForgetVolume id
  | DropImage name uid => Op.DropImage name uid
  end.
End NodeCommand.

(** * Who holds a session *)

Module Holder.
Inductive t := Here | Sibling (endpoint : string) | Nowhere (why : string).
End Holder.

Definition decide_holder (peer tier : string) (has_session : bool) (session_endpoint : option string)
    (forwarded : bool) : Holder.t :=
  if has_session then Holder.Here
  else if forwarded then
    Holder.Nowhere ("the replica this request was forwarded to does not hold the " +:+ peer
                    +:+ "'s session either; the " +:+ peer +:+ " has moved, try again")
  else match session_endpoint with
       | Some endpoint =>
           if negb (str_is_empty endpoint) then Holder.Sibling endpoint
           else Holder.Nowhere ("no replica of this " +:+ tier +:+ " is holding this " +:+ peer
                  +:+ "'s session, or the one that is could not say where to reach it (advertise_api)")
       | None =>
           Holder.Nowhere ("no replica of this " +:+ tier +:+ " is holding this " +:+ peer
             +:+ "'s session, or the one that is could not say where to reach it (advertise_api)")
       end.

Definition TYPED_REFUSALS : list string := [CANNOT_SERVE; CANNOT_SEND].

Definition typed_refusal (e : Failure.t) : option (string * NodeRefusal.t) :=
  refusal ← Failure.refusal e;
  word ← List.find (fun w => String.eqb w (NodeRefusal.reason refusal)) TYPED_REFUSALS;
  Some (word, refusal).

(** A session's answer: [Ack], or no answer at all. *)
Module Answer.
Inductive t := Acked (payload : string) | Rejected (r : NodeRefusal.t) | NoAnswer (why : string).
End Answer.

(** What [send_command] makes of it. *)
Definition heard (node : string) (a : Answer.t) : result Failure.t string :=
  match a with
  | Answer.Acked payload => Ok payload
  | Answer.Rejected r =>
      Err (Failure.context ("agent " +:+ node +:+ " rejected command") (Failure.of_refusal r))
  | Answer.NoAnswer why => Err (Failure.msg why)
  end.

(** [serde_json] on this API's refusals, the text of a status code, and
    [String::from_utf8_lossy] with [trim]. *)
Class StatusJson := {
  write_status : ApiError.t -> string;
  read_status : string -> option (string * string);
  status_text : N -> string;
  lossy_trim : string -> string;
}.

Class StatusJsonLaws `{!StatusJson} : Prop := {
  read_write_status : forall e, read_status (write_status e) = Some (ApiError.message e, ApiError.reason e);
}.

Section refusals.
Context `{!StatusJson}.

Definition refusal_in (body : string) : NodeRefusal.t :=
  match read_status body with
  | Some (message, reason) => {| NodeRefusal.message := message; NodeRefusal.reason := reason |}
  | None => NodeRefusal.plain (lossy_trim body)
  end.

Definition is_success (status : N) : bool := ((200 <=? status) && (status <=? 299))%N.

(** The tail of [deliver] on the sibling's answer. *)
Definition heard_from_sibling (endpoint : string) (answer : result Failure.t (N * string))
    : result Failure.t string :=
  match answer with
  | Err e => Err e
  | Ok (status, body) =>
      if negb (is_success status) then
        let refusal := refusal_in body in
        let line := "the replica at " +:+ endpoint +:+ " answered " +:+ status_text status in
        if str_in (NodeRefusal.reason refusal) TYPED_REFUSALS
        then Err (Failure.context line (Failure.of_refusal refusal))
        else Err (Failure.msg (line +:+ ": " +:+ NodeRefusal.message refusal))
      else Ok body
  end.

Definition FORWARDED : string := "x-meister-forwarded".

(** [serve_forwarded]; [ask] is the command on this replica's own session. *)
Definition serve_forwarded (node : string) (forwarded here : bool) (ask : result Failure.t string)
    : result ApiError.t string :=
  if negb forwarded then
    Err (ApiError.new 400 "BadRequest"
           ("this route is how one replica of this cluster asks another to reach node " +:+ node
            +:+ "; a request that is not a forward (" +:+ FORWARDED +:+ ") has no business here"))
  else match decide_holder "node" "cluster" here None true with
       | Holder.Here =>
           match ask with
           | Ok payload => Ok payload
           | Err e =>
               match typed_refusal e with
               | Some (word, refusal) => Err (ApiError.new 409 word (NodeRefusal.message refusal))
               | None => Err (ApiError.new 503 "Unavailable" (Failure.text e))
               end
           end
       (* a forwarded request never forwards again *)
       | Holder.Sibling _ => Err (ApiError.new 503 "Unavailable" "")
       | Holder.Nowhere why => Err (ApiError.new 503 "Unavailable" why)
       end.

(** What the route of a sibling's edge ([api/nodes.rs]) writes back. *)
Definition served (r : result ApiError.t string) : N * string :=
  match r with
  | Ok payload => ((if str_is_empty payload then 204 else 200)%N, payload)
  | Err e => (ApiError.status e, write_status e)
  end.
End refusals.

(** * A reconcile pass *)

(** A lifecycle command as it went down: [told.rs]. *)
Module LifecycleSaid.
Record t := { node : string; action : Lifecycle.t; generation : N }.
End LifecycleSaid.

#[export] Instance LifecycleSaid_eq_dec : EqDecision LifecycleSaid.t.
Proof. solve_decision. Defined.

(** A command handed to a session, or to the sibling that holds one. *)
Definition sent_log : Type := list (string * Op.t).

Record pass (D : Type) := Pass {
  p_store : world D;
  p_sent : sent_log;
  p_nodes : list Candidate.t;
  p_noted : list PendingReason.t;
  p_told : Memo.t LifecycleSaid.t;
}.
Arguments Pass {D} _ _ _ _ _.
Arguments p_store {D} _.
Arguments p_sent {D} _.
Arguments p_nodes {D} _.
Arguments p_noted {D} _.
Arguments p_told {D} _.

Definition set_store {D} (p : pass D) (w : world D) : pass D :=
  Pass w (p_sent p) (p_nodes p) (p_noted p) (p_told p).
Definition set_sent {D} (p : pass D) (l : sent_log) : pass D :=
  Pass (p_store p) l (p_nodes p) (p_noted p) (p_told p).
Definition set_nodes {D} (p : pass D) (l : list Candidate.t) : pass D :=
  Pass (p_store p) (p_sent p) l (p_noted p) (p_told p).
Definition set_told {D} (p : pass D) (m : Memo.t LifecycleSaid.t) : pass D :=
  Pass (p_store p) (p_sent p) (p_nodes p) (p_noted p) m.

Definition pass_m (D A : Type) : Type := pass D -> pass D * result Failure.t A.

#[export] Instance pass_ret {D} : MRet (pass_m D) := fun _ a p => (p, Ok a).
#[export] Instance pass_bind {D} : MBind (pass_m D) := fun _ _ k m p =>
  match m p with (p', Ok a) => k a p' | (p', Err e) => (p', Err e) end.

Definition ok {D A} (a : A) : pass_m D A := fun p => (p, Ok a).

Definition bail {D A} (text : string) : pass_m D A := fun p => (p, Err (Failure.msg text)).

(** A call whose store error is looked at. *)
Definition try_store {D A} (m : store_m D A) : pass_m D (result StoreError.t A) := fun p =>
  let (w, r) := m (p_store p) in (set_store p w, Ok r).

(** [call().await?]. *)
Definition st {D A} (m : store_m D A) : pass_m D A := fun p =>
  let (w, r) := m (p_store p) in
  (set_store p w, match r with Ok a => Ok a | Err e => Err (Failure.of_store e) end).

(** A call whose failure is looked at. *)
Definition attempt {D A} (m : pass_m D A) : pass_m D (result Failure.t A) := fun p =>
  let (p', r) := m p in (p', Ok r).

Definition raise {D A} (e : Failure.t) : pass_m D A := fun p => (p, Err e).

(** [p.pending.note]. *)
Definition note_reason {D} (r : PendingReason.t) : pass_m D unit := fun p =>
  (Pass (p_store p) (p_sent p) (p_nodes p) (p_noted p ++ [r]) (p_told p), Ok tt).

(** The sessions of this replica, what a node answers, and the sibling hop. *)
Record peers := Peers {
  connected : sent_log -> list string;
  session : sent_log -> string -> Op.t -> Answer.t;
  relay : sent_log -> string -> string -> NodeCommand.t -> result Failure.t (N * string);
}.

Section sending.
Context {D Bytes : Type} `{!Etcd D Bytes, !RawJson Bytes, !StatusJson}.
Context `{!Resource NodeSpec.t NodeStatus.t, !Serde Bytes NodeSpec.t NodeStatus.t}.
Variable prefix : string.
Variable sur : surroundings D.
Variable net : peers.

Definition send_command (node : string) (op : Op.t) : pass_m D string := fun p =>
  if str_in node (connected net (p_sent p)) then
    let p' := set_sent p (p_sent p ++ [(node, op)]) in
    (p', heard node (session net (p_sent p) node op))
  else (p, Err (Failure.msg ("node " +:+ node +:+ " has no active session"))).

Definition deliver (node : string) (cmd : NodeCommand.t) (here : bool) (endpoint : option string)
    : pass_m D string := fun p =>
  match decide_holder "node" "cluster" here endpoint false with
  | Holder.Here => send_command node (NodeCommand.into_op cmd) p
  | Holder.Sibling endpoint =>
      let p' := set_sent p (p_sent p ++ [(node, NodeCommand.into_op cmd)]) in
      (p', heard_from_sibling endpoint (relay net (p_sent p) endpoint node cmd))
  | Holder.Nowhere why => (p, Err (Failure.msg why))
  end.

(** [Dispatch::send]. *)
Definition dispatch_send (node : string) (cmd : NodeCommand.t) : pass_m D string := fun p =>
  if str_in node (connected net (p_sent p)) then deliver node cmd true None p
  else
    (r ← try_store (get (Sp := NodeSpec.t) (St := NodeStatus.t) prefix sur node);
     match r with
     | Ok n => deliver node cmd false (NodeStatus.session_endpoint (status n))
     | Err (StoreError.NotFound _) => deliver node cmd false None
     | Err e => raise (Failure.of_store e)
     end) p.
End sending.

(** * Lemmas *)

Lemma pass_bind_ok {D A B} (m : pass_m D A) (k : A -> pass_m D B) p p' b :
  (m ≫= k) p = (p', Ok b) -> exists p1 a, m p = (p1, Ok a) /\ k a p1 = (p', Ok b).
Proof. unfold mbind, pass_bind. destruct (m p) as [p1 [a|e]]; [|done]. eauto. Qed.

(** What a run of a bind did, successful or not. *)
Lemma pass_bind_run {D A B} (m : pass_m D A) (k : A -> pass_m D B) p p' r :
  (m ≫= k) p = (p', r) ->
  exists p1 a, m p = (p1, a)
    /\ match a with Ok x => k x p1 = (p', r) | Err e => p1 = p' /\ r = Err e end.
Proof.
  unfold mbind, pass_bind. destruct (m p) as [p1 [a|e]]; intros H; eexists _, _; (split; [done|]); [done|].
  by injection H as <- <-.
Qed.

(** ** Refusals across the hop *)

Lemma typed_refusal_spec e w r :
  typed_refusal e = Some (w, r) <-> Failure.refusal e = Some r /\ w = NodeRefusal.reason r /\ In w TYPED_REFUSALS.
Proof.
  unfold typed_refusal. destruct (Failure.refusal e) as [r'|]; cbn [mbind option_bind]; [|split; [done|by intros (? & _)]].
  destruct (List.find _ TYPED_REFUSALS) as [w'|] eqn:F; cbn [mbind option_bind].
  - apply find_some in F as [Hin E%String.eqb_eq]. split.
    + intros [= <- <-]. auto.
    + intros ([= ->] & -> & _). by rewrite E.
  - split; [done|]. intros ([= ->] & -> & Hin).
    apply (find_none _ _ F) in Hin. by rewrite String.eqb_refl in Hin.
Qed.

(** What a caller acts on: the payload, or the node's typed refusal. *)
Definition acted_on (r : result Failure.t string) : result (option NodeRefusal.t) string :=
  match r with
  | Ok payload => Ok payload
  | Err e => Err (match typed_refusal e with Some (_, refusal) => Some refusal | None => None end)
  end.

Section hop.
Context `{!StatusJson, !StatusJsonLaws}.

Lemma served_failure endpoint node e :
  acted_on (heard_from_sibling endpoint (Ok (served (serve_forwarded node true true (Err e)))))
  = acted_on (Err e).
Proof.
  unfold serve_forwarded. cbn [decide_holder negb]. cbv iota.
  destruct (typed_refusal e) as [[w r]|] eqn:E; unfold acted_on at 2; rewrite E.
  - apply typed_refusal_spec in E as (_ & -> & Hin). unfold heard_from_sibling, served, refusal_in.
    rewrite read_write_status. simpl.
    pose proof (proj2 (str_in_spec _ _) Hin) as Hs. simpl in Hs. rewrite Hs. unfold acted_on.
    rewrite (proj2 (typed_refusal_spec _ (NodeRefusal.reason r) r)); [done|].
    split_and!; [by destruct r|done|done].
  - unfold heard_from_sibling, served, refusal_in. rewrite read_write_status. done.
Qed.

(** One hop changes nothing a caller acts on.  A command forwarded to the
    sibling that holds the node's session comes back with the payload the node
    acknowledged, or with the node's own typed refusal (CannotServe, CannotSend)
    word for word, exactly as on a local session; a refusal without such a word,
    a missing answer, a session that moved and a request that is not a forward
    never come back as a typed one. *)
Theorem forward_preserves_answers endpoint node a :
  acted_on (heard_from_sibling endpoint (Ok (served (serve_forwarded node true true (heard node a)))))
  = acted_on (heard node a)
  /\ (forall forwarded ask, forwarded = false \/ ask = false ->
      acted_on (heard_from_sibling endpoint (Ok (served (serve_forwarded node forwarded ask (heard node a)))))
      = Err None).
Proof.
  split.
  - destruct a as [payload|r|why]; [|apply served_failure..].
    simpl. unfold served, heard_from_sibling. by destruct (str_is_empty payload).
  - intros forwarded here Hor. unfold serve_forwarded.
    destruct forwarded; simpl; [|unfold heard_from_sibling, served, refusal_in; simpl; by rewrite read_write_status].
    destruct here; [by destruct Hor|]. simpl.
    unfold heard_from_sibling, served, refusal_in. simpl. by rewrite read_write_status.
Qed.
End hop.

(** ** Commands of a pass *)

Section sent.
Context {D Bytes : Type} `{!Etcd D Bytes, !RawJson Bytes, !StatusJson}.
Context `{!Resource NodeSpec.t NodeStatus.t, !Serde Bytes NodeSpec.t NodeStatus.t}.
Context (prefix : string) (sur : surroundings D) (net : peers).

(** A command that came back acknowledged or not was handed over at most once,
    and a command that was acknowledged was handed over. *)
Lemma send_command_sent node op p p' r :
  send_command (D := D) net node op p = (p', r) ->
  p_store p' = p_store p /\ p_nodes p' = p_nodes p /\ p_told p' = p_told p
  /\ (p_sent p' = p_sent p ++ [(node, op)] \/ (p_sent p' = p_sent p /\ exists e, r = Err e)).
Proof.
  unfold send_command. destruct (str_in _ _); intros Hrun; injection Hrun as <- <-; simpl.
  - split_and!; try done. by left.
  - split_and!; try done. right. eauto.
Qed.

Lemma deliver_sent node cmd here endpoint p p' r :
  deliver (D := D) net node cmd here endpoint p = (p', r) ->
  p_store p' = p_store p /\ p_nodes p' = p_nodes p /\ p_told p' = p_told p
  /\ (p_sent p' = p_sent p ++ [(node, NodeCommand.into_op cmd)]
      \/ (p_sent p' = p_sent p /\ exists e, r = Err e)).
Proof.
  unfold deliver. destruct (decide_holder _ _ _ _ _).
  - apply send_command_sent.
  - intros Hrun. injection Hrun as <- <-. simpl. split_and!; try done. by left.
  - intros Hrun. injection Hrun as <- <-. split_and!; try done. right. eauto.
Qed.

Lemma dispatch_send_sent node cmd p p' r :
  dispatch_send prefix sur net node cmd p = (p', r) ->
  p_sent p' = p_sent p ++ [(node, NodeCommand.into_op cmd)]
  \/ (p_sent p' = p_sent p /\ exists e, r = Err e).
Proof.
  unfold dispatch_send. destruct (str_in _ _).
  { intros Hrun. by apply deliver_sent in Hrun as (_ & _ & _ & ?). }
  unfold mbind, pass_bind, try_store. destruct (get _ _ _ _) as [w [n|e]].
  - intros Hrun. by apply deliver_sent in Hrun as (_ & _ & _ & ?).
  - destruct e; intros Hrun; injection Hrun as <- <-; right; eauto.
Qed.
End sent.

(** ** What a computation sends *)

(** From a database later than [s0] on, the computation moves the database along
    its history, and every command it hands over satisfies [P] of the database
    at that moment. *)
Definition emits {D Bytes A} `{!Etcd D Bytes} (s0 : D) (P : D -> string * Op.t -> Prop) (m : pass_m D A) : Prop :=
  forall p p' r, evolves s0 (db (p_store p)) -> m p = (p', r) ->
    evolves (db (p_store p)) (db (p_store p'))
    /\ exists new, p_sent p' = p_sent p ++ map snd new
       /\ Forall (fun x => evolves (db (p_store p)) x.1 /\ evolves x.1 (db (p_store p')) /\ P x.1 x.2) new.

Section emits.
Context {D Bytes : Type} `{!Etcd D Bytes}.
Implicit Types (P : D -> string * Op.t -> Prop) (s : D).

Lemma emits_silent {A} s P (m : pass_m D A) :
  (forall p p' r, m p = (p', r) -> evolves (db (p_store p)) (db (p_store p')) /\ p_sent p' = p_sent p) -> emits s P m.
Proof. intros H p p' r _ [Hd Hs]%H. split; [done|]. exists []. by rewrite app_nil_r. Qed.

Lemma emits_ok {A} s P (a : A) : emits s P (ok a).
Proof. apply emits_silent. intros p p' r [= <- <-]. by split; [apply rtc_refl|]. Qed.

Lemma emits_raise {A} s P e : emits s P (raise (A := A) e).
Proof. apply emits_silent. intros p p' r [= <- <-]. by split; [apply rtc_refl|]. Qed.

Lemma emits_bail {A} s P e : emits s P (bail (A := A) e).
Proof. apply emits_silent. intros p p' r [= <- <-]. by split; [apply rtc_refl|]. Qed.

Lemma emits_note s P r : emits s P (note_reason r).
Proof. apply emits_silent. intros p p' x [= <- <-]. by split; [apply rtc_refl|]. Qed.

Lemma emits_st {A} s P (m : store_m D A) : grows m -> emits s P (st m).
Proof.
  intros Hm. apply emits_silent. intros p p' r. unfold st. destruct (m (p_store p)) as [w x] eqn:E.
  intros [= <- <-]. apply Hm in E. by split.
Qed.

Lemma emits_store {A} s P (m : store_m D A) : grows m -> emits s P (try_store m).
Proof.
  intros Hm. apply emits_silent. intros p p' r. unfold try_store. destruct (m (p_store p)) as [w x] eqn:E.
  intros [= <- <-]. apply Hm in E. by split.
Qed.

Lemma emits_attempt {A} s P (m : pass_m D A) : emits s P m -> emits s P (attempt m).
Proof.
  intros Hm p p' r Hs. unfold attempt. destruct (m p) as [p1 x] eqn:E. intros [= <- <-]. by apply Hm in E.
Qed.

Lemma emits_later {A} s s' P (m : pass_m D A) : evolves s s' -> emits s P m -> emits s' P m.
Proof. intros Hs Hm p p' r Hp. apply Hm. by etrans. Qed.

Lemma emits_reading {A} s P Q (m : pass_m D A) :
  (forall s' c, evolves s s' -> P s' c -> Q s' c) -> emits s P m -> emits s Q m.
Proof.
  intros HPQ Hm p p' r Hs Hr. destruct (Hm p p' r Hs Hr) as (Hg & new & Hn & Hf). split; [done|].
  exists new. split; [done|]. eapply Forall_impl; [exact Hf|]. intros x (? & ? & ?).
  split_and!; [done..|]. apply HPQ; [by etrans|done].
Qed.

(** The continuation starts where the first part ended. *)
Lemma emits_bind {A B} s P (m : pass_m D A) (k : A -> pass_m D B) :
  emits s P m ->
  (forall p p' a, evolves s (db (p_store p)) -> m p = (p', Ok a) -> emits (db (p_store p')) P (k a)) ->
  emits s P (m ≫= k).
Proof.
  intros Hm Hk p p' r Hs (p1 & [a|e] & H1 & H2)%pass_bind_run.
  - destruct (Hm _ _ _ Hs H1) as (E1 & n1 & S1 & F1).
    destruct (Hk _ _ _ Hs H1 _ _ _ (rtc_refl _ _) H2) as (E2 & n2 & S2 & F2).
    split; [by etrans|]. exists (n1 ++ n2). rewrite S2, S1, map_app, app_assoc. split; [done|].
    apply Forall_app. split.
    + eapply Forall_impl; [exact F1|]. intros x (? & ? & ?). split_and!; [done|by etrans|done].
    + eapply Forall_impl; [exact F2|]. intros x (? & ? & ?). split_and!; [by etrans|done|done].
  - destruct H2 as [<- ->]. by apply Hm in H1.
Qed.

(** What was done before does not matter to the rest. *)
Lemma emits_seq {A B} s P (m : pass_m D A) (k : A -> pass_m D B) :
  emits s P m -> (forall a, emits s P (k a)) -> emits s P (m ≫= k).
Proof.
  intros Hm Hk. apply emits_bind; [done|]. intros p p' a Hs Hr. eapply emits_later; [|apply Hk].
  destruct (Hm _ _ _ Hs Hr) as [? _]. by etrans.
Qed.

(** A write and what it answered. *)
Lemma emits_write {A B} s P (m : store_m D A) (k : result StoreError.t A -> pass_m D B) :
  grows m ->
  (forall w w' r, evolves s (db w) -> m w = (w', r) -> emits (db w') P (k r)) ->
  emits s P (try_store m ≫= k).
Proof.
  intros Hm Hk. apply emits_bind; [by apply emits_store|].
  intros p p' r Hs. unfold try_store. destruct (m (p_store p)) as [w x] eqn:E. intros [= <- <-]. by eapply Hk.
Qed.
End emits.

Section emits_send.
Context {D Bytes : Type} `{!Etcd D Bytes, !EtcdLaws D Bytes, !RawJson Bytes, !StatusJson}.
Context `{!Resource NodeSpec.t NodeStatus.t, !Serde Bytes NodeSpec.t NodeStatus.t}.
Context (prefix : string) (sur : surroundings D) (net : peers) (Henv : lawful_env sur).

Lemma emits_dispatch s (P : D -> string * Op.t -> Prop) node cmd :
  (forall s', evolves s s' -> P s' (node, NodeCommand.into_op cmd)) ->
  emits s P (dispatch_send prefix sur net node cmd).
Proof using Henv EtcdLaws0.
  intros HP p p' r Hs Hrun. pose proof (dispatch_send_sent _ _ _ _ _ _ _ _ Hrun) as Hsent.
  assert (Hg : evolves (db (p_store p)) (db (p_store p'))).
  { revert Hrun. unfold dispatch_send. destruct (str_in _ _).
    - intros (-> & _)%deliver_sent. by apply rtc_refl.
    - unfold mbind, pass_bind, try_store. destruct (get _ _ _ _) as [w x] eqn:E.
      apply grows_get in E; [|done]. destruct x as [n|[]]; intros Hrun.
      1: by apply deliver_sent in Hrun as (-> & _).
      all: by injection Hrun as <- <-. }
  split; [done|]. destruct Hsent as [->|[-> _]].
  - exists [(db (p_store p), (node, NodeCommand.into_op cmd))]. simpl. split; [done|].
    constructor; [|done]. split_and!; [by apply rtc_refl|done|by apply HP].
  - exists []. by rewrite app_nil_r.
Qed.

(** A command on this replica's own session. *)
Lemma emits_command s (P : D -> string * Op.t -> Prop) node op :
  (forall s', evolves s s' -> P s' (node, op)) -> emits s P (send_command net node op).
Proof using.
  intros HP p p' r Hs (Hw & _ & _ & Hsent)%send_command_sent. rewrite Hw.
  split; [by apply rtc_refl|]. destruct Hsent as [->|[-> _]].
  - exists [(db (p_store p), (node, op))]. simpl. split; [done|].
    constructor; [|done]. split_and!; [by apply rtc_refl..|by apply HP].
  - exists []. by rewrite app_nil_r.
Qed.
End emits_send.

(** Walks a computation down to its commands; what came before a step is
    forgotten. *)
Ltac emit :=
  lazymatch goal with
  | |- emits _ _ (_ ≫= _) => apply emits_seq; [|intros ?]
  | |- emits _ _ (attempt _) => apply emits_attempt
  | |- emits _ _ (ok _) => apply emits_ok
  | |- emits _ _ (raise _) => apply emits_raise
  | |- emits _ _ (bail _) => apply emits_bail
  | |- emits _ _ (note_reason _) => apply emits_note
  | |- emits _ _ (st _) => apply emits_st; eauto with growth
  | |- emits _ _ (try_store _) => apply emits_store; eauto with growth
  | |- emits _ _ (match ?x with _ => _ end) => destruct x eqn:?
  end.

(** * Witnesses *)

(** A length-prefixed encoding of a refusal. *)
Fixpoint prefix_len (m : string) (rest : string) : string :=
  match m with EmptyString => String "0" rest | String _ m => String "1" (prefix_len m rest) end.

Fixpoint read_len (s : string) : nat * string :=
  match s with
  | EmptyString => (0%nat, EmptyString)
  | String c s =>
      if Ascii.eqb c "1" then let '(n, rest) := read_len s in (S n, rest) else (0%nat, s)
  end.

Fixpoint cut_at (n : nat) (s : string) : string * string :=
  match n, s with
  | S n, String c s => let '(a, b) := cut_at n s in (String c a, b)
  | _, _ => (EmptyString, s)
  end.

Lemma read_prefix_len m rest : read_len (prefix_len m rest) = (String.length m, rest).
Proof. induction m as [|c m IH]; simpl; [done|]. by rewrite IH. Qed.

Lemma cut_at_app m r : cut_at (String.length m) (m +:+ r) = (m, r).
Proof. induction m as [|c m IH]; simpl; [done|]. change (String.append m r) with (m +:+ r). by rewrite IH. Qed.

#[local] Instance framed_status : StatusJson := {
  write_status e := prefix_len (ApiError.message e) (ApiError.message e +:+ ApiError.reason e);
  read_status s := let '(n, rest) := read_len s in Some (cut_at n rest);
  status_text := show_N;
  lossy_trim s := s;
}.

#[local] Instance framed_status_laws : StatusJsonLaws.
Proof. constructor. intros e. simpl. rewrite read_prefix_len. by rewrite cut_at_app. Qed.

Definition refused_send : Answer.t :=
  Answer.Rejected {| NodeRefusal.message := "vm has a device"; NodeRefusal.reason := CANNOT_SEND |}.

Lemma forward_preserves_answers_witness :
  acted_on (heard_from_sibling "10.0.0.9:3001"
    (Ok (served (serve_forwarded "n1" true true (heard "n1" refused_send)))))
  = Err (Some {| NodeRefusal.message := "vm has a device"; NodeRefusal.reason := CANNOT_SEND |}).
Proof.
  rewrite (proj1 (forward_preserves_answers (H0 := framed_status_laws) "10.0.0.9:3001" "n1" refused_send)).
  reflexivity.
Defined.
