(* ===== verification/Namespaces.v ===== *)
(** Imported namespaces: [src/components/cluster-controller/src/reconcile/namespaces.rs].
    A pool lists the namespaces of a storage target; the table on its status says
    which volume holds which.  The table is written by compare-and-swap, so that
    two volumes never open one block device, whichever replica assigns. *)
From Stdlib Require Import Ascii String NArith ZArith List Bool Lia Permutation Sorted.
From stdpp Require Import base list strings gmap relations.
From S2P Require Import Prelude RustStr Json Phase Objects Storage Quota Store StoreSafety.

(** * The pool's document *)

Module Namespace.
Record t := { nqn : string; size_gib : N }.
End Namespace.

Module NamespacePool.
Record t := { namespaces : list Namespace.t; allow_local_claims : bool }.
End NamespacePool.

(** [serde]'s derive on a struct: a map by field name, or a sequence by position. *)
Definition fields (names : list string) (v : value) : option (list (option value)) :=
  match v with
  | Json.Object m => Some (map (fun n => sget n m) names)
  | Array l => if (length l <=? length names)%nat
               then Some (map (fun i => nth_error l i) (seq 0 (length names))) else None
  | _ => None
  end.

(** [#[serde(default)]]. *)
Definition defaulted {A} (d : A) (parse : value -> option A) (v : option value) : option A :=
  match v with Some v => parse v | None => Some d end.

Definition namespace_of (v : value) : option Namespace.t :=
  fs ← fields ["nqn"; "size_gib"] v;
  match fs with
  | [nqn; size] =>
      n ← nqn ≫= as_str;
      s ← defaulted 0%N as_u64 size;
      Some {| Namespace.nqn := n; Namespace.size_gib := s |}
  | _ => None
  end.

(** [serde_json::from_value::<NamespacePool>]. *)
Definition namespace_pool_of (v : value) : option NamespacePool.t :=
  fs ← fields ["namespaces"; "allow_local_claims"] v;
  match fs with
  | [listed; local] =>
      l ← defaulted [] (fun v => vs ← as_array v; mapM namespace_of vs) listed;
      a ← defaulted false as_bool local;
      Some {| NamespacePool.namespaces := l; NamespacePool.allow_local_claims := a |}
  | _ => None
  end.

Definition pool_of (pool : StoragePool) : option NamespacePool.t :=
  params ← StoragePoolSpec.params (spec pool);
  parsed ← namespace_pool_of params;
  if negb (match NamespacePool.namespaces parsed with [] => true | _ => false end)
     && negb (NamespacePool.allow_local_claims parsed) then Some parsed else None.

Definition listed (pool : StoragePool) : list string :=
  match StoragePoolSpec.params (spec pool) with
  | None => []
  | Some params =>
      match namespace_pool_of params with
      | Some p => map Namespace.nqn (NamespacePool.namespaces p)
      | None => []
      end
  end.

(** The nested loop of [already_listed]. *)
Definition already_listed (pool : StoragePool) (existing : list StoragePool) : option (string * string) :=
  let mine := listed pool in
  match mine with
  | [] => None
  | _ =>
      find_map (fun other : StoragePool =>
        if String.eqb (name (metadata other)) (name (metadata pool)) then None
        else match List.find (fun nqn => str_in nqn mine) (listed other) with
             | Some nqn => Some (name (metadata other), nqn)
             | None => None
             end) existing
  end.

(** * Choosing *)

Module Choice.
Inductive t := Held (nqn : string) | Take (nqn : string) | Nothing (why : string).
End Choice.

Definition choose (pool : NamespacePool.t) (claims : smap string) (v : Volume) : Choice.t :=
  let uid := Objects.uid (metadata v) in
  match List.find (fun '(_, held) => String.eqb held uid) claims with
  | Some (nqn, _) => Choice.Held nqn
  | None =>
      let wanted := VolumeSpec.size_gib (spec v) in
      match List.find (fun ns => negb (is_some (sget (Namespace.nqn ns) claims))
                                 && negb (Namespace.size_gib ns <? wanted)%N)
              (NamespacePool.namespaces pool) with
      | Some ns => Choice.Take (Namespace.nqn ns)
      | None =>
          Choice.Nothing
            ("no free namespace in pool " +:+ VolumeSpec.pool (spec v) +:+ " holds " +:+ show_N wanted
             +:+ " GiB; "
             +:+ show_N (N.of_nat (length (List.filter (fun ns => is_some (sget (Namespace.nqn ns) claims))
                                             (NamespacePool.namespaces pool))))
             +:+ " of " +:+ show_N (N.of_nat (length (NamespacePool.namespaces pool))) +:+ " are assigned")
      end
  end.

Definition held_by (pool : StoragePool) (v : Volume) : option string :=
  _ ← pool_of pool;
  match List.find (fun '(_, held) => String.eqb held (Objects.uid (metadata v)))
          (StoragePoolStatus.claims (status pool)) with
  | Some (nqn, _) => Some nqn
  | None => None
  end.

Definition with_claims (p : StoragePool) (claims : smap string) : StoragePool :=
  let s := status p in
  with_status p
    {| StoragePoolStatus.phase := StoragePoolStatus.phase s; StoragePoolStatus.locality := StoragePoolStatus.locality s;
       StoragePoolStatus.nodes := StoragePoolStatus.nodes s; StoragePoolStatus.claims := claims;
       StoragePoolStatus.clusters := StoragePoolStatus.clusters s;
       StoragePoolStatus.disagreement := StoragePoolStatus.disagreement s;
       StoragePoolStatus.pointer_target := StoragePoolStatus.pointer_target s |}.

Definition take_namespace (nqn : string) (v : Volume) (p : StoragePool) : StoragePool :=
  with_claims p (sinsert nqn (Objects.uid (metadata v)) (StoragePoolStatus.claims (status p))).

Definition drop_namespaces (uid : string) (p : StoragePool) : StoragePool :=
  with_claims p (List.filter (fun '(_, held) => negb (String.eqb held uid)) (StoragePoolStatus.claims (status p))).

(** * The table in the store *)

Definition RETRIES : nat := 8.

#[export] Instance storage_pool_resource : Resource StoragePoolSpec.t StoragePoolStatus.t :=
  {| RESOURCE := "storagepools"; NAME_SHAPE := NameShape.DnsLabel;
     settle := fun now (p : StoragePool) =>
       let s := status p in
       with_status p
         {| StoragePoolStatus.phase := stamp (StoragePoolStatus.phase s)
              (settle_storage_pool (name (metadata p)) (spec p) s) now;
            StoragePoolStatus.locality := StoragePoolStatus.locality s;
            StoragePoolStatus.nodes := StoragePoolStatus.nodes s;
            StoragePoolStatus.claims := StoragePoolStatus.claims s;
            StoragePoolStatus.clusters := StoragePoolStatus.clusters s;
            StoragePoolStatus.disagreement := StoragePoolStatus.disagreement s;
            StoragePoolStatus.pointer_target := StoragePoolStatus.pointer_target s |} |}.

Section table.
Context {D Bytes : Type} `{!Etcd D Bytes, !RawJson Bytes}.
Context `{!Serde Bytes StoragePoolSpec.t StoragePoolStatus.t}.
Variable prefix : string.
Variable sur : surroundings D.

Definition too_contended (v : Volume) : string :=
  "pool " +:+ VolumeSpec.pool (spec v)
  +:+ " is being written by so many replicas at once that a namespace could not be assigned in "
  +:+ show_N (N.of_nat RETRIES) +:+ " attempts".

Fixpoint assign_rounds (rounds : nat) (v : Volume) : store_m D (result string (option string)) :=
  match rounds with
  | O => lift (Ok (Err (too_contended v)))
  | S rounds =>
      pool ← get (Sp := StoragePoolSpec.t) (St := StoragePoolStatus.t) prefix sur (VolumeSpec.pool (spec v));
      match pool_of pool with
      | None => lift (Ok (Ok None))
      | Some parsed =>
          match choose parsed (StoragePoolStatus.claims (status pool)) v with
          | Choice.Held nqn => lift (Ok (Ok (Some nqn)))
          | Choice.Nothing why => lift (Ok (Err why))
          | Choice.Take nqn => fun w =>
              match update prefix sur (take_namespace nqn v pool) w with
              | (w', Ok _) => (w', Ok (Ok (Some nqn)))
              | (w', Err (StoreError.Conflict _)) => assign_rounds rounds v w'
              | (w', Err e) => (w', Err e)
              end
          end
      end
  end.

Definition assign (v : Volume) : store_m D (result string (option string)) := assign_rounds RETRIES v.

(** Every outcome is logged and dropped. *)
Definition give_back (v : Volume) : store_m D unit := fun w =>
  ((mutate prefix sur (VolumeSpec.pool (spec v)) (drop_namespaces (Objects.uid (metadata v))) w).1, Ok tt).
End table.

(** * Lemmas *)

(** A table in which a namespace has one holder and a volume one namespace. *)
Definition table_ok (claims : smap string) : Prop :=
  bt_sorted String.compare claims /\ NoDup (map snd claims).

Lemma choose_spec pool claims v :
  match choose pool claims v with
  | Choice.Held nqn => In (nqn, Objects.uid (metadata v)) claims
  | Choice.Take nqn =>
      (forall n, ~ In (n, Objects.uid (metadata v)) claims) /\ sget nqn claims = None
      /\ exists ns, In ns (NamespacePool.namespaces pool) /\ Namespace.nqn ns = nqn
           /\ (VolumeSpec.size_gib (spec v) <= Namespace.size_gib ns)%N
  | Choice.Nothing _ =>
      (forall n, ~ In (n, Objects.uid (metadata v)) claims)
      /\ forall ns, In ns (NamespacePool.namespaces pool) -> sget (Namespace.nqn ns) claims = None ->
           (Namespace.size_gib ns < VolumeSpec.size_gib (spec v))%N
  end.
Proof.
  unfold choose. destruct (List.find _ claims) as [[nqn held]|] eqn:E.
  { apply find_some in E as [Hin ->%String.eqb_eq]. done. }
  assert (Hno : forall n, ~ In (n, Objects.uid (metadata v)) claims).
  { intros n Hn. apply (find_none _ _ E) in Hn. by rewrite String.eqb_refl in Hn. }
  destruct (List.find _ (NamespacePool.namespaces pool)) as [ns|] eqn:F.
  - apply find_some in F as [Hin [Hf Hs]%andb_prop]. split; [done|].
    destruct (sget (Namespace.nqn ns) claims); [done|]. split; [done|]. exists ns.
    apply negb_true_iff, N.ltb_ge in Hs. done.
  - split; [done|]. intros ns Hin Hfree. apply (find_none _ _ F) in Hin.
    rewrite Hfree in Hin. simpl in Hin. by apply negb_false_iff, N.ltb_lt in Hin.
Qed.

Lemma insert_snd (k : string) (u : string) m :
  sget k m = None -> Permutation (map snd (sinsert k u m)) (u :: map snd m).
Proof.
  unfold sget, sinsert. induction m as [|[k' u'] m IH]; simpl; [done|].
  destruct (String.compare k k') eqn:E; simpl; intros Hg; [done|done|].
  rewrite (IH Hg). apply perm_swap.
Qed.

Lemma table_ok_insert k u m :
  table_ok m -> sget k m = None -> (forall n, ~ In (n, u) m) -> table_ok (sinsert k u m).
Proof.
  intros [Hs Hn] Hg Hu. split; [by apply (bt_insert_sorted String.compare)|].
  rewrite (insert_snd k u m Hg). constructor; [|done].
  intros ((n & u') & <- & Hin)%list_elem_of_In%in_map_iff. by apply (Hu n).
Qed.

Lemma filter_sorted {A} (R : A -> A -> Prop) (f : A -> bool) l :
  StronglySorted R l -> StronglySorted R (List.filter f l).
Proof.
  induction 1 as [|a l Hs IH Hall]; simpl; [constructor|]. destruct (f a); [|done].
  constructor; [done|]. rewrite List.Forall_forall in Hall |- *. intros x [Hx _]%filter_In. by apply Hall.
Qed.

Lemma table_ok_drop u m : table_ok m -> table_ok (List.filter (fun '(_, held) => negb (String.eqb held u)) m).
Proof.
  intros [Hs Hn]. split; [by apply filter_sorted|]. clear Hs. revert Hn.
  induction m as [|[k h] m IH]; simpl; [done|]. intros [Hx Hn]%NoDup_cons.
  destruct (String.eqb h u); simpl; [by apply IH|]. constructor; [|by apply IH].
  intros Hin. apply Hx. apply list_elem_of_In, in_map_iff in Hin as (y & <- & Hy%filter_In).
  apply list_elem_of_In, in_map_iff. exists y. by split; [|apply Hy].
Qed.

Section exclusive.
Context {D Bytes : Type} `{!Etcd D Bytes, !EtcdLaws D Bytes, !RawJson Bytes}.
Context `{!Serde Bytes StoragePoolSpec.t StoragePoolStatus.t, !SerdeLaws Bytes StoragePoolSpec.t StoragePoolStatus.t}.
Context (prefix : string) (sur : surroundings D).

#[export] Instance pool_settle_laws : SettleLaws StoragePoolSpec.t StoragePoolStatus.t.
Proof. by split. Qed.

(** The pool as a database holds it. *)
Definition stored_pool (s : D) (nm : string) (pool : StoragePool) : Prop :=
  exists kv, look s (key_of (Sp := StoragePoolSpec.t) (St := StoragePoolStatus.t) prefix nm) = Some kv
    /\ decode (kv_value kv) (mod_revision kv) = Ok pool.

(** C27. A namespace has one volume.  Whenever an assignment comes back with a
    namespace, the volume already held it in the pool's table, or the table that
    was replaced, whatever other replicas wrote before, gave that namespace to
    nobody and the volume nothing, the pool lists it with at least the size asked
    for, and the stored table is that one with the new entry.  A table with one
    holder per namespace and one namespace per volume stays such a table under
    every assignment and every release. *)
Theorem namespaces_exclusive v nqn w w' :
  fair (Sp := StoragePoolSpec.t) (St := StoragePoolStatus.t) prefix sur ->
  filed (Sp := StoragePoolSpec.t) (St := StoragePoolStatus.t) prefix (db w) ->
  assign prefix sur v w = (w', Ok (Ok (Some nqn))) ->
  (exists s pool parsed, stored_pool s (VolumeSpec.pool (spec v)) pool /\ pool_of pool = Some parsed /\
    let claims := StoragePoolStatus.claims (status pool) in
    In (nqn, Objects.uid (metadata v)) claims \/
    (sget nqn claims = None /\ (forall n, ~ In (n, Objects.uid (metadata v)) claims) /\
     (exists ns, In ns (NamespacePool.namespaces parsed) /\ Namespace.nqn ns = nqn
        /\ (VolumeSpec.size_gib (spec v) <= Namespace.size_gib ns)%N) /\
     (exists pool', stored_pool (db w') (VolumeSpec.pool (spec v)) pool'
        /\ StoragePoolStatus.claims (status pool') = sinsert nqn (Objects.uid (metadata v)) claims) /\
     (table_ok claims -> table_ok (sinsert nqn (Objects.uid (metadata v)) claims)))) /\
  (forall pool, table_ok (StoragePoolStatus.claims (status pool)) ->
   table_ok (StoragePoolStatus.claims (status (drop_namespaces (Objects.uid (metadata v)) pool)))).
Proof.
  intros Hfair Hf Hrun. split; [|intros pool; apply table_ok_drop]. revert Hf Hrun. unfold assign. generalize RETRIES as n. intros n. revert w.
  induction n as [|n IH]; intros w Hfiled; [done|]. cbn [assign_rounds].
  intros (w1 & pool & (kv & Hk & -> & Hx)%get_ok & Hrun)%bind_ok.
  assert (Hst : stored_pool (before sur w) (VolumeSpec.pool (spec v)) pool) by (by exists kv).
  assert (Hfb : filed (Sp := StoragePoolSpec.t) (St := StoragePoolStatus.t) prefix (before sur w)) by (by apply Hfair).
  destruct (pool_of pool) as [parsed|] eqn:Ep; [|done].
  pose proof (choose_spec parsed (StoragePoolStatus.claims (status pool)) v) as Hc.
  destruct (choose _ _ _) as [got|got|why] eqn:Ec; [| |done].
  { injection Hrun as <- ->. eexists _, pool, parsed. split_and!; [done..|]. by left. }
  destruct Hc as (Hno & Hfree & Hns).
  destruct (update _ _ _ _) as [w2 u] eqn:Eu.
  pose proof (look_bounds _ _ _ Hk) as [Hpos _].
  assert (Hr : (exists o, u = Ok o) \/ (exists why, u = Err (StoreError.Conflict why))).
  { destruct u as [|[]]; eauto; done. }
  destruct (update_parsed _ _ _ _ _ _ Eu Hr) as [rev Er].
  assert (rev = mod_revision kv) as -> by (eapply decoded_version; [|done..]; lia).
  destruct Hr as [[o ->]|[why ->]].
  - injection Hrun as <- <-.
    destruct (update_ok _ _ _ _ _ _ _ Er ltac:(lia) Eu) as (kv2 & b & Hk2 & Hm & Hb & _ & [Hrev Hw] & Hd).
    cbn [metadata take_namespace with_claims with_status] in Hk2, Hw. rewrite (Hfb _ _ _ Hk Hx) in Hk2, Hw.
    assert (kv = kv2) as <- by (eapply same_revision_same_value; [apply Hfair|done..]).
    eexists _, pool, parsed. split_and!; [exact Hst|done|]. right. split_and!; [done|done|done| |].
    + eexists. split.
      * eexists. split; [rewrite Hw; simpl; by rewrite String.eqb_refl|]. simpl. exact Hd.
      * by rewrite (encode_name _ _ _ _ _ Hb Hd).
    + intros Hok. by apply table_ok_insert.
  - apply (IH w2); [|done].
    rewrite (update_conflict _ _ _ _ _ _ _ Er ltac:(lia) Eu). by apply Hfair.
Qed.
End exclusive.

(** * Witnesses *)

#[local] Instance pool_raw : RawJson StoragePool := {| raw := fun _ => None |}.
#[local] Instance pool_bytes : Serde StoragePool StoragePoolSpec.t StoragePoolStatus.t :=
  {| to_vec := fun o => Ok o; from_slice := fun b => Ok b |}.
#[local] Instance pool_bytes_laws : SerdeLaws StoragePool StoragePoolSpec.t StoragePoolStatus.t.
Proof. split. by intros o b [= <-]. Qed.

Definition listed_namespace (nqn : string) (gib : N) : value :=
  Json.Object [("nqn", Str nqn); ("size_gib", Number (PosInt gib))].

(** A target with a small and a large namespace, the small one taken. *)
Definition fabric : StoragePool :=
  object_new API_VERSION "StoragePool" "fast" "u-p" 0%Z
    {| StoragePoolSpec.driver := "nvmeof-import"; StoragePoolSpec.nodes := [];
       StoragePoolSpec.params := Some (Json.Object
         [("namespaces", Array [listed_namespace "nqn:a" 5; listed_namespace "nqn:b" 20])]);
       StoragePoolSpec.default := false; StoragePoolSpec.quota := []; StoragePoolSpec.cluster := "";
       StoragePoolSpec.clusters := []; StoragePoolSpec.description := "" |}
    {| StoragePoolStatus.phase := phase_default; StoragePoolStatus.locality := None; StoragePoolStatus.nodes := [];
       StoragePoolStatus.claims := [("nqn:a", "u-other")]; StoragePoolStatus.clusters := [];
       StoragePoolStatus.disagreement := None; StoragePoolStatus.pointer_target := None |}.

Definition fabric_store : world (mem StoragePool) :=
  World (mem_commit mem_empty [Put "p/registry/storagepools/fast" fabric NoLease]) 0.

Lemma fabric_filed : filed (Sp := StoragePoolSpec.t) (St := StoragePoolStatus.t) "p" (db fabric_store).
Proof. apply mem_filed. by vm_compute. Qed.

Definition assign_one : world (mem StoragePool) * result StoreError.t (result string (option string)) :=
  assign "p" quiet (volume_of "d1" 10) fabric_store.

Lemma namespaces_exclusive_witness :
  assign_one.2 = Ok (Ok (Some "nqn:b")) /\
  exists s pool, stored_pool (D := mem StoragePool) "p" s "fast" pool.
Proof.
  assert (Hr : assign_one.2 = Ok (Ok (Some "nqn:b"))) by (by vm_compute). split; [exact Hr|].
  destruct (namespaces_exclusive "p" quiet (volume_of "d1" 10) "nqn:b" fabric_store assign_one.1)
    as [(s & pool & _ & Hst & _) _].
  - apply quiet_fair.
  - exact fabric_filed.
  - rewrite (surjective_pairing assign_one) in Hr |- *. simpl in Hr. rewrite <- Hr. apply surjective_pairing.
  - exists s, pool. exact Hst.
Defined.
