(* ===== verification/SpecDocs.v ===== *)
(** The documents a node is sent: the VM's spec with its references resolved
    ([build_spec_json] of [src/components/cluster-controller/src/reconcile/vms.rs])
    and a volume's backend spec ([volume_spec_json] of [reconcile/volumes.rs]).
    The printing of a document is [serde_json]'s; the documents are here. *)
From Stdlib Require Import Ascii String NArith ZArith List Bool Lia.
From stdpp Require Import base list strings gmap relations.
From S2P Require Import Prelude RustStr Json Vm Storage Quota Namespaces.
From S2P Require Import Phase Objects Store StoreSafety.

(** * A VM's document *)

(** One entry of [volumes]: the name of a volume becomes its uid. *)
Definition resolve_entry (refs : smap string) (entry : value) : result string value :=
  match as_object entry with
  | None => Ok entry
  | Some m =>
      match jget entry "volume" ≫= as_str with
      | None => Ok entry
      | Some name =>
          match sget name refs with
          | None => Err ("volume " +:+ name +:+ " could not be resolved to a uid")
          | Some uid => Ok (Json.Object (sinsert "volume" (Str uid) m))
          end
      end
  end.

Fixpoint resolve_entries (refs : smap string) (l : list value) : result string (list value) :=
  match l with
  | [] => Ok []
  | e :: l =>
      match resolve_entry refs e with
      | Err why => Err why
      | Ok e => match resolve_entries refs l with Ok l => Ok (e :: l) | Err why => Err why end
      end
  end.

(** The cloud-init block: a hostname where none was written, and the secret's
    plaintext in place of the reference. *)
Definition resolve_cloud_init (name : string) (seed : option string) (config : smap value) : smap value :=
  let config :=
    if is_some (sget "local_hostname" config) then config
    else sinsert "local_hostname" (Str name) config in
  let removed := sremove "user_data_from" config in
  if is_some (sget "user_data_from" config) then
    match seed with
    | Some plaintext => sinsert "user_data" (Str plaintext) removed
    | None => removed
    end
  else removed.

Definition desired_word (s : RunStrategy.t) : string :=
  match s with
  | RunStrategy.Running => "Running"
  | RunStrategy.Stopped => "Stopped"
  | RunStrategy.Paused => "Paused"
  end.

Definition build_spec_json (v : Vm) (refs : smap string) (seed : option string) : result string value :=
  match as_object (VmSpec.vm (spec v)) with
  | None => Err "spec.vm must be a JSON object"
  | Some obj =>
      let finish obj :=
        let obj := match sget "cloud_init" obj with
                   | Some (Json.Object config) =>
                       sinsert "cloud_init" (Json.Object (resolve_cloud_init (name (metadata v)) seed config)) obj
                   | _ => obj
                   end in
        Ok (Json.Object (sinsert "desired" (Str (desired_word (VmSpec.run_strategy (spec v)))) obj)) in
      match sget "volumes" obj with
      | Some (Array l) =>
          match resolve_entries refs l with
          | Err why => Err why
          | Ok l => finish (sinsert "volumes" (Array l) obj)
          end
      | _ => finish obj
      end
  end.

(** * A volume's document *)

Definition volume_params (namespace : option string) : option value :=
  namespace ← namespace; Some (Json.Object [("namespace", Str namespace)]).

Definition merge_params (pool volume : option value) : option value :=
  match pool, volume with
  | None, None => None
  | Some one, None | None, Some one => Some one
  | Some pool, Some volume =>
      match pool, volume with
      | Json.Object into, Json.Object from =>
          Some (Json.Object (foldl (fun acc '(k, v) => sinsert k v acc) into from))
      | _, _ => Some volume
      end
  end.

Definition u64_max : N := 18446744073709551615.

Definition volume_document (pool : StoragePool) (volume : Volume) : value :=
  let of_option {A} (f : A -> value) (o : option A) := match o with Some a => f a | None => Null end in
  Json.Object
    [("base_image", of_option Str (VolumeSpec.base_image (spec volume)));
     ("driver", Str (StoragePoolSpec.driver (spec pool)));
     ("params", of_option (fun v => v)
        (merge_params (StoragePoolSpec.params (spec pool)) (volume_params (held_by pool volume))));
     ("size_bytes", Number (PosInt (N.min u64_max (VolumeSpec.size_gib (spec volume) * (1024 * 1024 * 1024)))))].

(** * Reading what they need *)

Section reads.
Context {D Bytes : Type} `{!Etcd D Bytes, !RawJson Bytes}.
Context `{!Serde Bytes VolumeSpec.t VolumeStatus.t, !Serde Bytes StoragePoolSpec.t StoragePoolStatus.t}.
Variable prefix : string.
Variable sur : surroundings D.

Fixpoint volume_uids_of (names : list string) (out : smap string) : store_m D (smap string) :=
  match names with
  | [] => lift (Ok out)
  | n :: names =>
      volume ← get (Sp := VolumeSpec.t) (St := VolumeStatus.t) prefix sur n;
      volume_uids_of names (sinsert n (Objects.uid (metadata volume)) out)
  end.

Definition volume_uids (v : Vm) : store_m D (smap string) :=
  volume_uids_of (VmSpec.referenced_volumes (spec v)) [].

Definition volume_spec_json (volume : Volume) : store_m D value :=
  pool ← get (Sp := StoragePoolSpec.t) (St := StoragePoolStatus.t) prefix sur (VolumeSpec.pool (spec volume));
  lift (Ok (volume_document pool volume)).
End reads.

(** * Lemmas *)

Lemma sget_insert_eq {V} k (v : V) m : sget k (sinsert k v m) = Some v.
Proof. apply (bt_get_insert_eq String.compare). Qed.

Lemma sget_insert_ne {V} k k' (v : V) m : k <> k' -> sget k (sinsert k' v m) = sget k m.
Proof. apply (bt_get_insert_ne String.compare). Qed.

Lemma sget_remove_eq {V} k (m : smap V) : bt_sorted String.compare m -> sget k (sremove k m) = None.
Proof. apply (bt_get_remove_eq String.compare). Qed.

Lemma sget_remove_ne {V} k k' (m : smap V) : k <> k' -> sget k (sremove k' m) = sget k m.
Proof. apply (bt_get_remove_ne String.compare). Qed.

(** An entry and what the node reads in its place. *)
Definition resolved (refs : smap string) (e e' : value) : Prop :=
  match jget e "volume" ≫= as_str with
  | Some n => exists uid, sget n refs = Some uid /\ jget e' "volume" = Some (Str uid)
      /\ forall f, f <> "volume" -> jget e' f = jget e f
  | None => e' = e
  end.

Lemma resolve_entry_ok refs e e' : resolve_entry refs e = Ok e' -> resolved refs e e'.
Proof.
  unfold resolve_entry, resolved. destruct e as [| | | | |m]; simpl; try by intros [= <-].
  destruct (sget "volume" m ≫= as_str) as [n|]; [|by intros [= <-]].
  destruct (sget n refs) as [uid|] eqn:E; [|done]. intros [= <-]. exists uid. split; [done|]. simpl.
  split; [apply sget_insert_eq|]. intros f Hf. by apply sget_insert_ne.
Qed.

Lemma resolve_entries_ok refs l l' : resolve_entries refs l = Ok l' -> Forall2 (resolved refs) l l'.
Proof.
  revert l'. induction l as [|e l IH]; simpl; intros l'; [by intros [= <-]|].
  destruct (resolve_entry refs e) as [e'|] eqn:E; [|done].
  destruct (resolve_entries refs l) as [l2|]; [|done]. intros [= <-].
  constructor; [by apply resolve_entry_ok|by apply IH].
Qed.

Lemma resolve_cloud_init_spec nm seed config :
  bt_sorted String.compare config ->
  let out := resolve_cloud_init nm seed config in
  sget "user_data_from" out = None
  /\ (forall p, seed = Some p -> is_some (sget "user_data_from" config) = true -> sget "user_data" out = Some (Str p))
  /\ sget "local_hostname" out = Some (unwrap_or (Str nm) (sget "local_hostname" config))
  /\ (forall f, f <> "user_data_from" -> f <> "user_data" -> f <> "local_hostname" -> sget f out = sget f config).
Proof.
  intros Hs. cbv zeta. unfold resolve_cloud_init.
  set (c := if is_some (sget "local_hostname" config) then config else _).
  assert (Hc : bt_sorted String.compare c /\ sget "local_hostname" c = Some (unwrap_or (Str nm) (sget "local_hostname" config))
    /\ (forall f, f <> "local_hostname" -> sget f c = sget f config)).
  { unfold c. destruct (sget "local_hostname" config) as [h|] eqn:E; simpl; [by rewrite E|].
    split_and!; [by apply (bt_insert_sorted String.compare)|apply sget_insert_eq|].
    intros f Hf. by apply sget_insert_ne. }
  destruct Hc as (Hs' & Hh & Hf). clearbody c. rewrite Hf by done.
  destruct (sget "user_data_from" config) as [u|] eqn:Eu; simpl.
  2:{ split_and!; [by apply sget_remove_eq|done|by rewrite sget_remove_ne|].
      intros f ???. rewrite sget_remove_ne by done. by apply Hf. }
  destruct seed as [p|].
  - split_and!.
    + rewrite sget_insert_ne by done. by apply sget_remove_eq.
    + intros p' [= <-] _. apply sget_insert_eq.
    + rewrite sget_insert_ne, sget_remove_ne by done. done.
    + intros f ???. rewrite sget_insert_ne, sget_remove_ne by done. by apply Hf.
  - split_and!; [by apply sget_remove_eq|done|by rewrite sget_remove_ne|].
    intros f ???. rewrite sget_remove_ne by done. by apply Hf.
Qed.

(** The document a node receives is the tenant's with its references
    resolved and nothing else changed.  It states the run strategy; every disk
    that names a volume carries that volume's uid and otherwise what was
    written, every other disk is untouched; the secret reference never travels,
    its plaintext stands in its place when there is one, a hostname that was
    written stays and one that was not is the VM's name; all other fields are
    the tenant's own. *)
Theorem document_resolved v refs seed doc :
  build_spec_json v refs seed = Ok doc ->
  let before := VmSpec.vm (spec v) in
  jget doc "desired" = Some (Str (RunStrategy.as_str (VmSpec.run_strategy (spec v)))) /\
  (forall f, f <> "desired" -> f <> "volumes" -> f <> "cloud_init" -> jget doc f = jget before f) /\
  (forall l, jget before "volumes" = Some (Array l) ->
     exists l', jget doc "volumes" = Some (Array l') /\ Forall2 (resolved refs) l l') /\
  (forall config, jget before "cloud_init" = Some (Json.Object config) -> bt_sorted String.compare config ->
     exists out, jget doc "cloud_init" = Some (Json.Object out) /\ sget "user_data_from" out = None /\
       (forall p, seed = Some p -> is_some (sget "user_data_from" config) = true -> sget "user_data" out = Some (Str p)) /\
       sget "local_hostname" out = Some (unwrap_or (Str (name (metadata v))) (sget "local_hostname" config)) /\
       (forall f, f <> "user_data_from" -> f <> "user_data" -> f <> "local_hostname" -> sget f out = sget f config)).
Proof.
  unfold build_spec_json. destruct (VmSpec.vm (spec v)) as [| | | | |obj]; cbn [as_object]; try done.
  intros H.
  assert (Hv : exists obj', (forall f, f <> "volumes" -> sget f obj' = sget f obj)
    /\ (forall l, sget "volumes" obj = Some (Array l) ->
          exists l', sget "volumes" obj' = Some (Array l') /\ Forall2 (resolved refs) l l')
    /\ doc = Json.Object (sinsert "desired" (Str (desired_word (VmSpec.run_strategy (spec v))))
         (match sget "cloud_init" obj' with
          | Some (Json.Object config) =>
              sinsert "cloud_init" (Json.Object (resolve_cloud_init (name (metadata v)) seed config)) obj'
          | _ => obj'
          end))).
  { destruct (sget "volumes" obj) as [[| | | |l|]|] eqn:El;
      try (injection H as <-; exists obj; split_and!; [done|naive_solver|done]).
    destruct (resolve_entries refs l) as [l'|] eqn:Er; [|done]. injection H as <-.
    exists (sinsert "volumes" (Array l') obj). split_and!; [|intros l0 [= <-]|done].
    - intros f Hf. by apply sget_insert_ne.
    - exists l'. split; [apply sget_insert_eq|by apply resolve_entries_ok]. }
  clear H. destruct Hv as (obj' & Hf & Hvol & ->). simpl.
  assert (Hci : forall f, f <> "cloud_init" ->
    sget f (match sget "cloud_init" obj' with
            | Some (Json.Object config) =>
                sinsert "cloud_init" (Json.Object (resolve_cloud_init (name (metadata v)) seed config)) obj'
            | _ => obj' end) = sget f obj').
  { intros f Hne. destruct (sget "cloud_init" obj') as [[]|]; try done. by apply sget_insert_ne. }
  split_and!.
  - rewrite sget_insert_eq. by destruct (VmSpec.run_strategy (spec v)).
  - intros f Hd Hv' Hc. rewrite sget_insert_ne, Hci by done. by apply Hf.
  - intros l Hl. rewrite sget_insert_ne, Hci by done. by apply Hvol.
  - intros config Hc Hs. rewrite sget_insert_ne by done. rewrite Hf by done. rewrite Hc.
    exists (resolve_cloud_init (name (metadata v)) seed config).
    split; [apply sget_insert_eq|]. by apply resolve_cloud_init_spec.
Qed.

Section empty_name.
Context {D Bytes : Type} `{!Etcd D Bytes, !RawJson Bytes}.
Context `{!Serde Bytes VolumeSpec.t VolumeStatus.t}.
Context (prefix : string) (sur : surroundings D).

Lemma volume_uids_keys names out w w' refs :
  volume_uids_of prefix sur names out w = (w', Ok refs) -> forall n, ~ In n names -> sget n refs = sget n out.
Proof.
  revert out w. induction names as [|m names IH]; simpl; intros out w.
  { intros [= <- <-]. done. }
  intros (w1 & volume & _ & Hrun)%bind_ok n Hn. rewrite (IH _ _ Hrun) by naive_solver.
  apply sget_insert_ne. naive_solver.
Qed.

(** A disk whose [volume] is the empty string can never be sent.  Every
    reading of the spec takes such an entry for an inline disk, so its name is
    not among the references that are resolved, and the document is refused on
    every dispatch with a message about a volume that vanished. *)
Theorem empty_reference_undeliverable v l e seed w w' refs :
  jget (VmSpec.vm (spec v)) "volumes" = Some (Array l) -> In e l -> jget e "volume" = Some (Str "") ->
  volume_uids prefix sur v w = (w', Ok refs) ->
  VmSpec.refers_to_a_volume e = false /\ ~ In "" (VmSpec.referenced_volumes (spec v)) /\
  exists why, build_spec_json v refs seed = Err why.
Proof.
  intros Hl Hin He Hrefs.
  assert (Hno : ~ In "" (VmSpec.referenced_volumes (spec v))).
  { unfold VmSpec.referenced_volumes. destruct (jget _ _ ≫= as_array); [|by intros []]. by intros [_ ?]%filter_In. }
  split; [by unfold VmSpec.refers_to_a_volume; rewrite He|]. split; [done|].
  assert (Hg : sget "" refs = None) by (by rewrite (volume_uids_keys _ _ _ _ _ Hrefs)).
  unfold build_spec_json. destruct (VmSpec.vm (spec v)) as [| | | | |obj]; cbn [as_object]; try by eexists.
  simpl in Hl. rewrite Hl.
  assert (Hr : exists why, resolve_entries refs l = Err why); [|destruct Hr as [why ->]; by eexists].
  clear Hl. induction l as [|e' l IH]; [done|]. simpl.
  destruct (resolve_entry refs e') as [r|why] eqn:Er; [|by eexists].
  destruct Hin as [->|Hin].
  - exfalso. unfold resolve_entry in Er. destruct e as [| | | | |m]; try done. cbn [as_object] in Er.
    rewrite He in Er. simpl in Er. by rewrite Hg in Er.
  - destruct (IH Hin) as [why ->]. by eexists.
Qed.
End empty_name.

(** * Witnesses *)

#[local] Instance no_raw : RawJson Volume := {| raw := fun _ => None |}.
#[local] Instance volume_bytes : Serde Volume VolumeSpec.t VolumeStatus.t :=
  {| to_vec := fun o => Ok o; from_slice := fun b => Ok b |}.

Definition vm_with (doc : value) : Vm :=
  new_vm "web" "u-1" 0%Z
    {| VmSpec.node_name := None; VmSpec.cluster_name := None; VmSpec.run_strategy := RunStrategy.Running;
       VmSpec.evacuation := Evacuation.Never; VmSpec.tenant := None; VmSpec.class_ := "";
       VmSpec.cluster_selector := []; VmSpec.node_selector := []; VmSpec.anti_affinity := []; VmSpec.vm := doc |}.

Definition seeded_vm : Vm :=
  vm_with (Json.Object
    [("cloud_init", Json.Object [("user_data_from", Json.Object [("key", Str "k"); ("secret", Str "s")])]);
     ("volumes", Array [Json.Object [("size_bytes", Number (PosInt 1))]; Json.Object [("volume", Str "data")]])]).

Lemma document_resolved_witness :
  exists doc l', build_spec_json seeded_vm [("data", "u-9")] (Some "secret!") = Ok doc
    /\ jget doc "volumes" = Some (Array l')
    /\ Forall2 (resolved [("data", "u-9")])
         [Json.Object [("size_bytes", Number (PosInt 1))]; Json.Object [("volume", Str "data")]] l'.
Proof.
  destruct (build_spec_json seeded_vm [("data", "u-9")] (Some "secret!")) as [doc|why] eqn:E; [|discriminate E].
  destruct (document_resolved seeded_vm _ _ doc E) as (_ & _ & Hv & _).
  destruct (Hv _ eq_refl) as (l' & Hl & Hr). exists doc, l'. split; [reflexivity|]. split; [exact Hl|exact Hr].
Defined.

Definition empty_named_vm : Vm :=
  vm_with (Json.Object [("volumes", Array [Json.Object [("size_bytes", Number (PosInt 1)); ("volume", Str "")]])]).

Lemma empty_reference_undeliverable_witness :
  exists why, build_spec_json empty_named_vm [] None = Err why.
Proof.
  refine (proj2 (proj2 (empty_reference_undeliverable (D := mem Volume) "p" quiet empty_named_vm
    [Json.Object [("size_bytes", Number (PosInt 1)); ("volume", Str "")]]
    (Json.Object [("size_bytes", Number (PosInt 1)); ("volume", Str "")]) None
    (World mem_empty 0) (World mem_empty 0) [] _ _ _ _)));
    [reflexivity|by left|reflexivity|reflexivity].
Defined.
