(* ===== verification/MigrationRules.v ===== *)
(** The rules of a live migration, without its store:
    [src/components/cluster-controller/src/migration.rs] (what counts as evidence,
    where a guest may go, what silence permits) and [migration/admission.rs]
    (whether a migration may be asked for). *)
From Stdlib Require Import Ascii String NArith ZArith List Bool Lia.
From stdpp Require Import base list strings.
From S2P Require Import Prelude RustStr Json Capability Phase Objects Heartbeat Vm Node Storage Sizing Placement.
From S2P Require Import Diagnosis Reservation Lifecycle.

Definition migration_kind (m : VmMigration) : VmMigrationPhaseKind.t :=
  ph_kind (VmMigrationStatus.phase (status m)).

#[export] Instance VmMigrationStatus_eq_dec : EqDecision VmMigrationStatus.t.
Proof. solve_decision. Defined.

(** * Deadlines *)

Module Timeouts.
Record t := { prepare : Z; transfer : Z }.

Definition default : t := {| prepare := from_secs 30; transfer := from_secs 120 |}.

Definition with_transfer_secs (secs : option N) : t :=
  match secs with
  | Some s => if (0 <? s)%N then {| prepare := prepare default; transfer := from_secs (Z.of_N s) |} else default
  | None => default
  end.
End Timeouts.

(** [budget.as_secs()] is whole seconds. *)
Definition overdue (m : VmMigration) (budget : Z) (now : instant) : option Z :=
  started ← VmMigrationStatus.started_at (status m);
  let elapsed := num_seconds_since now started in
  if (budget / 1000000000 <? elapsed)%Z then Some elapsed else None.

(** * Attempts *)

Definition phase_for (migrations : list VmMigration) (v : Vm) : option VmMigrationPhaseKind.t :=
  List.find (fun p => second_open_is_a_migration (Some p))
    (map migration_kind
      (List.filter (fun m => String.eqb (VmMigrationSpec.vm (spec m)) (name (metadata v))
                             && same_tenancy (VmMigrationSpec.tenant (spec m)) (VmSpec.tenant (spec v)))
         migrations)).

Definition another_attempt_in_flight (all : list VmMigration) (mine : VmMigration) : bool :=
  existsb (fun m => negb (String.eqb (name (metadata m)) (name (metadata mine)))
                    && String.eqb (VmMigrationSpec.vm (spec m)) (VmMigrationSpec.vm (spec mine))
                    && negb (VmMigrationPhaseKind.is_final (migration_kind m))) all.

(** * Evidence *)

(** [proto::MigrationReport]. *)
Module MigrationReport.
Record t := { vm_id : string; peer : string; outcome : string; message : string; migration_id : string }.
End MigrationReport.

Module Evidence.
Definition set (s : VmMigrationStatus.t) (source message target : option string) : VmMigrationStatus.t :=
  {| VmMigrationStatus.migration_id := VmMigrationStatus.migration_id s;
     VmMigrationStatus.vm_uid := VmMigrationStatus.vm_uid s;
     VmMigrationStatus.recovery_required := VmMigrationStatus.recovery_required s;
     VmMigrationStatus.cancelling := VmMigrationStatus.cancelling s;
     VmMigrationStatus.phase := VmMigrationStatus.phase s;
     VmMigrationStatus.reported := VmMigrationStatus.reported s;
     VmMigrationStatus.observed_generation := VmMigrationStatus.observed_generation s;
     VmMigrationStatus.source_node := VmMigrationStatus.source_node s;
     VmMigrationStatus.target_node := VmMigrationStatus.target_node s;
     VmMigrationStatus.peer := VmMigrationStatus.peer s;
     VmMigrationStatus.started_at := VmMigrationStatus.started_at s;
     VmMigrationStatus.finished_at := VmMigrationStatus.finished_at s;
     VmMigrationStatus.target_reported := target;
     VmMigrationStatus.source_reported := source;
     VmMigrationStatus.source_message := message |}.
End Evidence.

Definition word_in (w : option string) (l : list string) : bool :=
  match w with Some w => str_in w l | None => false end.

(** Whether a report is about this attempt of this VM at all. *)
Definition about_attempt (m : VmMigration) (v : Vm) (line : MigrationReport.t) : bool :=
  negb (VmMigrationStatus.cancelling (status m)
        || negb match migration_kind m with
                | VmMigrationPhaseKind.Preparing | VmMigrationPhaseKind.Running => true
                | _ => false
                end
        || str_is_empty (MigrationReport.migration_id line)
        || negb (bool_decide (VmMigrationStatus.migration_id (status m) = Some (MigrationReport.migration_id line)))
        || negb (bool_decide (VmMigrationStatus.vm_uid (status m) = Some (Objects.uid (metadata v))))
        || negb (String.eqb (MigrationReport.vm_id line) (Objects.uid (metadata v)))
        || negb (String.eqb (VmMigrationSpec.vm (spec m)) (name (metadata v)))
        || negb (same_tenancy (VmMigrationSpec.tenant (spec m)) (VmSpec.tenant (spec v)))).

Definition from_source (m : VmMigration) (node : string) (line : MigrationReport.t) : bool :=
  bool_decide (VmMigrationStatus.source_node (status m) = Some node)
  && bool_decide (migration_kind m = VmMigrationPhaseKind.Running)
  && bool_decide (VmMigrationStatus.peer (status m) = Some (MigrationReport.peer line))
  && str_in (MigrationReport.outcome line) ["Sending"; "Unknown"; "Gone"; "StillHere"]
  && negb (word_in (VmMigrationStatus.source_reported (status m)) ["Gone"; "StillHere"]).

Definition from_target (m : VmMigration) (node : string) (line : MigrationReport.t) : bool :=
  bool_decide (VmMigrationStatus.target_node (status m) = Some node)
  && str_in (MigrationReport.outcome line) ["Receiving"; "Arrived"]
  && negb (bool_decide (VmMigrationStatus.target_reported (status m) = Some "Running")).

(** [apply_report]; [String::is_empty] decides whether a message is kept. *)
Definition apply_report (m : VmMigration) (v : Vm) (node : string) (line : MigrationReport.t) : VmMigration :=
  if negb (about_attempt m v line) then m
  else
    let s := status m in
    let source := from_source m node line in
    let target := from_target m node line in
    with_status m
      (Evidence.set s
         (if source then Some (MigrationReport.outcome line) else VmMigrationStatus.source_reported s)
         (if source then (if str_is_empty (MigrationReport.message line) then None
                          else Some (MigrationReport.message line))
          else VmMigrationStatus.source_message s)
         (if target then Some (if String.eqb (MigrationReport.outcome line) "Arrived" then "Running" else "Provisioning")
          else VmMigrationStatus.target_reported s)).

(** * What the evidence permits *)

Module Verdict.
Inductive t := TearDownTheDestination (why : string) | TouchNothing (why : string).
End Verdict.

Definition still_here (source target : string) (s : VmMigrationStatus.t) : option Verdict.t :=
  if negb (bool_decide (VmMigrationStatus.source_reported s = Some SEND_STILL_HERE)) then None
  else
    let said := unwrap_or (source +:+ " says it still has the guest") (VmMigrationStatus.source_message s) in
    let seen := VmMigrationStatus.target_reported s in
    if match seen with None => true | Some w => String.eqb w "Provisioning" end then
      Some (Verdict.TearDownTheDestination
        ("the transfer did not take and " +:+ source +:+ " is still running the vm: " +:+ said +:+ ". "
         +:+ target +:+ " holds no guest and has been torn down"))
    else
      Some (Verdict.TouchNothing
        (source +:+ " says it still has the guest (" +:+ said +:+ ") while " +:+ target +:+ " last said "
         +:+ unwrap_or "nothing at all" seen
         +:+ " — two machines claim one vm, so nothing here has been torn down; look at both before deleting anything")).

Definition verdict_on_timeout (source target : string) (over : Z) (source_reported target_reported : option string)
    : Verdict.t :=
  let said := unwrap_or "nothing at all" target_reported in
  if bool_decide (source_reported = Some SEND_GONE) then
    Verdict.TouchNothing
      ("the guest had not arrived on " +:+ target +:+ " after " +:+ show_Z over +:+ "s, and " +:+ source
       +:+ " says it let the guest go; the destination last said " +:+ said +:+ ". " +:+ source
       +:+ " is not serving this vm any more, so " +:+ target
       +:+ " may hold the only copy and nothing here has been torn down — look at both before deleting anything")
  else
    Verdict.TouchNothing
      ("the guest had not arrived on " +:+ target +:+ " after " +:+ show_Z over +:+ "s; the destination last said "
       +:+ said +:+ ", so it may hold the guest and nothing here has been torn down — look at " +:+ source
       +:+ " and " +:+ target +:+ " before deleting anything").

(** The guest is at the destination and the source has let it go. *)
Definition arrived (s : VmMigrationStatus.t) : bool :=
  bool_decide (VmMigrationStatus.target_reported s = Some (VmPhaseKind.as_str VmPhaseKind.Running))
  && bool_decide (VmMigrationStatus.source_reported s = Some "Gone").

(** * Where a guest may go *)

Definition reaches (c : Candidate.t) (nodes : list Node) : bool :=
  Candidate.connected c
  || existsb (fun n : Node => String.eqb (name (metadata n)) (Candidate.name c) && NodeStatus.ready (status n)
                              && is_some (NodeStatus.session_endpoint (status n))) nodes.

Definition set_connected (c : Candidate.t) (b : bool) : Candidate.t :=
  {| Candidate.name := Candidate.name c; Candidate.connected := b; Candidate.alive := Candidate.alive c;
     Candidate.schedulable := Candidate.schedulable c; Candidate.unhealthy := Candidate.unhealthy c;
     Candidate.free := Candidate.free c; Candidate.catalogue := Candidate.catalogue c;
     Candidate.kind := Candidate.kind c; Candidate.labels := Candidate.labels c;
     Candidate.accepts := Candidate.accepts c; Candidate.hosted := Candidate.hosted c;
     Candidate.machine := Candidate.machine c |}.

(** Which machines could restore the saved state, and why the others not. *)
Definition machines_that_fit (source : option Candidate.t) (all : list Candidate.t)
    : list Candidate.t * list string :=
  match source with
  | None => (all, [])
  | Some source =>
      match Candidate.machine source with
      | None => (all, [])
      | Some here =>
          let refusal (c : Candidate.t) :=
            there ← Candidate.machine c;
            live_migration_refusal (Candidate.name source) here (Candidate.name c) there in
          (List.filter (fun c => negb (is_some (refusal c))) all, filter_map refusal all)
      end
  end.

Section target.
Variable assign : Vm -> list Candidate.t -> option string.

Definition choose_target (v : Vm) (source : string) (named : option string) (all : list Candidate.t)
    : result string string :=
  let here := List.find (fun c => String.eqb (Candidate.name c) source) all in
  let elsewhere := List.filter (fun c => negb (String.eqb (Candidate.name c) source)) all in
  match named with
  | Some named =>
      match List.find (fun c => String.eqb (Candidate.name c) named) (feasible v elsewhere) with
      | None =>
          Err ("node " +:+ named +:+ " cannot take this vm: it must be connected, schedulable, healthy, running a hypervisor, with room for this vm and the labels it selects, and not the node the vm is already on")
      | Some candidate =>
          let '(fits, refusals) := machines_that_fit here [candidate] in
          match fits with
          | [] => Err (unwrap_or ("node " +:+ named +:+ " cannot take this vm") (head refusals))
          | _ => Ok named
          end
      end
  | None =>
      let '(fits, refusals) := machines_that_fit here elsewhere in
      match fits, refusals with
      | [], why :: _ => Err why
      | _, _ =>
          match assign v fits with
          | Some n => Ok n
          | None => Err ("no other node can take " +:+ name (metadata v) +:+ ": " +:+ (pending_reason_of v fits).2)
          end
      end
  end.
End target.

Definition has_device (v : Vm) : bool :=
  match jget (VmSpec.vm (spec v)) "devices" ≫= as_array with
  | Some d => negb (match d with [] => true | _ => false end)
  | None => false
  end.

Definition device_refusal (v : Vm) : option string :=
  if has_device v then
    Some ("a vm with a passthrough or paravirtual device does not migrate live: the device's state lives in its backend on this host and no live migration carries it; set spec.evacuation = restart on "
          +:+ name (metadata v) +:+ " to move it by reboot")
  else None.

(** * Admission *)

Module MigrationFacts.
Record t := {
  node_local_disk : option string;
  unready_disk : option string;
  targets : list string;
  source_node : string;
  source_machine : option MachineProfile.t;
  machines : smap (option MachineProfile.t);
}.
End MigrationFacts.

Definition inline_disk (doc : value) : option string :=
  volumes ← jget doc "volumes" ≫= as_array;
  match List.find (fun '(_, v) => is_none_or is_null (jget v "volume")) (enumerate volumes) with
  | Some (i, _) => Some ("spec.vm.volumes[" +:+ show_N (N.of_nat i) +:+ "]")
  | None => None
  end.

Definition migration_refusal (v : Vm) (facts : MigrationFacts.t) (target : option string) : option string :=
  let nm := name (metadata v) in
  if negb (bool_decide (vm_kind v = VmPhaseKind.Running)) then
    Some ("vm " +:+ nm +:+ " is " +:+ VmPhaseKind.as_str (vm_kind v)
          +:+ " and only a running vm can migrate live; a stopped one moves with `vm reschedule`")
  else match device_refusal v with
  | Some why => Some why
  | None =>
  match inline_disk (VmSpec.vm (spec v)) with
  | Some disk =>
      Some (disk +:+ " is an instance-store disk: its bytes were made on the machine " +:+ nm
            +:+ " is leaving and there is no volume object that could follow it, so no live migration takes them along")
  | None =>
  match MigrationFacts.node_local_disk facts with
  | Some disk =>
      Some ("volume " +:+ disk +:+ " is node-local, so its bytes are on the machine " +:+ nm
            +:+ " is leaving and no live migration takes them along")
  | None =>
  match MigrationFacts.unready_disk facts with
  | Some disk => Some ("volume " +:+ disk +:+ " is not ready here, so where its bytes are is not yet knowable")
  | None =>
      let nowhere :=
        match target with
        | Some named =>
            if negb (existsb (fun t => String.eqb t named) (MigrationFacts.targets facts)) then
              Some ("node " +:+ named +:+ " cannot take this vm: it must be connected, schedulable, running a hypervisor, and not the node the vm is already on")
            else None
        | None =>
            match MigrationFacts.targets facts with
            | [] => Some ("no other node is connected, schedulable and running a hypervisor, so " +:+ nm +:+ " has nowhere to go")
            | _ => None
            end
        end in
      match nowhere with
      | Some why => Some why
      | None =>
          here ← MigrationFacts.source_machine facts;
          let fits n :=
            there ← sget n (MigrationFacts.machines facts);
            there ← there;
            live_migration_refusal (MigrationFacts.source_node facts) here n there in
          match target with
          | Some named => fits named
          | None =>
              let refusals := filter_map fits (MigrationFacts.targets facts) in
              if Nat.eqb (length refusals) (length (MigrationFacts.targets facts)) then head refusals else None
          end
      end
  end end end end.

(** The address in the destination's acknowledgement, already parsed. *)
Definition peer_from (answer : value) : result string string :=
  match jget answer "peer" ≫= as_str with
  | Some p => if negb (str_is_empty p) then Ok p else Err "the destination named no address to send to"
  | None => Err "the destination named no address to send to"
  end.

(** [rsplit_once] on a string pattern. *)
Fixpoint rsplit_once_str (pat s : string) : option (string * string) :=
  match s with
  | EmptyString => match strip_prefix pat s with Some rest => Some ("", rest) | None => None end
  | String c s' =>
      match rsplit_once_str pat s' with
      | Some (a, b) => Some (String c a, b)
      | None => match strip_prefix pat s with Some rest => Some ("", rest) | None => None end
      end
  end.

Definition peer_of (s : VmMigrationStatus.t) : option string :=
  let kept p := if negb (str_is_empty p) then Some p else None in
  match VmMigrationStatus.peer s ≫= kept with
  | Some peer => Some peer
  | None =>
      m ← phase_message (VmMigrationStatus.phase s);
      '(_, peer) ← rsplit_once_str " is listening at " m;
      kept peer
  end.

(** * Lemmas *)

Lemma apply_report_static m v node line :
  let m' := apply_report m v node line in
  metadata m' = metadata m /\ spec m' = spec m /\
  VmMigrationStatus.phase (status m') = VmMigrationStatus.phase (status m) /\
  VmMigrationStatus.cancelling (status m') = VmMigrationStatus.cancelling (status m) /\
  VmMigrationStatus.migration_id (status m') = VmMigrationStatus.migration_id (status m) /\
  VmMigrationStatus.vm_uid (status m') = VmMigrationStatus.vm_uid (status m) /\
  VmMigrationStatus.source_node (status m') = VmMigrationStatus.source_node (status m) /\
  VmMigrationStatus.target_node (status m') = VmMigrationStatus.target_node (status m) /\
  VmMigrationStatus.peer (status m') = VmMigrationStatus.peer (status m) /\
  VmMigrationStatus.reported (status m') = VmMigrationStatus.reported (status m).
Proof. cbv zeta. unfold apply_report. by destruct (negb _). Qed.

(** A report of this attempt, of this VM, from the source over the address it
    was told to send to. *)
Definition source_says (m : VmMigration) (v : Vm) (w : string) (r : string * MigrationReport.t) : Prop :=
  VmMigrationStatus.source_node (status m) = Some r.1 /\ MigrationReport.outcome r.2 = w /\
  VmMigrationStatus.migration_id (status m) = Some (MigrationReport.migration_id r.2) /\
  MigrationReport.migration_id r.2 <> "" /\ MigrationReport.vm_id r.2 = Objects.uid (metadata v) /\
  VmMigrationStatus.peer (status m) = Some (MigrationReport.peer r.2).

Definition target_says (m : VmMigration) (v : Vm) (w : string) (r : string * MigrationReport.t) : Prop :=
  VmMigrationStatus.target_node (status m) = Some r.1 /\ MigrationReport.outcome r.2 = w /\
  VmMigrationStatus.migration_id (status m) = Some (MigrationReport.migration_id r.2) /\
  MigrationReport.migration_id r.2 <> "" /\ MigrationReport.vm_id r.2 = Objects.uid (metadata v).

Lemma about_attempt_spec m v line :
  about_attempt m v line = true ->
  VmMigrationStatus.cancelling (status m) = false /\
  VmMigrationStatus.migration_id (status m) = Some (MigrationReport.migration_id line) /\
  MigrationReport.migration_id line <> "" /\ MigrationReport.vm_id line = Objects.uid (metadata v) /\
  VmMigrationStatus.vm_uid (status m) = Some (Objects.uid (metadata v)).
Proof.
  unfold about_attempt. rewrite !negb_orb, !negb_involutive, !andb_true_iff.
  intros (((((((Hc & _) & He) & Hi) & Hu) & Hv) & _) & _).
  apply negb_true_iff in Hc. apply bool_decide_eq_true in Hi, Hu. apply String.eqb_eq in Hv.
  split_and!; try done. by destruct (MigrationReport.migration_id line).
Qed.

Definition TERMINAL : list string := ["Gone"; "StillHere"].

Lemma from_source_spec m node line :
  from_source m node line = true ->
  VmMigrationStatus.source_node (status m) = Some node /\
  VmMigrationStatus.peer (status m) = Some (MigrationReport.peer line) /\
  (forall w, VmMigrationStatus.source_reported (status m) = Some w -> ~ In w TERMINAL).
Proof.
  unfold from_source. rewrite !andb_true_iff. intros ((((Hs & _) & Hp) & _) & Hterm).
  apply bool_decide_eq_true in Hs, Hp. split_and!; [done..|]. intros w Hw Hin. rewrite Hw in Hterm.
  change (word_in (Some w) ["Gone"; "StillHere"]) with (str_in w TERMINAL) in Hterm.
  by rewrite (proj2 (str_in_spec _ _) Hin) in Hterm.
Qed.

Lemma from_target_spec m node line :
  from_target m node line = true ->
  VmMigrationStatus.target_node (status m) = Some node /\
  VmMigrationStatus.target_reported (status m) <> Some "Running".
Proof.
  unfold from_target. rewrite !andb_true_iff. intros ((Ht & _) & Hrun).
  apply bool_decide_eq_true in Ht. split; [done|]. by apply negb_true_iff, bool_decide_eq_false in Hrun.
Qed.

(** One report: what the two words become, and why. *)
Lemma apply_report_evidence m v node line :
  let m' := apply_report m v node line in
  (forall w, VmMigrationStatus.source_reported (status m') = Some w ->
     VmMigrationStatus.source_reported (status m) = Some w \/ source_says m v w (node, line)) /\
  (VmMigrationStatus.target_reported (status m') = Some "Running" ->
     VmMigrationStatus.target_reported (status m) = Some "Running" \/ target_says m v "Arrived" (node, line)) /\
  (forall w, VmMigrationStatus.source_reported (status m) = Some w -> In w TERMINAL ->
     VmMigrationStatus.source_reported (status m') = Some w) /\
  (VmMigrationStatus.target_reported (status m) = Some "Running" ->
     VmMigrationStatus.target_reported (status m') = Some "Running").
Proof.
  cbv zeta. unfold apply_report. destruct (about_attempt m v line) eqn:Ea; simpl; [|split_and!; by auto].
  apply about_attempt_spec in Ea as (_ & Hid & Hne & Hv & _). split_and!.
  - intros w. destruct (from_source m node line) eqn:Es; [|by left]. intros [= <-]. right.
    apply from_source_spec in Es as (Hs & Hp & _). by split_and!.
  - destruct (from_target m node line) eqn:Et; [|by left].
    destruct (String.eqb_spec (MigrationReport.outcome line) "Arrived") as [Ho|]; intros [=]. right.
    apply from_target_spec in Et as [Ht _]. by split_and!.
  - intros w Hw Hin. destruct (from_source m node line) eqn:Es; [|done].
    apply from_source_spec in Es as (_ & _ & Hterm). by destruct (Hterm w Hw).
  - intros Hw. destruct (from_target m node line) eqn:Et; [|done].
    by apply from_target_spec in Et as [_ Hrun].
Qed.

(** Reports as they come in, from any node, in any order, late or repeated. *)
Definition hear (v : Vm) (m : VmMigration) (r : string * MigrationReport.t) : VmMigration :=
  apply_report m v r.1 r.2.

Lemma says_static m m' v w r :
  VmMigrationStatus.migration_id (status m') = VmMigrationStatus.migration_id (status m) ->
  VmMigrationStatus.source_node (status m') = VmMigrationStatus.source_node (status m) ->
  VmMigrationStatus.target_node (status m') = VmMigrationStatus.target_node (status m) ->
  VmMigrationStatus.peer (status m') = VmMigrationStatus.peer (status m) ->
  (source_says m' v w r -> source_says m v w r) /\ (target_says m' v w r -> target_says m v w r).
Proof. unfold source_says, target_says. intros -> -> -> ->. done. Qed.

(** Evidence is bound to its attempt and final words stay.  Whatever reports
    arrive about a migration, from whichever node, however late or often: the
    source's word and the destination's arrival come from reports that carry
    this attempt's identifier and this VM's uid, from the node that is the source
    (over the address it was told) or the destination; once the source has said
    Gone or StillHere, or the destination that the guest arrived, no later
    report changes it; and reports touch nothing else of the record. *)
Theorem evidence_attempt_bound m v reports :
  let m' := foldl (hear v) m reports in
  (forall w, VmMigrationStatus.source_reported (status m') = Some w ->
     VmMigrationStatus.source_reported (status m) = Some w \/ exists r, In r reports /\ source_says m v w r) /\
  (VmMigrationStatus.target_reported (status m') = Some "Running" ->
     VmMigrationStatus.target_reported (status m) = Some "Running" \/ exists r, In r reports /\ target_says m v "Arrived" r) /\
  (forall w, VmMigrationStatus.source_reported (status m) = Some w -> In w TERMINAL ->
     VmMigrationStatus.source_reported (status m') = Some w) /\
  (VmMigrationStatus.target_reported (status m) = Some "Running" ->
     VmMigrationStatus.target_reported (status m') = Some "Running") /\
  status m' = Evidence.set (status m) (VmMigrationStatus.source_reported (status m'))
                (VmMigrationStatus.source_message (status m')) (VmMigrationStatus.target_reported (status m')).
Proof.
  cbv zeta. revert m. induction reports as [|r reports IH]; intros m; simpl.
  { split_and!; eauto. by destruct m as [? ? ? ? []]. }
  destruct (IH (hear v m r)) as (Hs & Ht & Hfs & Hft & Heq).
  pose proof (apply_report_evidence m v r.1 r.2) as (Hs1 & Ht1 & Hfs1 & Hft1).
  pose proof (apply_report_static m v r.1 r.2) as (_ & _ & Hph & Hca & Hid & Hu & Hso & Hta & Hpe & Hre).
  fold (hear v m r) in Hs1, Ht1, Hfs1, Hft1, Hph, Hca, Hid, Hu, Hso, Hta, Hpe, Hre.
  assert (Hr : (r.1, r.2) = r) by (by destruct r). rewrite Hr in Hs1, Ht1.
  pose proof (fun w r' => says_static m (hear v m r) v w r' Hid Hso Hta Hpe) as Hsays.
  split_and!.
  - intros w [Hw|(r' & Hin & Hw)]%Hs; [|right; exists r'; split; [by right|by apply Hsays]].
    apply Hs1 in Hw as [?|?]; [by left|right; exists r; split; [by left|done]].
  - intros [Hw|(r' & Hin & Hw)]%Ht; [|right; exists r'; split; [by right|by apply Hsays]].
    apply Ht1 in Hw as [?|?]; [by left|right; exists r; split; [by left|done]].
  - intros w Hw Hin. by apply Hfs, Hin; apply Hfs1.
  - intros Hw. by apply Hft, Hft1.
  - rewrite Heq. unfold Evidence.set. f_equal; try done;
      unfold hear, apply_report; by destruct (negb _).
Qed.

Section targets.
Context (assign : Vm -> list Candidate.t -> option string) `{!Scheduler assign}.

(** The saved state of a guest can be restored there, as far as is known. *)
Definition restores (source : option Candidate.t) (c : Candidate.t) : Prop :=
  forall s here there, source = Some s -> Candidate.machine s = Some here -> Candidate.machine c = Some there ->
    live_migration_refusal (Candidate.name s) here (Candidate.name c) there = None.

Lemma machines_that_fit_spec source all fits refusals c :
  machines_that_fit source all = (fits, refusals) -> In c fits -> In c all /\ restores source c.
Proof.
  unfold machines_that_fit, restores. destruct source as [s|].
  2:{ intros [= <- <-] Hin. split; [done|]. by intros. }
  destruct (Candidate.machine s) as [here|] eqn:Eh.
  2:{ intros [= <- <-] Hin. split; [done|]. intros s' ?? [= <-]. congruence. }
  intros [= <- <-] [Hin Hr]%filter_In. split; [done|].
  intros s' here' there [= <-] Hh Ht. rewrite Eh in Hh. injection Hh as <-. rewrite Ht in Hr. simpl in Hr.
  by destruct (live_migration_refusal _ _ _ _).
Qed.

Lemma feasible_incl v cs c : In c (feasible v cs) -> In c cs.
Proof. unfold feasible, usable. rewrite !filter_In. tauto. Qed.

(** A live migration goes only where the guest could be placed and restored.
    A destination that is chosen, named or not, is another node than the
    source, passes every hard constraint of placement for this VM (connected,
    schedulable, healthy, room, class, selectors, devices, anti-affinity), and
    no known machine profile rules out restoring the source's state there. *)
Theorem migration_target_feasible v source named all n :
  choose_target assign v source named all = Ok n ->
  n <> source /\ (forall m, named = Some m -> n = m) /\
  exists c, In c all /\ Candidate.name c = n /\ In c (feasible v all) /\
    restores (List.find (fun c => String.eqb (Candidate.name c) source) all) c.
Proof.
  unfold choose_target. set (here := List.find _ all). set (elsewhere := List.filter _ all).
  assert (Hel : forall c, In c elsewhere -> In c all /\ Candidate.name c <> source).
  { intros c [Hin Hne]%filter_In. split; [done|]. by destruct (String.eqb_spec (Candidate.name c) source). }
  assert (Hfe : forall cs c, (forall x, In x cs -> In x all) -> In c (feasible v cs) -> In c (feasible v all)).
  { intros cs c Hsub. unfold feasible, usable. rewrite !filter_In. intros H. decompose [and] H. split_and!; auto. }
  destruct named as [named|].
  - destruct (List.find _ (feasible v elsewhere)) as [c|] eqn:Ef; [|done].
    apply find_some in Ef as [Hin Hn%String.eqb_eq].
    destruct (machines_that_fit here [c]) as [fits refusals] eqn:Em. destruct fits as [|c' fits]; [done|].
    intros [= <-]. pose proof (feasible_incl _ _ _ Hin) as [Hall Hne]%Hel.
    split; [congruence|]. split; [by intros m [= <-]|]. exists c. split_and!; [done|done| |].
    + apply (Hfe elsewhere); [|done]. intros x Hx. by apply Hel.
    + destruct (machines_that_fit_spec _ _ _ _ c' Em) as [[->|[]] Hr]; [by left|done].
  - destruct (machines_that_fit here elsewhere) as [fits refusals] eqn:Em. intros H.
    assert (Ha : assign v fits = Some n).
    { destruct fits, refusals; try done; by destruct (assign v _); [injection H as <-|]. }
    destruct (assign_feasible _ _ _ Ha) as (c & Hin & Hn).
    pose proof (feasible_incl _ _ _ Hin) as Hfit.
    destruct (machines_that_fit_spec _ _ _ _ _ Em Hfit) as [[Hall Hne]%Hel Hr].
    split; [congruence|]. split; [done|]. exists c. split_and!; [done|done| |done].
    apply (Hfe fits); [|done]. intros x Hx. by destruct (machines_that_fit_spec _ _ _ _ _ Em Hx) as [[? _]%Hel _].
Qed.
End targets.

(** * Witnesses *)

Lemma migration_target_feasible_witness :
  let all := [example_candidate "n1" 4096; example_candidate "n2" 4096] in
  choose_target FirstFit_assign (example_vm "v1") "n1" None all = Ok "n2"
  /\ "n2" <> "n1" /\ exists c, In c all /\ Candidate.name c = "n2".
Proof.
  split; [by vm_compute|].
  destruct (migration_target_feasible FirstFit_assign (example_vm "v1") "n1" None
    [example_candidate "n1" 4096; example_candidate "n2" 4096] "n2") as (Hne & _ & c & Hin & Hn & _).
  - by vm_compute.
  - split; [exact Hne|]. by exists c.
Defined.
