(* ===== verification/ClusterMigration.v ===== *)
(** Live migrations of a cluster: the steps of
    [src/components/cluster-controller/src/migration.rs] over the store and the
    nodes' sessions.  One record carries one attempt; every step is a
    compare-and-swap on that record before the command it authorises. *)
From Stdlib Require Import Ascii String NArith ZArith List Bool Lia.
From stdpp Require Import base list strings gmap relations.
From S2P Require Import Prelude RustStr Json Capability Heartbeat Vm Node Storage Sizing Placement Diagnosis.
From S2P Require Import Reservation Commit Quota Gateways Lifecycle Dispatch Namespaces SpecDocs MigrationRules.
From S2P Require Import Phase Objects Store StoreSafety Growth.

#[export] Instance migration_resource : Resource VmMigrationSpec.t VmMigrationStatus.t :=
  {| RESOURCE := "vmmigrations"; NAME_SHAPE := NameShape.DnsLabel;
     settle := fun now (m : VmMigration) =>
       let s := status m in
       with_status m
         {| VmMigrationStatus.migration_id := VmMigrationStatus.migration_id s;
            VmMigrationStatus.vm_uid := VmMigrationStatus.vm_uid s;
            VmMigrationStatus.recovery_required := VmMigrationStatus.recovery_required s;
            VmMigrationStatus.cancelling := VmMigrationStatus.cancelling s;
            VmMigrationStatus.phase := stamp (VmMigrationStatus.phase s) (settle_vm_migration s) now;
            VmMigrationStatus.reported := VmMigrationStatus.reported s;
            VmMigrationStatus.observed_generation := VmMigrationStatus.observed_generation s;
            VmMigrationStatus.source_node := VmMigrationStatus.source_node s;
            VmMigrationStatus.target_node := VmMigrationStatus.target_node s;
            VmMigrationStatus.peer := VmMigrationStatus.peer s;
            VmMigrationStatus.started_at := VmMigrationStatus.started_at s;
            VmMigrationStatus.finished_at := VmMigrationStatus.finished_at s;
            VmMigrationStatus.target_reported := VmMigrationStatus.target_reported s;
            VmMigrationStatus.source_reported := VmMigrationStatus.source_reported s;
            VmMigrationStatus.source_message := VmMigrationStatus.source_message s |} |}.

(** * The edits of a record *)

Module Edit.
(** The fields a step after the first writes. *)
Definition set (m : VmMigration) (reported : option VmMigrationReported) (recovery cancelling : bool)
    (peer : option string) (finished : option instant) : VmMigration :=
  let s := status m in
  with_status m
    {| VmMigrationStatus.migration_id := VmMigrationStatus.migration_id s;
       VmMigrationStatus.vm_uid := VmMigrationStatus.vm_uid s;
       VmMigrationStatus.recovery_required := recovery;
       VmMigrationStatus.cancelling := cancelling;
       VmMigrationStatus.phase := VmMigrationStatus.phase s;
       VmMigrationStatus.reported := reported;
       VmMigrationStatus.observed_generation := VmMigrationStatus.observed_generation s;
       VmMigrationStatus.source_node := VmMigrationStatus.source_node s;
       VmMigrationStatus.target_node := VmMigrationStatus.target_node s;
       VmMigrationStatus.peer := peer;
       VmMigrationStatus.started_at := VmMigrationStatus.started_at s;
       VmMigrationStatus.finished_at := finished;
       VmMigrationStatus.target_reported := VmMigrationStatus.target_reported s;
       VmMigrationStatus.source_reported := VmMigrationStatus.source_reported s;
       VmMigrationStatus.source_message := VmMigrationStatus.source_message s |}.

(** The claim of [prepare]. *)
Definition claim (m : VmMigration) (v : Vm) (source target : string) (now : instant) : VmMigration :=
  let s := status m in
  with_status m
    {| VmMigrationStatus.migration_id := Some (Objects.uid (metadata m));
       VmMigrationStatus.vm_uid := Some (Objects.uid (metadata v));
       VmMigrationStatus.recovery_required := VmMigrationStatus.recovery_required s;
       VmMigrationStatus.cancelling := VmMigrationStatus.cancelling s;
       VmMigrationStatus.phase := VmMigrationStatus.phase s;
       VmMigrationStatus.reported :=
         Some (said_here VmMigrationPhaseKind.Preparing VmMigrationReason.Dispatched
                 (Some ("preparing " +:+ target)) now);
       VmMigrationStatus.observed_generation := generation (metadata m);
       VmMigrationStatus.source_node := Some source;
       VmMigrationStatus.target_node := Some target;
       VmMigrationStatus.peer := VmMigrationStatus.peer s;
       VmMigrationStatus.started_at := Some now;
       VmMigrationStatus.finished_at := VmMigrationStatus.finished_at s;
       VmMigrationStatus.target_reported := VmMigrationStatus.target_reported s;
       VmMigrationStatus.source_reported := VmMigrationStatus.source_reported s;
       VmMigrationStatus.source_message := VmMigrationStatus.source_message s |}.

(** The destination has named its address. *)
Definition listening (target peer : string) (now : instant) (m : VmMigration) : VmMigration :=
  let s := status m in
  let phase := migration_kind m in
  if VmMigrationStatus.cancelling s || negb (bool_decide (phase = VmMigrationPhaseKind.Preparing)) then m
  else set m (Some (said_here phase VmMigrationReason.Dispatched
                      (Some (target +:+ " is listening at " +:+ peer)) now))
         (VmMigrationStatus.recovery_required s) (VmMigrationStatus.cancelling s) (Some peer)
         (VmMigrationStatus.finished_at s).

(** The claim of [send]. *)
Definition sending (target peer : string) (now : instant) (m : VmMigration) : VmMigration :=
  let s := status m in
  set m (Some (said_here VmMigrationPhaseKind.Running VmMigrationReason.Dispatched
                 (Some ("sending to " +:+ target +:+ " at " +:+ peer)) now))
    (VmMigrationStatus.recovery_required s) (VmMigrationStatus.cancelling s) (VmMigrationStatus.peer s)
    (VmMigrationStatus.finished_at s).

Definition cancel (m : VmMigration) : VmMigration :=
  let s := status m in
  set m (VmMigrationStatus.reported s) (VmMigrationStatus.recovery_required s) true
    (VmMigrationStatus.peer s) (VmMigrationStatus.finished_at s).

Definition unresolved (why : string) (now : instant) (m : VmMigration) : VmMigration :=
  let s := status m in
  if VmMigrationPhaseKind.is_final (migration_kind m) then m
  else set m (Some (said_here (migration_kind m) VmMigrationReason.Reported (Some why) now)) true
         (VmMigrationStatus.cancelling s) (VmMigrationStatus.peer s) (VmMigrationStatus.finished_at s).

Definition fail (why : string) (now : instant) (m : VmMigration) : VmMigration :=
  let s := status m in
  set m (Some (said_here VmMigrationPhaseKind.Failed VmMigrationReason.Abandoned (Some why) now)) false
    (VmMigrationStatus.cancelling s) (VmMigrationStatus.peer s) (Some now).

Definition succeed (target vm : string) (now : instant) (m : VmMigration) : VmMigration :=
  let s := status m in
  set m (Some (said_by target VmMigrationPhaseKind.Succeeded VmMigrationReason.Unrecorded
                 (Some (vm +:+ " is on " +:+ target)) now)) false
    (VmMigrationStatus.cancelling s) (VmMigrationStatus.peer s) (Some now).
End Edit.

Module Reserved.
Inductive t := Fresh (r : CapacityReservation) | Standing (r : CapacityReservation) | Foreign.
End Reserved.

Definition ATTEMPT_PROTOCOL : string := "migration/attempt-v2".

(** [give_back]. *)
Fixpoint plus_first (node : string) (size : Capacity.t) (all : list Candidate.t) : list Candidate.t :=
  match all with
  | [] => []
  | c :: rest =>
      if String.eqb (Candidate.name c) node
      then Candidate.set_free c (Capacity.plus (Candidate.free c) size) :: rest
      else c :: plus_first node size rest
  end.

Definition give_back (all : list Candidate.t) (held : list CapacityReservation) (mine : CapacityReservation)
    : list Candidate.t :=
  if negb (existsb (fun h : CapacityReservation => String.eqb (name (metadata h)) (name (metadata mine))) held) then all
  else plus_first (CapacityReservationSpec.node (spec mine)) (CapacityReservationSpec.size (spec mine)) all.

Definition bind_to (v : Vm) (node : string) : Vm :=
  let s := spec v in
  with_spec v
    {| VmSpec.node_name := Some node; VmSpec.cluster_name := VmSpec.cluster_name s;
       VmSpec.run_strategy := VmSpec.run_strategy s; VmSpec.evacuation := VmSpec.evacuation s;
       VmSpec.tenant := VmSpec.tenant s; VmSpec.class_ := VmSpec.class_ s;
       VmSpec.cluster_selector := VmSpec.cluster_selector s; VmSpec.node_selector := VmSpec.node_selector s;
       VmSpec.anti_affinity := VmSpec.anti_affinity s; VmSpec.vm := VmSpec.vm s |}.

Definition set_home (v : Volume) (node : option string) : Volume :=
  let s := status v in
  with_status v
    {| VolumeStatus.phase := VolumeStatus.phase s; VolumeStatus.reported := VolumeStatus.reported s;
       VolumeStatus.holder := VolumeStatus.holder s; VolumeStatus.claimant_gone := VolumeStatus.claimant_gone s;
       VolumeStatus.backend := VolumeStatus.backend s; VolumeStatus.node := node;
       VolumeStatus.open_on := VolumeStatus.open_on s; VolumeStatus.cluster := VolumeStatus.cluster s;
       VolumeStatus.attached_to := VolumeStatus.attached_to s; VolumeStatus.attached_uid := VolumeStatus.attached_uid s;
       VolumeStatus.size_gib := VolumeStatus.size_gib s; VolumeStatus.untold_gib := VolumeStatus.untold_gib s;
       VolumeStatus.observed_generation := VolumeStatus.observed_generation s;
       VolumeStatus.observed_at := VolumeStatus.observed_at s;
       VolumeStatus.requeue_attempts := VolumeStatus.requeue_attempts s;
       VolumeStatus.last_requeue := VolumeStatus.last_requeue s |}.

(** The edit of [move_volume_home]. *)
Definition follow_home (uid from to : string) (v : Volume) : Volume :=
  if bool_decide (VolumeStatus.node (status v) = Some from) && VolumeStatus.claimed_by (status v) uid
  then set_home v (Some to) else v.

(** [Object::declare] for this kind. *)
Definition declare_migration (name uid : string) (now : instant) (spec : VmMigrationSpec.t) : VmMigration :=
  object_new API_VERSION "VmMigration" name uid now spec
    {| VmMigrationStatus.migration_id := None; VmMigrationStatus.vm_uid := None;
       VmMigrationStatus.recovery_required := false; VmMigrationStatus.cancelling := false;
       VmMigrationStatus.phase := phase_default; VmMigrationStatus.reported := None;
       VmMigrationStatus.observed_generation := 0; VmMigrationStatus.source_node := None;
       VmMigrationStatus.target_node := None; VmMigrationStatus.peer := None;
       VmMigrationStatus.started_at := None; VmMigrationStatus.finished_at := None;
       VmMigrationStatus.target_reported := None; VmMigrationStatus.source_reported := None;
       VmMigrationStatus.source_message := None |}.

(** * The steps *)

Section steps.
Context {D Bytes : Type} `{!Etcd D Bytes, !RawJson Bytes, !StatusJson}.
Context `{!Serde Bytes NodeSpec.t NodeStatus.t, !Serde Bytes VmSpec.t VmStatus.t, !Resource VmSpec.t VmStatus.t,
  !Serde Bytes VmMigrationSpec.t VmMigrationStatus.t, !Serde Bytes CapacityReservationSpec.t unit,
  !Serde Bytes VolumeSpec.t VolumeStatus.t, !Serde Bytes StoragePoolSpec.t StoragePoolStatus.t}.
Variable prefix : string.
Variable sur : surroundings D.
Variable net : peers.
Variable assign : Vm -> list Candidate.t -> option string.
(** [serde_json] on documents and payloads, fresh identifiers, the date in a name. *)
Variable render : value -> string.
Variable payload_json : string -> result string value.
Variable new_uid : nat -> string.
Variable date_text : instant -> string.

Abbreviation get_vm := (get (Sp := VmSpec.t) (St := VmStatus.t) prefix sur).
Abbreviation get_volume := (get (Sp := VolumeSpec.t) (St := VolumeStatus.t) prefix sur).
Abbreviation send_to := (dispatch_send prefix sur net).

Definition now_ : pass_m D instant := st (now sur).
Definition fresh_uid : pass_m D string := fun p => (p, Ok (new_uid (ticks (p_store p)))).

(** A listing in which an absent directory is an empty one. *)
Definition list_or_none {Sp St} `{!Resource Sp St, !Serde Bytes Sp St} : pass_m D (list (Object Sp St)) :=
  r ← try_store (list_ (Sp := Sp) (St := St) prefix sur);
  match r with
  | Ok l => ok l
  | Err (StoreError.NotFound _) => ok []
  | Err e => raise (Failure.of_store e)
  end.

Definition migrations : pass_m D (list VmMigration) := list_or_none.

Definition reservations : pass_m D (list CapacityReservation) := list_or_none.

Definition migration_in_flight (v : Vm) : pass_m D bool :=
  ms ← migrations; ok (is_some (phase_for ms v)).

(** ** Endings *)

(** [release]: every outcome is logged and dropped. *)
Definition release_room (m : VmMigration) : pass_m D unit :=
  let nm := name (metadata m) in
  r ← try_store (get (Sp := CapacityReservationSpec.t) (St := unit) prefix sur nm);
  match r with
  | Ok held =>
      if negb (belongs_to held m) then ok tt
      else _ ← try_store (delete_if (Sp := CapacityReservationSpec.t) (St := unit) prefix sur nm
                            (resource_version (metadata held))); ok tt
  | Err _ => ok tt
  end.

Definition fail (m : VmMigration) (why : string) : pass_m D unit :=
  at_ ← now_;
  r ← try_store (update prefix sur (Edit.fail why at_ m));
  match r with
  | Ok _ => release_room m
  | Err (StoreError.Conflict _) => ok tt
  | Err e => raise (Failure.of_store e)
  end.

Definition unresolved (m : VmMigration) (why : string) : pass_m D unit :=
  at_ ← now_;
  _ ← st (mutate_if prefix sur (name (metadata m)) (Objects.uid (metadata m)) (Edit.unresolved why at_));
  ok tt.

Definition cleanup (m : VmMigration) (v : Vm) (source : bool) : NodeCommand.t :=
  NodeCommand.CleanupMigration (Objects.uid (metadata v))
    (unwrap_or "" (VmMigrationStatus.migration_id (status m))) source.

(** The second half of [abandon], once the record says cancelling. *)
Definition tear_down (m : VmMigration) (v : Vm) (target why : string) : pass_m D unit :=
  r ← attempt (send_to target (cleanup m v false));
  match r with
  | Err e => unresolved m ("cleanup has not been confirmed: " +:+ Failure.text e)
  | Ok _ => fail m why
  end.

Definition abandon (m : VmMigration) (v : Vm) (target why : string) : pass_m D unit :=
  if negb (is_some (VmMigrationStatus.migration_id (status m))) then
    unresolved m "legacy migration requires recovery before cleanup"
  else if negb (VmMigrationStatus.cancelling (status m)) then
    r ← try_store (update prefix sur (Edit.cancel m));
    match r with
    | Ok claimed => tear_down claimed v target why
    | Err (StoreError.Conflict _) => ok tt
    | Err e => raise (Failure.of_store e)
    end
  else tear_down m v target why.

(** ** Volumes *)

Fixpoint open_each (names : list string) (node : string) : pass_m D unit :=
  match names with
  | [] => ok tt
  | n :: names =>
      volume ← st (get_volume n);
      doc ← st (volume_spec_json prefix sur volume);
      r ← attempt (send_to node (NodeCommand.ProvisionVolume (Objects.uid (metadata volume)) (render doc)));
      match r with
      | Err e => bail ("volume " +:+ n +:+ " on " +:+ node +:+ ": " +:+ Failure.text e)
      | Ok _ => open_each names node
      end
  end.

Definition open_volumes_at (v : Vm) (node : string) : pass_m D unit :=
  open_each (VmSpec.referenced_volumes (spec v)) node.

Fixpoint forget_each (names : list string) (node : string) : pass_m D unit :=
  match names with
  | [] => ok tt
  | n :: names =>
      r ← try_store (get_volume n);
      match r with
      | Ok volume =>
          _ ← attempt (send_to node (NodeCommand.ForgetVolume (Objects.uid (metadata volume))));
          forget_each names node
      | Err _ => forget_each names node
      end
  end.

Definition forget_volumes_at (v : Vm) (node : string) : pass_m D unit :=
  forget_each (VmSpec.referenced_volumes (spec v)) node.

Fixpoint move_each (uid from to : string) (names : list string) : pass_m D unit :=
  match names with
  | [] => ok tt
  | n :: names =>
      _ ← try_store (mutate (Sp := VolumeSpec.t) (St := VolumeStatus.t) prefix sur n (follow_home uid from to));
      move_each uid from to names
  end.

Definition move_volume_home (v : Vm) (from to : string) : pass_m D unit :=
  move_each (Objects.uid (metadata v)) from to (VmSpec.referenced_volumes (spec v)).

Definition spec_for (v : Vm) : pass_m D string :=
  refs ← st (volume_uids prefix sur v);
  match build_spec_json v refs None with
  | Ok doc => ok (render doc)
  | Err why => bail why
  end.

(** ** Asking for one *)

Definition start_for_drain (v : Vm) : pass_m D unit :=
  existing ← migrations;
  if existsb (fun m : VmMigration => String.eqb (VmMigrationSpec.vm (spec m)) (name (metadata v))
                                     && negb (VmMigrationPhaseKind.is_final (migration_kind m))) existing
  then ok tt
  else
    at_ ← now_;
    uid ← fresh_uid;
    r ← try_store (create prefix sur
          (declare_migration (name (metadata v) +:+ "-" +:+ date_text at_) uid at_
             {| VmMigrationSpec.tenant := unwrap_or "" (VmSpec.tenant (spec v));
                VmMigrationSpec.vm := name (metadata v); VmMigrationSpec.target_node := None |}));
    match r with
    | Ok _ => ok tt
    | Err (StoreError.Conflict _) => ok tt
    | Err e => raise (Failure.of_store e)
    end.

(** The volume loop of [migration_facts]: the node-local and the unready disk. *)
Fixpoint disk_facts (names : list string) : pass_m D (option string * option string) :=
  match names with
  | [] => ok (None, None)
  | n :: names =>
      r ← try_store (get_volume n);
      match r with
      | Err (StoreError.NotFound _) => ok (None, Some n)
      | Err e => raise (Failure.of_store e)
      | Ok volume =>
          if negb (bool_decide (ph_kind (VolumeStatus.phase (status volume)) = VolumePhaseKind.Ready))
          then ok (None, Some n)
          else
            r ← try_store (get (Sp := StoragePoolSpec.t) (St := StoragePoolStatus.t) prefix sur
                             (VolumeSpec.pool (spec volume)));
            match r with
            | Err (StoreError.NotFound _) => ok (None, Some n)
            | Err e => raise (Failure.of_store e)
            | Ok pool =>
                if bool_decide (StoragePoolStatus.locality (status pool) = Some Locality.NodeLocal)
                then ok (Some n, None)
                else disk_facts names
            end
      end
  end.

Definition migration_facts (v : Vm) : pass_m D MigrationFacts.t :=
  let here := option_or (VmSpec.node_name (spec v)) (VmStatus.node_name (status v)) in
  disks ← disk_facts (VmSpec.referenced_volumes (spec v));
  nodes ← st (list_ (Sp := NodeSpec.t) (St := NodeStatus.t) prefix sur);
  ok {| MigrationFacts.node_local_disk := disks.1; MigrationFacts.unready_disk := disks.2;
        MigrationFacts.source_machine :=
          here ≫= fun h => List.find (fun n : Node => String.eqb (name (metadata n)) h) nodes ≫= fun n =>
            NodeStatus.machine (status n);
        MigrationFacts.source_node := unwrap_or "" here;
        MigrationFacts.machines :=
          foldl (fun acc (n : Node) => sinsert (name (metadata n)) (NodeStatus.machine (status n)) acc) [] nodes;
        MigrationFacts.targets :=
          List.filter (fun n => negb (bool_decide (here = Some n)))
            (map (fun n : Node => name (metadata n))
              (List.filter (fun n : Node => offers (NodeCapacity.capabilities (NodeStatus.capacity (status n))) HYPERVISOR None)
                (List.filter (fun n : Node => NodeStatus.ready (status n) && NodeSpec.schedulable (spec n)
                                              && negb (NodeSpec.drain (spec n))) nodes))) |}.

(** [admission::refusal]. *)
Definition refusal (v : Vm) (target : option string) : pass_m D (option string) :=
  facts ← migration_facts v; ok (migration_refusal v facts target).

Definition invalid_request {A} (why : string) : pass_m D A :=
  raise (Failure.of_refusal {| NodeRefusal.message := why; NodeRefusal.reason := "Invalid" |}).

Definition start_from_the_cloud (nm vm cloud : string) (target_node : option string) : pass_m D unit :=
  r ← try_store (get_vm vm);
  match r with
  | Err e => bail ("vm " +:+ vm +:+ " is not on this cluster: " +:+ store_error_text e)
  | Ok guest =>
      if negb (bool_decide (cloud_uid (metadata guest) = Some cloud)) then
        invalid_request ("vm " +:+ vm +:+ " on this cluster is not the cloud's vm " +:+ cloud)
      else
        why ← refusal guest target_node;
        match why with
        | Some why => invalid_request why
        | None =>
            at_ ← now_;
            uid ← fresh_uid;
            r ← try_store (create prefix sur
                  (declare_migration nm uid at_
                     {| VmMigrationSpec.tenant := unwrap_or "" (VmSpec.tenant (spec guest));
                        VmMigrationSpec.vm := vm; VmMigrationSpec.target_node := target_node |}));
            match r with
            | Ok _ => ok tt
            | Err (StoreError.Conflict _) => ok tt
            | Err e => raise (Failure.of_store e)
            end
        end
  end.

(** ** Preparing the destination *)

Definition reserve (m : VmMigration) (v : Vm) (target : string) : pass_m D Reserved.t :=
  at_ ← now_;
  uid ← fresh_uid;
  let want := reservation_of uid at_ m v target in
  r ← try_store (create prefix sur want);
  match r with
  | Ok held => ok (Reserved.Fresh held)
  | Err (StoreError.AlreadyExists _) | Err (StoreError.Terminating _) =>
      r ← try_store (get (Sp := CapacityReservationSpec.t) (St := unit) prefix sur (name (metadata want)));
      match r with
      | Ok standing => ok (if belongs_to standing m then Reserved.Standing standing else Reserved.Foreign)
      | Err (StoreError.NotFound _) => ok Reserved.Foreign
      | Err e => raise (Failure.of_store e)
      end
  | Err e => raise (Failure.of_store e)
  end.

Definition reachable_anywhere (all : list Candidate.t) : pass_m D (list Candidate.t) :=
  if forallb Candidate.connected all then ok all
  else
    nodes ← st (list_ (Sp := NodeSpec.t) (St := NodeStatus.t) prefix sur);
    ok (map (fun c => set_connected c (reaches c nodes)) all).

Definition confirm (mine : CapacityReservation) (overcommit : Overcommit.t) : pass_m D (result string bool) := fun p =>
  let '(w, r) := claim_holds prefix sur store_error_text mine overcommit (p_store p) in (set_store p w, Ok r).

(** The first endpoint that does not speak the attempt protocol. *)
Definition outdated_endpoint (all : list Candidate.t) (endpoints : list string) : option string :=
  List.find (fun e => negb (existsb (fun c => String.eqb (Candidate.name c) e
                                              && str_in ATTEMPT_PROTOCOL (Candidate.catalogue c)) all)) endpoints.

(** From the claimed record on: open the disks, make a VMM listen, write down
    where. *)
Definition build_destination (m claimed : VmMigration) (v : Vm) (target : string) : pass_m D unit :=
  r ← attempt (open_volumes_at v target);
  match r with
  | Err e => abandon claimed v target ("the destination could not open the disks: " +:+ Failure.text e)
  | Ok _ =>
      r ← attempt (spec_for v);
      match r with
      | Err e => abandon claimed v target
                   ("this vm's spec could not be built for the destination: " +:+ Failure.text e)
      | Ok spec_json =>
          r ← attempt (payload ← send_to target
                         (NodeCommand.PrepareMigration (Objects.uid (metadata v)) spec_json (Objects.uid (metadata m)));
                       match payload_json payload with
                       | Err why => bail ("unreadable answer: " +:+ why)
                       | Ok answer => match peer_from answer with Ok peer => ok peer | Err why => bail why end
                       end);
          match r with
          | Err e => abandon claimed v target ("node " +:+ target +:+ " could not make itself ready: " +:+ Failure.text e)
          | Ok peer =>
              at_ ← now_;
              _ ← st (mutate_if prefix sur (name (metadata m)) (Objects.uid (metadata m)) (Edit.listening target peer at_));
              ok tt
          end
      end
  end.

(** The claim of the attempt, by compare-and-swap on the record as read. *)
Definition claim_attempt (m : VmMigration) (v : Vm) (source target : string) : pass_m D unit :=
  at_ ← now_;
  r ← try_store (update prefix sur (Edit.claim m v source target at_));
  match r with
  | Ok claimed => build_destination m claimed v target
  | Err (StoreError.Conflict _) => ok tt
  | Err e => raise (Failure.of_store e)
  end.

Definition confirm_and_claim (overcommit : Overcommit.t) (m : VmMigration) (v : Vm) (source target : string)
    (mine : CapacityReservation) : pass_m D unit :=
  r ← confirm mine overcommit;
  match r with
  | Ok true => claim_attempt m v source target
  | Ok false =>
      fail m ("another claim took the last of " +:+ target
              +:+ "'s room first; this record ends here and the move can be asked for again")
  | Err why =>
      raise (Failure.context ("migration " +:+ name (metadata m) +:+ ": the room at " +:+ target
               +:+ " could not be confirmed; nothing was prepared and the next pass asks again") (Failure.msg why))
  end.

Definition prepare (held : list CapacityReservation) (overcommit : Overcommit.t) (m : VmMigration) (v : Vm)
    : pass_m D unit :=
  match option_or (VmSpec.node_name (spec v)) (VmStatus.node_name (status v)) with
  | None => fail m ("vm " +:+ name (metadata v) +:+ " is not on a node; there is nothing to move")
  | Some source =>
      if negb (bool_decide (vm_kind v = VmPhaseKind.Running)) then
        fail m ("vm " +:+ name (metadata v) +:+ " is " +:+ VmPhaseKind.as_str (vm_kind v)
                +:+ " and only a running vm can migrate live")
      else match device_refusal v with
      | Some why => fail m why
      | None =>
          all ← (fun p => reachable_anywhere (p_nodes p) p);
          standing ← reservations;
          let ours := List.find (fun r => belongs_to r m) standing in
          let theirs :=
            List.filter (fun r : CapacityReservation =>
                negb (existsb (fun h : CapacityReservation => String.eqb (name (metadata h)) (name (metadata r))) held))
              (List.filter (fun r => negb (belongs_to r m)) standing) in
          let all := hold all theirs in
          let all := match ours with Some ours => give_back all held ours | None => all end in
          let named := option_or (option_map (fun r : CapacityReservation => CapacityReservationSpec.node (spec r)) ours)
                         (VmMigrationSpec.target_node (spec m)) in
          match choose_target assign v source named all with
          | Err why => fail m why
          | Ok target =>
              siblings ← migrations;
              if another_attempt_in_flight siblings m then
                fail m ("another migration record for vm " +:+ VmMigrationSpec.vm (spec m)
                        +:+ " has not finished; one guest moves once, so this record ends here and the other one carries the move")
              else match outdated_endpoint all [source; target] with
              | Some endpoint =>
                  fail m ("node " +:+ endpoint
                          +:+ " does not support migration/attempt-v2; upgrade both endpoints before migrating")
              | None =>
                  promise ← reserve m v target;
                  match promise with
                  | Reserved.Fresh mine => confirm_and_claim overcommit m v source target mine
                  | Reserved.Standing mine =>
                      if String.eqb (CapacityReservationSpec.node (spec mine)) target
                      then confirm_and_claim overcommit m v source target mine
                      else match choose_target assign v source (Some (CapacityReservationSpec.node (spec mine)))
                                   (give_back all held mine) with
                           | Ok chosen => confirm_and_claim overcommit m v source chosen mine
                           | Err why => fail m why
                           end
                  | Reserved.Foreign => ok tt
                  end
              end
          end
      end
  end.

(** ** Sending *)

Definition refused_to_send (e : Failure.t) : option NodeRefusal.t := saying e CANNOT_SEND.

Definition endpoints_missing : string := "migration endpoints are missing; ownership requires recovery".

(** The claim of the send, and the command it authorises. *)
Definition claim_send (m : VmMigration) (v : Vm) (source target peer : string) : pass_m D unit :=
  at_ ← now_;
  r ← try_store (update prefix sur (Edit.sending target peer at_ m));
  match r with
  | Err (StoreError.Conflict _) => ok tt
  | Err e => raise (Failure.of_store e)
  | Ok running =>
      r ← attempt (send_to source
            (NodeCommand.MigrateOut (Objects.uid (metadata v)) peer
               (unwrap_or "" (VmMigrationStatus.migration_id (status m)))));
      match r with
      | Ok _ => ok tt
      | Err e =>
          match refused_to_send e with
          | Some refusal =>
              abandon running v target
                (source +:+ " refused to send the guest and still runs it: " +:+ NodeRefusal.message refusal
                 +:+ ". " +:+ target +:+ " holds no guest and has been torn down")
          | None => unresolved m ("the source's answer did not come back: " +:+ Failure.text e)
          end
      end
  end.

Definition send (timeouts : Timeouts.t) (m : VmMigration) (v : Vm) : pass_m D unit :=
  if VmMigrationStatus.cancelling (status m)
     || negb (bool_decide (migration_kind m = VmMigrationPhaseKind.Preparing)) then ok tt
  else match VmMigrationStatus.source_node (status m), VmMigrationStatus.target_node (status m) with
  | Some source, Some target =>
      let peer := peer_of (status m) in
      at_ ← now_;
      match overdue m (Timeouts.prepare timeouts) at_ with
      | Some over =>
          abandon m v target
            (match peer with
             | Some _ => "the destination was not ready after " +:+ show_Z over +:+ "s"
             | None => "the destination's address never reached this record, and " +:+ target
                       +:+ " was not ready after " +:+ show_Z over +:+ "s"
             end)
      | None =>
          match peer with
          | None => ok tt
          | Some peer => claim_send m v source target peer
          end
      end
  | _, _ => unresolved m endpoints_missing
  end.

(** ** Settling *)

(** The handoff: the binding first, then the room, the source and the disks. *)
Definition hand_over (m : VmMigration) (v : Vm) (source target : string) : pass_m D unit :=
  r ← try_store (update prefix sur (bind_to v target));
  match r with
  | Err (StoreError.Conflict _) => ok tt
  | Err e => raise (Failure.of_store e)
  | Ok _ =>
      _ ← release_room m;
      _ ← attempt (send_to source (cleanup m v true));
      _ ← move_volume_home v source target;
      _ ← forget_volumes_at v source;
      at_ ← now_;
      _ ← st (mutate_if prefix sur (name (metadata m)) (Objects.uid (metadata m))
                (Edit.succeed target (name (metadata v)) at_));
      ok tt
  end.

Definition settle_attempt (timeouts : Timeouts.t) (m : VmMigration) (v : Vm) : pass_m D unit :=
  match VmMigrationStatus.source_node (status m), VmMigrationStatus.target_node (status m) with
  | Some source, Some target =>
      if negb (arrived (status m)) then
        match still_here source target (status m) with
        | Some (Verdict.TearDownTheDestination why) => abandon m v target why
        | Some (Verdict.TouchNothing why) => unresolved m why
        | None =>
            at_ ← now_;
            match overdue m (Timeouts.prepare timeouts + Timeouts.transfer timeouts) at_ with
            | None => ok tt
            | Some over =>
                match verdict_on_timeout source target over (VmMigrationStatus.source_reported (status m))
                        (VmMigrationStatus.target_reported (status m)) with
                | Verdict.TearDownTheDestination why => abandon m v target why
                | Verdict.TouchNothing why => unresolved m why
                end
            end
        end
      else hand_over m v source target
  | _, _ => unresolved m endpoints_missing
  end.

(** ** One migration, one step *)

Definition step (timeouts : Timeouts.t) (held : list CapacityReservation) (overcommit : Overcommit.t)
    (m : VmMigration) : pass_m D unit :=
  r ← try_store (get_vm (VmMigrationSpec.vm (spec m)));
  match r with
  | Err (StoreError.NotFound _) =>
      let why := "vm " +:+ VmMigrationSpec.vm (spec m) +:+ " no longer exists; migration ownership requires recovery" in
      if bool_decide (migration_kind m = VmMigrationPhaseKind.Pending) then fail m why else unresolved m why
  | Err e => raise (Failure.of_store e)
  | Ok v =>
      let kind := migration_kind m in
      if negb (VmMigrationPhaseKind.is_final kind) && negb (bool_decide (kind = VmMigrationPhaseKind.Pending))
         && (negb (is_some (VmMigrationStatus.migration_id (status m)))
             || negb (bool_decide (VmMigrationStatus.vm_uid (status m) = Some (Objects.uid (metadata v)))))
      then unresolved m "legacy or replaced VM: migration ownership requires recovery"
      else match (if VmMigrationStatus.cancelling (status m) && negb (VmMigrationPhaseKind.is_final kind)
                  then VmMigrationStatus.target_node (status m) else None) with
           | Some target => abandon m v target "migration cancelled"
           | None =>
               match kind with
               | VmMigrationPhaseKind.Pending => prepare held overcommit m v
               | VmMigrationPhaseKind.Preparing => send timeouts m v
               | VmMigrationPhaseKind.Running => settle_attempt timeouts m v
               | VmMigrationPhaseKind.Succeeded | VmMigrationPhaseKind.Failed => ok tt
               end
           end
  end.

Fixpoint reap_each (orphans : list CapacityReservation) : pass_m D unit :=
  match orphans with
  | [] => ok tt
  | o :: orphans =>
      _ ← try_store (delete_if (Sp := CapacityReservationSpec.t) (St := unit) prefix sur (name (metadata o))
                       (resource_version (metadata o)));
      reap_each orphans
  end.

Definition reap_reservations (held : list CapacityReservation) (ms : list VmMigration) (vms : list Vm) : pass_m D unit :=
  at_ ← now_; reap_each (orphaned_reservations held ms vms at_).

(** A failing step is logged and the next migration goes on. *)
Fixpoint step_each (timeouts : Timeouts.t) (held : list CapacityReservation) (overcommit : Overcommit.t)
    (ms : list VmMigration) : pass_m D unit :=
  match ms with
  | [] => ok tt
  | m :: ms =>
      if VmMigrationPhaseKind.is_final (migration_kind m) || is_some (deletion_timestamp (metadata m))
      then step_each timeouts held overcommit ms
      else _ ← attempt (step timeouts held overcommit m); step_each timeouts held overcommit ms
  end.

Definition reconcile_migrations (timeouts : Timeouts.t) (held : list CapacityReservation) (vms : list Vm)
    (overcommit : Overcommit.t) : pass_m D unit :=
  ms ← migrations;
  _ ← reap_reservations held ms vms;
  step_each timeouts held overcommit ms.

(** ** Reports *)

Fixpoint ingest_lines (node : string) (v : Vm) (m : VmMigration) (lines : list MigrationReport.t) : pass_m D unit :=
  match lines with
  | [] => ok tt
  | line :: lines =>
      if bool_decide (status (apply_report m v node line) = status m) then ingest_lines node v m lines
      else
        _ ← st (mutate_if prefix sur (name (metadata m)) (Objects.uid (metadata m))
                  (fun m => apply_report m v node line));
        ingest_lines node v m lines
  end.

Fixpoint ingest_each (node : string) (vms : list Vm) (lines : list MigrationReport.t) (ms : list VmMigration)
    : pass_m D unit :=
  match ms with
  | [] => ok tt
  | m :: ms =>
      match List.find (fun v : Vm => String.eqb (name (metadata v)) (VmMigrationSpec.vm (spec m))) vms with
      | None => ingest_each node vms lines ms
      | Some v => _ ← ingest_lines node v m lines; ingest_each node vms lines ms
      end
  end.

Definition ingest_reports (vms : list Vm) (node : string) (lines : list MigrationReport.t) : pass_m D unit :=
  match lines with
  | [] => ok tt
  | _ => ms ← migrations; ingest_each node vms lines ms
  end.
End steps.

(** * Who is told what *)

Section authority.
Context {D Bytes : Type} `{!Etcd D Bytes, !RawJson Bytes, !StatusJson}.
Context `{!Serde Bytes NodeSpec.t NodeStatus.t, !Serde Bytes VmSpec.t VmStatus.t, !Resource VmSpec.t VmStatus.t,
  !Serde Bytes VmMigrationSpec.t VmMigrationStatus.t}.
Variable prefix : string.
Variable sur : surroundings D.
Variable net : peers.

(** A compare-and-swap of [o] was made after [s0], before [s], and answered [o']. *)
Definition landed {Sp St} `{!Resource Sp St, !Serde Bytes Sp St} (s0 : D) (o o' : Object Sp St) (s : D) : Prop :=
  exists w w', evolves s0 (db w) /\ update prefix sur o w = (w', Ok o') /\ evolves (db w') s.

(** The vm was read between [s0] and [s]. *)
Definition was_read (s0 : D) (vm : string) (v : Vm) (s : D) : Prop :=
  exists w w', evolves s0 (db w) /\ get (Sp := VmSpec.t) (St := VmStatus.t) prefix sur vm w = (w', Ok v)
    /\ evolves (db w') s.

(** The source declined, in words, to send. *)
Definition declined (s0 : D) (source : string) (cmd : NodeCommand.t) (s : D) : Prop :=
  exists p p' e refusal, evolves s0 (db (p_store p)) /\ dispatch_send prefix sur net source cmd p = (p', Err e)
    /\ refused_to_send e = Some refusal /\ evolves (db (p_store p')) s.

(** Why an attempt may be given up at [s], and the record that carries it. *)
Inductive given_up (timeouts : Timeouts.t) (s0 : D) (m : VmMigration) (v : Vm) (target : string) (s : D)
    : VmMigration -> Prop :=
| given_up_cancelled :
    VmMigrationStatus.cancelling (status m) = true -> VmMigrationStatus.target_node (status m) = Some target ->
    VmMigrationPhaseKind.is_final (migration_kind m) = false ->
    given_up timeouts s0 m v target s m
| given_up_unprepared source at_ claimed :
    migration_kind m = VmMigrationPhaseKind.Pending ->
    landed s0 (Edit.claim m v source target at_) claimed s ->
    given_up timeouts s0 m v target s claimed
| given_up_late at_ over :
    migration_kind m = VmMigrationPhaseKind.Preparing -> VmMigrationStatus.cancelling (status m) = false ->
    VmMigrationStatus.target_node (status m) = Some target ->
    overdue m (Timeouts.prepare timeouts) at_ = Some over ->
    given_up timeouts s0 m v target s m
| given_up_declined source peer at_ running :
    migration_kind m = VmMigrationPhaseKind.Preparing -> VmMigrationStatus.cancelling (status m) = false ->
    VmMigrationStatus.source_node (status m) = Some source -> VmMigrationStatus.target_node (status m) = Some target ->
    landed s0 (Edit.sending target peer at_ m) running s ->
    declined s0 source (NodeCommand.MigrateOut (Objects.uid (metadata v)) peer
                          (unwrap_or "" (VmMigrationStatus.migration_id (status m)))) s ->
    given_up timeouts s0 m v target s running
| given_up_still_here source :
    migration_kind m = VmMigrationPhaseKind.Running ->
    VmMigrationStatus.source_node (status m) = Some source -> VmMigrationStatus.target_node (status m) = Some target ->
    VmMigrationStatus.source_reported (status m) = Some SEND_STILL_HERE ->
    VmMigrationStatus.target_reported (status m) = None
      \/ VmMigrationStatus.target_reported (status m) = Some "Provisioning" ->
    given_up timeouts s0 m v target s m.

(** The commands of a step on the record [m] as read, at the moment each is
    handed over. *)
Inductive authorised (timeouts : Timeouts.t) (s0 : D) (m : VmMigration) (v : Vm) (s : D)
    : string * Op.t -> Prop :=
| may_open source target at_ claimed volume doc :
    migration_kind m = VmMigrationPhaseKind.Pending ->
    landed s0 (Edit.claim m v source target at_) claimed s ->
    authorised timeouts s0 m v s (target, NodeCommand.into_op (NodeCommand.ProvisionVolume volume doc))
| may_prepare source target at_ claimed doc :
    migration_kind m = VmMigrationPhaseKind.Pending ->
    landed s0 (Edit.claim m v source target at_) claimed s ->
    authorised timeouts s0 m v s
      (target, NodeCommand.into_op (NodeCommand.PrepareMigration (Objects.uid (metadata v)) doc (Objects.uid (metadata m))))
| may_send source target peer at_ running :
    migration_kind m = VmMigrationPhaseKind.Preparing -> VmMigrationStatus.cancelling (status m) = false ->
    VmMigrationStatus.source_node (status m) = Some source -> VmMigrationStatus.target_node (status m) = Some target ->
    peer_of (status m) = Some peer ->
    landed s0 (Edit.sending target peer at_ m) running s ->
    authorised timeouts s0 m v s
      (source, NodeCommand.into_op (NodeCommand.MigrateOut (Objects.uid (metadata v)) peer
                 (unwrap_or "" (VmMigrationStatus.migration_id (status m)))))
| may_free source target bound cmd :
    migration_kind m = VmMigrationPhaseKind.Running ->
    VmMigrationStatus.source_node (status m) = Some source -> VmMigrationStatus.target_node (status m) = Some target ->
    arrived (status m) = true -> landed s0 (bind_to v target) bound s ->
    cmd = cleanup m v true \/ (exists volume, cmd = NodeCommand.ForgetVolume volume) ->
    authorised timeouts s0 m v s (source, NodeCommand.into_op cmd)
| may_tear_down target record record' :
    given_up timeouts s0 m v target s record -> is_some (VmMigrationStatus.migration_id (status record)) = true ->
    (VmMigrationStatus.cancelling (status record) = true /\ record' = record)
      \/ landed s0 (Edit.cancel record) record' s ->
    authorised timeouts s0 m v s (target, NodeCommand.into_op (cleanup record' v false)).
End authority.

(** * Lemmas *)

Section quiet_parts.
Context {D Bytes : Type} `{!Etcd D Bytes, !EtcdLaws D Bytes, !RawJson Bytes, !StatusJson}.
Context `{!Serde Bytes NodeSpec.t NodeStatus.t, !Serde Bytes VmSpec.t VmStatus.t, !Resource VmSpec.t VmStatus.t,
  !Serde Bytes VmMigrationSpec.t VmMigrationStatus.t, !Serde Bytes CapacityReservationSpec.t unit,
  !Serde Bytes VolumeSpec.t VolumeStatus.t, !Serde Bytes StoragePoolSpec.t StoragePoolStatus.t}.
Context (prefix : string) (sur : surroundings D) (net : peers) (Henv : lawful_env sur).
Context (render : value -> string) (new_uid : nat -> string).
Implicit Types (P : D -> string * Op.t -> Prop) (s : D).

Lemma grows_volume_uids names acc : grows (volume_uids_of prefix sur names acc).
Proof using Henv.
  revert acc. induction names as [|n names IH]; intros acc; [apply grows_lift|].
  simpl. apply grows_bind; [by apply grows_get|]. intros o. apply IH.
Qed.

Lemma grows_volume_document volume : grows (volume_spec_json prefix sur volume).
Proof using Henv. apply grows_bind; [by apply grows_get|intros; apply grows_lift]. Qed.

Lemma emits_now s P : emits s P (now_ sur).
Proof using. apply emits_st, grows_now. Qed.

Lemma emits_uid s P : emits s P (fresh_uid new_uid).
Proof using. apply emits_silent. intros p p' r [= <- <-]. by split; [apply rtc_refl|]. Qed.

Lemma emits_list_or_none {Sp St} `{!Resource Sp St, !Serde Bytes Sp St} s P :
  emits s P (list_or_none (Sp := Sp) (St := St) prefix sur).
Proof using Henv. unfold list_or_none. repeat emit. Qed.

Lemma emits_release s P m : emits s P (release_room prefix sur m).
Proof using Henv EtcdLaws0. unfold release_room. repeat emit. Qed.

Lemma emits_fail s P m why : emits s P (fail prefix sur m why).
Proof using Henv EtcdLaws0.
  unfold fail. apply emits_seq; [apply emits_now|intros at_]. repeat emit. apply emits_release.
Qed.

Lemma emits_unresolved s P m why : emits s P (unresolved prefix sur m why).
Proof using Henv EtcdLaws0.
  unfold unresolved. apply emits_seq; [apply emits_now|intros at_]. repeat emit.
Qed.

Lemma emits_confirm s P mine overcommit : emits s P (confirm prefix sur mine overcommit).
Proof using Henv.
  apply emits_silent. intros p p' r. unfold confirm, claim_holds.
  destruct (get _ _ _ _) as [w1 node] eqn:E1. destruct (list2 _ _ _) as [w2 seen] eqn:E2.
  intros [= <- <-]. apply grows_get in E1; [|done]. apply grows_list2 in E2; [|done].
  split; [along|done].
Qed.

Lemma emits_reachable s P : emits s P (fun p => reachable_anywhere prefix sur (p_nodes p) p).
Proof using Henv.
  intros p p' r Hs Hr.
  assert (He : emits s P (reachable_anywhere prefix sur (p_nodes p))) by (unfold reachable_anywhere; repeat emit).
  by eapply He.
Qed.

Lemma emits_reserve s P m v target : emits s P (reserve prefix sur new_uid m v target).
Proof using Henv EtcdLaws0.
  unfold reserve. apply emits_seq; [apply emits_now|intros at_]. apply emits_seq; [apply emits_uid|intros uid].
  repeat emit.
Qed.

Lemma emits_move s P uid from to names : emits s P (move_each prefix sur uid from to names).
Proof using Henv EtcdLaws0. induction names as [|n names IH]; simpl; repeat emit. apply IH. Qed.

Lemma emits_spec s P v : emits s P (spec_for prefix sur render v).
Proof using Henv.
  unfold spec_for. apply emits_seq; [apply emits_st, grows_volume_uids|intros refs]. repeat emit.
Qed.

Lemma emits_forget s P names node :
  (forall s' volume, evolves s s' -> P s' (node, NodeCommand.into_op (NodeCommand.ForgetVolume volume))) ->
  emits s P (forget_each prefix sur net names node).
Proof using Henv EtcdLaws0.
  intros HP. induction names as [|n names IH]; simpl; repeat emit; try apply IH.
  apply emits_dispatch; eauto.
Qed.

Lemma emits_open s P names node :
  (forall s' volume doc, evolves s s' -> P s' (node, NodeCommand.into_op (NodeCommand.ProvisionVolume volume doc))) ->
  emits s P (open_each prefix sur net render names node).
Proof using Henv EtcdLaws0.
  intros HP. induction names as [|n names IH]; simpl; [emit|].
  apply emits_seq; [emit|intros volume]. apply emits_seq; [apply emits_st, grows_volume_document|intros doc].
  repeat emit; try apply IH. apply emits_dispatch; eauto.
Qed.
End quiet_parts.

Section authorised_steps.
Context {D Bytes : Type} `{!Etcd D Bytes, !EtcdLaws D Bytes, !RawJson Bytes, !StatusJson}.
Context `{!Serde Bytes NodeSpec.t NodeStatus.t, !Serde Bytes VmSpec.t VmStatus.t, !Resource VmSpec.t VmStatus.t,
  !Serde Bytes VmMigrationSpec.t VmMigrationStatus.t, !Serde Bytes CapacityReservationSpec.t unit,
  !Serde Bytes VolumeSpec.t VolumeStatus.t, !Serde Bytes StoragePoolSpec.t StoragePoolStatus.t}.
Context (prefix : string) (sur : surroundings D) (net : peers) (Henv : lawful_env sur).
Context (assign : Vm -> list Candidate.t -> option string) (render : value -> string)
  (payload_json : string -> result string value) (new_uid : nat -> string).
Context (timeouts : Timeouts.t) (s0 : D) (m : VmMigration) (v : Vm).
Abbreviation auth := (authorised prefix sur net timeouts s0 m v).
Abbreviation quits := (given_up prefix sur net timeouts s0 m v).

Lemma landed_later {Sp St} `{!Resource Sp St, !Serde Bytes Sp St} (o o' : Object Sp St) s s' :
  landed prefix sur s0 o o' s -> evolves s s' -> landed prefix sur s0 o o' s'.
Proof using. intros (w & w' & ? & ? & ?) ?. exists w, w'. split_and!; [done..|along]. Qed.

Lemma landed_now {Sp St} `{!Resource Sp St, !Serde Bytes Sp St} (o o' : Object Sp St) w w' :
  evolves s0 (db w) -> update prefix sur o w = (w', Ok o') -> landed prefix sur s0 o o' (db w').
Proof using. intros. exists w, w'. split_and!; [done..|by apply rtc_refl]. Qed.

Lemma given_up_later target s s' record : quits target s record -> evolves s s' -> quits target s' record.
Proof using.
  intros Hq Hs. destruct Hq.
  - by apply given_up_cancelled.
  - eapply given_up_unprepared; eauto using landed_later.
  - by eapply given_up_late.
  - eapply given_up_declined; eauto using landed_later.
    match goal with Hd : declined _ _ _ _ _ _ _ |- _ => destruct Hd as (p & p' & e & x & ? & ? & ? & ?) end. exists p, p', e, x. split_and!; [done..|along].
  - by eapply given_up_still_here.
Qed.

Lemma emits_tear_down s target record' why :
  (forall s', evolves s s' -> auth s' (target, NodeCommand.into_op (cleanup record' v false))) ->
  emits s auth (tear_down prefix sur net record' v target why).
Proof using Henv EtcdLaws0.
  intros HP. unfold tear_down. repeat emit.
  - by apply emits_dispatch.
  - apply emits_fail; done.
  - apply emits_unresolved; done.
Qed.

Lemma emits_abandon s target record why :
  evolves s0 s -> quits target s record -> emits s auth (abandon prefix sur net record v target why).
Proof using Henv EtcdLaws0.
  intros Hs Hq. unfold abandon.
  destruct (is_some (VmMigrationStatus.migration_id (status record))) eqn:Eid; simpl;
    [|apply emits_unresolved; done].
  destruct (VmMigrationStatus.cancelling (status record)) eqn:Ec; simpl.
  - apply emits_tear_down. intros s' Hs'. eapply may_tear_down; eauto using given_up_later.
  - apply emits_write; [by apply grows_update|]. intros w w' [record'|e] Hw Hu; [|repeat emit].
    pose proof (grows_update _ _ Henv _ _ _ _ Hu) as Hg.
    apply emits_tear_down. intros s' Hs'. eapply may_tear_down; [|done|].
    + eapply given_up_later; [done|]. along.
    + right. eapply landed_later; [|done]. apply (landed_now _ _ w w'); [along|done].
Qed.

Lemma emits_build s source target at_ claimed :
  evolves s0 s -> migration_kind m = VmMigrationPhaseKind.Pending ->
  landed prefix sur s0 (Edit.claim m v source target at_) claimed s ->
  emits s auth (build_destination prefix sur net render payload_json m claimed v target).
Proof using Henv EtcdLaws0.
  intros Hs Hk Hl.
  assert (Ha : forall why, emits s auth (abandon prefix sur net claimed v target why)).
  { intros why. apply emits_abandon; [done|]. by eapply given_up_unprepared. }
  unfold build_destination. apply emits_seq.
  { emit. apply emits_open; [done|]. intros s' volume doc Hs'. eapply may_open; eauto using landed_later. }
  intros [[]|e]; [|apply Ha]. apply emits_seq; [emit; by apply emits_spec|].
  intros [doc|e]; [|apply Ha]. apply emits_seq.
  { emit. apply emits_seq; [|intros payload; repeat emit].
    apply emits_dispatch; [done|]. intros s' Hs'. eapply may_prepare; eauto using landed_later. }
  intros [peer|e]; [|apply Ha]. apply emits_seq; [apply emits_now|intros]. repeat emit.
Qed.

Lemma emits_confirmed s overcommit source target mine :
  evolves s0 s -> migration_kind m = VmMigrationPhaseKind.Pending ->
  emits s auth (confirm_and_claim prefix sur net render payload_json overcommit m v source target mine).
Proof using Henv EtcdLaws0.
  intros Hs Hk. unfold confirm_and_claim. apply emits_seq; [by apply emits_confirm|].
  intros [[]|why]; [|by apply emits_fail|emit].
  unfold claim_attempt.
  apply emits_seq; [apply emits_now|intros at_]. apply emits_write; [by apply grows_update|].
  intros w w' [claimed|e] Hw Hu; [|repeat emit].
  pose proof (grows_update _ _ Henv _ _ _ _ Hu) as Hg.
  apply (emits_build _ source target at_); [along|done|].
  apply (landed_now _ _ w w'); [along|done].
Qed.

Lemma emits_prepare s held overcommit :
  evolves s0 s -> migration_kind m = VmMigrationPhaseKind.Pending ->
  emits s auth (prepare prefix sur net assign render payload_json new_uid held overcommit m v).
Proof using Henv EtcdLaws0.
  intros Hs Hk. unfold prepare. repeat first [by apply emits_fail | by apply emits_confirmed
    | by apply emits_list_or_none | by apply emits_reserve | by apply emits_reachable | emit].
Qed.

Lemma emits_send s :
  evolves s0 s -> emits s auth (send prefix sur net timeouts m v).
Proof using Henv EtcdLaws0.
  intros Hs. unfold send. destruct (_ || _) eqn:Eg; [emit|]. apply orb_false_iff in Eg as [Ec Ek].
  apply negb_false_iff, bool_decide_eq_true in Ek.
  destruct (VmMigrationStatus.source_node (status m)) as [source|] eqn:Es; [|by apply emits_unresolved].
  destruct (VmMigrationStatus.target_node (status m)) as [target|] eqn:Et; [|by apply emits_unresolved].
  apply emits_seq; [apply emits_now|intros at_].
  destruct (overdue m (Timeouts.prepare timeouts) at_) as [over|] eqn:Eo.
  { apply emits_abandon; [done|]. by eapply given_up_late. }
  destruct (peer_of (status m)) as [peer|] eqn:Ep; [|emit]. unfold claim_send.
  apply emits_seq; [apply emits_now|intros at']. apply emits_write; [by apply grows_update|].
  intros w w' [running|e] Hw Hu; [|repeat emit].
  pose proof (grows_update _ _ Henv _ _ _ _ Hu) as Hg.
  assert (Hl : landed prefix sur s0 (Edit.sending target peer at' m) running (db w')).
  { apply (landed_now _ _ w w'); [along|done]. }
  assert (Hsend : emits (db w') auth (dispatch_send prefix sur net source
      (NodeCommand.MigrateOut (Objects.uid (metadata v)) peer (unwrap_or "" (VmMigrationStatus.migration_id (status m)))))).
  { apply emits_dispatch; [done|]. intros s' Hs'. eapply may_send; eauto using landed_later. }
  apply emits_bind; [by emit|]. intros p p' [payload|e] Hp Hr; [emit|].
  destruct (Hsend p p' (Err e) Hp) as [Hg' _].
  { revert Hr. unfold attempt. destruct (dispatch_send _ _ _ _ _ _). by intros [= -> ->]. }
  destruct (refused_to_send e) as [refusal|] eqn:Er; [|by apply emits_unresolved].
  apply emits_abandon; [along|].
  eapply given_up_declined; [done..|eapply landed_later; [done|along]|].
  exists p, p', e, refusal. split_and!; [along| |done|by apply rtc_refl].
  revert Hr. unfold attempt. destruct (dispatch_send _ _ _ _ _ _). by intros [= -> ->].
Qed.

Lemma emits_settle s :
  evolves s0 s -> migration_kind m = VmMigrationPhaseKind.Running ->
  emits s auth (settle_attempt prefix sur net timeouts m v).
Proof using Henv EtcdLaws0.
  intros Hs Hk. unfold settle_attempt.
  destruct (VmMigrationStatus.source_node (status m)) as [source|] eqn:Es; [|by apply emits_unresolved].
  destruct (VmMigrationStatus.target_node (status m)) as [target|] eqn:Et; [|by apply emits_unresolved].
  destruct (arrived (status m)) eqn:Ea; simpl.
  - unfold hand_over. apply emits_write; [by apply grows_update|].
    intros w w' [bound|e] Hw Hu; [|repeat emit].
    assert (Hl : landed prefix sur s0 (bind_to v target) bound (db w')).
    { apply (landed_now _ _ w w'); [along|done]. }
    apply emits_seq; [by apply emits_release|intros _]. apply emits_seq.
    { emit. apply emits_dispatch; [done|]. intros. eapply may_free; eauto using landed_later. }
    intros _. apply emits_seq; [by apply emits_move|intros _]. apply emits_seq.
    { apply emits_forget; [done|]. intros. eapply may_free; eauto using landed_later. }
    intros _. apply emits_seq; [apply emits_now|intros at_]. repeat emit.
  - destruct (still_here source target (status m)) as [[why|why]|] eqn:Eh.
    + apply emits_abandon; [done|]. unfold still_here in Eh.
      destruct (bool_decide _) eqn:E1; [|done]. apply bool_decide_eq_true in E1. simpl in Eh.
      eapply given_up_still_here; [done..|].
      destruct (VmMigrationStatus.target_reported (status m)) as [said|]; [|by left].
      destruct (String.eqb said "Provisioning") eqn:E; [|done]. apply String.eqb_eq in E as ->. by right.
    + by apply emits_unresolved.
    + apply emits_seq; [apply emits_now|intros at_]. destruct (overdue _ _ _); [|emit].
      unfold verdict_on_timeout. destruct (bool_decide _); by apply emits_unresolved.
Qed.
End authorised_steps.

Section step_theorem.
Context {D Bytes : Type} `{!Etcd D Bytes, !EtcdLaws D Bytes, !RawJson Bytes, !StatusJson}.
Context `{!Serde Bytes NodeSpec.t NodeStatus.t, !Serde Bytes VmSpec.t VmStatus.t, !Resource VmSpec.t VmStatus.t,
  !Serde Bytes VmMigrationSpec.t VmMigrationStatus.t, !Serde Bytes CapacityReservationSpec.t unit,
  !Serde Bytes VolumeSpec.t VolumeStatus.t, !Serde Bytes StoragePoolSpec.t StoragePoolStatus.t}.
Context (prefix : string) (sur : surroundings D) (net : peers).
Context (assign : Vm -> list Candidate.t -> option string) (render : value -> string)
  (payload_json : string -> result string value) (new_uid : nat -> string).

(** C4. Every command a step of a live migration hands over is authorised by
    the record as read, and its authorisation stands in the store when the
    command goes: the destination is told to open disks and listen only after
    the attempt was claimed by compare-and-swap, the source is told to send only
    after the record says running, the source is freed only after the guest was
    reported gone there and running at the destination and the binding was
    moved, and the destination is torn down only after the record says
    cancelling and for one of the reasons that leave no guest there.  No other
    command is ever sent, whatever the store, the clock and the other writers
    do. *)
Theorem step_authorised timeouts held overcommit m p p' r :
  lawful_env sur ->
  step prefix sur net assign render payload_json new_uid timeouts held overcommit m p = (p', r) ->
  exists new, p_sent p' = p_sent p ++ map snd new
    /\ Forall (fun '(s, c) => evolves (db (p_store p)) s /\ evolves s (db (p_store p'))
         /\ exists v, was_read prefix sur (db (p_store p)) (VmMigrationSpec.vm (spec m)) v s
            /\ authorised prefix sur net timeouts (db (p_store p)) m v s c) new.
Proof.
  intros Henv Hrun. set (s0 := db (p_store p)).
  set (P := fun s c => exists v, was_read prefix sur s0 (VmMigrationSpec.vm (spec m)) v s
              /\ authorised prefix sur net timeouts s0 m v s c).
  assert (He : emits s0 P (step prefix sur net assign render payload_json new_uid timeouts held overcommit m)).
  2:{ destruct (He p p' r (rtc_refl _ _) Hrun) as (_ & new & Hs & Hf). exists new. split; [done|].
      eapply Forall_impl; [exact Hf|]. by intros [s c]. }
  unfold step. apply emits_write; [by apply grows_get|]. intros w w' [v|e] Hw Hg.
  2:{ repeat first [by apply emits_fail | by apply emits_unresolved | emit]. }
  pose proof (grows_get _ _ Henv _ _ _ _ Hg) as Hev.
  apply (emits_reading _ (authorised prefix sur net timeouts s0 m v)).
  { intros s c Hs Ha. exists v. split; [|done]. exists w, w'. by split_and!. }
  destruct (_ && _ && _); [by apply emits_unresolved|].
  match goal with |- emits _ _ (match ?x with _ => _ end) => destruct x as [target|] eqn:Et end.
  - destruct (_ && _) eqn:Ec in Et; [|done]. apply andb_prop in Ec as [Ec Ef%negb_true_iff].
    apply emits_abandon; [done|along|]. by apply given_up_cancelled.
  - destruct (migration_kind m) eqn:Ek.
    + by apply emits_prepare; [..|along|].
    + by apply emits_send; [|along].
    + by apply emits_settle; [|along|].
    + emit.
    + emit.
Qed.
End step_theorem.

(** * One reading, one step *)

(** The writes guarded by the version of the record they were decided on. *)
Inductive guarded : (VmMigration -> VmMigration) -> Prop :=
| guarded_claim v source target at_ : guarded (fun m => Edit.claim m v source target at_)
| guarded_sending target peer at_ : guarded (Edit.sending target peer at_)
| guarded_cancel : guarded Edit.cancel
| guarded_fail why at_ : guarded (Edit.fail why at_).

Lemma guarded_metadata e m : guarded e -> metadata (e m) = metadata m.
Proof. by intros []. Qed.

Section exclusion.
Context {D Bytes : Type} `{!Etcd D Bytes, !EtcdLaws D Bytes, !RawJson Bytes, !Serde Bytes VmMigrationSpec.t VmMigrationStatus.t}.
Context (prefix : string).

End exclusion.

(** * A repeated request *)

Section requests.
Context {D Bytes : Type} `{!Etcd D Bytes, !RawJson Bytes, !StatusJson}.
Context `{!Serde Bytes NodeSpec.t NodeStatus.t, !Serde Bytes VmSpec.t VmStatus.t, !Resource VmSpec.t VmStatus.t,
  !Serde Bytes VmMigrationSpec.t VmMigrationStatus.t,
  !Serde Bytes VolumeSpec.t VolumeStatus.t, !Serde Bytes StoragePoolSpec.t StoragePoolStatus.t}.
Context (prefix : string) (sur : surroundings D) (new_uid : nat -> string).

(** The cloud's request for a live migration is acknowledged only by the
    call that created the record.  A repeated request meets the record the first
    one left, the store answers that the name is taken and never that there was
    a conflict, and the repetition is reported as an error: the arm that would
    acknowledge it is never reached. *)
Theorem request_acknowledged_once nm vm cloud target p p' :
  start_from_the_cloud prefix sur new_uid nm vm cloud target p = (p', Ok tt) ->
  exists (guest : Vm) uid at_ w o,
    create prefix sur
      (declare_migration nm uid at_
         {| VmMigrationSpec.tenant := unwrap_or "" (VmSpec.tenant (spec guest)); VmMigrationSpec.vm := vm;
            VmMigrationSpec.target_node := target |}) w = (p_store p', Ok o).
Proof.
  unfold start_from_the_cloud. intros (p1 & r1 & _ & Hr)%pass_bind_ok.
  destruct r1 as [guest|e]; [|done]. destruct (negb _); [done|].
  apply pass_bind_ok in Hr as (p2 & why & _ & Hr). destruct why; [done|].
  apply pass_bind_ok in Hr as (p3 & at_ & _ & Hr). apply pass_bind_ok in Hr as (p4 & uid & _ & Hr).
  apply pass_bind_ok in Hr as (p5 & r & Hc & Hr). unfold try_store in Hc.
  destruct (create _ _ _ _) as [w' x] eqn:Ec. injection Hc as <- <-.
  destruct x as [o|e].
  - injection Hr as <-. simpl. by eexists guest, uid, at_, _, o.
  - destruct e; try done. by apply create_no_conflict in Ec.
Qed.
End requests.

(** * Witnesses *)

(** Stored bytes, one constructor per kind. *)
Inductive cluster_bytes :=
| KeptNode (n : Node) | KeptVm (v : Vm) | KeptMigration (m : VmMigration) | KeptClaim (r : CapacityReservation)
| KeptVolume (v : Volume) | KeptPool (p : StoragePool).

#[export] Instance cluster_raw : RawJson cluster_bytes := {| raw := fun _ => None |}.

#[export] Instance cluster_node : Serde cluster_bytes NodeSpec.t NodeStatus.t :=
  {| to_vec := fun n => Ok (KeptNode n);
     from_slice := fun b => match b with KeptNode n => Ok n | _ => Err "expected value" end |}.

#[export] Instance cluster_vm : Serde cluster_bytes VmSpec.t VmStatus.t :=
  {| to_vec := fun v => Ok (KeptVm v);
     from_slice := fun b => match b with KeptVm v => Ok v | _ => Err "expected value" end |}.

#[export] Instance cluster_migration : Serde cluster_bytes VmMigrationSpec.t VmMigrationStatus.t :=
  {| to_vec := fun m => Ok (KeptMigration m);
     from_slice := fun b => match b with KeptMigration m => Ok m | _ => Err "expected value" end |}.

#[export] Instance cluster_claim : Serde cluster_bytes CapacityReservationSpec.t unit :=
  {| to_vec := fun r => Ok (KeptClaim r);
     from_slice := fun b => match b with KeptClaim r => Ok r | _ => Err "expected value" end |}.

#[export] Instance cluster_volume : Serde cluster_bytes VolumeSpec.t VolumeStatus.t :=
  {| to_vec := fun v => Ok (KeptVolume v);
     from_slice := fun b => match b with KeptVolume v => Ok v | _ => Err "expected value" end |}.

#[export] Instance cluster_pool : Serde cluster_bytes StoragePoolSpec.t StoragePoolStatus.t :=
  {| to_vec := fun p => Ok (KeptPool p);
     from_slice := fun b => match b with KeptPool p => Ok p | _ => Err "expected value" end |}.

#[local] Instance cluster_vms : Resource VmSpec.t VmStatus.t := vm_resource (fun _ => "").
#[local] Instance cluster_status : StatusJson :=
  {| write_status e := ApiError.message e; read_status _ := None; status_text := show_N; lossy_trim s := s |}.

Lemma quiet_lawful {D Bytes} `{!Etcd D Bytes} : lawful_env (D := D) quiet.
Proof. intros n s. apply rtc_refl. Qed.

(** A destination that listens, and a source that has a session here. *)
Definition listening_record : VmMigration :=
  let m := declare_migration "v1-move" "u-m" 1%Z
             {| VmMigrationSpec.tenant := ""; VmMigrationSpec.vm := "v1"; VmMigrationSpec.target_node := None |} in
  let m := Edit.claim m (example_vm "v1") "n1" "n2" 1%Z in
  let m := settle 1%Z m in
  let m := Edit.listening "n2" "n2:49152" 1%Z m in
  with_metadata (settle 1%Z m) (set_resource_version (metadata m) "1").

Definition listening_store : mem cluster_bytes :=
  mem_commit mem_empty
    [Put "p/registry/vms/v1" (KeptVm (example_vm "v1")) NoLease;
     Put "p/registry/vmmigrations/v1-move" (KeptMigration listening_record) NoLease].

Definition obliging : peers :=
  {| connected := fun _ => ["n1"]; session := fun _ _ _ => Answer.Acked "{}";
     relay := fun _ _ _ _ => Err (Failure.msg "unreachable") |}.

Definition idle_pass {D} (s : D) : pass D :=
  {| p_store := World s 0; p_sent := []; p_nodes := []; p_noted := []; p_told := [] |}.

Definition send_step : pass (mem cluster_bytes) * result Failure.t unit :=
  step "p" quiet obliging FirstFit_assign (fun _ => "") (fun _ => Err "") (fun _ => "u") Timeouts.default []
    Overcommit.default listening_record (idle_pass listening_store).

Lemma step_authorised_witness :
  p_sent send_step.1 = [("n1", Op.MigrateOut "v1" "n2:49152" "u-m")]
  /\ exists new, p_sent send_step.1 = map snd new
     /\ Forall (fun '(s, c) => exists v, authorised "p" quiet obliging Timeouts.default listening_store listening_record v s c) new.
Proof.
  split; [by vm_compute|].
  destruct (step_authorised "p" quiet obliging FirstFit_assign (fun _ => "") (fun _ => Err "") (fun _ => "u")
    Timeouts.default [] Overcommit.default listening_record (idle_pass listening_store) send_step.1 send_step.2)
    as (new & Hs & Hf).
  - apply quiet_lawful.
  - apply surjective_pairing.
  - exists new. split; [exact Hs|]. eapply Forall_impl; [exact Hf|]. intros [s c] (_ & _ & v & _ & Ha). by exists v.
Defined.


(** A running guest of the cloud, and a node that can take it. *)
Definition cloud_guest : Vm :=
  let v := example_vm "v1" in
  with_status (with_metadata v (mark_managed_by_cloud (metadata v) "u-cloud"))
    (VmStatus.set_phase (status v) (phase_of VmPhaseKind.Running 1%Z)).

Definition roomy_node : Node :=
  object_new API_VERSION "Node" "n2" "u-n2" 1%Z NodeSpec.default
    {| NodeStatus.ready := true; NodeStatus.last_heartbeat := None; NodeStatus.agent_version := None;
       NodeStatus.capacity :=
         {| NodeCapacity.vcpus := 8; NodeCapacity.mem_mib := 4096;
            NodeCapacity.capabilities := ["hypervisor/cloud-hypervisor"]; NodeCapacity.volume_localities := [] |};
       NodeStatus.vms := 0; NodeStatus.session_endpoint := None; NodeStatus.draining := None;
       NodeStatus.conditions := []; NodeStatus.machine := None |}.

Definition asked_store : mem cluster_bytes :=
  mem_commit mem_empty
    [Put "p/registry/vms/v1" (KeptVm cloud_guest) NoLease; Put "p/registry/nodes/n2" (KeptNode roomy_node) NoLease].

Definition ask_for_move (p : pass (mem cluster_bytes)) : pass (mem cluster_bytes) * result Failure.t unit :=
  start_from_the_cloud "p" quiet (fun _ => "u") "move-1" "v1" "u-cloud" None p.

Lemma request_acknowledged_once_witness :
  (exists w m o, create (D := mem cluster_bytes) (Sp := VmMigrationSpec.t) (St := VmMigrationStatus.t) "p" quiet m w
     = (p_store (ask_for_move (idle_pass asked_store)).1, Ok o))
  /\ (ask_for_move (ask_for_move (idle_pass asked_store)).1).2
     = Err (Failure.of_store (StoreError.AlreadyExists "vmmigrations/move-1")).
Proof.
  split; [|by vm_compute].
  destruct (request_acknowledged_once "p" quiet (fun _ => "u") "move-1" "v1" "u-cloud" None (idle_pass asked_store)
    (ask_for_move (idle_pass asked_store)).1) as (guest & uid & at_ & w & o & Hc).
  - transitivity (ask_for_move (idle_pass asked_store)); [reflexivity|].
    rewrite (surjective_pairing (ask_for_move (idle_pass asked_store))). f_equal.
  - eexists w, _, o. exact Hc.
Defined.
