(* ===== verification/PlacePass.v ===== *)
(** The placement half of a cluster's pass over its VMs:
    [src/components/cluster-controller/src/reconcile/placement.rs].  A VM without a
    node is decided on the pass's candidates, claimed in the store, confirmed there,
    and bound under its claim; what holds it back is written on it.  The claim
    itself is in [Commit]; here is the pass around it. *)
From Stdlib Require Import Ascii String NArith ZArith List Bool Lia.
From stdpp Require Import base list strings gmap relations.
From S2P Require Import Prelude RustStr Json Capability Heartbeat Vm Node Storage Sizing Placement Diagnosis.
From S2P Require Import Reservation Claims Commit Quota Gateways Lifecycle Dispatch Namespaces SpecDocs.
From S2P Require Import MigrationRules ClusterMigration Deletion.
From S2P Require Import Phase Objects Store StoreSafety Growth.

(** * Edits of a VM *)

Module VmEdit.
(** One field of a status. *)
Definition set_reported (x : option VmReported) (s : VmStatus.t) : VmStatus.t :=
  {| VmStatus.phase := VmStatus.phase s; VmStatus.reported := x; VmStatus.silence := VmStatus.silence s;
     VmStatus.placement := VmStatus.placement s; VmStatus.observed_generation := VmStatus.observed_generation s; VmStatus.node_name := VmStatus.node_name s;
     VmStatus.cluster_name := VmStatus.cluster_name s; VmStatus.observed_at := VmStatus.observed_at s; VmStatus.addresses := VmStatus.addresses s;
     VmStatus.volumes := VmStatus.volumes s; VmStatus.reschedules := VmStatus.reschedules s; VmStatus.refused_by := VmStatus.refused_by s;
     VmStatus.requeue_attempts := VmStatus.requeue_attempts s; VmStatus.last_requeue := VmStatus.last_requeue s; VmStatus.evacuating := VmStatus.evacuating s;
     VmStatus.handed_down := VmStatus.handed_down s; VmStatus.hand_down_refused := VmStatus.hand_down_refused s; VmStatus.bound_at := VmStatus.bound_at s |}.

Definition set_silence (x : option VmSilence.t) (s : VmStatus.t) : VmStatus.t :=
  {| VmStatus.phase := VmStatus.phase s; VmStatus.reported := VmStatus.reported s; VmStatus.silence := x;
     VmStatus.placement := VmStatus.placement s; VmStatus.observed_generation := VmStatus.observed_generation s; VmStatus.node_name := VmStatus.node_name s;
     VmStatus.cluster_name := VmStatus.cluster_name s; VmStatus.observed_at := VmStatus.observed_at s; VmStatus.addresses := VmStatus.addresses s;
     VmStatus.volumes := VmStatus.volumes s; VmStatus.reschedules := VmStatus.reschedules s; VmStatus.refused_by := VmStatus.refused_by s;
     VmStatus.requeue_attempts := VmStatus.requeue_attempts s; VmStatus.last_requeue := VmStatus.last_requeue s; VmStatus.evacuating := VmStatus.evacuating s;
     VmStatus.handed_down := VmStatus.handed_down s; VmStatus.hand_down_refused := VmStatus.hand_down_refused s; VmStatus.bound_at := VmStatus.bound_at s |}.

Definition set_placement (x : option VmPlacement.t) (s : VmStatus.t) : VmStatus.t :=
  {| VmStatus.phase := VmStatus.phase s; VmStatus.reported := VmStatus.reported s; VmStatus.silence := VmStatus.silence s;
     VmStatus.placement := x; VmStatus.observed_generation := VmStatus.observed_generation s; VmStatus.node_name := VmStatus.node_name s;
     VmStatus.cluster_name := VmStatus.cluster_name s; VmStatus.observed_at := VmStatus.observed_at s; VmStatus.addresses := VmStatus.addresses s;
     VmStatus.volumes := VmStatus.volumes s; VmStatus.reschedules := VmStatus.reschedules s; VmStatus.refused_by := VmStatus.refused_by s;
     VmStatus.requeue_attempts := VmStatus.requeue_attempts s; VmStatus.last_requeue := VmStatus.last_requeue s; VmStatus.evacuating := VmStatus.evacuating s;
     VmStatus.handed_down := VmStatus.handed_down s; VmStatus.hand_down_refused := VmStatus.hand_down_refused s; VmStatus.bound_at := VmStatus.bound_at s |}.

Definition set_observed_generation (x : N) (s : VmStatus.t) : VmStatus.t :=
  {| VmStatus.phase := VmStatus.phase s; VmStatus.reported := VmStatus.reported s; VmStatus.silence := VmStatus.silence s;
     VmStatus.placement := VmStatus.placement s; VmStatus.observed_generation := x; VmStatus.node_name := VmStatus.node_name s;
     VmStatus.cluster_name := VmStatus.cluster_name s; VmStatus.observed_at := VmStatus.observed_at s; VmStatus.addresses := VmStatus.addresses s;
     VmStatus.volumes := VmStatus.volumes s; VmStatus.reschedules := VmStatus.reschedules s; VmStatus.refused_by := VmStatus.refused_by s;
     VmStatus.requeue_attempts := VmStatus.requeue_attempts s; VmStatus.last_requeue := VmStatus.last_requeue s; VmStatus.evacuating := VmStatus.evacuating s;
     VmStatus.handed_down := VmStatus.handed_down s; VmStatus.hand_down_refused := VmStatus.hand_down_refused s; VmStatus.bound_at := VmStatus.bound_at s |}.

Definition set_node_name (x : option string) (s : VmStatus.t) : VmStatus.t :=
  {| VmStatus.phase := VmStatus.phase s; VmStatus.reported := VmStatus.reported s; VmStatus.silence := VmStatus.silence s;
     VmStatus.placement := VmStatus.placement s; VmStatus.observed_generation := VmStatus.observed_generation s; VmStatus.node_name := x;
     VmStatus.cluster_name := VmStatus.cluster_name s; VmStatus.observed_at := VmStatus.observed_at s; VmStatus.addresses := VmStatus.addresses s;
     VmStatus.volumes := VmStatus.volumes s; VmStatus.reschedules := VmStatus.reschedules s; VmStatus.refused_by := VmStatus.refused_by s;
     VmStatus.requeue_attempts := VmStatus.requeue_attempts s; VmStatus.last_requeue := VmStatus.last_requeue s; VmStatus.evacuating := VmStatus.evacuating s;
     VmStatus.handed_down := VmStatus.handed_down s; VmStatus.hand_down_refused := VmStatus.hand_down_refused s; VmStatus.bound_at := VmStatus.bound_at s |}.

Definition set_observed_at (x : option instant) (s : VmStatus.t) : VmStatus.t :=
  {| VmStatus.phase := VmStatus.phase s; VmStatus.reported := VmStatus.reported s; VmStatus.silence := VmStatus.silence s;
     VmStatus.placement := VmStatus.placement s; VmStatus.observed_generation := VmStatus.observed_generation s; VmStatus.node_name := VmStatus.node_name s;
     VmStatus.cluster_name := VmStatus.cluster_name s; VmStatus.observed_at := x; VmStatus.addresses := VmStatus.addresses s;
     VmStatus.volumes := VmStatus.volumes s; VmStatus.reschedules := VmStatus.reschedules s; VmStatus.refused_by := VmStatus.refused_by s;
     VmStatus.requeue_attempts := VmStatus.requeue_attempts s; VmStatus.last_requeue := VmStatus.last_requeue s; VmStatus.evacuating := VmStatus.evacuating s;
     VmStatus.handed_down := VmStatus.handed_down s; VmStatus.hand_down_refused := VmStatus.hand_down_refused s; VmStatus.bound_at := VmStatus.bound_at s |}.

Definition set_volumes (x : list VolumeAttachmentStatus.t) (s : VmStatus.t) : VmStatus.t :=
  {| VmStatus.phase := VmStatus.phase s; VmStatus.reported := VmStatus.reported s; VmStatus.silence := VmStatus.silence s;
     VmStatus.placement := VmStatus.placement s; VmStatus.observed_generation := VmStatus.observed_generation s; VmStatus.node_name := VmStatus.node_name s;
     VmStatus.cluster_name := VmStatus.cluster_name s; VmStatus.observed_at := VmStatus.observed_at s; VmStatus.addresses := VmStatus.addresses s;
     VmStatus.volumes := x; VmStatus.reschedules := VmStatus.reschedules s; VmStatus.refused_by := VmStatus.refused_by s;
     VmStatus.requeue_attempts := VmStatus.requeue_attempts s; VmStatus.last_requeue := VmStatus.last_requeue s; VmStatus.evacuating := VmStatus.evacuating s;
     VmStatus.handed_down := VmStatus.handed_down s; VmStatus.hand_down_refused := VmStatus.hand_down_refused s; VmStatus.bound_at := VmStatus.bound_at s |}.

Definition set_reschedules (x : N) (s : VmStatus.t) : VmStatus.t :=
  {| VmStatus.phase := VmStatus.phase s; VmStatus.reported := VmStatus.reported s; VmStatus.silence := VmStatus.silence s;
     VmStatus.placement := VmStatus.placement s; VmStatus.observed_generation := VmStatus.observed_generation s; VmStatus.node_name := VmStatus.node_name s;
     VmStatus.cluster_name := VmStatus.cluster_name s; VmStatus.observed_at := VmStatus.observed_at s; VmStatus.addresses := VmStatus.addresses s;
     VmStatus.volumes := VmStatus.volumes s; VmStatus.reschedules := x; VmStatus.refused_by := VmStatus.refused_by s;
     VmStatus.requeue_attempts := VmStatus.requeue_attempts s; VmStatus.last_requeue := VmStatus.last_requeue s; VmStatus.evacuating := VmStatus.evacuating s;
     VmStatus.handed_down := VmStatus.handed_down s; VmStatus.hand_down_refused := VmStatus.hand_down_refused s; VmStatus.bound_at := VmStatus.bound_at s |}.

Definition set_refused_by (x : list Refusal.t) (s : VmStatus.t) : VmStatus.t :=
  {| VmStatus.phase := VmStatus.phase s; VmStatus.reported := VmStatus.reported s; VmStatus.silence := VmStatus.silence s;
     VmStatus.placement := VmStatus.placement s; VmStatus.observed_generation := VmStatus.observed_generation s; VmStatus.node_name := VmStatus.node_name s;
     VmStatus.cluster_name := VmStatus.cluster_name s; VmStatus.observed_at := VmStatus.observed_at s; VmStatus.addresses := VmStatus.addresses s;
     VmStatus.volumes := VmStatus.volumes s; VmStatus.reschedules := VmStatus.reschedules s; VmStatus.refused_by := x;
     VmStatus.requeue_attempts := VmStatus.requeue_attempts s; VmStatus.last_requeue := VmStatus.last_requeue s; VmStatus.evacuating := VmStatus.evacuating s;
     VmStatus.handed_down := VmStatus.handed_down s; VmStatus.hand_down_refused := VmStatus.hand_down_refused s; VmStatus.bound_at := VmStatus.bound_at s |}.

Definition set_evacuating (x : option Evacuating.t) (s : VmStatus.t) : VmStatus.t :=
  {| VmStatus.phase := VmStatus.phase s; VmStatus.reported := VmStatus.reported s; VmStatus.silence := VmStatus.silence s;
     VmStatus.placement := VmStatus.placement s; VmStatus.observed_generation := VmStatus.observed_generation s; VmStatus.node_name := VmStatus.node_name s;
     VmStatus.cluster_name := VmStatus.cluster_name s; VmStatus.observed_at := VmStatus.observed_at s; VmStatus.addresses := VmStatus.addresses s;
     VmStatus.volumes := VmStatus.volumes s; VmStatus.reschedules := VmStatus.reschedules s; VmStatus.refused_by := VmStatus.refused_by s;
     VmStatus.requeue_attempts := VmStatus.requeue_attempts s; VmStatus.last_requeue := VmStatus.last_requeue s; VmStatus.evacuating := x;
     VmStatus.handed_down := VmStatus.handed_down s; VmStatus.hand_down_refused := VmStatus.hand_down_refused s; VmStatus.bound_at := VmStatus.bound_at s |}.

Definition on_status (f : VmStatus.t -> VmStatus.t) (v : Vm) : Vm := with_status v (f (status v)).

(** The binding. *)
Definition set_node (node : option string) (v : Vm) : Vm :=
  let s := spec v in
  with_spec v
    {| VmSpec.node_name := node; VmSpec.cluster_name := VmSpec.cluster_name s;
       VmSpec.run_strategy := VmSpec.run_strategy s; VmSpec.evacuation := VmSpec.evacuation s;
       VmSpec.tenant := VmSpec.tenant s; VmSpec.class_ := VmSpec.class_ s;
       VmSpec.cluster_selector := VmSpec.cluster_selector s; VmSpec.node_selector := VmSpec.node_selector s;
       VmSpec.anti_affinity := VmSpec.anti_affinity s; VmSpec.vm := VmSpec.vm s |}.
End VmEdit.

(** * Deciding *)

(** The candidate count of a refusal is only logged. *)
Definition decide (assign : Vm -> list Candidate.t -> option string) (v : Vm) (bindings : list VolumeBinding.t)
    (allowed local nodes : list Candidate.t) : result (PendingReason.t * string) string :=
  match option_or (assign v local) (assign v allowed) with
  | Some node => Ok node
  | None =>
      if negb (is_nil bindings) && is_nil allowed && negb (is_nil nodes) then Err (volume_pending_reason bindings nodes)
      else
        Err (match volume_nodes_unusable bindings allowed with
             | Some said => said
             | None => pending_reason_of v (if is_nil bindings then nodes else allowed)
             end)
  end.

Definition widen_to_fleet (fleet : list Candidate.t) (nodes : list Node) : list Candidate.t :=
  map (fun c =>
         set_connected c
           (Candidate.connected c
            || existsb (fun n : Node => String.eqb (name (metadata n)) (Candidate.name c) && NodeStatus.ready (status n)
                                        && is_some (NodeStatus.session_endpoint (status n))) nodes)) fleet.

Definition refusing_now (v : Vm) (now : instant) : list string :=
  map Refusal.node (List.filter (fun r => (now <? Refusal.until r)%Z) (VmStatus.refused_by (status v))).

Module Bindings.
Inductive t := Ready (bindings : list VolumeBinding.t) | NotReady (why : string).
End Bindings.

(** The candidates a VM is decided on: those that did not refuse it, with the
    room its own standing claim took given back. *)
Definition decided_on (refused : list string) (standing : option CapacityReservation) (nodes : list Candidate.t)
    : list Candidate.t :=
  let candidates := List.filter (fun c => negb (str_in (Candidate.name c) refused)) nodes in
  match standing with
  | Some ours => plus_first (CapacityReservationSpec.node (spec ours)) (CapacityReservationSpec.size (spec ours)) candidates
  | None => candidates
  end.

Section placing.
Context {D Bytes : Type} `{!Etcd D Bytes, !RawJson Bytes, !StatusJson}.
Context `{!Serde Bytes NodeSpec.t NodeStatus.t, !Serde Bytes VmSpec.t VmStatus.t, !Resource VmSpec.t VmStatus.t,
  !Serde Bytes CapacityReservationSpec.t unit, !Serde Bytes VolumeSpec.t VolumeStatus.t,
  !Serde Bytes StoragePoolSpec.t StoragePoolStatus.t, !Serde Bytes EventSpec.t unit}.
Variable prefix : string.
Variable sur : surroundings D.
Variable assign : Vm -> list Candidate.t -> option string.
(** The lease of an event, fresh identifiers. *)
Variable new_lease : Z -> nat -> Z.
Variable new_uid : nat -> string.

Definition happened (v : Vm) (reason message : string) (event_type : EventType.t) : pass_m D unit := fun p =>
  (set_store p (record prefix sur new_lease new_uid "Vm" (name (metadata v)) (Objects.uid (metadata v)) reason message
                  event_type (VmSpec.tenant (spec v)) (p_store p)), Ok tt).

Definition edit_vm (v : Vm) (f : Vm -> Vm) : pass_m D Vm :=
  st (mutate_if prefix sur (name (metadata v)) (Objects.uid (metadata v)) f).

Fixpoint bindings_of (names : list string) (acc : list VolumeBinding.t) : pass_m D Bindings.t :=
  match names with
  | [] => ok (Bindings.Ready acc)
  | n :: names =>
      r ← try_store (get (Sp := VolumeSpec.t) (St := VolumeStatus.t) prefix sur n);
      match r with
      | Err (StoreError.NotFound _) => ok (Bindings.NotReady ("volume " +:+ n +:+ " does not exist here any more"))
      | Err e => raise (Failure.of_store e)
      | Ok volume =>
          let phase := VolumeStatus.phase (status volume) in
          if negb (bool_decide (ph_kind phase = VolumePhaseKind.Ready)) then
            ok (Bindings.NotReady ("volume " +:+ n +:+ " is " +:+ VolumePhaseKind.as_str (ph_kind phase) +:+ ": "
                  +:+ unwrap_or "waiting for it to be made" (phase_message phase)))
          else
            r ← try_store (get (Sp := StoragePoolSpec.t) (St := StoragePoolStatus.t) prefix sur (VolumeSpec.pool (spec volume)));
            match (match r with
                   | Ok pool => Ok (Some pool)
                   | Err (StoreError.NotFound _) => Ok None
                   | Err e => Err e
                   end) with
            | Err e => raise (Failure.of_store e)
            | Ok pool =>
                bindings_of names (acc ++
                  [{| VolumeBinding.volume := n; VolumeBinding.node := VolumeStatus.node (status volume);
                      VolumeBinding.locality := pool ≫= fun pl : StoragePool => StoragePoolStatus.locality (status pl);
                      VolumeBinding.pool_nodes :=
                        match pool with Some pl => StoragePoolSpec.nodes (spec pl) | None => [] end;
                      VolumeBinding.driver := option_map (fun pl : StoragePool => StoragePoolSpec.driver (spec pl)) pool |}])
            end
      end
  end.

Definition volume_bindings (v : Vm) : pass_m D Bindings.t := bindings_of (VmSpec.referenced_volumes (spec v)) [].

Definition note_vm_pending (v : Vm) (category : PendingReason.t) (reason : string) : pass_m D unit :=
  if bool_decide (phase_message (VmStatus.phase (status v)) = Some reason) then ok tt
  else
    at_ ← now_ sur;
    _ ← edit_vm v (VmEdit.on_status (VmEdit.set_placement
          (Some {| VmPlacement.reason := PendingReason.category category; VmPlacement.message := reason;
                   VmPlacement.at_ := at_ |})));
    happened v "FailedScheduling" reason EventType.Warning.

Definition fleet_verdict (v : Vm) (bindings : list VolumeBinding.t) (refused : list string)
    (here : PendingReason.t * string) : pass_m D (option (PendingReason.t * string)) :=
  fleet ← (fun p => ok (p_nodes p) p);
  if forallb Candidate.connected fleet then ok (Some here)
  else
    nodes ← st (list_ (Sp := NodeSpec.t) (St := NodeStatus.t) prefix sur);
    let fleet := widen_to_fleet fleet nodes in
    let allowed := feasible_for_volumes bindings (List.filter (fun c => negb (str_in (Candidate.name c) refused)) fleet) in
    let local := preferred_for_volumes bindings allowed in
    ok (match decide assign v bindings allowed local fleet with Ok _ => None | Err said => Some said end).

Definition claim_for (v : Vm) (node : string) : pass_m D Claimed.t := fun p =>
  let w := p_store p in
  let '(w', r) := claim prefix sur (new_uid (ticks w)) (clock sur (ticks w)) v node w in
  (set_store p w',
   match r with
   | Ok c => Ok c
   | Err (inl e) => Err (Failure.of_store e)
   | Err (inr why) => Err (Failure.msg why)
   end).

Definition release_claim (mine : CapacityReservation) : pass_m D unit := fun p =>
  (set_store p (release prefix sur mine (p_store p)), Ok tt).

(** The binding under its claim. *)
Definition bind_under (v : Vm) (node : string) (mine : CapacityReservation) : pass_m D unit :=
  let bound := VmEdit.on_status (VmEdit.set_placement None) (VmEdit.set_node (Some node) v) in
  r ← try_store (update_if_standing prefix sur bound mine);
  match r with
  | Ok _ =>
      _ ← release_claim mine;
      happened bound "Scheduled" ("bound to node " +:+ node) EventType.Normal
  | Err (StoreError.Conflict _) => release_claim mine
  | Err e => raise (Failure.of_store e)
  end.

Definition confirm_and_bind (overcommit : Overcommit.t) (v : Vm) (node : string) (mine : CapacityReservation)
    : pass_m D unit :=
  r ← confirm prefix sur mine overcommit;
  match r with
  | Ok true => bind_under v node mine
  | Ok false =>
      _ ← release_claim mine;
      _ ← note_reason PendingReason.NoCapacity;
      note_vm_pending v PendingReason.NoCapacity
        ("node " +:+ node +:+ " had room when this pass began and another claim took it first; measured again next pass")
  | Err why =>
      raise (Failure.context ("vm " +:+ name (metadata v) +:+ ": the room on " +:+ node
               +:+ " could not be confirmed; nothing was bound") (Failure.msg why))
  end.

(** The decision, and the room spent on it in the pass's candidates. *)
Definition decide_and_spend (v : Vm) (bindings : list VolumeBinding.t) (refused : list string)
    (standing : option CapacityReservation) : pass_m D (result (PendingReason.t * string) string) := fun p =>
  let nodes := p_nodes p in
  let allowed := feasible_for_volumes bindings (decided_on refused standing nodes) in
  let local := preferred_for_volumes bindings allowed in
  let decision := decide assign v bindings allowed local nodes in
  (match decision with Ok node => set_nodes p (spend nodes node v) | Err _ => p end, Ok decision).

Definition place (held : list CapacityReservation) (overcommit : Overcommit.t) (v : Vm) : pass_m D unit :=
  found ← volume_bindings v;
  match found with
  | Bindings.NotReady why =>
      _ ← note_reason PendingReason.VolumeNotReady;
      note_vm_pending v PendingReason.VolumeNotReady why
  | Bindings.Ready bindings =>
      at_ ← now_ sur;
      let refused := refusing_now v at_ in
      decision ← decide_and_spend v bindings refused (List.find (fun r => is_placement_of r v) held);
      match decision with
      | Err here =>
          verdict ← fleet_verdict v bindings refused here;
          match verdict with
          | None => ok tt
          | Some (category, reason) =>
              _ ← note_reason category;
              note_vm_pending v category reason
          end
      | Ok node =>
          claimed ← claim_for v node;
          match claimed with
          | Claimed.Fresh mine => confirm_and_bind overcommit v node mine
          | Claimed.Standing mine =>
              if String.eqb (CapacityReservationSpec.node (spec mine)) node
              then confirm_and_bind overcommit v node mine else ok tt
          | Claimed.Gone => ok tt
          end
      end
  end.
End placing.

(** * Lemmas *)

(** Placing a VM tells no node anything. *)
Section quiet_placing.
Context {D Bytes : Type} `{!Etcd D Bytes, !EtcdLaws D Bytes, !RawJson Bytes, !StatusJson}.
Context `{!Serde Bytes NodeSpec.t NodeStatus.t, !Serde Bytes VmSpec.t VmStatus.t, !Resource VmSpec.t VmStatus.t,
  !Serde Bytes CapacityReservationSpec.t unit, !Serde Bytes VolumeSpec.t VolumeStatus.t,
  !Serde Bytes StoragePoolSpec.t StoragePoolStatus.t, !Serde Bytes EventSpec.t unit}.
Context (prefix : string) (sur : surroundings D) (assign : Vm -> list Candidate.t -> option string).
Context (new_lease : Z -> nat -> Z) (new_uid : nat -> string) (Henv : lawful_env sur).
Implicit Types (P : D -> string * Op.t -> Prop) (s : D).

Lemma grows_record kind nm uid reason message event_type tenant w :
  evolves (db w) (db (record prefix sur new_lease new_uid kind nm uid reason message event_type tenant w)).
Proof using Henv EtcdLaws0.
  unfold record. destruct (create_with_ttl _ _ _ _ _ _) as [w1 x] eqn:E.
  assert (H1 : evolves (db w) (db w1)).
  { revert E. unfold create_with_ttl.
    destruct (timed _ _ _ w) as [w0 [lease|e]] eqn:Et; apply grows_timed in Et; try done;
      try (intros; by apply rtc_refl).
    - intros E. apply grows_create_inner in E; [along|done].
    - by intros [= <- <-]. }
  destruct x as [o|[]]; try done.
  destruct (mutate _ _ _ _ _) as [w2 y] eqn:E2. apply grows_mutate in E2; [|done]. along.
Qed.

Lemma emits_happened s P v reason message event_type :
  emits s P (happened prefix sur new_lease new_uid v reason message event_type).
Proof using Henv EtcdLaws0. apply emits_silent. intros p p' r [= <- <-]. split; [apply grows_record|done]. Qed.

Lemma emits_edit s P v f : emits s P (edit_vm prefix sur v f).
Proof using Henv EtcdLaws0. unfold edit_vm. emit. Qed.

Lemma emits_bindings s P names acc : emits s P (bindings_of prefix sur names acc).
Proof using Henv. revert acc. induction names as [|n names IH]; intros acc; simpl; repeat emit; apply IH. Qed.

Lemma emits_pending s P v category reason :
  emits s P (note_vm_pending prefix sur new_lease new_uid v category reason).
Proof using Henv EtcdLaws0.
  unfold note_vm_pending. emit; [emit|]. apply emits_seq; [apply emits_now|intros at_].
  apply emits_seq; [apply emits_edit|intros _]. apply emits_happened.
Qed.

Lemma emits_claim s P v node : emits s P (claim_for prefix sur new_uid v node).
Proof using Henv EtcdLaws0.
  apply emits_silent. intros p p' r. unfold claim_for. destruct (claim _ _ _ _ _ _ _) as [w' x] eqn:E.
  intros [= <- <-]. split; [|done]. simpl. revert E. unfold claim.
  destruct (create _ _ _ _) as [w1 y] eqn:E1. apply grows_create in E1; [|done].
  destruct (get _ _ _ w1) as [w2 z] eqn:E2. apply grows_get in E2; [|done].
  destruct y as [o|[]]; try by intros [= <- <-].
  all: destruct z as [o|[]]; try destruct (is_placement_of _ _); intros [= <- <-]; along.
Qed.

Lemma emits_release_claim s P mine : emits s P (release_claim prefix sur mine).
Proof using Henv EtcdLaws0.
  apply emits_silent. intros p p' r [= <- <-]. split; [|done]. simpl. unfold release.
  destruct (delete_if _ _ _ _ _) as [w x] eqn:E. by apply grows_delete_if in E.
Qed.

Lemma emits_bound s P v node mine : emits s P (bind_under prefix sur new_lease new_uid v node mine).
Proof using Henv EtcdLaws0.
  unfold bind_under. apply emits_seq; [emit|]. intros [o|e].
  - apply emits_seq; [apply emits_release_claim|intros _; apply emits_happened].
  - destruct e; first [apply emits_release_claim|emit].
Qed.

Lemma emits_confirmed_bind s P overcommit v node mine :
  emits s P (confirm_and_bind prefix sur new_lease new_uid overcommit v node mine).
Proof using Henv EtcdLaws0.
  unfold confirm_and_bind. apply emits_seq; [by apply emits_confirm|]. intros [[]|why]; [apply emits_bound| |emit].
  apply emits_seq; [apply emits_release_claim|intros _]. apply emits_seq; [emit|intros _]. apply emits_pending.
Qed.

Lemma emits_verdict s P v bindings refused here : emits s P (fleet_verdict prefix sur assign v bindings refused here).
Proof using Henv.
  unfold fleet_verdict. apply emits_seq; [|intros fleet; repeat emit].
  apply emits_silent. intros p p' r [= <- <-]. by split; [apply rtc_refl|].
Qed.

Lemma emits_decision s P v bindings refused standing : emits s P (decide_and_spend assign v bindings refused standing).
Proof using.
  apply emits_silent. intros p p' r. unfold decide_and_spend.
  destruct (decide _ _ _ _ _ _); intros [= <- <-]; by split; [apply rtc_refl|].
Qed.

Lemma emits_place s P held overcommit v : emits s P (place prefix sur assign new_lease new_uid held overcommit v).
Proof using Henv EtcdLaws0.
  unfold place. apply emits_seq; [apply emits_bindings|]. intros [bindings|why].
  2:{ apply emits_seq; [emit|intros _; apply emits_pending]. }
  apply emits_seq; [apply emits_now|intros at_]. apply emits_seq; [apply emits_decision|]. intros [node|here].
  - apply emits_seq; [apply emits_claim|]. intros [mine|mine|]; [apply emits_confirmed_bind| |emit].
    emit; [apply emits_confirmed_bind|emit].
  - apply emits_seq; [apply emits_verdict|]. intros [[category reason]|]; [|emit].
    apply emits_seq; [emit|intros _; apply emits_pending].
Qed.
End quiet_placing.

(** The decision. *)

Lemma in_prefer_local l holders c : In c (prefer_local l holders) -> In c l.
Proof.
  unfold prefer_local. destruct holders as [|h holders]; [done|]. cbv zeta.
  destruct (List.filter _ l) eqn:E; [done|]. rewrite <- E. by intros [? _]%filter_In.
Qed.

Lemma unpinned_feasible bindings cs c :
  In c (feasible_for_volumes bindings cs) ->
  In c cs /\ forall b, In b bindings -> VolumeBinding.pins_elsewhere b (Candidate.name c) = false.
Proof.
  intros [Hc Hb]%in_feasible_for_volumes. split; [done|]. intros b [_ Hr]%Hb.
  unfold VolumeBinding.pins_elsewhere. destruct (VolumeBinding.required b) as [l|]; [|done]. simpl.
  apply negb_false_iff, existsb_exists. exists (Candidate.name c). by rewrite String.eqb_refl; auto.
Qed.

Lemma plus_first_names node size l : map Candidate.name (plus_first node size l) = map Candidate.name l.
Proof. induction l as [|c l IH]; simpl; [done|]. destruct (String.eqb _ _); simpl; [done|]. by rewrite IH. Qed.

Lemma decided_on_names refused standing nodes n :
  In n (map Candidate.name (decided_on refused standing nodes)) ->
  In n (map Candidate.name nodes) /\ str_in n refused = false.
Proof.
  unfold decided_on. intros Hn.
  assert (Hf : In n (map Candidate.name (List.filter (fun c => negb (str_in (Candidate.name c) refused)) nodes))).
  { destruct standing; [by rewrite plus_first_names in Hn|done]. }
  apply in_map_iff in Hf as (c & <- & [Hc Hr]%filter_In). split; [by apply in_map|by apply negb_true_iff].
Qed.

Lemma refusing_now_spec v now node :
  str_in node (refusing_now v now) = false <->
  forall r, In r (VmStatus.refused_by (status v)) -> (now < Refusal.until r)%Z -> Refusal.node r <> node.
Proof.
  rewrite <- not_true_iff_false, str_in_spec. unfold refusing_now. rewrite in_map_iff. split.
  - intros H r Hr Hlt <-. apply H. exists r. split; [done|]. apply filter_In. split; [done|]. lia.
  - intros H (r & Hn & [Hr Hlt]%filter_In). apply (H r); [done|lia|done].
Qed.

Section decisions.
Context (assign : Vm -> list Candidate.t -> option string) `{!Scheduler assign}.

End decisions.

(** * Witnesses *)

(** The first candidate refused the VM; the second takes it. *)
Definition refused_once : Vm :=
  VmEdit.on_status
    (VmEdit.set_refused_by [{| Refusal.node := "a"; Refusal.message := "no driver"; Refusal.until := 10%Z |}])
    (VmEdit.set_node None (example_vm "v1")).

Definition two_candidates : pass unit :=
  {| p_store := World tt 0; p_sent := []; p_nodes := [example_candidate "a" 600; example_candidate "b" 600];
     p_noted := []; p_told := [] |}.

