(* ===== verification/VmPass.v ===== *)
(** The VM half of a cluster's pass:
    [src/components/cluster-controller/src/reconcile/vms.rs], with the ownership
    gate of [reconcile/mod.rs].  A bound VM is created, plugged, moved by restart,
    driven to its run strategy and retried on its node; an unbound one is taken off
    its old node before it is placed; a deleted one is torn down.  The claims on its
    disks are taken before a node is told to open them. *)
From Stdlib Require Import Ascii String NArith ZArith List Bool Lia.
From stdpp Require Import base list strings gmap relations.
From S2P Require Import Prelude RustStr Json Capability Heartbeat Vm Node Storage Sizing Placement Diagnosis.
From S2P Require Import Reservation Claims Commit Quota Gateways Lifecycle Dispatch Namespaces SpecDocs.
From S2P Require Import MigrationRules ClusterMigration Deletion PlacePass.
From S2P Require Import Phase Objects Store StoreSafety Growth.

(** * Rules *)

(** [may_reconcile] of [reconcile/mod.rs]. *)
Definition may_reconcile (v : Vm) (sessions : list string) : bool :=
  match VmSpec.node_name (spec v) with
  | Some node => str_in node sessions
  | None =>
      match VmStatus.node_name (status v) with
      | Some old => str_in old sessions
      | None => true
      end
  end.

Definition unexplained_unknown (s : VmStatus.t) : bool :=
  bool_decide (ph_kind (VmStatus.phase s) = VmPhaseKind.Unknown) && negb (is_some (VmStatus.silence s)).

Definition claims_a_guest (phase : VmPhaseKind.t) : bool :=
  match phase with
  | VmPhaseKind.Running | VmPhaseKind.Paused | VmPhaseKind.Provisioning => true
  | _ => false
  end.

Definition silent (v : Vm) (last_heartbeat : option instant) (now : instant) : bool :=
  is_some (VmSpec.node_name (spec v)) && (claims_a_guest (vm_kind v) || unexplained_unknown (status v))
  && expired last_heartbeat now.

(** The fact [expire_vm_reports] writes. *)
Definition fell_silent (node : string) (last_heartbeat : option instant) (now : instant) (v : Vm) : Vm :=
  if claims_a_guest (vm_kind v) || unexplained_unknown (status v) then
    VmEdit.on_status
      (VmEdit.set_silence
         (Some {| VmSilence.holder := "node " +:+ node; VmSilence.last_heard := last_heartbeat;
                  VmSilence.since := match VmStatus.silence (status v) with
                                     | Some s => VmSilence.since s
                                     | None => now
                                     end |})) v
  else v.

Definition lifecycle_op (action : Lifecycle.t) (uid : string) : Op.t :=
  match action with
  | Lifecycle.Start => Op.Start uid
  | Lifecycle.Stop => Op.Stop uid None
  | Lifecycle.Pause => Op.Pause uid
  | Lifecycle.Resume => Op.Resume uid
  end.

(** [resources/secret.rs]. *)
Module SecretSpec.
Record t := { tenant : string; data : smap string; keys : list string; description : string }.
End SecretSpec.

Definition Secret : Type := Object SecretSpec.t unit.

#[export] Instance secret_resource : Resource SecretSpec.t unit :=
  {| RESOURCE := "secrets"; NAME_SHAPE := NameShape.DnsLabel; settle := fun _ o => o |}.

Module Seed.
Inductive t := None_ | Ready (plaintext : string) | NotReady (why : string).
End Seed.

(** [Aad::of]. *)
Definition aad_of (resource name key : string) : string := resource +:+ "/" +:+ name +:+ "/" +:+ key.

Definition destroy_target (v : Vm) : option string :=
  if negb (bool_decide (vm_kind v = VmPhaseKind.Pending)) then VmSpec.node_name (spec v) else None.

Module Drift.
Record t := { attach : list string; release : list string }.
End Drift.

Definition volume_drift (v : Vm) : option Drift.t :=
  if negb match vm_kind v with VmPhaseKind.Running | VmPhaseKind.Stopped => true | _ => false end then None
  else
    let wanted := VmSpec.referenced_volumes (spec v) in
    if is_nil wanted && is_nil (VmStatus.volumes (status v)) then None
    else
      let held := map VolumeAttachmentStatus.name
                    (List.filter VolumeAttachmentStatus.attached (VmStatus.volumes (status v))) in
      let attach := List.filter (fun n => negb (str_in n held)) wanted in
      let release := List.filter (fun n => negb (str_in n wanted)) held in
      if negb (is_nil attach) || negb (is_nil release)
      then Some {| Drift.attach := attach; Drift.release := release |} else None.

Definition create_answer (refusal : option string) (current : VmPhaseKind.t)
    : option (VmPhaseKind.t * option string) :=
  match refusal with
  | None =>
      if bool_decide (current = VmPhaseKind.Pending) then Some (VmPhaseKind.Provisioning, None) else None
  | Some said =>
      if bool_decide (current = VmPhaseKind.Quarantined) then None else Some (VmPhaseKind.Failed, Some said)
  end.

Definition may_carry (s : VolumeStatus.t) (v : Vm) : bool :=
  negb (is_some (VolumeStatus.attached_to s)) || VolumeStatus.claimed_by s (Objects.uid (metadata v)).

(** Nanoseconds. *)
Definition REFUSAL_TTL : Z := from_secs 600.

(** * Edits of a volume *)

Module VolumeEdit.
Definition set (v : Volume) (node : option string) (reported : option VolumeReported) (gone : bool)
    (to uid : option string) : Volume :=
  let s := status v in
  with_status v
    {| VolumeStatus.phase := VolumeStatus.phase s; VolumeStatus.reported := reported;
       VolumeStatus.holder := VolumeStatus.holder s; VolumeStatus.claimant_gone := gone;
       VolumeStatus.backend := VolumeStatus.backend s; VolumeStatus.node := node;
       VolumeStatus.open_on := VolumeStatus.open_on s; VolumeStatus.cluster := VolumeStatus.cluster s;
       VolumeStatus.attached_to := to; VolumeStatus.attached_uid := uid;
       VolumeStatus.size_gib := VolumeStatus.size_gib s; VolumeStatus.untold_gib := VolumeStatus.untold_gib s;
       VolumeStatus.observed_generation := VolumeStatus.observed_generation s;
       VolumeStatus.observed_at := VolumeStatus.observed_at s;
       VolumeStatus.requeue_attempts := VolumeStatus.requeue_attempts s;
       VolumeStatus.last_requeue := VolumeStatus.last_requeue s |}.

(** The home alone. *)
Definition at_home (node : string) (v : Volume) : Volume :=
  let s := status v in
  set v (Some node) (VolumeStatus.reported s) (VolumeStatus.claimant_gone s) (VolumeStatus.attached_to s)
    (VolumeStatus.attached_uid s).

Definition follow_vm (vm node : string) (now : instant) (v : Volume) : Volume :=
  let s := status v in
  set v (Some node)
    (Some (said_here VolumePhaseKind.Pending VolumeReason.Following
             (Some ("following " +:+ vm +:+ " to " +:+ node)) now))
    (VolumeStatus.claimant_gone s) (VolumeStatus.attached_to s) (VolumeStatus.attached_uid s).

(** The claim of [hold_volumes]. *)
Definition claim (vm : Vm) (v : Volume) : Volume :=
  let s := status v in
  set v (VolumeStatus.node s) (VolumeStatus.reported s) false (Some (name (metadata vm)))
    (Some (Objects.uid (metadata vm))).

(** The edit of [release_named_volumes]. *)
Definition claimant_left (vm : Vm) (v : Volume) : Volume :=
  let s := status v in
  if VolumeStatus.held_by s (name (metadata vm)) (Objects.uid (metadata vm)) then
    set v (VolumeStatus.node s) (VolumeStatus.reported s) true (VolumeStatus.attached_to s) (VolumeStatus.attached_uid s)
  else v.
End VolumeEdit.

(** * The pass over one VM *)

Section vms.
Context {D Bytes : Type} `{!Etcd D Bytes, !RawJson Bytes, !StatusJson}.
Context `{!Serde Bytes NodeSpec.t NodeStatus.t, !Serde Bytes VmSpec.t VmStatus.t, !Resource VmSpec.t VmStatus.t,
  !Serde Bytes VmMigrationSpec.t VmMigrationStatus.t, !Serde Bytes CapacityReservationSpec.t unit,
  !Serde Bytes VolumeSpec.t VolumeStatus.t, !Serde Bytes StoragePoolSpec.t StoragePoolStatus.t,
  !Serde Bytes EventSpec.t unit, !Serde Bytes SecretSpec.t unit}.
Variable prefix : string.
Variable sur : surroundings D.
Variable net : peers.
Variable assign : Vm -> list Candidate.t -> option string.
Variable requeue : RequeuePolicy.
(** The sessions as the pass read them, the opening of a sealed value where the
    controller has a key, the printing of a document. *)
Variable sessions : list string.
Variable kek : option (string -> string -> result string string).
Variable render : value -> string.
Variable new_lease : Z -> nat -> Z.
Variable new_uid : nat -> string.

Abbreviation edit := (edit_vm prefix sur).
Abbreviation event := (happened prefix sur new_lease new_uid).
Abbreviation pending := (note_vm_pending prefix sur new_lease new_uid).
Abbreviation get_volume := (get (Sp := VolumeSpec.t) (St := VolumeStatus.t) prefix sur).

(** ** Silence *)

Fixpoint expire_vm_reports (vms : list Vm) (node : string) (last_heartbeat : option instant) (now : instant)
    : pass_m D unit :=
  match vms with
  | [] => ok tt
  | v :: vms =>
      if bool_decide (VmSpec.node_name (spec v) = Some node) && silent v last_heartbeat now then
        r ← attempt (edit v (fell_silent node last_heartbeat now));
        match r with
        | Ok _ => _ ← event v "PhaseChanged" (node +:+ " stopped answering") EventType.Warning;
                  expire_vm_reports vms node last_heartbeat now
        | Err _ => expire_vm_reports vms node last_heartbeat now
        end
      else expire_vm_reports vms node last_heartbeat now
  end.

(** ** Documents *)

Definition seed_for (v : Vm) : pass_m D Seed.t :=
  match VmSpec.user_data_from (spec v) with
  | None => ok Seed.None_
  | Some (nm, key) =>
      match kek with
      | None => ok (Seed.NotReady "this cluster-controller has no secrets_key configured and cannot open a secret")
      | Some open =>
          r ← try_store (get (Sp := SecretSpec.t) (St := unit) prefix sur nm);
          match r with
          | Err (StoreError.NotFound _) => ok (Seed.NotReady ("secret " +:+ nm +:+ " has not arrived here yet"))
          | Err e => raise (Failure.of_store e)
          | Ok secret =>
              if negb (same_tenancy (SecretSpec.tenant (spec secret)) (VmSpec.tenant (spec v)))
              then ok (Seed.NotReady ("secret " +:+ nm +:+ " belongs to another tenant"))
              else
                match sget key (SecretSpec.data (spec secret)) with
                | None =>
                    ok (Seed.NotReady ("secret " +:+ nm +:+ " has no key " +:+ debug key +:+ "; it has ["
                          +:+ join ", " (map fst (SecretSpec.data (spec secret))) +:+ "]"))
                | Some sealed =>
                    ok (match open (aad_of "secrets" nm key) sealed with
                        | Ok plaintext => Seed.Ready plaintext
                        | Err e => Seed.NotReady ("secret " +:+ nm +:+ "/" +:+ key +:+ ": " +:+ e)
                        end)
                end
          end
      end
  end.

Definition document (v : Vm) (seed : option string) : pass_m D string :=
  refs ← st (volume_uids prefix sur v);
  match build_spec_json v refs seed with
  | Ok doc => ok (render doc)
  | Err why => bail why
  end.

(** ** Claims on disks *)

Definition note_vm_held (v : Vm) (volume holder : string) : pass_m D unit :=
  let said := "volume " +:+ volume +:+ " is still held by " +:+ holder in
  if is_some_and (fun pl => String.eqb (VmPlacement.message pl) said) (VmStatus.placement (status v)) then ok tt
  else
    at_ ← now_ sur;
    _ ← edit v (VmEdit.on_status (VmEdit.set_placement
          (Some {| VmPlacement.reason := VmReason.VolumeHeld; VmPlacement.message := said; VmPlacement.at_ := at_ |})));
    ok tt.

Definition wait_for_holder {A} (v : Vm) (volume holder : string) : pass_m D A :=
  _ ← note_vm_held v volume holder;
  bail ("volume " +:+ volume +:+ " is held by " +:+ holder).

(** The closure's [carried] flag is its state. *)
Definition carry_record (v : Vm) (volume : Volume) (re_point : Volume -> Volume) : pass_m D Volume :=
  moved ← st (mutate_if_with prefix sur (name (metadata volume)) (Objects.uid (metadata volume))
                (fun _ x => if may_carry (status x) v then (true, re_point x) else (false, x)) false);
  if moved.1 : bool then ok moved.2
  else bail ("volume " +:+ name (metadata volume) +:+ " was claimed while its record was being moved").

(** The re-points of one volume: the record as the claim goes on with it. *)
Definition bring_home (v : Vm) (node : string) (volume : Volume) : pass_m D Volume :=
  let away x := is_some_and (fun n => negb (String.eqb n node)) (VolumeStatus.node (status x)) in
  volume ← (if away volume && existsb (String.eqb node) (VolumeStatus.open_on (status volume))
            then carry_record v volume (VolumeEdit.at_home node) else ok volume);
  if away volume then
    r ← try_store (get (Sp := StoragePoolSpec.t) (St := StoragePoolStatus.t) prefix sur (VolumeSpec.pool (spec volume)));
    match (match r with
           | Ok pool => Ok (StoragePoolStatus.locality (status pool))
           | Err (StoreError.NotFound _) => Ok None
           | Err e => Err e
           end) with
    | Err e => raise (Failure.of_store e)
    | Ok (Some Locality.Shared) | Ok (Some Locality.Networked) =>
        at_ ← now_ sur;
        _ ← carry_record v volume (VolumeEdit.follow_vm (name (metadata v)) node at_);
        bail ("volume " +:+ name (metadata volume) +:+ " is being re-opened on " +:+ node)
    | Ok _ => ok volume
    end
  else ok volume.

Definition claim_volume (v : Vm) (n : string) (volume : Volume) : pass_m D unit :=
  r ← try_store (update prefix sur (VolumeEdit.claim v volume));
  match r with
  | Ok _ => ok tt
  | Err (StoreError.Conflict _) => bail ("volume " +:+ n +:+ " changed while it was being attached")
  | Err e => raise (Failure.of_store e)
  end.

Definition hold_volume (migrating : bool) (v : Vm) (node n : string) : pass_m D unit :=
  volume ← st (get_volume n);
  if negb (may_carry (status volume) v) then
    wait_for_holder v n (unwrap_or "" (VolumeStatus.attached_to (status volume)))
  else
    volume ← bring_home v node volume;
    let kind := ph_kind (VolumeStatus.phase (status volume)) in
    if negb (bool_decide (kind = VolumePhaseKind.Ready)) then
      bail ("volume " +:+ n +:+ " is " +:+ VolumePhaseKind.as_str kind +:+ " on " +:+ node +:+ "; the vm waits for it")
    else
      match VolumeStatus.attached_to (status volume) with
      | Some holder =>
          if VolumeStatus.claimed_by (status volume) (Objects.uid (metadata v)) then ok tt
          else wait_for_holder v n holder
      | None =>
          match VolumeStatus.open_elsewhere (status volume) node with
          | Some other =>
              if negb migrating then
                bail ("volume " +:+ n +:+ " is still open on node " +:+ other
                      +:+ "; only a live migration may have it open on two")
              else claim_volume v n volume
          | None => claim_volume v n volume
          end
      end.

Fixpoint hold_each (migrating : bool) (v : Vm) (node : string) (names : list string) : pass_m D unit :=
  match names with
  | [] => ok tt
  | n :: names => _ ← hold_volume migrating v node n; hold_each migrating v node names
  end.

Definition hold_volumes (v : Vm) (node : string) : pass_m D unit :=
  migrating ← migration_in_flight prefix sur v;
  hold_each migrating v node (VmSpec.referenced_volumes (spec v)).

Fixpoint release_named_volumes (v : Vm) (names : list string) : pass_m D unit :=
  match names with
  | [] => ok tt
  | n :: names =>
      _ ← try_store (mutate (Sp := VolumeSpec.t) (St := VolumeStatus.t) prefix sur n (VolumeEdit.claimant_left v));
      release_named_volumes v names
  end.

Definition release_volumes (v : Vm) : pass_m D unit := release_named_volumes v (VmSpec.referenced_volumes (spec v)).
(** ** Commands *)

(** The edit of [unbind_refused]. *)
Definition refused_by_node (node said : string) (until at_ : instant) (v : Vm) : Vm :=
  VmEdit.on_status
    (fun s =>
       VmEdit.set_refused_by
         (List.filter (fun r => negb (String.eqb (Refusal.node r) node)) (VmStatus.refused_by s)
          ++ [{| Refusal.node := node; Refusal.message := said; Refusal.until := until |}])
         (VmEdit.set_placement None
            (VmEdit.set_reported (Some (said_here VmPhaseKind.Pending VmReason.Refused (Some said) at_)) s)))
    (VmEdit.set_node None v).

Definition unbind_refused (v : Vm) (node said : string) : pass_m D unit :=
  at_ ← now_ sur;
  let until := (at_ + REFUSAL_TTL)%Z in
  at_ ← now_ sur;
  _ ← edit v (refused_by_node node said until at_);
  event v "Unbound" ("node " +:+ node +:+ ": " +:+ said) EventType.Warning.

(** The edit of [dispatch_create]; [said] is a failed command's sentence. *)
Definition answered (said : option string) (settles_here : bool) (dispatched : N) (at_ : instant) (v : Vm) : Vm :=
  let v := if negb (is_some said) && settles_here then
             VmEdit.on_status (fun s => VmEdit.set_observed_generation
               (N.max (VmStatus.observed_generation s) dispatched) s) v
           else v in
  match create_answer said (vm_kind v) with
  | Some (phase, message) =>
      let reason := if bool_decide (phase = VmPhaseKind.Failed) then VmReason.Refused else VmReason.Dispatched in
      VmEdit.on_status
        (fun s => VmEdit.set_observed_at (Some at_)
           (VmEdit.set_node_name (VmSpec.node_name (spec v))
              (VmEdit.set_reported (Some (said_here phase reason message at_)) s))) v
  | None => v
  end.

Definition create_on (v : Vm) (node spec_json : string) : pass_m D (result Failure.t string) :=
  attempt (send_command net node (Op.Create (Objects.uid (metadata v)) spec_json)).

Definition note_create (v : Vm) (node : string) (outcome : result Failure.t string) : pass_m D unit :=
  match (match outcome with Err e => saying e CANNOT_SERVE | Ok _ => None end) with
  | Some refusal => unbind_refused v node (NodeRefusal.message refusal)
  | None =>
      let said := match outcome with Err e => Some (Failure.text e) | Ok _ => None end in
      at_ ← now_ sur;
      _ ← edit v (answered said (negb (is_some (volume_drift v))) (generation (metadata v)) at_);
      match outcome with Err e => raise e | Ok _ => ok tt end
  end.

(** A VM whose secret cannot be opened yet. *)
Definition wait_for_secret (v : Vm) (why : string) : pass_m D unit :=
  _ ← note_reason PendingReason.SecretNotReady;
  pending v PendingReason.SecretNotReady why.

Definition seed_value (s : Seed.t) : result string (option string) :=
  match s with
  | Seed.None_ => Ok None
  | Seed.Ready plaintext => Ok (Some plaintext)
  | Seed.NotReady why => Err why
  end.

Definition dispatch_create (v : Vm) (node : string) : pass_m D unit :=
  seed ← seed_for v;
  match seed_value seed with
  | Err why => wait_for_secret v why
  | Ok seed =>
      spec_json ← document v seed;
      outcome ← create_on v node spec_json;
      note_create v node outcome
  end.

Definition close_generation (v : Vm) : pass_m D unit :=
  let dispatched := generation (metadata v) in
  if (dispatched <=? VmStatus.observed_generation (status v))%N then ok tt
  else
    _ ← edit v (VmEdit.on_status (fun s => VmEdit.set_observed_generation
          (N.max (VmStatus.observed_generation s) dispatched) s));
    ok tt.

(** The memo at an instant. *)
Definition memo_says (uid : string) (said : LifecycleSaid.t) (at_ : instant) : pass_m D bool := fun p =>
  (p, Ok (Memo.said_lately (p_told p) uid said at_)).

Definition memo_note (uid : string) (said : LifecycleSaid.t) (at_ : instant) : pass_m D unit := fun p =>
  (set_told p (Memo.note (p_told p) uid said at_), Ok tt).

Definition told_lately (uid : string) (said : LifecycleSaid.t) : pass_m D bool := now_ sur ≫= memo_says uid said.

Definition note_told (uid : string) (said : LifecycleSaid.t) : pass_m D unit := now_ sur ≫= memo_note uid said.

Definition send_lifecycle (v : Vm) (node : string) (action : Lifecycle.t) : pass_m D unit :=
  let uid := Objects.uid (metadata v) in
  let said := {| LifecycleSaid.node := node; LifecycleSaid.action := action;
                 LifecycleSaid.generation := generation (metadata v) |} in
  lately ← told_lately uid said;
  if lately : bool then close_generation v
  else
    _ ← send_command net node (lifecycle_op action uid);
    _ ← note_told uid said;
    close_generation v.

(** The edit of an acknowledged [kick]. *)
Definition told_again (node : string) (dispatched : N) (at_ : instant) (v : Vm) : Vm :=
  VmEdit.on_status
    (fun s =>
       let s := VmEdit.set_observed_generation (N.max (VmStatus.observed_generation s) dispatched) s in
       if bool_decide (ph_kind (VmStatus.phase s) = VmPhaseKind.Failed) then
         VmEdit.set_reported
           (Some (said_here VmPhaseKind.Provisioning VmReason.Dispatched
                    (Some (node +:+ " was told again")) at_)) s
       else s) v.

Definition kick (v : Vm) (node : string) : pass_m D unit :=
  at_ ← now_ sur;
  _ ← edit v (Retry.count (VmStatus.requeue_attempts (status v) + 1) at_);
  seed ← seed_for v;
  match seed_value seed with
  | Err why => wait_for_secret v why
  | Ok seed =>
      spec_json ← document v seed;
      outcome ← create_on v node spec_json;
      match outcome with
      | Ok _ => at_ ← now_ sur; _ ← edit v (told_again node (generation (metadata v)) at_); ok tt
      | Err _ => ok tt
      end
  end.

Definition heal_if_failed (v : Vm) (node : string) : pass_m D unit :=
  at_ ← now_ sur;
  match requeue_decision v requeue at_ with
  | Requeue.Not => ok tt
  | Requeue.Reset => _ ← edit v Retry.reset; ok tt
  | Requeue.Arm => at_ ← now_ sur; _ ← edit v (Retry.arm at_); ok tt
  | Requeue.Kick => kick v node
  end.

(** ** The pass *)

Definition hot_plug (v : Vm) (node : string) (drift : Drift.t) : pass_m D unit :=
  let plug :=
    _ ← hold_volumes v node;
    _ ← dispatch_create v node;
    release_named_volumes v (Drift.release drift) in
  let wait why :=
    _ ← note_reason PendingReason.VolumeNotReady;
    pending v PendingReason.VolumeNotReady why in
  found ← volume_bindings prefix sur v;
  match found with
  | Bindings.NotReady why => wait why
  | Bindings.Ready bindings =>
      match List.find (fun b => VolumeBinding.pins_elsewhere b node) bindings
              ≫= fun b => option_map (fun n => (VolumeBinding.volume b, n)) (VolumeBinding.node b) with
      | Some (volume, on) =>
          wait ("volume " +:+ volume +:+ " lives on node " +:+ on +:+ "; this vm runs on node " +:+ node)
      | None => plug
      end
  end.

Definition set_mark (mark : option Evacuating.t) : Vm -> Vm := VmEdit.on_status (VmEdit.set_evacuating mark).

Definition evacuate (v : Vm) (node : string) : pass_m D unit :=
  match VmStatus.evacuating (status v) with
  | None => ok tt
  | Some mark =>
      if negb (String.eqb node (Evacuating.from mark)) then
        _ ← edit v (set_mark None);
        event v "Scheduled" ("moved off " +:+ Evacuating.from mark +:+ " by restart; now on " +:+ node) EventType.Normal
      else
        match EvacuationStep.parse (Evacuating.step mark) with
        | Some EvacuationStep.Stopping =>
            match vm_kind v with
            | VmPhaseKind.Running | VmPhaseKind.Paused => send_lifecycle v node Lifecycle.Stop
            | VmPhaseKind.Stopped =>
                _ ← edit v (fun v => set_mark
                      (Some {| Evacuating.from := Evacuating.from mark;
                               Evacuating.step := EvacuationStep.as_str EvacuationStep.Moving;
                               Evacuating.since := Evacuating.since mark |}) (VmEdit.set_node None v));
                ok tt
            | _ => ok tt
            end
        | Some EvacuationStep.Moving => _ ← edit v (set_mark None); ok tt
        | None => ok tt
        end
  end.

Definition unbind (v : Vm) (old : string) : pass_m D unit :=
  _ ← send_command net old (Op.Destroy (Objects.uid (metadata v)));
  release_volumes v.

(** The judgement under which the object is removed. *)
Definition still_judged (v x : Vm) : bool :=
  is_deleting x && bool_decide (destroy_target x = destroy_target v).

Definition tear_down (v : Vm) : pass_m D unit :=
  _ ← match destroy_target v with
      | Some node => _ ← send_command net node (Op.Destroy (Objects.uid (metadata v))); ok tt
      | None => ok tt
      end;
  removed ← st (finish_delete prefix sur v (still_judged v));
  if removed : bool then release_volumes v else ok tt.

(** What a bound VM is told to do once its create or its disks are settled. *)
Definition drive (v : Vm) (node : string) : pass_m D unit :=
  if is_some (VmStatus.evacuating (status v)) then evacuate v node
  else
    _ ← match lifecycle_command (VmSpec.run_strategy (spec v)) (vm_kind v) with
        | Some action => send_lifecycle v node action
        | None => ok tt
        end;
    heal_if_failed v node.

Definition reconcile_vm (held : list CapacityReservation) (overcommit : Overcommit.t) (v : Vm) : pass_m D unit :=
  if negb (may_reconcile v sessions) then ok tt
  else if is_deleting v then tear_down v
  else
    match VmSpec.node_name (spec v) with
    | None =>
        match VmStatus.node_name (status v) with
        | Some old => unbind v old
        | None => place prefix sur assign new_lease new_uid held overcommit v
        end
    | Some node =>
        if bool_decide (vm_kind v = VmPhaseKind.Pending) then
          _ ← hold_volumes v node;
          _ ← dispatch_create v node;
          drive v node
        else match volume_drift v with
             | Some drift => hot_plug v node drift
             | None => drive v node
             end
    end.
End vms.

(** * What a pass may tell a node *)

Section authority.
Context {D Bytes : Type} `{!Etcd D Bytes, !RawJson Bytes, !StatusJson}.
Context `{!Serde Bytes VmSpec.t VmStatus.t, !Resource VmSpec.t VmStatus.t,
  !Serde Bytes VmMigrationSpec.t VmMigrationStatus.t, !Serde Bytes VolumeSpec.t VolumeStatus.t}.
Variable prefix : string.
Variable sur : surroundings D.
Variable render : value -> string.
Variable s0 : D.
Variable v : Vm.

(** The record of a volume as the pass knew it between [s0] and [s]: as it was
    read, or as the pass moved its home to the VM's node. *)
Inductive seen (node n : string) : D -> Volume -> Prop :=
| seen_read w w' volume s :
    evolves s0 (db w) -> get (Sp := VolumeSpec.t) (St := VolumeStatus.t) prefix sur n w = (w', Ok volume) ->
    evolves (db w') s -> seen node n s volume
| seen_carried volume moved w w' s :
    seen node n (db w) volume ->
    mutate_if_with prefix sur (name (metadata volume)) (Objects.uid (metadata volume))
      (fun _ x => if may_carry (status x) v then (true, VolumeEdit.at_home node x) else (false, x)) false w
    = (w', Ok (true, moved)) ->
    evolves (db w') s -> seen node n s moved.

(** A live migration of the VM was under way. *)
Definition in_flight (s : D) : Prop :=
  exists p p', evolves s0 (db (p_store p)) /\ migration_in_flight prefix sur v p = (p', Ok true)
    /\ evolves (db (p_store p')) s.

(** The disk is this VM object's to open on the node: its record stood under
    the VM's uid, or stood free and the claim landed on it. *)
Inductive secured (node n : string) (s : D) : Prop :=
| secured_held volume :
    seen node n s volume -> ph_kind (VolumeStatus.phase (status volume)) = VolumePhaseKind.Ready ->
    VolumeStatus.claimed_by (status volume) (Objects.uid (metadata v)) = true -> secured node n s
| secured_taken volume taken :
    seen node n s volume -> ph_kind (VolumeStatus.phase (status volume)) = VolumePhaseKind.Ready ->
    VolumeStatus.attached_to (status volume) = None ->
    VolumeStatus.open_elsewhere (status volume) node = None \/ in_flight s ->
    landed prefix sur s0 (VolumeEdit.claim v volume) taken s ->
    VolumeStatus.claimed_by (status taken) (Objects.uid (metadata v)) = true -> secured node n s.

(** The document is the VM's own, with its references resolved. *)
Definition own_document (spec_json : string) : Prop :=
  exists refs seed doc, build_spec_json v refs seed = Ok doc /\ spec_json = render doc.

Inductive permitted (s : D) : string * Op.t -> Prop :=
| may_create node spec_json :
    is_deleting v = false -> VmSpec.node_name (spec v) = Some node ->
    vm_kind v = VmPhaseKind.Pending \/ is_some (volume_drift v) = true ->
    Forall (fun n => secured node n s) (VmSpec.referenced_volumes (spec v)) -> own_document spec_json ->
    permitted s (node, Op.Create (Objects.uid (metadata v)) spec_json)
| may_kick node spec_json :
    is_deleting v = false -> VmSpec.node_name (spec v) = Some node ->
    vm_kind v = VmPhaseKind.Failed -> VmSpec.run_strategy (spec v) <> RunStrategy.Stopped ->
    VmStatus.evacuating (status v) = None -> own_document spec_json ->
    permitted s (node, Op.Create (Objects.uid (metadata v)) spec_json)
| may_drive node action :
    is_deleting v = false -> VmSpec.node_name (spec v) = Some node -> VmStatus.evacuating (status v) = None ->
    lifecycle_command (VmSpec.run_strategy (spec v)) (vm_kind v) = Some action ->
    permitted s (node, lifecycle_op action (Objects.uid (metadata v)))
| may_stop_to_move mark :
    is_deleting v = false -> VmSpec.node_name (spec v) = Some (Evacuating.from mark) ->
    VmStatus.evacuating (status v) = Some mark ->
    EvacuationStep.parse (Evacuating.step mark) = Some EvacuationStep.Stopping ->
    vm_kind v = VmPhaseKind.Running \/ vm_kind v = VmPhaseKind.Paused ->
    permitted s (Evacuating.from mark, Op.Stop (Objects.uid (metadata v)) None)
| may_take_off old :
    is_deleting v = false -> VmSpec.node_name (spec v) = None -> VmStatus.node_name (status v) = Some old ->
    permitted s (old, Op.Destroy (Objects.uid (metadata v)))
| may_destroy node :
    is_deleting v = true -> destroy_target v = Some node -> permitted s (node, Op.Destroy (Objects.uid (metadata v))).
End authority.

(** * Lemmas *)

Section quiet_vm.
Context {D Bytes : Type} `{!Etcd D Bytes, !EtcdLaws D Bytes, !RawJson Bytes, !StatusJson}.
Context `{!Serde Bytes NodeSpec.t NodeStatus.t, !Serde Bytes VmSpec.t VmStatus.t, !Resource VmSpec.t VmStatus.t,
  !Serde Bytes VmMigrationSpec.t VmMigrationStatus.t, !Serde Bytes CapacityReservationSpec.t unit,
  !Serde Bytes VolumeSpec.t VolumeStatus.t, !Serde Bytes StoragePoolSpec.t StoragePoolStatus.t,
  !Serde Bytes EventSpec.t unit, !Serde Bytes SecretSpec.t unit}.
Context (prefix : string) (sur : surroundings D) (net : peers) (Henv : lawful_env sur).
Context (kek : option (string -> string -> result string string)) (render : value -> string).
Context (new_lease : Z -> nat -> Z) (new_uid : nat -> string).
Implicit Types (P : D -> string * Op.t -> Prop) (s : D).

Lemma grows_mutate_if_with {C Sp St} `{!Resource Sp St, !Serde Bytes Sp St} nm uid
    (f : C -> Object Sp St -> C * Object Sp St) c : grows (mutate_if_with prefix sur nm uid f c).
Proof using Henv EtcdLaws0. unfold mutate_if_with. by apply grows_mutate_loop. Qed.

Lemma emits_carry s P v volume f : emits s P (carry_record prefix sur v volume f).
Proof using Henv EtcdLaws0.
  unfold carry_record. apply emits_seq; [apply emits_st, grows_mutate_if_with|]. intros [[] o]; simpl; emit.
Qed.

Lemma emits_held s P v n holder : emits s P (note_vm_held prefix sur v n holder).
Proof using Henv EtcdLaws0.
  unfold note_vm_held. emit; [emit|]. apply emits_seq; [apply emits_now|intros at_].
  apply emits_seq; [by apply emits_edit|intros _; emit].
Qed.

Lemma emits_wait {A} s P v n holder : emits s P (wait_for_holder (A := A) prefix sur v n holder).
Proof using Henv EtcdLaws0. unfold wait_for_holder. apply emits_seq; [apply emits_held|intros _; emit]. Qed.

Lemma emits_home s P v node volume : emits s P (bring_home prefix sur v node volume).
Proof using Henv EtcdLaws0.
  unfold bring_home. apply emits_seq; [emit; [apply emits_carry|emit]|intros x]. emit; [|emit].
  apply emits_seq; [emit|intros r].
  destruct r as [pool|e]; [|destruct e; try emit].
  destruct (StoragePoolStatus.locality _) as [[]|]; try (apply emits_ok);
    (apply emits_seq; [apply emits_now|intros at_]; apply emits_seq; [apply emits_carry|intros _; apply emits_bail]).
Qed.

Lemma emits_take s P v n volume : emits s P (claim_volume prefix sur v n volume).
Proof using Henv EtcdLaws0. unfold claim_volume. repeat emit. Qed.

Lemma emits_hold_volume s P migrating v node n : emits s P (hold_volume prefix sur migrating v node n).
Proof using Henv EtcdLaws0.
  unfold hold_volume. apply emits_seq; [emit|intros volume]. emit; [apply emits_wait|].
  apply emits_seq; [apply emits_home|intros home]. cbv zeta. emit; [emit|].
  emit; [emit; [emit|apply emits_wait]|]. emit; [|apply emits_take]. emit; [emit|apply emits_take].
Qed.

Lemma emits_hold_each s P migrating v node names : emits s P (hold_each prefix sur migrating v node names).
Proof using Henv EtcdLaws0.
  induction names as [|n names IH]; simpl; [emit|]. apply emits_seq; [apply emits_hold_volume|intros _; apply IH].
Qed.

Lemma emits_in_flight s P v : emits s P (migration_in_flight prefix sur v).
Proof using Henv. unfold migration_in_flight. apply emits_seq; [by apply emits_list_or_none|intros; emit]. Qed.

Lemma emits_hold s P v node : emits s P (hold_volumes prefix sur v node).
Proof using Henv EtcdLaws0.
  unfold hold_volumes. apply emits_seq; [apply emits_in_flight|intros; apply emits_hold_each].
Qed.

Lemma emits_let_go s P v names : emits s P (release_named_volumes prefix sur v names).
Proof using Henv EtcdLaws0. induction names as [|n names IH]; simpl; repeat emit. apply IH. Qed.

Lemma emits_seed s P v : emits s P (seed_for prefix sur kek v).
Proof using Henv. unfold seed_for. repeat emit. Qed.

Lemma emits_document s P v seed : emits s P (document prefix sur render v seed).
Proof using Henv.
  unfold document. apply emits_seq; [by apply emits_st, grows_volume_uids|intros refs]. repeat emit.
Qed.

Lemma emits_close s P v : emits s P (close_generation prefix sur v).
Proof using Henv EtcdLaws0.
  unfold close_generation. cbv zeta. emit; [emit|]. apply emits_seq; [by apply emits_edit|intros _; emit].
Qed.

Lemma emits_secret_wait s P v why : emits s P (wait_for_secret prefix sur new_lease new_uid v why).
Proof using Henv EtcdLaws0. unfold wait_for_secret. apply emits_seq; [emit|intros _; by apply emits_pending]. Qed.

Lemma emits_note_create s P v node outcome : emits s P (note_create prefix sur new_lease new_uid v node outcome).
Proof using Henv EtcdLaws0.
  unfold note_create. emit.
  - unfold unbind_refused. apply emits_seq; [apply emits_now|intros]. apply emits_seq; [apply emits_now|intros].
    apply emits_seq; [by apply emits_edit|intros _; by apply emits_happened].
  - apply emits_seq; [apply emits_now|intros]. apply emits_seq; [by apply emits_edit|intros _]. repeat emit.
Qed.

Lemma emits_memo s P uid said : emits s P (told_lately sur uid said).
Proof using.
  unfold told_lately. apply emits_seq; [apply emits_now|intros at_].
  apply emits_silent. intros p p' r [= <- <-]. by split; [apply rtc_refl|].
Qed.

Lemma emits_note_told s P uid said : emits s P (note_told sur uid said).
Proof using.
  unfold note_told. apply emits_seq; [apply emits_now|intros at_].
  apply emits_silent. intros p p' r [= <- <-]. by split; [apply rtc_refl|].
Qed.
End quiet_vm.

#[local] Instance volumes_settle : SettleLaws VolumeSpec.t VolumeStatus.t.
Proof. by constructor. Qed.

Section securing.
Context {D Bytes : Type} `{!Etcd D Bytes, !EtcdLaws D Bytes, !RawJson Bytes, !StatusJson}.
Context `{!Serde Bytes NodeSpec.t NodeStatus.t, !Serde Bytes VmSpec.t VmStatus.t, !Resource VmSpec.t VmStatus.t,
  !Serde Bytes VmMigrationSpec.t VmMigrationStatus.t, !Serde Bytes VolumeSpec.t VolumeStatus.t,
  !SerdeLaws Bytes VolumeSpec.t VolumeStatus.t, !Serde Bytes StoragePoolSpec.t StoragePoolStatus.t}.
Context (prefix : string) (sur : surroundings D) (Henv : lawful_env sur) (s0 : D) (v : Vm).
Abbreviation seen := (seen prefix sur s0 v).
Abbreviation secured := (secured prefix sur s0 v).

Lemma seen_later node n s s' volume : seen node n s volume -> evolves s s' -> seen node n s' volume.
Proof using.
  intros Hs He. destruct Hs.
  - eapply seen_read; [done..|]. along.
  - eapply seen_carried; [done..|]. along.
Qed.

Lemma in_flight_later s s' : in_flight prefix sur s0 v s -> evolves s s' -> in_flight prefix sur s0 v s'.
Proof using. intros (p & p' & ? & ? & ?) ?. exists p, p'. split_and!; [done..|along]. Qed.

Lemma secured_later node n s s' : secured node n s -> evolves s s' -> secured node n s'.
Proof using.
  intros Hs He. destruct Hs as [volume Hv Hr Hc|volume taken Hv Hr Hn Ho Hl Hc].
  - eapply secured_held; eauto using seen_later.
  - eapply secured_taken; eauto using seen_later, landed_later.
    destruct Ho; [by left|right; eauto using in_flight_later].
Qed.

(** A run of the pass moves the database along its history. *)
Lemma emits_grows {A} (m : pass_m D A) p p' r :
  (forall s, emits s (fun _ _ => True) m) -> m p = (p', r) -> evolves (db (p_store p)) (db (p_store p')).
Proof using. intros Hm Hr. by destruct (Hm (db (p_store p)) p p' r (rtc_refl _ _) Hr). Qed.

Lemma st_ok {A} (m : store_m D A) p p' a :
  st m p = (p', Ok a) -> m (p_store p) = (p_store p', Ok a).
Proof using. unfold st. destruct (m (p_store p)) as [w [x|e]]; intros [= <- <-]. done. Qed.

Lemma carried node n volume p p' moved :
  seen node n (db (p_store p)) volume ->
  carry_record prefix sur v volume (VolumeEdit.at_home node) p = (p', Ok moved) ->
  seen node n (db (p_store p')) moved.
Proof using.
  intros Hs (p1 & [[] x] & Hm & Hk)%pass_bind_ok; simpl in Hk; [|done]. injection Hk as <- <-.
  apply st_ok in Hm. eapply seen_carried; [done..|]. by apply rtc_refl.
Qed.

Lemma brought_home node n volume p p' home :
  seen node n (db (p_store p)) volume -> bring_home prefix sur v node volume p = (p', Ok home) ->
  seen node n (db (p_store p')) home.
Proof using Henv EtcdLaws0.
  intros Hs (p1 & x & Hx & Hk)%pass_bind_ok.
  assert (H1 : seen node n (db (p_store p1)) x).
  { destruct (_ && _); [by eapply carried|]. by injection Hx as <- <-. }
  clear Hx. revert Hk. destruct (is_some_and _ _); [|by intros [= <- <-]].
  intros (p2 & r & Hr & Hk)%pass_bind_ok.
  assert (H2 : evolves (db (p_store p1)) (db (p_store p2))).
  { eapply emits_grows; [|exact Hr]. intros s. emit. }
  destruct r as [pool|e]; [|destruct e; simplify_eq/=; injection Hk as <- <-; eauto using seen_later].
  destruct (StoragePoolStatus.locality _) as [[]|];
    [injection Hk as <- <-; eauto using seen_later| | |injection Hk as <- <-; eauto using seen_later].
  all: apply pass_bind_ok in Hk as (p3 & at_ & _ & Hk); by apply pass_bind_ok in Hk as (p4 & o & _ & Hk).
Qed.

(** A record that came out of the store carries its revision. *)
Lemma seen_stamped node n s volume :
  seen node n s volume -> exists rev, (0 < rev)%Z /\ resource_version (metadata volume) = show_Z rev.
Proof using EtcdLaws0 SerdeLaws0.
  intros Hs. destruct Hs as [w w' volume s _ Hg _|volume moved w w' s _ Hm _].
  - apply get_ok in Hg as (kv & Hk & _ & Hd). apply look_bounds in Hk as [? _].
    exists (mod_revision kv). split; [lia|]. by eapply decode_version.
  - apply mutate_loop_written in Hm as (x & c & at_ & rev & Hpos & _ & _ & Hr);
      [|intros c x; simpl; by destruct (may_carry _ _)].
    exists rev. split; [done|]. simpl in Hr. by rewrite Hr.
Qed.

(** A fresh claim survives the derivation that runs before the write. *)
Lemma claim_stands at_ (volume : Volume) :
  VolumeStatus.claimed_by (status (volume_settle at_ (VolumeEdit.claim v volume))) (Objects.uid (metadata v)) = true.
Proof using. unfold volume_settle, VolumeStatus.claimed_by. simpl. by apply bool_decide_eq_true. Qed.

Lemma claim_written node n s volume taken w w' :
  seen node n s volume -> update prefix sur (VolumeEdit.claim v volume) w = (w', Ok taken) ->
  VolumeStatus.claimed_by (status taken) (Objects.uid (metadata v)) = true.
Proof using EtcdLaws0 SerdeLaws0.
  intros (z & Hz & Hv)%seen_stamped Hu. destruct (update_parsed _ _ _ _ _ _ Hu) as [rev Hrev]; [eauto|].
  pose proof Hrev as Hp. change (metadata (VolumeEdit.claim v volume)) with (metadata volume) in Hp.
  rewrite Hv in Hp. apply parse_i64_show_inv in Hp as ->; [|lia].
  destruct (update_ok _ _ _ z _ _ _ Hrev ltac:(lia) Hu) as (kv & b & _ & _ & Hb & _ & _ & Hd).
  rewrite (encode_name _ _ _ _ _ Hb Hd). apply claim_stands.
Qed.

Lemma claim_taken node n volume p p' :
  evolves s0 (db (p_store p)) -> seen node n (db (p_store p)) volume ->
  claim_volume prefix sur v n volume p = (p', Ok tt) ->
  exists taken, landed prefix sur s0 (VolumeEdit.claim v volume) taken (db (p_store p'))
    /\ VolumeStatus.claimed_by (status taken) (Objects.uid (metadata v)) = true.
Proof using EtcdLaws0 SerdeLaws0.
  intros Hs Hseen (p1 & r & Hr & Hk)%pass_bind_ok. unfold try_store in Hr.
  destruct (update _ _ _ _) as [w x] eqn:Eu. injection Hr as <- <-.
  destruct x as [taken|[]]; try done. injection Hk as <-. exists taken.
  split; [by eapply landed_now|by eapply claim_written].
Qed.

(** What holding one disk established. *)
Lemma hold_volume_secures migrating node n p p' :
  evolves s0 (db (p_store p)) -> (migrating = true -> in_flight prefix sur s0 v (db (p_store p))) ->
  hold_volume prefix sur migrating v node n p = (p', Ok tt) -> secured node n (db (p_store p')).
Proof using Henv EtcdLaws0 SerdeLaws0.
  intros Hs Hm Hrun. pose proof (emits_grows _ _ _ _ (fun s => emits_hold_volume prefix sur Henv s _ migrating v node n) Hrun) as Hg.
  apply pass_bind_ok in Hrun as (p1 & volume & H1 & Hrun).
  assert (E1 : evolves (db (p_store p)) (db (p_store p1))) by (eapply emits_grows; [|exact H1]; intros; emit).
  apply st_ok in H1. destruct (negb (may_carry _ _)).
  { by apply pass_bind_ok in Hrun as (p2 & [] & _ & Hrun). }
  apply pass_bind_ok in Hrun as (p2 & home & H2 & Hrun).
  assert (E2 : evolves (db (p_store p1)) (db (p_store p2))).
  { eapply emits_grows; [|exact H2]. intros. by apply emits_home. }
  apply (brought_home node n) in H2; [|by eapply seen_read; [..|apply rtc_refl]].
  cbv zeta in Hrun. destruct (bool_decide _) eqn:Er; simpl in Hrun; [|done]. apply bool_decide_eq_true in Er.
  destruct (VolumeStatus.attached_to _) as [holder|] eqn:Ea.
  { destruct (VolumeStatus.claimed_by _ _) eqn:Ec.
    - injection Hrun as <-. by eapply secured_held.
    - by apply pass_bind_ok in Hrun as (p3 & [] & _ & Hrun). }
  assert (Ht : claim_volume prefix sur v n home p2 = (p', Ok tt)
               /\ (VolumeStatus.open_elsewhere (status home) node = None \/ migrating = true)).
  { destruct (VolumeStatus.open_elsewhere _ _); [|by auto]. destruct migrating; simpl in Hrun; [by auto|done]. }
  destruct Ht as [Ht Ho].
  assert (E3 : evolves (db (p_store p2)) (db (p_store p'))).
  { eapply emits_grows; [|exact Ht]. intros. by apply emits_take. }
  apply (claim_taken node) in Ht as (taken & Hl & Hc); [|along|done].
  eapply secured_taken; eauto using seen_later. destruct Ho as [?|?]; [by left|right].
  eapply in_flight_later; [by apply Hm|done].
Qed.

Lemma hold_each_secures migrating node names p p' :
  evolves s0 (db (p_store p)) -> (migrating = true -> in_flight prefix sur s0 v (db (p_store p))) ->
  hold_each prefix sur migrating v node names p = (p', Ok tt) ->
  Forall (fun n => secured node n (db (p_store p'))) names.
Proof using Henv EtcdLaws0 SerdeLaws0.
  revert p. induction names as [|n names IH]; intros p Hs Hm; simpl; [by constructor|].
  intros (p1 & [] & H1 & H2)%pass_bind_ok.
  assert (E1 : evolves (db (p_store p)) (db (p_store p1))).
  { eapply emits_grows; [|exact H1]. intros. by apply emits_hold_volume. }
  assert (E2 : evolves (db (p_store p1)) (db (p_store p'))).
  { eapply emits_grows; [|exact H2]. intros. by apply emits_hold_each. }
  constructor.
  - eapply secured_later; [|exact E2]. by eapply hold_volume_secures.
  - apply (IH p1); [along| |done]. intros Hmig. eapply in_flight_later; [by apply Hm|done].
Qed.

Lemma hold_secures node p p' :
  evolves s0 (db (p_store p)) -> hold_volumes prefix sur v node p = (p', Ok tt) ->
  Forall (fun n => secured node n (db (p_store p'))) (VmSpec.referenced_volumes (spec v)).
Proof using Henv EtcdLaws0 SerdeLaws0.
  intros Hs (p1 & migrating & H1 & H2)%pass_bind_ok.
  assert (E1 : evolves (db (p_store p)) (db (p_store p1))).
  { eapply emits_grows; [|exact H1]. intros. by apply emits_in_flight. }
  apply (hold_each_secures migrating node _ p1); [along| |exact H2]. intros ->. exists p, p1. split_and!; [done..|by apply rtc_refl].
Qed.
End securing.

Section pass_theorem.
Context {D Bytes : Type} `{!Etcd D Bytes, !EtcdLaws D Bytes, !RawJson Bytes, !StatusJson}.
Context `{!Serde Bytes NodeSpec.t NodeStatus.t, !Serde Bytes VmSpec.t VmStatus.t, !Resource VmSpec.t VmStatus.t,
  !Serde Bytes VmMigrationSpec.t VmMigrationStatus.t, !Serde Bytes CapacityReservationSpec.t unit,
  !Serde Bytes VolumeSpec.t VolumeStatus.t, !SerdeLaws Bytes VolumeSpec.t VolumeStatus.t,
  !Serde Bytes StoragePoolSpec.t StoragePoolStatus.t, !Serde Bytes EventSpec.t unit, !Serde Bytes SecretSpec.t unit}.
Context (prefix : string) (sur : surroundings D) (net : peers).
Context (assign : Vm -> list Candidate.t -> option string) (requeue : RequeuePolicy) (sessions : list string).
Context (kek : option (string -> string -> result string string)) (render : value -> string).
Context (new_lease : Z -> nat -> Z) (new_uid : nat -> string).

Section one_vm.
Context (Henv : lawful_env sur) (s0 : D) (v : Vm) (node : string).
Context (Hlive : is_deleting v = false) (Hbound : VmSpec.node_name (spec v) = Some node).
Abbreviation may := (permitted prefix sur render s0 v).
Abbreviation create_uid := (Op.Create (Objects.uid (metadata v))).

Lemma document_own seed p p' spec_json :
  document prefix sur render v seed p = (p', Ok spec_json) -> own_document render v spec_json.
Proof using.
  intros (p1 & refs & _ & Hk)%pass_bind_ok. destruct (build_spec_json v refs seed) as [doc|] eqn:E; [|done].
  injection Hk as <- <-. by exists refs, seed, doc.
Qed.

Lemma emits_tell s P seed (k : result Failure.t string -> pass_m D unit) :
  (forall s' spec_json, evolves s s' -> own_document render v spec_json -> P s' (node, create_uid spec_json)) ->
  (forall s' r, emits s' P (k r)) ->
  emits s P (spec_json ← document prefix sur render v seed; outcome ← create_on net v node spec_json; k outcome).
Proof using Henv.
  intros HP Hk. apply emits_bind; [by apply emits_document|]. intros p p' doc Hs Hd.
  assert (Hg : evolves (db (p_store p)) (db (p_store p'))).
  { eapply emits_grows; [|exact Hd]. intros. by apply emits_document. }
  apply document_own in Hd. apply emits_seq; [|intros r; apply Hk].
  unfold create_on. apply emits_attempt, emits_command. intros s' Hs'. apply HP; [along|done].
Qed.

Lemma emits_create s :
  vm_kind v = VmPhaseKind.Pending \/ is_some (volume_drift v) = true ->
  Forall (fun n => secured prefix sur s0 v node n s) (VmSpec.referenced_volumes (spec v)) ->
  emits s may (dispatch_create prefix sur net kek render new_lease new_uid v node).
Proof using Henv EtcdLaws0 Hlive Hbound.
  intros Hw Hsec. unfold dispatch_create. apply emits_seq; [by apply emits_seed|intros seed].
  destruct (seed_value seed) as [plain|why]; [|by apply emits_secret_wait].
  apply emits_tell; [|intros; by apply emits_note_create].
  intros s' spec_json Hs' Hd. apply may_create; [done..| |done].
  eapply Forall_impl; [exact Hsec|]. intros n Hn. by apply (secured_later prefix sur s0 v node n s).
Qed.

Lemma emits_kick s :
  vm_kind v = VmPhaseKind.Failed -> VmSpec.run_strategy (spec v) <> RunStrategy.Stopped ->
  VmStatus.evacuating (status v) = None ->
  emits s may (kick prefix sur net kek render new_lease new_uid v node).
Proof using Henv EtcdLaws0 Hlive Hbound.
  intros Hk Hr He. unfold kick. apply emits_seq; [apply emits_now|intros at_].
  apply emits_seq; [by apply emits_edit|intros _]. apply emits_seq; [by apply emits_seed|intros seed].
  destruct (seed_value seed) as [plain|why]; [|by apply emits_secret_wait].
  apply emits_tell; [intros; by apply may_kick|]. intros s' [x|e]; [|emit].
  apply emits_seq; [apply emits_now|intros]. apply emits_seq; [by apply emits_edit|intros _; emit].
Qed.

Lemma emits_heal s :
  VmStatus.evacuating (status v) = None ->
  emits s may (heal_if_failed prefix sur net requeue kek render new_lease new_uid v node).
Proof using Henv EtcdLaws0 Hlive Hbound.
  intros He. unfold heal_if_failed. apply emits_seq; [apply emits_now|intros now].
  destruct (requeue_decision v requeue now) eqn:Ed.
  - emit.
  - apply emits_seq; [apply emits_now|intros]. apply emits_seq; [by apply emits_edit|intros _; emit].
  - revert Ed. unfold requeue_decision.
    destruct (bool_decide (vm_kind v = VmPhaseKind.Failed)) eqn:Ef; simpl; [|by destruct (_ || _)].
    apply bool_decide_eq_true in Ef. destruct (bool_decide _) eqn:Es; simpl; [done|].
    apply bool_decide_eq_false in Es. intros _. by apply emits_kick.
  - apply emits_seq; [by apply emits_edit|intros _; emit].
Qed.

Lemma emits_lifecycle s action :
  (forall s', may s' (node, lifecycle_op action (Objects.uid (metadata v)))) ->
  emits s may (send_lifecycle prefix sur net v node action).
Proof using Henv EtcdLaws0.
  intros HP. unfold send_lifecycle. apply emits_seq; [by apply emits_memo|]. intros []; [by apply emits_close|].
  apply emits_seq; [apply emits_command; intros; apply HP|intros _].
  apply emits_seq; [by apply emits_note_told|intros _; by apply emits_close].
Qed.

Lemma emits_evacuate s : emits s may (evacuate prefix sur net new_lease new_uid v node).
Proof using Henv EtcdLaws0 Hlive Hbound.
  unfold evacuate. destruct (VmStatus.evacuating (status v)) as [mark|] eqn:Em; [|emit].
  destruct (String.eqb node _) eqn:En; simpl.
  2:{ apply emits_seq; [by apply emits_edit|intros _; by apply emits_happened]. }
  apply String.eqb_eq in En. destruct (EvacuationStep.parse _) as [[]|] eqn:Es; [| |emit].
  2:{ apply emits_seq; [by apply emits_edit|intros _; emit]. }
  assert (Hstop : vm_kind v = VmPhaseKind.Running \/ vm_kind v = VmPhaseKind.Paused ->
    emits s may (send_lifecycle prefix sur net v node Lifecycle.Stop)).
  { intros Hk. apply emits_lifecycle. intros s'. rewrite En. simpl. apply may_stop_to_move; try done. by rewrite <- En. }
  destruct (vm_kind v) eqn:Ek; try emit; try (apply Hstop; by auto).
  1: by apply emits_edit. emit.
Qed.

Lemma emits_drive s : emits s may (drive prefix sur net requeue kek render new_lease new_uid v node).
Proof using Henv EtcdLaws0 Hlive Hbound.
  unfold drive. destruct (is_some _) eqn:Ee; [by apply emits_evacuate|].
  assert (He : VmStatus.evacuating (status v) = None) by (by destruct (VmStatus.evacuating (status v))).
  apply emits_seq; [|intros _; by apply emits_heal].
  destruct (lifecycle_command _ _) as [action|] eqn:El; [|emit]. apply emits_lifecycle. intros s'. by apply may_drive.
Qed.

(** Disks first, then the create. *)
Lemma emits_hold_then s (k : pass_m D unit) :
  evolves s0 s -> vm_kind v = VmPhaseKind.Pending \/ is_some (volume_drift v) = true -> (forall s', emits s' may k) ->
  emits s may (_ ← hold_volumes prefix sur v node;
               _ ← dispatch_create prefix sur net kek render new_lease new_uid v node; k).
Proof using Henv EtcdLaws0 SerdeLaws0 Hlive Hbound.
  intros Hs Hw Hk. apply emits_bind; [by apply emits_hold|]. intros p p' [] Hp Hh.
  apply (hold_secures prefix sur Henv s0) in Hh; [|along].
  apply emits_seq; [by apply emits_create|intros _; apply Hk].
Qed.

Lemma emits_plug s drift :
  evolves s0 s -> volume_drift v = Some drift ->
  emits s may (hot_plug prefix sur net kek render new_lease new_uid v node drift).
Proof using Henv EtcdLaws0 SerdeLaws0 Hlive Hbound.
  intros Hs Hd. unfold hot_plug.
  assert (Hwait : forall s' why, emits s' may (_ ← note_reason PendingReason.VolumeNotReady;
    note_vm_pending prefix sur new_lease new_uid v PendingReason.VolumeNotReady why)).
  { intros. apply emits_seq; [emit|intros _; by apply emits_pending]. }
  apply emits_seq; [by apply emits_bindings|]. intros [bindings|why]; [|apply Hwait].
  destruct (_ ≫= _) as [[volume on]|]; [apply Hwait|].
  apply emits_hold_then; [done|right; by rewrite Hd|]. intros s'. by apply emits_let_go.
Qed.
End one_vm.

Lemma grows_finish_delete {Sp St} `{!Resource Sp St, !Serde Bytes Sp St} (o : Object Sp St) concluded :
  lawful_env sur -> grows (finish_delete prefix sur o concluded).
Proof using EtcdLaws0.
  intros Henv. unfold finish_delete. generalize FINISH_DELETE_ATTEMPTS. intros n. generalize o at 3.
  induction n as [|n IH]; intros current; [apply grows_ret|]. simpl. destruct (concluded current); [|apply grows_ret].
  intros w w' r. simpl. destruct (delete_if _ _ _ _ w) as [w1 x] eqn:E1. apply grows_delete_if in E1; [|done].
  destruct (get _ _ _ w1) as [w2 y] eqn:E2. apply grows_get in E2; [|done].
  destruct x as [|[]]; try by intros [= <- <-].
  destruct y as [fresh|[]]; try (intros [= <- <-]; along).
  destruct (String.eqb _ _); [|intros [= <- <-]; along]. intros Hr. apply IH in Hr. along.
Qed.
Lemma emits_torn_down s s0 v :
  lawful_env sur -> is_deleting v = true ->
  emits s (permitted prefix sur render s0 v) (tear_down prefix sur net v).
Proof using EtcdLaws0.
  intros Henv Hd. unfold tear_down. apply emits_seq.
  { destruct (destroy_target v) as [node|] eqn:Et; [|emit]. apply emits_seq; [|intros _; emit].
    apply emits_command. intros s' _. by apply may_destroy. }
  intros _. apply emits_seq; [by apply emits_st, grows_finish_delete|]. intros []; [by apply emits_let_go|emit].
Qed.

(** The replica the command's node talks to is this one. *)
Lemma permitted_owned s0 v s c :
  may_reconcile v sessions = true -> permitted prefix sur render s0 v s c -> str_in c.1 sessions = true.
Proof using.
  unfold may_reconcile. intros Hm Hp. destruct Hp; simpl;
    repeat match goal with H : VmSpec.node_name _ = _ |- _ => rewrite H in Hm; clear H end; try done.
  - match goal with H : VmStatus.node_name _ = _ |- _ => by rewrite H in Hm end.
  - match goal with H : destroy_target v = _ |- _ => revert H end. unfold destroy_target.
    destruct (negb _); [|done]. intros E. by rewrite E in Hm.
Qed.

(** C5. Whatever other replicas and sessions write meanwhile and whatever the nodes
    answer, every command one pass over a VM hands to a node is one it may give, at
    that moment, and goes to a node whose session this replica holds.  A create goes
    to the bound node only, carries the VM's own document, and follows, unless the
    VM is a failed one being retried, a claim on every disk it refers to: the
    stored record stood Ready under the uid of this VM object, or stood Ready, free
    and open nowhere else (a live migration under way apart) and the write of the
    claim landed on exactly that record.  A lifecycle command is the one the run
    strategy asks for, or the stop of a VM being moved off that node; a destroy goes
    to the node of a deleted VM or to the one an unbound VM was reported on. *)
Theorem vm_pass_permitted held overcommit v p p' r :
  lawful_env sur ->
  reconcile_vm prefix sur net assign requeue sessions kek render new_lease new_uid held overcommit v p = (p', r) ->
  exists new, p_sent p' = p_sent p ++ map snd new
    /\ Forall (fun '(s, c) => evolves (db (p_store p)) s /\ evolves s (db (p_store p'))
         /\ str_in c.1 sessions = true /\ permitted prefix sur render (db (p_store p)) v s c) new.
Proof using EtcdLaws0 SerdeLaws0.
  intros Henv. unfold reconcile_vm. destruct (may_reconcile v sessions) eqn:Hm; simpl.
  2:{ intros [= <- <-]. exists []. by rewrite app_nil_r. }
  intros Hrun. set (s0 := db (p_store p)).
  match type of Hrun with ?m p = _ => assert (He : emits s0 (permitted prefix sur render s0 v) m) end.
  { destruct (is_deleting v) eqn:Hd; [by apply emits_torn_down|].
    destruct (VmSpec.node_name (spec v)) as [node|] eqn:Hb.
    - destruct (bool_decide _) eqn:Ek.
      + apply emits_hold_then; [done..|apply rtc_refl|left; by apply bool_decide_eq_true in Ek|].
        intros s'. by apply emits_drive.
      + destruct (volume_drift v) eqn:Ed; [by apply emits_plug; [..|apply rtc_refl|]|by apply emits_drive].
    - destruct (VmStatus.node_name (status v)) as [old|] eqn:Ho; [|by apply emits_place].
      apply emits_seq; [|intros _; by apply emits_let_go].
      apply emits_command. intros s' _. by apply may_take_off. }
  destruct (He p p' r (rtc_refl _ _) Hrun) as (_ & new & Hn & Hf). exists new. split; [done|].
  eapply Forall_impl; [exact Hf|]. intros [s c] (H1 & H2 & H3). split_and!; [done..| |done].
  by eapply permitted_owned.
Qed.
End pass_theorem.

(** * Witnesses *)

#[local] Instance pass_vms : Resource VmSpec.t VmStatus.t := vm_resource (fun _ => "").
#[local] Instance pass_status : StatusJson :=
  {| write_status e := ApiError.message e; read_status _ := None; status_text := show_N; lossy_trim s := s |}.
(** Events and secrets are not kept here: an event is best effort, and no VM
    below names a secret. *)
#[local] Instance pass_events : Serde cluster_bytes EventSpec.t unit :=
  {| to_vec := fun _ => Err "not kept"; from_slice := fun _ => Err "not kept" |}.
#[local] Instance pass_secrets : Serde cluster_bytes SecretSpec.t unit :=
  {| to_vec := fun _ => Err "not kept"; from_slice := fun _ => Err "not kept" |}.
#[local] Instance pass_volume_laws : SerdeLaws cluster_bytes VolumeSpec.t VolumeStatus.t.
Proof. constructor. by intros o b [= <-]. Qed.

(** A VM on n1 that refers to the disk d1. *)
Definition guest_with_disk (nm : string) (phase : VmPhaseKind.t) (since : option instant) : Vm :=
  let v := VmEdit.set_node (Some "n1") (example_vm nm) in
  let s := spec v in
  let v := with_spec v
    {| VmSpec.node_name := VmSpec.node_name s; VmSpec.cluster_name := VmSpec.cluster_name s;
       VmSpec.run_strategy := VmSpec.run_strategy s; VmSpec.evacuation := VmSpec.evacuation s;
       VmSpec.tenant := VmSpec.tenant s; VmSpec.class_ := VmSpec.class_ s;
       VmSpec.cluster_selector := VmSpec.cluster_selector s; VmSpec.node_selector := VmSpec.node_selector s;
       VmSpec.anti_affinity := VmSpec.anti_affinity s;
       VmSpec.vm := Json.Object [("volumes", Array [Json.Object [("volume", Str "d1")]])] |} in
  with_status v (Retry.set 0 since
    (VmEdit.set_reported (Some (said_here phase VmReason.Dispatched None 1%Z))
       (VmStatus.set_phase (status v) (phase_of phase 1%Z)))).

(** A disk nobody holds and no node has open. *)
Definition free_disk : Volume :=
  let v := volume_of "d1" 1 in
  let s := status v in
  with_status v
    {| VolumeStatus.phase := phase_of VolumePhaseKind.Ready 1%Z;
       VolumeStatus.reported := Some (said_here VolumePhaseKind.Ready VolumeReason.Dispatched None 1%Z);
       VolumeStatus.holder := VolumeStatus.holder s; VolumeStatus.claimant_gone := false;
       VolumeStatus.backend := VolumeStatus.backend s; VolumeStatus.node := Some "n1"; VolumeStatus.open_on := [];
       VolumeStatus.cluster := VolumeStatus.cluster s; VolumeStatus.attached_to := None;
       VolumeStatus.attached_uid := None; VolumeStatus.size_gib := VolumeStatus.size_gib s;
       VolumeStatus.untold_gib := VolumeStatus.untold_gib s;
       VolumeStatus.observed_generation := VolumeStatus.observed_generation s;
       VolumeStatus.observed_at := VolumeStatus.observed_at s;
       VolumeStatus.requeue_attempts := VolumeStatus.requeue_attempts s;
       VolumeStatus.last_requeue := VolumeStatus.last_requeue s |}.

Definition stored_with (vms : list Vm) : mem cluster_bytes :=
  mem_commit mem_empty
    (Put "p/registry/volumes/d1" (KeptVolume free_disk) NoLease
     :: map (fun v : Vm => Put ("p/registry/vms/" +:+ name (metadata v)) (KeptVm v) NoLease) vms).

Definition pass_over (render : value -> string) (v : Vm) (p : pass (mem cluster_bytes)) : pass (mem cluster_bytes) * result Failure.t unit :=
  reconcile_vm "p" quiet obliging FirstFit_assign CrashLoopBackoff ["n1"] None render
    (fun _ _ => 0%Z) (fun _ => "u") [] Overcommit.default v p.

(** Who the stored record of the disk names. *)
Definition holder_of_d1 (p : pass (mem cluster_bytes)) : option (option string) :=
  match look (db (p_store p)) "p/registry/volumes/d1" with
  | Some kv => match kv_value kv with
               | KeptVolume v => Some (VolumeStatus.attached_uid (status v))
               | _ => None
               end
  | None => None
  end.

Definition new_guest : Vm := guest_with_disk "v1" VmPhaseKind.Pending None.
Definition plain_doc : value -> string := fun _ => "doc".
Definition first_pass : pass (mem cluster_bytes) * result Failure.t unit :=
  pass_over plain_doc new_guest (idle_pass (stored_with [new_guest])).

Lemma vm_pass_permitted_witness :
  p_sent first_pass.1 = [("n1", Op.Create "v1" "doc")] /\ holder_of_d1 first_pass.1 = Some (Some "v1")
  /\ exists new, p_sent first_pass.1 = map snd new
     /\ Forall (fun '(s, c) => permitted "p" quiet plain_doc (stored_with [new_guest]) new_guest s c) new.
Proof.
  split; [by vm_compute|]. split; [by vm_compute|].
  destruct (vm_pass_permitted "p" quiet obliging FirstFit_assign CrashLoopBackoff ["n1"] None plain_doc
    (fun _ _ => 0%Z) (fun _ => "u") [] Overcommit.default new_guest (idle_pass (stored_with [new_guest]))
    first_pass.1 first_pass.2) as (new & Hs & Hf).
  - apply quiet_lawful.
  - apply surjective_pairing.
  - exists new. split; [exact Hs|]. eapply Forall_impl; [exact Hf|]. by intros [s c] (_ & _ & _ & Ha).
Defined.

(** * A retry opens a disk no claim covers *)

(** A failed VM whose retry is due, with a disk its owner added meanwhile, and a
    VM made after it that refers to the same free disk. *)
Definition retried : Vm := guest_with_disk "v1" VmPhaseKind.Failed (Some (- from_secs 600)%Z).
Definition made_later : Vm := guest_with_disk "v2" VmPhaseKind.Pending None.

Definition asks_for_disk (spec_doc : value) (uid : string) : Prop :=
  jget spec_doc "volumes" = Some (Array [Json.Object [("volume", Str uid)]]).

(** C40. The retry of a failed VM tells its node to open the VM's disks without
    taking the claim on them that the first create takes: a disk added to the VM
    while it was failed is asked for while its record names nobody.  The next VM
    that refers to the disk then finds it free, claims it, and its node is asked for
    the same disk, so that one replica has told a node to open one disk for two
    guests. *)
Theorem retry_opens_unclaimed_disk render :
  exists doc1 doc2 p1 p2,
    pass_over render retried (idle_pass (stored_with [retried; made_later])) = (p1, Ok tt)
    /\ p_sent p1 = [("n1", Op.Create "v1" (render doc1))] /\ asks_for_disk doc1 "u-v"
    /\ holder_of_d1 p1 = Some None
    /\ pass_over render made_later p1 = (p2, Ok tt)
    /\ p_sent p2 = [("n1", Op.Create "v1" (render doc1)); ("n1", Op.Create "v2" (render doc2))]
    /\ asks_for_disk doc2 "u-v" /\ holder_of_d1 p2 = Some (Some "v2").
Proof.
  eexists _, _, (pass_over render retried (idle_pass (stored_with [retried; made_later]))).1,
    (pass_over render made_later (pass_over render retried (idle_pass (stored_with [retried; made_later]))).1).1.
  split; [by vm_compute|]. split; [vm_compute; reflexivity|]. split; [by vm_compute|]. split; [by vm_compute|].
  split; [by vm_compute|]. split; [vm_compute; reflexivity|]. split; by vm_compute.
Qed.
