(* ===== verification/DrainPass.v ===== *)
(** Emptying a node: [src/components/cluster-controller/src/reconcile/drain.rs].
    Every pass decides about each VM bound to or still reported on a node that is to
    be emptied, asks for the move the table of [Lifecycle] names, and writes what is
    leaving, what stays and why, and whether the drain is over.  The commands the
    moves need are sent by the passes over VMs and migrations. *)
From Stdlib Require Import Ascii String NArith ZArith List Bool Lia.
From stdpp Require Import base list strings gmap relations.
From S2P Require Import Prelude RustStr Json Capability Heartbeat Vm Node Storage Sizing Placement Diagnosis.
From S2P Require Import Reservation Claims Commit Quota Gateways Lifecycle Dispatch Namespaces SpecDocs.
From S2P Require Import MigrationRules ClusterMigration Deletion PlacePass VmPass.
From S2P Require Import Phase Objects Store StoreSafety Growth.

(** * Rules *)

Definition departed (previous : option Draining.t) (leaving : list string) (staying : list StayingVm.t)
    (vms : list Vm) (node : string) : N :=
  match previous with
  | None => 0
  | Some previous =>
      N.of_nat (length (List.filter (fun n =>
        negb (str_in n leaving)
        && negb (existsb (fun s => String.eqb (StayingVm.vm s) n) staying)
        && existsb (fun v : Vm => String.eqb (name (metadata v)) n && negb (is_deleting v)
             && negb (bool_decide (VmSpec.node_name (spec v) = Some node))
             && negb (bool_decide (VmStatus.node_name (status v) = Some node))) vms)
        (Draining.leaving_vms previous)))
  end.

Definition live_target_exists (nodes : list Candidate.t) (v : Vm) (node : string) : bool * option string :=
  let elsewhere := List.filter (fun c => negb (String.eqb (Candidate.name c) node)) nodes in
  let room := feasible v elsewhere in
  if is_nil room then (false, None)
  else
    let source := List.find (fun c => String.eqb (Candidate.name c) node) nodes in
    let '(fits, refusals) := machines_that_fit source room in
    if negb (is_nil fits) then (true, None) else (false, head refusals).

Definition set_draining (d : option Draining.t) (n : Node) : Node :=
  let s := status n in
  with_status n
    {| NodeStatus.ready := NodeStatus.ready s; NodeStatus.last_heartbeat := NodeStatus.last_heartbeat s;
       NodeStatus.agent_version := NodeStatus.agent_version s; NodeStatus.capacity := NodeStatus.capacity s;
       NodeStatus.vms := NodeStatus.vms s; NodeStatus.session_endpoint := NodeStatus.session_endpoint s;
       NodeStatus.draining := d; NodeStatus.conditions := NodeStatus.conditions s;
       NodeStatus.machine := NodeStatus.machine s |}.

#[export] Instance StayingVm_eq_dec : EqDecision StayingVm.t.
Proof. solve_decision. Defined.
#[export] Instance Draining_eq_dec : EqDecision Draining.t.
Proof. solve_decision. Defined.

(** What a pass over the VMs has gathered so far. *)
Module Progress.
Record t := { leaving : list string; staying : list StayingVm.t; settled : bool }.

Definition start : t := {| leaving := []; staying := []; settled := true |}.

(** [leaving.push(name); settled = false]. *)
Definition leaves (a : t) (name : string) : t :=
  {| leaving := leaving a ++ [name]; staying := staying a; settled := false |}.

Definition stays (a : t) (s : StayingVm.t) (settles : bool) : t :=
  {| leaving := leaving a; staying := staying a ++ [s]; settled := settled a && settles |}.
End Progress.

(** The document of a drain. *)
Definition drained (previous : option Draining.t) (a : Progress.t) (vms : list Vm) (node : string) : Draining.t :=
  let leaving := sort_by String.compare (Progress.leaving a) in
  {| Draining.leaving := N.of_nat (length leaving);
     Draining.leaving_vms := leaving;
     Draining.moved_total := match previous with Some d => Draining.moved_total d | None => 0 end
                             + departed previous leaving (Progress.staying a) vms node;
     Draining.staying := N.of_nat (length (Progress.staying a));
     Draining.reasons := Progress.staying a;
     Draining.complete := Progress.settled a && is_nil leaving |}%N.

(** * The pass *)

Section draining.
Context {D Bytes : Type} `{!Etcd D Bytes, !RawJson Bytes, !StatusJson}.
Context `{!Serde Bytes NodeSpec.t NodeStatus.t, !Serde Bytes VmSpec.t VmStatus.t, !Resource VmSpec.t VmStatus.t,
  !Serde Bytes VmMigrationSpec.t VmMigrationStatus.t, !Serde Bytes VolumeSpec.t VolumeStatus.t,
  !Serde Bytes StoragePoolSpec.t StoragePoolStatus.t, !Serde Bytes EventSpec.t unit}.
Variable prefix : string.
Variable sur : surroundings D.
Variable date_text : instant -> string.
Variable new_lease : Z -> nat -> Z.
Variable new_uid : nat -> string.

Abbreviation edit := (edit_vm prefix sur).
Abbreviation event := (happened prefix sur new_lease new_uid).

Definition drain_facts (v : Vm) (node : string) : pass_m D (option DrainFacts.t) :=
  found ← volume_bindings prefix sur v;
  match found with
  | Bindings.NotReady _ => ok None
  | Bindings.Ready bindings =>
      nodes ← (fun p => ok (p_nodes p) p);
      let disk := option_map VolumeBinding.volume
        (List.find (fun b => bool_decide (VolumeBinding.locality b = Some Locality.NodeLocal)
                             && bool_decide (VolumeBinding.node b = Some node)) bindings) in
      let '(live_target, live_refusal) := live_target_exists nodes v node in
      ok (Some {| DrainFacts.has_device := has_device v; DrainFacts.node_local_disk := disk;
                  DrainFacts.live_possible := bool_decide (vm_kind v = VmPhaseKind.Running) && live_target;
                  DrainFacts.live_refusal := live_refusal |})
  end.

(** What the verdict makes of a VM. *)
Definition act_on (node : string) (v : Vm) (a : Progress.t) (facts : DrainFacts.t) : pass_m D Progress.t :=
  let nm := name (metadata v) in
  match drain_verdict v facts with
  | DrainVerdict.Moving => ok (Progress.leaves a nm)
  | DrainVerdict.Reschedule =>
      _ ← edit v (VmEdit.set_node None);
      _ ← event v "Unbound" ("node " +:+ node +:+ " is being drained; placing this stopped vm again") EventType.Normal;
      ok (Progress.leaves a nm)
  | DrainVerdict.Restart =>
      at_ ← now_ sur;
      _ ← edit v (set_mark
            (Some {| Evacuating.from := node; Evacuating.step := EvacuationStep.as_str EvacuationStep.Stopping;
                     Evacuating.since := at_ |}));
      _ ← event v "Unbound" ("node " +:+ node +:+ " is being drained; moving this vm by restart") EventType.Normal;
      ok (Progress.leaves a nm)
  | DrainVerdict.Live =>
      _ ← attempt (start_for_drain prefix sur new_uid date_text v);
      ok (Progress.leaves a nm)
  | DrainVerdict.Stays reason =>
      ok (Progress.stays a
            {| StayingVm.vm := nm; StayingVm.reason := StayReason.as_str reason;
               StayingVm.message := drain_sentence reason nm facts |} (StayReason.settles_a_drain reason))
  end.

(** One VM of the listing. *)
Definition drain_vm (node : string) (v : Vm) (a : Progress.t) : pass_m D Progress.t :=
  let nm := name (metadata v) in
  if is_deleting v then ok a
  else if negb (bool_decide (VmSpec.node_name (spec v) = Some node)) then
    ok (if bool_decide (VmStatus.node_name (status v) = Some node) then Progress.leaves a nm else a)
  else
    facts ← drain_facts v node;
    match facts with
    | Some facts => act_on node v a facts
    | None =>
        ok (Progress.stays a
              {| StayingVm.vm := nm; StayingVm.reason := StayReason.as_str StayReason.NoTarget;
                 StayingVm.message := nm +:+ " waits: one of its volumes is not ready, so where its bytes are is not yet knowable" |}
              false)
    end.

Fixpoint drain_each (node : string) (vms : list Vm) (a : Progress.t) : pass_m D Progress.t :=
  match vms with
  | [] => ok a
  | v :: vms => a ← drain_vm node v a; drain_each node vms a
  end.

Definition drain_node (node : string) (vms : list Vm) : pass_m D unit :=
  a ← drain_each node vms Progress.start;
  current ← st (get (Sp := NodeSpec.t) (St := NodeStatus.t) prefix sur node);
  let previous := NodeStatus.draining (status current) in
  let draining := drained previous a vms node in
  if bool_decide (previous = Some draining) then ok tt
  else
    _ ← st (mutate (Sp := NodeSpec.t) (St := NodeStatus.t) prefix sur node (set_draining (Some draining)));
    ok tt.

Fixpoint drain_listed (nodes : list Node) (vms : list Vm) : pass_m D unit :=
  match nodes with
  | [] => ok tt
  | node :: nodes =>
      let nm := name (metadata node) in
      _ ← (if negb (NodeSpec.drain (spec node)) then
             if is_some (NodeStatus.draining (status node)) then
               _ ← st (mutate (Sp := NodeSpec.t) (St := NodeStatus.t) prefix sur nm (set_draining None)); ok tt
             else ok tt
           else _ ← attempt (drain_node nm vms); ok tt);
      drain_listed nodes vms
  end.

Definition drain_nodes (vms : list Vm) : pass_m D unit :=
  nodes ← st (list_ (Sp := NodeSpec.t) (St := NodeStatus.t) prefix sur);
  drain_listed nodes vms.
End draining.

(** * What a drain says *)

(** What a pass makes of one VM, on the facts it read about it. *)
Module Outcome.
Inductive t := Ignored | Leaves | Stays (why : StayingVm.t) (settles : bool).

Definition staying (o : t) : option StayingVm.t := match o with Stays s _ => Some s | _ => None end.

(** Nothing is on its way, and waiting changes nothing. *)
Definition at_rest (o : t) : bool := match o with Ignored => true | Leaves => false | Stays _ settles => settles end.
End Outcome.

Definition outcome_of (node : string) (v : Vm) (facts : option DrainFacts.t) : Outcome.t :=
  let nm := name (metadata v) in
  if is_deleting v then Outcome.Ignored
  else if negb (bool_decide (VmSpec.node_name (spec v) = Some node)) then
    if bool_decide (VmStatus.node_name (status v) = Some node) then Outcome.Leaves else Outcome.Ignored
  else match facts with
       | None =>
           Outcome.Stays
             {| StayingVm.vm := nm; StayingVm.reason := StayReason.as_str StayReason.NoTarget;
                StayingVm.message := nm +:+ " waits: one of its volumes is not ready, so where its bytes are is not yet knowable" |}
             false
       | Some facts =>
           match drain_verdict v facts with
           | DrainVerdict.Stays reason =>
               Outcome.Stays
                 {| StayingVm.vm := nm; StayingVm.reason := StayReason.as_str reason;
                    StayingVm.message := drain_sentence reason nm facts |} (StayReason.settles_a_drain reason)
           | _ => Outcome.Leaves
           end
       end.

(** Bound to the node and not on its way out. *)
Definition bound_here (node : string) (v : Vm) : bool :=
  negb (is_deleting v) && bool_decide (VmSpec.node_name (spec v) = Some node).

(** * Lemmas *)

Definition absorb (v : Vm) (o : Outcome.t) (a : Progress.t) : Progress.t :=
  match o with
  | Outcome.Ignored => a
  | Outcome.Leaves => Progress.leaves a (name (metadata v))
  | Outcome.Stays s settles => Progress.stays a s settles
  end.

Definition judged : Type := list (Vm * Outcome.t).

Definition leavers (l : judged) : list string :=
  map (fun x => name (metadata x.1)) (List.filter (fun x => match x.2 with Outcome.Leaves => true | _ => false end) l).

Lemma absorb_all (l : judged) a :
  let r := foldl (fun a x => absorb x.1 x.2 a) a l in
  Progress.leaving r = Progress.leaving a ++ leavers l
  /\ Progress.staying r = Progress.staying a ++ filter_map Outcome.staying (map snd l)
  /\ Progress.settled r = Progress.settled a && forallb Outcome.at_rest (map snd l).
Proof.
  revert a. induction l as [|[v o] l IH]; intros a; simpl.
  { rewrite !app_nil_r, andb_true_r. done. }
  destruct (IH (absorb v o a)) as (-> & -> & ->). unfold leavers. destruct o as [| |s settles]; simpl.
  - done.
  - rewrite <- app_assoc. rewrite andb_false_r. done.
  - rewrite <- app_assoc, andb_assoc. done.
Qed.

Section drain_lemmas.
Context {D Bytes : Type} `{!Etcd D Bytes, !EtcdLaws D Bytes, !RawJson Bytes, !StatusJson}.
Context `{!Serde Bytes NodeSpec.t NodeStatus.t, !Serde Bytes VmSpec.t VmStatus.t, !Resource VmSpec.t VmStatus.t,
  !Serde Bytes VmMigrationSpec.t VmMigrationStatus.t, !Serde Bytes VolumeSpec.t VolumeStatus.t,
  !Serde Bytes StoragePoolSpec.t StoragePoolStatus.t, !Serde Bytes EventSpec.t unit}.
Context (prefix : string) (sur : surroundings D) (date_text : instant -> string).
Context (new_lease : Z -> nat -> Z) (new_uid : nat -> string).

(** The facts a pass read about a VM. *)
Definition facts_read (node : string) (v : Vm) (facts : option DrainFacts.t) : Prop :=
  bound_here node v = true -> exists p p', drain_facts (D := D) prefix sur v node p = (p', Ok facts).

Lemma act_on_outcome node v a facts (p p' : pass D) a' :
  bound_here node v = true ->
  act_on prefix sur date_text new_lease new_uid node v a facts p = (p', Ok a') ->
  a' = absorb v (outcome_of node v (Some facts)) a.
Proof.
  unfold bound_here, act_on, outcome_of. intros [Hd Hb]%andb_true_iff. apply negb_true_iff in Hd. rewrite Hd, Hb. simpl.
  destruct (drain_verdict v facts) as [| | | |reason].
  - by intros [= <- <-].
  - intros (p1 & x & _ & (p2 & y & _ & [= <- <-])%pass_bind_ok)%pass_bind_ok. done.
  - intros (p0 & at_ & _ & (p1 & x & _ & (p2 & y & _ & [= <- <-])%pass_bind_ok)%pass_bind_ok)%pass_bind_ok. done.
  - intros (p1 & x & _ & [= <- <-])%pass_bind_ok. done.
  - by intros [= <- <-].
Qed.

Lemma drain_vm_outcome node v a (p p' : pass D) a' :
  drain_vm prefix sur date_text new_lease new_uid node v a p = (p', Ok a') ->
  exists facts, facts_read node v facts /\ a' = absorb v (outcome_of node v facts) a.
Proof.
  destruct (bound_here node v) eqn:Eb.
  - pose proof Eb as [Hd Hb]%andb_true_iff. apply negb_true_iff in Hd.
    unfold drain_vm. rewrite Hd, Hb. cbn [negb].
    intros (p1 & facts & Hf & Hk)%pass_bind_ok. exists facts. split; [by exists p, p1|].
    destruct facts as [facts|]; [by eapply act_on_outcome|].
    injection Hk as <- <-. unfold outcome_of. by rewrite Hd, Hb.
  - intros Hrun. exists None. split; [unfold facts_read; by rewrite Eb|]. revert Hrun Eb.
    unfold drain_vm, ok, outcome_of, bound_here. destruct (is_deleting v); simpl; [intros Hrun _; by injection Hrun as _ <-|].
    intros Hrun Eb. rewrite Eb in Hrun |- *. cbn [negb] in *. injection Hrun as _ <-.
    by destruct (bool_decide (VmStatus.node_name _ = _)).
Qed.

Lemma drain_each_outcome node vms a (p p' : pass D) a' :
  drain_each prefix sur date_text new_lease new_uid node vms a p = (p', Ok a') ->
  exists l : judged, map fst l = vms
    /\ Forall (fun x => exists facts, facts_read node x.1 facts /\ x.2 = outcome_of node x.1 facts) l
    /\ a' = foldl (fun a x => absorb x.1 x.2 a) a l.
Proof.
  revert a p. induction vms as [|v vms IH]; intros a p; simpl.
  { intros [= <- <-]. by exists []. }
  intros (p1 & a1 & (facts & Hf & ->)%drain_vm_outcome & (l & <- & Hl & ->)%IH)%pass_bind_ok.
  exists ((v, outcome_of node v facts) :: l). split_and!; [done|constructor; [|done]; by exists facts|done].
Qed.

(** The progress a drain writes on its node says exactly what the pass judged.
    Each VM of the listing is judged once, on facts read for it while it was being
    judged; the leaving list holds, sorted, exactly those on their way, the reasons
    list, in order, exactly those that stay with their sentences, the two counts are
    the lengths of the lists, and the drain is called complete exactly when nothing
    is on its way and everything that stays does so for a reason waiting does not
    change.  The count of moved VMs never falls. *)
Theorem drain_document_exact node vms (p p' : pass D) :
  drain_node prefix sur date_text new_lease new_uid node vms p = (p', Ok tt) ->
  exists (l : judged) previous a,
    map fst l = vms
    /\ Forall (fun x => exists facts, facts_read node x.1 facts /\ x.2 = outcome_of node x.1 facts) l
    /\ (exists w w' n, get (Sp := NodeSpec.t) (St := NodeStatus.t) prefix sur node w = (w', Ok n)
          /\ previous = NodeStatus.draining (status n)
          /\ (previous = Some (drained previous a vms node)
              \/ exists w2 o, mutate prefix sur node (set_draining (Some (drained previous a vms node))) w2
                              = (p_store p', Ok o)))
    /\ let d := drained previous a vms node in
       Draining.leaving_vms d = sort_by String.compare (leavers l)
       /\ Draining.reasons d = filter_map Outcome.staying (map snd l)
       /\ Draining.leaving d = N.of_nat (length (leavers l))
       /\ Draining.staying d = N.of_nat (length (Draining.reasons d))
       /\ (Draining.complete d = true <-> Forall (fun o => Outcome.at_rest o = true) (map snd l))
       /\ (match previous with Some d0 => Draining.moved_total d0 | None => 0%N end <= Draining.moved_total d)%N.
Proof.
  intros (p1 & a & (l & Hl & Hf & Ha)%drain_each_outcome & Hk)%pass_bind_ok.
  apply pass_bind_ok in Hk as (p2 & n & Hg & Hk). apply st_ok in Hg.
  exists l, (NodeStatus.draining (status n)), a. split_and!; [done|done| |].
  - exists (p_store p1), (p_store p2), n. split_and!; [done|done|].
    revert Hk. cbv zeta. case_bool_decide as E; [by left|].
    intros (p3 & o & Hm & Hk)%pass_bind_ok. injection Hk as <-. apply st_ok in Hm. right. eauto.
  - destruct (absorb_all l Progress.start) as (H1 & H2 & H3). rewrite <- Ha in H1, H2, H3. simpl in H1, H2, H3.
    unfold drained. cbn [Draining.leaving_vms Draining.reasons Draining.leaving Draining.staying Draining.complete
      Draining.moved_total]. rewrite H1, H2, H3. rewrite sort_by_length. split_and!; try done; [|destruct (NodeStatus.draining _); lia].
    rewrite andb_true_iff, forallb_forall, List.Forall_forall. split; [by intros [? _]|]. intros Hall. split; [done|].
    assert (Hno : leavers l = []).
    { unfold leavers. replace (List.filter _ l) with (@nil (Vm * Outcome.t)); [done|]. symmetry. apply filter_nil_iff.
      intros [v o] Hin. specialize (Hall o (in_map snd _ _ Hin)). by destruct o. }
    by rewrite Hno.
Qed.
End drain_lemmas.

(** * Witnesses *)

#[local] Instance drain_vms : Resource VmSpec.t VmStatus.t := vm_resource (fun _ => "").
#[local] Instance drain_status : StatusJson :=
  {| write_status e := ApiError.message e; read_status _ := None; status_text := show_N; lossy_trim s := s |}.
#[local] Instance drain_events : Serde cluster_bytes EventSpec.t unit :=
  {| to_vec := fun _ => Err "not kept"; from_slice := fun _ => Err "not kept" |}.
#[local] Instance drain_secrets : Serde cluster_bytes SecretSpec.t unit :=
  {| to_vec := fun _ => Err "not kept"; from_slice := fun _ => Err "not kept" |}.

Definition drained_node : Node :=
  object_new API_VERSION "Node" "n1" "u-n1" 1%Z
    {| NodeSpec.schedulable := false; NodeSpec.drain := true; NodeSpec.labels := []; NodeSpec.accepts := [] |}
    (status roomy_node).

(** A VM on n1 as the node reported it; its owner never agreed to a reboot. *)
Definition guest_on_n1 (strategy : RunStrategy.t) (phase : VmPhaseKind.t) : Vm :=
  let v := VmEdit.set_node (Some "n1") (example_vm "v1") in
  let s := spec v in
  let v := with_spec v
    {| VmSpec.node_name := VmSpec.node_name s; VmSpec.cluster_name := VmSpec.cluster_name s;
       VmSpec.run_strategy := strategy; VmSpec.evacuation := Evacuation.Never;
       VmSpec.tenant := VmSpec.tenant s; VmSpec.class_ := VmSpec.class_ s;
       VmSpec.cluster_selector := VmSpec.cluster_selector s; VmSpec.node_selector := VmSpec.node_selector s;
       VmSpec.anti_affinity := VmSpec.anti_affinity s; VmSpec.vm := VmSpec.vm s |} in
  with_status v
    (VmEdit.set_node_name (Some "n1")
       (VmEdit.set_reported (Some (said_by "n1" phase VmReason.Unrecorded None 1%Z))
          (VmStatus.set_phase (status v) (phase_of phase 1%Z)))).

Definition running_guest : Vm := guest_on_n1 RunStrategy.Running VmPhaseKind.Running.
Definition stopped_guest : Vm := guest_on_n1 RunStrategy.Stopped VmPhaseKind.Stopped.

Definition drain_store (v : Vm) : mem cluster_bytes :=
  mem_commit mem_empty
    [Put "p/registry/vms/v1" (KeptVm v) NoLease; Put "p/registry/nodes/n1" (KeptNode drained_node) NoLease].

Definition pass_with (s : world (mem cluster_bytes)) (nodes : list Candidate.t) : pass (mem cluster_bytes) :=
  {| p_store := s; p_sent := []; p_nodes := nodes; p_noted := []; p_told := [] |}.

Definition drain_n1 (listing : list Vm) (p : pass (mem cluster_bytes)) : pass (mem cluster_bytes) * result Failure.t unit :=
  drain_node "p" quiet (fun _ => "now") (fun _ _ => 0%Z) (fun _ => "u") "n1" listing p.

(** What is stored about the drain, the VM and the move. *)
Definition progress_of (p : pass (mem cluster_bytes)) : option Draining.t :=
  match look (db (p_store p)) "p/registry/nodes/n1" with
  | Some kv => match kv_value kv with KeptNode n => NodeStatus.draining (status n) | _ => None end
  | None => None
  end.

Definition stored_guest (p : pass (mem cluster_bytes)) : option Vm :=
  match look (db (p_store p)) "p/registry/vms/v1" with
  | Some kv => match kv_value kv with KeptVm v => Some v | _ => None end
  | None => None
  end.

Definition stored_move (p : pass (mem cluster_bytes)) : option VmMigration :=
  match look (db (p_store p)) "p/registry/vmmigrations/v1-now" with
  | Some kv => match kv_value kv with KeptMigration m => Some m | _ => None end
  | None => None
  end.

Definition two_nodes : list Candidate.t := [example_candidate "n1" 600; example_candidate "n2" 600].
Definition drain_start : pass (mem cluster_bytes) := pass_with (World (drain_store running_guest) 0) two_nodes.

Lemma drain_document_exact_witness :
  progress_of (drain_n1 [running_guest] drain_start).1
  = Some {| Draining.leaving := 1; Draining.leaving_vms := ["v1"]; Draining.moved_total := 0;
            Draining.staying := 0; Draining.reasons := []; Draining.complete := false |}
  /\ exists l : judged, map fst l = [running_guest]
     /\ Forall (fun x => exists facts, facts_read (D := mem cluster_bytes) "p" quiet "n1" x.1 facts
                           /\ x.2 = outcome_of "n1" x.1 facts) l.
Proof.
  split; [by vm_compute|].
  destruct (drain_document_exact "p" quiet (fun _ => "now") (fun _ _ => 0%Z) (fun _ => "u") "n1" [running_guest]
    drain_start (drain_n1 [running_guest] drain_start).1) as (l & previous & a & Hl & Hf & _).
  - assert (Hr : (drain_n1 [running_guest] drain_start).2 = Ok tt) by (vm_compute; reflexivity).
    rewrite <- Hr. apply surjective_pairing.
  - exists l. split; [exact Hl|exact Hf].
Defined.

(** * A drain that is complete in the middle of its move *)

(** The next pass over the same fleet, in which the room the move claimed on its
    destination is taken off. *)
Definition with_claim (p : pass (mem cluster_bytes)) : pass (mem cluster_bytes) :=
  match stored_move p with
  | Some m => pass_with (p_store p) (hold two_nodes [reservation_of "u-claim" 0%Z m running_guest "n2"])
  | None => p
  end.

(** A drain calls itself complete while the move it asked for is under way.  On
    the first pass it asks for a live migration of the running guest and lists it as
    leaving.  Once the destination's room is claimed for that very move, the next
    pass finds nowhere the guest could go, lists it as staying because its owner
    never agreed to a reboot, and writes that the drain is complete, with nothing on
    its way, while the migration record stands unfinished. *)
Theorem drain_complete_midmove :
  exists p1 p2 m,
    drain_n1 [running_guest] drain_start = (p1, Ok tt)
    /\ option_map Draining.leaving_vms (progress_of p1) = Some ["v1"]
    /\ stored_move p1 = Some m /\ VmMigrationSpec.vm (spec m) = "v1"
    /\ drain_n1 [running_guest] (with_claim p1) = (p2, Ok tt)
    /\ stored_move p2 = Some m /\ VmMigrationPhaseKind.is_final (migration_kind m) = false
    /\ option_map Draining.complete (progress_of p2) = Some true
    /\ option_map Draining.leaving_vms (progress_of p2) = Some [].
Proof.
  set (p1 := (drain_n1 [running_guest] drain_start).1).
  assert (Hm : is_some (stored_move p1) = true) by (vm_compute; reflexivity).
  destruct (stored_move p1) as [m|] eqn:E; [|discriminate Hm]. exists p1, (drain_n1 [running_guest] (with_claim p1)).1, m.
  assert (Em : stored_move p1 = stored_move (drain_n1 [running_guest] (with_claim p1)).1) by (vm_compute; reflexivity).
  assert (Hf : option_map (fun m : VmMigration => (VmMigrationSpec.vm (spec m),
      VmMigrationPhaseKind.is_final (migration_kind m))) (stored_move p1) = Some ("v1", false)) by (vm_compute; reflexivity).
  rewrite E in Hf. injection Hf as Hv Hn.
  split; [vm_compute; reflexivity|]. split; [vm_compute; reflexivity|]. split; [exact E|]. split; [exact Hv|].
  split; [vm_compute; reflexivity|]. split; [rewrite <- Em; exact E|]. split; [exact Hn|].
  split; vm_compute; reflexivity.
Qed.

(** * A drain that takes a running guest off *)

(** A drain acts on the listing its pass began with.  A VM that was stopped in
    that listing and has been started since loses its binding all the same, since
    only its uid is compared at the write; the next pass over it tells its node to
    destroy the running guest, whose owner never agreed to be moved. *)
Theorem drain_unbinds_started_guest :
  exists p1 v p2,
    drain_n1 [stopped_guest] (pass_with (World (drain_store running_guest) 0) two_nodes) = (p1, Ok tt)
    /\ stored_guest p1 = Some v
    /\ vm_kind v = VmPhaseKind.Running /\ VmSpec.run_strategy (spec v) = RunStrategy.Running
    /\ VmSpec.evacuation (spec v) = Evacuation.Never /\ VmSpec.node_name (spec v) = None
    /\ reconcile_vm "p" quiet obliging FirstFit_assign CrashLoopBackoff ["n1"] None (fun _ => "")
         (fun _ _ => 0%Z) (fun _ => "u") [] Overcommit.default v p1 = (p2, Ok tt)
    /\ p_sent p2 = [("n1", Op.Destroy (Objects.uid (metadata running_guest)))].
Proof.
  set (p1 := (drain_n1 [stopped_guest] (pass_with (World (drain_store running_guest) 0) two_nodes)).1).
  assert (Hv : is_some (stored_guest p1) = true) by (vm_compute; reflexivity).
  destruct (stored_guest p1) as [v|] eqn:E; [|discriminate Hv].
  exists p1, v, (reconcile_vm "p" quiet obliging FirstFit_assign CrashLoopBackoff ["n1"] None (fun _ => "")
         (fun _ _ => 0%Z) (fun _ => "u") [] Overcommit.default v p1).1.
  split; [vm_compute; reflexivity|]. split; [exact E|]. clear Hv. vm_compute in E. injection E as <-.
  repeat (split; [vm_compute; reflexivity|]). vm_compute. reflexivity.
Qed.
