(* ===== verification/VolumePass.v ===== *)
(** Disks and their copies: [src/components/cluster-controller/src/reconcile/volumes.rs]
    and [snapshots.rs].  A pass judges the claim on every volume, places and makes the
    bytes, grows them, lets a released volume go once nobody holds it and its node has
    said the bytes are gone, and has copies taken, the guest paused where the backend
    cannot copy atomically. *)
From Stdlib Require Import Ascii String NArith ZArith List Bool Lia.
From stdpp Require Import base list strings gmap relations.
From S2P Require Import Prelude RustStr Json Capability Heartbeat Vm Node Storage Sizing Placement Diagnosis.
From S2P Require Import Reservation Claims Commit Quota Gateways Lifecycle Dispatch Namespaces SpecDocs.
From S2P Require Import MigrationRules ClusterMigration Deletion PlacePass VmPass.
From S2P Require Import Phase Objects Store StoreSafety Growth.

(** * Snapshots as objects *)

Module VolumeSnapshotSpec.
Record t := { tenant : string; volume : string; description : string }.
End VolumeSnapshotSpec.

Definition VolumeSnapshot : Type := Object VolumeSnapshotSpec.t VolumeSnapshotStatus.t.
Definition SnapshotReported : Type := reported VolumeSnapshotPhaseKind.t VolumeSnapshotReason.t.

Module SnapshotEdit.
Definition set (s : VolumeSnapshotStatus.t) phase (reported : option SnapshotReported) (node : option string)
    (attempts : N) (last : option instant) : VolumeSnapshotStatus.t :=
  {| VolumeSnapshotStatus.phase := phase; VolumeSnapshotStatus.reported := reported;
     VolumeSnapshotStatus.node := node; VolumeSnapshotStatus.backend := VolumeSnapshotStatus.backend s;
     VolumeSnapshotStatus.size_gib := VolumeSnapshotStatus.size_gib s;
     VolumeSnapshotStatus.observed_at := VolumeSnapshotStatus.observed_at s;
     VolumeSnapshotStatus.requeue_attempts := attempts; VolumeSnapshotStatus.last_requeue := last |}.

(** A word of this tier. *)
Definition say (kind : VolumeSnapshotPhaseKind.t) (reason : VolumeSnapshotReason.t) (message : string) (at_ : instant)
    (x : VolumeSnapshot) : VolumeSnapshot :=
  let s := status x in
  with_status x (set s (VolumeSnapshotStatus.phase s) (Some (said_here kind reason (Some message) at_))
    (VolumeSnapshotStatus.node s) (VolumeSnapshotStatus.requeue_attempts s) (VolumeSnapshotStatus.last_requeue s)).

(** The claim of [dispatch_snapshot]. *)
Definition dispatched (node : string) (at_ : instant) (x : VolumeSnapshot) : VolumeSnapshot :=
  let s := status x in
  with_status x (set s (VolumeSnapshotStatus.phase s)
    (Some (said_here VolumeSnapshotPhaseKind.Creating VolumeSnapshotReason.Dispatched
             (Some (node +:+ " was told")) at_))
    (Some node) (VolumeSnapshotStatus.requeue_attempts s) (VolumeSnapshotStatus.last_requeue s)).

(** The edit of [requeue_snapshot]. *)
Definition requeued (now : instant) (x : VolumeSnapshot) : VolumeSnapshot :=
  let s := status x in
  let attempts := sat_add u32_max (VolumeSnapshotStatus.requeue_attempts s) 1 in
  with_status x (set s (VolumeSnapshotStatus.phase s)
    (Some (said_here VolumeSnapshotPhaseKind.Pending VolumeSnapshotReason.Requeued
             (Some ("attempt " +:+ show_N attempts +:+ " after a failure")) now))
    (VolumeSnapshotStatus.node s) attempts (Some now)).
End SnapshotEdit.

Definition snapshot_settle (now : instant) (x : VolumeSnapshot) : VolumeSnapshot :=
  let s := status x in
  with_status x (SnapshotEdit.set s (stamp (VolumeSnapshotStatus.phase s) (settle_volume_snapshot s) now)
    (VolumeSnapshotStatus.reported s) (VolumeSnapshotStatus.node s) (VolumeSnapshotStatus.requeue_attempts s)
    (VolumeSnapshotStatus.last_requeue s)).

#[export] Instance snapshot_resource : Resource VolumeSnapshotSpec.t VolumeSnapshotStatus.t :=
  {| RESOURCE := "volumesnapshots"; NAME_SHAPE := NameShape.DnsLabel; settle := snapshot_settle |}.

Definition volume_kind (v : Volume) : VolumePhaseKind.t := ph_kind (VolumeStatus.phase (status v)).
Definition snapshot_kind (x : VolumeSnapshot) : VolumeSnapshotPhaseKind.t := ph_kind (VolumeSnapshotStatus.phase (status x)).

(** * Pools *)

Module PoolLocality.
Inductive t :=
| Agreed (l : Locality.t)
| Unheard
| Split (node : string) (says : Locality.t) (other : string) (other_says : Locality.t).
End PoolLocality.

(** The loop of [pool_locality]. *)
Fixpoint hear_nodes (pool : StoragePool) (heard : option (string * Locality.t))
    (localities : list (string * smap Locality.t)) : PoolLocality.t :=
  match localities with
  | [] => match heard with Some (_, l) => PoolLocality.Agreed l | None => PoolLocality.Unheard end
  | (node, by_driver) :: localities =>
      if negb (StoragePoolSpec.reaches (spec pool) node) then hear_nodes pool heard localities
      else match sget (StoragePoolSpec.driver (spec pool)) by_driver with
           | None => hear_nodes pool heard localities
           | Some says =>
               match heard with
               | None => hear_nodes pool (Some (node, says)) localities
               | Some (other, other_says) =>
                   if bool_decide (other_says = says) then hear_nodes pool heard localities
                   else PoolLocality.Split node says other other_says
               end
           end
  end.

Definition pool_locality (pool : StoragePool) (localities : smap (smap Locality.t)) : PoolLocality.t :=
  hear_nodes pool None localities.

Definition pool_facts (verdict : PoolLocality.t) (previous : option Locality.t)
    : option Locality.t * option PoolDisagreement.t :=
  match verdict with
  | PoolLocality.Agreed l => (Some l, None)
  | PoolLocality.Unheard => (None, None)
  | PoolLocality.Split node says other other_says =>
      (previous, Some {| PoolDisagreement.node := node; PoolDisagreement.says := says;
                         PoolDisagreement.other := other; PoolDisagreement.other_says := other_says |})
  end.

#[export] Instance PoolDisagreement_eq_dec : EqDecision PoolDisagreement.t.
Proof. solve_decision. Defined.

(** The edit of [write_pool_status]. *)
Definition with_locality (facts : option Locality.t * option PoolDisagreement.t) (p : StoragePool) : StoragePool :=
  let s := status p in
  with_status p
    {| StoragePoolStatus.phase := StoragePoolStatus.phase s; StoragePoolStatus.locality := facts.1;
       StoragePoolStatus.nodes := StoragePoolStatus.nodes s; StoragePoolStatus.claims := StoragePoolStatus.claims s;
       StoragePoolStatus.clusters := StoragePoolStatus.clusters s; StoragePoolStatus.disagreement := facts.2;
       StoragePoolStatus.pointer_target := StoragePoolStatus.pointer_target s |}.

(** * Claims *)

Module ClaimantVerdict.
Record t := { gone : bool; bind : option string }.
End ClaimantVerdict.

(** The [claims] closure. *)
Definition refers_to (volume : Volume) (vm : Vm) : bool :=
  negb (is_some (deletion_timestamp (metadata vm)))
  && str_in (name (metadata volume)) (VmSpec.referenced_volumes (spec vm)).

Definition claimant_verdict (volume : Volume) (vms : list Vm) : ClaimantVerdict.t :=
  match VolumeStatus.attached_uid (status volume) with
  | Some uid =>
      {| ClaimantVerdict.gone :=
           negb (existsb (fun vm : Vm => String.eqb (Objects.uid (metadata vm)) uid) (List.filter (refers_to volume) vms));
         ClaimantVerdict.bind := None |}
  | None =>
      if VolumeStatus.claimant_gone (status volume) then {| ClaimantVerdict.gone := true; ClaimantVerdict.bind := None |}
      else
        let named := List.find (fun vm : Vm => bool_decide (Some (name (metadata vm)) = VolumeStatus.attached_to (status volume)))
                       (List.filter (refers_to volume) vms) in
        {| ClaimantVerdict.gone := negb (is_some named);
           ClaimantVerdict.bind := option_map (fun vm : Vm => Objects.uid (metadata vm)) named |}
  end.

(** The closure of [note_claimant], for the claim the verdict was made about. *)
Definition judge_claim (judged : Volume) (verdict : ClaimantVerdict.t) (v : Volume) : Volume :=
  let s := status v in
  if bool_decide ((VolumeStatus.attached_to s, VolumeStatus.attached_uid s)
                  = (VolumeStatus.attached_to (status judged), VolumeStatus.attached_uid (status judged)))
  then VolumeEdit.set v (VolumeStatus.node s) (VolumeStatus.reported s) (ClaimantVerdict.gone verdict)
         (VolumeStatus.attached_to s)
         (match ClaimantVerdict.bind verdict with Some uid => Some uid | None => VolumeStatus.attached_uid s end)
  else v.

(** * What is next for a volume *)

Module Next.
Inductive t := Place | Provision (node : string) | Requeue (node : string) | Resize (node : string) | Settled.
End Next.

Definition grew (v : Volume) : bool :=
  ((0 <? VolumeStatus.size_gib (status v)) && (VolumeStatus.size_gib (status v) <? VolumeSpec.size_gib (spec v)))%N.

Definition next_for (v : Volume) : Next.t :=
  match VolumeStatus.node (status v) with
  | None => Next.Place
  | Some node =>
      match volume_kind v with
      | VolumePhaseKind.Pending => Next.Provision node
      | VolumePhaseKind.Failed => Next.Requeue node
      | VolumePhaseKind.Ready =>
          if grew v || (0 <? VolumeStatus.untold_gib (status v))%N then Next.Resize node else Next.Settled
      | _ => Next.Settled
      end
  end.

Definition guest_not_told (size_gib : N) (error : string) : string :=
  "backend grew to " +:+ show_N size_gib +:+ " GiB; the guest was not told: " +:+ error
  +:+ "; retry resizes only the notification".

Module HeldBy.
Inductive t := Vm (vm : string) | Snapshot (snapshot : string).

Definition sentence (h : t) : string :=
  match h with
  | Vm vm => "held by " +:+ vm +:+ "; delete the vm first, or wait"
  | Snapshot s => "held by snapshot " +:+ s +:+ "; delete the snapshot first, or wait"
  end.
End HeldBy.

Module Release.
Inductive t := HeldBy (h : HeldBy.t) | WaitingForNode (node : string) | Drop.
End Release.

Definition release_action (v : Volume) (snapshots : list string) : Release.t :=
  match VolumeStatus.attached_to (status v) with
  | Some vm => Release.HeldBy (HeldBy.Vm vm)
  | None =>
      match snapshots with
      | s :: _ => Release.HeldBy (HeldBy.Snapshot s)
      | [] =>
          match VolumeStatus.node (status v) with
          | Some node => Release.WaitingForNode node
          | None => Release.Drop
          end
      end
  end.

Definition snapshots_holding (snapshots : list VolumeSnapshot) (volume : string) : list string :=
  map (fun s : VolumeSnapshot => name (metadata s))
    (List.filter (fun s : VolumeSnapshot => String.eqb (VolumeSnapshotSpec.volume (spec s)) volume
                                            && negb (is_some (deletion_timestamp (metadata s)))) snapshots).

(** The [drops] closure of [drop_volume]. *)
Definition drops (snapshots : list string) (v : Volume) : bool :=
  is_some (deletion_timestamp (metadata v))
  && match release_action v snapshots with Release.Drop => true | _ => false end.

Definition may_reconcile_volume (v : Volume) (sessions : list string) : bool :=
  is_none_or (fun node => str_in node sessions) (VolumeStatus.node (status v)).

Definition may_reconcile_snapshot (x : VolumeSnapshot) (sessions : list string) : bool :=
  is_none_or (fun node => str_in node sessions) (VolumeSnapshotStatus.node (status x)).

Definition consistency_in (catalogue : list string) (driver : string) : option SnapshotConsistency.t :=
  option_map snd (List.find (fun '(backend, _) => String.eqb backend driver)
    (filter_map parse_snapshot_claim (filter_map (strip_prefix (VOLUME +:+ "/")) catalogue))).

(** [due] of the two requeues: the time since, where it is not negative, against the delay. *)
Definition retry_due (requeue : RequeuePolicy) (last : option instant) (attempts : N) (now : instant) : bool :=
  match last with
  | None => true
  | Some since =>
      match next_delay requeue attempts with
      | None => false
      | Some delay => (0 <=? now - since)%Z && (delay <=? now - since)%Z
      end
  end.

(** * Edits of a volume *)

Module DiskEdit.
Definition set (v : Volume) (reported : option VolumeReported) (holder : option string) (untold generation attempts : N)
    (last : option instant) : Volume :=
  let s := status v in
  with_status v
    {| VolumeStatus.phase := VolumeStatus.phase s; VolumeStatus.reported := reported;
       VolumeStatus.holder := holder; VolumeStatus.claimant_gone := VolumeStatus.claimant_gone s;
       VolumeStatus.backend := VolumeStatus.backend s; VolumeStatus.node := VolumeStatus.node s;
       VolumeStatus.open_on := VolumeStatus.open_on s; VolumeStatus.cluster := VolumeStatus.cluster s;
       VolumeStatus.attached_to := VolumeStatus.attached_to s; VolumeStatus.attached_uid := VolumeStatus.attached_uid s;
       VolumeStatus.size_gib := VolumeStatus.size_gib s; VolumeStatus.untold_gib := untold;
       VolumeStatus.observed_generation := generation; VolumeStatus.observed_at := VolumeStatus.observed_at s;
       VolumeStatus.requeue_attempts := attempts; VolumeStatus.last_requeue := last |}.

(** The word alone. *)
Definition report (reported : option VolumeReported) (v : Volume) : Volume :=
  let s := status v in
  set v reported (VolumeStatus.holder s) (VolumeStatus.untold_gib s) (VolumeStatus.observed_generation s)
    (VolumeStatus.requeue_attempts s) (VolumeStatus.last_requeue s).

Definition say (kind : VolumePhaseKind.t) (reason : VolumeReason.t) (message : string) (at_ : instant) (v : Volume) : Volume :=
  report (Some (said_here kind reason (Some message) at_)) v.

(** [note_on_volume]. *)
Definition note (message : option string) (v : Volume) : Volume :=
  match VolumeStatus.reported (status v) with
  | Some r => report (Some {| said_phase := said_phase r; said_reason := said_reason r; said_message := message;
                              said_at := said_at r; said_node := said_node r |}) v
  | None => v
  end.

Definition untold (size : N) (v : Volume) : Volume :=
  let s := status v in
  set v (VolumeStatus.reported s) (VolumeStatus.holder s) size (VolumeStatus.observed_generation s)
    (VolumeStatus.requeue_attempts s) (VolumeStatus.last_requeue s).

(** The intent of [resize_volume]. *)
Definition intend (v : Volume) : Volume := untold (N.max (VolumeStatus.untold_gib (status v)) (VolumeSpec.size_gib (spec v))) v.

(** The edit of [told]. *)
Definition told (size : N) (v : Volume) : Volume :=
  note None (if (VolumeStatus.untold_gib (status v) <=? size)%N then untold 0 v else v).

Definition observed (generation : N) (v : Volume) : Volume :=
  let s := status v in
  set v (VolumeStatus.reported s) (VolumeStatus.holder s) (VolumeStatus.untold_gib s)
    (N.max (VolumeStatus.observed_generation s) generation) (VolumeStatus.requeue_attempts s) (VolumeStatus.last_requeue s).

(** The edit of [note_volume_releasing]. *)
Definition held (reason : string) (v : Volume) : Volume :=
  let s := status v in
  set v (VolumeStatus.reported s) (Some reason) (VolumeStatus.untold_gib s) (VolumeStatus.observed_generation s)
    (VolumeStatus.requeue_attempts s) (VolumeStatus.last_requeue s).

(** The edit of [requeue_volume]. *)
Definition requeued (now : instant) (v : Volume) : Volume :=
  let s := status v in
  let attempts := sat_add u32_max (VolumeStatus.requeue_attempts s) 1 in
  set v (Some (said_here VolumePhaseKind.Pending VolumeReason.AwaitingNode
                 (Some ("attempt " +:+ show_N attempts +:+ " after a failure")) now))
    (VolumeStatus.holder s) (VolumeStatus.untold_gib s) (VolumeStatus.observed_generation s) attempts (Some now).

(** The placement of [place_volume]. *)
Definition placed (node : string) (v : Volume) : Volume :=
  let s := status v in
  VolumeEdit.set v (Some node) None (VolumeStatus.claimant_gone s) (VolumeStatus.attached_to s) (VolumeStatus.attached_uid s).

(** The failure of a provision nobody took over meanwhile. *)
Definition undelivered (message : string) (at_ : instant) (v : Volume) : Volume :=
  if bool_decide (volume_kind v = VolumePhaseKind.Provisioning)
  then say VolumePhaseKind.Failed VolumeReason.Undeliverable message at_ v else v.
End DiskEdit.

(** * The passes *)

Section disks.
Context {D Bytes : Type} `{!Etcd D Bytes, !RawJson Bytes, !StatusJson}.
Context `{!Serde Bytes NodeSpec.t NodeStatus.t, !Serde Bytes VmSpec.t VmStatus.t, !Resource VmSpec.t VmStatus.t,
  !Serde Bytes VolumeSpec.t VolumeStatus.t, !Serde Bytes StoragePoolSpec.t StoragePoolStatus.t,
  !Serde Bytes VolumeSnapshotSpec.t VolumeSnapshotStatus.t}.
Variable prefix : string.
Variable sur : surroundings D.
Variable net : peers.
Variable requeue : RequeuePolicy.
Variable sessions : list string.
(** Printing a document. *)
Variable render : value -> string.

Definition edit_volume (v : Volume) (f : Volume -> Volume) : pass_m D Volume :=
  st (mutate_if prefix sur (name (metadata v)) (Objects.uid (metadata v)) f).

Definition edit_snapshot (x : VolumeSnapshot) (f : VolumeSnapshot -> VolumeSnapshot) : pass_m D VolumeSnapshot :=
  st (mutate_if prefix sur (name (metadata x)) (Objects.uid (metadata x)) f).

(** A read whose absence is an answer. *)
Definition found {Sp St} `{!Resource Sp St, !Serde Bytes Sp St} (nm : string) : pass_m D (option (Object Sp St)) :=
  r ← try_store (get (Sp := Sp) (St := St) prefix sur nm);
  match r with
  | Ok o => ok (Some o)
  | Err (StoreError.NotFound _) => ok None
  | Err e => raise (Failure.of_store e)
  end.

(** A write guarded by the revision it was decided on; whether it won. *)
Definition claimed_by_update {Sp St} `{!Resource Sp St, !Serde Bytes Sp St} (o : Object Sp St) : pass_m D bool :=
  r ← try_store (update prefix sur o);
  match r with
  | Ok _ => ok true
  | Err (StoreError.Conflict _) => ok false
  | Err e => raise (Failure.of_store e)
  end.

(** [reachable]: a connected candidate of that name. *)
Definition reachable (node : string) : pass_m D bool := fun p =>
  (p, Ok (existsb (fun c => String.eqb (Candidate.name c) node && Candidate.connected c) (p_nodes p))).

(** ** Pools *)

Definition write_pool_status (pool : StoragePool) (verdict : PoolLocality.t) : pass_m D unit :=
  let facts := pool_facts verdict (StoragePoolStatus.locality (status pool)) in
  if bool_decide ((StoragePoolStatus.locality (status pool), StoragePoolStatus.disagreement (status pool)) = facts)
  then ok tt
  else
    _ ← st (mutate_if prefix sur (name (metadata pool)) (Objects.uid (metadata pool)) (with_locality facts));
    ok tt.

Fixpoint each {A} (f : A -> pass_m D unit) (l : list A) : pass_m D unit :=
  match l with
  | [] => ok tt
  | a :: l => _ ← attempt (f a); each f l
  end.

Definition reconcile_pools (localities : smap (smap Locality.t)) : pass_m D unit :=
  pools ← st (list_ (Sp := StoragePoolSpec.t) (St := StoragePoolStatus.t) prefix sur);
  each (fun pool => write_pool_status pool (pool_locality pool localities)) pools.

(** ** Volumes *)

Definition note_claimant (volume : Volume) (vms : list Vm) : pass_m D unit :=
  if negb (is_some (VolumeStatus.attached_to (status volume))) then ok tt
  else
    let verdict := claimant_verdict volume vms in
    if Bool.eqb (VolumeStatus.claimant_gone (status volume)) (ClaimantVerdict.gone verdict)
       && negb (is_some (ClaimantVerdict.bind verdict))
    then ok tt
    else _ ← edit_volume volume (judge_claim volume verdict); ok tt.

Definition note_volume_pending (v : Volume) (reason : string) : pass_m D unit :=
  if bool_decide (phase_message (VolumeStatus.phase (status v)) = Some reason) then ok tt
  else
    at_ ← now_ sur;
    _ ← edit_volume v (DiskEdit.say VolumePhaseKind.Pending VolumeReason.Unplaced reason at_);
    ok tt.

(** The first candidate that can serve the pool, or why there is none. *)
Definition storage_decision (pool : StoragePool) : pass_m D (result (PendingReason.t * string) string) := fun p =>
  let policy := StoragePolicy.of_ pool in
  (p, Ok (match feasible_for_storage policy (p_nodes p) with
          | c :: _ => Ok (Candidate.name c)
          | [] => Err (storage_pending_reason policy (name (metadata pool)) (p_nodes p))
          end)).

Definition place_volume (pools : list StoragePool) (v : Volume) : pass_m D unit :=
  match List.find (fun p : StoragePool => String.eqb (name (metadata p)) (VolumeSpec.pool (spec v))) pools with
  | None =>
      note_volume_pending v ("storage pool " +:+ debug (VolumeSpec.pool (spec v))
                             +:+ " does not exist here; the volume cannot be placed")
  | Some pool =>
      decision ← storage_decision pool;
      match decision with
      | Err (category, reason) => _ ← note_reason category; note_volume_pending v reason
      | Ok node => _ ← claimed_by_update (DiskEdit.placed node v); ok tt
      end
  end.

(** What the bytes start from: nothing, a copy's uid, a copy still being made, or one that is gone. *)
Definition seed_snapshot (v : Volume) : pass_m D (result string (option string)) :=
  match VolumeSpec.from_snapshot (spec v) with
  | None => ok (Ok (Some ""))
  | Some named =>
      s ← found (Sp := VolumeSnapshotSpec.t) (St := VolumeSnapshotStatus.t) named;
      match s with
      | None => ok (Err ("snapshot " +:+ named +:+ " does not exist here any more"))
      | Some s =>
          ok (Ok (if bool_decide (snapshot_kind s = VolumeSnapshotPhaseKind.Ready)
                  then Some (Objects.uid (metadata s)) else None))
      end
  end.

Definition cannot_start (v : Volume) (why : string) : pass_m D unit :=
  at_ ← now_ sur;
  _ ← edit_volume v (DiskEdit.say VolumePhaseKind.Failed VolumeReason.SourceMissing why at_);
  ok tt.

(** The claim, the command and what became of it. *)
Definition send_provision (v : Volume) (node doc from : string) : pass_m D unit :=
  at_ ← now_ sur;
  won ← claimed_by_update
          (DiskEdit.say VolumePhaseKind.Provisioning VolumeReason.Dispatched (node +:+ " was told to make the bytes") at_ v);
  if negb (won : bool) then ok tt
  else
    outcome ← attempt (send_command net node (Op.ProvisionVolume (Objects.uid (metadata v)) doc from));
    match outcome with
    | Err e =>
        at_ ← now_ sur;
        _ ← edit_volume v (DiskEdit.undelivered (Failure.text e) at_);
        ok tt
    | Ok _ => _ ← edit_volume v (DiskEdit.observed (generation (metadata v))); ok tt
    end.

Definition provision_volume (v : Volume) (node : string) : pass_m D unit :=
  assigned ← st (Namespaces.assign prefix sur v);
  match assigned with
  | Err why => cannot_start v why
  | Ok _ =>
      doc ← st (volume_spec_json prefix sur v);
      from ← seed_snapshot v;
      match from with
      | Err why => cannot_start v why
      | Ok None => ok tt
      | Ok (Some from) => send_provision v node (render doc) from
      end
  end.

Definition requeue_volume (v : Volume) (node : string) : pass_m D unit :=
  now ← now_ sur;
  if negb (retry_due requeue (VolumeStatus.last_requeue (status v)) (VolumeStatus.requeue_attempts (status v)) now)
  then ok tt
  else
    kicked ← edit_volume v (DiskEdit.requeued now);
    provision_volume kicked node.

(** ** A running holder *)

Definition holder_of (v : Volume) : pass_m D (option (string * string)) :=
  match VolumeStatus.attached_to (status v) with
  | None => ok None
  | Some holder =>
      vm ← found (Sp := VmSpec.t) (St := VmStatus.t) holder;
      match vm with
      | None => ok None
      | Some vm =>
          if is_some_and (fun uid => negb (String.eqb uid (Objects.uid (metadata vm)))) (VolumeStatus.attached_uid (status v))
          then ok None
          else match vm_kind vm, VmSpec.node_name (spec vm) with
               | VmPhaseKind.Running, Some node => ok (Some (Objects.uid (metadata vm), node))
               | _, _ => ok None
               end
      end
  end.

(** ** Growing *)

Definition told (v : Volume) : pass_m D unit :=
  _ ← edit_volume v (DiskEdit.told (VolumeSpec.size_gib (spec v))); ok tt.

(** The second half. *)
Definition tell_holder (v : Volume) (size_bytes : N) : pass_m D unit :=
  holder ← holder_of v;
  match holder with
  | None => told v
  | Some (vm, vm_node) =>
      outcome ← attempt (send_command net vm_node (Op.ResizeAttachment vm (Objects.uid (metadata v)) size_bytes));
      match outcome with
      | Err e =>
          _ ← edit_volume v (DiskEdit.note (Some (guest_not_told (VolumeSpec.size_gib (spec v)) (Failure.text e))));
          ok tt
      | Ok _ => told v
      end
  end.

Definition resize_volume (v : Volume) (node : string) : pass_m D unit :=
  let size_bytes := N.min u64_max (VolumeSpec.size_gib (spec v) * (1024 * 1024 * 1024)) in
  _ ← (if (VolumeStatus.untold_gib (status v) <? VolumeSpec.size_gib (spec v))%N
       then _ ← edit_volume v DiskEdit.intend; ok tt else ok tt);
  if negb (grew v) then tell_holder v size_bytes
  else
    outcome ← attempt (send_command net node (Op.ResizeVolume (Objects.uid (metadata v)) size_bytes));
    match outcome with
    | Err e =>
        at_ ← now_ sur;
        _ ← edit_volume v (DiskEdit.say VolumePhaseKind.Failed VolumeReason.Undeliverable (Failure.text e) at_);
        ok tt
    | Ok _ => tell_holder v size_bytes
    end.

(** ** Letting go *)

Definition note_volume_releasing (v : Volume) (reason : string) : pass_m D unit :=
  if bool_decide (VolumeStatus.holder (status v) = Some reason) then ok tt
  else _ ← edit_volume v (DiskEdit.held reason); ok tt.

Definition deprovision_volume (v : Volume) (node : string) : pass_m D unit :=
  up ← reachable node;
  if negb (up : bool) then
    note_volume_releasing v ("node " +:+ node +:+ " unreachable; the data is there until it returns")
  else
    outcome ← attempt (send_command net node (Op.DeprovisionVolume (Objects.uid (metadata v))));
    match outcome with
    | Err e => note_volume_releasing v (Failure.text e)
    | Ok _ => ok tt
    end.

Definition drop_volume (v : Volume) (snapshots : list string) : pass_m D unit :=
  written ← st (take_finalizer prefix sur v VOLUME_RELEASE_FINALIZER (drops snapshots));
  match written with
  | None => ok tt
  | Some written =>
      _ ← st (Namespaces.give_back prefix sur v);
      _ ← st (finish_release prefix sur written VOLUME_RELEASE_FINALIZER (drops snapshots));
      ok tt
  end.

Definition release (v : Volume) : pass_m D unit :=
  all ← st (list_ (Sp := VolumeSnapshotSpec.t) (St := VolumeSnapshotStatus.t) prefix sur);
  let snapshots := snapshots_holding all (name (metadata v)) in
  match release_action v snapshots with
  | Release.HeldBy holder => note_volume_releasing v (HeldBy.sentence holder)
  | Release.WaitingForNode node => deprovision_volume v node
  | Release.Drop => drop_volume v snapshots
  end.

Definition reconcile_volume (pools : list StoragePool) (v : Volume) : pass_m D unit :=
  if is_some (deletion_timestamp (metadata v)) then release v
  else match next_for v with
       | Next.Place => place_volume pools v
       | Next.Provision node => provision_volume v node
       | Next.Requeue node => requeue_volume v node
       | Next.Resize node => resize_volume v node
       | Next.Settled => ok tt
       end.

(** One turn of the loop of [place_volumes]. *)
Definition volume_turn (pools : list StoragePool) (claimants : list Vm) (v : Volume) : pass_m D unit :=
  _ ← attempt (note_claimant v claimants);
  if negb (may_reconcile_volume v sessions) then ok tt else reconcile_volume pools v.

Definition place_volumes : pass_m D unit :=
  volumes ← st (list_ (Sp := VolumeSpec.t) (St := VolumeStatus.t) prefix sur);
  if is_nil volumes then ok tt
  else
    pools ← st (list_ (Sp := StoragePoolSpec.t) (St := StoragePoolStatus.t) prefix sur);
    claimants ← st (list_ (Sp := VmSpec.t) (St := VmStatus.t) prefix sur);
    each (volume_turn pools claimants) volumes.

(** ** Copies *)

(** [quiesced] with [tell_guest]: a resume that fails does not replace the outcome. *)
Definition quiesced {A} (guest : option (string * string)) (work : pass_m D A) : pass_m D A :=
  match guest with
  | None => work
  | Some (vm, node) =>
      paused ← attempt (send_command net node (Op.Pause vm));
      match paused with
      | Err e => bail ("pausing the vm for a consistent copy failed: " +:+ Failure.text e)
      | Ok _ =>
          outcome ← attempt work;
          _ ← attempt (send_command net node (Op.Resume vm));
          match outcome with Ok a => ok a | Err e => raise e end
      end
  end.

Definition snapshot_consistency (v : Volume) (driver : string) : pass_m D (option SnapshotConsistency.t) :=
  match VolumeStatus.node (status v) with
  | None => ok None
  | Some nm =>
      node ← found (Sp := NodeSpec.t) (St := NodeStatus.t) nm;
      ok (node ≫= fun node : Node => consistency_in (NodeCapacity.capabilities (NodeStatus.capacity (status node))) driver)
  end.

Definition snapshot_needs_quiesce (v : Volume) : pass_m D (option (string * string)) :=
  pool ← found (Sp := StoragePoolSpec.t) (St := StoragePoolStatus.t) (VolumeSpec.pool (spec v));
  match pool with
  | None => holder_of v
  | Some pool =>
      said ← snapshot_consistency v (StoragePoolSpec.driver (spec pool));
      if bool_decide (said = Some SnapshotConsistency.Atomic) then ok None else holder_of v
  end.

Definition note_snapshot_failed (x : VolumeSnapshot) (reason : VolumeSnapshotReason.t) (message : string) : pass_m D unit :=
  at_ ← now_ sur;
  _ ← edit_snapshot x (SnapshotEdit.say VolumeSnapshotPhaseKind.Failed reason message at_);
  ok tt.

(** Of a volume whose bytes are ready on [node]. *)
Definition send_snapshot (x : VolumeSnapshot) (volume : Volume) (node : string) : pass_m D unit :=
  at_ ← now_ sur;
  let sent := SnapshotEdit.dispatched node at_ x in
  won ← claimed_by_update sent;
  if negb (won : bool) then ok tt
  else
    guest ← snapshot_needs_quiesce volume;
    outcome ← attempt (quiesced guest
                (send_command net node (Op.SnapshotVolume (Objects.uid (metadata volume)) (Objects.uid (metadata x)))));
    match outcome with
    | Err e => note_snapshot_failed sent VolumeSnapshotReason.Undeliverable (Failure.text e)
    | Ok _ => ok tt
    end.

Definition dispatch_snapshot (x : VolumeSnapshot) : pass_m D unit :=
  volume ← found (Sp := VolumeSpec.t) (St := VolumeStatus.t) (VolumeSnapshotSpec.volume (spec x));
  match volume with
  | None =>
      note_snapshot_failed x VolumeSnapshotReason.SourceGone
        ("volume " +:+ VolumeSnapshotSpec.volume (spec x) +:+ " does not exist here any more")
  | Some volume =>
      match VolumeStatus.node (status volume), volume_kind volume with
      | Some node, VolumePhaseKind.Ready => send_snapshot x volume node
      | _, _ => ok tt
      end
  end.

Definition requeue_snapshot (x : VolumeSnapshot) : pass_m D unit :=
  now ← now_ sur;
  if negb (retry_due requeue (VolumeSnapshotStatus.last_requeue (status x))
             (VolumeSnapshotStatus.requeue_attempts (status x)) now)
  then ok tt
  else _ ← edit_snapshot x (SnapshotEdit.requeued now); ok tt.

(** The [unplaced] closure. *)
Definition unplaced (x : VolumeSnapshot) : bool :=
  is_some (deletion_timestamp (metadata x)) && negb (is_some (VolumeSnapshotStatus.node (status x))).

Definition drop_unplaced_snapshot (x : VolumeSnapshot) : pass_m D unit :=
  _ ← st (release_and_delete prefix sur x VOLUME_RELEASE_FINALIZER unplaced); ok tt.

Definition drop_snapshot (x : VolumeSnapshot) : pass_m D unit :=
  match VolumeSnapshotStatus.node (status x) with
  | None => drop_unplaced_snapshot x
  | Some node =>
      up ← reachable node;
      if negb (up : bool) then ok tt
      else _ ← send_command net node (Op.DropSnapshot (Objects.uid (metadata x))); ok tt
  end.

Definition reconcile_snapshot (x : VolumeSnapshot) : pass_m D unit :=
  if is_some (deletion_timestamp (metadata x)) then drop_snapshot x
  else match snapshot_kind x with
       | VolumeSnapshotPhaseKind.Pending => dispatch_snapshot x
       | VolumeSnapshotPhaseKind.Failed => requeue_snapshot x
       | VolumeSnapshotPhaseKind.Creating | VolumeSnapshotPhaseKind.Ready => ok tt
       end.

Definition take_snapshots : pass_m D unit :=
  snapshots ← st (list_ (Sp := VolumeSnapshotSpec.t) (St := VolumeSnapshotStatus.t) prefix sur);
  each (fun x => if negb (may_reconcile_snapshot x sessions) then ok tt else reconcile_snapshot x) snapshots.
End disks.

(** * What a pass over a disk may tell a node *)

Section authority.
Context {D Bytes : Type} `{!Etcd D Bytes, !RawJson Bytes}.
Context `{!Serde Bytes VmSpec.t VmStatus.t, !Resource VmSpec.t VmStatus.t, !Serde Bytes VolumeSpec.t VolumeStatus.t,
  !Serde Bytes VolumeSnapshotSpec.t VolumeSnapshotStatus.t}.
Variable prefix : string.
Variable sur : surroundings D.
Variable s0 : D.
Variable v : Volume.

(** An edit of the volume landed between [s0] and [s] and left [o]. *)
Definition edit_landed (f : Volume -> Volume) (o : Volume) (s : D) : Prop :=
  exists w w', evolves s0 (db w)
    /\ mutate_if prefix sur (name (metadata v)) (Objects.uid (metadata v)) f w = (w', Ok o) /\ evolves (db w') s.

(** The record a provision is claimed on: as listed, or as the retry of a failed volume left it. *)
Inductive claimable (s : D) : Volume -> Prop :=
| claim_listed : volume_kind v = VolumePhaseKind.Pending -> claimable s v
| claim_retried now kicked :
    volume_kind v = VolumePhaseKind.Failed -> edit_landed (DiskEdit.requeued now) kicked s -> claimable s kicked.

(** The VM that holds the claim, running, bound to [node], between [s0] and [s]. *)
Definition running_holder (vm node : string) (s : D) : Prop :=
  exists w w' x holder, evolves s0 (db w)
    /\ get (Sp := VmSpec.t) (St := VmStatus.t) prefix sur holder w = (w', Ok x) /\ evolves (db w') s
    /\ VolumeStatus.attached_to (status v) = Some holder
    /\ (forall uid, VolumeStatus.attached_uid (status v) = Some uid -> uid = vm)
    /\ Objects.uid (metadata x) = vm /\ vm_kind x = VmPhaseKind.Running /\ VmSpec.node_name (spec x) = Some node.

(** No readable copy stood on the volume at some moment between [s0] and [s]. *)
Definition no_copy (s : D) : Prop :=
  exists w w' all, evolves s0 (db w)
    /\ list_ (Sp := VolumeSnapshotSpec.t) (St := VolumeSnapshotStatus.t) prefix sur w = (w', Ok all) /\ evolves (db w') s
    /\ snapshots_holding all (name (metadata v)) = [].

Definition grown_bytes : N := N.min u64_max (VolumeSpec.size_gib (spec v) * (1024 * 1024 * 1024)).

Inductive disk_permitted (s : D) : string * Op.t -> Prop :=
| may_provision node doc from x at_ taken :
    is_some (deletion_timestamp (metadata v)) = false -> VolumeStatus.node (status v) = Some node ->
    claimable s x ->
    landed prefix sur s0 (DiskEdit.say VolumePhaseKind.Provisioning VolumeReason.Dispatched
                            (node +:+ " was told to make the bytes") at_ x) taken s ->
    disk_permitted s (node, Op.ProvisionVolume (Objects.uid (metadata v)) doc from)
| may_resize node :
    is_some (deletion_timestamp (metadata v)) = false -> VolumeStatus.node (status v) = Some node ->
    volume_kind v = VolumePhaseKind.Ready -> grew v = true ->
    (VolumeSpec.size_gib (spec v) <= VolumeStatus.untold_gib (status v))%N
    \/ (exists o, edit_landed DiskEdit.intend o s) ->
    disk_permitted s (node, Op.ResizeVolume (Objects.uid (metadata v)) grown_bytes)
| may_tell vm node :
    is_some (deletion_timestamp (metadata v)) = false -> volume_kind v = VolumePhaseKind.Ready ->
    running_holder vm node s ->
    disk_permitted s (node, Op.ResizeAttachment vm (Objects.uid (metadata v)) grown_bytes)
| may_deprovision node :
    is_some (deletion_timestamp (metadata v)) = true -> VolumeStatus.attached_to (status v) = None ->
    VolumeStatus.node (status v) = Some node -> no_copy s ->
    disk_permitted s (node, Op.DeprovisionVolume (Objects.uid (metadata v))).
End authority.

(** * Lemmas *)

Section disk_facts.
Context {D Bytes : Type} `{!Etcd D Bytes, !EtcdLaws D Bytes, !RawJson Bytes, !StatusJson}.
Context `{!Serde Bytes NodeSpec.t NodeStatus.t, !Serde Bytes VmSpec.t VmStatus.t, !Resource VmSpec.t VmStatus.t,
  !Serde Bytes VolumeSpec.t VolumeStatus.t, !SerdeLaws Bytes VolumeSpec.t VolumeStatus.t,
  !Serde Bytes StoragePoolSpec.t StoragePoolStatus.t, !Serde Bytes VolumeSnapshotSpec.t VolumeSnapshotStatus.t}.
Context (prefix : string) (sur : surroundings D) (net : peers) (Henv : lawful_env sur).
Context (requeue : RequeuePolicy) (sessions : list string) (render : value -> string).
#[local] Instance disk_settle : SettleLaws VolumeSpec.t VolumeStatus.t.
Proof using. by constructor. Qed.

Section quiet_disk.
Implicit Types (P : D -> string * Op.t -> Prop) (s : D).

Lemma emits_edit_volume s P v f : emits s P (edit_volume prefix sur v f).
Proof using Henv EtcdLaws0. unfold edit_volume. emit. Qed.

Lemma emits_edit_then s P v f : emits s P (_ ← edit_volume prefix sur v f; ok tt).
Proof using Henv EtcdLaws0. apply emits_seq; [apply emits_edit_volume|intros _; emit]. Qed.

Lemma emits_found {Sp St} `{!Resource Sp St, !Serde Bytes Sp St} s P nm :
  emits s P (found (Sp := Sp) (St := St) prefix sur nm).
Proof using Henv. unfold found. repeat emit. Qed.

Lemma emits_claimed {Sp St} `{!Resource Sp St, !Serde Bytes Sp St} s P (o : Object Sp St) :
  emits s P (claimed_by_update prefix sur o).
Proof using Henv EtcdLaws0. unfold claimed_by_update. repeat emit. Qed.

Lemma emits_volume_pending s P v why : emits s P (note_volume_pending prefix sur v why).
Proof using Henv EtcdLaws0.
  unfold note_volume_pending. emit; [emit|]. apply emits_seq; [apply emits_now|intros; apply emits_edit_then].
Qed.

Lemma emits_releasing s P v why : emits s P (note_volume_releasing prefix sur v why).
Proof using Henv EtcdLaws0. unfold note_volume_releasing. emit; [emit|apply emits_edit_then]. Qed.

Lemma emits_place_volume s P pools v : emits s P (place_volume prefix sur pools v).
Proof using Henv EtcdLaws0.
  unfold place_volume. destruct (List.find _ _) as [pool|]; [|apply emits_volume_pending].
  apply emits_seq. { apply emits_silent. intros p p' r [= <- <-]. by split; [apply rtc_refl|]. }
  intros [node|[category why]].
  - apply emits_seq; [apply emits_claimed|intros _; emit].
  - apply emits_seq; [emit|intros _; apply emits_volume_pending].
Qed.

Lemma emits_cannot s P v why : emits s P (cannot_start prefix sur v why).
Proof using Henv EtcdLaws0. unfold cannot_start. apply emits_seq; [apply emits_now|intros; apply emits_edit_then]. Qed.

Lemma emits_claimant s P v vms : emits s P (note_claimant prefix sur v vms).
Proof using Henv EtcdLaws0.
  unfold note_claimant. emit; [emit|]. cbv zeta. emit; [emit|apply emits_edit_then].
Qed.

Lemma emits_seed_snapshot s P v : emits s P (seed_snapshot prefix sur v).
Proof using Henv.
  unfold seed_snapshot. destruct (VolumeSpec.from_snapshot _); [|emit].
  apply emits_seq; [apply emits_found|]. intros []; emit.
Qed.

Lemma emits_told s P v : emits s P (told prefix sur v).
Proof using Henv EtcdLaws0. apply emits_edit_then. Qed.

Lemma emits_holder s P v : emits s P (holder_of prefix sur v).
Proof using Henv.
  unfold holder_of. destruct (VolumeStatus.attached_to _); [|emit].
  apply emits_seq; [apply emits_found|]. intros [vm|]; [|emit]. emit; [emit|].
  destruct (vm_kind vm), (VmSpec.node_name (spec vm)); emit.
Qed.
End quiet_disk.

(** ** Claims and edits that landed *)

Lemma claimed_won {Sp St} `{!Resource Sp St, !Serde Bytes Sp St} (o : Object Sp St) s0 p p' :
  evolves s0 (db (p_store p)) -> claimed_by_update prefix sur o p = (p', Ok true) ->
  exists taken, landed prefix sur s0 o taken (db (p_store p')).
Proof using.
  intros Hs (p1 & r & Hr & Hk)%pass_bind_ok. unfold try_store in Hr.
  destruct (update _ _ _ _) as [w x] eqn:Eu. injection Hr as <- <-.
  destruct x as [taken|[]]; try done. injection Hk as <-. exists taken, (p_store p), w. split_and!; [done..|apply rtc_refl].
Qed.

Lemma edit_made v f o s0 p p' :
  evolves s0 (db (p_store p)) -> edit_volume prefix sur v f p = (p', Ok o) ->
  edit_landed prefix sur s0 v f o (db (p_store p')).
Proof using. intros Hs Hm%st_ok. exists (p_store p), (p_store p'). split_and!; [done..|apply rtc_refl]. Qed.

Lemma edit_landed_later v f o s0 s s' :
  edit_landed prefix sur s0 v f o s -> evolves s s' -> edit_landed prefix sur s0 v f o s'.
Proof using. intros (w & w' & ? & ? & ?) ?. exists w, w'. split_and!; [done..|along]. Qed.

Lemma claimable_later v x s0 s s' : claimable prefix sur s0 v s x -> evolves s s' -> claimable prefix sur s0 v s' x.
Proof using.
  intros [Hk|now kicked Hk He] Hs; [by apply claim_listed|]. eapply claim_retried; eauto using edit_landed_later.
Qed.

(** An edit of the volume keeps its identity. *)
Lemma edit_landed_uid v now o s0 s :
  edit_landed prefix sur s0 v (DiskEdit.requeued now) o s -> Objects.uid (metadata o) = Objects.uid (metadata v).
Proof using EtcdLaws0 SerdeLaws0.
  intros (w & w' & _ & Hm & _). unfold mutate_if in Hm.
  apply bind_ok in Hm as (w1 & [c o'] & Hm & Hr). injection Hr as <- <-.
  apply mutate_loop_written in Hm as (x & c' & at_ & rev & _ & Ha & _ & Ho); [|done].
  simpl in Ho. rewrite Ho. unfold expects_uid in Ha. simpl.
  by destruct (String.eqb_spec (Objects.uid (metadata x)) (Objects.uid (metadata v))).
Qed.

Lemma claimable_uid v x s0 s : claimable prefix sur s0 v s x -> Objects.uid (metadata x) = Objects.uid (metadata v).
Proof using EtcdLaws0 SerdeLaws0. intros [Hk|now kicked Hk He]; [done|by eapply edit_landed_uid]. Qed.

(** ** The commands of each step *)

Lemma grows_assign v : grows (Namespaces.assign prefix sur v).
Proof using Henv EtcdLaws0.
  unfold Namespaces.assign. generalize RETRIES. intros n. induction n as [|n IH]; [apply grows_lift|]. simpl.
  apply grows_bind; [by apply grows_get|intros pool]. destruct (pool_of pool) as [parsed|]; [|apply grows_lift].
  destruct (choose _ _ _); try apply grows_lift.
  intros w w' r. destruct (update _ _ _ w) as [w1 x] eqn:Eu. apply grows_update in Eu; [|done].
  destruct x as [o|[]]; try by intros [= <- <-]. intros Hr. apply IH in Hr. along.
Qed.

Lemma grows_spec_json v : grows (volume_spec_json prefix sur v).
Proof using Henv. unfold volume_spec_json. apply grows_bind; [by apply grows_get|intros; apply grows_lift]. Qed.

Section one_disk.
Context (s0 : D) (v : Volume).
Abbreviation may := (disk_permitted prefix sur s0 v).

Lemma emits_send_provision s x node doc from :
  is_some (deletion_timestamp (metadata v)) = false -> VolumeStatus.node (status v) = Some node ->
  evolves s0 s -> claimable prefix sur s0 v s x -> emits s may (send_provision prefix sur net x node doc from).
Proof using Henv EtcdLaws0 SerdeLaws0.
  intros Hlive Hhome Hs Hc. unfold send_provision. apply emits_seq; [apply emits_now|intros at_].
  apply emits_bind; [by apply emits_claimed|]. intros p p' [] Hp Hw; simpl; [|emit].
  assert (Hg : evolves (db (p_store p)) (db (p_store p'))).
  { eapply emits_grows; [|exact Hw]. intros. by apply emits_claimed. }
  apply (claimed_won _ s0) in Hw as [taken Hl]; [|along].
  apply emits_seq.
  - apply emits_attempt, emits_command. intros s' Hs'. rewrite (claimable_uid v x s0 s) by done.
    eapply may_provision; [done|done| |].
    + eapply claimable_later; [exact Hc|]. along.
    + eapply landed_later; [exact Hl|done].
  - intros [ack|e]; [by apply emits_edit_then|]. apply emits_seq; [apply emits_now|intros; by apply emits_edit_then].
Qed.

Lemma emits_provision s x node :
  is_some (deletion_timestamp (metadata v)) = false -> VolumeStatus.node (status v) = Some node ->
  evolves s0 s -> claimable prefix sur s0 v s x -> emits s may (provision_volume prefix sur net render x node).
Proof using Henv EtcdLaws0 SerdeLaws0.
  intros Hlive Hhome Hs Hc. unfold provision_volume.
  apply emits_seq; [apply emits_st, grows_assign|]. intros [given|why]; [|by apply emits_cannot].
  apply emits_seq; [apply emits_st, grows_spec_json|intros doc].
  apply emits_seq; [by apply emits_seed_snapshot|]. intros [[from|]|why]; [|emit|by apply emits_cannot].
  by apply emits_send_provision.
Qed.

Lemma emits_requeue s node :
  is_some (deletion_timestamp (metadata v)) = false -> VolumeStatus.node (status v) = Some node ->
  evolves s0 s -> volume_kind v = VolumePhaseKind.Failed ->
  emits s may (requeue_volume prefix sur net requeue render v node).
Proof using Henv EtcdLaws0 SerdeLaws0.
  intros Hlive Hhome Hs Hk. unfold requeue_volume. apply emits_seq; [apply emits_now|intros now]. emit; [emit|].
  apply emits_bind; [by apply emits_edit_volume|]. intros p p' kicked Hp He.
  assert (Hg : evolves (db (p_store p)) (db (p_store p'))).
  { eapply emits_grows; [|exact He]. intros. by apply emits_edit_volume. }
  apply emits_provision; [done..|along|]. eapply claim_retried; [done|]. eapply edit_made; [|exact He]. along.
Qed.

Lemma found_some {Sp St} `{!Resource Sp St, !Serde Bytes Sp St} nm p p' (o : Object Sp St) :
  found prefix sur nm p = (p', Ok (Some o)) -> get prefix sur nm (p_store p) = (p_store p', Ok o).
Proof using.
  intros (p1 & r & Hr & Hk)%pass_bind_ok. unfold try_store in Hr. destruct (get _ _ _ _) as [w x]. injection Hr as <- <-.
  destruct x as [o'|[]]; try done. by injection Hk as <- <-.
Qed.

Lemma holder_running p p' vm node :
  evolves s0 (db (p_store p)) -> holder_of prefix sur v p = (p', Ok (Some (vm, node))) ->
  running_holder prefix sur s0 v vm node (db (p_store p')).
Proof using.
  intros Hs. unfold holder_of. destruct (VolumeStatus.attached_to (status v)) as [holder|] eqn:Ea; [|done].
  intros (p1 & [x|] & Hf & Hk)%pass_bind_ok; [|done]. apply found_some in Hf.
  destruct (is_some_and _ _) eqn:Eu; [done|].
  destruct (vm_kind x) eqn:Ek; try done. destruct (VmSpec.node_name (spec x)) as [n|] eqn:En; [|done].
  injection Hk as <- <- <-. exists (p_store p), (p_store p1), x, holder.
  split_and!; try done.
  intros uid Huid. rewrite Huid in Eu. simpl in Eu. apply negb_false_iff, String.eqb_eq in Eu. done.
Qed.

Lemma emits_tell_holder s :
  is_some (deletion_timestamp (metadata v)) = false -> volume_kind v = VolumePhaseKind.Ready -> evolves s0 s ->
  emits s may (tell_holder prefix sur net v (grown_bytes v)).
Proof using Henv EtcdLaws0.
  intros Hlive Hk Hs. unfold tell_holder. apply emits_bind; [by apply emits_holder|].
  intros p p' [[vm node]|] Hp Hh; [|by apply emits_told].
  apply holder_running in Hh as (w & w' & x & holder & ? & ? & He & ?); [|along].
  apply emits_seq.
  - apply emits_attempt, emits_command. intros s' Hs'. apply may_tell; [done..|]. exists w, w', x, holder.
    do 2 (split; [done|]). split; [along|done].
  - intros [ack|e]; [by apply emits_told|by apply emits_edit_then].
Qed.

Lemma emits_resize s node :
  is_some (deletion_timestamp (metadata v)) = false -> VolumeStatus.node (status v) = Some node ->
  volume_kind v = VolumePhaseKind.Ready -> evolves s0 s -> emits s may (resize_volume prefix sur net v node).
Proof using Henv EtcdLaws0.
  intros Hlive Hhome Hk Hs. unfold resize_volume. fold (grown_bytes v). cbv zeta.
  assert (Hi : forall s', emits s' may (if (VolumeStatus.untold_gib (status v) <? VolumeSpec.size_gib (spec v))%N
    then _ ← edit_volume prefix sur v DiskEdit.intend; ok tt else ok tt)) by (intros; emit; [by apply emits_edit_then|emit]).
  apply emits_bind; [apply Hi|]. intros p p' [] Hp Hrun.
  destruct (Hi _ p p' _ Hp Hrun) as [Hg _].
  assert (Hint : (VolumeSpec.size_gib (spec v) <= VolumeStatus.untold_gib (status v))%N
    \/ exists o, edit_landed prefix sur s0 v DiskEdit.intend o (db (p_store p'))).
  { destruct (N.ltb_spec (VolumeStatus.untold_gib (status v)) (VolumeSpec.size_gib (spec v))) as [Hl|Hl]; [right|by left].
    apply pass_bind_ok in Hrun as (p1 & o & He & Hr). injection Hr as <-. exists o. eapply edit_made; [|exact He]. along. }
  destruct (grew v) eqn:Eg; simpl; [|apply emits_tell_holder; [done..|along]].
  apply emits_seq.
  - apply emits_attempt, emits_command. intros s' Hs'. apply may_resize; [done..|].
    destruct Hint as [?|[o Ho]]; [by left|right; exists o; eauto using edit_landed_later].
  - intros [ack|e]; [apply emits_tell_holder; [done..|along]|].
    apply emits_seq; [apply emits_now|intros; by apply emits_edit_then].
Qed.

Lemma grows_take_finalizer x f still : grows (take_finalizer (Sp := VolumeSpec.t) (St := VolumeStatus.t) prefix sur x f still).
Proof using Henv EtcdLaws0.
  intros w w' r. unfold take_finalizer. destruct (mutate_if_with _ _ _ _ _ _ w) as [w1 y] eqn:E.
  apply (grows_mutate_if_with prefix sur Henv) in E. destruct y as [[[] o]|[]]; by intros [= <- <-].
Qed.

Lemma emits_drop_volume s P x copies : emits s P (drop_volume prefix sur x copies).
Proof using Henv EtcdLaws0.
  unfold drop_volume. apply emits_seq; [apply emits_st, grows_take_finalizer|]. intros [written|]; [|emit].
  apply emits_seq.
  - apply emits_st. intros w w' r. unfold Namespaces.give_back. destruct (mutate _ _ _ _ w) as [w1 y] eqn:E.
    apply grows_mutate in E; [|done]. by intros [= <- <-].
  - intros _. apply emits_seq; [apply emits_st; by apply grows_finish_delete|intros; emit].
Qed.

Lemma emits_let_disk_go s :
  is_some (deletion_timestamp (metadata v)) = true -> evolves s0 s -> emits s may (release prefix sur net v).
Proof using Henv EtcdLaws0.
  intros Hd Hs. unfold release. apply emits_bind; [emit|]. intros p p' all Hp Hl. apply st_ok in Hl.
  destruct (release_action v _) as [h|node|] eqn:Er; [by apply emits_releasing| |by apply emits_drop_volume].
  unfold release_action in Er. destruct (VolumeStatus.attached_to (status v)) eqn:Ea; [done|].
  destruct (snapshots_holding _ _) eqn:Ec; [|done]. destruct (VolumeStatus.node (status v)) eqn:En; [|done].
  injection Er as ->. unfold deprovision_volume.
  apply emits_seq. { apply emits_silent. intros q q' r [= <- <-]. by split; [apply rtc_refl|]. }
  intros []; simpl; [|by apply emits_releasing]. apply emits_seq.
  - apply emits_attempt, emits_command. intros s' Hs'. apply may_deprovision; [done..|].
    exists (p_store p), (p_store p'), all. split_and!; try done. along.
  - intros [ack|e]; [emit|by apply emits_releasing].
Qed.

Lemma emits_reconcile_volume pools : emits s0 may (reconcile_volume prefix sur net requeue render pools v).
Proof using Henv EtcdLaws0 SerdeLaws0.
  unfold reconcile_volume. destruct (is_some _) eqn:Hd; [apply emits_let_disk_go; [done|apply rtc_refl]|].
  unfold next_for. destruct (VolumeStatus.node (status v)) as [node|] eqn:Hn; [|by apply emits_place_volume].
  destruct (volume_kind v) eqn:Hk; [|emit| |emit|].
  - apply emits_provision; [done..|apply rtc_refl|by apply claim_listed].
  - destruct (grew v || _); [|emit]. apply emits_resize; [done..|apply rtc_refl].
  - apply emits_requeue; [done..|apply rtc_refl|done].
Qed.
End one_disk.

(** C6. Every command one turn over a volume hands to a node is one it may give at
    that moment, whatever other replicas write meanwhile and whatever the nodes
    answer.  The bytes are asked for only from the home of a volume that is staying,
    after the write that marks it as being made landed on the very revision the pass
    decided on, or on the one its retry left.  They are grown only at the home, after
    the intent to tell the guest was on the record; and only the running VM that
    holds the claim, by its uid where the claim carries one, is told the size.  They
    are destroyed only at the home of a deleted volume no VM claims, after a listing
    in which no readable copy that is staying was taken of it.  Commands to the home
    go to a node whose session this replica holds. *)
Theorem volume_turn_permitted pools claimants v p p' r :
  volume_turn prefix sur net requeue sessions render pools claimants v p = (p', r) ->
  exists new, p_sent p' = p_sent p ++ map snd new
    /\ Forall (fun '(s, c) => evolves (db (p_store p)) s /\ evolves s (db (p_store p'))
         /\ disk_permitted prefix sur (db (p_store p)) v s c
         /\ (VolumeStatus.node (status v) = Some c.1 -> str_in c.1 sessions = true)) new.
Proof using Henv EtcdLaws0 SerdeLaws0.
  intros Hrun. set (s0 := db (p_store p)).
  assert (He : emits s0 (disk_permitted prefix sur s0 v)
    (volume_turn prefix sur net requeue sessions render pools claimants v)).
  { unfold volume_turn. apply emits_seq; [apply emits_attempt, emits_claimant|intros _].
    emit; [emit|apply emits_reconcile_volume]. }
  destruct (He p p' r (rtc_refl _ _) Hrun) as (_ & new & Hn & Hf). exists new. split; [done|].
  destruct (may_reconcile_volume v sessions) eqn:Hm.
  - eapply Forall_impl; [exact Hf|]. intros [s c] (H1 & H2 & H3). split_and!; [done..|]. simpl.
    intros Hnode. unfold may_reconcile_volume in Hm. by rewrite Hnode in Hm.
  - unfold volume_turn in Hrun. rewrite Hm in Hrun. simpl in Hrun.
    assert (Hq : emits s0 (fun _ _ => False)
      (_ ← attempt (note_claimant prefix sur v claimants); ok tt : pass_m D unit)).
    { apply emits_seq; [apply emits_attempt, emits_claimant|intros _; emit]. }
    destruct (Hq p p' r (rtc_refl _ _) Hrun) as (_ & none & Hn' & Hf').
    assert (none = []) as -> by (destruct none as [|x l]; [done|]; apply Forall_inv in Hf' as (_ & _ & []); done).
    rewrite Hn in Hn'. apply app_inv_head in Hn'. destruct new; [constructor|done].
Qed.

(** ** What is said over a copy *)

Lemma silent_run {A} (m : pass_m D A) p p' r :
  (forall s, emits s (fun _ _ => False) m) -> m p = (p', r) -> p_sent p' = p_sent p.
Proof using.
  intros Hm Hr. destruct (Hm _ p p' r (rtc_refl _ _) Hr) as (_ & new & Hn & Hf). rewrite Hn.
  destruct new as [|x new]; [by rewrite app_nil_r|]. by apply Forall_inv in Hf as (_ & _ & []).
Qed.

(** The sessions of this replica do not change meanwhile. *)
Definition steady : Prop := forall l l', connected net l = connected net l'.

Lemma emits_needs_quiesce s P v : emits s P (snapshot_needs_quiesce prefix sur v).
Proof using Henv.
  unfold snapshot_needs_quiesce. apply emits_seq; [by apply emits_found|]. intros [pool|]; [|by apply emits_holder].
  apply emits_seq.
  - unfold snapshot_consistency. destruct (VolumeStatus.node (status v)); [|emit].
    apply emits_seq; [by apply emits_found|intros; emit].
  - intros said. emit; [emit|by apply emits_holder].
Qed.

Lemma emits_snapshot_failed s P x reason why : emits s P (note_snapshot_failed prefix sur x reason why).
Proof using Henv EtcdLaws0.
  unfold note_snapshot_failed. apply emits_seq; [apply emits_now|intros].
  apply emits_seq; [unfold edit_snapshot; emit|intros _; emit].
Qed.

(** What a guest and its copy heard: [copy] was handed over, refused for want of a
    session, or bracketed by a pause and a resume; a pause nobody acknowledged ends it. *)
Inductive talk (log : sent_log) (copy : string * Op.t) : sent_log -> Prop :=
| talk_none : talk log copy []
| talk_copy : talk log copy [copy]
| talk_refused vm node :
    (forall ack, session net log node (Op.Pause vm) <> Answer.Acked ack) -> talk log copy [(node, Op.Pause vm)]
| talk_unsent vm node : talk log copy [(node, Op.Pause vm); (node, Op.Resume vm)]
| talk_bracketed vm node : talk log copy [(node, Op.Pause vm); copy; (node, Op.Resume vm)].

Lemma quiesced_talk guest copy (p p' : pass D) r :
  steady -> quiesced net guest (send_command net copy.1 copy.2) p = (p', r) ->
  exists new, p_sent p' = p_sent p ++ new /\ talk (p_sent p) copy new.
Proof using.
  destruct copy as [home op]. intros Hst. unfold quiesced. simpl. destruct guest as [[vm node]|].
  2:{ intros Hr. apply send_command_sent in Hr as (_ & _ & _ & [Hn|[Hn _]]); rewrite Hn;
        [eexists; split; [done|apply talk_copy]|exists []; rewrite app_nil_r; split; [done|apply talk_none]]. }
  unfold mbind, pass_bind, attempt, send_command.
  destruct (str_in node (connected net (p_sent p))) eqn:Ec.
  2:{ intros [= <- <-]. exists []. rewrite app_nil_r. split; [done|apply talk_none]. }
  destruct (session net (p_sent p) node (Op.Pause vm)) as [ack| |] eqn:Es; simpl.
  2,3: intros [= <- <-]; simpl; eexists; (split; [done|apply talk_refused; by rewrite Es]).
  rewrite (Hst (p_sent p ++ _) (p_sent p)). destruct (str_in home (connected net (p_sent p))); simpl;
    rewrite (Hst (_ ++ _) (p_sent p)), Ec.
  1: destruct (heard home _). all: intros [= <- <-]; simpl.
  all: rewrite <- ?app_assoc; simpl; eexists; split; [done|constructor].
Qed.

Lemma send_snapshot_talk x volume home p p' r :
  steady -> send_snapshot prefix sur net x volume home p = (p', r) ->
  exists new, p_sent p' = p_sent p ++ new
    /\ talk (p_sent p) (home, Op.SnapshotVolume (Objects.uid (metadata volume)) (Objects.uid (metadata x))) new.
Proof using Henv EtcdLaws0.
  intros Hst (p1 & at_ & H1 & Hk)%pass_bind_run. apply silent_run in H1; [|intros; apply emits_now].
  destruct at_ as [at_|e]; [|destruct Hk as [<- _]; exists []; rewrite app_nil_r; split; [done|apply talk_none]].
  apply pass_bind_run in Hk as (p2 & won & H2 & Hk). apply silent_run in H2; [|intros; by apply emits_claimed].
  assert (Hnone : p_sent p' = p_sent p -> exists new, p_sent p' = p_sent p ++ new
    /\ talk (p_sent p) (home, Op.SnapshotVolume (Objects.uid (metadata volume)) (Objects.uid (metadata x))) new).
  { intros ->. exists []. rewrite app_nil_r. split; [done|apply talk_none]. }
  destruct won as [[]|e]; [|injection Hk as <- _; apply Hnone; congruence|destruct Hk as [<- _]; apply Hnone; congruence].
  simpl in Hk. apply pass_bind_run in Hk as (p3 & guest & H3 & Hk).
  apply silent_run in H3; [|intros; apply emits_needs_quiesce].
  destruct guest as [guest|e]; [|destruct Hk as [<- _]; apply Hnone; congruence].
  apply pass_bind_run in Hk as (p4 & outcome & H4 & Hk). unfold attempt in H4.
  destruct (quiesced _ _ _ _) as [p5 y] eqn:Eq. injection H4 as <- <-.
  apply (quiesced_talk guest (home, _)) in Eq as (new & Hn & Ht); [|done].
  assert (Hs : p_sent p' = p_sent p5).
  { destruct y; [by injection Hk as <- _|]. eapply silent_run; [|exact Hk]. intros. apply emits_snapshot_failed. }
  assert (Hp : p_sent p3 = p_sent p) by congruence.
  exists new. rewrite Hs, Hn, Hp. rewrite Hp in Ht. done.
Qed.

Lemma grows_release_and_delete x f still :
  grows (release_and_delete (Sp := VolumeSnapshotSpec.t) (St := VolumeSnapshotStatus.t) prefix sur x f still).
Proof using Henv EtcdLaws0.
  unfold release_and_delete. apply grows_bind.
  - intros w w' r. unfold take_finalizer. destruct (mutate_if_with _ _ _ _ _ _ w) as [w1 y] eqn:E.
    apply (grows_mutate_if_with prefix sur Henv) in E. destruct y as [[[] o]|[]]; by intros [= <- <-].
  - intros [written|]; [|apply grows_ret]. by apply grows_finish_delete.
Qed.

(** While this replica's sessions stand, one turn over a copy says one of few
    things.  A copy that is going is dropped, where a node was ever told to take it,
    by one command to that node.  A copy that is staying is asked for only while it
    is pending, once; the guest that has to stand still is told to pause before and
    to resume after, whether or not the copy was taken, and where it did not
    acknowledge the pause nothing else is said.  Nothing else is ever said. *)
Theorem snapshot_turn_talk x p p' r :
  steady -> reconcile_snapshot prefix sur net requeue x p = (p', r) ->
  exists new, p_sent p' = p_sent p ++ new
    /\ (new = []
        \/ (is_some (deletion_timestamp (metadata x)) = true
            /\ exists node, VolumeSnapshotStatus.node (status x) = Some node
               /\ new = [(node, Op.DropSnapshot (Objects.uid (metadata x)))])
        \/ (is_some (deletion_timestamp (metadata x)) = false /\ snapshot_kind x = VolumeSnapshotPhaseKind.Pending
            /\ exists home disk, talk (p_sent p) (home, Op.SnapshotVolume disk (Objects.uid (metadata x))) new)).
Proof using Henv EtcdLaws0.
  intros Hst. unfold reconcile_snapshot.
  assert (Hnone : p_sent p' = p_sent p -> exists new, p_sent p' = p_sent p ++ new /\ new = [])
    by (intros ->; exists []; by rewrite app_nil_r).
  destruct (is_some _) eqn:Hd.
  - unfold drop_snapshot. destruct (VolumeSnapshotStatus.node (status x)) as [node|] eqn:En.
    2:{ intros Hr. apply silent_run in Hr; [|intros; apply emits_seq; [apply emits_st, grows_release_and_delete|intros; emit]].
        destruct (Hnone Hr) as (new & ? & ?). exists new. auto. }
    intros (p1 & up & H1 & Hk)%pass_bind_run. injection H1 as <- <-.
    destruct (existsb _ _); simpl in Hk; [|injection Hk as <- _; exists []; rewrite app_nil_r; auto].
    apply pass_bind_run in Hk as (p2 & ack & H2 & Hk).
    assert (Hs : p_sent p' = p_sent p2) by (destruct ack; [by injection Hk as <- _|by destruct Hk as [<- _]]).
    apply send_command_sent in H2 as (_ & _ & _ & [H2|[H2 _]]); rewrite Hs, H2.
    + eexists. split; [done|]. right. left. eauto.
    + exists []. rewrite app_nil_r. auto.
  - destruct (snapshot_kind x) eqn:Ek; intros Hr.
    2,3: injection Hr as <- _; exists []; rewrite app_nil_r; by auto.
    2:{ apply silent_run in Hr; [destruct (Hnone Hr) as (new & ? & ?); exists new; by auto|].
        intros. unfold requeue_snapshot. apply emits_seq; [apply emits_now|intros]. emit; [emit|].
        apply emits_seq; [unfold edit_snapshot; emit|intros; emit]. }
    apply pass_bind_run in Hr as (p1 & volume & H1 & Hk). apply silent_run in H1; [|intros; by apply emits_found].
    destruct volume as [[volume|]|e]; [| |destruct Hk as [<- _]; destruct (Hnone H1) as (new & ? & ?); exists new; by auto].
    2:{ apply silent_run in Hk; [|intros; apply emits_snapshot_failed].
        destruct (Hnone ltac:(congruence)) as (new & ? & ?). exists new. auto. }
    destruct (VolumeStatus.node (status volume)) as [home|] eqn:Eh, (volume_kind volume) eqn:Ev.
    3:{ apply send_snapshot_talk in Hk as (new & Hn & Ht); [|done]. exists new. rewrite Hn, H1. split; [done|].
        right. right. rewrite H1 in Ht. eauto. }
    all: injection Hk as <- _; destruct (Hnone ltac:(congruence)) as (new & ? & ?); exists new; by auto.
Qed.
End disk_facts.

(** * Runs *)

Inductive disk_bytes :=
| DiskVolume (v : Volume) | DiskPool (p : StoragePool) | DiskCopy (x : VolumeSnapshot) | DiskVm (v : Vm) | DiskNode (n : Node)
| Unreadable.

#[local] Instance disk_raw : RawJson disk_bytes := {| raw := fun _ => None |}.
#[local] Instance disk_volumes : Serde disk_bytes VolumeSpec.t VolumeStatus.t :=
  {| to_vec := fun v => Ok (DiskVolume v);
     from_slice := fun b => match b with DiskVolume v => Ok v | _ => Err "expected value" end |}.
#[local] Instance disk_volume_laws : SerdeLaws disk_bytes VolumeSpec.t VolumeStatus.t.
Proof. constructor. by intros o b [= <-]. Qed.
#[local] Instance disk_pools : Serde disk_bytes StoragePoolSpec.t StoragePoolStatus.t :=
  {| to_vec := fun v => Ok (DiskPool v);
     from_slice := fun b => match b with DiskPool v => Ok v | _ => Err "expected value" end |}.
#[local] Instance disk_copies : Serde disk_bytes VolumeSnapshotSpec.t VolumeSnapshotStatus.t :=
  {| to_vec := fun v => Ok (DiskCopy v);
     from_slice := fun b => match b with DiskCopy v => Ok v | _ => Err "expected value" end |}.
#[local] Instance disk_vms : Serde disk_bytes VmSpec.t VmStatus.t :=
  {| to_vec := fun v => Ok (DiskVm v);
     from_slice := fun b => match b with DiskVm v => Ok v | _ => Err "expected value" end |}.
#[local] Instance disk_nodes : Serde disk_bytes NodeSpec.t NodeStatus.t :=
  {| to_vec := fun v => Ok (DiskNode v);
     from_slice := fun b => match b with DiskNode v => Ok v | _ => Err "expected value" end |}.
#[local] Instance disk_vm_resource : Resource VmSpec.t VmStatus.t := vm_resource (fun _ => "").
#[local] Instance disk_status_json : StatusJson :=
  {| write_status e := ApiError.message e; read_status _ := None; status_text := show_N; lossy_trim s := s |}.

(** A copy of d1 somebody asked for. *)
Definition asked_copy : VolumeSnapshot :=
  object_new API_VERSION "VolumeSnapshot" "s1" "u-s1" 1%Z
    {| VolumeSnapshotSpec.tenant := "acme"; VolumeSnapshotSpec.volume := "d1"; VolumeSnapshotSpec.description := "" |}
    {| VolumeSnapshotStatus.phase := phase_of VolumeSnapshotPhaseKind.Pending 1%Z; VolumeSnapshotStatus.reported := None;
       VolumeSnapshotStatus.node := None; VolumeSnapshotStatus.backend := ""; VolumeSnapshotStatus.size_gib := 0;
       VolumeSnapshotStatus.observed_at := None; VolumeSnapshotStatus.requeue_attempts := 0;
       VolumeSnapshotStatus.last_requeue := None |}.

(** d1 with n1 as its home, its bytes not made yet. *)
Definition pending_disk : Volume :=
  with_status (DiskEdit.report None free_disk)
    (VolumeStatus.set_phase (status (DiskEdit.report None free_disk)) (phase_of VolumePhaseKind.Pending 1%Z)).

Definition deleted_disk : Volume :=
  with_metadata free_disk (set_deletion (metadata free_disk) (Some 1%Z)).

Definition disk_store (v : Volume) (copy : list (write disk_bytes)) : mem disk_bytes :=
  mem_commit mem_empty
    (Put "p/registry/volumes/d1" (DiskVolume v) NoLease :: Put "p/registry/storagepools/fast" (DiskPool ten_gib) NoLease :: copy).

Definition disk_pass (s : mem disk_bytes) : pass (mem disk_bytes) :=
  {| p_store := World s 0; p_sent := []; p_nodes := [example_candidate "n1" 600]; p_noted := []; p_told := [] |}.

(** What is stored, as a read of it decodes. *)
Definition stored_disk (p : pass (mem disk_bytes)) : option Volume :=
  kv ← look (db (p_store p)) "p/registry/volumes/d1"; result_ok (decode (kv_value kv) (mod_revision kv)).
Definition stored_copy (p : pass (mem disk_bytes)) : option VolumeSnapshot :=
  kv ← look (db (p_store p)) "p/registry/volumesnapshots/s1"; result_ok (decode (kv_value kv) (mod_revision kv)).

(** One request goes wrong. *)
Definition failing (n : nat) (how : fate) : surroundings (mem disk_bytes) :=
  {| env := fun _ s => s; fault := fun m => if Nat.eqb m n then how else Answered; clock := fun _ => 0%Z |}.

Definition copy_turn (sur : surroundings (mem disk_bytes)) (x : VolumeSnapshot) (p : pass (mem disk_bytes))
    : pass (mem disk_bytes) * result Failure.t unit := reconcile_snapshot "p" sur obliging CrashLoopBackoff x p.
Definition disk_turn (sur : surroundings (mem disk_bytes)) (v : Volume) (p : pass (mem disk_bytes))
    : pass (mem disk_bytes) * result Failure.t unit :=
  volume_turn "p" sur obliging CrashLoopBackoff ["n1"] (fun _ => "doc") [ten_gib] [] v p.

Definition copy_start : pass (mem disk_bytes) :=
  disk_pass (disk_store free_disk [Put "p/registry/volumesnapshots/s1" (DiskCopy asked_copy) NoLease]).
Definition disk_start : pass (mem disk_bytes) := disk_pass (disk_store pending_disk []).
(** d1 is deleted, and a record of a copy of it holds these bytes. *)
Definition gone_start (copy : disk_bytes) : pass (mem disk_bytes) :=
  disk_pass (disk_store deleted_disk [Put "p/registry/volumesnapshots/s1" copy NoLease]).

(** ** Witnesses *)

Definition listed_disk : Volume := unwrap_or pending_disk (stored_disk disk_start).
Definition listed_copy : VolumeSnapshot := unwrap_or asked_copy (stored_copy copy_start).

Lemma volume_turn_permitted_witness :
  p_sent (disk_turn quiet listed_disk disk_start).1 = [("n1", Op.ProvisionVolume "u-v" "doc" "")]
  /\ exists new, p_sent (disk_turn quiet listed_disk disk_start).1 = map snd new
     /\ Forall (fun '(s, c) => disk_permitted "p" quiet (db (p_store disk_start)) listed_disk s c) new.
Proof.
  split; [vm_compute; reflexivity|].
  destruct (volume_turn_permitted "p" quiet obliging quiet_lawful CrashLoopBackoff ["n1"] (fun _ => "doc") [ten_gib] []
    listed_disk disk_start (disk_turn quiet listed_disk disk_start).1 (disk_turn quiet listed_disk disk_start).2)
    as (new & Hs & Hf).
  - apply surjective_pairing.
  - exists new. split; [exact Hs|]. eapply Forall_impl; [exact Hf|]. by intros [s c] (_ & _ & Ha & _).
Defined.

Lemma snapshot_turn_talk_witness :
  p_sent (copy_turn quiet listed_copy copy_start).1 = [("n1", Op.SnapshotVolume "u-v" "u-s1")]
  /\ exists new, p_sent (copy_turn quiet listed_copy copy_start).1 = new
     /\ exists home disk, talk obliging [] (home, Op.SnapshotVolume disk "u-s1") new.
Proof.
  split; [vm_compute; reflexivity|].
  destruct (snapshot_turn_talk "p" quiet obliging quiet_lawful CrashLoopBackoff listed_copy copy_start
    (copy_turn quiet listed_copy copy_start).1 (copy_turn quiet listed_copy copy_start).2) as (new & Hs & Hor).
  - intros l l'. reflexivity.
  - apply surjective_pairing.
  - exists new. split; [exact Hs|]. destruct Hor as [->|[(Hd & _)|(_ & _ & H)]]; [|discriminate Hd|exact H].
    exists "", "". apply talk_none.
Defined.

(** ** Claims nobody acts on *)

(** C39. A claim written before a command can outlive the turn that took it, and then
    stands for good.  When the store does not answer the read that follows the claim
    of a copy, the turn ends with the copy marked Creating and nothing said to the
    node; when it does not answer the claim of a volume's bytes and has written it,
    the turn ends with the volume marked Provisioning and nothing said.  Every later
    turn over either, whatever the surroundings, the peers and the retry policy, says
    nothing, writes nothing and succeeds. *)
Theorem lost_claims_stand :
  (exists p' x e, copy_turn (failing 2 (Failed false None)) listed_copy copy_start = (p', Err e)
     /\ p_sent p' = [] /\ stored_copy p' = Some x /\ snapshot_kind x = VolumeSnapshotPhaseKind.Creating
     /\ forall sur net requeue p, reconcile_snapshot (D := mem disk_bytes) "p" sur net requeue x p = (p, Ok tt))
  /\ (exists p' v e, disk_turn (failing 2 (Failed true None)) listed_disk disk_start = (p', Err e)
     /\ p_sent p' = [] /\ stored_disk p' = Some v /\ volume_kind v = VolumePhaseKind.Provisioning
     /\ forall sur net requeue sessions render pools vms p,
          volume_turn (D := mem disk_bytes) "p" sur net requeue sessions render pools vms v p = (p, Ok tt)).
Proof.
  split.
  - set (run := copy_turn (failing 2 (Failed false None)) listed_copy copy_start).
    exists run.1, (unwrap_or asked_copy (stored_copy run.1)). eexists.
    do 4 (split; [vm_compute; reflexivity|]). intros sur net requeue p. reflexivity.
  - set (run := disk_turn (failing 2 (Failed true None)) listed_disk disk_start).
    exists run.1, (unwrap_or pending_disk (stored_disk run.1)). eexists.
    do 4 (split; [vm_compute; reflexivity|]). intros sur net requeue sessions render pools vms p.
    unfold volume_turn. replace (note_claimant _ _ _ _) with (ok (D := mem disk_bytes) tt) by (by vm_compute).
    destruct (negb _); reflexivity.
Qed.

(** ** A copy that cannot be read *)

(** A copy whose record does not decode does not hold its volume.  Of a deleted
    volume a readable copy stands on, nothing is destroyed and the volume says what
    it waits for; with the same record unreadable, its node is told to destroy the
    bytes. *)
Theorem unreadable_copy_ignored :
  let turn copy := disk_turn quiet (unwrap_or deleted_disk (stored_disk (gone_start copy))) (gone_start copy) in
  (turn (DiskCopy asked_copy)).2 = Ok tt /\ p_sent (turn (DiskCopy asked_copy)).1 = []
  /\ (stored_disk (turn (DiskCopy asked_copy)).1 ≫= fun v => VolumeStatus.holder (status v))
     = Some "held by snapshot s1; delete the snapshot first, or wait"
  /\ (turn Unreadable).2 = Ok tt /\ p_sent (turn Unreadable).1 = [("n1", Op.DeprovisionVolume "u-v")].
Proof. split_and!; vm_compute; reflexivity. Qed.
