(* ===== verification/Ingest.v ===== *)
(** What a node reports and what becomes of it:
    [src/components/cluster-controller/src/session/ingest.rs], the matching of
    [src/shared/controller-api/src/mirror.rs], and the desired state a reconnecting
    node is sent ([session/hello.rs]).  Every write re-asks, of the object it
    replaces, whether the reporter may speak for it; absence from a report means
    something only where the report says it is complete. *)
From Stdlib Require Import Ascii String NArith ZArith List Bool Lia.
From stdpp Require Import base list strings gmap relations.
From S2P Require Import Prelude RustStr Json Capability Heartbeat Vm Node Storage Sizing Placement Diagnosis.
From S2P Require Import Reservation Claims Commit Quota AddressSpace Gateways Lifecycle Dispatch Namespaces SpecDocs.
From S2P Require Import MigrationRules ClusterMigration Deletion PlacePass VmPass VolumePass.
From S2P Require Import Phase Objects Store StoreSafety Growth.

(** * Reports *)

Module NicReport.
Record t := { name : string; mac : string }.
End NicReport.

Module VmStatusReport.
Record t := { id : string; phase : string; message : string; attached_volumes : list string;
              reason : string; nics : list NicReport.t }.
End VmStatusReport.

Module VolumeStateReport.
Record t := { id : string; phase : string; message : string; backend : string; size_bytes : N;
              open_ : bool; reason : string }.
End VolumeStateReport.

Module SnapshotStateReport.
Record t := { snapshot_id : string; phase : string; backend : string; size_bytes : N; message : string; reason : string }.
End SnapshotStateReport.

Module RouterReport.
Record t := { id : string; phase : string; message : string; reason : string }.
End RouterReport.

(** [proto::NodeStatus], as far as it is read here. *)
Module ReportedNode.
Record t := { vcpus : N; mem_mib : N; conditions : list NodeCondition.t }.
End ReportedNode.

Module StatusReport.
Record t := { node : option ReportedNode.t; vms : list VmStatusReport.t; volumes : list VolumeStateReport.t;
              snapshots : list SnapshotStateReport.t; routers : list RouterReport.t; migrations : list MigrationReport.t; vms_complete : bool }.
End StatusReport.

#[export] Instance NodeCondition_eq_dec : EqDecision NodeCondition.t.
Proof. solve_decision. Defined.
#[export] Instance VmAddress_eq_dec : EqDecision VmAddress.t.
Proof. solve_decision. Defined.
#[export] Instance VolumeAttachmentStatus_eq_dec : EqDecision VolumeAttachmentStatus.t.
Proof. solve_decision. Defined.

Definition some_text (s : string) : option string := if str_is_empty s then None else Some s.

(** * Matching a report to its objects *)

Definition addresses_with (current : list VmAddress.t) (reported : list NicReport.t) : list VmAddress.t :=
  if is_nil reported then current
  else
    map (fun n => {| VmAddress.kind := VmAddressKind.Mac; VmAddress.nic := NicReport.name n;
                     VmAddress.mac := Some (NicReport.mac n); VmAddress.address := None |}) reported
    ++ List.filter (fun a => negb (bool_decide (VmAddress.kind a = VmAddressKind.Mac))) current.

Module Observation.
Inductive t :=
| Unknown
| NotBound (v : Vm)
| BadPhase (v : Vm)
| Changed (v : Vm) (phase : VmPhaseKind.t) (reason : VmReason.t) (message : option string).
End Observation.

(** The last VM of a uid wins in the index. *)
Definition by_uid (known : list Vm) (uid : string) : option Vm :=
  List.find (fun v : Vm => String.eqb (Objects.uid (metadata v)) uid) (rev known).

(** [observe] on one line; nothing where the line says what is known. *)
Definition observe (known : list Vm) (speaks_for : Vm -> bool) (line : VmStatusReport.t) : option Observation.t :=
  match by_uid known (VmStatusReport.id line) with
  | None => Some Observation.Unknown
  | Some v =>
      if negb (speaks_for v) then Some (Observation.NotBound v)
      else match kind_parse (VmStatusReport.phase line) with
           | None => Some (Observation.BadPhase v)
           | Some phase =>
               let '(reason, message) := reason_read (VmStatusReport.reason line) (some_text (VmStatusReport.message line)) in
               let candidate := phase_new phase reason message (ph_since (VmStatus.phase (status v))) in
               if bool_decide (VmStatus.phase (status v) = candidate) then None
               else Some (Observation.Changed v phase reason message)
           end
  end.

(** [ours]: bound elsewhere disqualifies the reporter; not bound at all does not. *)
Definition ours (node : string) (v : Vm) : bool :=
  is_none_or (fun bound => String.eqb bound node) (VmSpec.node_name (spec v)).

Definition letting_go (vms : list Vm) (node : string) (report : StatusReport.t) : list Vm :=
  if negb (StatusReport.vms_complete report) then []
  else
    List.filter (fun v : Vm => negb (existsb (fun r => String.eqb (VmStatusReport.id r) (Objects.uid (metadata v)))
                                       (StatusReport.vms report)))
      (List.filter (fun v : Vm => negb (is_some (VmSpec.node_name (spec v)))
                                  && bool_decide (VmStatus.node_name (status v) = Some node)) vms).

Definition attachment (n : string) (attached : bool) : VolumeAttachmentStatus.t :=
  {| VolumeAttachmentStatus.name := n; VolumeAttachmentStatus.attached := attached |}.

(** One turn of the loop of [observed_attachments]. *)
Definition note_held (wanted : list string) (observed : list VolumeAttachmentStatus.t) (n : string)
    : list VolumeAttachmentStatus.t :=
  if str_in n wanted || existsb (fun o => String.eqb (VolumeAttachmentStatus.name o) n) observed
  then observed else observed ++ [attachment n true].

Definition observed_attachments (v : Vm) (held : list string) : list VolumeAttachmentStatus.t :=
  let wanted := VmSpec.referenced_volumes (spec v) in
  foldl (note_held wanted)
    (map (fun n => attachment n (str_in n held)) wanted) held.

Definition attachments_settled (v : Vm) (observed : list VolumeAttachmentStatus.t) : bool :=
  let wanted := VmSpec.referenced_volumes (spec v) in
  forallb (fun w => existsb (fun o => VolumeAttachmentStatus.attached o && String.eqb (VolumeAttachmentStatus.name o) w)
                      observed) wanted
  && forallb (fun o => negb (VolumeAttachmentStatus.attached o) || str_in (VolumeAttachmentStatus.name o) wanted) observed.

(** * Nodes *)

Module NodeFacts.
Record t := { vcpus : N; mem_mib : N; vms : N; conditions : option (list NodeCondition.t) }.
End NodeFacts.

Definition node_facts_are_news (s : NodeStatus.t) (facts : NodeFacts.t) : bool :=
  negb (NodeStatus.ready s)
  || negb (N.eqb (NodeStatus.vms s) (NodeFacts.vms facts))
  || negb (N.eqb (NodeCapacity.vcpus (NodeStatus.capacity s)) (NodeFacts.vcpus facts))
  || negb (N.eqb (NodeCapacity.mem_mib (NodeStatus.capacity s)) (NodeFacts.mem_mib facts))
  || is_some_and (fun c => negb (bool_decide (c = NodeStatus.conditions s))) (NodeFacts.conditions facts).

(** The edit of [beat_node]. *)
Definition reported_up (facts : NodeFacts.t) (n : Node) : Node :=
  let s := status n in
  let c := NodeStatus.capacity s in
  with_status n
    {| NodeStatus.ready := true; NodeStatus.last_heartbeat := NodeStatus.last_heartbeat s;
       NodeStatus.agent_version := NodeStatus.agent_version s;
       NodeStatus.capacity :=
         {| NodeCapacity.vcpus := NodeFacts.vcpus facts; NodeCapacity.mem_mib := NodeFacts.mem_mib facts;
            NodeCapacity.capabilities := NodeCapacity.capabilities c;
            NodeCapacity.volume_localities := NodeCapacity.volume_localities c |};
       NodeStatus.vms := NodeFacts.vms facts; NodeStatus.session_endpoint := NodeStatus.session_endpoint s;
       NodeStatus.draining := NodeStatus.draining s;
       NodeStatus.conditions := unwrap_or (NodeStatus.conditions s) (NodeFacts.conditions facts);
       NodeStatus.machine := NodeStatus.machine s |}.

(** * Volumes *)

Definition VOLUME_GONE : string := "Gone".

Definition speaks_for_volume (v : Volume) (node : string) : bool :=
  bool_decide (VolumeStatus.node (status v) = Some node) || str_in node (VolumeStatus.open_on (status v)).

Definition volume_current (v : Volume) (at_ : instant) : bool :=
  is_current (deletion_timestamp (metadata v)) (VolumeStatus.observed_at (status v)) at_.

Definition note_open (v : Volume) (node : string) (open : bool) : Volume :=
  with_status v (if open then (VolumeStatus.open_here (status v) node).1 else (VolumeStatus.closed_here (status v) node).1).

Module GoneOutcome.
Inductive t := Tombstoned | HolderLetGo | NoWord.
End GoneOutcome.

(** What a report says of the bytes. *)
Definition set_observed (v : Volume) (reported : option VolumeReported) (node : option string) (backend : string)
    (size_gib : N) (at_ : instant) : Volume :=
  let s := status v in
  with_status v
    {| VolumeStatus.phase := VolumeStatus.phase s; VolumeStatus.reported := reported;
       VolumeStatus.holder := VolumeStatus.holder s; VolumeStatus.claimant_gone := VolumeStatus.claimant_gone s;
       VolumeStatus.backend := backend; VolumeStatus.node := node; VolumeStatus.open_on := VolumeStatus.open_on s;
       VolumeStatus.cluster := VolumeStatus.cluster s; VolumeStatus.attached_to := VolumeStatus.attached_to s;
       VolumeStatus.attached_uid := VolumeStatus.attached_uid s; VolumeStatus.size_gib := size_gib;
       VolumeStatus.untold_gib := VolumeStatus.untold_gib s;
       VolumeStatus.observed_generation := VolumeStatus.observed_generation s;
       VolumeStatus.observed_at := Some at_; VolumeStatus.requeue_attempts := VolumeStatus.requeue_attempts s;
       VolumeStatus.last_requeue := VolumeStatus.last_requeue s |}.

Definition apply_gone (v : Volume) (node : string) (open : bool) (at_ : instant) : GoneOutcome.t * Volume :=
  if negb (volume_current v at_) then (GoneOutcome.NoWord, v)
  else if negb (bool_decide (VolumeStatus.node (status v) = Some node)) then
    if negb (str_in node (VolumeStatus.open_on (status v))) then (GoneOutcome.NoWord, v)
    else (GoneOutcome.HolderLetGo, note_open v node open)
  else
    (GoneOutcome.Tombstoned,
     set_observed (note_open v node open)
       (Some (said_by node VolumePhaseKind.Pending VolumeReason.Deprovisioned
                (Some (node +:+ " no longer has the bytes")) at_)) None ""
       (VolumeStatus.size_gib (status v)) at_).

Definition GIB : N := 1024 * 1024 * 1024.

(** [u64::div_ceil]. *)
Definition div_ceil (a b : N) : N := if (a mod b =? 0)%N then (a / b)%N else (a / b + 1)%N.

(** The edit an ordinary volume report makes, where the reporter may speak. *)
Definition apply_volume_report (node : string) (said : VolumeReported) (line : VolumeStateReport.t) (size_gib : N)
    (at_ : instant) (v : Volume) : bool * Volume :=
  if negb (speaks_for_volume v node) || negb (volume_current v at_) then (false, v)
  else
    let opened := note_open v node (VolumeStateReport.open_ line) in
    (true,
     set_observed opened (Some said) (VolumeStatus.node (status v))
       (if str_is_empty (VolumeStateReport.backend line) then VolumeStatus.backend (status v)
        else VolumeStateReport.backend line)
       (if (0 <? size_gib)%N then size_gib else VolumeStatus.size_gib (status v)) at_).

(** Nothing in the report is new. *)
Definition volume_unchanged (v : Volume) (node : string) (said : VolumeReported) (line : VolumeStateReport.t)
    (size_gib : N) : bool :=
  is_some_and (fun held => same_word held said) (VolumeStatus.reported (status v))
  && N.eqb (VolumeStatus.size_gib (status v)) size_gib
  && Bool.eqb (str_in node (VolumeStatus.open_on (status v))) (VolumeStateReport.open_ line)
  && (str_is_empty (VolumeStateReport.backend line)
      || String.eqb (VolumeStatus.backend (status v)) (VolumeStateReport.backend line)).

(** * Copies *)

Definition SNAPSHOT_GONE : string := "Gone".

Definition taken_on (x : VolumeSnapshot) (node : string) : bool :=
  bool_decide (VolumeSnapshotStatus.node (status x) = Some node).

Definition snapshot_current (x : VolumeSnapshot) (at_ : instant) : bool :=
  is_current (deletion_timestamp (metadata x)) (VolumeSnapshotStatus.observed_at (status x)) at_.

(** What a report says of a copy. *)
Definition copy_observed (x : VolumeSnapshot) (reported : SnapshotReported) (node : option string) (backend : string)
    (size_gib : N) (at_ : instant) : VolumeSnapshot :=
  let s := status x in
  with_status x
    {| VolumeSnapshotStatus.phase := VolumeSnapshotStatus.phase s; VolumeSnapshotStatus.reported := Some reported;
       VolumeSnapshotStatus.node := node; VolumeSnapshotStatus.backend := backend;
       VolumeSnapshotStatus.size_gib := size_gib; VolumeSnapshotStatus.observed_at := Some at_;
       VolumeSnapshotStatus.requeue_attempts := VolumeSnapshotStatus.requeue_attempts s;
       VolumeSnapshotStatus.last_requeue := VolumeSnapshotStatus.last_requeue s |}.

(** The [gone_here] closure. *)
Definition gone_here (node : string) (x : VolumeSnapshot) : bool :=
  is_some (deletion_timestamp (metadata x)) && taken_on x node.

(** A copy that is staying and whose bytes are gone is taken again. *)
Definition take_again (node : string) (at_ : instant) (x : VolumeSnapshot) : VolumeSnapshot :=
  if negb (taken_on x node) || is_some (deletion_timestamp (metadata x)) then x
  else copy_observed x (said_here VolumeSnapshotPhaseKind.Pending VolumeSnapshotReason.SourceGone
                          (Some (node +:+ " no longer has this copy")) at_) None ""
         (VolumeSnapshotStatus.size_gib (status x)) at_.

(** The edit an ordinary report of a copy makes. *)
Definition apply_snapshot_report (node : string) (said : SnapshotReported) (line : SnapshotStateReport.t) (size_gib : N)
    (at_ : instant) (x : VolumeSnapshot) : VolumeSnapshot :=
  if negb (taken_on x node) || negb (snapshot_current x at_) then x
  else
    copy_observed x said (VolumeSnapshotStatus.node (status x))
      (if str_is_empty (SnapshotStateReport.backend line) then VolumeSnapshotStatus.backend (status x)
       else SnapshotStateReport.backend line)
      (if (0 <? size_gib)%N then size_gib else VolumeSnapshotStatus.size_gib (status x)) at_.

(** Nothing in the report is new. *)
Definition snapshot_unchanged (x : VolumeSnapshot) (said : SnapshotReported) (line : SnapshotStateReport.t) (size_gib : N) : bool :=
  is_some_and (fun held => same_word held said) (VolumeSnapshotStatus.reported (status x))
  && N.eqb (VolumeSnapshotStatus.size_gib (status x)) size_gib
  && (str_is_empty (SnapshotStateReport.backend line)
      || String.eqb (VolumeSnapshotStatus.backend (status x)) (SnapshotStateReport.backend line)).

(** * Routers *)

Definition ROUTER_READY : string := "Ready".
Definition ROUTER_FAILED : string := "Failed".

Definition held_here (stored : list Router) (reported : string) : option Router :=
  List.find (fun r : Router => String.eqb (Objects.uid (metadata r)) reported) stored.

Definition observed_phase (said : string) (speaks : bool) : option RouterPhaseKind.t :=
  if String.eqb said ROUTER_FAILED then Some RouterPhaseKind.Failed
  else if String.eqb said ROUTER_READY then
    Some (if speaks then RouterPhaseKind.Active else RouterPhaseKind.Standby)
  else None.

(** The node's word, where it is on the router's list and speaks as it did. *)
Definition apply_router_word (node : string) (speaks : bool) (said : RouterReported) (r : Router) : bool * Router :=
  let s := status r in
  if str_in node (RouterStatus.nodes s) && Bool.eqb (String.eqb (RouterStatus.active_node s) node) speaks then
    (true, with_status r (RouterStatus.mk (RouterStatus.phase s) (Some said) (RouterStatus.external_addr s)
       (RouterStatus.cluster s) (RouterStatus.nodes s) (RouterStatus.active_node s) (RouterStatus.nats s)
       (RouterStatus.refused s) (RouterStatus.releasing s) (RouterStatus.announced s)
       (RouterStatus.observed_generation s)))
  else (false, r).

(** * VMs *)

(** The edit of [ingest_phases]. *)
Definition apply_phase (node : string) (phase : VmPhaseKind.t) (reason : VmReason.t) (message : option string)
    (at_ : instant) (v : Vm) : bool * Vm :=
  if is_some_and (fun bound => negb (String.eqb bound node)) (VmSpec.node_name (spec v)) then (false, v)
  else
    (true,
     VmEdit.on_status
       (fun s => VmEdit.set_observed_at (Some at_) (VmEdit.set_node_name (VmSpec.node_name (spec v))
          (VmEdit.set_silence None (VmEdit.set_reported (Some (said_by node phase reason message at_)) s)))) v).

(** The edit of [forget_unbound]. *)
Definition apply_let_go (node : string) (at_ : instant) (v : Vm) : bool * Vm :=
  if negb (is_some (VmSpec.node_name (spec v))) && bool_decide (VmStatus.node_name (status v) = Some node) then
    (true,
     VmEdit.on_status
       (fun s => VmEdit.set_observed_at (Some at_)
          (VmEdit.set_reschedules (sat_add u32_max (VmStatus.reschedules s) 1) (VmEdit.set_volumes []
             (VmEdit.set_silence None
                (VmEdit.set_reported
                   (Some (said_here VmPhaseKind.Pending VmReason.Unbound
                            (Some ("node " +:+ node +:+ " let go; waiting to be placed")) at_))
                   (VmEdit.set_node_name None s)))))) v)
  else (false, v).

(** The edit of [ingest_attachments]. *)
Definition apply_attachments (node : string) (held : list string) (at_ : instant) (v : Vm) : bool * Vm :=
  if negb (ours node v) then (false, v)
  else
    let observed := observed_attachments v held in
    (true,
     VmEdit.on_status
       (fun s =>
          let s := VmEdit.set_volumes observed s in
          let s := if attachments_settled v observed
                   then VmEdit.set_observed_generation (N.max (VmStatus.observed_generation s) (generation (metadata v))) s
                   else s in
          VmEdit.set_observed_at (Some at_) s) v).

Definition set_addresses (addresses : list VmAddress.t) (s : VmStatus.t) : VmStatus.t :=
  {| VmStatus.phase := VmStatus.phase s; VmStatus.reported := VmStatus.reported s; VmStatus.silence := VmStatus.silence s;
     VmStatus.placement := VmStatus.placement s; VmStatus.observed_generation := VmStatus.observed_generation s;
     VmStatus.node_name := VmStatus.node_name s; VmStatus.cluster_name := VmStatus.cluster_name s;
     VmStatus.observed_at := VmStatus.observed_at s; VmStatus.addresses := addresses;
     VmStatus.volumes := VmStatus.volumes s; VmStatus.reschedules := VmStatus.reschedules s;
     VmStatus.refused_by := VmStatus.refused_by s; VmStatus.requeue_attempts := VmStatus.requeue_attempts s;
     VmStatus.last_requeue := VmStatus.last_requeue s; VmStatus.evacuating := VmStatus.evacuating s;
     VmStatus.handed_down := VmStatus.handed_down s; VmStatus.hand_down_refused := VmStatus.hand_down_refused s;
     VmStatus.bound_at := VmStatus.bound_at s |}.

Definition all_known (vms : list Vm) (reported : list VmStatusReport.t) : bool :=
  forallb (fun line => existsb (fun v : Vm => String.eqb (Objects.uid (metadata v)) (VmStatusReport.id line)) vms) reported.

(** * Introductions *)

Module DriverInfo.
Record t := { name : string; profiles : list string; locality : string }.
End DriverInfo.

Module Hello.
Record t := { node_id : string; agent_version : string; drivers : list DriverInfo.t;
              machine : option MachineProfile.t }.
End Hello.

Definition capacity_localities (drivers : list DriverInfo.t) : smap Locality.t :=
  foldl (fun out d =>
           match Locality.parse (DriverInfo.locality d) with
           | None => out
           | Some l => foldl (fun out p => sinsert p l out) out (DriverInfo.profiles d)
           end)
    [] (List.filter (fun d => String.eqb (DriverInfo.name d) VOLUME) drivers).

Definition capacity_profiles (drivers : list DriverInfo.t) : list string :=
  concat (map (fun d =>
    if is_nil (DriverInfo.profiles d) then [entry (DriverInfo.name d) None]
    else map (fun p => entry (DriverInfo.name d) (Some p)) (DriverInfo.profiles d)) drivers).

(** The closure of [ingest_hello]; the conditions stay. *)
Definition introduced (hello : Hello.t) (advertise : option string) (n : Node) : Node :=
  let s := status n in
  let c := NodeStatus.capacity s in
  with_status n
    {| NodeStatus.ready := true; NodeStatus.last_heartbeat := NodeStatus.last_heartbeat s;
       NodeStatus.agent_version := Some (Hello.agent_version hello);
       NodeStatus.capacity :=
         {| NodeCapacity.vcpus := NodeCapacity.vcpus c; NodeCapacity.mem_mib := NodeCapacity.mem_mib c;
            NodeCapacity.capabilities := capacity_profiles (Hello.drivers hello);
            NodeCapacity.volume_localities := capacity_localities (Hello.drivers hello) |};
       NodeStatus.vms := NodeStatus.vms s; NodeStatus.session_endpoint := advertise;
       NodeStatus.draining := NodeStatus.draining s; NodeStatus.conditions := NodeStatus.conditions s;
       NodeStatus.machine := match Hello.machine hello with Some m => Some m | None => NodeStatus.machine s end |}.

(** The write of [on_disconnect]. *)
Definition disconnected (n : Node) : Node :=
  let s := status n in
  with_status n
    {| NodeStatus.ready := false; NodeStatus.last_heartbeat := NodeStatus.last_heartbeat s;
       NodeStatus.agent_version := NodeStatus.agent_version s; NodeStatus.capacity := NodeStatus.capacity s;
       NodeStatus.vms := NodeStatus.vms s; NodeStatus.session_endpoint := None;
       NodeStatus.draining := NodeStatus.draining s; NodeStatus.conditions := NodeStatus.conditions s;
       NodeStatus.machine := NodeStatus.machine s |}.

(** [NodeStatus::default]. *)
Definition unheard : NodeStatus.t :=
  {| NodeStatus.ready := false; NodeStatus.last_heartbeat := None; NodeStatus.agent_version := None;
     NodeStatus.capacity := {| NodeCapacity.vcpus := 0; NodeCapacity.mem_mib := 0; NodeCapacity.capabilities := [];
                               NodeCapacity.volume_localities := [] |};
     NodeStatus.vms := 0; NodeStatus.session_endpoint := None; NodeStatus.draining := None;
     NodeStatus.conditions := []; NodeStatus.machine := None |}.

(** A new session asks the node again. *)
Definition forgets_refusal (node : string) (r : Router) : Router :=
  let s := status r in
  with_status r (RouterStatus.mk (RouterStatus.phase s) (RouterStatus.reported s) (RouterStatus.external_addr s)
    (RouterStatus.cluster s) (RouterStatus.nodes s) (RouterStatus.active_node s) (RouterStatus.nats s)
    (List.filter (fun n => negb (String.eqb n node)) (RouterStatus.refused s)) (RouterStatus.releasing s)
    (RouterStatus.announced s) (RouterStatus.observed_generation s)).

(** * Ingest *)

Section ingest.
Context {D Bytes : Type} `{!Etcd D Bytes, !RawJson Bytes, !StatusJson}.
Context `{!Serde Bytes NodeSpec.t NodeStatus.t, !Serde Bytes VmSpec.t VmStatus.t, !Resource VmSpec.t VmStatus.t,
  !Serde Bytes VmMigrationSpec.t VmMigrationStatus.t, !Serde Bytes VolumeSpec.t VolumeStatus.t,
  !Serde Bytes VolumeSnapshotSpec.t VolumeSnapshotStatus.t,
  !Serde Bytes RouterSpec.t RouterStatus.t, !Serde Bytes EventSpec.t unit, !Serde Bytes SecretSpec.t unit}.
Variable prefix : string.
Variable sur : surroundings D.
(** [serde_json] of a [Lease], the leases of events, fresh identifiers. *)
Variable lease_bytes : instant -> Bytes.
Variable new_lease : Z -> nat -> Z.
Variable new_uid : nat -> string.
(** Opening a sealed value, printing a document. *)
Variable kek : option (string -> string -> result string string).
Variable render : value -> string.

(** An event; best effort. *)
Definition record_event (kind nm uid message : string) (event_type : EventType.t) (tenant : option string)
    : pass_m D unit := fun p =>
  (set_store p (record prefix sur new_lease new_uid kind nm uid "PhaseChanged" message event_type tenant (p_store p)), Ok tt).

(** [EtcdStore::beat]. *)
Definition beat (nm : string) (at_ : instant) : store_m D unit :=
  timed sur "lease_put" (fun s =>
    (etcd_put s (prefix +:+ "/leases/" +:+ RESOURCE (Sp := NodeSpec.t) (St := NodeStatus.t) +:+ "/" +:+ nm) (lease_bytes at_), tt)).

Definition beat_node (node : string) (report : StatusReport.t) : pass_m D unit :=
  let facts := StatusReport.node report in
  at_ ← now_ sur;
  _ ← st (beat node at_);
  current ← st (get (Sp := NodeSpec.t) (St := NodeStatus.t) prefix sur node);
  let capacity := NodeStatus.capacity (status current) in
  let news :=
    {| NodeFacts.vcpus := match facts with Some f => ReportedNode.vcpus f | None => NodeCapacity.vcpus capacity end;
       NodeFacts.mem_mib := match facts with Some f => ReportedNode.mem_mib f | None => NodeCapacity.mem_mib capacity end;
       NodeFacts.vms := N.of_nat (length (StatusReport.vms report)) mod (u32_max + 1);
       NodeFacts.conditions := option_map ReportedNode.conditions facts |}%N in
  if negb (node_facts_are_news (status current) news) then ok tt
  else
    _ ← st (mutate (Sp := NodeSpec.t) (St := NodeStatus.t) prefix sur node (reported_up news)); ok tt.

(** One volume line; what fails to be written is logged. *)
Definition ingest_volume (node : string) (at_ : instant) (volumes : list Volume) (line : VolumeStateReport.t)
    : pass_m D unit :=
  match List.find (fun v : Volume => String.eqb (Objects.uid (metadata v)) (VolumeStateReport.id line)) volumes with
  | None => ok tt
  | Some volume =>
      let nm := name (metadata volume) in
      if negb (speaks_for_volume volume node) || negb (volume_current volume at_) then ok tt
      else if String.eqb (VolumeStateReport.phase line) VOLUME_GONE then
        _ ← try_store (mutate_if_with (Sp := VolumeSpec.t) (St := VolumeStatus.t) prefix sur nm (VolumeStateReport.id line)
              (fun _ v => apply_gone v node (VolumeStateReport.open_ line) at_) GoneOutcome.NoWord);
        ok tt
      else match kind_parse (VolumeStateReport.phase line) with
           | None => ok tt
           | Some phase =>
               let '(reason, message) :=
                 reason_read (VolumeStateReport.reason line) (some_text (VolumeStateReport.message line)) in
               let size_gib := div_ceil (VolumeStateReport.size_bytes line) GIB in
               let said := said_by node phase reason message at_ in
               if volume_unchanged volume node said line size_gib then ok tt
               else
                 _ ← try_store (mutate_if_with prefix sur nm (VolumeStateReport.id line)
                       (fun _ v => apply_volume_report node said line size_gib at_ v) false);
                 ok tt
           end
  end.

Fixpoint ingest_each_volume (node : string) (at_ : instant) (volumes : list Volume) (lines : list VolumeStateReport.t)
    : pass_m D unit :=
  match lines with
  | [] => ok tt
  | line :: lines => _ ← ingest_volume node at_ volumes line; ingest_each_volume node at_ volumes lines
  end.

Definition ingest_volumes (node : string) (report : StatusReport.t) : pass_m D unit :=
  if is_nil (StatusReport.volumes report) then ok tt
  else
    at_ ← now_ sur;
    volumes ← st (list_ (Sp := VolumeSpec.t) (St := VolumeStatus.t) prefix sur);
    ingest_each_volume node at_ volumes (StatusReport.volumes report).

(** One line about a copy; a delete that fails ends the report's copies. *)
Definition ingest_snapshot (node : string) (at_ : instant) (snapshots : list VolumeSnapshot) (line : SnapshotStateReport.t)
    : pass_m D unit :=
  match List.find (fun x : VolumeSnapshot => String.eqb (Objects.uid (metadata x)) (SnapshotStateReport.snapshot_id line)) snapshots with
  | None => ok tt
  | Some x =>
      let nm := name (metadata x) in
      if negb (taken_on x node) || negb (snapshot_current x at_) then ok tt
      else if String.eqb (SnapshotStateReport.phase line) SNAPSHOT_GONE then
        if is_some (deletion_timestamp (metadata x)) then
          _ ← st (release_and_delete prefix sur x VOLUME_RELEASE_FINALIZER (gone_here node)); ok tt
        else
          _ ← try_store (mutate_if prefix sur nm (SnapshotStateReport.snapshot_id line) (take_again node at_)); ok tt
      else match kind_parse (SnapshotStateReport.phase line) with
           | None => ok tt
           | Some phase =>
               let '(reason, message) :=
                 reason_read (SnapshotStateReport.reason line) (some_text (SnapshotStateReport.message line)) in
               let size_gib := div_ceil (SnapshotStateReport.size_bytes line) GIB in
               let said := said_by node phase reason message at_ in
               if snapshot_unchanged x said line size_gib then ok tt
               else
                 _ ← try_store (mutate_if prefix sur nm (SnapshotStateReport.snapshot_id line)
                       (apply_snapshot_report node said line size_gib at_));
                 ok tt
           end
  end.

Fixpoint ingest_each_snapshot (node : string) (at_ : instant) (snapshots : list VolumeSnapshot)
    (lines : list SnapshotStateReport.t) : pass_m D unit :=
  match lines with
  | [] => ok tt
  | line :: lines => _ ← ingest_snapshot node at_ snapshots line; ingest_each_snapshot node at_ snapshots lines
  end.

Definition ingest_snapshots (node : string) (report : StatusReport.t) : pass_m D unit :=
  if is_nil (StatusReport.snapshots report) then ok tt
  else
    at_ ← now_ sur;
    snapshots ← st (list_ (Sp := VolumeSnapshotSpec.t) (St := VolumeSnapshotStatus.t) prefix sur);
    ingest_each_snapshot node at_ snapshots (StatusReport.snapshots report).

Definition let_go (node : string) (at_ : instant) (v : Vm) : pass_m D (result StoreError.t (bool * Vm)) :=
  try_store (mutate_if_with prefix sur (name (metadata v)) (Objects.uid (metadata v))
               (fun _ x => apply_let_go node at_ x) false).

Fixpoint let_go_each (node : string) (at_ : instant) (leaving : list Vm) : pass_m D unit :=
  match leaving with
  | [] => ok tt
  | v :: leaving => _ ← let_go node at_ v; let_go_each node at_ leaving
  end.

Definition forget_unbound (vms : list Vm) (node : string) (report : StatusReport.t) (at_ : instant) : pass_m D unit :=
  let_go_each node at_ (letting_go vms node report).

(** The lines with something to settle about a VM's disks. *)
Definition relevant (vms : list Vm) (node : string) (report : StatusReport.t) : list (Vm * VmStatusReport.t) :=
  filter_map (fun r =>
    v ← List.find (fun v : Vm => String.eqb (Objects.uid (metadata v)) (VmStatusReport.id r)) vms;
    if ours node v && (negb (is_nil (VmSpec.referenced_volumes (spec v))) || negb (is_nil (VmStatus.volumes (status v)))
                       || negb (is_nil (VmStatusReport.attached_volumes r)))
    then Some (v, r) else None) (StatusReport.vms report).

Definition ingest_attachment (node : string) (at_ : instant) (names : smap string) (v : Vm) (line : VmStatusReport.t)
    : pass_m D unit :=
  let held := filter_map (fun uid => sget uid names) (VmStatusReport.attached_volumes line) in
  if bool_decide (VmStatus.volumes (status v) = observed_attachments v held) then ok tt
  else
    _ ← try_store (mutate_if_with prefix sur (name (metadata v)) (VmStatusReport.id line)
          (fun _ x => apply_attachments node held at_ x) false);
    ok tt.

Fixpoint ingest_each_attachment (node : string) (at_ : instant) (names : smap string)
    (lines : list (Vm * VmStatusReport.t)) : pass_m D unit :=
  match lines with
  | [] => ok tt
  | (v, line) :: lines => _ ← ingest_attachment node at_ names v line; ingest_each_attachment node at_ names lines
  end.

Definition ingest_attachments (vms : list Vm) (node : string) (report : StatusReport.t) (at_ : instant) : pass_m D unit :=
  let lines := relevant vms node report in
  if is_nil lines then ok tt
  else
    volumes ← st (list_ (Sp := VolumeSpec.t) (St := VolumeStatus.t) prefix sur);
    let names := foldl (fun m (v : Volume) => sinsert (Objects.uid (metadata v)) (name (metadata v)) m) [] volumes in
    ingest_each_attachment node at_ names lines.

Fixpoint ingest_addresses (vms : list Vm) (node : string) (lines : list VmStatusReport.t) : pass_m D unit :=
  match lines with
  | [] => ok tt
  | line :: lines =>
      _ ← (if is_nil (VmStatusReport.nics line) then ok tt
           else match List.find (fun v : Vm => String.eqb (Objects.uid (metadata v)) (VmStatusReport.id line)) vms with
                | None => ok tt
                | Some v =>
                    if negb (ours node v)
                       || bool_decide (VmStatus.addresses (status v)
                                       = addresses_with (VmStatus.addresses (status v)) (VmStatusReport.nics line))
                    then ok tt
                    else
                      _ ← try_store (mutate_if prefix sur (name (metadata v)) (VmStatusReport.id line)
                            (fun x : Vm => if ours node x then
                               VmEdit.on_status (fun s => set_addresses
                                 (addresses_with (VmStatus.addresses s) (VmStatusReport.nics line)) s) x else x));
                      ok tt
                end);
      ingest_addresses vms node lines
  end.

Definition note_phase (nm uid : string) (phase : VmPhaseKind.t) (message tenant : option string) : pass_m D unit :=
  record_event "Vm" nm uid
    (match message with
     | Some said => VmPhaseKind.as_str phase +:+ " (" +:+ said +:+ ")"
     | None => VmPhaseKind.as_str phase
     end)
    (match phase with VmPhaseKind.Failed | VmPhaseKind.Quarantined => EventType.Warning | _ => EventType.Normal end) tenant.

Definition ingest_phase (vms : list Vm) (node : string) (at_ : instant) (line : VmStatusReport.t) : pass_m D unit :=
  match observe vms (ours node) line with
  | Some (Observation.Changed v phase reason message) =>
      let nm := name (metadata v) in
      r ← try_store (mutate_if_with prefix sur nm (VmStatusReport.id line)
            (fun _ x => apply_phase node phase reason message at_ x) false);
      match r with
      | Ok (true, _) => note_phase nm (VmStatusReport.id line) phase message (VmSpec.tenant (spec v))
      | _ => ok tt
      end
  | _ => ok tt
  end.

Fixpoint ingest_phases (vms : list Vm) (node : string) (at_ : instant) (lines : list VmStatusReport.t) : pass_m D unit :=
  match lines with
  | [] => ok tt
  | line :: lines => _ ← ingest_phase vms node at_ line; ingest_phases vms node at_ lines
  end.

(** [ingest_status] after the listing. *)
Definition ingest_vms (vms : list Vm) (node : string) (report : StatusReport.t) : pass_m D unit :=
  at_ ← now_ sur;
  _ ← attempt (forget_unbound vms node report at_);
  _ ← attempt (ingest_attachments vms node report at_);
  _ ← attempt (ingest_addresses vms node (StatusReport.vms report));
  _ ← attempt (ingest_reports prefix sur vms node (StatusReport.migrations report));
  ingest_phases vms node at_ (StatusReport.vms report).

(** [cached] is the index's list while it is young enough to be used again. *)
Definition vm_listing (cached : option (list Vm)) (report : StatusReport.t) : pass_m D (list Vm) :=
  match cached with
  | Some vms =>
      if all_known vms (StatusReport.vms report) then ok vms
      else st (list_ (Sp := VmSpec.t) (St := VmStatus.t) prefix sur)
  | None => st (list_ (Sp := VmSpec.t) (St := VmStatus.t) prefix sur)
  end.

Definition ingest_status (cached : option (list Vm)) (node : string) (report : StatusReport.t) : pass_m D unit :=
  _ ← beat_node node report;
  _ ← attempt (ingest_volumes node report);
  _ ← attempt (ingest_snapshots node report);
  vms ← vm_listing cached report;
  ingest_vms vms node report.

(** A router's line; the uid of one nothing stores comes back. *)
Definition ingest_router (node : string) (stored : list Router) (line : RouterReport.t) : pass_m D (option string) :=
  match held_here stored (RouterReport.id line) with
  | None => ok (Some (RouterReport.id line))
  | Some router =>
      let s := status router in
      let speaks := String.eqb (RouterStatus.active_node s) node in
      if negb (str_in node (RouterStatus.nodes s)) then ok None
      else match observed_phase (RouterReport.phase line) speaks with
           | None => ok None
           | Some phase =>
               if negb speaks && negb (bool_decide (phase = RouterPhaseKind.Failed)) then ok None
               else
                 let message := option_map (fun m => if speaks then m else node +:+ ": " +:+ m)
                                  (some_text (RouterReport.message line)) in
                 let '(reason, message) := reason_read (RouterReport.reason line) message in
                 at_ ← now_ sur;
                 let said := said_by node phase reason message at_ in
                 if is_some_and (fun held => same_word held said) (RouterStatus.reported s) then ok None
                 else
                   let nm := name (metadata router) in
                   let uid := Objects.uid (metadata router) in
                   r ← try_store (mutate_if_with prefix sur nm uid (fun _ x => apply_router_word node speaks said x) false);
                   match r with
                   | Ok (true, _) =>
                       _ ← record_event "Router" nm uid
                             (match message with
                              | Some said => RouterPhaseKind.as_str phase +:+ " (" +:+ said +:+ ")"
                              | None => RouterPhaseKind.as_str phase
                              end)
                             (if bool_decide (phase = RouterPhaseKind.Failed) then EventType.Warning else EventType.Normal)
                             (Some (RouterSpec.tenant (spec router)));
                       ok None
                   | _ => ok None
                   end
           end
  end.

Fixpoint ingest_each_router (node : string) (stored : list Router) (lines : list RouterReport.t) : pass_m D (list string) :=
  match lines with
  | [] => ok []
  | line :: lines =>
      orphan ← ingest_router node stored line;
      rest ← ingest_each_router node stored lines;
      ok (match orphan with Some id => id :: rest | None => rest end)
  end.

Definition ingest_routers (node : string) (report : StatusReport.t) : pass_m D (list string) :=
  if is_nil (StatusReport.routers report) then ok []
  else
    stored ← st (list_ (Sp := RouterSpec.t) (St := RouterStatus.t) prefix sur);
    ingest_each_router node stored (StatusReport.routers report).

(** ** A node that introduces itself *)

Fixpoint forget_each_refusal (node : string) (routers : list Router) : pass_m D unit :=
  match routers with
  | [] => ok tt
  | r :: routers =>
      _ ← try_store (mutate_if prefix sur (name (metadata r)) (Objects.uid (metadata r)) (forgets_refusal node));
      forget_each_refusal node routers
  end.

Definition forget_router_refusals (node : string) : pass_m D unit :=
  r ← try_store (list_ (Sp := RouterSpec.t) (St := RouterStatus.t) prefix sur);
  match r with
  | Err _ => ok tt
  | Ok routers =>
      forget_each_refusal node (List.filter (fun r : Router => str_in node (RouterStatus.refused (status r))) routers)
  end.

(** The object is created on first sight; whoever creates it, it is written. *)
Definition create_unknown (nm : string) : pass_m D unit :=
  r ← try_store (get (Sp := NodeSpec.t) (St := NodeStatus.t) prefix sur nm);
  match r with
  | Err (StoreError.NotFound _) =>
      at_ ← now_ sur;
      uid ← fresh_uid new_uid;
      c ← try_store (create prefix sur (object_new API_VERSION "Node" nm uid at_ NodeSpec.default unheard : Node));
      match c with
      | Ok _ | Err (StoreError.AlreadyExists _) => ok tt
      | Err e => raise (Failure.of_store e)
      end
  | _ => ok tt
  end.

Definition ingest_hello (hello : Hello.t) (advertise : option string) : pass_m D unit :=
  let nm := Hello.node_id hello in
  _ ← create_unknown nm;
  _ ← st (mutate (Sp := NodeSpec.t) (St := NodeStatus.t) prefix sur nm (introduced hello advertise));
  at_ ← now_ sur;
  _ ← st (beat nm at_);
  forget_router_refusals nm.

(** Of a session nothing replaced. *)
Definition on_disconnect (node : string) : pass_m D unit :=
  _ ← try_store (mutate (Sp := NodeSpec.t) (St := NodeStatus.t) prefix sur node disconnected);
  ok tt.

(** ** The desired state of a reconnecting node *)

(** [.with_context(|| format!("vm {}", ...))]. *)
Definition in_context {A} (c : string) (m : pass_m D A) : pass_m D A := fun p =>
  match m p with (p', Err e) => (p', Err (Failure.context c e)) | r => r end.

Definition desired_instance (v : Vm) : pass_m D (string * string) :=
  let ctx := "vm " +:+ name (metadata v) in
  uids ← in_context ctx (st (volume_uids prefix sur v));
  seed ← seed_for prefix sur kek v;
  match seed_value seed with
  | Err why => bail (ctx +:+ ": " +:+ why +:+ "; a snapshot without it would read as its deletion")
  | Ok seed =>
      match build_spec_json v uids seed with
      | Err why => raise (Failure.context ctx (Failure.msg why))
      | Ok doc => ok (Objects.uid (metadata v), render doc)
      end
  end.

Fixpoint desired_of (node : string) (vms : list Vm) : pass_m D (list (string * string)) :=
  match vms with
  | [] => ok []
  | v :: vms =>
      if is_deleting v || negb (bool_decide (VmSpec.node_name (spec v) = Some node)) then desired_of node vms
      else
        instance ← desired_instance v;
        rest ← desired_of node vms;
        ok (instance :: rest)
  end.

Definition desired_snapshot (node : string) : pass_m D (list (string * string)) :=
  vms ← st (list_ (Sp := VmSpec.t) (St := VmStatus.t) prefix sur);
  stored ← st (count (Sp := VmSpec.t) (St := VmStatus.t) prefix sur);
  if negb (Nat.eqb (length vms) stored) then
    (* the difference is unsigned and wraps when a VM was created in between *)
    bail (show_N ((N.of_nat stored + (u64_max + 1) - N.of_nat (length vms)) mod (u64_max + 1)) +:+ " of "
          +:+ show_N (N.of_nat stored) +:+ " vm objects did not decode; a snapshot missing them would read as their deletion")
  else desired_of node vms.
End ingest.

(** * Attachments *)

Lemma in_foldl_extra wanted held : forall (l : list VolumeAttachmentStatus.t) o,
  In o (foldl (note_held wanted) l held)
  -> In o l \/ (VolumeAttachmentStatus.attached o = true /\ In (VolumeAttachmentStatus.name o) held
               /\ ~ In (VolumeAttachmentStatus.name o) wanted).
Proof.
  induction held as [|n held IH]; simpl; intros l o; [by left|]. unfold note_held at 2.
  destruct (str_in n wanted || _) eqn:E; intros [H|H]%IH; try (right; tauto); [by left|].
  apply orb_false_iff in E as [Ew _]. apply in_app_iff in H as [|[<-|[]]]; [by left|right]. simpl. split_and!; [done|by left|].
  rewrite <- str_in_spec. by rewrite Ew.
Qed.

Lemma foldl_extra_keeps wanted held : forall l,
  (forall o, In o l -> In o (foldl (note_held wanted) l held))
  /\ (forall n, In n held -> ~ In n wanted -> exists o, VolumeAttachmentStatus.name o = n
      /\ In o (foldl (note_held wanted) l held)).
Proof.
  induction held as [|n held IH]; simpl; intros l; [naive_solver|]. unfold note_held at 2 4.
  destruct (str_in n wanted || _) eqn:E; [destruct (IH l) as [H1 H2]|destruct (IH (l ++ [attachment n true])) as [H1 H2]];
    (split; [intros o Ho|intros m [<-|Hm] Hw; [|by apply H2]]).
  - by apply H1.
  - apply orb_true_iff in E as [E|E]; [by apply str_in_spec in E|].
    apply existsb_exists in E as (o & Ho & Hn%String.eqb_eq). eauto.
  - apply H1, in_app_iff. by left.
  - exists (attachment n true). split; [done|]. apply H1, in_app_iff. right. by left.
Qed.

(** The entries a node is recorded as holding are the names it reported. *)
Lemma observed_attached v held n :
  (exists o, In o (observed_attachments v held) /\ VolumeAttachmentStatus.attached o = true
     /\ VolumeAttachmentStatus.name o = n) <-> In n held.
Proof.
  unfold observed_attachments. set (wanted := VmSpec.referenced_volumes (spec v)).
  destruct (foldl_extra_keeps wanted held (map (fun n => attachment n (str_in n held)) wanted)) as [Hk Hx]. split.
  - intros (o & [Ho|(_ & Hh & _)]%in_foldl_extra & Ha & <-); [|done].
    apply in_map_iff in Ho as (m & <- & _). by apply str_in_spec.
  - intros Hn. destruct (str_in n wanted) eqn:E.
    + exists (attachment n (str_in n held)). split_and!; [|by apply str_in_spec|done].
      apply Hk, in_map_iff. exists n. split; [done|by apply str_in_spec].
    + assert (Hw : ~ In n wanted) by (rewrite <- str_in_spec; by rewrite E).
      destruct (Hx n Hn Hw) as (o & <- & Ho). exists o. split_and!; [done| |done].
      destruct (in_foldl_extra _ _ _ _ Ho) as [Hm|(Ha & _)]; [|done].
      apply in_map_iff in Hm as (m & <- & Hm). by destruct Hw.
Qed.

Lemma attachments_settled_iff v held :
  attachments_settled v (observed_attachments v held) = true
  <-> forall n, In n held <-> In n (VmSpec.referenced_volumes (spec v)).
Proof.
  unfold attachments_settled. rewrite andb_true_iff, !forallb_forall. split.
  - intros [H1 H2] n. split.
    + intros (o & Ho & Ha & <-)%(observed_attached v).
      specialize (H2 o Ho). rewrite Ha in H2. by apply str_in_spec.
    + intros Hn%H1. apply existsb_exists in Hn as (o & Ho & [Ha Hn%String.eqb_eq]%andb_true_iff).
      apply (observed_attached v). eauto.
  - intros Heq. split.
    + intros n Hn. apply Heq, (observed_attached v) in Hn as (o & Ho & Ha & Hn).
      apply existsb_exists. exists o. split; [done|]. by rewrite Ha, Hn, String.eqb_refl.
    + intros o Ho. destruct (VolumeAttachmentStatus.attached o) eqn:Ha; [|done]. simpl.
      apply str_in_spec, Heq, (observed_attached v). eauto.
Qed.

Lemma in_lacking n l m : In n (List.filter (fun n => negb (str_in n l)) m) <-> In n m /\ ~ In n l.
Proof. rewrite filter_In, negb_true_iff, <- not_true_iff_false. by rewrite str_in_spec. Qed.

Lemma in_kept v held n :
  In n (map VolumeAttachmentStatus.name (List.filter VolumeAttachmentStatus.attached (observed_attachments v held)))
  <-> In n held.
Proof. rewrite <- (observed_attached v held n), in_map_iff. setoid_rewrite filter_In. naive_solver. Qed.


(** * Letting go *)

Section let_go_facts.
Context {D Bytes : Type} `{!Etcd D Bytes, !EtcdLaws D Bytes, !RawJson Bytes}.
Context `{!Serde Bytes VmSpec.t VmStatus.t, !SerdeLaws Bytes VmSpec.t VmStatus.t}.
Context (prefix : string) (sur : surroundings D) (to_rfc3339 : instant -> string).
#[local] Instance let_go_vms : Resource VmSpec.t VmStatus.t := vm_resource to_rfc3339.
#[local] Instance let_go_settle : SettleLaws VmSpec.t VmStatus.t.
Proof. by split. Qed.

Lemma in_letting_go vms node report v :
  In v (letting_go vms node report)
  <-> In v vms /\ StatusReport.vms_complete report = true /\ VmSpec.node_name (spec v) = None
      /\ VmStatus.node_name (status v) = Some node
      /\ forall r, In r (StatusReport.vms report) -> VmStatusReport.id r <> Objects.uid (metadata v).
Proof.
  unfold letting_go. destruct (StatusReport.vms_complete report); simpl; [|naive_solver].
  rewrite !filter_In, !andb_true_iff, !negb_true_iff, bool_decide_eq_true.
  assert (He : existsb (fun r => String.eqb (VmStatusReport.id r) (Objects.uid (metadata v))) (StatusReport.vms report) = false
    <-> forall r, In r (StatusReport.vms report) -> VmStatusReport.id r <> Objects.uid (metadata v)).
  { rewrite <- not_true_iff_false, existsb_exists. split.
    - intros Hn r Hr Heq. apply Hn. exists r. by rewrite Heq, String.eqb_refl.
    - intros Hn (r & Hr & Heq%String.eqb_eq). by destruct (Hn r). }
  rewrite He. destruct (VmSpec.node_name (spec v)); simpl; naive_solver.
Qed.

(** A VM nobody is recorded to hold and nobody's silence is about waits. *)
Lemma unclaimed_pending v t rv :
  VmStatus.silence (status v) = None -> claimed (spec v) (status v) = false ->
  vm_kind (with_metadata (settle t (clean v)) rv) = VmPhaseKind.Pending.
Proof.
  intros Hs Hc. unfold vm_kind. cbn [with_metadata status settle let_go_vms vm_resource vm_settle].
  unfold vm_settle. cbn [with_status status clean with_metadata]. cbn [VmStatus.set_phase VmStatus.phase].
  rewrite stamp_eq by apply settle_vm_wf. cbn [ph_kind].
  unfold settle_vm. cbn [clean with_metadata status spec]. by rewrite Hs, Hc.
Qed.

(** C18. A node is taken off a VM by its silence about it only on evidence.  When the
    let-go of a VM lands, the report claimed to be complete and named no VM of that
    uid; the object the write replaced, as the database held it at that moment, was
    still that VM, bound to nobody and recorded on the reporting node; and what the
    write left is the same VM with the same spec, recorded on no node, holding no
    disk, Pending, with one more reschedule. *)
Theorem let_go_exact vms node report at_ v p p' v' :
  fair (Sp := VmSpec.t) (St := VmStatus.t) prefix sur ->
  filed (Sp := VmSpec.t) (St := VmStatus.t) prefix (db (p_store p)) ->
  In v (letting_go vms node report) ->
  let_go prefix sur node at_ v p = (p', Ok (Ok (true, v'))) ->
  StatusReport.vms_complete report = true
  /\ (forall r, In r (StatusReport.vms report) -> VmStatusReport.id r <> Objects.uid (metadata v))
  /\ exists s x,
       read_from prefix s (name (metadata v)) x
       /\ Objects.uid (metadata x) = Objects.uid (metadata v) /\ VmSpec.node_name (spec x) = None
       /\ VmStatus.node_name (status x) = Some node
       /\ read_from prefix (db (p_store p')) (name (metadata v)) v'
       /\ Objects.uid (metadata v') = Objects.uid (metadata v) /\ spec v' = spec x
       /\ VmStatus.node_name (status v') = None /\ VmStatus.volumes (status v') = []
       /\ VmStatus.reschedules (status v') = sat_add u32_max (VmStatus.reschedules (status x)) 1
       /\ (VmSpec.cluster_name (spec x) = None -> VmStatus.cluster_name (status x) = None ->
           vm_kind v' = VmPhaseKind.Pending).
Proof using EtcdLaws0 SerdeLaws0.
  intros Hfair Hfiled (_ & Hc & _ & _ & Hn)%in_letting_go H. split_and!; [done..|].
  unfold let_go, try_store in H.
  destruct (mutate_if_with _ _ _ _ _ _ _) as [w1 r] eqn:Em. injection H as <- ->.
  apply mutate_loop_ok in Em as (s & x & kv & b & t & c & Hk & Hx & Had & Hb & Hr & [_ Hw] & Hd); [|done| |done].
  2:{ intros c' o. unfold apply_let_go. by destruct (negb _ && _). }
  unfold expects_uid in Had.
  destruct (String.eqb_spec (Objects.uid (metadata x)) (Objects.uid (metadata v))) as [Hu|]; [|done].
  unfold apply_let_go in Hb, Hr. destruct (negb _ && _) eqn:E; [|done].
  apply andb_true_iff in E as [E1 E2%bool_decide_eq_true]. simpl in Hb, Hd.
  pose proof (encode_name _ _ _ _ _ Hb Hd) as Hv'. exists s, x.
  assert (Hnone : VmSpec.node_name (spec x) = None) by (by destruct (VmSpec.node_name (spec x))).
  split; [by exists kv|]. do 3 (split; [done|]). split.
  { eexists. split; [by rewrite Hw; simpl; rewrite String.eqb_refl, Hk|]. done. }
  rewrite Hv'. split; [exact Hu|]. split_and!; [done..|].
  intros H1 H2. apply unclaimed_pending; [done|]. unfold claimed. simpl. by rewrite Hnone, H1, H2.
Qed.
End let_go_facts.

(** * Runs *)

#[local] Instance ingest_vm_resource : Resource VmSpec.t VmStatus.t := vm_resource (fun _ => "").
#[local] Instance ingest_status_json : StatusJson :=
  {| write_status e := ApiError.message e; read_status _ := None; status_text := show_N; lossy_trim s := s |}.
#[local] Instance ingest_events : Serde cluster_bytes EventSpec.t unit :=
  {| to_vec := fun _ => Err "not kept"; from_slice := fun _ => Err "not kept" |}.
#[local] Instance ingest_secrets : Serde cluster_bytes SecretSpec.t unit :=
  {| to_vec := fun _ => Err "not kept"; from_slice := fun _ => Err "not kept" |}.

Definition leaving_guest : Vm :=
  let v := VmEdit.set_node None (example_vm "v1") in
  with_status v
    (VmEdit.set_node_name (Some "n1")
       (VmEdit.set_reported (Some (said_by "n1" VmPhaseKind.Running VmReason.Unrecorded None 1%Z))
          (VmStatus.set_phase (status v) (phase_of VmPhaseKind.Running 1%Z)))).

Definition line (uid phase reason : string) : VmStatusReport.t :=
  {| VmStatusReport.id := uid; VmStatusReport.phase := phase; VmStatusReport.message := "";
     VmStatusReport.attached_volumes := []; VmStatusReport.reason := reason; VmStatusReport.nics := [] |}.

(** What the agent reports until the teardown it was asked for has finished. *)
Definition teardown_report : StatusReport.t :=
  {| StatusReport.node := None; StatusReport.vms := [line "v1" "Provisioning" "Stopping"]; StatusReport.volumes := [];
     StatusReport.snapshots := []; StatusReport.routers := []; StatusReport.migrations := []; StatusReport.vms_complete := true |}.

Definition leaving_store : mem cluster_bytes :=
  mem_commit mem_empty
    [Put "p/registry/vms/v1" (KeptVm leaving_guest) NoLease; Put "p/registry/nodes/n2" (KeptNode roomy_node) NoLease].

Definition willing : peers :=
  {| connected := fun _ => ["n1"; "n2"]; session := fun _ _ _ => Answer.Acked "{}";
     relay := fun _ _ _ _ => Err (Failure.msg "unreachable") |}.

Definition vm_turn (render : value -> string) (v : Vm) (p : pass (mem cluster_bytes))
    : pass (mem cluster_bytes) * result Failure.t unit :=
  reconcile_vm "p" quiet willing FirstFit_assign CrashLoopBackoff ["n1"; "n2"] None render
    (fun _ _ => 0%Z) (fun _ => "u") [] Overcommit.default v p.

(** What is stored under v1, as a read of it decodes. *)
Definition stored_v1 (p : pass (mem cluster_bytes)) : Vm :=
  match look (db (p_store p)) "p/registry/vms/v1" with
  | Some kv => match kv_value kv with
               | KeptVm v => with_metadata v (set_resource_version (metadata v) (show_Z (mod_revision kv)))
               | _ => leaving_guest end
  | None => leaving_guest
  end.

Definition start : pass (mem cluster_bytes) :=
  {| p_store := World leaving_store 0; p_sent := []; p_nodes := [example_candidate "n2" 600; example_candidate "n1" 600];
     p_noted := []; p_told := [] |}.

Definition ingest_turn (v : Vm) (p : pass (mem cluster_bytes)) : pass (mem cluster_bytes) * result Failure.t unit :=
  ingest_vms "p" quiet (fun _ _ => 0%Z) (fun _ => "u") [v] "n1" teardown_report p.

(** ** Witnesses *)


(** The report that no longer names it. *)
Definition let_go_report : StatusReport.t :=
  {| StatusReport.node := None; StatusReport.vms := []; StatusReport.volumes := [];
     StatusReport.snapshots := []; StatusReport.routers := []; StatusReport.migrations := []; StatusReport.vms_complete := true |}.

Definition let_go_run : pass (mem cluster_bytes) * result Failure.t (result StoreError.t (bool * Vm)) :=
  let_go "p" quiet "n1" 5%Z leaving_guest start.

#[local] Instance ingest_vm_laws : SerdeLaws cluster_bytes VmSpec.t VmStatus.t.
Proof. constructor. by intros o b [= <-]. Qed.

Lemma let_go_exact_witness :
  In leaving_guest (letting_go [leaving_guest] "n1" let_go_report)
  /\ exists v' s (x : Vm), let_go_run.2 = Ok (Ok (true, v')) /\ VmStatus.node_name (status v') = None
     /\ read_from "p" s "v1" x /\ VmStatus.node_name (status x) = Some "n1".
Proof.
  split; [by left|].
  assert (Hr : match let_go_run.2 with Ok (Ok (true, _)) => true | _ => false end = true) by (vm_compute; reflexivity).
  destruct let_go_run as [p' r] eqn:E. simpl in Hr. destruct r as [[[[] v']|]|]; try discriminate Hr.
  destruct (let_go_exact "p" quiet (fun _ => "") [leaving_guest] "n1" let_go_report 5%Z leaving_guest start p' v')
    as (_ & _ & s & x & Hx & _ & _ & Hn & _ & _ & _ & Hv & _).
  - apply quiet_fair.
  - apply mem_filed. by vm_compute.
  - by left.
  - exact E.
  - exists v', s, x. split_and!; done.
Defined.

(** ** A guest placed again while its old node still holds it *)

(** C38. The word a node sends while it tears a VM down releases the VM.  Its binding
    cleared, the VM is recorded on n1 and n1 is told to destroy it.  n1 then reports,
    in a list it calls complete, that the VM is still there and stopping: by the rule
    of the let-go that report releases nothing.  The phase it carries is written all
    the same, and with it the VM's recorded node, copied from the empty binding.  The
    next passes place the VM on n2 and tell n2 to create it, before n1 has stopped
    naming it. *)
Theorem teardown_report_frees_guest render :
  exists q1 q2 q3 q4 doc,
    vm_turn render leaving_guest start = (q1, Ok tt) /\ p_sent q1 = [("n1", Op.Destroy "v1")]
    /\ letting_go [stored_v1 q1] "n1" teardown_report = []
    /\ VmStatus.node_name (status (stored_v1 q1)) = Some "n1"
    /\ ingest_turn (stored_v1 q1) q1 = (q2, Ok tt) /\ VmStatus.node_name (status (stored_v1 q2)) = None
    /\ vm_turn render (stored_v1 q2) q2 = (q3, Ok tt) /\ VmSpec.node_name (spec (stored_v1 q3)) = Some "n2"
    /\ vm_turn render (stored_v1 q3) q3 = (q4, Ok tt)
    /\ p_sent q4 = [("n1", Op.Destroy "v1"); ("n2", Op.Create "v1" (render doc))].
Proof.
  set (q1 := (vm_turn render leaving_guest start).1). set (q2 := (ingest_turn (stored_v1 q1) q1).1).
  set (q3 := (vm_turn render (stored_v1 q2) q2).1).
  eexists q1, q2, q3, (vm_turn render (stored_v1 q3) q3).1, _.
  do 9 (split; [vm_compute; reflexivity|]). vm_compute. reflexivity.
Qed.

(** ** A desired state that leaves a stored VM out *)

(** v1 does not decode here; v2 does. *)
Definition half_read : mem cluster_bytes :=
  mem_commit mem_empty
    [Put "p/registry/vms/v1" (KeptNode roomy_node) NoLease;
     Put "p/registry/vms/v2" (KeptVm (VmEdit.set_node (Some "n2") (example_vm "v2"))) NoLease].

(** Another process removes v2 between the list and the count. *)
Definition removed_between : surroundings (mem cluster_bytes) :=
  {| env := fun n s => match n with 1%nat => (etcd_delete s "p/registry/vms/v2").1 | _ => s end;
     fault := fun _ => Answered; clock := fun _ => 0%Z |}.

Definition snapshot_of (sur : surroundings (mem cluster_bytes)) (render : value -> string)
    : pass (mem cluster_bytes) * result Failure.t (list (string * string)) :=
  desired_snapshot "p" sur None render "n1" (idle_pass half_read).

(** The desired state sent to a reconnecting node can leave out a VM that is stored
    and does not decode.  Left alone, the list and the count disagree and no desired
    state is built.  When another process deletes some other VM between the two
    reads, they agree, and the desired state is built without the VM, whose key the
    database held throughout. *)
Theorem snapshot_omits_stored_guest render :
  (exists why, (snapshot_of quiet render).2 = Err why)
  /\ lawful_env removed_between
  /\ (snapshot_of removed_between render).2 = Ok []
  /\ look half_read "p/registry/vms/v1" = look (db (p_store (snapshot_of removed_between render).1)) "p/registry/vms/v1"
  /\ is_some (look half_read "p/registry/vms/v1") = true.
Proof.
  split; [eexists; vm_compute; reflexivity|]. split.
  { intros [|[|n]] s; [apply rtc_refl| |apply rtc_refl]. apply rtc_once. apply other_delete. }
  split; [vm_compute; reflexivity|]. split; vm_compute; reflexivity.
Qed.
