(* ===== verification/Images.v ===== *)
(** Images: [src/shared/controller-api/src/resources/image.rs], what a cluster keeps of
    its nodes' words about them ([ImageView] of
    [src/components/cluster-controller/src/session/mod.rs]) and what the cloud makes of
    them ([src/components/cloud-controller/src/session/inventory.rs]).  A node names the
    images it has and says whether the list is all of them; of a complete list, and of
    an image whose bytes are put in place by hand, silence means the file is missing. *)
From Stdlib Require Import Ascii String NArith ZArith List Bool Lia.
From stdpp Require Import base list strings.
From S2P Require Import Prelude RustStr Phase Objects Store.

(** * The catalogue: [image.rs] *)

Module ImageFormat.
Inductive t := Raw | Qcow2.
End ImageFormat.

Module ImageSpec.
Record t := {
  source : string;
  url : option string;
  sha256 : option string;
  format : ImageFormat.t;
  size_bytes : N;
  tenant : option string;
  public : bool;
  labels : smap string;
}.
End ImageSpec.

Module ImageReason.
Inductive t := Unrecorded | AwaitingNode | NotFound | NotAFile | ChecksumMismatch | FetchFailed | DigestMismatch.
Definition ALL : list t := [Unrecorded; AwaitingNode; NotFound; NotAFile; ChecksumMismatch; FetchFailed; DigestMismatch].
Definition as_str (r : t) : string :=
  match r with
  | Unrecorded => "Unrecorded"
  | AwaitingNode => "AwaitingNode"
  | NotFound => "NotFound"
  | NotAFile => "NotAFile"
  | ChecksumMismatch => "ChecksumMismatch"
  | FetchFailed => "FetchFailed"
  | DigestMismatch => "DigestMismatch"
  end.
End ImageReason.

Module ImagePhaseKind.
Inductive t := Pending | Ready | Failed.
Definition ALL : list t := [Pending; Ready; Failed].
Definition as_str (k : t) : string := match k with Pending => "Pending" | Ready => "Ready" | Failed => "Failed" end.
Definition carries_reason (k : t) : bool := match k with Ready => false | _ => true end.
Definition is_terminal (k : t) : bool := match k with Pending => false | _ => true end.
End ImagePhaseKind.

#[export] Instance ImageReason_eq_dec : EqDecision ImageReason.t.
Proof. solve_decision. Defined.
#[export] Instance ImagePhaseKind_eq_dec : EqDecision ImagePhaseKind.t.
Proof. solve_decision. Defined.

#[export] Program Instance ImageReason_set : ReasonSet ImageReason.t := {
  Unrecorded := ImageReason.Unrecorded;
  reason_all := ImageReason.ALL;
  reason_str := ImageReason.as_str;
}.
Next Obligation. solve_vocabulary. Qed.
Next Obligation. by intros []. Qed.

#[export] Program Instance ImagePhase_set : PhaseSet ImagePhaseKind.t := {
  kind_default := ImagePhaseKind.Pending;
  kind_all := ImagePhaseKind.ALL;
  kind_str := ImagePhaseKind.as_str;
  carries := ImagePhaseKind.carries_reason;
  kind_terminal := ImagePhaseKind.is_terminal;
}.
Next Obligation. solve_vocabulary. Qed.
Next Obligation. done. Qed.

Definition ImagePhase : Type := phase ImagePhaseKind.t ImageReason.t.

Module ImageNodeState.
Record t := {
  name : string;
  cluster : string;
  phase : ImagePhaseKind.t;
  reason : ImageReason.t;
  message : option string;
  digest : option string;
}.
End ImageNodeState.

#[export] Instance ImageNodeState_eq_dec : EqDecision ImageNodeState.t.
Proof. solve_decision. Defined.

Module ImageStatus.
Record t := { phase : ImagePhase; nodes : list ImageNodeState.t; digest : option string }.
End ImageStatus.

Definition Image : Type := Object ImageSpec.t ImageStatus.t.

Definition line_ready (n : ImageNodeState.t) : bool := bool_decide (ImageNodeState.phase n = ImagePhaseKind.Ready).

(** The node's reason is about the bytes, wherever they are. *)
Definition wrong_bytes (n : ImageNodeState.t) : bool :=
  match ImageNodeState.reason n with ImageReason.ChecksumMismatch | ImageReason.NotAFile => true | _ => false end.

Definition other_bytes (pinned : string) (n : ImageNodeState.t) : bool :=
  line_ready n && is_some_and (fun d => negb (String.eqb d pinned)) (ImageNodeState.digest n).

Definition line_said (n : ImageNodeState.t) : string :=
  match ImageNodeState.message n with
  | Some message => ImageNodeState.name n +:+ ": " +:+ message
  | None => ImageNodeState.name n +:+ " says " +:+ ImageReason.as_str (ImageNodeState.reason n)
  end.

Definition settle_image (s : ImageSpec.t) (st : ImageStatus.t) : ImagePhase :=
  let nodes := ImageStatus.nodes st in
  match List.find wrong_bytes nodes with
  | Some bytes => phase_new ImagePhaseKind.Failed (ImageNodeState.reason bytes) (Some (line_said bytes)) UNSTAMPED
  | None =>
      match ImageStatus.digest st ≫= fun pinned => List.find (other_bytes pinned) nodes with
      | Some bad =>
          phase_new ImagePhaseKind.Failed ImageReason.DigestMismatch
            (Some ("the file under " +:+ ImageSpec.source s +:+ " on " +:+ ImageNodeState.name bad
                   +:+ " is not the one this image was bound to")) UNSTAMPED
      | None =>
          match List.find line_ready nodes with
          | Some ready => phase_said ImagePhaseKind.Ready (ImageNodeState.message ready) UNSTAMPED
          | None =>
              match nodes with
              | first :: _ =>
                  phase_new ImagePhaseKind.Failed (ImageNodeState.reason first) (Some (line_said first)) UNSTAMPED
              | [] =>
                  phase_new ImagePhaseKind.Pending ImageReason.AwaitingNode
                    (Some (match ImageSpec.url s with
                           | Some _ => "not fetched by any node yet"
                           | None => "no node has looked for " +:+ ImageSpec.source s +:+ " yet"
                           end)) UNSTAMPED
              end
          end
      end
  end.

Definition first_bound_digest (nodes : list ImageNodeState.t) : option string :=
  List.find (fun n => line_ready n && is_some (ImageNodeState.digest n)) nodes ≫= ImageNodeState.digest.

Definition image_settle (now : instant) (i : Image) : Image :=
  let st := status i in
  with_status i {| ImageStatus.phase := stamp (ImageStatus.phase st) (settle_image (spec i) st) now;
                   ImageStatus.nodes := ImageStatus.nodes st; ImageStatus.digest := ImageStatus.digest st |}.

#[export] Instance image_resource : Resource ImageSpec.t ImageStatus.t :=
  {| RESOURCE := "images"; NAME_SHAPE := NameShape.Dotted; settle := image_settle |}.

(** * Reports *)

Module ImageStateReport.
Record t := { name : string; phase : string; reason : string; message : string; node : string; digest : string }.
End ImageStateReport.

(** * What the nodes said: [session/mod.rs] of the cluster *)

(** [ImageView]: the last word of each node about each image, and the nodes whose
    last report was all of them. *)
Module ImageView.
Record t := { said : list ((string * string) * ImageStateReport.t); complete : list string }.

Definition empty : t := {| said := []; complete := [] |}.

Definition same (a b : string * string) : bool := String.eqb a.1 b.1 && String.eqb a.2 b.2.

(** [HashMap::insert]. *)
Fixpoint put (k : string * string) (w : ImageStateReport.t) (l : list ((string * string) * ImageStateReport.t)) :=
  match l with
  | [] => [(k, w)]
  | (k', w') :: l => if same k k' then (k, w) :: l else (k', w') :: put k w l
  end.

Definition heard (node : string) (r : ImageStateReport.t) : ImageStateReport.t :=
  {| ImageStateReport.name := ImageStateReport.name r; ImageStateReport.phase := ImageStateReport.phase r;
     ImageStateReport.reason := ImageStateReport.reason r; ImageStateReport.message := ImageStateReport.message r;
     ImageStateReport.node := node; ImageStateReport.digest := ImageStateReport.digest r |}.

Definition observe (v : t) (node : string) (reports : list ImageStateReport.t) (all : bool) : t :=
  {| said := foldl (fun l r => put (ImageStateReport.name r, node) (heard node r) l) (said v) reports;
     complete := let others := List.filter (fun n => negb (String.eqb n node)) (complete v) in
                 if all then node :: others else others |}.

Definition is_complete (v : t) (node : string) : bool := str_in node (complete v).

Definition before (a b : ImageStateReport.t) : comparison :=
  then_with (String.compare (ImageStateReport.name a) (ImageStateReport.name b))
            (String.compare (ImageStateReport.node a) (ImageStateReport.node b)).

Definition report (v : t) : list ImageStateReport.t := sort_by before (map snd (said v)).
End ImageView.

(** * What the cloud makes of it: [inventory.rs] *)

Definition absence_witnesses (s : ImageSpec.t) (complete : list string) : list string :=
  if is_some (ImageSpec.url s) then [] else complete.

(** One line, where it names a machine and a phase this tier knows. *)
Definition node_state (cluster : string) (line : ImageStateReport.t) : option ImageNodeState.t :=
  match kind_parse (ImageStateReport.phase line) with
  | None => None
  | Some phase =>
      if str_is_empty (ImageStateReport.node line) then None
      else
        let message := if str_is_empty (ImageStateReport.message line) then None else Some (ImageStateReport.message line) in
        let '(reason, message) := reason_read (ImageStateReport.reason line) message in
        Some {| ImageNodeState.name := ImageStateReport.node line; ImageNodeState.cluster := cluster;
                ImageNodeState.phase := phase; ImageNodeState.reason := reason; ImageNodeState.message := message;
                ImageNodeState.digest := if str_is_empty (ImageStateReport.digest line) then None
                                         else Some (ImageStateReport.digest line) |}
  end.

Definition node_states (cluster : string) (lines : list ImageStateReport.t) : list ImageNodeState.t :=
  filter_map (node_state cluster) lines.

Definition missing_file (cluster nm node : string) : ImageNodeState.t :=
  {| ImageNodeState.name := node; ImageNodeState.cluster := cluster; ImageNodeState.phase := ImagePhaseKind.Failed;
     ImageNodeState.reason := ImageReason.NotFound;
     ImageNodeState.message := Some (node +:+ " has no file named " +:+ nm); ImageNodeState.digest := None |}.

(** One turn of the loop of [lines_of]. *)
Definition note_silent (cluster nm : string) (mine : list ImageNodeState.t) (node : string) : list ImageNodeState.t :=
  if existsb (fun line => String.eqb (ImageNodeState.name line) node) mine then mine
  else mine ++ [missing_file cluster nm node].

Definition by_cluster_and_name (a b : ImageNodeState.t) : comparison :=
  then_with (String.compare (ImageNodeState.cluster a) (ImageNodeState.cluster b))
            (String.compare (ImageNodeState.name a) (ImageNodeState.name b)).

Definition lines_of (cluster nm : string) (lines : list ImageStateReport.t) (complete : list string)
    : list ImageNodeState.t :=
  sort_by by_cluster_and_name (foldl (note_silent cluster nm) (node_states cluster lines) complete).

(** The lines of one image, in the order they came. *)
Definition by_image (reports : list ImageStateReport.t) (nm : string) : list ImageStateReport.t :=
  List.filter (fun r => String.eqb (ImageStateReport.name r) nm) reports.

Definition merged_lines (current : Image) (cluster : string) (mine : list ImageNodeState.t) : list ImageNodeState.t :=
  sort_by by_cluster_and_name
    (List.filter (fun n => negb (String.eqb (ImageNodeState.cluster n) cluster)) (ImageStatus.nodes (status current)) ++ mine).

(** The closure of [ingest_images]. *)
Definition image_observed (cluster : string) (mine : list ImageNodeState.t) (i : Image) : Image :=
  let merged := merged_lines i cluster mine in
  with_status i
    {| ImageStatus.phase := ImageStatus.phase (status i); ImageStatus.nodes := merged;
       ImageStatus.digest := match ImageStatus.digest (status i) with
                             | Some d => Some d
                             | None => first_bound_digest merged
                             end |}.

(** * Lemmas *)

Lemma in_note_silent cluster nm complete mine n :
  In n (foldl (note_silent cluster nm) mine complete) <->
  In n mine
  \/ exists node, In node complete /\ n = missing_file cluster nm node
     /\ forall m, In m mine -> ImageNodeState.name m <> node.
Proof.
  revert mine. induction complete as [|x complete IH]; intros mine; simpl.
  { split; [by left|]. intros [?|(node & [] & _)]; done. }
  rewrite IH. unfold note_silent. destruct (existsb _ mine) eqn:E.
  - apply existsb_exists in E as (m & Hm & Hx%String.eqb_eq).
    split; (intros [?|(node & Hin & -> & Hno)]; [by left|right]).
    + exists node. split_and!; [by right|done|done].
    + destruct Hin as [<-|Hin]; [by destruct (Hno m)|]. by exists node.
  - assert (Hno : forall m, In m mine -> ImageNodeState.name m <> x).
    { intros m Hm <-. revert E. apply not_false_iff_true, existsb_exists. exists m.
      by rewrite String.eqb_refl. }
    setoid_rewrite in_app_iff. split.
    + intros [[?|[<-|[]]]|(node & Hin & -> & Hn)]; [by left|right..].
      * exists x. split_and!; [by left|done|done].
      * exists node. split_and!; [by right|done|]. intros m ?. apply Hn. by left.
    + intros [?|(node & [<-|Hin] & -> & Hn)]; [by left; left|by left; right; left|].
      destruct (decide (node = x)) as [->|Hne]; [by left; right; left|].
      right. exists node. split_and!; [done|done|]. intros m [?|[<-|[]]]; [by apply Hn|]. simpl. congruence.
Qed.

Lemma in_lines_of cluster nm lines complete n :
  In n (lines_of cluster nm lines complete) <->
  (exists line, In line lines /\ node_state cluster line = Some n)
  \/ exists node, In node complete /\ n = missing_file cluster nm node
     /\ forall line m, In line lines -> node_state cluster line = Some m -> ImageNodeState.name m <> node.
Proof.
  unfold lines_of, node_states. rewrite in_sort_by, in_note_silent. setoid_rewrite in_filter_map.
  split; (intros [?|(node & ? & ? & Hno)]; [by left|right]); exists node; (split_and!; [done..|]); naive_solver.
Qed.

Lemma in_by_image reports nm line : In line (by_image reports nm) <-> In line reports /\ ImageStateReport.name line = nm.
Proof. unfold by_image. rewrite filter_In. by rewrite String.eqb_eq. Qed.

Lemma find_some_iff {A} (f : A -> bool) l : is_some (List.find f l) = true <-> exists x, In x l /\ f x = true.
Proof.
  destruct (List.find f l) as [x|] eqn:E; simpl.
  - apply find_some in E. split; [by exists x|done].
  - split; [done|]. intros (x & Hin & Hx). pose proof (find_none _ _ E x Hin). congruence.
Qed.

Lemma find_none_in {A} (f : A -> bool) l : List.find f l = None <-> forall x, In x l -> f x = false.
Proof.
  split; [by intros H x; apply find_none|]. intros H. destruct (List.find f l) as [x|] eqn:E; [|done].
  apply find_some in E as [Hin Hx]. by rewrite H in Hx.
Qed.

(** * Theorems *)

(** Nothing is known to be wrong with the bytes. *)
Definition untainted (st : ImageStatus.t) : Prop :=
  forall n, In n (ImageStatus.nodes st) ->
    ImageNodeState.reason n <> ImageReason.ChecksumMismatch /\ ImageNodeState.reason n <> ImageReason.NotAFile
    /\ forall pinned d, ImageStatus.digest st = Some pinned -> ImageNodeState.phase n = ImagePhaseKind.Ready ->
       ImageNodeState.digest n = Some d -> d = pinned.

Lemma untainted_spec st :
  untainted st <->
  List.find wrong_bytes (ImageStatus.nodes st) = None
  /\ (ImageStatus.digest st ≫= fun pinned => List.find (other_bytes pinned) (ImageStatus.nodes st)) = None.
Proof.
  unfold untainted. rewrite find_none_in. split.
  - intros H. split.
    + intros n (H1 & H2 & _)%H. unfold wrong_bytes. by destruct (ImageNodeState.reason n).
    + destruct (ImageStatus.digest st) as [pinned|]; [|done]. simpl. apply find_none_in.
      intros n (_ & _ & H3)%H. unfold other_bytes, line_ready. case_bool_decide as Hr; [|done].
      destruct (ImageNodeState.digest n) as [d|] eqn:Ed; [|done]. simpl.
      by rewrite (H3 pinned d eq_refl Hr eq_refl), String.eqb_refl.
  - intros [H1 H2] n Hin. specialize (H1 n Hin). unfold wrong_bytes in H1.
    split_and!; [intros Hr; by rewrite Hr in H1|intros Hr; by rewrite Hr in H1|]. intros pinned d Hp Hr Hd. rewrite Hp in H2. simpl in H2.
    rewrite find_none_in in H2. specialize (H2 n Hin). unfold other_bytes, line_ready in H2.
    rewrite bool_decide_true in H2 by done. rewrite Hd in H2. simpl in H2.
    apply negb_false_iff, String.eqb_eq in H2. done.
Qed.

Lemma settle_image_ready s st :
  ph_kind (settle_image s st) = ImagePhaseKind.Ready <->
  untainted st /\ exists n, In n (ImageStatus.nodes st) /\ ImageNodeState.phase n = ImagePhaseKind.Ready.
Proof.
  rewrite untainted_spec. unfold settle_image. destruct (List.find wrong_bytes _) as [b|]; [by split; [|intros [[]]]|].
  destruct (_ ≫= _) as [b|]; [by split; [|intros [[]]]|].
  assert (He : is_some (List.find line_ready (ImageStatus.nodes st)) = true
               <-> exists n, In n (ImageStatus.nodes st) /\ ImageNodeState.phase n = ImagePhaseKind.Ready).
  { rewrite find_some_iff. unfold line_ready. setoid_rewrite bool_decide_eq_true. done. }
  rewrite <- He. destruct (List.find line_ready _); simpl; [done|].
  split; [by destruct (ImageStatus.nodes st)|by intros [_ ?]].
Qed.

Lemma settle_image_pending s st : ph_kind (settle_image s st) = ImagePhaseKind.Pending <-> ImageStatus.nodes st = [].
Proof.
  unfold settle_image. destruct (ImageStatus.nodes st) as [|n l] eqn:E; simpl.
  - by destruct (ImageStatus.digest st).
  - destruct (if wrong_bytes n then _ else _); [done|]. destruct (_ ≫= _); [done|]. by destruct (if line_ready n then _ else _).
Qed.

(** C17. What a cluster's report makes of an image.  The lines of every other cluster
    stay; its own are those of its nodes whose word it relayed, and, for an image with
    no url, one that the file is missing for each node whose list was complete and that
    said nothing of the image.  A digest the image is bound to stays.  The image is
    then Ready exactly when a line says so and no line contradicts the bytes it is
    bound to, and Pending exactly when no line is left. *)
Theorem image_observed_exact (i : Image) cluster reports complete :
  let nm := name (metadata i) in
  let i' := image_observed cluster (lines_of cluster nm (by_image reports nm) (absence_witnesses (spec i) complete)) i in
  (forall n, In n (ImageStatus.nodes (status i')) <->
     (In n (ImageStatus.nodes (status i)) /\ ImageNodeState.cluster n <> cluster)
     \/ (exists line, In line reports /\ ImageStateReport.name line = nm /\ node_state cluster line = Some n)
     \/ (ImageSpec.url (spec i) = None /\ exists node, In node complete /\ n = missing_file cluster nm node
         /\ forall line m, In line reports -> ImageStateReport.name line = nm -> node_state cluster line = Some m ->
            ImageNodeState.name m <> node))
  /\ (forall d, ImageStatus.digest (status i) = Some d -> ImageStatus.digest (status i') = Some d)
  /\ (ph_kind (settle_image (spec i) (status i')) = ImagePhaseKind.Ready <->
      untainted (status i')
      /\ exists n, In n (ImageStatus.nodes (status i')) /\ ImageNodeState.phase n = ImagePhaseKind.Ready)
  /\ (ph_kind (settle_image (spec i) (status i')) = ImagePhaseKind.Pending <-> ImageStatus.nodes (status i') = []).
Proof.
  intros nm i'. split_and!; [| |apply settle_image_ready|apply settle_image_pending].
  - intros n. unfold i', image_observed, merged_lines. cbn [status with_status ImageStatus.nodes].
    rewrite in_sort_by, in_app_iff, filter_In, negb_true_iff, String.eqb_neq, in_lines_of.
    setoid_rewrite in_by_image. unfold absence_witnesses. destruct (ImageSpec.url (spec i)); simpl.
    + naive_solver.
    + split; (intros [?|[(line & ?)|H]]; [by left|right; left; exists line; naive_solver|right; right]).
      * split; [done|]. destruct H as (node & ? & ? & Hno). exists node. split_and!; [done..|]. naive_solver.
      * destruct H as (_ & node & ? & ? & Hno). exists node. split_and!; [done..|]. naive_solver.
  - intros d Hd. unfold i', image_observed. cbn. by rewrite Hd.
Qed.

(** ** A word nobody takes back *)

Definition seen_ready (nm : string) : ImageStateReport.t :=
  {| ImageStateReport.name := nm; ImageStateReport.phase := "Ready"; ImageStateReport.reason := "";
     ImageStateReport.message := ""; ImageStateReport.node := ""; ImageStateReport.digest := "" |}.

Definition path_image : Image :=
  object_new API_VERSION "Image" "debian.raw" "u-i" 1%Z
    {| ImageSpec.source := "debian.raw"; ImageSpec.url := None; ImageSpec.sha256 := None;
       ImageSpec.format := ImageFormat.Raw; ImageSpec.size_bytes := 0; ImageSpec.tenant := None;
       ImageSpec.public := false; ImageSpec.labels := [] |}
    {| ImageStatus.phase := phase_default; ImageStatus.nodes := []; ImageStatus.digest := None |}.

(** The catalogue entry after a cluster reports what its view says. *)
Definition relayed (v : ImageView.t) (i : Image) : Image :=
  image_observed "east"
    (lines_of "east" (name (metadata i)) (by_image (ImageView.report v) (name (metadata i)))
       (absence_witnesses (spec i) (List.filter (ImageView.is_complete v) ["n1"]))) i.

