(* ===== verification/CloudPlace.v ===== *)
(** Which cluster a VM can go to: [src/components/cloud-controller/src/reconcile/placement.rs],
    with the cluster resource of [src/shared/controller-api/src/resources/cluster.rs].

    A cluster's capacity is a sum over its nodes; a VM needs one of them.  The cloud
    measures each node's room from what the cluster reports, less what waits there for
    a node and what it bound itself and has not heard of yet, and spends it within a
    pass so that the VMs of a burst see each other. *)
From Stdlib Require Import Ascii String NArith ZArith List Bool Lia Permutation Sorted.
From stdpp Require Import base list strings.
From S2P Require Import Prelude RustStr Json Float64 Capability Heartbeat Vm Node Storage Sizing Placement.
From S2P Require Import Diagnosis Rooms Quota Namespaces SpecDocs.
From S2P Require Import Phase Objects Store.

(** * Clusters *)

Module ClusterSpec.
Record t := { schedulable : bool; drain : bool; labels : smap string }.

Definition default : t := {| schedulable := true; drain := false; labels := [] |}.
End ClusterSpec.

Module ClusterCapacity.
Record t := { vcpus : N; mem_mib : N; capabilities : list string }.

Definition default : t := {| vcpus := 0; mem_mib := 0; capabilities := [] |}.
End ClusterCapacity.

Definition UNPLACED_CARRIED_MAX : nat := 128.

Module ClusterStatus.
Record t := {
  connected : bool;
  session_endpoint : option string;
  last_heartbeat : option instant;
  version : option string;
  nodes_ready : N;
  nodes_total : N;
  capacity : ClusterCapacity.t;
  vms : N;
  nodes : list NodeSummary.t;
  unplaced : list Capacity.t;
  unplaced_omitted : N;
  draining : option Draining.t;
}.

Definition default : t :=
  {| connected := false; session_endpoint := None; last_heartbeat := None; version := None;
     nodes_ready := 0; nodes_total := 0; capacity := ClusterCapacity.default; vms := 0; nodes := [];
     unplaced := []; unplaced_omitted := 0; draining := None |}.
End ClusterStatus.

Definition Cluster : Type := Object ClusterSpec.t ClusterStatus.t.

#[export] Instance cluster_resource : Resource ClusterSpec.t ClusterStatus.t :=
  {| RESOURCE := "clusters"; NAME_SHAPE := NameShape.DnsLabel; settle := fun _ o => o |}.

(** * Demands *)

(** [Wanted]: the clusters its volumes allow, and what one node has to give. *)
Module Wanted.
Record t := { clusters : option (list string); node : NodeDemand.t }.

Definition of_ (vm : Vm) (clusters allowed : option (list string)) : t :=
  {| clusters := clusters;
     node := {| NodeDemand.selector := VmSpec.node_selector (spec vm); NodeDemand.allowed := allowed;
                NodeDemand.size := Capacity.wanted_by vm; NodeDemand.class := VmSpec.class (spec vm) |} |}.

Definition allows_cluster (w : t) (cluster : string) : bool :=
  is_none_or (fun l => existsb (fun n => String.eqb n cluster) l) (clusters w).

Definition served_by (w : t) (cluster : string) (rooms : list NodeRoom.t) : bool :=
  allows_cluster w cluster && NodeDemand.met_by_a_node (node w) rooms.
End Wanted.

(** How a VM bound and not reported yet takes room off its cluster's nodes. *)
Module Booking.
Inductive t := Where (w : Wanted.t) | Anywhere (w : Wanted.t).

Definition debit (b : t) (rooms : list NodeRoom.t) : list NodeRoom.t :=
  match b with
  | Where w => (NodeDemand.debit (Wanted.node w) rooms).2
  | Anywhere w => NodeDemand.debit_each (Wanted.node w) rooms
  end.
End Booking.

(** [booking_of]; the error of an unreadable store is only logged. *)
Definition booking_of (vm : Vm) (answer : result StoreError.t (result string Wanted.t)) : Booking.t :=
  match answer with
  | Ok (Ok w) => Booking.Where w
  | Ok (Err _) => Booking.Anywhere (Wanted.of_ vm None None)
  | Err _ => Booking.Anywhere (Wanted.of_ vm None None)
  end.

(** [Rooms]. *)
Module ClusterRooms.
Inductive t :=
| Measured (rooms : list NodeRoom.t)
| Unknown (omitted : N) (at_most : list NodeRoom.t).

Definition nodes (r : t) : list NodeRoom.t :=
  match r with Measured rooms => rooms | Unknown _ _ => [] end.
End ClusterRooms.

Definition rooms_of (cluster : Cluster) (unreported : list Booking.t) (overcommit : Overcommit.t) : ClusterRooms.t :=
  let s := status cluster in
  if (0 <? ClusterStatus.unplaced_omitted s)%N then
    ClusterRooms.Unknown (ClusterStatus.unplaced_omitted s) (node_rooms (ClusterStatus.nodes s) overcommit [])
  else
    ClusterRooms.Measured
      (foldl (fun rooms vm => Booking.debit vm rooms)
         (node_rooms (ClusterStatus.nodes s) overcommit (ClusterStatus.unplaced s)) unreported).

Definition reported_by (v : Vm) (cluster : string) : bool :=
  is_some_and (fun r => String.eqb (said_node r) cluster) (VmStatus.reported (status v)).

(** [Option<DateTime<Utc>>] and a tuple's order. *)
Definition option_cmp {A} (cmp : A -> A -> comparison) (a b : option A) : comparison :=
  match a, b with
  | None, None => Eq
  | None, Some _ => Lt
  | Some _, None => Gt
  | Some a, Some b => cmp a b
  end.

Definition bound_before (a b : Vm) : comparison :=
  then_with (option_cmp Z.compare (VmStatus.bound_at (status a)) (VmStatus.bound_at (status b)))
    (String.compare (name (metadata a)) (name (metadata b))).

Definition unreported (cluster : string) (vms : list Vm) : list Vm :=
  sort_by bound_before
    (List.filter (fun v => bool_decide (VmSpec.cluster_name (spec v) = Some cluster) && negb (reported_by v cluster)) vms).

(** [free_on] of the cloud. *)
Definition free_on_cluster (cluster : string) (capacity : ClusterCapacity.t) (vms : list Vm)
    (overcommit : Overcommit.t) : Capacity.t :=
  let bound := foldl (fun sum vm => Capacity.plus sum (Capacity.wanted_by vm)) Capacity.default
                 (List.filter (fun v => bool_decide (VmSpec.cluster_name (spec v) = Some cluster)) vms) in
  Capacity.minus
    (Overcommit.allowance overcommit
       {| Capacity.vcpus := ClusterCapacity.vcpus capacity; Capacity.mem_mib := ClusterCapacity.mem_mib capacity |})
    bound.

Definition cluster_candidate (cluster : Cluster) (vms : list Vm) (overcommit : Overcommit.t) (connected : bool)
    : Candidate.t :=
  let nm := name (metadata cluster) in
  let s := status cluster in
  {| Candidate.name := nm; Candidate.connected := connected; Candidate.alive := connected;
     Candidate.schedulable := ClusterSpec.schedulable (spec cluster); Candidate.unhealthy := [];
     Candidate.free := free_on_cluster nm (ClusterStatus.capacity s) vms overcommit;
     Candidate.catalogue := ClusterCapacity.capabilities (ClusterStatus.capacity s);
     Candidate.kind := CandidateKind.Cluster; Candidate.labels := ClusterSpec.labels (spec cluster);
     Candidate.accepts := cluster_accepts (ClusterStatus.nodes s);
     Candidate.hosted := hosted_on nm vms (fun v => VmSpec.cluster_name (spec v));
     Candidate.machine := None |}.

(** * The ledger of a pass *)

Module Ledger.
Record t := { clusters : list Candidate.t; nodes : smap ClusterRooms.t }.

Definition default : t := {| clusters := []; nodes := [] |}.

Definition offer (l : t) (candidate : Candidate.t) (rooms : ClusterRooms.t) : t :=
  {| clusters := clusters l ++ [candidate]; nodes := sinsert (Candidate.name candidate) rooms (nodes l) |}.

Definition rooms (l : t) (cluster : string) : list NodeRoom.t :=
  match sget cluster (nodes l) with Some r => ClusterRooms.nodes r | None => [] end.

Definition served_but_for_room (l : t) (wanted : Wanted.t) : list (Candidate.t * N) :=
  filter_map (fun c => match sget (Candidate.name c) (nodes l) with
                       | Some (ClusterRooms.Unknown omitted at_most) =>
                           if Wanted.served_by wanted (Candidate.name c) at_most then Some (c, omitted) else None
                       | _ => None
                       end) (clusters l).
End Ledger.

Definition room_unknown_reason (unknown : list (string * N)) : option (PendingReason.t * string) :=
  if is_nil unknown then None
  else
    let named := map (fun '(cluster, omitted) =>
                        cluster +:+ " (" +:+ show_N omitted +:+ " more than its status lists)") unknown in
    Some (PendingReason.RoomUnknown,
          "the room left on the nodes of cluster " +:+ join ", " named
          +:+ " is not known here: its list of the vms waiting there for a node was cut short, and nothing is placed there until fewer wait").

Definition node_level_reason (vm : Vm) (known : nat) : PendingReason.t * string :=
  let selector := map (fun '(k, v) => k +:+ "=" +:+ v) (VmSpec.node_selector (spec vm)) in
  let volumes := VmSpec.referenced_volumes (spec vm) in
  let size := Capacity.wanted_by vm in
  let asks :=
    (if negb (is_nil selector) then ["is labelled [" +:+ join ", " selector +:+ "]"] else [])
    ++ (if negb (is_nil volumes) then ["can reach [" +:+ join ", " volumes +:+ "]"] else [])
    ++ ["takes class " +:+ VmSpec.class (spec vm) +:+ " with room for " +:+ show_N (Capacity.vcpus size)
        +:+ " vcpu and " +:+ show_N (Capacity.mem_mib size) +:+ " MiB"] in
  (if negb (is_nil volumes) then PendingReason.NoNodeForVolume
   else if negb (is_nil selector) then PendingReason.SelectorUnmatched
   else PendingReason.NoCapacity,
   "none of the " +:+ show_N (N.of_nat known) +:+ " known clusters has a schedulable node that " +:+ join " and " asks).

Section picking.
Variable assign : Vm -> list Candidate.t -> option string.

Definition why_none (ledger : Ledger.t) (vm : Vm) (wanted : Wanted.t) (allowed : list Candidate.t)
    : nat * (PendingReason.t * string) :=
  let unknown := Ledger.served_but_for_room ledger wanted in
  let waited_on := map (fun '(c, omitted) => (Candidate.name c, omitted))
                     (List.filter (fun '(c, _) => is_some (assign vm [c])) unknown) in
  let weighed := allowed ++ map fst unknown in
  match room_unknown_reason waited_on with
  | Some reason => (length weighed, reason)
  | None =>
      let listed := length (Ledger.clusters ledger) in
      if is_nil weighed && (0 <? listed)%nat then (listed, node_level_reason vm listed)
      else (length weighed, pending_reason_of vm weighed)
  end.

Definition pick_cluster (ledger : Ledger.t) (vm : Vm) (wanted : Wanted.t)
    : Ledger.t * result (nat * (PendingReason.t * string)) string :=
  let allowed := List.filter (fun c => Wanted.served_by wanted (Candidate.name c) (Ledger.rooms ledger (Candidate.name c)))
                   (Ledger.clusters ledger) in
  match assign vm allowed with
  | Some pick =>
      ({| Ledger.clusters := spend (Ledger.clusters ledger) pick vm;
          Ledger.nodes :=
            match sget pick (Ledger.nodes ledger) with
            | Some (ClusterRooms.Measured rooms) =>
                sinsert pick (ClusterRooms.Measured (NodeDemand.debit (Wanted.node wanted) rooms).2) (Ledger.nodes ledger)
            | _ => Ledger.nodes ledger
            end |}, Ok pick)
  | None => (ledger, Err (why_none ledger vm wanted allowed))
  end.
End picking.

(** * What a VM's volumes allow *)

Definition pool_serving (pool : StoragePool) (volume : string) : result string (list string) :=
  let serving := StoragePoolSpec.served_by (spec pool) in
  let nm := name (metadata pool) in
  if is_nil serving then
    Err ("storage pool " +:+ nm +:+ " names no cluster, so volume " +:+ volume +:+ " cannot be reached")
  else match StoragePoolSpec.disagreeing (status pool) with
       | Some (a, b) =>
           Err ("storage pool " +:+ nm +:+ " is served by " +:+ a +:+ " and " +:+ b
                +:+ ", but they do not describe the same backend; volume " +:+ volume
                +:+ " is reachable from one of them at most")
       | None => Ok serving
       end.

Definition narrow_clusters (wanted : option (list string)) (serving : list string) (volume : string)
    : result string (list string) :=
  match wanted with
  | None => Ok serving
  | Some already =>
      let both := List.filter (fun c => existsb (fun s => String.eqb s c) serving) already in
      if is_nil both then
        Err ("volume " +:+ volume +:+ " is on [" +:+ join ", " serving +:+ "] and another of this vm's volumes is on ["
             +:+ join ", " already +:+ "]")
      else Ok both
  end.

(** The union over the serving clusters, one pass of the inner loop at a time. *)
Definition push_new (nodes : list string) (node : string) : list string :=
  if str_in node nodes then nodes else nodes ++ [node].

Definition reachable_nodes (volume : Volume) (pool : StoragePool) : option (list string) :=
  match StoragePoolStatus.locality (status pool) with
  | Some Locality.NodeLocal => option_map (fun n => [n]) (VolumeStatus.node (status volume))
  | Some Locality.Shared =>
      let nodes := foldl (fun nodes at_ => foldl push_new nodes (PoolAtCluster.nodes at_))
                     (StoragePoolStatus.nodes (status pool)) (StoragePoolStatus.clusters (status pool)) in
      if negb (is_nil nodes) then Some nodes else None
  | Some Locality.Networked | None => None
  end.

Section reading.
Context {D Bytes : Type} `{!Etcd D Bytes, !RawJson Bytes}.
Context `{!Serde Bytes ClusterSpec.t ClusterStatus.t, !Serde Bytes VmSpec.t VmStatus.t, !Resource VmSpec.t VmStatus.t,
  !Serde Bytes VolumeSpec.t VolumeStatus.t, !Serde Bytes StoragePoolSpec.t StoragePoolStatus.t,
  !Serde Bytes EventSpec.t unit}.
Variable prefix : string.
Variable sur : surroundings D.

(** A call whose error is looked at. *)
Definition tried {A} (m : store_m D A) : store_m D (result StoreError.t A) := fun w =>
  let (w', r) := m w in (w', Ok r).

Definition volume_and_pool (n : string) : store_m D (result string (Volume * StoragePool)) :=
  r ← tried (get (Sp := VolumeSpec.t) (St := VolumeStatus.t) prefix sur n);
  match r with
  | Err (StoreError.NotFound _) => mret (Err ("volume " +:+ n +:+ " does not exist here any more"))
  | Err e => lift (Err e)
  | Ok volume =>
      r ← tried (get (Sp := StoragePoolSpec.t) (St := StoragePoolStatus.t) prefix sur (VolumeSpec.pool (spec volume)));
      match r with
      | Err (StoreError.NotFound _) =>
          mret (Err ("storage pool " +:+ VolumeSpec.pool (spec volume) +:+ " of volume " +:+ n +:+ " does not exist here"))
      | Err e => lift (Err e)
      | Ok pool => mret (Ok (volume, pool))
      end
  end.

(** The loop of [wanted]. *)
Fixpoint wanted_by_volumes (vm : Vm) (names : list string) (clusters allowed : option (list string))
    : store_m D (result string Wanted.t) :=
  match names with
  | [] => mret (Ok (Wanted.of_ vm clusters allowed))
  | n :: names =>
      pair ← volume_and_pool n;
      match pair with
      | Err sentence => mret (Err sentence)
      | Ok (volume, pool) =>
          match pool_serving pool n with
          | Err sentence => mret (Err sentence)
          | Ok serving =>
              match narrow_clusters clusters serving n with
              | Err sentence => mret (Err sentence)
              | Ok both =>
                  let kind := ph_kind (VolumeStatus.phase (status volume)) in
                  if negb (bool_decide (kind = VolumePhaseKind.Ready)) then
                    mret (Err ("volume " +:+ n +:+ " is " +:+ VolumePhaseKind.as_str kind))
                  else wanted_by_volumes vm names (Some both) (narrow_allowed allowed (reachable_nodes volume pool))
              end
          end
      end
  end.

Definition wanted (vm : Vm) : store_m D (result string Wanted.t) :=
  wanted_by_volumes vm (VmSpec.referenced_volumes (spec vm)) None None.

Fixpoint book_each (vms : list Vm) : store_m D (list Booking.t) :=
  match vms with
  | [] => mret []
  | vm :: vms =>
      answer ← tried (wanted vm);
      rest ← book_each vms;
      mret (booking_of vm answer :: rest)
  end.

Definition unreported_on (cluster : string) (vms : list Vm) : store_m D (list Booking.t) :=
  book_each (unreported cluster vms).

(** ** The clusters of a pass *)

(** Heartbeats have keys of their own; the reading of them is an argument. *)
Variable beats : smap instant.
Variable to_rfc3339 : instant -> string.
Variable new_lease : Z -> nat -> Z.
Variable new_uid : nat -> string.

Definition set_connected (connected : bool) (c : Cluster) : Cluster :=
  let s := status c in
  with_status c
    {| ClusterStatus.connected := connected; ClusterStatus.session_endpoint := ClusterStatus.session_endpoint s;
       ClusterStatus.last_heartbeat := ClusterStatus.last_heartbeat s; ClusterStatus.version := ClusterStatus.version s;
       ClusterStatus.nodes_ready := ClusterStatus.nodes_ready s; ClusterStatus.nodes_total := ClusterStatus.nodes_total s;
       ClusterStatus.capacity := ClusterStatus.capacity s; ClusterStatus.vms := ClusterStatus.vms s;
       ClusterStatus.nodes := ClusterStatus.nodes s; ClusterStatus.unplaced := ClusterStatus.unplaced s;
       ClusterStatus.unplaced_omitted := ClusterStatus.unplaced_omitted s;
       ClusterStatus.draining := ClusterStatus.draining s |}.

Definition note_lost (nm last : string) : store_m D unit := fun w =>
  (record prefix sur new_lease new_uid "Cluster" nm "" "PeerLost" ("heartbeat expired, last seen " +:+ last)
     EventType.Warning None w, Ok tt).

Definition still_connected (nm : string) (s : ClusterStatus.t) (heard : option instant) (now : instant)
    : store_m D bool :=
  if negb (ClusterStatus.connected s) || negb (expired heard now) then mret (ClusterStatus.connected s)
  else
    let last := match heard with Some t => to_rfc3339 t | None => "never" end in
    r ← tried (mutate (Sp := ClusterSpec.t) (St := ClusterStatus.t) prefix sur nm (set_connected false));
    match r with
    | Err _ => mret true
    | Ok _ => _ ← note_lost nm last; mret false
    end.

Fixpoint offer_each (sessions : list string) (vms : list Vm) (overcommit : Overcommit.t) (now : instant)
    (clusters : list Cluster) (out : Ledger.t) : store_m D Ledger.t :=
  match clusters with
  | [] => mret out
  | cluster :: clusters =>
      let nm := name (metadata cluster) in
      bookings ← unreported_on nm vms;
      let rooms := rooms_of cluster bookings overcommit in
      up ← still_connected nm (status cluster) (sget nm beats) now;
      let connected := up && str_in nm sessions in
      offer_each sessions vms overcommit now clusters
        (Ledger.offer out (cluster_candidate cluster vms overcommit connected) rooms)
  end.

Definition expire_and_collect_clusters (sessions : list string) (vms : list Vm) (overcommit : Overcommit.t)
    : store_m D Ledger.t :=
  at_ ← now sur;
  clusters ← list_ (Sp := ClusterSpec.t) (St := ClusterStatus.t) prefix sur;
  offer_each sessions vms overcommit at_ clusters Ledger.default.

(** ** A preview *)

Fixpoint offer_shared (vms : list Vm) (overcommit : Overcommit.t) (now : instant) (clusters : list Cluster)
    (out : Ledger.t) : store_m D Ledger.t :=
  match clusters with
  | [] => mret out
  | cluster :: clusters =>
      let nm := name (metadata cluster) in
      bookings ← unreported_on nm vms;
      let connected := ClusterStatus.connected (status cluster) && negb (expired (sget nm beats) now) in
      offer_shared vms overcommit now clusters
        (Ledger.offer out (cluster_candidate cluster vms overcommit connected) (rooms_of cluster bookings overcommit))
  end.

Definition would_place (assign : Vm -> list Candidate.t -> option string) (overcommit : Overcommit.t) (vm : Vm)
    : store_m D string :=
  answer ← wanted vm;
  match answer with
  | Err reason => mret reason
  | Ok w =>
      at_ ← now sur;
      vms ← list_ (Sp := VmSpec.t) (St := VmStatus.t) prefix sur;
      clusters ← list_ (Sp := ClusterSpec.t) (St := ClusterStatus.t) prefix sur;
      ledger ← offer_shared vms overcommit at_ clusters Ledger.default;
      mret (match (pick_cluster assign ledger vm w).2 with
            | Ok pick => "would place on cluster " +:+ pick
            | Err (_, (_, sentence)) => sentence
            end)
  end.
End reading.

(** * Lemmas *)

(** The room a pass hands out on a cluster's nodes. *)
Lemma pick_cases assign `{!Scheduler assign} ledger vm w :
  match pick_cluster assign ledger vm w with
  | (ledger', Ok pick) =>
      exists c rooms, In c (Ledger.clusters ledger) /\ Candidate.name c = pick /\ feasible_one vm c = true
        /\ Wanted.allows_cluster w pick = true /\ sget pick (Ledger.nodes ledger) = Some (ClusterRooms.Measured rooms)
        /\ NodeDemand.met_by_a_node (Wanted.node w) rooms = true
        /\ Ledger.clusters ledger' = spend (Ledger.clusters ledger) pick vm
        /\ Ledger.nodes ledger'
           = sinsert pick (ClusterRooms.Measured (NodeDemand.debit (Wanted.node w) rooms).2) (Ledger.nodes ledger)
  | (ledger', Err _) =>
      ledger' = ledger
      /\ forall c, In c (Ledger.clusters ledger) -> feasible_one vm c = true ->
         Wanted.served_by w (Candidate.name c) (Ledger.rooms ledger (Candidate.name c)) = false
  end.
Proof.
  unfold pick_cluster. set (allowed := List.filter _ _). destruct (assign vm allowed) as [pick|] eqn:E.
  - apply assign_feasible in E as (c & Hc & Hn). rewrite feasible_eq in Hc.
    apply filter_In in Hc as [Hc Hf]. apply filter_In in Hc as [Hc Hs]. rewrite Hn in Hs.
    unfold Wanted.served_by, Ledger.rooms in Hs. apply andb_true_iff in Hs as [Ha Hm].
    destruct (sget pick (Ledger.nodes ledger)) as [[rooms|omitted at_most]|] eqn:Er; [|done|done].
    exists c, rooms. split_and!; done.
  - split; [done|]. intros c Hc Hf. apply assign_complete in E. rewrite feasible_eq in E.
    destruct (Wanted.served_by _ _ _) eqn:Es; [|done]. exfalso.
    rewrite filter_nil_iff in E. rewrite E in Hf; [done|]. apply filter_In. auto.
Qed.

Lemma verdict_not_unknown cut vm size wanted field :
  In cut CUTS -> (verdict cut vm size wanted field).1 <> PendingReason.RoomUnknown.
Proof.
  intros [<-|[<-|[<-|[<-|[<-|[<-|[]]]]]]]; simpl; try done.
  - destruct field; [done|]. by destruct (negb _).
  - by destruct (DevicePolicy.unmet _ _).
Qed.

Lemma pending_not_unknown vm cs : (pending_reason_of vm cs).1 <> PendingReason.RoomUnknown.
Proof.
  unfold pending_reason_of. assert (Hin : forall cut, In cut CUTS -> In cut CUTS) by done. revert Hin cs.
  generalize CUTS at 1 3. intros cuts. induction cuts as [|cut cuts IH]; intros Hin cs; [done|]. simpl.
  destruct (negb _); [apply verdict_not_unknown, Hin; by left|]. apply IH. intros c Hc. apply Hin. by right.
Qed.

Lemma node_level_not_unknown vm known : (node_level_reason vm known).1 <> PendingReason.RoomUnknown.
Proof. unfold node_level_reason. simpl. by repeat case_match. Qed.

(** A cluster whose room is not known and which would do but for that. *)
Definition waits_for_room (ledger : Ledger.t) (vm : Vm) (w : Wanted.t) (c : Candidate.t) : Prop :=
  In c (Ledger.clusters ledger) /\ feasible_one vm c = true
  /\ exists omitted at_most, sget (Candidate.name c) (Ledger.nodes ledger) = Some (ClusterRooms.Unknown omitted at_most)
     /\ Wanted.served_by w (Candidate.name c) at_most = true.

Lemma in_served_but_for_room ledger w c omitted :
  In (c, omitted) (Ledger.served_but_for_room ledger w)
  <-> In c (Ledger.clusters ledger)
      /\ exists at_most, sget (Candidate.name c) (Ledger.nodes ledger) = Some (ClusterRooms.Unknown omitted at_most)
         /\ Wanted.served_by w (Candidate.name c) at_most = true.
Proof.
  unfold Ledger.served_but_for_room. rewrite in_filter_map. split.
  - intros (c' & Hin & Hc). destruct (sget _ _) as [[|o m]|] eqn:Eg; try done.
    destruct (Wanted.served_by _ _ _) eqn:Es; [|done]. injection Hc as -> ->. eauto.
  - intros (Hin & m & Hg & Hs). exists c. by rewrite Hg, Hs.
Qed.

Lemma why_none_room assign `{!Scheduler assign} ledger vm w allowed :
  (why_none assign ledger vm w allowed).2.1 = PendingReason.RoomUnknown <-> exists c, waits_for_room ledger vm w c.
Proof.
  assert (Hone : forall c, is_some (assign vm [c]) = true <-> feasible_one vm c = true).
  { intros c. destruct (assign vm [c]) as [n|] eqn:E; simpl.
    - apply assign_feasible in E as (c' & Hin & _). rewrite feasible_eq in Hin. simpl in Hin.
      destruct (feasible_one vm c); [done|]. destruct Hin.
    - apply assign_complete in E. rewrite feasible_eq in E. simpl in E. by destruct (feasible_one vm c). }
  unfold why_none. set (waited := List.filter _ _).
  assert (Hw : waited = [] <-> ~ exists c, waits_for_room ledger vm w c).
  { unfold waited. rewrite filter_nil_iff. split.
    - intros Hn (c & Hc & Hf & o & m & Hg & Hs). specialize (Hn (c, o)). simpl in Hn.
      rewrite (proj2 (Hone c) Hf) in Hn. discriminate Hn. apply in_served_but_for_room. eauto.
    - intros Hn [c o] [Hc (m & Hg & Hs)]%in_served_but_for_room. destruct (is_some _) eqn:E; [|done].
      exfalso. apply Hn. exists c. apply Hone in E. by repeat (split; eauto). }
  unfold room_unknown_reason. destruct waited as [|x l] eqn:Ew; simpl.
  - split; [|intros H; exfalso; by apply Hw]. destruct (is_nil _ && _).
    + intros H. by apply node_level_not_unknown in H.
    + intros H. by apply pending_not_unknown in H.
  - split; [|done]. intros _. destruct x as [c o].
    assert (Hin : In (c, o) waited) by (rewrite Ew; by left).
    apply filter_In in Hin as [[Hc (m & Hg & Hs)]%in_served_but_for_room Hf%Hone]. exists c. by repeat (split; eauto).
Qed.

(** ** A burst *)

(** The VMs of a pass, each with what it asks. *)
Fixpoint burst (assign : Vm -> list Candidate.t -> option string) (ledger : Ledger.t) (asks : list (Vm * Wanted.t))
    : Ledger.t * list (Vm * Wanted.t * string) :=
  match asks with
  | [] => (ledger, [])
  | (vm, w) :: asks =>
      match pick_cluster assign ledger vm w with
      | (ledger', Ok pick) => let (last, picked) := burst assign ledger' asks in (last, (vm, w, pick) :: picked)
      | (ledger', Err _) => burst assign ledger' asks
      end
  end.

(** What the VMs bound to a cluster ask of one node, in order. *)
Definition bound_to (cluster : string) (picked : list (Vm * Wanted.t * string)) : list Wanted.t :=
  map (fun x => x.1.2) (List.filter (fun x => String.eqb x.2 cluster) picked).

Definition sizes (ws : list Wanted.t) : list Capacity.t := map (fun w => NodeDemand.size (Wanted.node w)) ws.

(** A pick books the VM on its cluster's nodes as [rooms_of] books it later, and
    leaves the other clusters alone. *)
Lemma pick_books assign `{!Scheduler assign} ledger vm w ledger' pick cluster c bookings oc :
  pick_cluster assign ledger vm w = (ledger', Ok pick) ->
  sget cluster (Ledger.nodes ledger) = Some (rooms_of c bookings oc) ->
  sget cluster (Ledger.nodes ledger')
  = Some (rooms_of c (bookings ++ (if String.eqb pick cluster then [Booking.Where w] else [])) oc).
Proof.
  intros Hp Hr. pose proof (pick_cases assign ledger vm w) as Hc. rewrite Hp in Hc.
  destruct Hc as (cand & rooms & _ & _ & _ & _ & Hg & _ & _ & ->).
  destruct (String.eqb_spec pick cluster) as [->|Hne].
  - rewrite sget_insert_eq. rewrite Hg in Hr. injection Hr as Hr. unfold rooms_of in *.
    destruct (0 <? _)%N; [done|]. injection Hr as ->. by rewrite foldl_app.
  - rewrite app_nil_r. rewrite sget_insert_ne by congruence. done.
Qed.

Lemma burst_books assign `{!Scheduler assign} asks ledger ledger' picked cluster c bookings oc :
  burst assign ledger asks = (ledger', picked) ->
  sget cluster (Ledger.nodes ledger) = Some (rooms_of c bookings oc) ->
  sget cluster (Ledger.nodes ledger')
  = Some (rooms_of c (bookings ++ map Booking.Where (bound_to cluster picked)) oc).
Proof.
  revert ledger picked bookings. induction asks as [|[vm w] asks IH]; intros ledger picked bookings; simpl.
  { intros [= <- <-] Hr. by rewrite app_nil_r. }
  destruct (pick_cluster assign ledger vm w) as [ledger1 [pick|why]] eqn:Ep.
  - destruct (burst assign ledger1 asks) as [last picked1] eqn:Eb. intros [= <- <-] Hr.
    eapply pick_books in Hr; [|done..]. eapply IH in Hr; [|done]. rewrite Hr, <- app_assoc.
    unfold bound_to. simpl. by destruct (String.eqb pick cluster).
  - intros Hb Hr. pose proof (pick_cases assign ledger vm w) as Hc. rewrite Ep in Hc. destruct Hc as [-> _]. by eapply IH.
Qed.

(** A demand some node meets comes off one that takes it, in full. *)
Lemma debit_accounted start rooms charges d :
  accounted start rooms charges -> NodeDemand.met_by_a_node d rooms = true ->
  exists i r, start !! i = Some r /\ NodeSummary.usable (NodeRoom.node r) = true /\ NodeDemand.wants d (NodeRoom.node r) = true
    /\ accounted start (NodeDemand.debit d rooms).2 ((NodeDemand.size d, Some i) :: charges).
Proof.
  unfold NodeDemand.met_by_a_node, NodeDemand.debit. intros [Hacc Hnone].
  destruct (NodeDemand.node_for d rooms) as [k|] eqn:E; [|done]. intros _. unfold NodeDemand.node_for in E.
  apply roomiest_some in E as (r & Hk & [Hu Hf]%takes_spec & Hw & _). simpl.
  pose proof (Hacc k) as Hst. rewrite Hk in Hst. destruct (start !! k) as [s|] eqn:Es; [|done]. destruct Hst as [Hn Ha].
  exists k, s. rewrite <- Hn. split_and!; [done..|]. split.
  - intros i. specialize (Hacc i). rewrite lookup_take_off. simpl.
    destruct (start !! i) as [s'|] eqn:Ei, (rooms !! i) as [q|] eqn:Hi; try done. simpl.
    destruct (decide (k = i)) as [->|]; simpl.
    + rewrite bool_decide_true by done. replace q with r in * by congruence.
      rewrite capacity_add_assoc, minus_add by done. done.
    + rewrite bool_decide_false by congruence. done.
  - intros size' [?|Hin]; [done|]. apply (takes_mono _ rooms); [apply take_off_le|by apply Hnone].
Qed.

Lemma debited d rooms :
  NodeDemand.met_by_a_node d rooms = true ->
  exists i r room', rooms !! i = Some r /\ NodeRoom.takes r (NodeDemand.size d) = true
    /\ NodeDemand.wants d (NodeRoom.node r) = true
    /\ (NodeDemand.debit d rooms).2 = <[i := NodeRoom.set_room r room']> rooms
    /\ capacity_add room' (NodeDemand.size d) = NodeRoom.room r.
Proof.
  unfold NodeDemand.met_by_a_node, NodeDemand.debit. destruct (NodeDemand.node_for d rooms) as [i|] eqn:E; [|done].
  intros _. unfold NodeDemand.node_for in E. apply roomiest_some in E as (r & Hi & Ht & Hw & _).
  exists i, r, (Capacity.minus (NodeRoom.room r) (NodeDemand.size d)). split_and!; [done..| |].
  - apply list_eq. intros j. simpl. rewrite lookup_take_off. destruct (decide (i = j)) as [->|].
    + rewrite Hi, list_lookup_insert_eq by (by eapply lookup_lt_Some). done.
    + rewrite list_lookup_insert_ne by done. by destruct (rooms !! j).
  - apply minus_add. by apply takes_spec in Ht as [_ ?].
Qed.

(** Every VM bound to the cluster came off one of its nodes. *)
Definition seated (start : list NodeRoom.t) (ws : list Wanted.t) (ats : list nat) : Prop :=
  Forall2 (fun w i => exists r, start !! i = Some r /\ NodeSummary.usable (NodeRoom.node r) = true
                      /\ NodeDemand.wants (Wanted.node w) (NodeRoom.node r) = true) ws ats.

Lemma rooms_pick assign `{!Scheduler assign} ledger vm w ledger' pick cluster :
  pick_cluster assign ledger vm w = (ledger', Ok pick) ->
  if String.eqb pick cluster
  then NodeDemand.met_by_a_node (Wanted.node w) (Ledger.rooms ledger cluster) = true
       /\ Ledger.rooms ledger' cluster = (NodeDemand.debit (Wanted.node w) (Ledger.rooms ledger cluster)).2
  else Ledger.rooms ledger' cluster = Ledger.rooms ledger cluster.
Proof.
  intros Hp. pose proof (pick_cases assign ledger vm w) as Hc. rewrite Hp in Hc.
  destruct Hc as (cand & rooms & _ & _ & _ & _ & Hg & Hm & _ & Hn). unfold Ledger.rooms. rewrite Hn.
  destruct (String.eqb_spec pick cluster) as [->|Hne].
  - rewrite Hg, sget_insert_eq. done.
  - by rewrite sget_insert_ne by congruence.
Qed.

Lemma burst_accounted assign `{!Scheduler assign} asks ledger ledger' picked cluster start charges :
  burst assign ledger asks = (ledger', picked) ->
  accounted start (Ledger.rooms ledger cluster) charges ->
  exists ats, seated start (bound_to cluster picked) ats
    /\ accounted start (Ledger.rooms ledger' cluster)
         (rev (combine (sizes (bound_to cluster picked)) (map Some ats)) ++ charges).
Proof.
  revert ledger picked charges. induction asks as [|[vm w] asks IH]; intros ledger picked charges; simpl.
  { intros [= <- <-] H. exists []. split; [constructor|done]. }
  destruct (pick_cluster assign ledger vm w) as [ledger1 [pick|why]] eqn:Ep.
  - destruct (burst assign ledger1 asks) as [last picked1] eqn:Eb. intros [= <- <-] Hacc.
    apply (rooms_pick _ _ _ _ _ _ cluster) in Ep. unfold bound_to. simpl.
    destruct (String.eqb pick cluster).
    + destruct Ep as [Hm Hr].
      destruct (debit_accounted _ _ _ _ Hacc Hm) as (i & r & Hi & Hu & Hw & Hd). rewrite <- Hr in Hd.
      destruct (IH _ _ _ Eb Hd) as (ats & Hs & Ha). exists (i :: ats).
      split; [constructor; [eauto|done]|]. simpl. rewrite <- app_assoc. done.
    + rewrite <- Ep in Hacc. exact (IH _ _ _ Eb Hacc).
  - intros Hb Hacc. pose proof (pick_cases assign ledger vm w) as Hc. rewrite Ep in Hc. destruct Hc as [-> _]. eauto.
Qed.

Lemma accounted_start start : accounted start start [].
Proof.
  split; [|done]. intros i. destruct (start !! i) as [s|]; [|done]. split; [done|].
  destruct s as [? []]. unfold capacity_add. simpl. f_equal; lia.
Qed.

#[export] Instance option_cmp_total {A} (cmp : A -> A -> comparison) `{!CmpTotal cmp} : CmpTotal (option_cmp cmp).
Proof.
  split.
  - intros [a|] [b|]; try done. apply (cmp_antisym (cmp := cmp)).
  - intros [a|] [b|] [c|]; try done. apply (cmp_le_trans (cmp := cmp)).
Qed.

#[export] Instance bound_before_total : CmpTotal bound_before.
Proof.
  pose proof (on_key_total (fun v : Vm => VmStatus.bound_at (status v)) (option_cmp Z.compare)).
  pose proof (on_key_total (fun v : Vm => name (metadata v)) String.compare).
  by apply then_with_total.
Qed.

(** Bindings made later, in the order the passes made them, are booked last. *)
Lemma unreported_appends cluster vms new vms' :
  Permutation
    (List.filter (fun v => bool_decide (VmSpec.cluster_name (spec v) = Some cluster) && negb (reported_by v cluster)) vms')
    (unreported cluster vms ++ new) ->
  NoDup (map (fun v => name (metadata v)) (unreported cluster vms ++ new)) ->
  StronglySorted (cmp_le bound_before) (unreported cluster vms ++ new) ->
  unreported cluster vms' = unreported cluster vms ++ new.
Proof.
  intros HP Hnd Hs. unfold unreported at 1. symmetry. apply (sorted_perm_eq_on bound_before); [|done|apply (sort_by_sorted bound_before)|].
  - intros a b Ha Hb Heq. unfold bound_before, then_with in Heq.
    assert (name (metadata a) = name (metadata b)) as Hn.
    { destruct (option_cmp _ _ _); try done. by apply (cmp_eq_leibniz (cmp := String.compare)). }
    apply list_elem_of_In, list_elem_of_lookup in Ha as [i Hi], Hb as [j Hj].
    assert (i = j) as ->; [|congruence].
    apply (NoDup_lookup _ i j (name (metadata b)) Hnd).
    + rewrite <- Hn. etrans; [apply list_lookup_fmap|]. exact (f_equal (fmap (fun v : Vm => name (metadata v))) Hi).
    + etrans; [apply list_lookup_fmap|]. exact (f_equal (fmap (fun v : Vm => name (metadata v))) Hj).
  - symmetry. etrans; [apply (sort_by_perm bound_before)|done].
Qed.

(** * Properties *)

(** C16. The choice of a cluster is exact.  A VM is bound to a cluster its volumes
    allow, which meets every hard constraint of the scheduler and has a usable node
    that its selector, its volumes' locality, its class and its size allow; the VM's
    size comes off the cluster's sum and off one such node, in full, and no other
    cluster's nodes change.  Nothing is chosen, and nothing spent, only when no
    cluster does, and then the VM is said to wait for a room nobody can see exactly
    when a cluster would take it but for a list of waiting VMs that was cut short. *)
Theorem cluster_pick_exact assign `{!Scheduler assign} ledger vm w :
  match pick_cluster assign ledger vm w with
  | (ledger', Ok pick) =>
      (exists c, In c (Ledger.clusters ledger) /\ Candidate.name c = pick /\ feasible_one vm c = true)
      /\ Wanted.allows_cluster w pick = true
      /\ (exists i r room', Ledger.rooms ledger pick !! i = Some r /\ NodeRoom.takes r (NodeDemand.size (Wanted.node w)) = true
            /\ NodeDemand.wants (Wanted.node w) (NodeRoom.node r) = true
            /\ Ledger.rooms ledger' pick = <[i := NodeRoom.set_room r room']> (Ledger.rooms ledger pick)
            /\ capacity_add room' (NodeDemand.size (Wanted.node w)) = NodeRoom.room r)
      /\ (forall other, other <> pick -> sget other (Ledger.nodes ledger') = sget other (Ledger.nodes ledger))
      /\ Ledger.clusters ledger' = spend (Ledger.clusters ledger) pick vm
  | (ledger', Err (_, (category, _))) =>
      ledger' = ledger
      /\ (forall c, In c (Ledger.clusters ledger) -> feasible_one vm c = true ->
          Wanted.served_by w (Candidate.name c) (Ledger.rooms ledger (Candidate.name c)) = false)
      /\ (category = PendingReason.RoomUnknown <-> exists c, waits_for_room ledger vm w c)
  end.
Proof.
  pose proof (pick_cases assign ledger vm w) as Hc. destruct (pick_cluster assign ledger vm w) as [ledger' [pick|why]] eqn:Ep.
  - destruct Hc as (c & rooms & Hin & Hn & Hf & Ha & Hg & Hm & Hs & Hl).
    split_and!; [by exists c|done| | |done].
    + unfold Ledger.rooms. rewrite Hl, sget_insert_eq, Hg. simpl. by apply debited.
    + intros other Hne. rewrite Hl. by apply sget_insert_ne.
  - destruct why as [known [category sentence]]. destruct Hc as [-> Hc]. split_and!; [done|done|].
    revert Ep. unfold pick_cluster. set (allowed := List.filter _ _). destruct (assign vm allowed); [done|].
    intros [= Hw]. pose proof (why_none_room assign ledger vm w allowed) as Hr. by rewrite Hw in Hr.
Qed.

(** C10. A burst fits its nodes.  Whatever VMs one pass places, and in whichever
    order, each VM bound to a cluster can be seated on one usable node of it that its
    selector, its volumes, its class allow, such that every node's room at the start
    of the pass is what was seated on it plus what is left: no node is asked for more
    than it had. *)
Theorem burst_fits_nodes assign `{!Scheduler assign} ledger asks ledger' picked cluster :
  burst assign ledger asks = (ledger', picked) ->
  exists ats, seated (Ledger.rooms ledger cluster) (bound_to cluster picked) ats
    /\ accounted (Ledger.rooms ledger cluster) (Ledger.rooms ledger' cluster)
         (rev (combine (sizes (bound_to cluster picked)) (map Some ats))).
Proof.
  intros Hb. destruct (burst_accounted assign _ _ _ _ cluster _ _ Hb (accounted_start _)) as (ats & Hs & Ha).
  exists ats. by rewrite app_nil_r in Ha.
Qed.


(** * Witnesses *)

(** A cluster of two nodes, each with room for one of the two VMs. *)
Definition east : Cluster :=
  object_new API_VERSION "Cluster" "east" "u-east" 1%Z ClusterSpec.default
    {| ClusterStatus.connected := true; ClusterStatus.session_endpoint := None; ClusterStatus.last_heartbeat := None;
       ClusterStatus.version := None; ClusterStatus.nodes_ready := 2; ClusterStatus.nodes_total := 2;
       ClusterStatus.capacity :=
         {| ClusterCapacity.vcpus := 4; ClusterCapacity.mem_mib := 1200;
            ClusterCapacity.capabilities := ["hypervisor/cloud-hypervisor"] |};
       ClusterStatus.vms := 0; ClusterStatus.nodes := [sized_summary "n1" 2 700; sized_summary "n2" 2 600];
       ClusterStatus.unplaced := []; ClusterStatus.unplaced_omitted := 0; ClusterStatus.draining := None |}.

Definition vm_at (cluster : option string) (nm : string) (at_ : option instant) : Vm :=
  let v := example_vm nm in
  let s := spec v in
  with_status
    (with_spec v
       {| VmSpec.node_name := None; VmSpec.cluster_name := cluster; VmSpec.run_strategy := VmSpec.run_strategy s;
          VmSpec.evacuation := VmSpec.evacuation s; VmSpec.tenant := VmSpec.tenant s; VmSpec.class_ := VmSpec.class_ s;
          VmSpec.cluster_selector := VmSpec.cluster_selector s; VmSpec.node_selector := VmSpec.node_selector s;
          VmSpec.anti_affinity := VmSpec.anti_affinity s; VmSpec.vm := VmSpec.vm s |})
    {| VmStatus.phase := phase_default; VmStatus.reported := None; VmStatus.silence := None;
       VmStatus.placement := None; VmStatus.observed_generation := 0; VmStatus.node_name := None;
       VmStatus.cluster_name := None; VmStatus.observed_at := None; VmStatus.addresses := [];
       VmStatus.volumes := []; VmStatus.reschedules := 0; VmStatus.refused_by := [];
       VmStatus.requeue_attempts := 0; VmStatus.last_requeue := None; VmStatus.evacuating := None;
       VmStatus.handed_down := None; VmStatus.hand_down_refused := None; VmStatus.bound_at := at_ |}.

Definition unbound (nm : string) : Vm := vm_at None nm None.

Definition asks_nothing (v : Vm) : Wanted.t := Wanted.of_ v None None.

Definition east_ledger : Ledger.t :=
  Ledger.offer Ledger.default (cluster_candidate east [] Overcommit.default true) (rooms_of east [] Overcommit.default).

Definition east_asks : list (Vm * Wanted.t) := map (fun v => (v, asks_nothing v)) [unbound "v1"; unbound "v2"; unbound "v3"].

Lemma cluster_pick_exact_witness :
  exists ledger', pick_cluster FirstFit_assign east_ledger (unbound "v1") (asks_nothing (unbound "v1")) = (ledger', Ok "east")
    /\ Wanted.allows_cluster (asks_nothing (unbound "v1")) "east" = true.
Proof.
  pose proof (cluster_pick_exact FirstFit_assign east_ledger (unbound "v1") (asks_nothing (unbound "v1"))) as H.
  eexists. split; [by vm_compute|]. vm_compute in H |- *. exact (proj1 (proj2 H)).
Defined.

Lemma burst_fits_nodes_witness :
  map (fun x => (name (metadata x.1.1), x.2)) (burst FirstFit_assign east_ledger east_asks).2 = [("v1", "east"); ("v2", "east")]
  /\ exists ats, seated (Ledger.rooms east_ledger "east")
       (bound_to "east" (burst FirstFit_assign east_ledger east_asks).2) ats.
Proof.
  split; [by vm_compute|].
  destruct (burst_fits_nodes FirstFit_assign east_ledger east_asks
    (burst FirstFit_assign east_ledger east_asks).1 (burst FirstFit_assign east_ledger east_asks).2 "east") as (ats & Hs & _).
  - apply surjective_pairing.
  - by exists ats.
Defined.

Definition east_listing : list Vm := [vm_at (Some "east") "v2" (Some 8%Z); vm_at (Some "east") "v1" (Some 7%Z); unbound "v3"].

