(* ===== verification/CloudPass.v ===== *)
(** The cloud's pass over VMs, volumes, copies and secrets:
    [src/components/cloud-controller/src/reconcile/], files [mod.rs], [vms.rs] and
    [volumes.rs], and the stamps of [floating.rs].  A VM is bound to a cluster by one
    compare-and-swap, handed down to it with the addresses it may send from, moved off
    it by restart, and torn down; its disks' records are moved to its cluster before it.

    Cluster sessions are outside: what a cluster answers and what it last reported are
    parameters, functions of everything it was sent before. *)
From Stdlib Require Import Ascii String NArith ZArith List Bool Lia.
From stdpp Require Import base list strings gmap relations.
From S2P Require Import Prelude RustStr Json Net Capability Heartbeat Vm Node Storage Sizing Placement Diagnosis.
From S2P Require Import Floating Quota AddressSpace Lifecycle Gateways Dispatch Namespaces SpecDocs.
From S2P Require Import Reservation Commit Rooms CloudPlace MigrationRules ClusterMigration Deletion PlacePass VmPass DrainPass VolumePass.
From S2P Require Import Phase Objects Store StoreSafety Growth.

(** * Commands to clusters *)

Module CreateVm.
Record t := {
  name : string;
  uid : string;
  spec_json : string;
  vni : option N;
  floating_ips : list string;
  routed_subnets : list string;
  labels : smap string;
}.
End CreateVm.

(** [cloud_command::Op], as far as these passes send it. *)
Module CloudOp.
Inductive t :=
| Create (c : CreateVm.t)
| Destroy (name uid : string)
| CreateVolume (name spec_json uid tenant : string)
| DestroyVolume (name uid : string)
| ReleaseVolume (name uid : string)
| CreateSnapshot (name spec_json uid tenant : string)
| DestroySnapshot (name uid : string)
| CreateSecret (name spec_json uid tenant : string) (generation : N)
| DeleteSecret (name uid : string).
End CloudOp.

Definition cloud_log : Type := list (string * CloudOp.t).

Module Ack.
Inductive t := Acked (payload : string) | Rejected (r : NodeRefusal.t).
End Ack.

(** What a cluster last told this replica: [session::Report]. *)
Module Report.
Record t := { at_ : instant; uids : list string; routers : option (list string) }.
End Report.

Module SecretStateReport.
Record t := { name : string; uid : string; generation : N }.
End SecretStateReport.

(** The sessions of this replica: a cluster's speaker, if it has one, answers or does
    not; what it last reported, and which secrets it said it holds. *)
Record clusters := Clusters {
  speaks : cloud_log -> string -> bool;
  answers : cloud_log -> string -> CloudOp.t -> Answer.t;
  report : cloud_log -> string -> option Report.t;
  secrets_of : cloud_log -> string -> list SecretStateReport.t;
}.

(** * The state of a pass *)

Record cloud (D : Type) := Cloud {
  c_store : world D;
  c_sent : cloud_log;
  c_ledger : Ledger.t;
  c_book : LazyBook.t;
  c_noted : list PendingReason.t;
}.
Arguments Cloud {D} _ _ _ _ _.
Arguments c_store {D} _.
Arguments c_sent {D} _.
Arguments c_ledger {D} _.
Arguments c_book {D} _.
Arguments c_noted {D} _.

Definition with_store {D} (c : cloud D) (w : world D) : cloud D :=
  Cloud w (c_sent c) (c_ledger c) (c_book c) (c_noted c).

Definition cloud_m (D A : Type) : Type := cloud D -> cloud D * result Failure.t A.

#[export] Instance cloud_ret {D} : MRet (cloud_m D) := fun _ a c => (c, Ok a).
#[export] Instance cloud_bind {D} : MBind (cloud_m D) := fun _ _ k m c =>
  match m c with (c', Ok a) => k a c' | (c', Err e) => (c', Err e) end.

Definition c_fail {D A} (e : Failure.t) : cloud_m D A := fun c => (c, Err e).

(** [call().await?], a call whose store error is looked at, and one whose failure is. *)
Definition c_st {D A} (m : store_m D A) : cloud_m D A := fun c =>
  let (w, r) := m (c_store c) in
  (with_store c w, match r with Ok a => Ok a | Err e => Err (Failure.of_store e) end).

Definition c_try {D A} (m : store_m D A) : cloud_m D (result StoreError.t A) := fun c =>
  let (w, r) := m (c_store c) in (with_store c w, Ok r).

Definition c_attempt {D A} (m : cloud_m D A) : cloud_m D (result Failure.t A) := fun c =>
  let (c', r) := m c in (c', Ok r).

(** [pending.note]. *)
Definition c_note {D} (r : PendingReason.t) : cloud_m D unit := fun c =>
  (Cloud (c_store c) (c_sent c) (c_ledger c) (c_book c) (c_noted c ++ [r]), Ok tt).

(** [registry.report]. *)
Definition c_report {D} (net : clusters) (cluster : string) : cloud_m D (option Report.t) := fun c =>
  (c, Ok (report net (c_sent c) cluster)).

(** [registry.send_command]: an error is a session's, a refusal is an answer. *)
Definition c_send {D} (net : clusters) (cluster : string) (op : CloudOp.t) : cloud_m D Ack.t := fun c =>
  if speaks net (c_sent c) cluster then
    (Cloud (c_store c) (c_sent c ++ [(cluster, op)]) (c_ledger c) (c_book c) (c_noted c),
     match answers net (c_sent c) cluster op with
     | Answer.Acked payload => Ok (Ack.Acked payload)
     | Answer.Rejected r => Ok (Ack.Rejected r)
     | Answer.NoAnswer why => Err (Failure.msg why)
     end)
  else (c, Err (Failure.msg ("cluster " +:+ cluster +:+ " has no active session"))).

(** * Rules *)

(** [may_reconcile] of the cloud. *)
Definition cloud_may_reconcile (v : Vm) (sessions : list string) : bool :=
  match VmSpec.cluster_name (spec v) with
  | Some cluster => str_in cluster sessions
  | None =>
      match VmStatus.cluster_name (status v) with
      | Some old => str_in old sessions
      | None => true
      end
  end.

Definition status_is_current (v : Vm) (reported_at : instant) : bool :=
  is_current (deletion_timestamp (metadata v)) (VmStatus.observed_at (status v)) reported_at.

Definition RETELL_AFTER : Z := from_secs 30.

Definition answered_lately (at_ now : instant) : bool := (now - at_ <? RETELL_AFTER)%Z.

Definition handed_down_lately (v : Vm) (now : instant) : bool :=
  is_some_and (fun h => answered_lately (HandedDown.at_ h) now) (VmStatus.handed_down (status v)).

Definition refused_lately (v : Vm) (now : instant) : bool :=
  is_some_and (fun r =>
    answered_lately (HandDownRefused.at_ r) now
    && bool_decide (VmSpec.cluster_name (spec v) = Some (HandDownRefused.cluster r))
    && (HandDownRefused.generation r =? generation (metadata v))%N
    && bool_decide (HandDownRefused.labels r = labels (metadata v))) (VmStatus.hand_down_refused (status v)).

Definition answered_since (v : Vm) (intent now : instant) : bool :=
  let acked := handed_down_lately v now
               && is_some_and (fun h => (intent <=? HandedDown.at_ h)%Z) (VmStatus.handed_down (status v)) in
  let refused := refused_lately v now
                 && is_some_and (fun r => (intent <=? HandDownRefused.at_ r)%Z) (VmStatus.hand_down_refused (status v)) in
  acked || refused.

Definition labels_unsent (v : Vm) : bool :=
  is_none_or (fun h => negb (bool_decide (HandedDown.labels h = labels (metadata v)))) (VmStatus.handed_down (status v)).

Definition must_hand_down (v : Vm) (missing : bool) (now : instant) : bool :=
  if refused_lately v now then false
  else
    let stale := (VmStatus.observed_generation (status v) <? generation (metadata v))%N in
    let drifted := is_some (lifecycle_command (VmSpec.run_strategy (spec v)) (vm_kind v))
                   && negb (handed_down_lately v now) in
    missing || stale || labels_unsent v || drifted.

Definition needs_dispatch (v : Volume) : bool :=
  negb (is_some (VolumeStatus.observed_at (status v)))
  || (VolumeStatus.observed_generation (status v) <? generation (metadata v))%N.

Definition already_there (held : list SecretStateReport.t) (secret : Secret) : bool :=
  existsb (fun s => String.eqb (SecretStateReport.name s) (name (metadata secret))
                    && String.eqb (SecretStateReport.uid s) (Objects.uid (metadata secret))
                    && (SecretStateReport.generation s =? generation (metadata secret))%N) held.

Definition leftovers (held : list SecretStateReport.t) (secrets : list Secret) : list SecretStateReport.t :=
  List.filter (fun s => negb (existsb (fun secret : Secret =>
    String.eqb (name (metadata secret)) (SecretStateReport.name s)
    && String.eqb (Objects.uid (metadata secret)) (SecretStateReport.uid s)) secrets)) held.

(** The document that travels down: [build_spec_json] of the cloud. *)
Definition str_object (m : smap string) : value := Json.Object (map (fun '(k, v) => (k, Str v)) m).

Definition anti_affinity_json (a : AntiAffinity.t) : value :=
  Json.Object [("required", Bool (AntiAffinity.required a)); ("selector", str_object (AntiAffinity.selector a))].

Definition cloud_strategy (v : Vm) : string :=
  let strategy := match VmSpec.run_strategy (spec v) with
                  | RunStrategy.Running => "Running"
                  | RunStrategy.Stopped => "Stopped"
                  | RunStrategy.Paused => "Paused"
                  end in
  match VmStatus.evacuating (status v) with
  | Some mark =>
      match EvacuationStep.parse (Evacuating.step mark) with
      | Some EvacuationStep.Stopping => "Stopped"
      | _ => strategy
      end
  | None => strategy
  end.

Definition cloud_spec_json (v : Vm) : result string value :=
  match VmSpec.vm (spec v) with
  | Json.Object _ =>
      Ok (Json.Object
            [("antiAffinity", Array (map anti_affinity_json (VmSpec.anti_affinity (spec v))));
             ("class", Str (VmSpec.class_ (spec v)));
             ("evacuation", Str (Evacuation.as_str (VmSpec.evacuation (spec v))));
             ("nodeSelector", str_object (VmSpec.node_selector (spec v)));
             ("runStrategy", Str (cloud_strategy v));
             ("tenant", match VmSpec.tenant (spec v) with Some t => Str t | None => Null end);
             ("vm", VmSpec.vm (spec v))])
  | _ => Err "spec.vm must be a JSON object"
  end.

(** * Edits *)

Module CloudEdit.
(** The fields of a status the cloud writes besides those of [VmEdit]. *)
Definition set (cluster_name : option string) (handed : option HandedDown.t) (refused : option HandDownRefused.t)
    (bound_at : option instant) (s : VmStatus.t) : VmStatus.t :=
  {| VmStatus.phase := VmStatus.phase s; VmStatus.reported := VmStatus.reported s; VmStatus.silence := VmStatus.silence s;
     VmStatus.placement := VmStatus.placement s; VmStatus.observed_generation := VmStatus.observed_generation s;
     VmStatus.node_name := VmStatus.node_name s; VmStatus.cluster_name := cluster_name;
     VmStatus.observed_at := VmStatus.observed_at s; VmStatus.addresses := VmStatus.addresses s;
     VmStatus.volumes := VmStatus.volumes s; VmStatus.reschedules := VmStatus.reschedules s;
     VmStatus.refused_by := VmStatus.refused_by s; VmStatus.requeue_attempts := VmStatus.requeue_attempts s;
     VmStatus.last_requeue := VmStatus.last_requeue s; VmStatus.evacuating := VmStatus.evacuating s;
     VmStatus.handed_down := handed; VmStatus.hand_down_refused := refused; VmStatus.bound_at := bound_at |}.

Definition set_cluster (cluster : option string) (v : Vm) : Vm :=
  let s := spec v in
  with_spec v
    {| VmSpec.node_name := VmSpec.node_name s; VmSpec.cluster_name := cluster;
       VmSpec.run_strategy := VmSpec.run_strategy s; VmSpec.evacuation := VmSpec.evacuation s;
       VmSpec.tenant := VmSpec.tenant s; VmSpec.class_ := VmSpec.class_ s;
       VmSpec.cluster_selector := VmSpec.cluster_selector s; VmSpec.node_selector := VmSpec.node_selector s;
       VmSpec.anti_affinity := VmSpec.anti_affinity s; VmSpec.vm := VmSpec.vm s |}.

(** The object [bind] writes. *)
Definition bound (pick : string) (at_ : instant) (v : Vm) : Vm :=
  VmEdit.on_status (fun s =>
    VmEdit.set_placement None (set (VmStatus.cluster_name s) (VmStatus.handed_down s) None (Some at_) s))
    (set_cluster (Some pick) v).

Definition release_binding (v : Vm) : Vm :=
  VmEdit.on_status (fun s => set (VmStatus.cluster_name s) (VmStatus.handed_down s) (VmStatus.hand_down_refused s) None s)
    (set_cluster None v).

(** The edit of an acknowledged create. *)
Definition acked (cluster : string) (dispatched : N) (sent_labels : smap string) (at_ : instant) (v : Vm) : Vm :=
  VmEdit.on_status (fun s =>
    let s := VmEdit.set_observed_at (Some at_)
               (VmEdit.set_observed_generation (N.max (VmStatus.observed_generation s) dispatched) s) in
    let s := set (VmSpec.cluster_name (spec v)) (Some {| HandedDown.at_ := at_; HandedDown.labels := sent_labels |}) None
               (VmStatus.bound_at s) s in
    if bool_decide (vm_kind v = VmPhaseKind.Pending) then
      VmEdit.set_reported (Some (said_here VmPhaseKind.Provisioning VmReason.Dispatched
                                   (Some (cluster +:+ " was told")) at_)) s
    else s) v.

(** The edit of a refused one. *)
Definition refused (cluster : string) (dispatched : N) (sent_labels : smap string) (msg : string) (at_ : instant)
    (v : Vm) : Vm :=
  VmEdit.on_status (fun s =>
    VmEdit.set_observed_at (Some at_)
      (VmEdit.set_reported (Some (said_here VmPhaseKind.Failed VmReason.Refused (Some msg) at_))
         (set (VmSpec.cluster_name (spec v)) (VmStatus.handed_down s)
            (Some {| HandDownRefused.at_ := at_; HandDownRefused.generation := dispatched;
                     HandDownRefused.labels := sent_labels; HandDownRefused.message := msg;
                     HandDownRefused.cluster := cluster |}) (VmStatus.bound_at s) s))) v.

(** The fields of a volume the cloud writes. *)
Definition set_volume (v : Volume) (reported : option VolumeReported) (node cluster : option string) (observed : N)
    (at_ : option instant) : Volume :=
  let s := status v in
  with_status v
    {| VolumeStatus.phase := VolumeStatus.phase s; VolumeStatus.reported := reported;
       VolumeStatus.holder := VolumeStatus.holder s; VolumeStatus.claimant_gone := VolumeStatus.claimant_gone s;
       VolumeStatus.backend := VolumeStatus.backend s; VolumeStatus.node := node;
       VolumeStatus.open_on := VolumeStatus.open_on s; VolumeStatus.cluster := cluster;
       VolumeStatus.attached_to := VolumeStatus.attached_to s; VolumeStatus.attached_uid := VolumeStatus.attached_uid s;
       VolumeStatus.size_gib := VolumeStatus.size_gib s; VolumeStatus.untold_gib := VolumeStatus.untold_gib s;
       VolumeStatus.observed_generation := observed; VolumeStatus.observed_at := at_;
       VolumeStatus.requeue_attempts := VolumeStatus.requeue_attempts s;
       VolumeStatus.last_requeue := VolumeStatus.last_requeue s |}.

(** The edit of a dispatched volume. *)
Definition dispatched (cluster : string) (gen : N) (v : Volume) : Volume :=
  let s := status v in
  set_volume v (VolumeStatus.reported s) (VolumeStatus.node s) (Some cluster)
    (N.max (VolumeStatus.observed_generation s) gen) (VolumeStatus.observed_at s).

(** The record pointed at its VM's cluster. *)
Definition moved (cluster : string) (at_ : instant) (v : Volume) : Volume :=
  set_volume v
    (Some (said_here VolumePhaseKind.Pending VolumeReason.Following
             (Some ("moving to " +:+ cluster +:+ " with its vm")) at_))
    None (Some cluster) 0 None.

Definition said_pending (why : string) (at_ : instant) (v : Volume) : Volume :=
  let s := status v in
  set_volume v (Some (said_here VolumePhaseKind.Pending VolumeReason.Unplaced (Some why) at_))
    (VolumeStatus.node s) (VolumeStatus.cluster s) (VolumeStatus.observed_generation s) (VolumeStatus.observed_at s).
End CloudEdit.

Module TenantNetwork.
Record t := { vni : option N; prefixes : list string }.

Definition default : t := {| vni := None; prefixes := [] |}.
End TenantNetwork.

(** * The pass *)

Section cloud_pass.
Context {D Bytes : Type} `{!Etcd D Bytes, !RawJson Bytes}.
Context `{!Serde Bytes VmSpec.t VmStatus.t, !Resource VmSpec.t VmStatus.t, !Serde Bytes ClusterSpec.t ClusterStatus.t,
  !Serde Bytes VolumeSpec.t VolumeStatus.t, !Serde Bytes StoragePoolSpec.t StoragePoolStatus.t,
  !Serde Bytes VolumeSnapshotSpec.t VolumeSnapshotStatus.t, !Serde Bytes SecretSpec.t unit,
  !Serde Bytes TenantSpec.t TenantStatus.t, !Serde Bytes EventSpec.t unit,
  !Serde Bytes FloatingIpSpec.t FloatingIpStatus.t, !Serde Bytes RoutedSubnetSpec.t RoutedSubnetStatus.t,
  !Serde Bytes RouterSpec.t RouterStatus.t, !Serde Bytes FloatingPoolSpec.t unit,
  !Serde Bytes ProviderNetworkSpec.t unit}.
Variable prefix : string.
Variable sur : surroundings D.
Variable net : clusters.
Variable assign : Vm -> list Candidate.t -> option string.
(** The sessions as the pass read them, and the printing of documents. *)
Variable sessions : list string.
Variable render : value -> string.
Variable print_volume : VolumeSpec.t -> string.
Variable print_snapshot : VolumeSnapshotSpec.t -> string.
Variable print_secret : SecretSpec.t -> string.
Variable new_lease : Z -> nat -> Z.
Variable new_uid : nat -> string.

Abbreviation get_vm_volume := (get (Sp := VolumeSpec.t) (St := VolumeStatus.t) prefix sur).
Abbreviation get_pool := (get (Sp := StoragePoolSpec.t) (St := StoragePoolStatus.t) prefix sur).

Definition c_now : cloud_m D instant := c_st (now sur).

Definition c_event (kind nm uid reason message : string) (event_type : EventType.t) (tenant : option string)
    : cloud_m D unit := fun c =>
  (with_store c (record prefix sur new_lease new_uid kind nm uid reason message event_type tenant (c_store c)), Ok tt).

(** [events::record(store, about(vm, ..))]. *)
Definition c_about (v : Vm) (reason message : string) (event_type : EventType.t) : cloud_m D unit :=
  c_event "Vm" (name (metadata v)) (Objects.uid (metadata v)) reason message event_type (VmSpec.tenant (spec v)).

Definition c_edit (v : Vm) (f : Vm -> Vm) : cloud_m D Vm :=
  c_st (mutate_if prefix sur (name (metadata v)) (Objects.uid (metadata v)) f).

Definition c_edit_volume (v : Volume) (f : Volume -> Volume) : cloud_m D Volume :=
  c_st (mutate_if prefix sur (name (metadata v)) (Objects.uid (metadata v)) f).

(** ** Placement *)

Definition note_pending (v : Vm) (category : PendingReason.t) (reason : string) : cloud_m D unit :=
  if bool_decide (phase_message (VmStatus.phase (status v)) = Some reason) then mret tt
  else
    at_ ← c_now;
    _ ← c_edit v (VmEdit.on_status (VmEdit.set_placement
          (Some {| VmPlacement.reason := PendingReason.category category; VmPlacement.message := reason;
                   VmPlacement.at_ := at_ |})));
    c_about v "FailedScheduling" reason EventType.Warning.

Definition bind (v : Vm) (pick : string) : cloud_m D unit :=
  at_ ← c_now;
  let bound := CloudEdit.bound pick at_ v in
  r ← c_try (update prefix sur bound);
  match r with
  | Ok _ => c_about bound "Scheduled" ("bound to cluster " +:+ pick) EventType.Normal
  | Err (StoreError.Conflict _) => mret tt
  | Err e => c_fail (Failure.of_store e)
  end.

Definition unbind (v : Vm) (old : string) : cloud_m D unit :=
  _ ← c_send net old (CloudOp.Destroy (name (metadata v)) (Objects.uid (metadata v)));
  mret tt.

Definition pick (v : Vm) (w : Wanted.t) : cloud_m D (result (nat * (PendingReason.t * string)) string) := fun c =>
  let (ledger, r) := pick_cluster assign (c_ledger c) v w in
  (Cloud (c_store c) (c_sent c) ledger (c_book c) (c_noted c), Ok r).

Definition place (v : Vm) : cloud_m D unit :=
  match VmStatus.cluster_name (status v) with
  | Some old => unbind v old
  | None =>
      answer ← c_st (wanted prefix sur v);
      match answer with
      | Err reason =>
          _ ← c_note PendingReason.VolumeNotReady;
          note_pending v PendingReason.VolumeNotReady reason
      | Ok w =>
          picked ← pick v w;
          match picked with
          | Ok cluster => bind v cluster
          | Err (_, (category, reason)) =>
              _ ← c_note category;
              note_pending v category reason
          end
      end
  end.

(** ** Handing down *)

Definition tenant_network (tenant : option string) : cloud_m D TenantNetwork.t :=
  match tenant with
  | None => mret TenantNetwork.default
  | Some tenant =>
      if str_is_empty tenant then mret TenantNetwork.default
      else
        r ← c_try (get (Sp := TenantSpec.t) (St := TenantStatus.t) prefix sur tenant);
        match r with
        | Ok t => mret {| TenantNetwork.vni := TenantSpec.vni (spec t);
                          TenantNetwork.prefixes := TenantSpec.network_prefixes (spec t) |}
        | Err (StoreError.NotFound _) => mret TenantNetwork.default
        | Err e => c_fail (Failure.of_store e)
        end
  end.

(** [book.addresses]. *)
Definition addresses_for (v : Vm) (declared : list string) : cloud_m D Addresses.t := fun c =>
  let '(lazy, w, r) := LazyBook.addresses prefix sur (c_book c) v declared (c_store c) in
  (Cloud w (c_sent c) (c_ledger c) lazy (c_noted c),
   match r with
   | Ok a => Ok a
   | Err (Some ctx, e) => Err (Failure.context ctx (Failure.of_store e))
   | Err (None, e) => Err (Failure.of_store e)
   end).

Fixpoint note_refused_prefixes (refused : list RefusedPrefix.t) : cloud_m D unit :=
  match refused with
  | [] => mret tt
  | r :: refused =>
      _ ← c_event "Router" (RefusedPrefix.router r) (RefusedPrefix.uid r) "InsidePrefixRefused"
            ("its inside prefix is kept off the tenant's taps: " +:+ RefusedPrefix.why r) EventType.Warning
            (Some (RefusedPrefix.tenant r));
      note_refused_prefixes refused
  end.

Fixpoint stamp_addresses (carried : list Carried.t) : cloud_m D unit :=
  match carried with
  | [] => mret tt
  | c :: carried =>
      let gen := Carried.generation c in
      _ ← (if String.eqb (Carried.resource c) "floatingips" then
             _ ← c_try (mutate_if (Sp := FloatingIpSpec.t) (St := FloatingIpStatus.t) prefix sur (Carried.name c) (Carried.uid c)
                   (fun ip => with_status ip (FloatingIpStatus.mk (N.max (FloatingIpStatus.observed_generation (status ip)) gen))));
             mret tt
           else
             _ ← c_try (mutate_if (Sp := RoutedSubnetSpec.t) (St := RoutedSubnetStatus.t) prefix sur (Carried.name c) (Carried.uid c)
                   (fun s => with_status s (RoutedSubnetStatus.mk (N.max (RoutedSubnetStatus.observed_generation (status s)) gen))));
             mret tt);
      stamp_addresses carried
  end.

Definition document_of (v : Vm) : cloud_m D string :=
  match cloud_spec_json v with
  | Ok doc => mret (render doc)
  | Err why => c_fail (Failure.msg why)
  end.

Definition dispatch_create (cluster : string) (v : Vm) : cloud_m D unit :=
  network ← tenant_network (VmSpec.tenant (spec v));
  addresses ← addresses_for v (TenantNetwork.prefixes network);
  _ ← note_refused_prefixes (Addresses.refused addresses);
  doc ← document_of v;
  let op := CloudOp.Create
    {| CreateVm.name := name (metadata v); CreateVm.uid := Objects.uid (metadata v); CreateVm.spec_json := doc;
       CreateVm.vni := TenantNetwork.vni network; CreateVm.floating_ips := Addresses.floating_ips addresses;
       CreateVm.routed_subnets := Addresses.source_prefixes addresses; CreateVm.labels := labels (metadata v) |} in
  let sent := generation (metadata v) in
  answer ← c_attempt (c_send net cluster op);
  match answer with
  | Ok (Ack.Acked _) =>
      at_ ← c_now;
      _ ← c_edit v (CloudEdit.acked cluster sent (labels (metadata v)) at_);
      stamp_addresses (Addresses.carried addresses)
  | Ok (Ack.Rejected refusal) =>
      at_ ← c_now;
      _ ← c_edit v (CloudEdit.refused cluster sent (labels (metadata v)) (NodeRefusal.message refusal) at_);
      mret tt
  | Err _ => mret tt
  end.

(** One referenced disk of [move_volumes]: whether its record is at the cluster. *)
Definition move_volume (cluster n : string) : cloud_m D bool :=
  r ← c_try (get_vm_volume n);
  match r with
  | Err (StoreError.NotFound _) => mret true
  | Err e => c_fail (Failure.of_store e)
  | Ok volume =>
      pool ← c_st (get_pool (VolumeSpec.pool (spec volume)));
      let at_cluster := option_or (VolumeStatus.cluster (status volume)) (StoragePoolSpec.home (spec pool)) in
      if bool_decide (at_cluster = Some cluster) then mret true
      else
        _ ← match at_cluster with
            | None => mret tt
            | Some old =>
                _ ← c_send net old (CloudOp.ReleaseVolume n (Objects.uid (metadata volume)));
                mret tt
            end;
        at_ ← c_now;
        _ ← c_st (mutate_if prefix sur n (Objects.uid (metadata volume)) (CloudEdit.moved cluster at_));
        mret false
  end.

Fixpoint move_each (cluster : string) (names : list string) (all_there : bool) : cloud_m D bool :=
  match names with
  | [] => mret all_there
  | n :: names =>
      there ← move_volume cluster n;
      move_each cluster names (all_there && there)
  end.

Definition move_volumes (v : Vm) (cluster : string) : cloud_m D bool :=
  move_each cluster (VmSpec.referenced_volumes (spec v)) true.

Definition hand_down (v : Vm) (cluster : string) (r : Report.t) : cloud_m D unit :=
  let missing := negb (str_in (Objects.uid (metadata v)) (Report.uids r)) in
  at_ ← c_now;
  if negb (must_hand_down v missing at_) then mret tt
  else
    there ← move_volumes v cluster;
    if negb (there : bool) then
      note_pending v PendingReason.VolumeNotReady ("moving this vm's disks to cluster " +:+ cluster)
    else dispatch_create cluster v.

(** ** Leaving *)

Definition set_evacuation (mark : option Evacuating.t) : Vm -> Vm := VmEdit.on_status (VmEdit.set_evacuating mark).

Definition evacuate (v : Vm) (cluster : string) : cloud_m D unit :=
  match VmStatus.evacuating (status v) with
  | None => mret tt
  | Some mark =>
      if negb (String.eqb cluster (Evacuating.from mark)) then
        _ ← c_edit v (set_evacuation None);
        c_about v "Scheduled" ("moved off " +:+ Evacuating.from mark +:+ " by restart; now on " +:+ cluster) EventType.Normal
      else
        match EvacuationStep.parse (Evacuating.step mark) with
        | Some EvacuationStep.Stopping =>
            if bool_decide (vm_kind v = VmPhaseKind.Running) || bool_decide (vm_kind v = VmPhaseKind.Paused) then
              at_ ← c_now;
              if answered_since v (Evacuating.since mark) at_ then mret tt
              else dispatch_create cluster v
            else if negb (bool_decide (vm_kind v = VmPhaseKind.Stopped)) then mret tt
            else
              _ ← c_edit v (fun x => set_evacuation
                    (Some {| Evacuating.from := Evacuating.from mark;
                             Evacuating.step := EvacuationStep.as_str EvacuationStep.Moving;
                             Evacuating.since := Evacuating.since mark |}) (CloudEdit.release_binding x));
              mret tt
        | Some EvacuationStep.Moving => _ ← c_edit v (set_evacuation None); mret tt
        | None => mret tt
        end
  end.

Definition never_placed (v : Vm) : bool := is_deleting v && negb (is_some (VmSpec.cluster_name (spec v))).

Definition tell_destroy (v : Vm) (cluster : string) : cloud_m D unit :=
  answer ← c_attempt (c_send net cluster (CloudOp.Destroy (name (metadata v)) (Objects.uid (metadata v))));
  match answer with
  | Ok (Ack.Acked _) =>
      at_ ← c_now;
      _ ← c_edit v (VmEdit.on_status (VmEdit.set_observed_at (Some at_)));
      mret tt
  | Ok (Ack.Rejected _) => mret tt
  | Err _ => mret tt
  end.

Definition teardown (v : Vm) : cloud_m D unit :=
  let uid := Objects.uid (metadata v) in
  match VmSpec.cluster_name (spec v) with
  | None => _ ← c_st (finish_delete prefix sur v never_placed); mret tt
  | Some cluster =>
      r ← c_report net cluster;
      match r with
      | Some r =>
          if str_in uid (Report.uids r) then tell_destroy v cluster
          else if negb (status_is_current v (Report.at_ r)) then mret tt
          else _ ← c_st (finish_delete prefix sur v is_deleting); mret tt
      | None => tell_destroy v cluster
      end
  end.

(** ** One VM *)

Definition current_report (v : Vm) (cluster : string) : cloud_m D (option Report.t) :=
  r ← c_report net cluster;
  mret (match r with
        | Some r => if status_is_current v (Report.at_ r) then Some r else None
        | None => None
        end).

Definition reconcile_vm (v : Vm) : cloud_m D unit :=
  if negb (cloud_may_reconcile v sessions) then mret tt
  else if is_deleting v then teardown v
  else match VmSpec.cluster_name (spec v) with
       | None => place v
       | Some cluster =>
           r ← current_report v cluster;
           match r with
           | None => mret tt
           | Some r =>
               if bool_decide (vm_kind v = VmPhaseKind.Failed) then mret tt
               else if is_some (VmStatus.evacuating (status v)) then evacuate v cluster
               else hand_down v cluster r
           end
       end.

(** The VMs of a pass; what fails is logged. *)
Fixpoint reconcile_vms (vms : list Vm) : cloud_m D unit :=
  match vms with
  | [] => mret tt
  | v :: vms => _ ← c_attempt (reconcile_vm v); reconcile_vms vms
  end.

(** ** Emptying a cluster *)

Fixpoint pinning_among (cluster : string) (names : list string) : cloud_m D (option (string * string)) :=
  match names with
  | [] => mret None
  | n :: names =>
      r ← c_try (get_vm_volume n);
      match r with
      | Err (StoreError.NotFound _) => pinning_among cluster names
      | Err e => c_fail (Failure.of_store e)
      | Ok volume =>
          r ← c_try (get_pool (VolumeSpec.pool (spec volume)));
          match r with
          | Err (StoreError.NotFound _) => pinning_among cluster names
          | Err e => c_fail (Failure.of_store e)
          | Ok pool =>
              let pool_name := name (metadata pool) in
              if bool_decide (StoragePoolStatus.locality (status pool) = Some Locality.NodeLocal) then
                mret (Some (n, "pool " +:+ pool_name +:+ " is node-local and the bytes are on node "
                               +:+ unwrap_or "one machine" (VolumeStatus.node (status volume)) +:+ " in " +:+ cluster))
              else if (length (StoragePoolSpec.served_by (spec pool)) <? 2)%nat then
                mret (Some (n, "storage pool " +:+ pool_name +:+ " serves only " +:+ cluster
                               +:+ "; set spec.clusters on it if the same bytes really are reachable from another cluster"))
              else if is_some (StoragePoolSpec.disagreeing (status pool)) then
                mret (Some (n, "the clusters serving storage pool " +:+ pool_name +:+ " do not describe the same backend"))
              else pinning_among cluster names
          end
      end
  end.

Definition pinning_disk (v : Vm) (cluster : string) : cloud_m D (option (string * string)) :=
  pinning_among cluster (VmSpec.referenced_volumes (spec v)).

Definition cluster_departed (previous : option Draining.t) (leaving : list string) (staying : list StayingVm.t)
    (vms : list Vm) (cluster : string) : N :=
  match previous with
  | None => 0
  | Some previous =>
      N.of_nat (length (List.filter (fun n =>
        negb (str_in n leaving)
        && negb (existsb (fun s => String.eqb (StayingVm.vm s) n) staying)
        && existsb (fun v : Vm => String.eqb (name (metadata v)) n && negb (is_deleting v)
             && negb (bool_decide (VmSpec.cluster_name (spec v) = Some cluster))
             && negb (bool_decide (VmStatus.cluster_name (status v) = Some cluster))) vms)
        (Draining.leaving_vms previous))) mod (u32_max + 1)
  end%N.

Definition act_on_cluster_vm (cluster : string) (v : Vm) (a : Progress.t) (pinned : option (string * string))
    : cloud_m D Progress.t :=
  let nm := name (metadata v) in
  let facts := {| DrainFacts.has_device := has_device v; DrainFacts.node_local_disk := option_map fst pinned;
                  DrainFacts.live_possible := false; DrainFacts.live_refusal := None |} in
  match drain_verdict v facts with
  | DrainVerdict.Moving | DrainVerdict.Live => mret (Progress.leaves a nm)
  | DrainVerdict.Reschedule =>
      _ ← c_edit v CloudEdit.release_binding;
      _ ← c_about v "Unbound" ("cluster " +:+ cluster +:+ " is being drained; placing this stopped vm again") EventType.Normal;
      mret (Progress.leaves a nm)
  | DrainVerdict.Restart =>
      at_ ← c_now;
      _ ← c_edit v (set_evacuation
            (Some {| Evacuating.from := cluster; Evacuating.step := EvacuationStep.as_str EvacuationStep.Stopping;
                     Evacuating.since := at_ |}));
      _ ← c_about v "Unbound" ("cluster " +:+ cluster +:+ " is being drained; moving this vm by restart") EventType.Normal;
      mret (Progress.leaves a nm)
  | DrainVerdict.Stays reason =>
      let message := match pinned with
                     | Some (volume, why) => nm +:+ " stays: " +:+ why +:+ " (" +:+ volume +:+ ")"
                     | None => drain_sentence reason nm facts
                     end in
      mret (Progress.stays a {| StayingVm.vm := nm; StayingVm.reason := StayReason.as_str reason;
                                StayingVm.message := message |} (StayReason.settles_a_drain reason))
  end.

Definition drain_cluster_vm (cluster : string) (v : Vm) (a : Progress.t) : cloud_m D Progress.t :=
  if is_deleting v then mret a
  else if negb (bool_decide (VmSpec.cluster_name (spec v) = Some cluster)) then
    mret (if bool_decide (VmStatus.cluster_name (status v) = Some cluster) then Progress.leaves a (name (metadata v)) else a)
  else
    pinned ← pinning_disk v cluster;
    act_on_cluster_vm cluster v a pinned.

Fixpoint drain_cluster_vms (cluster : string) (vms : list Vm) (a : Progress.t) : cloud_m D Progress.t :=
  match vms with
  | [] => mret a
  | v :: vms => a ← drain_cluster_vm cluster v a; drain_cluster_vms cluster vms a
  end.

Definition set_cluster_draining (d : option Draining.t) (c : Cluster) : Cluster :=
  let s := status c in
  with_status c
    {| ClusterStatus.connected := ClusterStatus.connected s; ClusterStatus.session_endpoint := ClusterStatus.session_endpoint s;
       ClusterStatus.last_heartbeat := ClusterStatus.last_heartbeat s; ClusterStatus.version := ClusterStatus.version s;
       ClusterStatus.nodes_ready := ClusterStatus.nodes_ready s; ClusterStatus.nodes_total := ClusterStatus.nodes_total s;
       ClusterStatus.capacity := ClusterStatus.capacity s; ClusterStatus.vms := ClusterStatus.vms s;
       ClusterStatus.nodes := ClusterStatus.nodes s; ClusterStatus.unplaced := ClusterStatus.unplaced s;
       ClusterStatus.unplaced_omitted := ClusterStatus.unplaced_omitted s; ClusterStatus.draining := d |}.

(** The document of a cluster's drain. *)
Definition cluster_drained (previous : option Draining.t) (a : Progress.t) (vms : list Vm) (cluster : string) : Draining.t :=
  let leaving := sort_by String.compare (Progress.leaving a) in
  {| Draining.leaving := N.of_nat (length leaving) mod (u32_max + 1);
     Draining.leaving_vms := leaving;
     Draining.moved_total := match previous with Some d => Draining.moved_total d | None => 0 end
                             + cluster_departed previous leaving (Progress.staying a) vms cluster;
     Draining.staying := N.of_nat (length (Progress.staying a)) mod (u32_max + 1);
     Draining.reasons := Progress.staying a;
     Draining.complete := Progress.settled a && is_nil leaving |}%N.

Definition drain_cluster (cluster : string) (vms : list Vm) : cloud_m D unit :=
  a ← drain_cluster_vms cluster vms Progress.start;
  current ← c_st (get (Sp := ClusterSpec.t) (St := ClusterStatus.t) prefix sur cluster);
  let previous := ClusterStatus.draining (status current) in
  let draining := cluster_drained previous a vms cluster in
  if bool_decide (previous = Some draining) then mret tt
  else
    _ ← c_st (mutate (Sp := ClusterSpec.t) (St := ClusterStatus.t) prefix sur cluster (set_cluster_draining (Some draining)));
    mret tt.

Fixpoint drain_clusters_listed (clusters : list Cluster) (vms : list Vm) : cloud_m D unit :=
  match clusters with
  | [] => mret tt
  | cluster :: clusters =>
      let nm := name (metadata cluster) in
      _ ← (if negb (ClusterSpec.drain (spec cluster)) then
             if is_some (ClusterStatus.draining (status cluster)) then
               _ ← c_st (mutate (Sp := ClusterSpec.t) (St := ClusterStatus.t) prefix sur nm (set_cluster_draining None));
               mret tt
             else mret tt
           else if negb (str_in nm sessions) then mret tt
           else _ ← c_attempt (drain_cluster nm vms); mret tt);
      drain_clusters_listed clusters vms
  end.

Definition drain_clusters (vms : list Vm) : cloud_m D unit :=
  clusters ← c_st (list_ (Sp := ClusterSpec.t) (St := ClusterStatus.t) prefix sur);
  drain_clusters_listed clusters vms.

(** ** Volumes, copies and secrets *)

(** [collect] into a [HashMap]. *)
Definition collect {V} (l : list (string * V)) : smap V := foldl (fun m '(k, v) => sinsert k v m) [] l.

Definition note_volume_routing (v : Volume) (reason : string) : cloud_m D unit :=
  if is_some_and (fun r => negb (str_is_empty (said_node r))) (VolumeStatus.reported (status v)) then mret tt
  else if bool_decide (phase_message (VolumeStatus.phase (status v)) = Some reason) then mret tt
  else
    at_ ← c_now;
    _ ← c_edit_volume v (CloudEdit.said_pending reason at_);
    mret tt.

Definition dispatch_volume (pools : smap string) (v : Volume) : cloud_m D unit :=
  let nm := name (metadata v) in
  let uid := Objects.uid (metadata v) in
  match option_or (VolumeStatus.cluster (status v)) (sget (VolumeSpec.pool (spec v)) pools) with
  | Some cluster =>
      if str_is_empty cluster then
        note_volume_routing v ("storage pool " +:+ VolumeSpec.pool (spec v)
          +:+ " names no cluster here; the volume cannot be dispatched")
      else if negb (str_in cluster sessions) then mret tt
      else if is_deleting v then
        _ ← c_send net cluster (CloudOp.DestroyVolume nm uid); mret tt
      else if negb (needs_dispatch v) then mret tt
      else
        _ ← c_send net cluster (CloudOp.CreateVolume nm (print_volume (spec v)) uid (VolumeSpec.tenant (spec v)));
        _ ← c_edit_volume v (CloudEdit.dispatched cluster (generation (metadata v)));
        mret tt
  | None =>
      note_volume_routing v ("storage pool " +:+ VolumeSpec.pool (spec v)
        +:+ " names no cluster here; the volume cannot be dispatched")
  end.

Fixpoint dispatch_each (pools : smap string) (volumes : list Volume) : cloud_m D unit :=
  match volumes with
  | [] => mret tt
  | v :: volumes => _ ← c_attempt (dispatch_volume pools v); dispatch_each pools volumes
  end.

Definition dispatch_volumes : cloud_m D unit :=
  volumes ← c_st (list_ (Sp := VolumeSpec.t) (St := VolumeStatus.t) prefix sur);
  if is_nil volumes then mret tt
  else
    pools ← c_st (list_ (Sp := StoragePoolSpec.t) (St := StoragePoolStatus.t) prefix sur);
    dispatch_each (collect (filter_map (fun p : StoragePool =>
      option_map (fun home => (name (metadata p), home)) (StoragePoolSpec.home (spec p))) pools)) volumes.

Definition note_snapshot_pending (x : VolumeSnapshot) (reason : string) : cloud_m D unit :=
  if is_some_and (fun r => negb (str_is_empty (said_node r))) (VolumeSnapshotStatus.reported (status x)) then mret tt
  else if bool_decide (phase_message (VolumeSnapshotStatus.phase (status x)) = Some reason) then mret tt
  else
    at_ ← c_now;
    _ ← c_st (mutate_if prefix sur (name (metadata x)) (Objects.uid (metadata x))
          (SnapshotEdit.say VolumeSnapshotPhaseKind.Pending VolumeSnapshotReason.SourceGone reason at_));
    mret tt.

Definition dispatch_snapshot (pools volumes : smap string) (x : VolumeSnapshot) : cloud_m D unit :=
  let nm := name (metadata x) in
  let uid := Objects.uid (metadata x) in
  let unrouted := note_snapshot_pending x ("volume " +:+ VolumeSnapshotSpec.volume (spec x)
                    +:+ " names no cluster here; the snapshot cannot be dispatched") in
  match sget (VolumeSnapshotSpec.volume (spec x)) volumes ≫= fun pool => sget pool pools with
  | Some cluster =>
      if str_is_empty cluster then unrouted
      else if negb (str_in cluster sessions) then mret tt
      else if is_deleting x then
        _ ← c_send net cluster (CloudOp.DestroySnapshot nm uid); mret tt
      else if is_some (VolumeSnapshotStatus.observed_at (status x)) then mret tt
      else
        _ ← c_send net cluster (CloudOp.CreateSnapshot nm (print_snapshot (spec x)) uid (VolumeSnapshotSpec.tenant (spec x)));
        mret tt
  | None => unrouted
  end.

Fixpoint dispatch_copies (pools volumes : smap string) (l : list VolumeSnapshot) : cloud_m D unit :=
  match l with
  | [] => mret tt
  | x :: l => _ ← c_attempt (dispatch_snapshot pools volumes x); dispatch_copies pools volumes l
  end.

Definition dispatch_snapshots : cloud_m D unit :=
  snapshots ← c_st (list_ (Sp := VolumeSnapshotSpec.t) (St := VolumeSnapshotStatus.t) prefix sur);
  if is_nil snapshots then mret tt
  else
    pools ← c_st (list_ (Sp := StoragePoolSpec.t) (St := StoragePoolStatus.t) prefix sur);
    volumes ← c_st (list_ (Sp := VolumeSpec.t) (St := VolumeStatus.t) prefix sur);
    dispatch_copies
      (collect (map (fun p : StoragePool => (name (metadata p), StoragePoolSpec.cluster (spec p))) pools))
      (collect (map (fun v : Volume => (name (metadata v), VolumeSpec.pool (spec v))) volumes)) snapshots.

(** A command that is not delivered is sent again by the next pass. *)
Definition seal_to (cluster : string) (secret : Secret) : cloud_m D unit :=
  _ ← c_attempt (c_send net cluster
        (CloudOp.CreateSecret (name (metadata secret)) (print_secret (spec secret)) (Objects.uid (metadata secret))
           (SecretSpec.tenant (spec secret)) (generation (metadata secret))));
  mret tt.

Fixpoint seal_missing (cluster : string) (held : list SecretStateReport.t) (secrets : list Secret) : cloud_m D unit :=
  match secrets with
  | [] => mret tt
  | secret :: secrets =>
      _ ← (if already_there held secret then mret tt else seal_to cluster secret);
      seal_missing cluster held secrets
  end.

Fixpoint collect_leftovers (cluster : string) (stale : list SecretStateReport.t) : cloud_m D unit :=
  match stale with
  | [] => mret tt
  | s :: stale =>
      _ ← c_attempt (c_send net cluster (CloudOp.DeleteSecret (SecretStateReport.name s) (SecretStateReport.uid s)));
      collect_leftovers cluster stale
  end.

Fixpoint mirror_each (secrets : list Secret) (clusters : list string) : cloud_m D unit :=
  match clusters with
  | [] => mret tt
  | cluster :: clusters =>
      held ← (fun c => (c, Ok (secrets_of net (c_sent c) cluster)));
      _ ← seal_missing cluster held secrets;
      _ ← collect_leftovers cluster (leftovers held secrets);
      mirror_each secrets clusters
  end.

Definition mirror_secrets : cloud_m D unit :=
  if is_nil sessions then mret tt
  else
    secrets ← c_st (list_ (Sp := SecretSpec.t) (St := unit) prefix sur);
    mirror_each secrets sessions.
End cloud_pass.

(** * A store in memory for runs of both tiers *)

Module Tier.
Inductive bytes :=
| KeptVm (v : Vm) | KeptVolume (v : Volume) | KeptPool (p : StoragePool) | KeptCopy (x : VolumeSnapshot)
| KeptSecret (s : Secret) | KeptCluster (c : Cluster) | KeptEvent (e : Event) | Garbled.

#[export] Instance tier_raw : RawJson bytes := {| raw := fun _ => None |}.
#[export] Instance tier_vm_resource : Resource VmSpec.t VmStatus.t := vm_resource (fun _ => "").
#[export] Instance tier_vms : Serde bytes VmSpec.t VmStatus.t :=
  {| to_vec := fun o => Ok (KeptVm o); from_slice := fun b => match b with KeptVm o => Ok o | _ => Err "expected value" end |}.
#[export] Instance tier_vms_laws : SerdeLaws bytes VmSpec.t VmStatus.t.
Proof. constructor. by intros o b [= <-]. Qed.
#[export] Instance tier_volumes : Serde bytes VolumeSpec.t VolumeStatus.t :=
  {| to_vec := fun o => Ok (KeptVolume o); from_slice := fun b => match b with KeptVolume o => Ok o | _ => Err "expected value" end |}.
#[export] Instance tier_volumes_laws : SerdeLaws bytes VolumeSpec.t VolumeStatus.t.
Proof. constructor. by intros o b [= <-]. Qed.
#[export] Instance tier_pools : Serde bytes StoragePoolSpec.t StoragePoolStatus.t :=
  {| to_vec := fun o => Ok (KeptPool o); from_slice := fun b => match b with KeptPool o => Ok o | _ => Err "expected value" end |}.
#[export] Instance tier_copies : Serde bytes VolumeSnapshotSpec.t VolumeSnapshotStatus.t :=
  {| to_vec := fun o => Ok (KeptCopy o); from_slice := fun b => match b with KeptCopy o => Ok o | _ => Err "expected value" end |}.
#[export] Instance tier_copies_laws : SerdeLaws bytes VolumeSnapshotSpec.t VolumeSnapshotStatus.t.
Proof. constructor. by intros o b [= <-]. Qed.
#[export] Instance tier_secrets : Serde bytes SecretSpec.t unit :=
  {| to_vec := fun o => Ok (KeptSecret o); from_slice := fun b => match b with KeptSecret o => Ok o | _ => Err "expected value" end |}.
#[export] Instance tier_secrets_laws : SerdeLaws bytes SecretSpec.t unit.
Proof. constructor. by intros o b [= <-]. Qed.
#[export] Instance tier_clusters : Serde bytes ClusterSpec.t ClusterStatus.t :=
  {| to_vec := fun o => Ok (KeptCluster o); from_slice := fun b => match b with KeptCluster o => Ok o | _ => Err "expected value" end |}.
#[export] Instance tier_events : Serde bytes EventSpec.t unit :=
  {| to_vec := fun o => Ok (KeptEvent o); from_slice := fun b => match b with KeptEvent o => Ok o | _ => Err "expected value" end |}.

(** The kinds of which these runs hold none. *)
Definition none_kept {Sp St} : Serde bytes Sp St :=
  {| to_vec := fun _ => Err "not kept"; from_slice := fun _ => Err "expected value" |}.
#[export] Instance tier_tenants : Serde bytes TenantSpec.t TenantStatus.t := none_kept.
#[export] Instance tier_floating : Serde bytes FloatingIpSpec.t FloatingIpStatus.t := none_kept.
#[export] Instance tier_subnets : Serde bytes RoutedSubnetSpec.t RoutedSubnetStatus.t := none_kept.
#[export] Instance tier_routers : Serde bytes RouterSpec.t RouterStatus.t := none_kept.
#[export] Instance tier_floating_pools : Serde bytes FloatingPoolSpec.t unit := none_kept.
#[export] Instance tier_networks : Serde bytes ProviderNetworkSpec.t unit := none_kept.
#[export] Instance tier_nodes : Serde bytes NodeSpec.t NodeStatus.t := none_kept.

#[export] Instance tier_migrations : Serde bytes VmMigrationSpec.t VmMigrationStatus.t := none_kept.
#[export] Instance tier_reservations : Serde bytes CapacityReservationSpec.t unit := none_kept.
#[export] Instance tier_status : StatusJson :=
  {| write_status e := ApiError.message e; read_status _ := None; status_text := show_N; lossy_trim s := s |}.

Definition store (l : list (string * bytes)) : mem bytes :=
  mem_commit mem_empty (map (fun '(k, b) => Put ("p/registry/" +:+ k) b NoLease) l).

Definition start (s : mem bytes) : cloud (mem bytes) := Cloud (World s 0) [] Ledger.default (LazyBook.new []) [].

Definition cluster_start (s : mem bytes) : pass (mem bytes) := Pass (World s 0) [] [] [] [].

(** What is stored under a name, as a read decodes it. *)
Definition stored {Sp St} `{!Serde bytes Sp St} (k : string) (s : mem bytes) : option (Object Sp St) :=
  kv ← look s ("p/registry/" +:+ k); result_ok (decode (kv_value kv) (mod_revision kv)).

(** d1 in a pool that east and west both serve, its record at a cluster. *)
Definition shared_pool : StoragePool :=
  with_spec ten_gib
    {| StoragePoolSpec.driver := "ceph"; StoragePoolSpec.nodes := []; StoragePoolSpec.params := None;
       StoragePoolSpec.default := true; StoragePoolSpec.quota := []; StoragePoolSpec.cluster := "east";
       StoragePoolSpec.clusters := ["west"]; StoragePoolSpec.description := "" |}.

Definition disk_at (cluster : option string) (seen : option instant) : Volume :=
  CloudEdit.set_volume (volume_of "d1" 5) None None cluster 0 seen.

(** v1 with the disk d1, bound to a cluster. *)
Definition guest (cluster : option string) : Vm :=
  let v := vm_at cluster "v1" (Some 1%Z) in
  let s := spec v in
  with_spec v
    {| VmSpec.node_name := None; VmSpec.cluster_name := cluster; VmSpec.run_strategy := VmSpec.run_strategy s;
       VmSpec.evacuation := VmSpec.evacuation s; VmSpec.tenant := VmSpec.tenant s; VmSpec.class_ := VmSpec.class_ s;
       VmSpec.cluster_selector := VmSpec.cluster_selector s; VmSpec.node_selector := VmSpec.node_selector s;
       VmSpec.anti_affinity := VmSpec.anti_affinity s;
       VmSpec.vm := Json.Object [("volumes", Array [Json.Object [("volume", Str "d1")]])] |}.

(** A report of nothing, later than everything. *)
Definition blank : Report.t := {| Report.at_ := 100%Z; Report.uids := []; Report.routers := None |}.

(** Clusters that answer as told, and report nothing. *)
Definition answering (answer : string -> CloudOp.t -> Answer.t) : clusters :=
  {| speaks := fun _ _ => true; answers := fun _ => answer; report := fun _ _ => Some blank; secrets_of := fun _ _ => [] |}.

Definition cloud_turn (net : clusters) (v : Vm) (c : cloud (mem bytes)) : cloud (mem bytes) * result Failure.t unit :=
  reconcile_vm "p" quiet net FirstFit_assign ["east"; "west"] (fun _ => "doc") (fun _ _ => 1%Z) (fun _ => "u") v c.
End Tier.
