(* ===== verification/CloudSafety.v ===== *)
(** What the cloud's pass over VMs tells its clusters: the logic of the commands of
    [CloudPass], and the theorems about them. *)
From Stdlib Require Import Ascii String NArith ZArith List Bool Lia.
From stdpp Require Import base list strings gmap relations.
From S2P Require Import Prelude RustStr Json Net Capability Heartbeat Vm Node Storage Sizing Placement Diagnosis.
From S2P Require Import Floating Quota AddressSpace Lifecycle Gateways Dispatch Namespaces SpecDocs.
From S2P Require Import Rooms CloudPlace MigrationRules ClusterMigration Deletion PlacePass VmPass DrainPass VolumePass.
From S2P Require Import CloudPass.
From S2P Require Import Phase Objects Store StoreSafety Growth.

(** * The logic of commands *)

(** The database moved along its history and nothing that was said is unsaid. *)
Definition reaches {D Bytes} `{!Etcd D Bytes} (a b : cloud D) : Prop :=
  evolves (db (c_store a)) (db (c_store b)) /\ exists said, c_sent b = c_sent a ++ said.

(** From a state that [c0] reaches on, the computation hands over commands that
    satisfy [P] of the state at that moment. *)
Definition tells {D Bytes A} `{!Etcd D Bytes} (c0 : cloud D) (P : cloud D -> string * CloudOp.t -> Prop)
    (m : cloud_m D A) : Prop :=
  forall c c' r, reaches c0 c -> m c = (c', r) ->
    reaches c c'
    /\ exists new, c_sent c' = c_sent c ++ map snd new
       /\ Forall (fun x => reaches c x.1 /\ reaches x.1 c' /\ P x.1 x.2) new.

Section logic.
Context {D Bytes : Type} `{!Etcd D Bytes}.
Implicit Types (P : cloud D -> string * CloudOp.t -> Prop) (c : cloud D).

Lemma reaches_refl c : reaches c c.
Proof. split; [by apply rtc_refl|]. exists []. by rewrite app_nil_r. Qed.

Lemma reaches_trans a b c : reaches a b -> reaches b c -> reaches a c.
Proof.
  intros [H1 [s1 E1]] [H2 [s2 E2]]. split; [by etrans|]. exists (s1 ++ s2). by rewrite E2, E1, app_assoc.
Qed.

Lemma reaches_store c w : evolves (db (c_store c)) (db w) -> reaches c (with_store c w).
Proof. intros H. split; [done|]. exists []. simpl. by rewrite app_nil_r. Qed.

Lemma cloud_bind_run {A B} (m : cloud_m D A) (k : A -> cloud_m D B) c c' r :
  (m ≫= k) c = (c', r) ->
  exists c1 a, m c = (c1, a) /\ match a with Ok x => k x c1 = (c', r) | Err e => c1 = c' /\ r = Err e end.
Proof.
  unfold mbind, cloud_bind. destruct (m c) as [c1 [a|e]]; intros H; eexists _, _; (split; [done|]); [done|].
  by injection H as <- <-.
Qed.

Lemma tells_silent {A} c0 P (m : cloud_m D A) :
  (forall c c' r, m c = (c', r) -> reaches c c' /\ c_sent c' = c_sent c) -> tells c0 P m.
Proof. intros H c c' r _ [Hd Hs]%H. split; [done|]. exists []. by rewrite app_nil_r. Qed.

Lemma tells_ret {A} c0 P (a : A) : tells c0 P (mret (M := cloud_m D) a).
Proof. apply tells_silent. intros c c' r [= <- <-]. by split; [apply reaches_refl|]. Qed.

Lemma tells_fail {A} c0 P e : tells c0 P (c_fail (A := A) e).
Proof. apply tells_silent. intros c c' r [= <- <-]. by split; [apply reaches_refl|]. Qed.

Lemma tells_fail_then {A B} c0 P e (k : A -> cloud_m D B) : tells c0 P (c_fail e ≫= k).
Proof. apply tells_silent. intros c c' r [= <- <-]. by split; [apply reaches_refl|]. Qed.

Lemma tells_note c0 P r : tells c0 P (c_note r).
Proof.
  apply tells_silent. intros c c' x [= <- <-]. split; [|done]. split; [by apply rtc_refl|]. exists []. simpl. by rewrite app_nil_r.
Qed.

Lemma tells_st {A} c0 P (m : store_m D A) : grows m -> tells c0 P (c_st m).
Proof.
  intros Hm. apply tells_silent. intros c c' r. unfold c_st. destruct (m (c_store c)) as [w x] eqn:E.
  intros [= <- <-]. split; [|done]. apply reaches_store. by eapply Hm.
Qed.

Lemma tells_try {A} c0 P (m : store_m D A) : grows m -> tells c0 P (c_try m).
Proof.
  intros Hm. apply tells_silent. intros c c' r. unfold c_try. destruct (m (c_store c)) as [w x] eqn:E.
  intros [= <- <-]. split; [|done]. apply reaches_store. by eapply Hm.
Qed.

Lemma tells_attempt {A} c0 P (m : cloud_m D A) : tells c0 P m -> tells c0 P (c_attempt m).
Proof.
  intros Hm c c' r Hs. unfold c_attempt. destruct (m c) as [c1 x] eqn:E. intros [= <- <-]. by apply Hm in E.
Qed.

Lemma tells_report c0 P net cluster : tells c0 P (c_report net cluster).
Proof. apply tells_silent. intros c c' r [= <- <-]. by split; [apply reaches_refl|]. Qed.

Lemma tells_later {A} c0 c1 P (m : cloud_m D A) : reaches c0 c1 -> tells c0 P m -> tells c1 P m.
Proof. intros Hs Hm c c' r Hc. apply Hm. by eapply reaches_trans. Qed.

(** The continuation starts where the first part ended. *)
Lemma tells_bind {A B} c0 P (m : cloud_m D A) (k : A -> cloud_m D B) :
  tells c0 P m ->
  (forall c c' a, reaches c0 c -> reaches c c' -> m c = (c', Ok a) -> tells c' P (k a)) ->
  tells c0 P (m ≫= k).
Proof.
  intros Hm Hk c c' r Hs (c1 & [a|e] & H1 & H2)%cloud_bind_run.
  - destruct (Hm _ _ _ Hs H1) as (E1 & n1 & S1 & F1).
    destruct (Hk _ _ _ Hs E1 H1 _ _ _ (reaches_refl _) H2) as (E2 & n2 & S2 & F2).
    split; [by eapply reaches_trans|]. exists (n1 ++ n2). rewrite S2, S1, map_app, app_assoc. split; [done|].
    apply Forall_app. split.
    + eapply Forall_impl; [exact F1|]. intros x (? & ? & ?). split_and!; [done|by eapply reaches_trans|done].
    + eapply Forall_impl; [exact F2|]. intros x (? & ? & ?). split_and!; [by eapply reaches_trans|done|done].
  - destruct H2 as [<- ->]. by apply Hm in H1.
Qed.

(** What was done before does not matter to the rest. *)
Lemma tells_seq {A B} c0 P (m : cloud_m D A) (k : A -> cloud_m D B) :
  tells c0 P m -> (forall a, tells c0 P (k a)) -> tells c0 P (m ≫= k).
Proof.
  intros Hm Hk. apply tells_bind; [done|]. intros c c' a Hs Hr _. eapply tells_later; [|apply Hk].
  by eapply reaches_trans.
Qed.

Lemma tells_send c0 P net cluster op :
  (forall c, reaches c0 c -> P c (cluster, op)) -> tells c0 P (c_send net cluster op).
Proof.
  intros HP c c' r Hs. unfold c_send. destruct (speaks _ _ _).
  - intros [= <- <-]. split; [split; [by apply rtc_refl|]; by eexists|].
    exists [(c, (cluster, op))]. split; [done|]. constructor; [|done]. simpl.
    split_and!; [apply reaches_refl| |by apply HP]. split; [by apply rtc_refl|]. by eexists.
  - intros [= <- <-]. split; [apply reaches_refl|]. exists []. by rewrite app_nil_r.
Qed.
End logic.

Lemma c_try_run {D A} (m : store_m D A) (c c' : cloud D) r :
  c_try m c = (c', Ok r) -> m (c_store c) = (c_store c', r).
Proof. unfold c_try. destruct (m (c_store c)) as [w x]. by intros [= <- <-]. Qed.

Lemma c_st_run {D A} (m : store_m D A) (c c' : cloud D) a :
  c_st m c = (c', Ok a) -> m (c_store c) = (c_store c', Ok a).
Proof. unfold c_st. destruct (m (c_store c)) as [w [x|e]]; [|done]. by intros [= <- <-]. Qed.

(** Follows the states of a turn through the hypotheses. *)
Ltac reach :=
  first
    [ assumption
    | apply reaches_refl
    | match goal with H : reaches ?a ?b |- reaches ?a _ => apply (reaches_trans _ b); [exact H|clear H; reach] end ].

(** Walks a computation down to its commands. *)
Ltac tell :=
  lazymatch goal with
  | |- tells _ _ (_ ≫= _) => apply tells_seq; [|intros ?]
  | |- tells _ _ (c_attempt _) => apply tells_attempt
  | |- tells _ _ (mret _) => apply tells_ret
  | |- tells _ _ (c_fail _) => apply tells_fail
  | |- tells _ _ (c_note _) => apply tells_note
  | |- tells _ _ (c_report _ _) => apply tells_report
  | |- tells _ _ (c_st _) => apply tells_st; eauto with growth
  | |- tells _ _ (c_try _) => apply tells_try; eauto with growth
  | |- tells _ _ (match ?x with _ => _ end) => destruct x eqn:?
  end.

(** * What a turn over a VM may say *)

Section turn.
Context {D Bytes : Type} `{!Etcd D Bytes, !EtcdLaws D Bytes, !RawJson Bytes}.
Context `{!Serde Bytes VmSpec.t VmStatus.t, !Resource VmSpec.t VmStatus.t, !Serde Bytes ClusterSpec.t ClusterStatus.t,
  !Serde Bytes VolumeSpec.t VolumeStatus.t, !Serde Bytes StoragePoolSpec.t StoragePoolStatus.t,
  !Serde Bytes VolumeSnapshotSpec.t VolumeSnapshotStatus.t, !Serde Bytes SecretSpec.t unit,
  !Serde Bytes TenantSpec.t TenantStatus.t, !Serde Bytes EventSpec.t unit,
  !Serde Bytes FloatingIpSpec.t FloatingIpStatus.t, !Serde Bytes RoutedSubnetSpec.t RoutedSubnetStatus.t,
  !Serde Bytes RouterSpec.t RouterStatus.t, !Serde Bytes FloatingPoolSpec.t unit,
  !Serde Bytes ProviderNetworkSpec.t unit}.
Context (prefix : string) (sur : surroundings D) (net : clusters) (assign : Vm -> list Candidate.t -> option string).
Context (sessions : list string) (render : value -> string) (new_lease : Z -> nat -> Z) (new_uid : nat -> string).

(** The turn starts at [c0]; [x] is a moment of it. *)
Context (c0 : cloud D) (v : Vm).
Implicit Types (x : cloud D).

(** Between the start of the turn and [x]. *)
Definition earlier (x : cloud D) (w w' : world D) : Prop :=
  evolves (db (c_store c0)) (db w) /\ evolves (db w') (db (c_store x)).

(** The record of a volume was read at a cluster: its own word, or its pool's home. *)
Definition record_read (x : cloud D) (n : string) (volume : Volume) (cluster : option string) : Prop :=
  exists w w' w2 w2' pool,
    evolves (db (c_store c0)) (db w) /\ evolves (db w') (db w2) /\ evolves (db w2') (db (c_store x))
    /\ get (Sp := VolumeSpec.t) (St := VolumeStatus.t) prefix sur n w = (w', Ok volume)
    /\ get (Sp := StoragePoolSpec.t) (St := StoragePoolStatus.t) prefix sur (VolumeSpec.pool (spec volume)) w2 = (w2', Ok pool)
    /\ option_or (VolumeStatus.cluster (status volume)) (StoragePoolSpec.home (spec pool)) = cluster.

(** A disk of the VM is where the VM goes, or is no more. *)
Definition disk_there (k : string) (x : cloud D) (n : string) : Prop :=
  (exists w w' why, earlier x w w'
     /\ get (Sp := VolumeSpec.t) (St := VolumeStatus.t) prefix sur n w = (w', Err (StoreError.NotFound why)))
  \/ exists volume, record_read x n volume (Some k).

(** A current report of the cluster was read. *)
Definition heard_of (k : string) (x : cloud D) (r : Report.t) : Prop :=
  exists a, reaches c0 a /\ reaches a x /\ report net (c_sent a) k = Some r /\ status_is_current v (Report.at_ r) = true.

Definition clock_read (x : cloud D) (t : instant) : Prop :=
  exists a, reaches c0 a /\ reaches a x /\ t = clock sur (ticks (c_store a)).

(** The cluster lacks the VM or its newest intent, and has not just refused it. *)
Definition due (k : string) (x : cloud D) : Prop :=
  VmStatus.evacuating (status v) = None
  /\ exists r t, heard_of k x r /\ clock_read x t
     /\ must_hand_down v (negb (str_in (Objects.uid (metadata v)) (Report.uids r))) t = true.

(** The VM is being moved off the cluster by restart and still runs there. *)
Definition stopping (k : string) (x : cloud D) : Prop :=
  exists mark r t, VmStatus.evacuating (status v) = Some mark /\ Evacuating.from mark = k
    /\ EvacuationStep.parse (Evacuating.step mark) = Some EvacuationStep.Stopping
    /\ (vm_kind v = VmPhaseKind.Running \/ vm_kind v = VmPhaseKind.Paused)
    /\ heard_of k x r /\ clock_read x t /\ answered_since v (Evacuating.since mark) t = false.

Definition network_read (x : cloud D) (network : TenantNetwork.t) : Prop :=
  match VmSpec.tenant (spec v) with
  | None => network = TenantNetwork.default
  | Some tenant =>
      (network = TenantNetwork.default
       /\ (tenant = "" \/ exists w w' why, earlier x w w'
            /\ get (Sp := TenantSpec.t) (St := TenantStatus.t) prefix sur tenant w = (w', Err (StoreError.NotFound why))))
      \/ exists w w' t, earlier x w w' /\ get (Sp := TenantSpec.t) (St := TenantStatus.t) prefix sur tenant w = (w', Ok t)
         /\ network = {| TenantNetwork.vni := TenantSpec.vni (spec t);
                         TenantNetwork.prefixes := TenantSpec.network_prefixes (spec t) |}
  end.

(** The command carries the VM, its tenant's network and what the book says of it. *)
Definition carries_vm (x : cloud D) (c : CreateVm.t) : Prop :=
  exists network lazy lazy' w w' addresses doc,
    network_read x network
    /\ LazyBook.addresses prefix sur lazy v (TenantNetwork.prefixes network) w = (lazy', w', Ok addresses)
    /\ cloud_spec_json v = Ok doc
    /\ c = {| CreateVm.name := name (metadata v); CreateVm.uid := Objects.uid (metadata v);
              CreateVm.spec_json := render doc; CreateVm.vni := TenantNetwork.vni network;
              CreateVm.floating_ips := Addresses.floating_ips addresses;
              CreateVm.routed_subnets := Addresses.source_prefixes addresses; CreateVm.labels := labels (metadata v) |}.

Definition cloud_permitted (x : cloud D) (c : string * CloudOp.t) : Prop :=
  let (k, op) := c in
  match op with
  | CloudOp.Create create =>
      VmSpec.cluster_name (spec v) = Some k /\ str_in k sessions = true /\ is_deleting v = false
      /\ vm_kind v <> VmPhaseKind.Failed /\ carries_vm x create
      /\ (due k x /\ Forall (disk_there k x) (VmSpec.referenced_volumes (spec v)) \/ stopping k x)
  | CloudOp.Destroy n u =>
      n = name (metadata v) /\ u = Objects.uid (metadata v) /\ str_in k sessions = true
      /\ if is_deleting v
         then VmSpec.cluster_name (spec v) = Some k
              /\ exists a, reaches c0 a /\ reaches a x
                 /\ is_none_or (fun r => str_in u (Report.uids r)) (report net (c_sent a) k) = true
         else VmSpec.cluster_name (spec v) = None /\ VmStatus.cluster_name (status v) = Some k
  | CloudOp.ReleaseVolume n u =>
      is_deleting v = false
      /\ exists home volume, VmSpec.cluster_name (spec v) = Some home /\ k <> home /\ due home x
         /\ In n (VmSpec.referenced_volumes (spec v)) /\ u = Objects.uid (metadata volume)
         /\ record_read x n volume (Some k)
  | _ => False
  end.

(** ** What was true earlier in the turn stays so *)

Lemma reaches_evolves (a b : cloud D) : reaches a b -> evolves (db (c_store a)) (db (c_store b)).
Proof. by intros [? _]. Qed.

Lemma record_read_later x y n volume k : reaches x y -> record_read x n volume k -> record_read y n volume k.
Proof.
  intros Hxy%reaches_evolves (w & w' & w2 & w2' & pool & ? & ? & ? & ?). exists w, w', w2, w2', pool.
  split_and!; [done|done|by etrans|naive_solver..].
Qed.

Lemma disk_there_later k x y n : reaches x y -> disk_there k x n -> disk_there k y n.
Proof.
  intros Hxy [(w & w' & why & [? ?] & ?)|(volume & ?)].
  - left. exists w, w', why. split; [|done]. split; [done|]. apply reaches_evolves in Hxy. by etrans.
  - right. exists volume. by eapply record_read_later.
Qed.

Lemma heard_of_later k x y r : reaches x y -> heard_of k x r -> heard_of k y r.
Proof. intros Hxy (a & ? & ? & ?). exists a. split_and!; [done|by eapply reaches_trans|naive_solver..]. Qed.

Lemma clock_read_later x y t : reaches x y -> clock_read x t -> clock_read y t.
Proof. intros Hxy (a & ? & ? & ?). exists a. split_and!; [done|by eapply reaches_trans|done]. Qed.

Lemma due_later k x y : reaches x y -> due k x -> due k y.
Proof.
  intros Hxy (? & r & t & ? & ? & ?). split; [done|]. exists r, t.
  split_and!; [by eapply heard_of_later|by eapply clock_read_later|done].
Qed.

Lemma stopping_later k x y : reaches x y -> stopping k x -> stopping k y.
Proof.
  intros Hxy (mark & r & t & ? & ? & ? & ? & ? & ? & ?). exists mark, r, t.
  split_and!; [done..|by eapply heard_of_later|by eapply clock_read_later|done].
Qed.

Lemma network_read_later x y network : reaches x y -> network_read x network -> network_read y network.
Proof.
  intros Hxy%reaches_evolves. unfold network_read. destruct (VmSpec.tenant (spec v)) as [tenant|]; [|done].
  intros [[? [?|(w & w' & why & [? ?] & ?)]]|(w & w' & t & [? ?] & ?)].
  - left. auto.
  - left. split; [done|right]. exists w, w', why. split; [|done]. split; [done|by etrans].
  - right. exists w, w', t. split; [|done]. split; [done|by etrans].
Qed.

(** ** Steps that say nothing *)

Context (Henv : lawful_env sur).

Lemma grows_tried {A} (m : store_m D A) : grows m -> grows (tried m).
Proof using. intros Hm w w' r. unfold tried. destruct (m w) as [w1 x] eqn:E. intros [= <- <-]. by eapply Hm. Qed.

Lemma grows_list_complete {Sp St} `{!Resource Sp St, !Serde Bytes Sp St} stake :
  grows (list_complete (Sp := Sp) (St := St) prefix sur stake).
Proof using Henv.
  apply grows_bind; [apply grows_bind; [by apply grows_read|intros; apply grows_ret]|intros r].
  destruct (negb _); [apply grows_lift|apply grows_ret].
Qed.

Lemma grows_volume_and_pool n : grows (volume_and_pool prefix sur n).
Proof using Henv.
  apply grows_bind; [apply grows_tried; eauto with growth|]. intros [volume|[]]; eauto with growth.
  apply grows_bind; [apply grows_tried; eauto with growth|]. intros [pool|[]]; eauto with growth.
Qed.

Lemma grows_wanted vm : grows (wanted prefix sur vm).
Proof using Henv.
  unfold wanted. generalize (VmSpec.referenced_volumes (spec vm)) as names.
  intros names. generalize (@None (list string)) at 1 as clusters. generalize (@None (list string)) as allowed.
  induction names as [|n names IH]; intros allowed clusters; simpl; [apply grows_ret|].
  apply grows_bind; [apply grows_volume_and_pool|]. intros [[volume pool]|sentence]; [|apply grows_ret].
  destruct (pool_serving pool n); [|apply grows_ret]. destruct (narrow_clusters _ _ _); [|apply grows_ret].
  destruct (negb _); [apply grows_ret|apply IH].
Qed.

Lemma grows_book : grows (AddressBook.read prefix sur).
Proof using Henv. repeat (apply grows_bind; [apply grows_list_complete|intros]). apply grows_ret. Qed.

Lemma grows_space pools : grows (ClaimedSpace.read prefix sur pools).
Proof using Henv. unfold ClaimedSpace.read. repeat (apply grows_bind; [apply grows_list_complete|intros]). apply grows_ret. Qed.

Lemma tells_event c P kind nm uid reason message event_type tenant :
  tells c P (c_event prefix sur new_lease new_uid kind nm uid reason message event_type tenant).
Proof using Henv EtcdLaws0.
  apply tells_silent. intros a a' r [= <- <-]. split; [|done]. apply reaches_store. by apply grows_record.
Qed.

Lemma tells_edit c P (o : Vm) f : tells c P (c_edit prefix sur o f).
Proof using Henv EtcdLaws0. apply tells_st. eauto with growth. Qed.

Lemma tells_now c P : tells c P (c_now sur).
Proof using. apply tells_st, grows_now. Qed.

Lemma tells_pending c P category reason : tells c P (note_pending prefix sur new_lease new_uid v category reason).
Proof using Henv EtcdLaws0.
  unfold note_pending. repeat first [apply tells_now | apply tells_edit | apply tells_event | tell].
Qed.

Lemma tells_bound c P cluster : tells c P (bind prefix sur new_lease new_uid v cluster).
Proof using Henv EtcdLaws0.
  unfold bind. repeat first [apply tells_now | apply tells_event | tell].
Qed.

Lemma tells_pick c P w : tells c P (pick assign v w).
Proof using.
  apply tells_silent. intros a a' r. unfold pick. destruct (pick_cluster _ _ _ _) as [ledger x]. intros [= <- <-].
  split; [|done]. split; [by apply rtc_refl|]. exists []. simpl. by rewrite app_nil_r.
Qed.

Lemma tells_stamp c P carried : tells c P (stamp_addresses prefix sur carried).
Proof using Henv EtcdLaws0.
  induction carried as [|x l IH]; simpl; [apply tells_ret|]. apply tells_seq; [|intros _; apply IH].
  destruct (String.eqb _ _); repeat tell.
Qed.

Lemma tells_refused_prefixes c P l : tells c P (note_refused_prefixes prefix sur new_lease new_uid l).
Proof using Henv EtcdLaws0.
  induction l as [|x l IH]; simpl; [apply tells_ret|]. apply tells_seq; [apply tells_event|intros _; apply IH].
Qed.

Lemma tells_addresses c P declared : tells c P (addresses_for prefix sur v declared).
Proof using Henv.
  apply tells_silent. intros a a' r. unfold addresses_for, LazyBook.addresses.
  assert (Hinit : forall A (cell : option A) init w w' y, grows init ->
            LazyBook.get_or_try_init cell init w = (w', y) -> evolves (db w) (db w')).
  { intros A [cell|] init w w' y Hi; simpl; [intros [= <- <-]; by apply rtc_refl|apply Hi]. }
  assert (Hdone : forall w lazy, evolves (db (c_store a)) (db w) ->
            reaches a (Cloud w (c_sent a) (c_ledger a) lazy (c_noted a))).
  { intros w lazy Hw. split; [done|]. exists []. simpl. by rewrite app_nil_r. }
  destruct (LazyBook.get_or_try_init (LazyBook.book (c_book a)) _ _) as [w1 [b|e]] eqn:E1;
    apply Hinit in E1; [|apply grows_book| |apply grows_book].
  - destruct (AddressBook.tenant_reaching_beyond_own b v declared) as [tenant|].
    + destruct (LazyBook.get_or_try_init (LazyBook.claimed (c_book a)) _ _) as [w2 [cl|e]] eqn:E2;
        apply Hinit in E2; try apply grows_space; intros [= <- <-]; (split; [apply Hdone; by etrans|done]).
    + intros [= <- <-]. by split; [apply Hdone|].
  - intros [= <- <-]. by split; [apply Hdone|].
Qed.

Lemma tells_network c P : tells c P (tenant_network prefix sur (VmSpec.tenant (spec v))).
Proof using Henv. unfold tenant_network. repeat tell. Qed.

(** What was read of the tenant. *)
Lemma tenant_network_read c c' network :
  reaches c0 c -> tenant_network prefix sur (VmSpec.tenant (spec v)) c = (c', Ok network) -> network_read c' network.
Proof using.
  intros Hc. unfold tenant_network, network_read. destruct (VmSpec.tenant (spec v)) as [tenant|]; [|by intros [= <- <-]].
  destruct (str_is_empty tenant) eqn:Ee.
  { intros [= <- <-]. left. split; [done|left]. by destruct tenant. }
  intros (c1 & [r|e] & H1 & H2)%cloud_bind_run; [|by destruct H2]. revert H1. unfold c_try.
  destruct (get _ _ _ _) as [w x] eqn:Eg. intros [= <- <-].
  assert (He : earlier (with_store c w) (c_store c) w).
  { split; [by apply reaches_evolves|]. by apply rtc_refl. }
  destruct x as [t|[]]; try done; injection H2 as <- <-.
  - right. by exists (c_store c), w, t.
  - left. split; [done|right]. eauto.
Qed.

Lemma addresses_read c c' declared a :
  addresses_for prefix sur v declared c = (c', Ok a) ->
  exists lazy', LazyBook.addresses prefix sur (c_book c) v declared (c_store c) = (lazy', c_store c', Ok a).
Proof using.
  unfold addresses_for. destruct (LazyBook.addresses _ _ _ _ _ _) as [[lazy w] [x|[[ctx|] e]]] eqn:E; try done.
  intros [= <- <-]. by exists lazy.
Qed.

(** ** Handing the VM down *)

Definition road (k : string) (x : cloud D) : Prop :=
  due k x /\ Forall (disk_there k x) (VmSpec.referenced_volumes (spec v)) \/ stopping k x.

Lemma road_later k x y : reaches x y -> road k x -> road k y.
Proof using.
  intros Hxy [[Hd Hf]|Hs]; [left|right; by eapply stopping_later].
  split; [by eapply due_later|]. eapply Forall_impl; [exact Hf|]. intros n. by apply disk_there_later.
Qed.

Lemma tells_create c1 k :
  reaches c0 c1 -> VmSpec.cluster_name (spec v) = Some k -> str_in k sessions = true -> is_deleting v = false ->
  vm_kind v <> VmPhaseKind.Failed -> road k c1 ->
  tells c1 cloud_permitted (dispatch_create prefix sur net render new_lease new_uid k v).
Proof using Henv EtcdLaws0.
  intros H01 Hk Hs Hd Hf Hr. unfold dispatch_create.
  apply tells_bind; [apply tells_network|]. intros a a' network Ha Haa Hn.
  apply tenant_network_read in Hn; [|by eapply reaches_trans].
  apply tells_bind; [apply tells_addresses|]. intros b b' addresses Hb Hbb (lazy' & Hl)%addresses_read.
  apply tells_seq; [apply tells_refused_prefixes|intros _].
  unfold document_of. destruct (cloud_spec_json v) as [doc|why] eqn:Ed; [|apply tells_fail_then].
  change (mret (render doc) ≫= ?k) with (k (render doc)). cbv beta.
  apply tells_seq.
  - tell. apply tells_send. intros x Hx. split_and!; [done..| |eapply road_later; [|exact Hr]; reach].
    exists network, (c_book b), lazy', (c_store b), (c_store b'), addresses, doc. split_and!; [|done..].
    eapply network_read_later; [|exact Hn]. reach.
  - intros answer. repeat first [apply tells_now | apply tells_edit | apply tells_stamp | tell].
Qed.

(** ** The disks before the VM *)

Lemma tells_move_volume c1 k n :
  reaches c0 c1 -> VmSpec.cluster_name (spec v) = Some k -> is_deleting v = false ->
  In n (VmSpec.referenced_volumes (spec v)) -> due k c1 ->
  tells c1 cloud_permitted (move_volume prefix sur net k n).
Proof using Henv EtcdLaws0.
  intros H01 Hk Hd Hin Hdue. unfold move_volume. apply tells_bind; [repeat tell|].
  intros a a' r Ha Haa Hg. destruct r as [volume|[]]; try (by repeat tell).
  apply tells_bind; [repeat tell|]. intros b b' pool Hb Hbb Hp.
  case_bool_decide as He; [apply tells_ret|]. apply tells_seq; [|intros _; repeat first [apply tells_now | tell]].
  destruct (option_or _ _) as [old|] eqn:Eo; [|apply tells_ret]. apply tells_seq; [|intros; apply tells_ret].
  apply tells_send. intros x Hx. split; [done|]. exists k, volume. split_and!; [done|congruence| |done|done|].
  { eapply due_later; [|exact Hdue]. reach. }
  apply c_try_run in Hg. apply c_st_run in Hp.
  exists (c_store a), (c_store a'), (c_store b), (c_store b'), pool.
  split_and!; [apply reaches_evolves; reach..|done|done|done].
Qed.

Lemma tells_moves c1 k names all_there :
  reaches c0 c1 -> VmSpec.cluster_name (spec v) = Some k -> is_deleting v = false ->
  incl names (VmSpec.referenced_volumes (spec v)) -> due k c1 ->
  tells c1 cloud_permitted (move_each prefix sur net k names all_there).
Proof using Henv EtcdLaws0.
  revert all_there. induction names as [|n names IH]; intros all_there H01 Hk Hd Hin Hdue; simpl; [apply tells_ret|].
  apply tells_seq; [apply tells_move_volume; [done..|apply Hin; by left|done]|intros there].
  apply IH; try done. intros m Hm. apply Hin. by right.
Qed.

Lemma volume_moved k n c c' :
  reaches c0 c -> move_volume prefix sur net k n c = (c', Ok true) -> disk_there k c' n.
Proof using Henv.
  intros Hc (c1 & [r|e] & Hg & Hk)%cloud_bind_run; [|by destruct Hk]. apply c_try_run in Hg.
  pose proof (reaches_evolves _ _ Hc) as Hev.
  destruct r as [volume|[]]; try done.
  - apply cloud_bind_run in Hk as (c2 & [pool|e] & Hp & Hk); [|by destruct Hk]. apply c_st_run in Hp.
    revert Hk. cbv zeta. case_bool_decide as He.
    + intros [= <-]. right. exists volume. exists (c_store c), (c_store c1), (c_store c1), (c_store c2), pool.
      split_and!; try done; by apply rtc_refl.
    + intros (c3 & [y|e] & _ & Hk)%cloud_bind_run; [|by destruct Hk].
      apply cloud_bind_run in Hk as (c4 & [z|e] & _ & Hk); [|by destruct Hk].
      by apply cloud_bind_run in Hk as (c5 & [u|e] & _ & Hk); [|by destruct Hk].
  - injection Hk as <-. left. exists (c_store c), (c_store c1). eexists. split; [|exact Hg]. split; [done|by apply rtc_refl].
Qed.

Lemma volumes_moved k names all_there c c' :
  reaches c0 c -> VmSpec.cluster_name (spec v) = Some k -> is_deleting v = false ->
  incl names (VmSpec.referenced_volumes (spec v)) -> due k c ->
  move_each prefix sur net k names all_there c = (c', Ok true) -> all_there = true /\ Forall (disk_there k c') names.
Proof using Henv EtcdLaws0 sessions render Serde6 Serde8 Serde9 Serde10 Serde11 Serde12.
  revert all_there c. induction names as [|n names IH]; intros all_there c Hc Hk Hd Hin Hdue; simpl.
  { intros [= <- ->]. by split. }
  intros (c1 & [there|e] & Hm & Hr)%cloud_bind_run; [|by destruct Hr].
  destruct (tells_move_volume c k n Hc Hk Hd (Hin n (or_introl eq_refl)) Hdue _ _ _ (reaches_refl c) Hm) as [H1 _].
  assert (Hin' : incl names (VmSpec.referenced_volumes (spec v))) by (intros m Hm'; apply Hin; by right).
  assert (Hc1 : reaches c0 c1) by reach. pose proof (due_later _ _ _ H1 Hdue) as Hdue1.
  destruct (tells_moves c1 k names (all_there && there) Hc1 Hk Hd Hin' Hdue1 _ _ _ (reaches_refl c1) Hr) as [H2 _].
  apply IH in Hr as [[-> ->]%andb_true_iff Hf]; [|done..]. split; [done|]. constructor; [|done].
  eapply disk_there_later; [exact H2|]. exact (volume_moved _ _ _ _ Hc Hm).
Qed.

Lemma tells_hand_down c1 k r :
  reaches c0 c1 -> VmSpec.cluster_name (spec v) = Some k -> str_in k sessions = true -> is_deleting v = false ->
  vm_kind v <> VmPhaseKind.Failed -> VmStatus.evacuating (status v) = None -> heard_of k c1 r ->
  tells c1 cloud_permitted (hand_down prefix sur net render new_lease new_uid v k r).
Proof using Henv EtcdLaws0.
  intros H01 Hk Hs Hd Hf He Hh. unfold hand_down. apply tells_bind; [apply tells_now|].
  intros a a' t Ha Haa Ht. apply c_st_run in Ht. injection Ht as Hw Ht.
  destruct (must_hand_down _ _ _) eqn:Em; [|apply tells_ret].
  assert (Hdue : due k a').
  { split; [done|]. exists r, t. split_and!; [eapply heard_of_later; [|exact Hh]; reach| |done].
    exists a. split_and!; [reach|reach|done]. }
  assert (H0a : reaches c0 a') by reach.
  apply tells_bind; [apply tells_moves; try done; apply incl_refl|]. intros b b' there Hb Hbb Hm.
  destruct there; [|apply tells_pending].
  apply tells_create; try done; [reach|]. left.
  assert (H0b : reaches c0 b) by reach. pose proof (due_later _ _ _ Hb Hdue) as Hdueb.
  destruct (volumes_moved k _ true b b' H0b Hk Hd (incl_refl _) Hdueb Hm) as [_ Hthere].
  split; [|done]. exact (due_later _ _ _ Hbb Hdueb).
Qed.

(** ** The other roads *)

Lemma tells_evacuate c1 k r :
  reaches c0 c1 -> VmSpec.cluster_name (spec v) = Some k -> str_in k sessions = true -> is_deleting v = false ->
  vm_kind v <> VmPhaseKind.Failed -> heard_of k c1 r ->
  tells c1 cloud_permitted (evacuate prefix sur net render new_lease new_uid v k).
Proof using Henv EtcdLaws0.
  intros H01 Hk Hs Hd Hf Hh. unfold evacuate. destruct (VmStatus.evacuating (status v)) as [mark|] eqn:Em; [|apply tells_ret].
  destruct (String.eqb_spec k (Evacuating.from mark)) as [Hfrom|]; cbn [negb];
    [|repeat first [apply tells_edit | apply tells_event | tell]].
  destruct (EvacuationStep.parse _) as [[]|] eqn:Ep; [|repeat first [apply tells_edit | tell]..].
  destruct (bool_decide (vm_kind v = VmPhaseKind.Running) || _) eqn:Er; [|repeat first [apply tells_edit | tell]].
  apply tells_bind; [apply tells_now|]. intros a a' t Ha Haa Ht. apply c_st_run in Ht. injection Ht as Hw Ht.
  destruct (answered_since _ _ _) eqn:Ea; [apply tells_ret|]. apply tells_create; try done; [reach|]. right.
  exists mark, r, t. split_and!; [done..| |eapply heard_of_later; [|exact Hh]; reach| |done].
  - apply orb_true_iff in Er as [Er|Er]; apply bool_decide_eq_true in Er; auto.
  - exists a. split_and!; [reach|reach|done].
Qed.

Lemma tells_teardown :
  cloud_may_reconcile v sessions = true -> is_deleting v = true ->
  tells c0 cloud_permitted (teardown prefix sur net v).
Proof using Henv EtcdLaws0.
  intros Hm Hd. unfold cloud_may_reconcile in Hm. unfold teardown.
  destruct (VmSpec.cluster_name (spec v)) as [k|] eqn:Ek; [|apply tells_seq; [apply tells_st; by apply grows_finish_delete|intros; apply tells_ret]].
  apply tells_bind; [apply tells_report|]. intros a a' r Ha Haa Hr. injection Hr as <- Hr.
  assert (Htell : is_none_or (fun r => str_in (Objects.uid (metadata v)) (Report.uids r)) r = true ->
            tells a cloud_permitted (tell_destroy prefix sur net v k)).
  { intros Hnamed. unfold tell_destroy. apply tells_seq; [|intros; repeat first [apply tells_now | apply tells_edit | tell]].
    tell. apply tells_send. intros x Hx. unfold cloud_permitted. rewrite Hd. split_and!; [done..|]. exists a. by rewrite Hr. }
  destruct r as [r|]; [|by apply Htell]. destruct (str_in (Objects.uid _) _) eqn:En; [by apply Htell|].
  destruct (negb _); [apply tells_ret|]. apply tells_seq; [apply tells_st; by apply grows_finish_delete|intros; apply tells_ret].
Qed.

Lemma tells_place :
  cloud_may_reconcile v sessions = true -> is_deleting v = false -> VmSpec.cluster_name (spec v) = None ->
  tells c0 cloud_permitted (place prefix sur net assign new_lease new_uid v).
Proof using Henv EtcdLaws0.
  intros Hm Hd Hk. unfold cloud_may_reconcile in Hm. rewrite Hk in Hm. unfold place.
  destruct (VmStatus.cluster_name (status v)) as [old|] eqn:Eo.
  - unfold unbind. apply tells_seq; [|intros; apply tells_ret]. apply tells_send. intros x Hx.
    unfold cloud_permitted. rewrite Hd. done.
  - apply tells_seq; [apply tells_st, grows_wanted|]. intros [w|why].
    + apply tells_seq; [apply tells_pick|]. intros [k|[? [category reason]]]; [apply tells_bound|].
      apply tells_seq; [apply tells_note|intros; apply tells_pending].
    + apply tells_seq; [apply tells_note|intros; apply tells_pending].
Qed.

Lemma tells_reconcile : tells c0 cloud_permitted (reconcile_vm prefix sur net assign sessions render new_lease new_uid v).
Proof using Henv EtcdLaws0.
  unfold reconcile_vm. destruct (cloud_may_reconcile v sessions) eqn:Em; [|apply tells_ret]. cbn [negb].
  destruct (is_deleting v) eqn:Ed; [by apply tells_teardown|].
  destruct (VmSpec.cluster_name (spec v)) as [k|] eqn:Ek; [|by apply tells_place].
  assert (Hs : str_in k sessions = true) by (unfold cloud_may_reconcile in Em; by rewrite Ek in Em).
  apply tells_bind; [unfold current_report; repeat tell|]. intros a a' r Ha Haa Hr.
  unfold current_report in Hr. apply cloud_bind_run in Hr as (a1 & [x|e] & Hx & Hr); [|by destruct Hr].
  injection Hx as <- Hx. injection Hr as <- Hr.
  destruct r as [r|]; [|apply tells_ret].
  assert (Hh : heard_of k a r).
  { destruct x as [q|]; [|done]. destruct (status_is_current v (Report.at_ q)) eqn:Ec; [|done]. injection Hr as ->.
    exists a. split_and!; [done|apply reaches_refl|done|done]. }
  case_bool_decide as Ef; [apply tells_ret|].
  destruct (VmStatus.evacuating (status v)) as [mark|] eqn:Ee; cbn [is_some].
  - by eapply tells_evacuate.
  - by apply tells_hand_down.
Qed.
End turn.

Section cloud_turn.
Context {D Bytes : Type} `{!Etcd D Bytes, !EtcdLaws D Bytes, !RawJson Bytes}.
Context `{!Serde Bytes VmSpec.t VmStatus.t, !Resource VmSpec.t VmStatus.t, !Serde Bytes ClusterSpec.t ClusterStatus.t,
  !Serde Bytes VolumeSpec.t VolumeStatus.t, !Serde Bytes StoragePoolSpec.t StoragePoolStatus.t,
  !Serde Bytes VolumeSnapshotSpec.t VolumeSnapshotStatus.t, !Serde Bytes SecretSpec.t unit,
  !Serde Bytes TenantSpec.t TenantStatus.t, !Serde Bytes EventSpec.t unit,
  !Serde Bytes FloatingIpSpec.t FloatingIpStatus.t, !Serde Bytes RoutedSubnetSpec.t RoutedSubnetStatus.t,
  !Serde Bytes RouterSpec.t RouterStatus.t, !Serde Bytes FloatingPoolSpec.t unit,
  !Serde Bytes ProviderNetworkSpec.t unit}.
Context (prefix : string) (sur : surroundings D) (net : clusters) (assign : Vm -> list Candidate.t -> option string).
Context (sessions : list string) (render : value -> string) (new_lease : Z -> nat -> Z) (new_uid : nat -> string).

(** C2. Whatever the store answers, whatever others write meanwhile and whatever the
    clusters answer, a turn of the cloud over a VM says only what it may.  A VM is
    created only at the connected cluster it is bound to, not being deleted and not
    failed, with its own uid, the network of its tenant and the addresses the book
    gives it; and either the cluster lacks its newest intent by a current report and
    has not just refused it, and the record of every disk it refers to was read at
    that cluster or as gone during the turn, or it is being stopped there to move.
    It is destroyed only where it is bound, being deleted and not reported gone, or
    at the cluster it was last handed to, bound nowhere.  A volume is released only
    by another cluster than the VM's, where its record was read. *)
Theorem cloud_vm_permitted (Henv : lawful_env sur) (v : Vm) (c c' : cloud D) r :
  reconcile_vm prefix sur net assign sessions render new_lease new_uid v c = (c', r) ->
  exists new, c_sent c' = c_sent c ++ map snd new
    /\ Forall (fun x => reaches c x.1 /\ reaches x.1 c' /\ cloud_permitted prefix sur net sessions render c v x.1 x.2) new.
Proof.
  intros Hr. exact (proj2 (tells_reconcile prefix sur net assign sessions render new_lease new_uid c v Henv
    c c' r (reaches_refl c) Hr)).
Qed.
End cloud_turn.

(** v1 is bound to west and its disk's record is at east: the turn has east release
    the record, and says nothing else. *)
Import Tier.

Definition disk_left_behind : cloud (mem bytes) :=
  start (store [("volumes/d1", KeptVolume (disk_at (Some "east") (Some 1%Z))); ("storagepools/fast", KeptPool shared_pool);
                ("vms/v1", KeptVm (guest (Some "west")))]).

Lemma cloud_vm_permitted_witness :
  let net := answering (fun _ _ => Answer.Acked "") in
  let c' := (cloud_turn net (guest (Some "west")) disk_left_behind).1 in
  c_sent c' = [("east", CloudOp.ReleaseVolume "d1" "u-v")]
  /\ exists a, cloud_permitted "p" quiet net ["east"; "west"] (fun _ => "doc") disk_left_behind (guest (Some "west")) a
       ("east", CloudOp.ReleaseVolume "d1" "u-v").
Proof.
  intros net c'. assert (Hs : c_sent c' = [("east", CloudOp.ReleaseVolume "d1" "u-v")]) by (by vm_compute).
  split; [done|].
  destruct (cloud_vm_permitted (D := mem bytes) "p" quiet net FirstFit_assign ["east"; "west"] (fun _ => "doc")
    (fun _ _ => 1%Z) (fun _ => "u") quiet_lawful (guest (Some "west")) disk_left_behind c'
    (cloud_turn net (guest (Some "west")) disk_left_behind).2) as (new & Hsent & Hnew); [apply surjective_pairing|].
  rewrite Hs in Hsent. destruct new as [|[a m] new]; [discriminate Hsent|].
  injection Hsent as Hm _. cbn [snd] in Hm. subst m. exists a. exact (proj2 (proj2 (Forall_inv Hnew))).
Defined.
