(* ===== verification/CloudLink.v ===== *)
(** The cluster's end of its session with the cloud:
    [src/components/cluster-controller/src/cloud.rs].  A command of the cloud names an
    object by its name and by the uid the cloud gave it; the cluster keeps that uid as a
    label and touches nothing of the name that does not wear it.  Every write is to the
    object that was judged.  A status carries what the cluster holds for the cloud in
    the cloud's uids, and says whether the list is all of it. *)
From Stdlib Require Import Ascii String NArith ZArith List Bool Lia.
From stdpp Require Import base list strings gmap relations.
From S2P Require Import Prelude RustStr Json Net Capability Heartbeat Nics Vm Node Storage Sizing Placement Diagnosis.
From S2P Require Import Reservation Claims Commit Floating Quota AddressSpace Gateways Lifecycle Dispatch Namespaces SpecDocs.
From S2P Require Import Rooms Images CloudPlace MigrationRules ClusterMigration Deletion PlacePass VmPass VolumePass CloudPass.
From S2P Require Import Phase Objects Store StoreSafety Growth.

(** * Objects made for the cloud *)

#[export] Instance AntiAffinity_eq_dec : EqDecision AntiAffinity.t.
Proof. solve_decision. Defined.
#[export] Instance OwnWire_eq_dec : EqDecision OwnWire.t.
Proof. solve_decision. Defined.
#[export] Instance RouterSpec_eq_dec : EqDecision RouterSpec.t.
Proof. solve_decision. Defined.
#[export] Instance ProviderNetworkSpec_eq_dec : EqDecision ProviderNetworkSpec.t.
Proof. solve_decision. Defined.

Definition volume_status_default : VolumeStatus.t :=
  {| VolumeStatus.phase := phase_default; VolumeStatus.reported := None; VolumeStatus.holder := None;
     VolumeStatus.claimant_gone := false; VolumeStatus.backend := ""; VolumeStatus.node := None;
     VolumeStatus.open_on := []; VolumeStatus.cluster := None; VolumeStatus.attached_to := None;
     VolumeStatus.attached_uid := None; VolumeStatus.size_gib := 0; VolumeStatus.untold_gib := 0;
     VolumeStatus.observed_generation := 0; VolumeStatus.observed_at := None;
     VolumeStatus.requeue_attempts := 0; VolumeStatus.last_requeue := None |}.

Definition snapshot_status_default : VolumeSnapshotStatus.t :=
  {| VolumeSnapshotStatus.phase := phase_default; VolumeSnapshotStatus.reported := None;
     VolumeSnapshotStatus.node := None; VolumeSnapshotStatus.backend := ""; VolumeSnapshotStatus.size_gib := 0;
     VolumeSnapshotStatus.observed_at := None; VolumeSnapshotStatus.requeue_attempts := 0;
     VolumeSnapshotStatus.last_requeue := None |}.

Definition with_finalizer {Sp St} (f : string) (o : Object Sp St) : Object Sp St :=
  with_metadata o (set_finalizers (metadata o) (finalizers (metadata o) ++ [f])).

Definition new_volume (nm uid : string) (at_ : instant) (s : VolumeSpec.t) : Volume :=
  with_finalizer VOLUME_RELEASE_FINALIZER (object_new API_VERSION "Volume" nm uid at_ s volume_status_default).

Definition new_volume_snapshot (nm uid : string) (at_ : instant) (s : VolumeSnapshotSpec.t) : VolumeSnapshot :=
  with_finalizer VOLUME_RELEASE_FINALIZER (object_new API_VERSION "VolumeSnapshot" nm uid at_ s snapshot_status_default).

Definition set_uid (m : Metadata) (u : string) : Metadata :=
  {| name := name m; Objects.uid := u; resource_version := resource_version m; generation := generation m;
     labels := labels m; annotations := annotations m; creation_timestamp := creation_timestamp m;
     deletion_timestamp := deletion_timestamp m; finalizers := finalizers m |}.

Definition for_cloud {Sp St} (cloud : string) (o : Object Sp St) : Object Sp St :=
  with_metadata o (mark_managed_by_cloud (metadata o) cloud).

(** [metadata.cloud_uid() == Some(uid)]. *)
Definition the_clouds {Sp St} (cloud : string) (o : Object Sp St) : bool :=
  bool_decide (cloud_uid (metadata o) = Some cloud).

(** ** A VM *)

Definition bind_list (field : string) (values : list string) (vm : value) : value := (inject_nic_list vm field values).1.

Definition bind_nics (c : CreateVm.t) (vm : value) : value :=
  let vm := match CreateVm.vni c with Some vni => (inject_vxlan_id vm vni).1 | None => vm end in
  bind_list NIC_ROUTED_SUBNETS (CreateVm.routed_subnets c) (bind_list NIC_FLOATING_IPS (CreateVm.floating_ips c) vm).

Definition label_for_cloud (m : Metadata) (c : CreateVm.t) : Metadata :=
  mark_managed_by_cloud (set_labels m (CreateVm.labels c)) (CreateVm.uid c).

(** The binding of a spec, and its document. *)
Definition vm_spec_with (s : VmSpec.t) (node cluster : option string) (vm : value) : VmSpec.t :=
  {| VmSpec.node_name := node; VmSpec.cluster_name := cluster; VmSpec.run_strategy := VmSpec.run_strategy s;
     VmSpec.evacuation := VmSpec.evacuation s; VmSpec.tenant := VmSpec.tenant s; VmSpec.class_ := VmSpec.class_ s;
     VmSpec.cluster_selector := VmSpec.cluster_selector s; VmSpec.node_selector := VmSpec.node_selector s;
     VmSpec.anti_affinity := VmSpec.anti_affinity s; VmSpec.vm := vm |}.

Definition placement_moved (current : Vm) (s : VmSpec.t) (c : CreateVm.t) : bool :=
  negb (String.eqb (VmSpec.class_ (spec current)) (VmSpec.class_ s))
  || negb (bool_decide (VmSpec.node_selector (spec current) = VmSpec.node_selector s))
  || negb (bool_decide (VmSpec.anti_affinity (spec current) = VmSpec.anti_affinity s))
  || negb (bool_decide (labels (metadata current) = labels (label_for_cloud (metadata current) c))).

Definition declared_for_cloud (uid : string) (at_ : instant) (c : CreateVm.t) (s : VmSpec.t) (trace : string) : Vm :=
  let v := new_vm (CreateVm.name c) uid at_ (vm_spec_with s None None (VmSpec.vm s)) in
  let v := with_metadata v (label_for_cloud (metadata v) c) in
  if str_is_empty trace then v else with_metadata v (set_traceparent (metadata v) trace).

Definition refuse_unless_ours (current : Vm) (c : CreateVm.t) : result string unit :=
  if negb (the_clouds (CreateVm.uid c) current) then
    Err ("the name " +:+ CreateVm.name c +:+ " is taken by "
         +:+ if managed_by_cloud (metadata current) then "another cloud vm" else "a cluster-local vm")
  else if is_deleting current then Err ("vm " +:+ CreateVm.name c +:+ " is still being torn down")
  else Ok tt.

Definition shape_moved (current : Vm) (s : VmSpec.t) (nm : string) : result string bool :=
  let moved := negb (value_eqb (VmSpec.vm (spec current)) (VmSpec.vm s)) in
  if moved && negb (vm_shape_unchanged (without_nic_lists (VmSpec.vm (spec current))) (without_nic_lists (VmSpec.vm s)))
  then Err ("vm " +:+ nm +:+ " arrived with a spec.vm that is not the stored one plus appended volume references and the addresses its nics may use; the shape of a vm is fixed once it exists")
  else Ok moved.

(** The closure of [write_drift]. *)
Definition drifted (c : CreateVm.t) (s : VmSpec.t) (v : Vm) : Vm :=
  let moved := negb (value_eqb (VmSpec.vm (spec v)) (VmSpec.vm s)) in
  let old := spec v in
  let m := label_for_cloud (metadata v) c in
  with_metadata
    (with_spec v
       {| VmSpec.node_name := VmSpec.node_name old; VmSpec.cluster_name := VmSpec.cluster_name old;
          VmSpec.run_strategy := VmSpec.run_strategy s; VmSpec.evacuation := VmSpec.evacuation s;
          VmSpec.tenant := VmSpec.tenant old; VmSpec.class_ := VmSpec.class_ s;
          VmSpec.cluster_selector := VmSpec.cluster_selector old; VmSpec.node_selector := VmSpec.node_selector s;
          VmSpec.anti_affinity := VmSpec.anti_affinity s;
          VmSpec.vm := if moved then VmSpec.vm s else VmSpec.vm old |})
    (if moved then set_generation m (generation m + 1) else m).

(** ** Volumes and secrets *)

Definition set_size (v : Volume) (gib : N) : Volume :=
  let s := spec v in
  with_spec v
    {| VolumeSpec.tenant := VolumeSpec.tenant s; VolumeSpec.pool := VolumeSpec.pool s; VolumeSpec.size_gib := gib;
       VolumeSpec.mode := VolumeSpec.mode s; VolumeSpec.access_mode := VolumeSpec.access_mode s;
       VolumeSpec.base_image := VolumeSpec.base_image s; VolumeSpec.from_snapshot := VolumeSpec.from_snapshot s;
       VolumeSpec.description := VolumeSpec.description s |}.

Definition next_generation {Sp St} (o : Object Sp St) : Object Sp St :=
  with_metadata o (set_generation (metadata o) (generation (metadata o) + 1)).

Definition grow_to_cloud_size (v : Volume) (cloud : VolumeSpec.t) : Volume * bool :=
  if (VolumeSpec.size_gib cloud <=? VolumeSpec.size_gib (spec v))%N then (v, false)
  else (next_generation (set_size v (VolumeSpec.size_gib cloud)), true).

Definition volume_of_tenant (tenant : string) (s : VolumeSpec.t) : VolumeSpec.t :=
  {| VolumeSpec.tenant := tenant; VolumeSpec.pool := VolumeSpec.pool s; VolumeSpec.size_gib := VolumeSpec.size_gib s;
     VolumeSpec.mode := VolumeSpec.mode s; VolumeSpec.access_mode := VolumeSpec.access_mode s;
     VolumeSpec.base_image := VolumeSpec.base_image s; VolumeSpec.from_snapshot := VolumeSpec.from_snapshot s;
     VolumeSpec.description := VolumeSpec.description s |}.

(** The copy of a secret, and the generation of the cloud's object it is a copy of. *)
Definition stamped_with (gen : N) (m : Metadata) : Metadata :=
  set_annotations m (sinsert ANNOTATION_CLOUD_GENERATION (show_N gen) (annotations m)).

Definition mirrored_secret (nm uid cloud tenant : string) (gen : N) (at_ : instant) (s : SecretSpec.t) : Secret :=
  let secret := for_cloud cloud (object_new API_VERSION "Secret" nm uid at_
    {| SecretSpec.tenant := tenant; SecretSpec.data := SecretSpec.data s; SecretSpec.keys := SecretSpec.keys s;
       SecretSpec.description := SecretSpec.description s |} tt) in
  with_metadata secret (stamped_with gen (metadata secret)).

Definition secret_current (current secret : Secret) (gen : N) : bool :=
  bool_decide (SecretSpec.data (spec current) = SecretSpec.data (spec secret))
  && String.eqb (SecretSpec.tenant (spec current)) (SecretSpec.tenant (spec secret))
  && bool_decide (sget ANNOTATION_CLOUD_GENERATION (annotations (metadata current)) = Some (show_N gen)).

Definition resealed (secret : Secret) (gen : N) (v : Secret) : Secret :=
  let v := with_spec v
    {| SecretSpec.tenant := SecretSpec.tenant (spec secret); SecretSpec.data := SecretSpec.data (spec secret);
       SecretSpec.keys := SecretSpec.keys (spec v); SecretSpec.description := SecretSpec.description (spec secret) |} in
  let v := next_generation v in
  with_metadata v (stamped_with gen (metadata v)).

(** ** Routers *)

(** [proto::CreateRouter]; a rule is its kind, its outer and its inner end. *)
Module CreateRouter.
Record t := {
  name : string;
  uid : string;
  spec_json : string;
  external_addr : string;
  network_name : string;
  network_json : string;
  nats : list (string * string * string);
  announced : list string;
}.
End CreateRouter.

Definition stamp_resolved (c : CreateRouter.t) (nats : list NatRule.t) (r : Router) : Router :=
  with_status r (RouterStatus.set_nats (RouterStatus.set_external_addr (status r) (CreateRouter.external_addr c))
                   nats (CreateRouter.announced c)).

(** [{:?}] of a string is its [Debug] form. *)
Definition cloud_nat (debug : string -> string) (c : CreateRouter.t) (router : Router)
    (rule : string * string * string) : result string NatRule.t :=
  let '(kind, external, logical) := rule in
  match NatKind.parse kind with
  | None => Err ("router " +:+ CreateRouter.name c +:+ ": unknown nat kind " +:+ debug kind)
  | Some kind =>
      match (if bool_decide (kind = NatKind.DnatAndSnat) then inside_address_refusal router logical else None) with
      | Some why => Err ("router " +:+ CreateRouter.name c +:+ ": floating address " +:+ external +:+ " refused: " +:+ why)
      | None => Ok (NatRule.mk kind external logical)
      end
  end.

(** [collect] into a [Result]: the first refusal. *)
Fixpoint collect_ok {A B} (f : A -> result string B) (l : list A) : result string (list B) :=
  match l with
  | [] => Ok []
  | a :: l =>
      match f a with
      | Err e => Err e
      | Ok b => match collect_ok f l with Ok bs => Ok (b :: bs) | Err e => Err e end
      end
  end.

Definition cloud_nats (debug : string -> string) (c : CreateRouter.t) (router : Router) : result string (list NatRule.t) :=
  collect_ok (cloud_nat debug c router) (CreateRouter.nats c).

(** * The handlers *)

Module Teardown.
Inductive t := Marked | NothingLeft.
End Teardown.

Section link.
Context {D Bytes : Type} `{!Etcd D Bytes, !RawJson Bytes, !StatusJson}.
Context `{!Serde Bytes NodeSpec.t NodeStatus.t, !Serde Bytes VmSpec.t VmStatus.t, !Resource VmSpec.t VmStatus.t,
  !Serde Bytes VolumeSpec.t VolumeStatus.t, !Serde Bytes VolumeSnapshotSpec.t VolumeSnapshotStatus.t,
  !Serde Bytes SecretSpec.t unit, !Serde Bytes RouterSpec.t RouterStatus.t, !Serde Bytes ProviderNetworkSpec.t unit,
  !Serde Bytes StoragePoolSpec.t StoragePoolStatus.t, !Serde Bytes EventSpec.t unit,
  !Serde Bytes VmMigrationSpec.t VmMigrationStatus.t, !Serde Bytes CapacityReservationSpec.t unit}.
Variable prefix : string.
Variable sur : surroundings D.
Variable net : peers.
Variable new_lease : Z -> nat -> Z.
Variable new_uid : nat -> string.
(** [serde_json::from_str] of each kind of document, and [Debug] of a string. *)
Variable read_vm : string -> result string VmSpec.t.
Variable read_volume : string -> result string VolumeSpec.t.
Variable read_snapshot : string -> result string VolumeSnapshotSpec.t.
Variable read_secret : string -> result string SecretSpec.t.
Variable read_router : string -> result string RouterSpec.t.
Variable read_network : string -> result string ProviderNetworkSpec.t.
Variable debug : string -> string.

(** [from_str(..).context(what)?], and a check that refuses. *)
Definition parsed {A} (what : string) (r : result string A) : pass_m D A :=
  match r with Ok a => ok a | Err e => raise (Failure.context what (Failure.msg e)) end.

Definition insist {A} (r : result string A) : pass_m D A :=
  match r with Ok a => ok a | Err e => bail e end.

(** A read in which nothing under the name is an answer. *)
Definition found_here {Sp St} `{!Resource Sp St, !Serde Bytes Sp St} (nm : string) : pass_m D (option (Object Sp St)) :=
  r ← try_store (get (Sp := Sp) (St := St) prefix sur nm);
  match r with
  | Ok o => ok (Some o)
  | Err (StoreError.NotFound _) => ok None
  | Err e => raise (Failure.of_store e)
  end.

(** [store.create]: whether it is made, or the name was taken. *)
Definition made {Sp St} `{!Resource Sp St, !Serde Bytes Sp St} (o : Object Sp St) : pass_m D bool :=
  r ← try_store (create prefix sur o);
  match r with
  | Ok _ => ok true
  | Err (StoreError.AlreadyExists _) => ok false
  | Err e => raise (Failure.of_store e)
  end.

Definition edit {Sp St} `{!Resource Sp St, !Serde Bytes Sp St} (nm : string) (o : Object Sp St)
    (f : Object Sp St -> Object Sp St) : pass_m D unit :=
  _ ← st (mutate_if prefix sur nm (Objects.uid (metadata o)) f); ok tt.

(** ** Writes that did not land *)

Definition answer_unwritten {Sp St A} `{!Resource Sp St, !Serde Bytes Sp St} (nm : string)
    (settled : option (Object Sp St) -> option A) (doing : string) : pass_m D A :=
  now_ ← found_here nm;
  match settled now_ with
  | Some answer => ok answer
  | None => bail (RESOURCE (Sp := Sp) (St := St) +:+ "/" +:+ nm +:+ " changed while it was " +:+ doing
                  +:+ "; not " +:+ doing +:+ " yet")
  end.

Definition deleted {Sp St} (cloud : string) (now_ : option (Object Sp St)) : option unit :=
  if is_none_or (fun o => negb (the_clouds cloud o)) now_ then Some tt else None.

Definition delete_cloud_record {Sp St} `{!Resource Sp St, !Serde Bytes Sp St} (checked : Object Sp St) (cloud : string)
    : pass_m D unit :=
  gone ← st (finish_delete prefix sur checked (the_clouds cloud));
  if gone : bool then ok tt
  else answer_unwritten (name (metadata checked)) (deleted (Sp := Sp) (St := St) cloud) "deleted".

(** The closure of [mark_for_teardown]; its state is whether it found the cloud's object. *)
Definition marking {Sp St} (cloud : string) (at_ : instant) (marked : bool) (o : Object Sp St) : bool * Object Sp St :=
  if the_clouds cloud o then (true, mark_deleting at_ o) else (false, o).

Definition torn_down {Sp St} (cloud : string) (now_ : option (Object Sp St)) : option Teardown.t :=
  match now_ with
  | Some o => if the_clouds cloud o then if is_deleting o then Some Teardown.Marked else None
              else Some Teardown.NothingLeft
  | None => Some Teardown.NothingLeft
  end.

Definition mark_for_teardown {Sp St} `{!Resource Sp St, !Serde Bytes Sp St} (checked : Object Sp St) (cloud : string)
    : pass_m D Teardown.t :=
  let nm := name (metadata checked) in
  at_ ← now_ sur;
  written ← try_store (mutate_if_with prefix sur nm (Objects.uid (metadata checked)) (marking cloud at_) false);
  let unwritten := answer_unwritten nm (torn_down (Sp := Sp) (St := St) cloud) "marked for teardown" in
  match written with
  | Ok (true, _) => ok Teardown.Marked
  | Ok (false, _) | Err (StoreError.Conflict _) | Err (StoreError.NotFound _) => unwritten
  | Err e => raise (Failure.of_store e)
  end.

(** ** VMs *)

Definition note_own_wire_kept (v : Vm) (why : string) : pass_m D unit :=
  happened prefix sur new_lease new_uid v "TenantWireKept"
    ("stored before the rule and kept as it is; recreate it to drop the wire: " +:+ why) EventType.Warning.

(** The name is taken, or the document names a wire of its own. *)
Definition drift_create (c : CreateVm.t) (s : VmSpec.t) (own_wire : option string) : pass_m D unit :=
  r ← try_store (get (Sp := VmSpec.t) (St := VmStatus.t) prefix sur (CreateVm.name c));
  match r, own_wire with
  | Err (StoreError.NotFound _), Some why => bail why
  | Err e, _ => raise (Failure.of_store e)
  | Ok current, _ =>
      _ ← insist (refuse_unless_ours current c);
      _ ← match own_wire with
          | Some why =>
              if bool_decide (own_wires (VmSpec.vm (spec current)) = own_wires (VmSpec.vm s)) then ok tt else bail why
          | None => ok tt
          end;
      shape ← insist (shape_moved current s (CreateVm.name c));
      _ ← match own_wire with Some why => note_own_wire_kept current why | None => ok tt end;
      let evacuation := negb (bool_decide (VmSpec.evacuation (spec current) = VmSpec.evacuation s)) in
      if negb shape && negb evacuation && negb (placement_moved current s c)
         && bool_decide (VmSpec.run_strategy (spec current) = VmSpec.run_strategy s) then ok tt
      else edit (CreateVm.name c) current (drifted c s)
  end.

Definition handle_create (c : CreateVm.t) (trace : string) : pass_m D unit :=
  if str_is_empty (CreateVm.uid c) then bail "create without a cloud uid"
  else
    s ← parsed "invalid spec_json" (read_vm (CreateVm.spec_json c));
    if negb (is_some (as_object (VmSpec.vm s))) then bail "spec.vm must be the agent's NewVmSpec object"
    else
      let own_wire := match check_tenant_nics (VmSpec.vm s) with Err e => Some (ApiError.message e) | Ok _ => None end in
      let s := vm_spec_with s (VmSpec.node_name s) (VmSpec.cluster_name s) (bind_nics c (VmSpec.vm s)) in
      match own_wire with
      | Some _ => drift_create c s own_wire
      | None =>
          at_ ← now_ sur;
          uid ← fresh_uid new_uid;
          done ← made (declared_for_cloud uid at_ c s trace);
          if done : bool then ok tt else drift_create c s None
      end.

Definition handle_destroy (nm cloud : string) : pass_m D unit :=
  r ← found_here (Sp := VmSpec.t) (St := VmStatus.t) nm;
  match r with
  | None => ok tt
  | Some current =>
      if negb (the_clouds cloud current) || is_deleting current then ok tt
      else _ ← mark_for_teardown current cloud; ok tt
  end.

(** ** Volumes and copies *)

(** Whose the name is instead. *)
Definition taken_by (what nm : string) (other : option string) : string :=
  "the name " +:+ nm +:+ " is taken by "
  +:+ match other with
      | Some other => "a cloud " +:+ what +:+ " with uid " +:+ other
      | None => "a cluster-local " +:+ what
      end.

Definition handle_create_volume (nm spec_json cloud tenant : string) : pass_m D unit :=
  if str_is_empty cloud then bail "create without a cloud uid"
  else
    s ← parsed "invalid spec_json" (read_volume spec_json);
    at_ ← now_ sur;
    uid ← fresh_uid new_uid;
    let volume := for_cloud cloud (new_volume nm uid at_ (volume_of_tenant tenant s)) in
    let volume := with_metadata volume (set_uid (metadata volume) cloud) in
    done ← made volume;
    if done : bool then ok tt
    else
      current ← st (get (Sp := VolumeSpec.t) (St := VolumeStatus.t) prefix sur nm);
      if negb (the_clouds cloud current) then bail (taken_by "volume" nm (cloud_uid (metadata current)))
      else if (VolumeSpec.size_gib (spec current) <? VolumeSpec.size_gib (spec volume))%N then
        edit nm current (fun v => (grow_to_cloud_size v (spec volume)).1)
      else ok tt.

Definition handle_create_snapshot (nm spec_json cloud tenant : string) : pass_m D unit :=
  if str_is_empty cloud then bail "create without a cloud uid"
  else
    s ← parsed "invalid spec_json" (read_snapshot spec_json);
    at_ ← now_ sur;
    uid ← fresh_uid new_uid;
    let s := {| VolumeSnapshotSpec.tenant := tenant; VolumeSnapshotSpec.volume := VolumeSnapshotSpec.volume s;
                VolumeSnapshotSpec.description := VolumeSnapshotSpec.description s |} in
    done ← made (for_cloud cloud (new_volume_snapshot nm uid at_ s));
    if done : bool then ok tt
    else
      current ← st (get (Sp := VolumeSnapshotSpec.t) (St := VolumeSnapshotStatus.t) prefix sur nm);
      if negb (the_clouds cloud current) then bail (taken_by "snapshot" nm (cloud_uid (metadata current)))
      else ok tt.

Definition handle_destroy_volume (nm cloud : string) : pass_m D unit :=
  r ← found_here (Sp := VolumeSpec.t) (St := VolumeStatus.t) nm;
  match r with
  | None => ok tt
  | Some current =>
      if negb (the_clouds cloud current) || is_deleting current then ok tt
      else _ ← mark_for_teardown current cloud; ok tt
  end.

Definition handle_destroy_snapshot (nm cloud : string) : pass_m D unit :=
  r ← found_here (Sp := VolumeSnapshotSpec.t) (St := VolumeSnapshotStatus.t) nm;
  match r with
  | None => ok tt
  | Some current =>
      if negb (the_clouds cloud current) || is_deleting current then ok tt
      else _ ← mark_for_teardown current cloud; ok tt
  end.

Definition releasable (cloud : string) (v : Volume) : bool :=
  the_clouds cloud v && negb (is_some (VolumeStatus.attached_to (status v))).

Definition still_attached (nm holder : string) : string :=
  "volume " +:+ nm +:+ " is still attached to vm " +:+ holder +:+ " here".

Definition release_record (checked : Volume) (nm cloud : string) : pass_m D unit :=
  released ← st (release_and_delete prefix sur checked VOLUME_RELEASE_FINALIZER (releasable cloud));
  if released : bool then ok tt
  else
    r ← try_store (get (Sp := VolumeSpec.t) (St := VolumeStatus.t) prefix sur nm);
    match r with
    | Err (StoreError.NotFound _) => ok tt
    | Ok v =>
        if negb (the_clouds cloud v) then ok tt
        else match VolumeStatus.attached_to (status v) with
             | Some holder => bail (still_attached nm holder)
             | None => bail ("volume " +:+ nm +:+ " changed while it was released; not released yet")
             end
    | Err e => raise (Failure.of_store e)
    end.

Definition handle_release_volume (nm cloud : string) : pass_m D unit :=
  r ← found_here (Sp := VolumeSpec.t) (St := VolumeStatus.t) nm;
  match r with
  | None => ok tt
  | Some current =>
      if negb (the_clouds cloud current) then ok tt
      else match VolumeStatus.attached_to (status current) with
           | Some holder => bail (still_attached nm holder)
           | None => release_record current nm cloud
           end
  end.

(** ** Secrets *)

Definition handle_create_secret (nm spec_json cloud tenant : string) (gen : N) : pass_m D unit :=
  if str_is_empty cloud then bail "create without a cloud uid"
  else
    s ← parsed "invalid spec_json" (read_secret spec_json);
    at_ ← now_ sur;
    uid ← fresh_uid new_uid;
    let secret := mirrored_secret nm uid cloud tenant gen at_ s in
    done ← made secret;
    if done : bool then ok tt
    else
      current ← st (get (Sp := SecretSpec.t) (St := unit) prefix sur nm);
      if negb (the_clouds cloud current) then bail (taken_by "secret" nm (cloud_uid (metadata current)))
      else if secret_current current secret gen then ok tt
      else edit nm current (resealed secret gen).

Definition handle_delete_secret (nm cloud : string) : pass_m D unit :=
  r ← found_here (Sp := SecretSpec.t) (St := unit) nm;
  match r with
  | None => ok tt
  | Some current => if negb (the_clouds cloud current) then ok tt else delete_cloud_record current cloud
  end.

(** ** Routers *)

Definition mirror_network (c : CreateRouter.t) : pass_m D unit :=
  let nm := CreateRouter.network_name c in
  if str_is_empty nm then ok tt
  else
    s ← parsed "invalid network_json" (read_network (CreateRouter.network_json c));
    at_ ← now_ sur;
    uid ← fresh_uid new_uid;
    done ← made (for_cloud (CreateRouter.uid c) (object_new API_VERSION "ProviderNetwork" nm uid at_ s tt) : ProviderNetwork);
    if done : bool then ok tt
    else
      current ← st (get (Sp := ProviderNetworkSpec.t) (St := unit) prefix sur nm);
      if negb (managed_by_cloud (metadata current)) || bool_decide (spec current = s) then ok tt
      else edit nm current (fun n => with_spec n s).

Definition router_settled (c : CreateRouter.t) (s : RouterSpec.t) (nats : list NatRule.t) (current : Router) : bool :=
  bool_decide (spec current = s)
  && String.eqb (RouterStatus.external_addr (status current)) (CreateRouter.external_addr c)
  && bool_decide (RouterStatus.nats (status current) = nats)
  && bool_decide (RouterStatus.announced (status current) = CreateRouter.announced c).

Definition handle_create_router (c : CreateRouter.t) : pass_m D unit :=
  let nm := CreateRouter.name c in
  if str_is_empty (CreateRouter.uid c) then bail "create without a cloud uid"
  else
    s ← parsed "invalid spec_json" (read_router (CreateRouter.spec_json c));
    _ ← mirror_network c;
    at_ ← now_ sur;
    uid ← fresh_uid new_uid;
    let router : Router := object_new API_VERSION "Router" nm uid at_ s RouterStatus.default in
    nats ← insist (cloud_nats debug c router);
    done ← made (stamp_resolved c nats (for_cloud (CreateRouter.uid c) router));
    if done : bool then ok tt
    else
      current ← st (get (Sp := RouterSpec.t) (St := RouterStatus.t) prefix sur nm);
      if negb (the_clouds (CreateRouter.uid c) current) then bail (taken_by "router" nm (cloud_uid (metadata current)))
      else if is_deleting current then bail ("router " +:+ nm +:+ " is still being torn down")
      else if router_settled c s nats current then ok tt
      else edit nm current (fun r => stamp_resolved c nats (with_spec r s)).

Definition handle_delete_router (nm cloud : string) : pass_m D unit :=
  r ← found_here (Sp := RouterSpec.t) (St := RouterStatus.t) nm;
  match r with
  | None => ok tt
  | Some current => if negb (the_clouds cloud current) then ok tt else delete_cloud_record current cloud
  end.

(** ** Images and moves *)

Fixpoint drop_on_each (nodes : list Node) (nm uid : string) : pass_m D unit :=
  match nodes with
  | [] => ok tt
  | n :: nodes =>
      _ ← attempt (dispatch_send prefix sur net (name (metadata n)) (NodeCommand.DropImage nm uid));
      drop_on_each nodes nm uid
  end.

Definition handle_drop_image (nm uid : string) : pass_m D unit :=
  nodes ← st (list_ (Sp := NodeSpec.t) (St := NodeStatus.t) prefix sur);
  drop_on_each nodes nm uid.

Definition migration_target (target : string) : option string := if str_is_empty target then None else Some target.

Definition handle_create_vm_migration (nm vm vm_uid target : string) : pass_m D unit :=
  if str_is_empty nm then bail "create_vm_migration without a name for the record"
  else if str_is_empty vm then bail "create_vm_migration without a vm to move"
  else if str_is_empty vm_uid then
    bail "create_vm_migration without the vm's uid; a cloud that does not say which vm it means does not get one moved by its name"
  else start_from_the_cloud prefix sur new_uid nm vm vm_uid (migration_target target).

(** ** One command *)

Definition handle (op : CloudOp.t) (trace : string) : pass_m D unit :=
  match op with
  | CloudOp.Create c => handle_create c trace
  | CloudOp.Destroy nm uid => handle_destroy nm uid
  | CloudOp.CreateVolume nm spec_json uid tenant => handle_create_volume nm spec_json uid tenant
  | CloudOp.DestroyVolume nm uid => handle_destroy_volume nm uid
  | CloudOp.ReleaseVolume nm uid => handle_release_volume nm uid
  | CloudOp.CreateSnapshot nm spec_json uid tenant => handle_create_snapshot nm spec_json uid tenant
  | CloudOp.DestroySnapshot nm uid => handle_destroy_snapshot nm uid
  | CloudOp.CreateSecret nm spec_json uid tenant gen => handle_create_secret nm spec_json uid tenant gen
  | CloudOp.DeleteSecret nm uid => handle_delete_secret nm uid
  end.

(** What goes back: an empty acknowledgement, or the failure and its word. *)
Definition outcome (r : result Failure.t unit) : Answer.t :=
  match r with
  | Ok _ => Answer.Acked ""
  | Err e => Answer.Rejected {| NodeRefusal.message := Failure.text e; NodeRefusal.reason := reason_of e |}
  end.

Definition dispatch (op : CloudOp.t) (trace : string) (p : pass D) : pass D * Answer.t :=
  let (p', r) := handle op trace p in (p', outcome r).
End link.

(** * What the cluster reports *)

Module CloudVmReport.
Record t := {
  id : string;
  phase : string;
  message : string;
  attached_volumes : list string;
  node : string;
  volumes : list VolumeAttachmentStatus.t;
  reason : string;
  nics : list (string * string);
}.
End CloudVmReport.

Module CloudVolumeReport.
Record t := {
  uid : string;
  phase : string;
  reason : string;
  node : string;
  attached_to : string;
  message : string;
  backend : string;
  size_gib : N;
  open_on : list string;
}.
End CloudVolumeReport.

Module CloudSnapshotReport.
Record t := {
  uid : string;
  phase : string;
  reason : string;
  node : string;
  backend : string;
  size_gib : N;
  message : string;
}.
End CloudSnapshotReport.

Module CloudPoolReport.
Record t := {
  name : string;
  phase : string;
  reason : string;
  locality : string;
  params_json : string;
  nodes : list string;
  message : string;
}.
End CloudPoolReport.

Module CloudRouterReport.
Record t := {
  id : string;
  phase : string;
  reason : string;
  message : string;
  active : bool;
  node : string;
  nodes : list string;
}.
End CloudRouterReport.

(** [proto::NodeReport]. *)
Module CloudNodeReport.
Record t := {
  name : string;
  ready : bool;
  schedulable : bool;
  drain : bool;
  labels : smap string;
  vcpus : N;
  mem_mib : N;
  bound_vcpus : N;
  bound_mem_mib : N;
  capabilities : list string;
  vms : N;
  images_complete : bool;
  conditions : list NodeCondition.t;
  draining : option Draining.t;
  accepts : list string;
}.
End CloudNodeReport.

(** [proto::ClusterStatus]. *)
Module ClusterReport.
Record t := {
  nodes_ready : N;
  nodes_total : N;
  capacity : option ClusterCapacity.t;
  vms : list CloudVmReport.t;
  vms_complete : bool;
  volumes : list CloudVolumeReport.t;
  volumes_complete : bool;
  snapshots : list CloudSnapshotReport.t;
  snapshots_complete : bool;
  secrets : list SecretStateReport.t;
  pools : list CloudPoolReport.t;
  nodes : list CloudNodeReport.t;
  unplaced : list Capacity.t;
  unplaced_omitted : N;
  routers : list CloudRouterReport.t;
  routers_complete : bool;
  images : list ImageStateReport.t;
}.
End ClusterReport.

(** ** The cloud's objects, in the cloud's uids *)

(** The objects that wear the cloud's mark, each by its uid; one without a uid
    cannot be named, and takes the list its completeness. *)
Definition report_cloud {Sp St R} (line : string -> Object Sp St -> R) (objects : list (Object Sp St)) (complete : bool)
    : list R * bool :=
  let held := List.filter (fun o => managed_by_cloud (metadata o)) objects in
  (filter_map (fun o => option_map (fun uid => line uid o) (cloud_uid (metadata o))) held,
   complete && forallb (fun o => is_some (cloud_uid (metadata o))) held).

Definition phase_text {K R} `{!PhaseSet K} (p : phase K R) : string := kind_str (ph_kind p).
Definition message_text {K R} (p : phase K R) : string := unwrap_or "" (phase_message p).

Definition vm_line (uid : string) (v : Vm) : CloudVmReport.t :=
  let p := VmStatus.phase (status v) in
  {| CloudVmReport.id := uid; CloudVmReport.phase := phase_text p; CloudVmReport.message := message_text p;
     CloudVmReport.attached_volumes := []; CloudVmReport.node := unwrap_or "" (VmSpec.node_name (spec v));
     CloudVmReport.volumes := VmStatus.volumes (status v); CloudVmReport.reason := reason_word p;
     CloudVmReport.nics :=
       filter_map (fun a => option_map (fun mac => (VmAddress.nic a, mac)) (VmAddress.mac a))
         (List.filter (fun a => bool_decide (VmAddress.kind a = VmAddressKind.Mac)) (VmStatus.addresses (status v))) |}.

Definition report_cloud_vms : list Vm -> bool -> list CloudVmReport.t * bool := report_cloud vm_line.

Definition report_unplaced (vms : list Vm) : list Capacity.t * N :=
  let demand := unplaced_demand (List.filter (fun v : Vm => managed_by_cloud (metadata v)) vms) in
  let omitted := N.of_nat (length demand - UNPLACED_CARRIED_MAX) in
  (firstn UNPLACED_CARRIED_MAX demand, N.min omitted u32_max).

Definition volume_line (uid : string) (v : Volume) : CloudVolumeReport.t :=
  let s := status v in
  let p := VolumeStatus.phase s in
  {| CloudVolumeReport.uid := uid; CloudVolumeReport.phase := phase_text p; CloudVolumeReport.reason := reason_word p;
     CloudVolumeReport.node := unwrap_or "" (VolumeStatus.node s);
     CloudVolumeReport.attached_to := unwrap_or "" (VolumeStatus.attached_to s);
     CloudVolumeReport.message := message_text p; CloudVolumeReport.backend := VolumeStatus.backend s;
     CloudVolumeReport.size_gib := VolumeStatus.size_gib s; CloudVolumeReport.open_on := VolumeStatus.open_on s |}.

Definition report_cloud_volumes : list Volume -> bool -> list CloudVolumeReport.t * bool := report_cloud volume_line.

Definition snapshot_line (uid : string) (x : VolumeSnapshot) : CloudSnapshotReport.t :=
  let s := status x in
  let p := VolumeSnapshotStatus.phase s in
  {| CloudSnapshotReport.uid := uid; CloudSnapshotReport.phase := phase_text p; CloudSnapshotReport.reason := reason_word p;
     CloudSnapshotReport.node := unwrap_or "" (VolumeSnapshotStatus.node s);
     CloudSnapshotReport.backend := VolumeSnapshotStatus.backend s;
     CloudSnapshotReport.size_gib := VolumeSnapshotStatus.size_gib s; CloudSnapshotReport.message := message_text p |}.

Definition report_cloud_snapshots : list VolumeSnapshot -> bool -> list CloudSnapshotReport.t * bool :=
  report_cloud snapshot_line.

Definition router_line (uid : string) (r : Router) : CloudRouterReport.t :=
  let s := status r in
  let p := RouterStatus.phase s in
  {| CloudRouterReport.id := uid; CloudRouterReport.phase := phase_text p; CloudRouterReport.reason := reason_word p;
     CloudRouterReport.message := message_text p; CloudRouterReport.active := negb (str_is_empty (RouterStatus.active_node s));
     CloudRouterReport.node := RouterStatus.active_node s; CloudRouterReport.nodes := RouterStatus.nodes s |}.

Definition report_cloud_routers : list Router -> bool -> list CloudRouterReport.t * bool := report_cloud router_line.

Definition secret_line (s : Secret) : option SecretStateReport.t :=
  option_map (fun uid =>
    {| SecretStateReport.name := name (metadata s); SecretStateReport.uid := uid;
       SecretStateReport.generation :=
         unwrap_or 0%N (sget ANNOTATION_CLOUD_GENERATION (annotations (metadata s)) ≫= parse_unsigned u64_max) |})
    (cloud_uid (metadata s)).

Definition report_secrets (l : list Secret) : list SecretStateReport.t :=
  filter_map secret_line (List.filter (fun s : Secret => managed_by_cloud (metadata s)) l).

Definition pool_line (render : value -> string) (p : StoragePool) : CloudPoolReport.t :=
  let ph := StoragePoolStatus.phase (status p) in
  {| CloudPoolReport.name := name (metadata p); CloudPoolReport.phase := phase_text ph;
     CloudPoolReport.reason := reason_word ph;
     CloudPoolReport.locality := unwrap_or "" (option_map Locality.as_str (StoragePoolStatus.locality (status p)));
     CloudPoolReport.params_json := unwrap_or "" (option_map render (StoragePoolSpec.params (spec p)));
     CloudPoolReport.nodes := StoragePoolSpec.nodes (spec p); CloudPoolReport.message := message_text ph |}.

Definition node_report (n : Node) (images_complete : bool) (bound : Capacity.t) : CloudNodeReport.t :=
  let s := spec n in
  let st := status n in
  {| CloudNodeReport.name := name (metadata n); CloudNodeReport.ready := NodeStatus.ready st;
     CloudNodeReport.schedulable := NodeSpec.schedulable s; CloudNodeReport.drain := NodeSpec.drain s;
     CloudNodeReport.labels := NodeSpec.labels s; CloudNodeReport.vcpus := NodeCapacity.vcpus (NodeStatus.capacity st);
     CloudNodeReport.mem_mib := NodeCapacity.mem_mib (NodeStatus.capacity st);
     CloudNodeReport.bound_vcpus := Capacity.vcpus bound; CloudNodeReport.bound_mem_mib := Capacity.mem_mib bound;
     CloudNodeReport.capabilities := NodeCapacity.capabilities (NodeStatus.capacity st);
     CloudNodeReport.vms := NodeStatus.vms st; CloudNodeReport.images_complete := images_complete;
     CloudNodeReport.conditions := NodeStatus.conditions st; CloudNodeReport.draining := NodeStatus.draining st;
     CloudNodeReport.accepts := NodeSpec.accepts s |}.

(** A [BTreeSet] of strings, filled and read in order. *)
Definition string_set (l : list string) : list string := map fst (foldl (fun m k => sinsert k tt m) [] l).

(** What the ready nodes add up to. *)
Definition ready_capacity (nodes : list Node) : N * ClusterCapacity.t :=
  let ready := List.filter (fun n : Node => NodeStatus.ready (status n)) nodes in
  let sum f := foldl (fun a (n : Node) => f a (NodeStatus.capacity (status n))) 0%N ready in
  (N.of_nat (length ready) mod (u32_max + 1),
   {| ClusterCapacity.vcpus := sum (fun a c => sat_add u32_max a (NodeCapacity.vcpus c));
      ClusterCapacity.mem_mib := sum (fun a c => sat_add u64_max a (NodeCapacity.mem_mib c));
      ClusterCapacity.capabilities :=
        string_set (flat_map (fun n : Node => NodeCapacity.capabilities (NodeStatus.capacity (status n))) ready) |})%N.

Section report.
Context {D Bytes : Type} `{!Etcd D Bytes, !RawJson Bytes}.
Context `{!Serde Bytes NodeSpec.t NodeStatus.t, !Serde Bytes VmSpec.t VmStatus.t, !Resource VmSpec.t VmStatus.t,
  !Serde Bytes VolumeSpec.t VolumeStatus.t, !Serde Bytes VolumeSnapshotSpec.t VolumeSnapshotStatus.t,
  !Serde Bytes SecretSpec.t unit, !Serde Bytes RouterSpec.t RouterStatus.t,
  !Serde Bytes StoragePoolSpec.t StoragePoolStatus.t}.
Variable prefix : string.
Variable sur : surroundings D.
Variable render : value -> string.

(** A listing, and whether its length is the number of keys counted after it. *)
Definition listed_whole {Sp St} `{!Resource Sp St, !Serde Bytes Sp St} : store_m D (list (Object Sp St) * bool) :=
  l ← list_ (Sp := Sp) (St := St) prefix sur;
  n ← count (Sp := Sp) (St := St) prefix sur;
  mret (l, Nat.eqb (length l) n).

Definition build_status (view : ImageView.t) : store_m D ClusterReport.t :=
  nodes ← list_ (Sp := NodeSpec.t) (St := NodeStatus.t) prefix sur;
  vms_whole ← listed_whole (Sp := VmSpec.t) (St := VmStatus.t);
  volumes_whole ← listed_whole (Sp := VolumeSpec.t) (St := VolumeStatus.t);
  secrets ← list_ (Sp := SecretSpec.t) (St := unit) prefix sur;
  snapshots_whole ← listed_whole (Sp := VolumeSnapshotSpec.t) (St := VolumeSnapshotStatus.t);
  pools ← list_ (Sp := StoragePoolSpec.t) (St := StoragePoolStatus.t) prefix sur;
  routers_whole ← listed_whole (Sp := RouterSpec.t) (St := RouterStatus.t);
  let vms := vms_whole.1 in
  let (ready, capacity) := ready_capacity nodes in
  let (vm_lines, vms_complete) := report_cloud_vms vms vms_whole.2 in
  let (volume_lines, volumes_complete) := report_cloud_volumes volumes_whole.1 volumes_whole.2 in
  let (snapshot_lines, snapshots_complete) := report_cloud_snapshots snapshots_whole.1 snapshots_whole.2 in
  let (router_lines, routers_complete) := report_cloud_routers routers_whole.1 routers_whole.2 in
  let (unplaced, omitted) := report_unplaced vms in
  mret
    {| ClusterReport.nodes_ready := ready; ClusterReport.nodes_total := N.of_nat (length nodes) mod (u32_max + 1);
       ClusterReport.capacity := Some capacity; ClusterReport.vms := vm_lines;
       ClusterReport.vms_complete := vms_complete; ClusterReport.volumes := volume_lines;
       ClusterReport.volumes_complete := volumes_complete; ClusterReport.snapshots := snapshot_lines;
       ClusterReport.snapshots_complete := snapshots_complete; ClusterReport.secrets := report_secrets secrets;
       ClusterReport.pools := map (pool_line render) pools;
       ClusterReport.nodes :=
         map (fun n : Node => node_report n (ImageView.is_complete view (name (metadata n))) (bound_on (name (metadata n)) vms))
           nodes;
       ClusterReport.unplaced := unplaced; ClusterReport.unplaced_omitted := omitted;
       ClusterReport.routers := router_lines; ClusterReport.routers_complete := routers_complete;
       ClusterReport.images := ImageView.report view |}%N.
End report.
