(* ===== verification/CloudAck.v ===== *)
(** What the cluster's acknowledgement of a cloud command is worth: the commands of
    [CloudLink] against what each of them asks for. *)
From Stdlib Require Import Ascii String NArith ZArith List Bool Lia.
From stdpp Require Import base list strings gmap relations.
From S2P Require Import Prelude RustStr Json Net Capability Heartbeat Nics Vm Node Storage Sizing Placement Diagnosis.
From S2P Require Import Reservation Claims Commit Floating Quota AddressSpace Gateways Lifecycle Dispatch Namespaces SpecDocs.
From S2P Require Import Rooms Images CloudPlace MigrationRules ClusterMigration Deletion PlacePass VmPass VolumePass CloudPass CloudLink.
From S2P Require Import Phase Objects Store StoreSafety Growth.

(** * One kind *)

(** What writing an object does to it: the envelope is settled and numbered. *)
Definition landed {Sp St} `{!Resource Sp St} (o o' : Object Sp St) : Prop :=
  exists at_ rev, o' = with_metadata (settle at_ (clean o)) (set_resource_version (metadata o) (show_Z rev)).

(** [settle] derives status alone. *)
Class SettleSpec (Sp St : Type) `{!Resource Sp St} : Prop := {
  settle_spec : forall now (o : Object Sp St), spec (settle now o) = spec o;
}.

#[export] Instance vm_settle_spec to_rfc3339 : SettleSpec VmSpec.t VmStatus.t (Resource0 := vm_resource to_rfc3339).
Proof. by constructor. Qed.
#[export] Instance volume_settle_spec : SettleSpec VolumeSpec.t VolumeStatus.t.
Proof. by constructor. Qed.
#[export] Instance snapshot_settle_spec : SettleSpec VolumeSnapshotSpec.t VolumeSnapshotStatus.t.
Proof. by constructor. Qed.
#[export] Instance secret_settle_spec : SettleSpec SecretSpec.t unit.
Proof. by constructor. Qed.

Section kind.
Context {D Bytes : Type} `{!Etcd D Bytes, !EtcdLaws D Bytes, !RawJson Bytes}.
Context {Sp St : Type} `{!Resource Sp St, !Serde Bytes Sp St, !SettleLaws Sp St, !SettleSpec Sp St, !SerdeLaws Bytes Sp St}.
Context (prefix : string) (sur : surroundings D) (new_uid : nat -> string).
Implicit Types (p : pass D) (o : Object Sp St).
Abbreviation T := (Object Sp St).
Abbreviation key := (key_of (Sp := Sp) (St := St) prefix).
Abbreviation DB p := (db (p_store p)).

(** Nothing the cloud knows by this uid is under the name. *)
Definition absent (s : D) (nm cloud : string) : Prop :=
  look s (key nm) = None \/ exists o : T, read_from prefix s nm o /\ the_clouds cloud o = false.

(** What the cloud knows by this uid is on its way out, or not there. *)
Definition leaving (s : D) (nm cloud : string) : Prop :=
  absent s nm cloud \/ exists o : T, read_from prefix s nm o /\ the_clouds cloud o = true /\ is_deleting o = true.

Lemma landed_spec o o' : landed o o' -> spec o' = spec o.
Proof using SettleSpec0. intros (at_ & rev & ->). simpl. by rewrite settle_spec. Qed.

Lemma landed_labels o o' : landed o o' -> labels (metadata o') = labels (metadata o).
Proof using. by intros (at_ & rev & ->). Qed.

Lemma landed_clouds cloud o o' : landed o o' -> the_clouds cloud o' = the_clouds cloud o.
Proof using. intros H. unfold the_clouds, cloud_uid. by rewrite (landed_labels _ _ H). Qed.

Lemma landed_deleting o o' : landed o o' -> is_deleting o' = is_deleting o.
Proof using. by intros (at_ & rev & ->). Qed.

Lemma landed_uid o o' : landed o o' -> Objects.uid (metadata o') = Objects.uid (metadata o).
Proof using. by intros (at_ & rev & ->). Qed.

Lemma landed_annotations o o' : landed o o' -> annotations (metadata o') = annotations (metadata o).
Proof using. by intros (at_ & rev & ->). Qed.

Lemma wrote_read s s' nm lease (b : Bytes) o :
  wrote (Sp := Sp) (St := St) prefix s s' nm lease b -> decode b (revision s') = Ok o -> read_from prefix s' nm o.
Proof using.
  intros [Hr Hw] Ho. unfold read_from. rewrite Hw. simpl. rewrite String.eqb_refl.
  destruct (look s _); eexists; (split; [done|]); exact Ho.
Qed.

Lemma get_missing nm w w' why :
  get (Sp := Sp) (St := St) prefix sur nm w = (w', Err (StoreError.NotFound why)) ->
  db w' = before sur w /\ look (db w') (key nm) = None.
Proof using.
  unfold get, mbind, store_bind, read, timed. destruct (fault sur _) as [|? []]; [|done..]. fold (before sur w).
  destruct (look (before sur w) _) as [kv|] eqn:Ek; [|by intros [= <- _]].
  unfold lift, decode. by destruct (from_slice _).
Qed.

Lemma found_here_run nm p p' r :
  found_here (Sp := Sp) (St := St) prefix sur nm p = (p', Ok r) ->
  DB p' = before sur (p_store p)
  /\ match r with None => look (DB p') (key nm) = None | Some o => read_from prefix (DB p') nm o end.
Proof using.
  unfold found_here. intros (p1 & x & H1 & H2)%pass_bind_ok. unfold try_store in H1.
  destruct (get _ _ _ (p_store p)) as [w y] eqn:E. injection H1 as <- <-.
  destruct y as [o|e].
  - injection H2 as <- <-. apply get_ok in E as (kv & Hk & -> & Ho). split; [done|]. by exists kv.
  - destruct e; try done. injection H2 as <- <-. by apply get_missing in E.
Qed.

Lemma st_get_run nm p p' o :
  st (get (Sp := Sp) (St := St) prefix sur nm) p = (p', Ok o) ->
  DB p' = before sur (p_store p) /\ read_from prefix (DB p') nm o.
Proof using.
  unfold st. destruct (get _ _ _ _) as [w [x|]] eqn:E; [|done]. intros [= <- <-].
  apply get_ok in E as (kv & Hk & -> & Ho). split; [done|]. by exists kv.
Qed.

Lemma made_run o p p' b :
  made prefix sur o p = (p', Ok b) ->
  if b : bool then exists o', landed (with_generation_one o) o' /\ read_from prefix (DB p') (name (metadata o)) o'
  else DB p' = before sur (p_store p).
Proof using EtcdLaws0 SettleLaws0 SerdeLaws0.
  unfold made. intros (p1 & x & H1 & H2)%pass_bind_ok. unfold try_store in H1.
  destruct (create _ _ _ _) as [w y] eqn:E. injection H1 as <- <-. destruct y as [o'|e].
  - injection H2 as <- <-. apply create_ok in E as (bytes & _ & Hb & _ & Hw & Hd). exists o'. split.
    + eexists _, _. exact (encode_name _ _ _ _ _ Hb Hd).
    + by eapply wrote_read.
  - destruct e; try done. injection H2 as <- <-. by apply create_exists in E.
Qed.

(** Others write through the store, and every object is filed under its name. *)
Context (Hfair : fair (Sp := Sp) (St := St) prefix sur).

Lemma edit_run nm o f p p' :
  filed (Sp := Sp) (St := St) prefix (DB p) ->
  (forall x, name (metadata (f x)) = name (metadata x)
             /\ resource_version (metadata (f x)) = resource_version (metadata x)) ->
  edit prefix sur nm o f p = (p', Ok tt) ->
  exists x o', landed (f x) o' /\ read_from prefix (DB p') nm o' /\ Objects.uid (metadata x) = Objects.uid (metadata o).
Proof using Hfair EtcdLaws0 SettleLaws0 SerdeLaws0.
  intros Hfiled Hf. unfold edit. intros (p1 & o' & H1 & H2)%pass_bind_ok. injection H2 as <-.
  unfold st in H1. destruct (mutate_if _ _ _ _ _ _) as [w [y|]] eqn:E; [|done]. injection H1 as <- <-.
  unfold mutate_if in E. apply bind_ok in E as (w1 & r & E & [= <- <-]).
  apply mutate_loop_ok in E as (s & x & kv & b & at_ & c & Hk & Hx & Had & Hb & _ & Hw & Hd); [|done| |done].
  2:{ intros c' x'. apply Hf. }
  exists x, r.2. split_and!.
  - eexists _, _. exact (encode_name _ _ _ _ _ Hb Hd).
  - by eapply wrote_read.
  - unfold expects_uid in Had. by destruct (String.eqb_spec (Objects.uid (metadata x)) (Objects.uid (metadata o))).
Qed.
(** ** Moving along the history *)

Lemma lawful : lawful_env sur.
Proof using Hfair. intros n s. apply Hfair. Qed.

Lemma before_evolves p : evolves (DB p) (before sur (p_store p)).
Proof using Hfair. apply lawful. Qed.

Lemma filed_before p : filed (Sp := Sp) (St := St) prefix (DB p) -> filed (Sp := Sp) (St := St) prefix (before sur (p_store p)).
Proof using Hfair. apply Hfair. Qed.

Lemma st_grows {A} (m : store_m D A) p p' r : grows m -> st m p = (p', r) -> evolves (DB p) (DB p').
Proof using. intros Hm. unfold st. destruct (m _) as [w x] eqn:E. intros [= <- _]. by eapply Hm. Qed.

Lemma try_grows {A} (m : store_m D A) p p' r : grows m -> try_store m p = (p', r) -> evolves (DB p) (DB p').
Proof using. intros Hm. unfold try_store. destruct (m _) as [w x] eqn:E. intros [= <- _]. by eapply Hm. Qed.

Lemma made_grows o p p' r : made prefix sur o p = (p', r) -> evolves (DB p) (DB p').
Proof using Hfair EtcdLaws0.
  pose proof lawful as Henv. unfold made. intros (p1 & x & H1 & H2)%pass_bind_run.
  assert (evolves (DB p) (DB p1)) by (eapply try_grows; [|exact H1]; eauto with growth).
  destruct x as [[o'|[]]|e]; try (by injection H2 as <- _). by destruct H2 as [<- _].
Qed.

Lemma edit_grows nm o f p p' r : edit prefix sur nm o f p = (p', r) -> evolves (DB p) (DB p').
Proof using Hfair EtcdLaws0.
  pose proof lawful as Henv. unfold edit. intros (p1 & x & H1 & H2)%pass_bind_run.
  assert (evolves (DB p) (DB p1)) by (eapply st_grows; [|exact H1]; eauto with growth).
  destruct x; [by injection H2 as <- _|by destruct H2 as [<- _]].
Qed.

(** What a retry loop leaves wears the name it was asked by. *)
Lemma mutated_name {C} admits (f : C -> T -> C * T) nm rounds c w w' r :
  keeps_identity f -> filed (Sp := Sp) (St := St) prefix (db w) ->
  mutate_loop prefix sur admits f nm rounds c w = (w', Ok r) -> name (metadata r.2) = nm.
Proof using Hfair EtcdLaws0 SettleLaws0 SerdeLaws0.
  intros Hf. revert c w. induction rounds as [|n IH]; intros c w Hfiled; [done|]. simpl.
  intros (w1 & x & (kv & Hk & -> & Hx)%get_ok & H)%bind_ok.
  destruct (admits x); [done|]. destruct (Hf c x) as [Hn Hv].
  destruct (f c x) as [c' x'] eqn:Ef. simpl in Hn, Hv.
  assert (Hfb : filed (Sp := Sp) (St := St) prefix (before sur w)) by (by apply Hfair).
  pose proof (look_bounds _ _ _ Hk) as [Hpos _].
  destruct (update _ _ _ _) as [w2 u] eqn:Eu.
  assert (Hr : (exists o, u = Ok o) \/ (exists why, u = Err (StoreError.Conflict why))).
  { destruct u as [|[]]; eauto; done. }
  destruct (update_parsed prefix sur _ _ _ _ Eu Hr) as [rev Er].
  assert (rev = mod_revision kv) as -> by (rewrite Hv in Er; eapply decoded_version; [|done..]; lia).
  destruct Hr as [[o' ->]|[why ->]].
  - injection H as <- <-.
    destruct (update_ok prefix sur x' _ _ _ _ Er ltac:(lia) Eu) as (kv2 & b & _ & _ & Hb & _ & _ & Hd).
    simpl. rewrite (encode_name _ _ _ _ _ Hb Hd). simpl. rewrite Hn. exact (Hfb _ _ _ Hk Hx).
  - apply (IH c' w2); [|done]. rewrite (update_conflict prefix sur _ _ _ _ _ Er ltac:(lia) Eu). by apply Hfair, Hfb.
Qed.

(** ** Writes that did not land *)

Lemma answer_unwritten_run {A} nm (settled : option T -> option A) doing p p' a :
  answer_unwritten prefix sur nm settled doing p = (p', Ok a) ->
  DB p' = before sur (p_store p)
  /\ exists now_, settled now_ = Some a
     /\ match now_ with None => look (DB p') (key nm) = None | Some o => read_from prefix (DB p') nm o end.
Proof using.
  unfold answer_unwritten. intros (p1 & now_ & H1 & H2)%pass_bind_ok. apply found_here_run in H1 as [Hdb Hnow].
  destruct (settled now_) as [b|] eqn:E; [|done]. injection H2 as <- <-. split; [done|]. by exists now_.
Qed.

Lemma mark_run checked cloud p p' t :
  filed (Sp := Sp) (St := St) prefix (DB p) ->
  mark_for_teardown prefix sur checked cloud p = (p', Ok t) ->
  leaving (DB p') (name (metadata checked)) cloud /\ evolves (DB p) (DB p').
Proof using Hfair EtcdLaws0 SettleLaws0 SerdeLaws0.
  intros Hfiled. unfold mark_for_teardown. intros (p1 & at_ & Hn & H)%pass_bind_ok. injection Hn as <- _.
  apply pass_bind_ok in H as (p2 & x & H1 & H2). cbv zeta in H2.
  assert (Hev : evolves (DB p) (DB p2)).
  { eapply try_grows; [|exact H1]. apply (grows_mutate_if_with prefix sur lawful). }
  assert (Hun : answer_unwritten prefix sur (name (metadata checked)) (torn_down (Sp := Sp) (St := St) cloud) "marked for teardown" p2 = (p', Ok t) ->
    leaving (DB p') (name (metadata checked)) cloud /\ evolves (DB p) (DB p')).
  { intros (Hdb & now_ & Hs & Hnow)%answer_unwritten_run. split.
    - unfold torn_down in Hs. destruct now_ as [o|]; [|by left; left].
      destruct (the_clouds cloud o) eqn:Ec; [|by left; right; exists o].
      destruct (is_deleting o) eqn:Ed; [|done]. right. by exists o.
    - rewrite Hdb. etrans; [exact Hev|apply before_evolves]. }
  destruct x as [[[] o]|[]]; try done; try by apply Hun.
  injection H2 as <- <-. split; [|done]. unfold try_store in H1. simpl in H1.
  destruct (mutate_if_with _ _ _ _ _ _ _) as [w y] eqn:E. injection H1 as <- ->.
  apply mutate_loop_ok in E as (s & x & kv & b & at' & c & Hk & Hx & Had & Hb & Hc & Hw & Hd); [|done| |done].
  2:{ intros c' x'. unfold marking. by destruct (the_clouds cloud x'). }
  unfold marking in Hb, Hc. destruct (the_clouds cloud x) eqn:Ec; [|done]. simpl in Hb, Hd.
  right. exists o. assert (Hl : landed (mark_deleting at_ x) o) by (eexists _, _; exact (encode_name _ _ _ _ _ Hb Hd)).
  split_and!; [by eapply wrote_read|by rewrite (landed_clouds _ _ _ Hl)|].
  rewrite (landed_deleting _ _ Hl). unfold is_deleting, mark_deleting. simpl. by destruct (deletion_timestamp _).
Qed.

Lemma finish_gone checked concluded s0 p p' :
  read_from prefix s0 (name (metadata checked)) checked -> evolves s0 (DB p) ->
  st (finish_delete prefix sur checked concluded) p = (p', Ok true) ->
  look (DB p') (key (name (metadata checked))) = None.
Proof using Hfair EtcdLaws0.
  intros Hr Hev. unfold st. destruct (finish_delete _ _ _ _ _) as [w [x|]] eqn:E; [|done]. intros [= <- ->].
  apply (finish_loop_true _ _ _ _ _ _ _ s0) in E as (s & x & _ & _ & _ & Hl); [|apply lawful|done..].
  simpl. by rewrite Hl, String.eqb_refl.
Qed.

Lemma delete_record_run checked cloud s0 p p' :
  read_from prefix s0 (name (metadata checked)) checked -> evolves s0 (DB p) ->
  delete_cloud_record prefix sur checked cloud p = (p', Ok tt) ->
  absent (DB p') (name (metadata checked)) cloud /\ evolves (DB p) (DB p').
Proof using Hfair EtcdLaws0.
  intros Hr Hev. unfold delete_cloud_record. intros (p1 & gone & H1 & H2)%pass_bind_ok.
  assert (H01 : evolves (DB p) (DB p1)).
  { eapply st_grows; [|exact H1]. apply grows_finish_delete, lawful. }
  destruct gone.
  - injection H2 as <-. split; [|done]. left. by eapply finish_gone.
  - apply answer_unwritten_run in H2 as (Hdb & now_ & Hs & Hnow). split.
    + unfold deleted in Hs. destruct now_ as [o|]; [|by left]. right. exists o. split; [done|].
      simpl in Hs. by destruct (the_clouds cloud o).
    + rewrite Hdb. etrans; [exact H01|apply before_evolves].
Qed.
End kind.

(** * What an event leaves alone *)

(** An event is filed under a key of its own kind: an invariant that does not look at
    such keys, and that others keep, stands after it is recorded. *)
Section events.
Context {D Bytes : Type} `{!Etcd D Bytes, !EtcdLaws D Bytes, !RawJson Bytes, !Serde Bytes EventSpec.t unit}.
Context (prefix : string) (sur : surroundings D) (Inv : D -> Prop).
Context (Henv : forall n s, Inv s -> Inv (env sur n s)).
Context (Hother : forall n s s', Inv s ->
  (forall k, k <> key_of (Sp := EventSpec.t) (St := unit) prefix n -> look s' k = look s k) -> Inv s').

Definition keeps {A} (m : store_m D A) : Prop := forall w w' r, Inv (db w) -> m w = (w', r) -> Inv (db w').

Lemma keeps_lift {A} (r : result StoreError.t A) : keeps (lift r).
Proof using. by intros w w' x H [= <- <-]. Qed.

Lemma keeps_seq {A B} (m : store_m D A) (k : A -> store_m D B) : keeps m -> (forall a, keeps (k a)) -> keeps (m ≫= k).
Proof using.
  intros Hm Hk w w' r Hi. unfold mbind, store_bind. destruct (m w) as [w1 x] eqn:E. apply Hm in E; [|done].
  destruct x; [by apply Hk|by intros [= <- <-]].
Qed.

Lemma keeps_timed {A} what (f : D -> D * A) : (forall s, Inv s -> Inv (f s).1) -> keeps (timed sur what f).
Proof using Henv.
  intros Hf w w' r Hi. unfold timed. apply (Henv (ticks w)) in Hi. destruct (fault sur (ticks w)) as [|[] how].
  - apply Hf in Hi. destruct (f _) as [s a]. by intros [= <- <-].
  - intros [= <- <-]. by apply Hf.
  - by intros [= <- <-].
Qed.

Lemma keeps_put what cs n b lease e :
  keeps (txn sur what cs [Put (key_of (Sp := EventSpec.t) (St := unit) prefix n) b lease] e).
Proof using Henv Hother EtcdLaws0.
  apply keeps_timed. intros s Hi. set (p := Put _ b lease). destruct (forallb (holds s) cs) eqn:Eh.
  2:{ by rewrite txn_refused. }
  destruct (puttable s p) eqn:Ep; [|by rewrite txn_void].
  destruct (txn_applied s cs p [] e Eh) as (s' & -> & _ & Hl); [by cbn [forallb]; rewrite Ep|].
  apply (Hother n s); [done|]. intros k Hk. rewrite Hl. unfold after_writes, p. simpl.
  match goal with |- context [String.eqb ?x ?y] => destruct (String.eqb_spec x y); [by subst|done] end.
Qed.

Lemma keeps_get n : keeps (get (Sp := EventSpec.t) (St := unit) prefix sur n).
Proof using Henv. apply keeps_seq; [by apply keeps_timed|]. intros [kv|]; apply keeps_lift. Qed.

Lemma keeps_written n b resp : keeps (written (Sp := EventSpec.t) (St := unit) prefix sur n b resp).
Proof using Henv. unfold written. destruct (header resp); [apply keeps_lift|apply keeps_get]. Qed.

Lemma keeps_create o lease : keeps (create_inner (Sp := EventSpec.t) (St := unit) prefix sur o lease).
Proof using Henv Hother EtcdLaws0.
  do 3 (apply keeps_seq; [first [apply keeps_lift|by intros w w' x H [= <- <-]]|intros ?]).
  apply keeps_seq; [apply keeps_put|intros resp]. destruct (succeeded resp); simpl; [apply keeps_written|apply keeps_lift].
Qed.

Lemma keeps_update o : keeps (update (Sp := EventSpec.t) (St := unit) prefix sur o).
Proof using Henv Hother EtcdLaws0.
  do 4 (apply keeps_seq; [first [apply keeps_lift|by intros w w' x H [= <- <-]]|intros ?]).
  apply keeps_seq; [apply keeps_put|intros resp]. destruct (succeeded resp); simpl; [apply keeps_written|apply keeps_lift].
Qed.

Lemma keeps_mutate n f : keeps (mutate (Sp := EventSpec.t) (St := unit) prefix sur n f).
Proof using Henv Hother EtcdLaws0.
  apply keeps_seq; [|intros; by intros w w' x H [= <- <-]]. generalize tt. induction MUTATE_ROUNDS as [|rounds IH]; intros c.
  { apply keeps_lift. }
  apply keeps_seq; [apply keeps_get|intros o]. simpl. intros w w' r Hi.
  destruct (update _ _ _ w) as [w1 x] eqn:E. apply keeps_update in E; [|done].
  destruct x as [o''|[]]; try by intros [= <- <-]. by apply IH.
Qed.

Lemma keeps_record new_lease new_uid kind nm uid reason message event_type tenant w :
  Inv (db w) -> Inv (db (record prefix sur new_lease new_uid kind nm uid reason message event_type tenant w)).
Proof using Henv Hother EtcdLaws0.
  intros Hi. unfold record. destruct (create_with_ttl _ _ _ _ _ _) as [w1 x] eqn:E.
  assert (H1 : Inv (db w1)).
  { revert E. unfold create_with_ttl. destruct (timed _ _ _ w) as [w0 [lease|e]] eqn:Et; apply keeps_timed in Et; try done.
    - intros E. by apply keeps_create in E.
    - by intros [= <- <-]. }
  destruct x as [o|[]]; try done.
  destruct (mutate _ _ _ _ _) as [w2 y] eqn:E2. by apply keeps_mutate in E2.
Qed.
End events.

(** VMs are not filed among the events. *)
Lemma vm_key_apart prefix `{!Resource VmSpec.t VmStatus.t} n k :
  RESOURCE (Sp := VmSpec.t) (St := VmStatus.t) = "vms" ->
  key_of (Sp := VmSpec.t) (St := VmStatus.t) prefix k <> key_of (Sp := EventSpec.t) (St := unit) prefix n.
Proof.
  intros Hr. unfold key_of, object_key. rewrite Hr. intros H. do 2 apply str_app_inj_r in H. done.
Qed.

(** * What each command asks for *)

Section acknowledged.
Context {D Bytes : Type} `{!Etcd D Bytes, !EtcdLaws D Bytes, !RawJson Bytes, !StatusJson}.
Context (to_rfc3339 : instant -> string).
#[local] Instance link_vms : Resource VmSpec.t VmStatus.t := vm_resource to_rfc3339.
#[local] Instance link_vms_settle : SettleLaws VmSpec.t VmStatus.t.
Proof using. by constructor. Qed.
#[local] Instance link_volumes_settle : SettleLaws VolumeSpec.t VolumeStatus.t.
Proof using. by constructor. Qed.
#[local] Instance link_copies_settle : SettleLaws VolumeSnapshotSpec.t VolumeSnapshotStatus.t.
Proof using. by constructor. Qed.
#[local] Instance link_secrets_settle : SettleLaws SecretSpec.t unit.
Proof using. by constructor. Qed.
Context `{!Serde Bytes VmSpec.t VmStatus.t, !SerdeLaws Bytes VmSpec.t VmStatus.t,
  !Serde Bytes VolumeSpec.t VolumeStatus.t, !SerdeLaws Bytes VolumeSpec.t VolumeStatus.t,
  !Serde Bytes VolumeSnapshotSpec.t VolumeSnapshotStatus.t, !SerdeLaws Bytes VolumeSnapshotSpec.t VolumeSnapshotStatus.t,
  !Serde Bytes SecretSpec.t unit, !SerdeLaws Bytes SecretSpec.t unit, !Serde Bytes EventSpec.t unit}.
Context (prefix : string) (sur : surroundings D) (new_lease : Z -> nat -> Z) (new_uid : nat -> string).
Context (read_vm : string -> result string VmSpec.t) (read_volume : string -> result string VolumeSpec.t)
  (read_snapshot : string -> result string VolumeSnapshotSpec.t) (read_secret : string -> result string SecretSpec.t).
Abbreviation DB p := (db (p_store p)).

(** The VM says what the cloud sent: intent, words about placement, labels, and the
    document with the tenant's network and addresses. *)
Definition carries_intent (c : CreateVm.t) (s : VmSpec.t) (v : Vm) : Prop :=
  VmSpec.run_strategy (spec v) = VmSpec.run_strategy s /\ VmSpec.evacuation (spec v) = VmSpec.evacuation s
  /\ VmSpec.class_ (spec v) = VmSpec.class_ s /\ VmSpec.node_selector (spec v) = VmSpec.node_selector s
  /\ VmSpec.anti_affinity (spec v) = VmSpec.anti_affinity s
  /\ labels (metadata v) = labels (label_for_cloud metadata_default c)
  /\ (VmSpec.vm (spec v) = VmSpec.vm s \/ value_eqb (VmSpec.vm (spec v)) (VmSpec.vm s) = true).

(** The document as it is stored. *)
Definition bound_spec (c : CreateVm.t) (s : VmSpec.t) : VmSpec.t :=
  vm_spec_with s (VmSpec.node_name s) (VmSpec.cluster_name s) (bind_nics c (VmSpec.vm s)).

(** In database [s] the command is done; an object that stands was the cloud's when
    it was judged, in [s1]. *)
Definition done_at (s1 s : D) (op : CloudOp.t) : Prop :=
  match op with
  | CloudOp.Create c =>
      exists doc v, read_vm (CreateVm.spec_json c) = Ok doc /\ read_from prefix s (CreateVm.name c) v
        /\ the_clouds (CreateVm.uid c) v = true /\ carries_intent c (bound_spec c doc) v
  | CloudOp.Destroy nm uid => leaving (Sp := VmSpec.t) (St := VmStatus.t) prefix s nm uid
  | CloudOp.CreateVolume nm json uid tenant =>
      exists doc (v1 v : Volume), read_volume json = Ok doc /\ read_from prefix s1 nm v1 /\ the_clouds uid v1 = true
        /\ read_from prefix s nm v /\ Objects.uid (metadata v) = Objects.uid (metadata v1)
        /\ (VolumeSpec.size_gib doc <= VolumeSpec.size_gib (spec v))%N
  | CloudOp.DestroyVolume nm uid => leaving (Sp := VolumeSpec.t) (St := VolumeStatus.t) prefix s nm uid
  | CloudOp.ReleaseVolume nm uid => absent (Sp := VolumeSpec.t) (St := VolumeStatus.t) prefix s nm uid
  | CloudOp.CreateSnapshot nm json uid tenant =>
      exists x : VolumeSnapshot, read_from prefix s nm x /\ the_clouds uid x = true
  | CloudOp.DestroySnapshot nm uid => leaving (Sp := VolumeSnapshotSpec.t) (St := VolumeSnapshotStatus.t) prefix s nm uid
  | CloudOp.CreateSecret nm json uid tenant gen =>
      exists doc (x1 x : Secret), read_secret json = Ok doc /\ read_from prefix s1 nm x1 /\ the_clouds uid x1 = true
        /\ read_from prefix s nm x /\ Objects.uid (metadata x) = Objects.uid (metadata x1)
        /\ SecretSpec.data (spec x) = SecretSpec.data doc /\ SecretSpec.tenant (spec x) = tenant
        /\ sget ANNOTATION_CLOUD_GENERATION (annotations (metadata x)) = Some (show_N gen)
  | CloudOp.DeleteSecret nm uid => absent (Sp := SecretSpec.t) (St := unit) prefix s nm uid
  end.

(** Others write through the store and file what they write under its name. *)
Definition fair_peers : Prop :=
  fair (Sp := VmSpec.t) (St := VmStatus.t) prefix sur /\ fair (Sp := VolumeSpec.t) (St := VolumeStatus.t) prefix sur
  /\ fair (Sp := VolumeSnapshotSpec.t) (St := VolumeSnapshotStatus.t) prefix sur
  /\ fair (Sp := SecretSpec.t) (St := unit) prefix sur.

Definition all_in_place (s : D) : Prop :=
  filed (Sp := VmSpec.t) (St := VmStatus.t) prefix s /\ filed (Sp := VolumeSpec.t) (St := VolumeStatus.t) prefix s
  /\ filed (Sp := VolumeSnapshotSpec.t) (St := VolumeSnapshotStatus.t) prefix s
  /\ filed (Sp := SecretSpec.t) (St := unit) prefix s.

(** Done at a moment between the two. *)
Definition done_between (a b : D) (op : CloudOp.t) : Prop :=
  exists s1 s2, evolves a s1 /\ evolves s1 s2 /\ evolves s2 b /\ done_at s1 s2 op.

Lemma done_last (a b : D) op : evolves a b -> done_at b b op -> done_between a b op.
Proof using. intros He Hd. exists b, b. split_and!; [done|by apply rtc_refl|by apply rtc_refl|done]. Qed.

Lemma for_cloud_clouds {Sp St} cloud (o : Object Sp St) : the_clouds cloud (for_cloud cloud o) = true.
Proof using.
  unfold the_clouds, for_cloud. apply bool_decide_true. exact (proj2 (mark_managed_by_cloud_reads (metadata o) cloud)).
Qed.

Lemma labelled_clouds (v : Vm) c : the_clouds (CreateVm.uid c) (with_metadata v (label_for_cloud (metadata v) c)) = true.
Proof using. unfold the_clouds. apply bool_decide_true. exact (proj2 (mark_managed_by_cloud_reads _ (CreateVm.uid c))). Qed.

Section commands.
Context (Hfair : fair_peers).

Let vm_fair : fair (Sp := VmSpec.t) (St := VmStatus.t) prefix sur := proj1 Hfair.
Let volume_fair : fair (Sp := VolumeSpec.t) (St := VolumeStatus.t) prefix sur := proj1 (proj2 Hfair).
Let copy_fair : fair (Sp := VolumeSnapshotSpec.t) (St := VolumeSnapshotStatus.t) prefix sur := proj1 (proj2 (proj2 Hfair)).
Let secret_fair : fair (Sp := SecretSpec.t) (St := unit) prefix sur := proj2 (proj2 (proj2 Hfair)).

(** ** Teardowns *)

Lemma destroy_done {Sp St} `{!Resource Sp St, !Serde Bytes Sp St, !SettleLaws Sp St, !SettleSpec Sp St, !SerdeLaws Bytes Sp St}
    nm cloud (p p' : pass D) :
  fair (Sp := Sp) (St := St) prefix sur -> filed (Sp := Sp) (St := St) prefix (DB p) ->
  (r ← found_here (Sp := Sp) (St := St) prefix sur nm;
   match r with
   | None => ok tt
   | Some current =>
       if negb (the_clouds cloud current) || is_deleting current then ok tt
       else _ ← mark_for_teardown prefix sur current cloud; ok tt
   end) p = (p', Ok tt) ->
  evolves (DB p) (DB p') /\ leaving (Sp := Sp) (St := St) prefix (DB p') nm cloud.
Proof using EtcdLaws0.
  intros Hf Hfiled (p1 & r & H1 & H2)%pass_bind_ok. apply found_here_run in H1 as [Hdb Hr].
  assert (Hev : evolves (DB p) (DB p1)) by (rewrite Hdb; by apply (before_evolves prefix sur Hf)).
  assert (Hfb : filed (Sp := Sp) (St := St) prefix (DB p1)) by (rewrite Hdb; by apply (filed_before prefix sur Hf)).
  destruct r as [current|]; [|injection H2 as <-; split; [done|]; by left; left].
  assert (Hnm : name (metadata current) = nm).
  { destruct Hr as (kv & Hk & Ho). exact (Hfb _ _ _ Hk Ho). }
  destruct (the_clouds cloud current) eqn:Ec; simpl in H2.
  2:{ injection H2 as <-. split; [done|]. left. right. by exists current. }
  destruct (is_deleting current) eqn:Ed.
  - injection H2 as <-. split; [done|]. right. by exists current.
  - apply pass_bind_ok in H2 as (p2 & t & Hm & [= <-]). apply (mark_run prefix sur Hf) in Hm as [Hl He]; [|done].
    split; [by etrans|]. by rewrite Hnm in Hl.
Qed.

Lemma delete_secret_done nm cloud (p p' : pass D) :
  filed (Sp := SecretSpec.t) (St := unit) prefix (DB p) ->
  handle_delete_secret prefix sur nm cloud p = (p', Ok tt) ->
  evolves (DB p) (DB p') /\ absent (Sp := SecretSpec.t) (St := unit) prefix (DB p') nm cloud.
Proof using EtcdLaws0 secret_fair.
  intros Hfiled (p1 & r & H1 & H2)%pass_bind_ok. apply found_here_run in H1 as [Hdb Hr].
  assert (Hev : evolves (DB p) (DB p1)) by (rewrite Hdb; by apply (before_evolves prefix sur secret_fair)).
  destruct r as [current|]; [|injection H2 as <-; split; [done|by left]].
  assert (Hnm : name (metadata current) = nm).
  { destruct Hr as (kv & Hk & Ho). rewrite Hdb in Hk. exact (filed_before prefix sur secret_fair p Hfiled _ _ _ Hk Ho). }
  destruct (the_clouds cloud current) eqn:Ec; simpl in H2.
  - rewrite <- Hnm in Hr. apply (delete_record_run prefix sur secret_fair _ _ (DB p1)) in H2 as [Ha He]; [|done|by apply rtc_refl].
    split; [by etrans|]. by rewrite Hnm in Ha.
  - injection H2 as <-. split; [done|]. right. by exists current.
Qed.

Lemma release_done nm cloud (p p' : pass D) :
  filed (Sp := VolumeSpec.t) (St := VolumeStatus.t) prefix (DB p) ->
  handle_release_volume prefix sur nm cloud p = (p', Ok tt) ->
  evolves (DB p) (DB p') /\ absent (Sp := VolumeSpec.t) (St := VolumeStatus.t) prefix (DB p') nm cloud.
Proof using EtcdLaws0 volume_fair SerdeLaws1.
  pose proof (lawful prefix sur volume_fair) as Henv.
  intros Hfiled (p1 & r & H1 & H2)%pass_bind_ok. apply found_here_run in H1 as [Hdb Hr].
  assert (Hev : evolves (DB p) (DB p1)) by (rewrite Hdb; by apply (before_evolves prefix sur volume_fair)).
  assert (Hfb : filed (Sp := VolumeSpec.t) (St := VolumeStatus.t) prefix (DB p1))
    by (rewrite Hdb; by apply (filed_before prefix sur volume_fair)).
  destruct r as [current|]; [|injection H2 as <-; split; [done|by left]].
  destruct (the_clouds cloud current) eqn:Ec; simpl in H2.
  2:{ injection H2 as <-. split; [done|]. right. by exists current. }
  destruct (VolumeStatus.attached_to (status current)); [done|].
  assert (Hnm : name (metadata current) = nm) by (destruct Hr as (kv & Hk & Ho); exact (Hfb _ _ _ Hk Ho)).
  unfold release_record in H2. apply pass_bind_ok in H2 as (p2 & released & H2 & H3).
  assert (He : evolves (DB p) (DB p2)).
  { etrans; [exact Hev|]. eapply st_grows; [|exact H2]. unfold release_and_delete.
    apply grows_bind; [by apply grows_take_finalizer|]. intros [w|]; [by apply grows_finish_delete|apply grows_ret]. }
  destruct released.
  - injection H3 as <-. split; [done|]. left. unfold st in H2.
    destruct (release_and_delete _ _ _ _ _ _) as [w x] eqn:E. destruct x; [|done]. injection H2 as <- ->.
    unfold release_and_delete in E. apply bind_ok in E as (w1 & [written|] & E1 & E2); [|done].
    assert (Hn : name (metadata written) = name (metadata current)).
    { unfold take_finalizer in E1. destruct (mutate_if_with _ _ _ _ _ _ _) as [w2 [[[] o]|[]]] eqn:Em; simplify_eq.
      apply (mutated_name prefix sur volume_fair) in Em; [done| |done].
      intros c' o'. unfold drop_finalizer. by destruct (releasable cloud o'). }
    apply take_finalizer_some in E1 as (_ & _ & _ & _ & _ & Hw & _); [|done|done].
    unfold finish_release, finish_delete in E2. rewrite Hn, Hnm in *.
    apply (finish_loop_true _ _ _ _ _ _ _ (db w1)) in E2 as (s & x & _ & _ & _ & Hl); [|done|done|by apply rtc_refl|done].
    simpl. by rewrite Hl, String.eqb_refl.
  - apply pass_bind_ok in H3 as (p3 & r3 & H3 & H4). unfold try_store in H3.
    destruct (get _ _ _ (p_store p2)) as [w y] eqn:E. injection H3 as <- <-.
    assert (He3 : evolves (DB p) (db w)) by (etrans; [exact He|]; eapply grows_get in E; done).
    destruct y as [v|[]]; try done.
    + apply get_ok in E as (kv & Hk & -> & Ho). destruct (the_clouds cloud v) eqn:Ev; simpl in H4.
      { by destruct (VolumeStatus.attached_to (status v)). }
      injection H4 as <-. split; [done|]. right. exists v. split; [by exists kv|done].
    + injection H4 as <-. split; [done|]. left. by apply get_missing in E as [_ ?].
Qed.
(** ** Creates *)

(** A create that found the name taken, and read what is there. *)
Lemma taken_read {Sp St} `{!Resource Sp St, !Serde Bytes Sp St, !SettleLaws Sp St, !SerdeLaws Bytes Sp St}
    (o : Object Sp St) nm (p p1 p2 : pass D) current :
  fair (Sp := Sp) (St := St) prefix sur -> filed (Sp := Sp) (St := St) prefix (DB p) ->
  made prefix sur o p = (p1, Ok false) -> st (get (Sp := Sp) (St := St) prefix sur nm) p1 = (p2, Ok current) ->
  evolves (DB p) (DB p2) /\ read_from prefix (DB p2) nm current /\ filed (Sp := Sp) (St := St) prefix (DB p2).
Proof using EtcdLaws0.
  intros Hf Hfiled H1 H2. pose proof (made_grows prefix sur Hf _ _ _ _ H1) as He.
  apply made_run in H1. apply st_get_run in H2 as [Hdb Hr]. split_and!; [|done|].
  - etrans; [exact He|]. rewrite Hdb. by apply (before_evolves prefix sur Hf).
  - rewrite Hdb. apply (filed_before prefix sur Hf). rewrite H1. by apply (filed_before prefix sur Hf).
Qed.

Lemma clock_and_uid {A} (k : instant -> string -> pass_m D A) (p p' : pass D) r :
  (at_ ← now_ sur; uid ← fresh_uid new_uid; k at_ uid) p = (p', r) ->
  exists p0 at_ uid, p_store p0 = p_store p /\ k at_ uid p0 = (p', r).
Proof using.
  intros Hk. exists (set_store p (p_store p)), (clock sur (ticks (p_store p))), (new_uid (ticks (p_store p))). by split.
Qed.

Lemma create_volume_done nm json cloud tenant (p p' : pass D) :
  filed (Sp := VolumeSpec.t) (St := VolumeStatus.t) prefix (DB p) ->
  handle_create_volume prefix sur new_uid read_volume nm json cloud tenant p = (p', Ok tt) ->
  done_between (DB p) (DB p') (CloudOp.CreateVolume nm json cloud tenant).
Proof using EtcdLaws0 volume_fair SerdeLaws1.
  intros Hfiled. unfold handle_create_volume. destruct (str_is_empty cloud); [done|].
  intros (p0 & doc & Hp & Hk)%pass_bind_ok. unfold parsed in Hp.
  destruct (read_volume json) as [doc'|] eqn:Ej; [|done]. injection Hp as <- <-.
  apply clock_and_uid in Hk as (p0 & at_ & uid & Hp0 & Hk). rewrite <- Hp0 in Hfiled |- *. clear p Hp0.
  cbv zeta in Hk. apply pass_bind_ok in Hk as (p1 & b & H1 & H2). destruct b.
  - injection H2 as <-. apply done_last; [by eapply (made_grows prefix sur volume_fair)|].
    apply made_run in H1 as (o & Hl & Hr). exists doc', o, o. split_and!; [done|exact Hr| |exact Hr|done|].
    + rewrite (landed_clouds _ _ _ Hl). exact (for_cloud_clouds cloud (new_volume nm uid at_ (volume_of_tenant tenant doc'))).
    + rewrite (landed_spec _ _ Hl). simpl. lia.
  - apply pass_bind_ok in H2 as (p2 & current & H2 & H3).
    destruct (taken_read _ _ _ _ _ _ volume_fair Hfiled H1 H2) as (He & Hr & Hf2).
    destruct (the_clouds cloud current) eqn:Ec; [|done]. cbn [negb] in H3.
    revert H3. set (sent := spec (with_metadata _ _)). assert (Hsize : VolumeSpec.size_gib sent = VolumeSpec.size_gib doc') by done.
    destruct (N.ltb_spec (VolumeSpec.size_gib (spec current)) (VolumeSpec.size_gib sent)) as [Hlt|Hge]; intros H3.
    + pose proof (edit_grows prefix sur volume_fair _ _ _ _ _ _ H3) as He3.
      apply (edit_run prefix sur volume_fair) in H3 as (x & o & Hl & Hr' & Hu); [|done|].
      2:{ intros x. unfold grow_to_cloud_size. by destruct (_ <=? _)%N. }
      exists (DB p2), (DB p'). split_and!; [done|done|by apply rtc_refl|].
      exists doc', current, o. split_and!; [done..| |].
      * rewrite (landed_uid _ _ Hl), <- Hu. unfold grow_to_cloud_size. by destruct (_ <=? _)%N.
      * rewrite (landed_spec _ _ Hl), <- Hsize. unfold grow_to_cloud_size.
        destruct (N.leb_spec (VolumeSpec.size_gib sent) (VolumeSpec.size_gib (spec x))); simpl; lia.
    + injection H3 as <-. apply done_last; [done|]. by exists doc', current, current.
Qed.
Lemma create_snapshot_done nm json cloud tenant (p p' : pass D) :
  filed (Sp := VolumeSnapshotSpec.t) (St := VolumeSnapshotStatus.t) prefix (DB p) ->
  handle_create_snapshot prefix sur new_uid read_snapshot nm json cloud tenant p = (p', Ok tt) ->
  done_between (DB p) (DB p') (CloudOp.CreateSnapshot nm json cloud tenant).
Proof using EtcdLaws0 copy_fair SerdeLaws2.
  intros Hfiled. unfold handle_create_snapshot. destruct (str_is_empty cloud); [done|].
  intros (p0 & doc & Hp & Hk)%pass_bind_ok. unfold parsed in Hp.
  destruct (read_snapshot json) as [doc'|] eqn:Ej; [|done]. injection Hp as <- <-.
  apply clock_and_uid in Hk as (p0 & at_ & uid & Hp0 & Hk). rewrite <- Hp0 in Hfiled |- *. clear p Hp0.
  cbv zeta in Hk. apply pass_bind_ok in Hk as (p1 & b & H1 & H2). destruct b.
  - injection H2 as <-. apply done_last; [by eapply (made_grows prefix sur copy_fair)|].
    apply made_run in H1 as (o & Hl & Hr). exists o. split; [exact Hr|].
    rewrite (landed_clouds _ _ _ Hl). apply for_cloud_clouds.
  - apply pass_bind_ok in H2 as (p2 & current & H2 & H3).
    destruct (taken_read _ _ _ _ _ _ copy_fair Hfiled H1 H2) as (He & Hr & _).
    destruct (the_clouds cloud current) eqn:Ec; [|done]. injection H3 as <-. apply done_last; [done|]. by exists current.
Qed.

Lemma create_secret_done nm json cloud tenant gen (p p' : pass D) :
  filed (Sp := SecretSpec.t) (St := unit) prefix (DB p) ->
  handle_create_secret prefix sur new_uid read_secret nm json cloud tenant gen p = (p', Ok tt) ->
  done_between (DB p) (DB p') (CloudOp.CreateSecret nm json cloud tenant gen).
Proof using EtcdLaws0 secret_fair SerdeLaws3.
  intros Hfiled. unfold handle_create_secret. destruct (str_is_empty cloud); [done|].
  intros (p0 & doc & Hp & Hk)%pass_bind_ok. unfold parsed in Hp.
  destruct (read_secret json) as [doc'|] eqn:Ej; [|done]. injection Hp as <- <-.
  apply clock_and_uid in Hk as (p0 & at_ & uid & Hp0 & Hk). rewrite <- Hp0 in Hfiled |- *. clear p Hp0.
  cbv zeta in Hk. apply pass_bind_ok in Hk as (p1 & b & H1 & H2). destruct b.
  - injection H2 as <-. apply done_last; [by eapply (made_grows prefix sur secret_fair)|].
    apply made_run in H1 as (o & Hl & Hr). exists doc', o, o. split_and!; [done|exact Hr| |exact Hr|done| | |].
    + rewrite (landed_clouds _ _ _ Hl). apply for_cloud_clouds.
    + by rewrite (landed_spec _ _ Hl).
    + by rewrite (landed_spec _ _ Hl).
    + rewrite (landed_annotations _ _ Hl). apply sget_insert_eq.
  - apply pass_bind_ok in H2 as (p2 & current & H2 & H3).
    destruct (taken_read _ _ _ _ _ _ secret_fair Hfiled H1 H2) as (He & Hr & Hf2).
    destruct (the_clouds cloud current) eqn:Ec; [|done]. cbn [negb] in H3.
    destruct (secret_current _ _ _) eqn:Es.
    + injection H3 as <-. apply done_last; [done|]. unfold secret_current in Es.
      apply andb_true_iff in Es as [[Hd Ht]%andb_true_iff Hg]. apply bool_decide_eq_true in Hd, Hg. apply String.eqb_eq in Ht.
      by exists doc', current, current.
    + pose proof (edit_grows prefix sur secret_fair _ _ _ _ _ _ H3) as He3.
      apply (edit_run prefix sur secret_fair) in H3 as (x & o & Hl & Hr' & Hu); [|done|done].
      exists (DB p2), (DB p'). split_and!; [done|done|by apply rtc_refl|].
      exists doc', current, o. split_and!; [done..| | | |].
      * by rewrite (landed_uid _ _ Hl), <- Hu.
      * by rewrite (landed_spec _ _ Hl).
      * by rewrite (landed_spec _ _ Hl).
      * rewrite (landed_annotations _ _ Hl). apply sget_insert_eq.
Qed.

(** ** VMs *)

Lemma declared_carries uid at_ c s trace v :
  landed (with_generation_one (declared_for_cloud uid at_ c s trace)) v ->
  the_clouds (CreateVm.uid c) v = true /\ carries_intent c s v.
Proof using.
  intros Hl. split.
  - rewrite (landed_clouds _ _ _ Hl). unfold declared_for_cloud.
    destruct (str_is_empty trace); exact (labelled_clouds (new_vm (CreateVm.name c) uid at_ _) c).
  - unfold carries_intent. rewrite (landed_spec _ _ Hl), (landed_labels _ _ Hl).
    unfold declared_for_cloud. destruct (str_is_empty trace); simpl; split_and!; auto.
Qed.

Lemma drifted_carries c s x v :
  landed (drifted c s x) v -> the_clouds (CreateVm.uid c) v = true /\ carries_intent c s v.
Proof using.
  intros Hl. split.
  - rewrite (landed_clouds _ _ _ Hl). unfold drifted. cbv zeta. destruct (negb _); exact (labelled_clouds x c).
  - unfold carries_intent. rewrite (landed_spec _ _ Hl), (landed_labels _ _ Hl). unfold drifted. cbv zeta.
    destruct (value_eqb (VmSpec.vm (spec x)) (VmSpec.vm s)) eqn:E; simpl; split_and!; auto.
Qed.

Lemma unmoved_carries c s current :
  the_clouds (CreateVm.uid c) current = true -> shape_moved current s (CreateVm.name c) = Ok false ->
  VmSpec.evacuation (spec current) = VmSpec.evacuation s -> placement_moved current s c = false ->
  VmSpec.run_strategy (spec current) = VmSpec.run_strategy s -> carries_intent c s current.
Proof using.
  intros Hc Hs He Hp Hr. unfold placement_moved in Hp. rewrite !orb_false_iff, !negb_false_iff in Hp.
  destruct Hp as [[[H1%String.eqb_eq H2%bool_decide_eq_true] H3%bool_decide_eq_true] H4%bool_decide_eq_true].
  unfold carries_intent. split_and!; try done. right. unfold shape_moved in Hs.
  destruct (value_eqb _ _); [done|]. simpl in Hs. by destruct (negb _).
Qed.
(** The event about a kept wire leaves the VMs in place. *)
Lemma note_kept v own (p p' : pass D) r :
  filed (Sp := VmSpec.t) (St := VmStatus.t) prefix (DB p) ->
  match own with Some why => note_own_wire_kept prefix sur new_lease new_uid v why | None => ok tt end p = (p', r) ->
  filed (Sp := VmSpec.t) (St := VmStatus.t) prefix (DB p') /\ evolves (DB p) (DB p').
Proof using EtcdLaws0 vm_fair.
  intros Hfiled. destruct own as [why|]; [|by intros [= <- _]]. intros [= <- _]. simpl. split.
  - apply keeps_record; [by intros n s; apply vm_fair| |done].
    intros n s s' Hs Hl k kv x Hk. rewrite Hl in Hk; [by apply Hs|]. by apply vm_key_apart.
  - apply grows_record. exact (lawful prefix sur vm_fair).
Qed.

Lemma drift_done c s own (p p' : pass D) :
  filed (Sp := VmSpec.t) (St := VmStatus.t) prefix (DB p) ->
  drift_create prefix sur new_lease new_uid c s own p = (p', Ok tt) ->
  exists s2, evolves (DB p) s2 /\ evolves s2 (DB p')
    /\ exists v, read_from prefix s2 (CreateVm.name c) v /\ the_clouds (CreateVm.uid c) v = true /\ carries_intent c s v.
Proof using EtcdLaws0 vm_fair SerdeLaws0.
  intros Hfiled. unfold drift_create. intros (p1 & r & H1 & H2)%pass_bind_ok. unfold try_store in H1.
  destruct (get _ _ _ (p_store p)) as [w y] eqn:E. injection H1 as <- <-.
  destruct y as [current|e]; [|by destruct e, own].
  apply get_ok in E as (kv & Hk & -> & Ho).
  assert (Hr : read_from prefix (before sur (p_store p)) (CreateVm.name c) current) by (by exists kv).
  apply pass_bind_ok in H2 as (p2 & [] & H2 & H3). unfold insist in H2.
  destruct (refuse_unless_ours current c) as [[]|] eqn:Er; [|done]. injection H2 as <-.
  assert (Hc : the_clouds (CreateVm.uid c) current = true).
  { unfold refuse_unless_ours in Er. by destruct (the_clouds (CreateVm.uid c) current). }
  apply pass_bind_ok in H3 as (p3 & [] & H2 & H3).
  assert (p3 = set_store p (World (before sur (p_store p)) (S (ticks (p_store p))))) as ->.
  { destruct own; [|by injection H2 as <-]. destruct (bool_decide _); [by injection H2 as <-|done]. }
  clear H2. apply pass_bind_ok in H3 as (p4 & shape & H2 & H3). unfold insist in H2.
  destruct (shape_moved _ _ _) as [moved|] eqn:Es; [|done]. injection H2 as <- <-.
  apply pass_bind_ok in H3 as (p5 & [] & H2 & H3). cbv zeta in H3.
  assert (H01 : evolves (DB p) (before sur (p_store p))) by (by apply (before_evolves prefix sur vm_fair)).
  apply note_kept in H2 as [Hf5 He5]; [|simpl; by apply (filed_before prefix sur vm_fair)]. simpl in He5.
  destruct (_ && _) eqn:Eb.
  - injection H3 as <-. exists (before sur (p_store p)). split_and!; [done|done|]. exists current. split_and!; [done|done|].
    rewrite !andb_true_iff, !negb_true_iff, negb_false_iff, !bool_decide_eq_true in Eb.
    destruct Eb as [[[-> He] Hp] Hs]. by apply unmoved_carries.
  - pose proof (edit_grows prefix sur vm_fair _ _ _ _ _ _ H3) as He3.
    apply (edit_run prefix sur vm_fair) in H3 as (x & o & Hl & Hr' & _); [|done|].
    2:{ intros x. unfold drifted. cbv zeta. destruct (value_eqb _ _); by split. }
    exists (DB p'). split_and!; [by do 2 (etrans; [eassumption|])|by apply rtc_refl|]. exists o. split; [done|].
    by eapply drifted_carries.
Qed.

Lemma create_vm_done c trace (p p' : pass D) :
  filed (Sp := VmSpec.t) (St := VmStatus.t) prefix (DB p) ->
  handle_create prefix sur new_lease new_uid read_vm c trace p = (p', Ok tt) ->
  done_between (DB p) (DB p') (CloudOp.Create c).
Proof using EtcdLaws0 vm_fair SerdeLaws0.
  intros Hfiled. unfold handle_create. destruct (str_is_empty (CreateVm.uid c)); [done|].
  intros (p0 & doc & Hp & Hk)%pass_bind_ok. unfold parsed in Hp.
  destruct (read_vm _) as [doc'|] eqn:Ej; [|done]. injection Hp as <- <-.
  destruct (negb (is_some _)); [done|]. cbv zeta in Hk. fold (bound_spec c doc') in Hk.
  assert (Hdrift : forall own (q : pass D), filed (Sp := VmSpec.t) (St := VmStatus.t) prefix (DB q) ->
            evolves (DB p) (DB q) -> drift_create prefix sur new_lease new_uid c (bound_spec c doc') own q = (p', Ok tt) ->
            done_between (DB p) (DB p') (CloudOp.Create c)).
  { intros own q Hq He (s2 & H1 & H2 & v & Hv)%drift_done; [|done]. exists s2, s2.
    split_and!; [by etrans|by apply rtc_refl|done|]. by exists doc', v. }
  destruct (check_tenant_nics _) as [[]|e]; [|by eapply Hdrift; [..|exact Hk]; [|by apply rtc_refl]].
  apply clock_and_uid in Hk as (p0 & at_ & uid & Hp0 & Hk). rewrite <- Hp0 in *. clear Hp0.
  apply pass_bind_ok in Hk as (p1 & b & H1 & H2). pose proof (made_grows prefix sur vm_fair _ _ _ _ H1) as He.
  apply made_run in H1. destruct b.
  - injection H2 as <-. apply done_last; [done|]. destruct H1 as (v & Hl & Hr). exists doc', v.
    destruct (declared_carries _ _ _ _ _ _ Hl). split_and!; [done| |done|done].
    unfold declared_for_cloud in Hr. by destruct (str_is_empty trace).
  - eapply Hdrift; [|exact He|exact H2]. rewrite H1. by apply (filed_before prefix sur vm_fair).
Qed.
End commands.

End acknowledged.

(** v1 is handed down to a cluster that holds nothing. *)
Import Tier.

Definition hand_down_v1 : CloudOp.t :=
  CloudOp.Create {| CreateVm.name := "v1"; CreateVm.uid := "u-1"; CreateVm.spec_json := "doc"; CreateVm.vni := Some 7%N;
                    CreateVm.floating_ips := []; CreateVm.routed_subnets := []; CreateVm.labels := [("tier", "web")] |}.

Definition at_cluster (op : CloudOp.t) (p : pass (mem bytes)) : pass (mem bytes) * result Failure.t unit :=
  handle "p" quiet (fun _ _ => 1%Z) (fun _ => "u-here") (fun _ => Ok (spec (guest None)))
    (fun _ => Ok (spec (disk_at None None))) (fun _ => Err "no copy") (fun _ => Err "no secret") op "" p.

