(* ===== verification/CloudIngest.v ===== *)
(** What a cluster reports and what becomes of it at the cloud:
    [src/components/cloud-controller/src/session/ingest.rs] and [inventory.rs].  Only
    the session that speaks for a cluster writes; every write re-asks, of the object it
    replaces, whether the cluster may speak for it; absence from a list means something
    only where the list says it is complete. *)
From Stdlib Require Import Ascii String NArith ZArith List Bool Lia.
From stdpp Require Import base list strings gmap relations.
From S2P Require Import Prelude RustStr Json Net Capability Heartbeat Vm Node Storage Sizing Placement Diagnosis.
From S2P Require Import Reservation Claims Commit Floating Quota AddressSpace Gateways Lifecycle Dispatch Namespaces SpecDocs.
From S2P Require Import Rooms Images CloudPlace MigrationRules ClusterMigration Deletion PlacePass VmPass DrainPass VolumePass.
From S2P Require Import Ingest CloudPass CloudSafety CloudLink.
From S2P Require Import Phase Objects Store StoreSafety Growth.

#[export] Instance Capacity_eq_dec : EqDecision Capacity.t.
Proof. solve_decision. Defined.
#[export] Instance NodeSummary_eq_dec : EqDecision NodeSummary.t.
Proof. solve_decision. Defined.

(** * The cluster itself *)

Definition node_summary (n : CloudNodeReport.t) : NodeSummary.t :=
  {| NodeSummary.name := CloudNodeReport.name n; NodeSummary.ready := CloudNodeReport.ready n;
     NodeSummary.schedulable := CloudNodeReport.schedulable n; NodeSummary.drain := CloudNodeReport.drain n;
     NodeSummary.labels := CloudNodeReport.labels n; NodeSummary.vcpus := CloudNodeReport.vcpus n;
     NodeSummary.mem_mib := CloudNodeReport.mem_mib n; NodeSummary.bound_vcpus := CloudNodeReport.bound_vcpus n;
     NodeSummary.bound_mem_mib := CloudNodeReport.bound_mem_mib n;
     NodeSummary.capabilities := CloudNodeReport.capabilities n; NodeSummary.vms := CloudNodeReport.vms n;
     NodeSummary.conditions := CloudNodeReport.conditions n; NodeSummary.draining := CloudNodeReport.draining n;
     NodeSummary.accepts := CloudNodeReport.accepts n |}.

Definition unplaced_kept (r : ClusterReport.t) : list Capacity.t * N :=
  let kept := firstn UNPLACED_CARRIED_MAX (ClusterReport.unplaced r) in
  let cut := N.min (N.of_nat (length (ClusterReport.unplaced r) - length kept)) u32_max in
  (kept, sat_add u32_max (ClusterReport.unplaced_omitted r) cut).

Module ClusterFacts.
Record t := {
  ready : N;
  total : N;
  vms : N;
  nodes : list NodeSummary.t;
  unplaced : list Capacity.t;
  unplaced_omitted : N;
  capacity : option ClusterCapacity.t;
}.

Definition of_ (r : ClusterReport.t) : t :=
  {| ready := ClusterReport.nodes_ready r; total := ClusterReport.nodes_total r;
     vms := N.of_nat (length (ClusterReport.vms r)) mod (u32_max + 1);
     nodes := map node_summary (ClusterReport.nodes r); unplaced := (unplaced_kept r).1;
     unplaced_omitted := (unplaced_kept r).2; capacity := ClusterReport.capacity r |}%N.

Definition are_news_to (f : t) (s : ClusterStatus.t) : bool :=
  if negb (ClusterStatus.connected s) || negb (ClusterStatus.nodes_ready s =? ready f)%N
     || negb (ClusterStatus.nodes_total s =? total f)%N || negb (ClusterStatus.vms s =? vms f)%N
     || negb (bool_decide (ClusterStatus.nodes s = nodes f)) || negb (bool_decide (ClusterStatus.unplaced s = unplaced f))
     || negb (ClusterStatus.unplaced_omitted s =? unplaced_omitted f)%N then true
  else is_some_and (fun cap =>
         negb (ClusterCapacity.vcpus (ClusterStatus.capacity s) =? ClusterCapacity.vcpus cap)%N
         || negb (ClusterCapacity.mem_mib (ClusterStatus.capacity s) =? ClusterCapacity.mem_mib cap)%N
         || negb (bool_decide (ClusterCapacity.capabilities (ClusterStatus.capacity s) = ClusterCapacity.capabilities cap)))
         (capacity f).

Definition write_onto (f : t) (s : ClusterStatus.t) : ClusterStatus.t :=
  {| ClusterStatus.connected := true; ClusterStatus.session_endpoint := ClusterStatus.session_endpoint s;
     ClusterStatus.last_heartbeat := ClusterStatus.last_heartbeat s; ClusterStatus.version := ClusterStatus.version s;
     ClusterStatus.nodes_ready := ready f; ClusterStatus.nodes_total := total f;
     ClusterStatus.capacity := unwrap_or (ClusterStatus.capacity s) (capacity f); ClusterStatus.vms := vms f;
     ClusterStatus.nodes := nodes f; ClusterStatus.unplaced := unplaced f;
     ClusterStatus.unplaced_omitted := unplaced_omitted f; ClusterStatus.draining := ClusterStatus.draining s |}.
End ClusterFacts.

(** * VMs *)

(** The line as the shared matching reads it. *)
Definition heard_line (l : CloudVmReport.t) : VmStatusReport.t :=
  {| VmStatusReport.id := CloudVmReport.id l; VmStatusReport.phase := CloudVmReport.phase l;
     VmStatusReport.message := CloudVmReport.message l; VmStatusReport.attached_volumes := CloudVmReport.attached_volumes l;
     VmStatusReport.reason := CloudVmReport.reason l;
     VmStatusReport.nics := map (fun '(n, mac) => {| NicReport.name := n; NicReport.mac := mac |}) (CloudVmReport.nics l) |}.

(** Bound to this cluster, strictly. *)
Definition bound_here (cluster : string) (v : Vm) : bool := bool_decide (VmSpec.cluster_name (spec v) = Some cluster).

Definition leaving_cluster (vms : list Vm) (cluster : string) (r : ClusterReport.t) : list Vm :=
  if negb (ClusterReport.vms_complete r) then []
  else
    List.filter (fun v : Vm => negb (existsb (fun l => String.eqb (CloudVmReport.id l) (Objects.uid (metadata v)))
                                       (ClusterReport.vms r)))
      (List.filter (fun v : Vm => negb (is_some (VmSpec.cluster_name (spec v)))
                                  && bool_decide (VmStatus.cluster_name (status v) = Some cluster)) vms).

Definition set_cluster_name (cluster : option string) (s : VmStatus.t) : VmStatus.t :=
  CloudEdit.set cluster (VmStatus.handed_down s) (VmStatus.hand_down_refused s) (VmStatus.bound_at s) s.

(** The closures of [forget_unbound], [ingest_placements] and [ingest_phases]. *)
Definition cluster_let_go (cluster : string) (at_ : instant) (v : Vm) : bool * Vm :=
  if negb (is_some (VmSpec.cluster_name (spec v))) && bool_decide (VmStatus.cluster_name (status v) = Some cluster) then
    (true,
     VmEdit.on_status
       (fun s => VmEdit.set_observed_at (Some at_)
          (VmEdit.set_reschedules (sat_add u32_max (VmStatus.reschedules s) 1) (VmEdit.set_volumes []
             (VmEdit.set_silence None
                (VmEdit.set_reported
                   (Some (said_here VmPhaseKind.Pending VmReason.Unbound
                            (Some ("cluster " +:+ cluster +:+ " let go; waiting to be placed")) at_))
                   (VmEdit.set_node_name None (set_cluster_name None s))))))) v)
  else (false, v).

Definition placement_seen (cluster : string) (l : CloudVmReport.t) (v : Vm) : bool * Vm :=
  if negb (bound_here cluster v) then (false, v)
  else
    (true,
     VmEdit.on_status
       (fun s => set_addresses (addresses_with (VmStatus.addresses s) (VmStatusReport.nics (heard_line l)))
          (VmEdit.set_volumes (CloudVmReport.volumes l) (VmEdit.set_node_name (some_text (CloudVmReport.node l)) s))) v).

Definition phase_seen (cluster : string) (phase : VmPhaseKind.t) (reason : VmReason.t) (message : option string)
    (at_ : instant) (v : Vm) : bool * Vm :=
  if negb (bound_here cluster v) then (false, v)
  else
    (true,
     VmEdit.on_status
       (fun s => VmEdit.set_observed_at (Some at_)
          (set_cluster_name (VmSpec.cluster_name (spec v))
             (VmEdit.set_silence None (VmEdit.set_reported (Some (said_by cluster phase reason message at_)) s)))) v).

(** * Pools *)

Definition pool_at_eqb (a b : PoolAtCluster.t) : bool :=
  String.eqb (PoolAtCluster.cluster a) (PoolAtCluster.cluster b)
  && bool_decide (PoolAtCluster.phase a = PoolAtCluster.phase b)
  && bool_decide (PoolAtCluster.reason a = PoolAtCluster.reason b)
  && bool_decide (PoolAtCluster.locality a = PoolAtCluster.locality b)
  && bool_decide (PoolAtCluster.nodes a = PoolAtCluster.nodes b)
  && opt_value_eqb (PoolAtCluster.params a) (PoolAtCluster.params b)
  && bool_decide (PoolAtCluster.message a = PoolAtCluster.message b).

(** [read] parses a document, or does not. *)
Definition pool_entry (read : string -> option value) (cluster : string) (r : CloudPoolReport.t) : PoolAtCluster.t :=
  let '(reason, message) := reason_read (CloudPoolReport.reason r) (some_text (CloudPoolReport.message r)) in
  {| PoolAtCluster.cluster := cluster;
     PoolAtCluster.phase := unwrap_or kind_default (kind_parse (CloudPoolReport.phase r));
     PoolAtCluster.reason := reason; PoolAtCluster.locality := Locality.parse (CloudPoolReport.locality r);
     PoolAtCluster.nodes := CloudPoolReport.nodes r;
     PoolAtCluster.params := if str_is_empty (CloudPoolReport.params_json r) then None
                             else read (CloudPoolReport.params_json r);
     PoolAtCluster.message := message |}.

Definition pool_unchanged (p : StoragePool) (home : bool) (entry : PoolAtCluster.t) (r : CloudPoolReport.t) : bool :=
  existsb (pool_at_eqb entry) (StoragePoolStatus.clusters (status p))
  && (negb home
      || (bool_decide (StoragePoolStatus.locality (status p) = PoolAtCluster.locality entry)
          && bool_decide (StoragePoolStatus.nodes (status p) = CloudPoolReport.nodes r))).

Definition is_home (cluster : string) (p : StoragePool) : bool := bool_decide (StoragePoolSpec.home (spec p) = Some cluster).

(** The two closures of [ingest_pools]: the cluster's entry, and the flat fields
    where it is the home. *)
Definition pool_seen (cluster : string) (entry : option PoolAtCluster.t) (at_ : instant) (p : StoragePool) : StoragePool :=
  let s := status p in
  if negb (StoragePoolSpec.serves (spec p) cluster) then p
  else
    let home := is_home cluster p in
    let others := List.filter (fun e => negb (String.eqb (PoolAtCluster.cluster e) cluster)) (StoragePoolStatus.clusters s) in
    with_status p
      {| StoragePoolStatus.phase := StoragePoolStatus.phase s;
         StoragePoolStatus.locality :=
           match entry with Some e => if home then PoolAtCluster.locality e else StoragePoolStatus.locality s
                          | None => StoragePoolStatus.locality s end;
         StoragePoolStatus.nodes :=
           match entry with Some e => if home then PoolAtCluster.nodes e else StoragePoolStatus.nodes s
                          | None => StoragePoolStatus.nodes s end;
         StoragePoolStatus.claims := StoragePoolStatus.claims s;
         StoragePoolStatus.clusters :=
           match entry with
           | Some e => sort_by (fun a b => String.compare (PoolAtCluster.cluster a) (PoolAtCluster.cluster b)) (others ++ [e])
           | None => others
           end;
         StoragePoolStatus.disagreement := StoragePoolStatus.disagreement s;
         StoragePoolStatus.pointer_target :=
           if home then Some {| PoolPointer.cluster := cluster; PoolPointer.reported_at := at_ |}
           else StoragePoolStatus.pointer_target s |}.

(** * Volumes and copies *)

Definition still_at (v : Volume) (cluster : string) : bool :=
  is_none_or (fun at_cluster => String.eqb at_cluster cluster) (VolumeStatus.cluster (status v)).

Definition volume_gone (v : Volume) (cluster : string) (r : ClusterReport.t) (at_ : instant) : bool :=
  is_some (deletion_timestamp (metadata v)) && ClusterReport.volumes_complete r && still_at v cluster
  && is_current (deletion_timestamp (metadata v)) (VolumeStatus.observed_at (status v)) at_.

Definition snapshot_gone (x : VolumeSnapshot) (r : ClusterReport.t) (at_ : instant) : bool :=
  is_some (deletion_timestamp (metadata x)) && ClusterReport.snapshots_complete r
  && is_current (deletion_timestamp (metadata x)) (VolumeSnapshotStatus.observed_at (status x)) at_.

Definition volume_word (cluster : string) (l : CloudVolumeReport.t) (phase : VolumePhaseKind.t) (at_ : instant)
    : VolumeReported :=
  let '(reason, message) := reason_read (CloudVolumeReport.reason l) (some_text (CloudVolumeReport.message l)) in
  said_by cluster phase reason message at_.

(** The instant of a word is not compared. *)
Definition cloud_volume_unchanged (v : Volume) (cluster : string) (l : CloudVolumeReport.t) (phase : VolumePhaseKind.t) : bool :=
  let s := status v in
  is_some (VolumeStatus.observed_at s)
  && is_some_and (fun held => same_word held (volume_word cluster l phase 0%Z)) (VolumeStatus.reported s)
  && bool_decide (VolumeStatus.node s = some_text (CloudVolumeReport.node l))
  && bool_decide (VolumeStatus.attached_to s = some_text (CloudVolumeReport.attached_to l))
  && (VolumeStatus.size_gib s =? CloudVolumeReport.size_gib l)%N
  && bool_decide (VolumeStatus.open_on s = CloudVolumeReport.open_on l)
  && (str_is_empty (CloudVolumeReport.backend l) || String.eqb (VolumeStatus.backend s) (CloudVolumeReport.backend l)).

Definition write_volume_status (cluster : string) (l : CloudVolumeReport.t) (phase : VolumePhaseKind.t) (at_ : instant)
    (v : Volume) : Volume :=
  let s := status v in
  with_status v
    {| VolumeStatus.phase := VolumeStatus.phase s; VolumeStatus.reported := Some (volume_word cluster l phase at_);
       VolumeStatus.holder := VolumeStatus.holder s; VolumeStatus.claimant_gone := VolumeStatus.claimant_gone s;
       VolumeStatus.backend := if str_is_empty (CloudVolumeReport.backend l) then VolumeStatus.backend s
                               else CloudVolumeReport.backend l;
       VolumeStatus.node := some_text (CloudVolumeReport.node l); VolumeStatus.open_on := CloudVolumeReport.open_on l;
       VolumeStatus.cluster := VolumeStatus.cluster s;
       VolumeStatus.attached_to := some_text (CloudVolumeReport.attached_to l);
       VolumeStatus.attached_uid := VolumeStatus.attached_uid s; VolumeStatus.size_gib := CloudVolumeReport.size_gib l;
       VolumeStatus.untold_gib := VolumeStatus.untold_gib s;
       VolumeStatus.observed_generation := VolumeStatus.observed_generation s;
       VolumeStatus.observed_at := Some at_; VolumeStatus.requeue_attempts := VolumeStatus.requeue_attempts s;
       VolumeStatus.last_requeue := VolumeStatus.last_requeue s |}.

Definition volume_seen (cluster : string) (l : CloudVolumeReport.t) (phase : VolumePhaseKind.t) (at_ : instant)
    (v : Volume) : Volume := if still_at v cluster then write_volume_status cluster l phase at_ v else v.

Definition snapshot_word (cluster : string) (l : CloudSnapshotReport.t) (phase : VolumeSnapshotPhaseKind.t) (at_ : instant)
    : SnapshotReported :=
  let '(reason, message) := reason_read (CloudSnapshotReport.reason l) (some_text (CloudSnapshotReport.message l)) in
  said_by cluster phase reason message at_.

Definition cloud_snapshot_unchanged (x : VolumeSnapshot) (cluster : string) (l : CloudSnapshotReport.t)
    (phase : VolumeSnapshotPhaseKind.t) : bool :=
  let s := status x in
  is_some (VolumeSnapshotStatus.observed_at s)
  && is_some_and (fun held => same_word held (snapshot_word cluster l phase 0%Z)) (VolumeSnapshotStatus.reported s)
  && bool_decide (VolumeSnapshotStatus.node s = some_text (CloudSnapshotReport.node l))
  && (VolumeSnapshotStatus.size_gib s =? CloudSnapshotReport.size_gib l)%N
  && (str_is_empty (CloudSnapshotReport.backend l)
      || String.eqb (VolumeSnapshotStatus.backend s) (CloudSnapshotReport.backend l)).

Definition write_snapshot_status (cluster : string) (l : CloudSnapshotReport.t) (phase : VolumeSnapshotPhaseKind.t)
    (at_ : instant) (x : VolumeSnapshot) : VolumeSnapshot :=
  copy_observed x (snapshot_word cluster l phase at_) (some_text (CloudSnapshotReport.node l))
    (if str_is_empty (CloudSnapshotReport.backend l) then VolumeSnapshotStatus.backend (status x)
     else CloudSnapshotReport.backend l) (CloudSnapshotReport.size_gib l) at_.

(** * Routers *)

(** The closure of [ingest_routers]. *)
Definition router_seen (cluster : string) (l : CloudRouterReport.t) (said : RouterReported) (r : Router) : bool * Router :=
  let s := status r in
  if negb (String.eqb (RouterStatus.cluster s) cluster) then (false, r)
  else
    (true, with_status r (RouterStatus.mk (RouterStatus.phase s) (Some said) (RouterStatus.external_addr s)
       (RouterStatus.cluster s) (CloudRouterReport.nodes l) (CloudRouterReport.node l) (RouterStatus.nats s)
       (RouterStatus.refused s) (RouterStatus.releasing s) (RouterStatus.announced s)
       (RouterStatus.observed_generation s))).

(** * Ingest *)

Section ingest.
Context {D Bytes : Type} `{!Etcd D Bytes, !RawJson Bytes}.
Context `{!Serde Bytes VmSpec.t VmStatus.t, !Resource VmSpec.t VmStatus.t, !Serde Bytes ClusterSpec.t ClusterStatus.t,
  !Serde Bytes VolumeSpec.t VolumeStatus.t, !Serde Bytes StoragePoolSpec.t StoragePoolStatus.t,
  !Serde Bytes VolumeSnapshotSpec.t VolumeSnapshotStatus.t, !Serde Bytes ImageSpec.t ImageStatus.t,
  !Serde Bytes RouterSpec.t RouterStatus.t, !Serde Bytes EventSpec.t unit}.
Variable prefix : string.
Variable sur : surroundings D.
(** The document of a heartbeat, the lease of an event, fresh identifiers, and the
    parsing of a pool's parameters. *)
Variable lease_bytes : instant -> Bytes.
Variable new_lease : Z -> nat -> Z.
Variable new_uid : nat -> string.
Variable read_params : string -> option value.

(** A guarded write whose closure says whether it applied; what fails is logged. *)
Definition applied_to {Sp St} `{!Resource Sp St, !Serde Bytes Sp St} (nm uid : string)
    (f : Object Sp St -> bool * Object Sp St) : cloud_m D bool :=
  r ← c_try (mutate_if_with prefix sur nm uid (fun _ o => f o) false);
  mret (match r with Ok (applied, _) => applied | Err _ => false end).

Definition beat_key (cluster : string) (at_ : instant) : store_m D unit :=
  timed sur "lease_put" (fun s =>
    (etcd_put s (lease_key prefix (RESOURCE (Sp := ClusterSpec.t) (St := ClusterStatus.t)) cluster) (lease_bytes at_), tt)).

Definition beat_cluster (cluster : string) (at_ : instant) : cloud_m D unit :=
  _ ← c_st (beat_key cluster at_);
  current ← c_st (get (Sp := ClusterSpec.t) (St := ClusterStatus.t) prefix sur cluster);
  if ClusterStatus.connected (status current) then mret tt
  else _ ← c_st (mutate (Sp := ClusterSpec.t) (St := ClusterStatus.t) prefix sur cluster (CloudPlace.set_connected true)); mret tt.

Definition ingest_cluster_facts (cluster : string) (r : ClusterReport.t) (at_ : instant) : cloud_m D unit :=
  let facts := ClusterFacts.of_ r in
  _ ← c_st (beat_key cluster at_);
  current ← c_st (get (Sp := ClusterSpec.t) (St := ClusterStatus.t) prefix sur cluster);
  if negb (ClusterFacts.are_news_to facts (status current)) then mret tt
  else
    _ ← c_st (mutate (Sp := ClusterSpec.t) (St := ClusterStatus.t) prefix sur cluster
          (fun c => with_status c (ClusterFacts.write_onto facts (status c))));
    mret tt.

(** ** Images and pools *)

Fixpoint ingest_each_image (cluster : string) (r : ClusterReport.t) (images : list Image) : cloud_m D unit :=
  match images with
  | [] => mret tt
  | i :: images =>
      let nm := name (metadata i) in
      let complete := map CloudNodeReport.name (List.filter CloudNodeReport.images_complete (ClusterReport.nodes r)) in
      let mine := lines_of cluster nm (by_image (ClusterReport.images r) nm) (absence_witnesses (spec i) complete) in
      _ ← (if bool_decide (ImageStatus.nodes (status i) = merged_lines i cluster mine) then mret tt
           else _ ← c_try (mutate_if (Sp := ImageSpec.t) (St := ImageStatus.t) prefix sur nm (Objects.uid (metadata i))
                             (image_observed cluster mine));
                mret tt);
      ingest_each_image cluster r images
  end.

Definition ingest_images (cluster : string) (r : ClusterReport.t) : cloud_m D unit :=
  l ← c_try (list_ (Sp := ImageSpec.t) (St := ImageStatus.t) prefix sur);
  match l with
  | Err _ => mret tt
  | Ok images => ingest_each_image cluster r images
  end.

Definition ingest_pool (cluster : string) (r : ClusterReport.t) (p : StoragePool) : cloud_m D unit :=
  if negb (StoragePoolSpec.serves (spec p) cluster) then mret tt
  else
    let home := is_home cluster p in
    let spoke := home && negb (bool_decide (option_map PoolPointer.cluster (StoragePoolStatus.pointer_target (status p))
                                            = Some cluster)) in
    let write entry :=
      (at_ ← c_st (now sur);
       _ ← c_try (mutate_if (Sp := StoragePoolSpec.t) (St := StoragePoolStatus.t) prefix sur (name (metadata p))
                    (Objects.uid (metadata p)) (pool_seen cluster entry at_));
       mret tt) : cloud_m D unit in
    match List.find (fun l => String.eqb (CloudPoolReport.name l) (name (metadata p))) (ClusterReport.pools r) with
    | None =>
        if spoke || existsb (fun e => String.eqb (PoolAtCluster.cluster e) cluster) (StoragePoolStatus.clusters (status p))
        then write None else mret tt
    | Some l =>
        let entry := pool_entry read_params cluster l in
        if negb spoke && pool_unchanged p home entry l then mret tt else write (Some entry)
    end.

Fixpoint ingest_each_pool (cluster : string) (r : ClusterReport.t) (pools : list StoragePool) : cloud_m D unit :=
  match pools with
  | [] => mret tt
  | p :: pools => _ ← ingest_pool cluster r p; ingest_each_pool cluster r pools
  end.

Definition ingest_pools (cluster : string) (r : ClusterReport.t) : cloud_m D unit :=
  pools ← c_st (list_ (Sp := StoragePoolSpec.t) (St := StoragePoolStatus.t) prefix sur);
  ingest_each_pool cluster r pools.

(** ** Volumes and copies *)

Definition pool_homes : cloud_m D (smap string) :=
  pools ← c_st (list_ (Sp := StoragePoolSpec.t) (St := StoragePoolStatus.t) prefix sur);
  mret (collect (filter_map (fun p : StoragePool =>
    option_map (fun home => (name (metadata p), home)) (StoragePoolSpec.home (spec p))) pools)).

(** Where the record of a volume is. *)
Definition record_at (serves : smap string) (v : Volume) : option string :=
  option_or (VolumeStatus.cluster (status v)) (sget (VolumeSpec.pool (spec v)) serves).

Definition volumes_of (cluster : string) : cloud_m D (list Volume) :=
  serves ← pool_homes;
  volumes ← c_st (list_ (Sp := VolumeSpec.t) (St := VolumeStatus.t) prefix sur);
  mret (List.filter (fun v => bool_decide (record_at serves v = Some cluster)) volumes).

Definition snapshots_of (cluster : string) : cloud_m D (list VolumeSnapshot) :=
  serves ← pool_homes;
  volumes ← c_st (list_ (Sp := VolumeSpec.t) (St := VolumeStatus.t) prefix sur);
  let homes := collect (filter_map (fun v : Volume =>
                 option_map (fun at_ => (name (metadata v), at_)) (record_at serves v)) volumes) in
  copies ← c_st (list_ (Sp := VolumeSnapshotSpec.t) (St := VolumeSnapshotStatus.t) prefix sur);
  mret (List.filter (fun x : VolumeSnapshot => bool_decide (sget (VolumeSnapshotSpec.volume (spec x)) homes = Some cluster)) copies).

Definition ingest_volume (cluster : string) (r : ClusterReport.t) (at_ : instant) (v : Volume) : cloud_m D unit :=
  match List.find (fun l => String.eqb (CloudVolumeReport.uid l) (Objects.uid (metadata v))) (ClusterReport.volumes r) with
  | None => _ ← c_st (finish_delete prefix sur v (fun v => volume_gone v cluster r at_)); mret tt
  | Some l =>
      match kind_parse (CloudVolumeReport.phase l) with
      | None => mret tt
      | Some phase =>
          if cloud_volume_unchanged v cluster l phase then mret tt
          else _ ← c_try (mutate_if prefix sur (name (metadata v)) (Objects.uid (metadata v)) (volume_seen cluster l phase at_));
               mret tt
      end
  end.

Fixpoint ingest_each_volume (cluster : string) (r : ClusterReport.t) (at_ : instant) (l : list Volume) : cloud_m D unit :=
  match l with
  | [] => mret tt
  | v :: l => _ ← ingest_volume cluster r at_ v; ingest_each_volume cluster r at_ l
  end.

Definition ingest_volumes (cluster : string) (r : ClusterReport.t) (at_ : instant) : cloud_m D unit :=
  mine ← volumes_of cluster; ingest_each_volume cluster r at_ mine.

Definition ingest_snapshot (cluster : string) (r : ClusterReport.t) (at_ : instant) (x : VolumeSnapshot) : cloud_m D unit :=
  let same y := String.eqb (VolumeSnapshotSpec.volume (spec (y : VolumeSnapshot))) (VolumeSnapshotSpec.volume (spec x)) in
  match List.find (fun l => String.eqb (CloudSnapshotReport.uid l) (Objects.uid (metadata x))) (ClusterReport.snapshots r) with
  | None => _ ← c_st (finish_delete prefix sur x (fun y => same y && snapshot_gone y r at_)); mret tt
  | Some l =>
      match kind_parse (CloudSnapshotReport.phase l) with
      | None => mret tt
      | Some phase =>
          if cloud_snapshot_unchanged x cluster l phase then mret tt
          else _ ← c_try (mutate_if prefix sur (name (metadata x)) (Objects.uid (metadata x))
                     (fun y => if same y then write_snapshot_status cluster l phase at_ y else y));
               mret tt
      end
  end.

Fixpoint ingest_each_snapshot (cluster : string) (r : ClusterReport.t) (at_ : instant) (l : list VolumeSnapshot)
    : cloud_m D unit :=
  match l with
  | [] => mret tt
  | x :: l => _ ← ingest_snapshot cluster r at_ x; ingest_each_snapshot cluster r at_ l
  end.

Definition ingest_snapshots (cluster : string) (r : ClusterReport.t) (at_ : instant) : cloud_m D unit :=
  mine ← snapshots_of cluster; ingest_each_snapshot cluster r at_ mine.

Definition ingest_inventory (cluster : string) (r : ClusterReport.t) (at_ : instant) : cloud_m D unit :=
  _ ← ingest_images cluster r;
  _ ← c_attempt (ingest_pools cluster r);
  _ ← c_attempt (ingest_snapshots cluster r at_);
  _ ← c_attempt (ingest_volumes cluster r at_);
  mret tt.

(** ** Routers *)

Definition ingest_router (cluster : string) (known : list Router) (l : CloudRouterReport.t) : cloud_m D unit :=
  match List.find (fun r : Router => String.eqb (Objects.uid (metadata r)) (CloudRouterReport.id l)) known with
  | None => mret tt
  | Some r =>
      let s := status r in
      if negb (String.eqb (RouterStatus.cluster s) cluster) then mret tt
      else match kind_parse (CloudRouterReport.phase l) with
           | None => mret tt
           | Some phase =>
               let '(reason, message) := reason_read (CloudRouterReport.reason l) (some_text (CloudRouterReport.message l)) in
               at_ ← c_st (now sur);
               let said := said_by cluster phase reason message at_ in
               if is_some_and (fun held => same_word held said) (RouterStatus.reported s)
                  && String.eqb (RouterStatus.active_node s) (CloudRouterReport.node l)
                  && bool_decide (RouterStatus.nodes s = CloudRouterReport.nodes l) then mret tt
               else
                 applied ← applied_to (name (metadata r)) (Objects.uid (metadata r)) (router_seen cluster l said);
                 if negb applied then mret tt
                 else if bool_decide (ph_kind (RouterStatus.phase s) = phase)
                         && String.eqb (RouterStatus.active_node s) (CloudRouterReport.node l) then mret tt
                 else
                   c_event prefix sur new_lease new_uid "Router" (name (metadata r)) (Objects.uid (metadata r)) "PhaseChanged"
                     (match message with
                      | Some said => RouterPhaseKind.as_str phase +:+ " (" +:+ said +:+ ")"
                      | None => if str_is_empty (CloudRouterReport.node l) then RouterPhaseKind.as_str phase
                                else RouterPhaseKind.as_str phase +:+ " on " +:+ CloudRouterReport.node l
                      end)
                     (if bool_decide (phase = RouterPhaseKind.Failed) then EventType.Warning else EventType.Normal)
                     (Some (RouterSpec.tenant (spec r)))
           end
  end.

Fixpoint ingest_each_router (cluster : string) (known : list Router) (lines : list CloudRouterReport.t) : cloud_m D unit :=
  match lines with
  | [] => mret tt
  | l :: lines => _ ← ingest_router cluster known l; ingest_each_router cluster known lines
  end.

Definition ingest_routers (cluster : string) (r : ClusterReport.t) : cloud_m D unit :=
  if is_nil (ClusterReport.routers r) then mret tt
  else
    l ← c_try (list_ (Sp := RouterSpec.t) (St := RouterStatus.t) prefix sur);
    match l with
    | Err _ => mret tt
    | Ok known => ingest_each_router cluster known (ClusterReport.routers r)
    end.

(** ** VMs *)

Fixpoint forget_each_unbound (cluster : string) (at_ : instant) (vms : list Vm) : cloud_m D unit :=
  match vms with
  | [] => mret tt
  | v :: vms =>
      _ ← applied_to (name (metadata v)) (Objects.uid (metadata v)) (cluster_let_go cluster at_);
      forget_each_unbound cluster at_ vms
  end.

Definition forget_unbound (known : list Vm) (cluster : string) (r : ClusterReport.t) (at_ : instant) : cloud_m D unit :=
  forget_each_unbound cluster at_ (leaving_cluster known cluster r).

Definition ingest_placement (cluster : string) (known : list Vm) (l : CloudVmReport.t) : cloud_m D unit :=
  match List.find (fun v : Vm => String.eqb (Objects.uid (metadata v)) (CloudVmReport.id l)) known with
  | None => mret tt
  | Some v =>
      let s := status v in
      if negb (bound_here cluster v)
         || (bool_decide (VmStatus.node_name s = some_text (CloudVmReport.node l))
             && bool_decide (VmStatus.volumes s = CloudVmReport.volumes l)
             && bool_decide (VmStatus.addresses s = addresses_with (VmStatus.addresses s) (VmStatusReport.nics (heard_line l))))
      then mret tt
      else _ ← applied_to (name (metadata v)) (CloudVmReport.id l) (placement_seen cluster l); mret tt
  end.

Fixpoint ingest_placements (cluster : string) (known : list Vm) (lines : list CloudVmReport.t) : cloud_m D unit :=
  match lines with
  | [] => mret tt
  | l :: lines => _ ← ingest_placement cluster known l; ingest_placements cluster known lines
  end.

Definition note_phase (v : Vm) (uid : string) (phase : VmPhaseKind.t) (message : option string) : cloud_m D unit :=
  c_event prefix sur new_lease new_uid "Vm" (name (metadata v)) uid "PhaseChanged"
    (match message with
     | Some said => VmPhaseKind.as_str phase +:+ " (" +:+ said +:+ ")"
     | None => VmPhaseKind.as_str phase
     end)
    (match phase with VmPhaseKind.Failed | VmPhaseKind.Quarantined => EventType.Warning | _ => EventType.Normal end)
    (VmSpec.tenant (spec v)).

Definition ingest_phase (cluster : string) (known : list Vm) (at_ : instant) (l : CloudVmReport.t) : cloud_m D unit :=
  match observe known (bound_here cluster) (heard_line l) with
  | Some (Observation.Changed v phase reason message) =>
      applied ← applied_to (name (metadata v)) (CloudVmReport.id l) (phase_seen cluster phase reason message at_);
      if applied : bool then note_phase v (CloudVmReport.id l) phase message else mret tt
  | _ => mret tt
  end.

Fixpoint ingest_phases (cluster : string) (known : list Vm) (at_ : instant) (lines : list CloudVmReport.t) : cloud_m D unit :=
  match lines with
  | [] => mret tt
  | l :: lines => _ ← ingest_phase cluster known at_ l; ingest_phases cluster known at_ lines
  end.

Definition ingest_status (cluster : string) (r : ClusterReport.t) (at_ : instant) (speaker : bool) : cloud_m D unit :=
  if negb speaker then beat_cluster cluster at_
  else
    _ ← ingest_cluster_facts cluster r at_;
    _ ← ingest_inventory cluster r at_;
    known ← c_st (list_ (Sp := VmSpec.t) (St := VmStatus.t) prefix sur);
    _ ← forget_unbound known cluster r at_;
    _ ← ingest_routers cluster r;
    if is_nil (ClusterReport.vms r) then mret tt
    else
      _ ← ingest_placements cluster known (ClusterReport.vms r);
      ingest_phases cluster known at_ (ClusterReport.vms r).
End ingest.

(** * Letting go *)

Lemma in_leaving_cluster vms cluster r v :
  In v (leaving_cluster vms cluster r)
  <-> In v vms /\ ClusterReport.vms_complete r = true /\ VmSpec.cluster_name (spec v) = None
      /\ VmStatus.cluster_name (status v) = Some cluster
      /\ forall l, In l (ClusterReport.vms r) -> CloudVmReport.id l <> Objects.uid (metadata v).
Proof.
  unfold leaving_cluster. destruct (ClusterReport.vms_complete r); simpl; [|naive_solver].
  rewrite !filter_In, andb_true_iff, !negb_true_iff, bool_decide_eq_true.
  assert (He : existsb (fun l => String.eqb (CloudVmReport.id l) (Objects.uid (metadata v))) (ClusterReport.vms r) = false
    <-> forall l, In l (ClusterReport.vms r) -> CloudVmReport.id l <> Objects.uid (metadata v)).
  { rewrite <- not_true_iff_false, existsb_exists. split.
    - intros Hn l Hl Heq. apply Hn. exists l. by rewrite Heq, String.eqb_refl.
    - intros Hn (l & Hl & Heq%String.eqb_eq). by destruct (Hn l). }
  rewrite He. destruct (VmSpec.cluster_name (spec v)); simpl; naive_solver.
Qed.

Section let_go.
Context {D Bytes : Type} `{!Etcd D Bytes, !EtcdLaws D Bytes, !RawJson Bytes}.
Context `{!Serde Bytes VmSpec.t VmStatus.t, !SerdeLaws Bytes VmSpec.t VmStatus.t}.
Context (prefix : string) (sur : surroundings D) (to_rfc3339 : instant -> string).
#[local] Instance heard_vms : Resource VmSpec.t VmStatus.t := vm_resource to_rfc3339.
#[local] Instance heard_vms_settle : SettleLaws VmSpec.t VmStatus.t.
Proof using. by constructor. Qed.

(** C25. A cluster is taken off a VM by its silence about it only on evidence.  When
    the let-go of a VM lands, the report claimed to be complete and named no VM of
    that uid; the object the write replaced, as the database held it at that moment,
    was still that VM, bound to no cluster and recorded at the reporting one; and what
    the write left is the same VM with the same spec, at no cluster and on no node,
    holding no disk, Pending, with one more reschedule. *)
Theorem cluster_let_go_exact known cluster r at_ v (c c' : cloud D) :
  fair (Sp := VmSpec.t) (St := VmStatus.t) prefix sur ->
  filed (Sp := VmSpec.t) (St := VmStatus.t) prefix (db (c_store c)) ->
  In v (leaving_cluster known cluster r) ->
  applied_to prefix sur (name (metadata v)) (Objects.uid (metadata v)) (cluster_let_go cluster at_) c = (c', Ok true) ->
  ClusterReport.vms_complete r = true
  /\ (forall l, In l (ClusterReport.vms r) -> CloudVmReport.id l <> Objects.uid (metadata v))
  /\ exists s x v',
       read_from prefix s (name (metadata v)) x /\ Objects.uid (metadata x) = Objects.uid (metadata v)
       /\ VmSpec.cluster_name (spec x) = None /\ VmStatus.cluster_name (status x) = Some cluster
       /\ read_from prefix (db (c_store c')) (name (metadata v)) v'
       /\ Objects.uid (metadata v') = Objects.uid (metadata v) /\ spec v' = spec x
       /\ VmStatus.cluster_name (status v') = None /\ VmStatus.node_name (status v') = None
       /\ VmStatus.volumes (status v') = []
       /\ VmStatus.reschedules (status v') = sat_add u32_max (VmStatus.reschedules (status x)) 1
       /\ (VmSpec.node_name (spec x) = None -> vm_kind v' = VmPhaseKind.Pending).
Proof using EtcdLaws0 SerdeLaws0.
  intros Hfair Hfiled (_ & Hc & _ & _ & Hn)%in_leaving_cluster H. split_and!; [done..|].
  unfold applied_to in H. apply cloud_bind_run in H as (c1 & [m|e] & Ht & Hk); [|by destruct Hk].
  unfold c_try in Ht. destruct (mutate_if_with _ _ _ _ _ _ _) as [w1 q] eqn:Em. injection Ht as <- <-.
  destruct q as [[applied v']|e]; [|done]. injection Hk as <- ->.
  apply mutate_loop_ok in Em as (s & x & kv & b & t & c2 & Hl & Hx & Had & Hb & Hr & [_ Hw] & Hd); [|done| |done].
  2:{ intros c3 o. unfold cluster_let_go. by destruct (negb _ && _). }
  unfold expects_uid in Had.
  destruct (String.eqb_spec (Objects.uid (metadata x)) (Objects.uid (metadata v))) as [Hu|]; [|done].
  unfold cluster_let_go in Hb, Hr. destruct (negb _ && _) eqn:E; [|done].
  apply andb_true_iff in E as [E1 E2%bool_decide_eq_true]. simpl in Hb, Hd.
  pose proof (encode_name _ _ _ _ _ Hb Hd) as Hv'. exists s, x, v'.
  assert (Hnone : VmSpec.cluster_name (spec x) = None) by (by destruct (VmSpec.cluster_name (spec x))).
  split; [by exists kv|]. do 3 (split; [done|]). split.
  { eexists. split; [by rewrite Hw; simpl; rewrite String.eqb_refl, Hl|]. done. }
  rewrite Hv'. split; [exact Hu|]. split_and!; [done..|].
  intros H1. apply unclaimed_pending; [done|]. unfold claimed. simpl. by rewrite Hnone, H1.
Qed.
End let_go.

Import Tier.

(** v1 left east, and east's complete report no longer names it. *)
Definition left_east : Vm := VmEdit.on_status (set_cluster_name (Some "east")) (guest None).

Definition silent_report : ClusterReport.t :=
  {| ClusterReport.nodes_ready := 0; ClusterReport.nodes_total := 0; ClusterReport.capacity := None;
     ClusterReport.vms := []; ClusterReport.vms_complete := true; ClusterReport.volumes := [];
     ClusterReport.volumes_complete := true; ClusterReport.snapshots := []; ClusterReport.snapshots_complete := true;
     ClusterReport.secrets := []; ClusterReport.pools := []; ClusterReport.nodes := []; ClusterReport.unplaced := [];
     ClusterReport.unplaced_omitted := 0; ClusterReport.routers := []; ClusterReport.routers_complete := true;
     ClusterReport.images := [] |}%N.

Definition let_go_of_v1 : cloud (mem bytes) * result Failure.t bool :=
  applied_to "p" quiet "v1" "v1" (cluster_let_go "east" 5%Z) (start (store [("vms/v1", KeptVm left_east)])).

Lemma cluster_let_go_exact_witness :
  exists v', read_from (Sp := VmSpec.t) (St := VmStatus.t) "p" (db (c_store let_go_of_v1.1)) "v1" v'
    /\ VmStatus.cluster_name (status v') = None /\ vm_kind v' = VmPhaseKind.Pending.
Proof.
  assert (Hok : let_go_of_v1.2 = Ok true) by (by vm_compute).
  destruct (cluster_let_go_exact (D := mem bytes) "p" quiet (fun _ => "") [left_east] "east" silent_report 5%Z left_east
    (start (store [("vms/v1", KeptVm left_east)])) let_go_of_v1.1)
    as (_ & _ & s & x & v' & Hx & Hu & _ & _ & Hr & _ & Hs & Hc & _ & _ & _ & Hp).
  - apply quiet_fair.
  - apply mem_filed. by vm_compute.
  - by left.
  - rewrite <- Hok. apply surjective_pairing.
  - exists v'. split_and!; [exact Hr|exact Hc|]. apply Hp. rewrite <- Hs.
    destruct Hr as (kv & Hl & Hd). vm_compute in Hl. injection Hl as <-. vm_compute in Hd. by injection Hd as <-.
Defined.
