(* ===== verification/CloudRuns.v ===== *)
(** The cloud and a cluster together: what a complete report of a cluster is worth, and
    runs of both tiers in which an object is lost between them. *)
From Stdlib Require Import Ascii String NArith ZArith List Bool Lia.
From stdpp Require Import base list strings gmap relations.
From S2P Require Import Prelude RustStr Json Net Capability Heartbeat Nics Vm Node Storage Sizing Placement Diagnosis.
From S2P Require Import Reservation Claims Commit Floating Quota AddressSpace Gateways Lifecycle Dispatch Namespaces SpecDocs.
From S2P Require Import Rooms Images CloudPlace MigrationRules ClusterMigration Deletion PlacePass VmPass VolumePass.
From S2P Require Import CloudPass CloudSafety CloudLink CloudAck CloudIngest.
From S2P Require Import Phase Objects Store StoreSafety Growth.

(** * Complete reports *)

Lemma filter_map_whole {A B} (f : A -> option B) l : length (filter_map f l) <= length l.
Proof. induction l as [|x l IH]; simpl; [lia|]. destruct (f x); simpl; lia. Qed.

Lemma filter_map_all {A B} (f : A -> option B) l x :
  length l <= length (filter_map f l) -> In x l -> exists b, f x = Some b.
Proof.
  induction l as [|y l IH]; simpl; [done|]. intros Hl Hx. pose proof (filter_map_whole f l).
  destruct (f y) as [b|] eqn:E; simpl in Hl; [|lia]. destruct Hx as [->|Hx]; [by exists b|]. apply IH; [lia|done].
Qed.

(** Drift after drift. *)
Ltac chain := first [eassumption | etrans; [eassumption|chain]].

Section reports.
Context {D Bytes : Type} `{!Etcd D Bytes, !EtcdLaws D Bytes, !RawJson Bytes}.
Context (prefix : string) (sur : surroundings D).

(** Others create and change, and remove nothing. *)
Definition none_removed : Prop := forall n s k, is_some (look s k) = true -> is_some (look (env sur n s) k) = true.

Lemma range_longer (s s' : D) dir :
  (forall k, is_some (look s k) = true -> is_some (look s' k) = true) -> length (range s dir) <= length (range s' dir).
Proof using EtcdLaws0.
  intros Hk. rewrite <- (length_map fst (range s dir)), <- (length_map fst (range s' dir)).
  apply NoDup_incl_length; [apply NoDup_ListNoDup, range_nodup|].
  intros k ([k' kv] & <- & Hin)%in_map_iff. apply range_spec in Hin as [Hd Hl]. specialize (Hk k'). rewrite Hl in Hk.
  destruct (look s' k') as [kv'|] eqn:E; [|by specialize (Hk eq_refl)].
  apply in_map_iff. exists (k', kv'). split; [done|]. by apply range_spec.
Qed.

Section kind.
Context {Sp St : Type} `{!Resource Sp St, !Serde Bytes Sp St}.
Abbreviation dir := (dir_of (Sp := Sp) (St := St) prefix).

(** Everything of the kind decodes, and what is the cloud's is named by its uid. *)
Definition all_named {R} (id : R -> string) (s : D) (lines : list R) : Prop :=
  forall k kv, starts_with dir k = true -> look s k = Some kv ->
    exists o : Object Sp St, decode (kv_value kv) (mod_revision kv) = Ok o
      /\ (managed_by_cloud (metadata o) = true -> exists l, In l lines /\ cloud_uid (metadata o) = Some (id l)).

(** At a moment between the two. *)
Definition once_named {R} (id : R -> string) (a b : D) (lines : list R) : Prop :=
  exists s, drift sur a s /\ drift sur s b /\ all_named id s lines.

Lemma report_names {R} (line : string -> Object Sp St -> R) (id : R -> string) l whole lines complete s :
  (forall uid o, id (line uid o) = uid) ->
  report_cloud line l whole = (lines, complete) -> complete = true ->
  (whole = true -> forall k kv, In (k, kv) (range s dir) ->
    exists o, decode (kv_value kv) (mod_revision kv) = Ok o /\ In o l) ->
  all_named id s lines.
Proof using EtcdLaws0.
  intros Hid Hr -> Hw k kv Hd Hl. unfold report_cloud in Hr. injection Hr as <- Hc.
  apply andb_true_iff in Hc as [Hwh Hc]. rewrite forallb_forall in Hc.
  destruct (Hw Hwh k kv) as (o & Ho & Hin); [by apply range_spec|]. exists o. split; [done|]. intros Hm.
  assert (Hf : In o (List.filter (fun o => managed_by_cloud (metadata o)) l)) by (by apply filter_In).
  specialize (Hc o Hf). destruct (cloud_uid (metadata o)) as [uid|] eqn:Eu; [|done].
  exists (line uid o). rewrite Hid. split; [|done]. apply in_filter_map. exists o. by rewrite Eu.
Qed.

Lemma listed_drift (w w' : world D) (l : list (Object Sp St)) :
  list_ prefix sur w = (w', Ok l) -> db w' = before sur w /\ l = decode_range (range (before sur w) dir).
Proof using EtcdLaws0.
  unfold list_. intros (w1 & [x n] & H & Hk)%bind_ok. apply list_counted_ok in H as [-> ->].
  by injection Hk as <- <-.
Qed.

Lemma listed_whole_ok (w w' : world D) l whole :
  none_removed -> listed_whole (Sp := Sp) (St := St) prefix sur w = (w', Ok (l, whole)) ->
  exists s, drift sur (db w) s /\ drift sur s (db w')
    /\ (whole = true -> forall k kv, In (k, kv) (range s dir) ->
          exists o, decode (kv_value kv) (mod_revision kv) = Ok o /\ In o l).
Proof using EtcdLaws0.
  intros Hn. unfold listed_whole. intros (w1 & x & H1 & H)%bind_ok. apply listed_drift in H1 as [Hw1 ->].
  apply bind_ok in H as (w2 & n & H2 & H). unfold count, read in H2. apply timed_ok in H2 as [-> ->].
  injection H as <- <- <-. exists (before sur w). simpl.
  split_and!; [apply drift_before|rewrite <- Hw1; apply drift_before|]. intros He k kv Hin.
  apply Nat.eqb_eq in He.
  pose proof (range_longer (before sur w) (env sur (ticks w1) (db w1)) dir) as Hlen.
  destruct (filter_map_all (fun '(_, kv) => result_ok (decode (Sp := Sp) (St := St) (kv_value kv) (mod_revision kv)))
    (range (before sur w) dir) (k, kv)) as [o Ho]; [|done|].
  { unfold decode_range in He. rewrite He. apply Hlen. intros k0. rewrite Hw1. apply Hn. }
  exists o. split; [destruct (decode _ _); [by injection Ho as ->|done]|]. apply in_filter_map. by exists (k, kv).
Qed.
End kind.

Lemma drift_list {Sp St} `{!Resource Sp St, !Serde Bytes Sp St} (w w' : world D) (l : list (Object Sp St)) :
  list_ prefix sur w = (w', Ok l) -> drift sur (db w) (db w').
Proof using EtcdLaws0. intros [-> _]%listed_drift. apply drift_before. Qed.

Lemma counted_names {Sp St R} `{!Resource Sp St, !Serde Bytes Sp St} (line : string -> Object Sp St -> R) (id : R -> string)
    (w w1 : world D) a b lw lines complete :
  none_removed -> (forall uid o, id (line uid o) = uid) ->
  listed_whole (Sp := Sp) (St := St) prefix sur w = (w1, Ok lw) -> drift sur a (db w) -> drift sur (db w1) b ->
  report_cloud line lw.1 lw.2 = (lines, complete) -> complete = true ->
  once_named (Sp := Sp) (St := St) id a b lines.
Proof using EtcdLaws0.
  intros Hn Hid Hl Ha Hb Hr Hc. destruct lw as [l whole]. apply listed_whole_ok in Hl as (s & H1 & H2 & Hw); [|done].
  exists s. split_and!; [by etrans|by etrans|]. by eapply report_names.
Qed.

Lemma drift_counted {Sp St} `{!Resource Sp St, !Serde Bytes Sp St} (w w' : world D) lw :
  none_removed -> listed_whole (Sp := Sp) (St := St) prefix sur w = (w', Ok lw) -> drift sur (db w) (db w').
Proof using EtcdLaws0.
  intros Hn H. destruct lw as [l whole]. apply listed_whole_ok in H as (s & H1 & H2 & _); [|done]. by etrans.
Qed.

Context `{!Serde Bytes NodeSpec.t NodeStatus.t, !Serde Bytes VmSpec.t VmStatus.t, !Resource VmSpec.t VmStatus.t,
  !Serde Bytes VolumeSpec.t VolumeStatus.t, !Serde Bytes VolumeSnapshotSpec.t VolumeSnapshotStatus.t,
  !Serde Bytes SecretSpec.t unit, !Serde Bytes RouterSpec.t RouterStatus.t,
  !Serde Bytes StoragePoolSpec.t StoragePoolStatus.t}.

(** C13. A complete list of a cluster's report lacks nothing.  If nothing is removed
    while the report is built, whatever else is written meanwhile, then for each of
    VMs, volumes, copies and routers: when the report calls its list complete, there
    was a moment while it was built at which every stored object of the kind decoded,
    and everyone that was the cloud's has a line under the cloud's uid.  So what a
    complete list does not name was not there. *)
Theorem complete_report_lacks_none (Hn : none_removed) render view (w w' : world D) r :
  build_status prefix sur render view w = (w', Ok r) ->
  (ClusterReport.vms_complete r = true ->
     once_named (Sp := VmSpec.t) (St := VmStatus.t) CloudVmReport.id (db w) (db w') (ClusterReport.vms r))
  /\ (ClusterReport.volumes_complete r = true ->
     once_named (Sp := VolumeSpec.t) (St := VolumeStatus.t) CloudVolumeReport.uid (db w) (db w') (ClusterReport.volumes r))
  /\ (ClusterReport.snapshots_complete r = true ->
     once_named (Sp := VolumeSnapshotSpec.t) (St := VolumeSnapshotStatus.t) CloudSnapshotReport.uid (db w) (db w')
       (ClusterReport.snapshots r))
  /\ (ClusterReport.routers_complete r = true ->
     once_named (Sp := RouterSpec.t) (St := RouterStatus.t) CloudRouterReport.id (db w) (db w') (ClusterReport.routers r)).
Proof using EtcdLaws0.
  unfold build_status. intros (w1 & nodes & H1 & H)%bind_ok. apply drift_list in H1.
  apply bind_ok in H as (w2 & vms & Hvms & H). pose proof (drift_counted _ _ _ Hn Hvms) as H2.
  apply bind_ok in H as (w3 & volumes & Hvolumes & H). pose proof (drift_counted _ _ _ Hn Hvolumes) as H3.
  apply bind_ok in H as (w4 & secrets & H4 & H). apply drift_list in H4.
  apply bind_ok in H as (w5 & copies & Hcopies & H). pose proof (drift_counted _ _ _ Hn Hcopies) as H5.
  apply bind_ok in H as (w6 & pools & H6 & H). apply drift_list in H6.
  apply bind_ok in H as (w7 & routers & Hrouters & H). pose proof (drift_counted _ _ _ Hn Hrouters) as H7.
  destruct (ready_capacity nodes) as [ready capacity].
  destruct (report_cloud_vms _ _) as [lv cv] eqn:Ev. destruct (report_cloud_volumes _ _) as [ld cd] eqn:Ed.
  destruct (report_cloud_snapshots _ _) as [lc cc] eqn:Ec. destruct (report_cloud_routers _ _) as [lr cr] eqn:Er.
  destruct (report_unplaced _) as [unplaced omitted]. injection H as <- <-. simpl.
  split_and!; intros Hc.
  - eapply (counted_names vm_line); [done| |exact Hvms|..|exact Ev|done]; [done|chain..].
  - eapply (counted_names volume_line); [done| |exact Hvolumes|..|exact Ed|done]; [done|chain..].
  - eapply (counted_names snapshot_line); [done| |exact Hcopies|..|exact Ec|done]; [done|chain..].
  - eapply (counted_names router_line); [done| |exact Hrouters|..|exact Er|done]; [done|chain|apply rtc_refl].
Qed.
End reports.

(** * Runs *)

Import Tier.

(** What is left of a VM and of a volume in a store. *)
Definition vm_in (s : mem bytes) : option Vm := stored "vms/v1" s.
Definition disk_in (s : mem bytes) : option Volume := stored "volumes/d1" s.

(** The cloud's turn over v1, as it is stored. *)
Definition turn (net : clusters) (c : cloud (mem bytes)) : cloud (mem bytes) :=
  match vm_in (db (c_store c)) with Some v => (cloud_turn net v c).1 | None => c end.

Definition reports (s : surroundings (mem bytes)) (p : pass (mem bytes)) : result StoreError.t ClusterReport.t :=
  (build_status "p" s (fun _ => "doc") ImageView.empty (p_store p)).2.

(** east holds v1, as it was handed down. *)
Definition east_with_v1 : pass (mem bytes) := (at_cluster hand_down_v1 (cluster_start mem_empty)).1.

Lemma complete_report_lacks_none_witness :
  let p := east_with_v1 in
  let w' := (build_status "p" quiet (fun _ => "doc") ImageView.empty (p_store p)).1 in
  exists r, reports quiet p = Ok r /\ map CloudVmReport.id (ClusterReport.vms r) = ["u-1"]
    /\ once_named (Sp := VmSpec.t) (St := VmStatus.t) "p" quiet CloudVmReport.id (db (p_store p)) (db w')
         (ClusterReport.vms r).
Proof.
  intros p w'.
  assert (Hr : match reports quiet p with
               | Ok r => ClusterReport.vms_complete r = true /\ map CloudVmReport.id (ClusterReport.vms r) = ["u-1"]
               | Err _ => False
               end) by (by vm_compute).
  destruct (reports quiet p) as [r|] eqn:E; [|done]. destruct Hr as [Hc Hm]. exists r. split_and!; [done|done|].
  destruct (complete_report_lacks_none (D := mem bytes) "p" quiet (fun n s k H => H) (fun _ => "doc") ImageView.empty
    (p_store p) w' r) as [Hv _]; [rewrite <- E; apply surjective_pairing|]. by apply Hv.
Defined.

(** ** Completeness over two reads *)

(** East's v1 is in a form this build cannot read, and v2 is somebody's there. *)
Definition east_unreadable : pass (mem bytes) :=
  cluster_start (store [("vms/v1", Garbled); ("vms/v2", KeptVm (unbound "v2"))]).

(** v2 goes after the VMs were listed and before they are counted. *)
Definition v2_goes : surroundings (mem bytes) :=
  {| env := fun n s => if Nat.eqb n 2 then mem_commit s [Delete "p/registry/vms/v2"] else s;
     fault := fun _ => Answered; clock := fun _ => 0%Z |}.

Definition being_deleted {Sp St} (o : Object Sp St) : Object Sp St := mark_deleting 5%Z o.

(** Completeness is judged over two reads.  A report lists a kind and then counts
    its keys; when an object goes in between, an object that does not decode goes
    unnoticed: the report calls its VMs complete and does not name v1, which is still
    stored there.  From such a report the cloud takes a VM being deleted for gone, and
    forgets it without a word to the cluster. *)
Theorem complete_report_misses_one :
  match reports v2_goes east_unreadable with
  | Ok r => ClusterReport.vms_complete r = true /\ ClusterReport.vms r = []
  | Err _ => False
  end
  /\ is_some (look (db (p_store east_unreadable)) "p/registry/vms/v1") = true
  /\ let c' := turn (answering (fun _ _ => Answer.Acked "")) (start (store [("vms/v1", KeptVm (being_deleted (guest (Some "east"))))])) in
     c_sent c' = [] /\ vm_in (db (c_store c')) = None.
Proof. by vm_compute. Qed.

(** ** A refused release *)

(** East's d1 is the cloud's and attached to a VM there. *)
Definition east_attached : pass (mem bytes) :=
  cluster_start (store [("volumes/d1", KeptVolume (for_cloud "u-v" (disk_at None None)))]).


(** ** Deleted between two clusters *)

(** v1 has run at east, stopped there, and is leaving it. *)
Definition leaving_east : Vm :=
  settle 0%Z (VmEdit.on_status (fun s =>
    VmEdit.set_evacuating (Some {| Evacuating.from := "east"; Evacuating.step := EvacuationStep.as_str EvacuationStep.Stopping;
                                   Evacuating.since := 1%Z |})
      (VmEdit.set_reported (Some (said_by "east" VmPhaseKind.Stopped VmReason.Unrecorded None 1%Z))
        (CloudEdit.set (Some "east") (VmStatus.handed_down s) None (VmStatus.bound_at s) s))) (guest (Some "east"))).

(** The delete of the API: the mark. *)
Definition delete_v1 (c : cloud (mem bytes)) : cloud (mem bytes) :=
  (c_st (mutate_if (Sp := VmSpec.t) (St := VmStatus.t) "p" quiet "v1" "v1" being_deleted) c).1.
Definition delete_d1 (c : cloud (mem bytes)) : cloud (mem bytes) :=
  (c_st (mutate_if (Sp := VolumeSpec.t) (St := VolumeStatus.t) "p" quiet "d1" "u-v" being_deleted) c).1.

(** Clusters that hold v1 and say so. *)
Definition holding_v1 : clusters :=
  {| speaks := fun _ _ => true; answers := fun _ _ _ => Answer.Acked "";
     report := fun _ _ => Some {| Report.at_ := 100%Z; Report.uids := ["v1"]; Report.routers := None |};
     secrets_of := fun _ _ => [] |}.


(** ** A failure that passes *)

(** The cluster's store does not answer the first request. *)
Definition one_timeout : surroundings (mem bytes) :=
  {| env := fun _ s => s; fault := fun n => if Nat.eqb n 0 then Failed false None else Answered; clock := fun _ => 0%Z |}.

Definition slow_cluster (op : CloudOp.t) : Answer.t :=
  outcome (handle "p" one_timeout (fun _ _ => 1%Z) (fun _ => "u-here") (fun _ => Ok (spec (guest None)))
    (fun _ => Err "no disk") (fun _ => Err "no copy") (fun _ => Err "no secret") op "" (cluster_start mem_empty)).2.

Lemma failed_is_left net sessions (v : Vm) (c : cloud (mem bytes)) :
  is_deleting v = false -> is_some (VmSpec.cluster_name (spec v)) = true -> vm_kind v = VmPhaseKind.Failed ->
  reconcile_vm "p" quiet net FirstFit_assign sessions (fun _ => "doc") (fun _ _ => 1%Z) (fun _ => "u") v c = (c, Ok tt).
Proof.
  intros Hd Hc Hf. unfold reconcile_vm. rewrite Hd, Hf. destruct (cloud_may_reconcile v sessions); [|done].
  destruct (VmSpec.cluster_name (spec v)) as [k|]; [|done].
  unfold current_report, c_report, mbind, cloud_bind. simpl. by repeat case_match.
Qed.

(** C36. A passing failure of a cluster fails a VM for good.  A cluster whose store is
    late by one request refuses the VM, leaving the retry to the cloud; the cloud
    records the refusal as the VM's failure, and no later turn over it, whatever the
    clusters answer and report, says or writes anything. *)
Theorem passing_failure_is_final :
  let c1 := turn (answering (fun _ => slow_cluster)) (start (store [("vms/v1", KeptVm (guest (Some "east")))])) in
  exists op v, c_sent c1 = [("east", op)] /\ vm_in (db (c_store c1)) = Some v
    /\ slow_cluster op <> Answer.Acked "" /\ (at_cluster op (cluster_start mem_empty)).2 = Ok tt
    /\ vm_kind v = VmPhaseKind.Failed
    /\ forall net sessions c, reconcile_vm "p" quiet net FirstFit_assign sessions (fun _ => "doc") (fun _ _ => 1%Z)
         (fun _ => "u") v c = (c, Ok tt).
Proof.
  set (v := unwrap_or leaving_east (vm_in (db (c_store (turn (answering (fun _ => slow_cluster))
    (start (store [("vms/v1", KeptVm (guest (Some "east")))]))))))).
  exists (CloudOp.Create {| CreateVm.name := "v1"; CreateVm.uid := "v1"; CreateVm.spec_json := "doc"; CreateVm.vni := None;
                            CreateVm.floating_ips := []; CreateVm.routed_subnets := []; CreateVm.labels := [] |}), v.
  split_and!; [by vm_compute|by vm_compute|by vm_compute|by vm_compute|by vm_compute|].
  intros net sessions c. by apply failed_is_left; vm_compute.
Qed.

(** ** Deleted while it moves *)

(** East holds d1 for the cloud, free; west holds nothing. *)
Definition east_with_d1 : pass (mem bytes) :=
  (at_cluster (CloudOp.CreateVolume "d1" "disk" "u-v" "acme") (cluster_start mem_empty)).1.
Definition west_empty : pass (mem bytes) := cluster_start mem_empty.

Definition both (cluster : string) (op : CloudOp.t) : Answer.t :=
  outcome (at_cluster op (if String.eqb cluster "east" then east_with_d1 else west_empty)).2.

Definition west_says (c : cloud (mem bytes)) : cloud (mem bytes) :=
  match reports quiet west_empty with
  | Ok r => (ingest_volumes "p" quiet "west" r 100%Z c).1
  | Err _ => c
  end.

