(* ===== verification/AgentTypes.v ===== *)
(** The agent's data: the create document of a VM
    ([src/shared/agent-api/src/spec.rs]), what the drivers hand out
    ([storage.rs], [networking.rs], [device.rs], [hypervisor.rs] of the same
    crate), the record the agent persists per VM and the conversion of the
    create document into it ([src/components/agent/src/types.rs]).

    A [Uuid] is its 128-bit value; a path is its text; [SystemTime] is
    nanoseconds since the epoch.  The random ids of [Uuid::new_v4], the digest
    [Sha256] and the text of a JSON value come from libraries and are arguments
    of the conversion. *)
From Stdlib Require Import Ascii String NArith ZArith List Bool Lia.
From stdpp Require Import base list strings.
From S2P Require Import Prelude RustStr Json Capability.

(** * Identities *)

Module Uuid.
Definition t := N.

(** The low [k] nibbles, most significant first. *)
Fixpoint hex (k : nat) (n : N) : string :=
  match k with
  | O => EmptyString
  | S k' => String (hex_digit (N.land (N.shiftr n (4 * N.of_nat k')) 15)) (hex k' n)
  end.

(** [Display]: hyphenated, lower case. *)
Definition to_string (u : t) : string :=
  hex 8 (N.shiftr u 96) +:+ "-" +:+ hex 4 (N.shiftr u 80) +:+ "-" +:+ hex 4 (N.shiftr u 64)
  +:+ "-" +:+ hex 4 (N.shiftr u 48) +:+ "-" +:+ hex 12 u.

(** [as_bytes], big endian. *)
Definition as_bytes (u : t) : list N :=
  map (fun i => N.land (N.shiftr u (8 * N.of_nat (15 - i))) 255) (seq 0 16).
End Uuid.
Bind Scope N_scope with Uuid.t.

Abbreviation VmId := Uuid.t.
Abbreviation VolumeId := Uuid.t.
Abbreviation NicId := Uuid.t.
Abbreviation DeviceId := Uuid.t.

(** A two-digit lower-case byte: [{:02x}]. *)
Definition hex_byte (b : N) : string :=
  String (hex_digit (N.land (N.shiftr b 4) 15)) (String (hex_digit (N.land b 15)) EmptyString).

Module MacAddr.
(** Six bytes. *)
Definition t := list N.

Inductive error := Malformed (s : string) | BadOctet (input octet : string).

Definition error_to_string (e : error) : string :=
  match e with
  | Malformed s =>
      "invalid mac address `" +:+ s +:+
      "`: expected 6 colon-separated hex octets (aa:bb:cc:dd:ee:ff)"
  | BadOctet input octet =>
      "invalid mac address `" +:+ input +:+ "`: octet `" +:+ octet +:+ "` is not two hex digits"
  end.

Definition hex_value (c : ascii) : option N :=
  let n := byte_of c in
  if ((48 <=? n) && (n <=? 57))%N then Some (n - 48)%N
  else if ((97 <=? n) && (n <=? 102))%N then Some (n - 87)%N
  else if ((65 <=? n) && (n <=? 70))%N then Some (n - 55)%N
  else None.

(** [u8::from_str_radix(part, 16)] on two bytes: a leading plus sign is
    accepted, as for every integer type. *)
Definition radix16 (part : string) : option N :=
  match part with
  | String a (String b EmptyString) =>
      if Ascii.eqb a "+" then hex_value b
      else match hex_value a, hex_value b with
           | Some x, Some y => Some (16 * x + y)%N
           | _, _ => None
           end
  | _ => None
  end.

Fixpoint octets (s : string) (count : nat) (parts : list string) : result error (list N) :=
  match parts with
  | [] => if Nat.eqb count 6 then Ok [] else Err (Malformed s)
  | part :: parts' =>
      if Nat.eqb count 6 then Err (Malformed s)
      else if negb (Nat.eqb (String.length part) 2) then Err (BadOctet s part)
      else match radix16 part with
           | None => Err (BadOctet s part)
           | Some b =>
               match octets s (S count) parts' with
               | Ok bs => Ok (b :: bs)
               | Err e => Err e
               end
           end
  end.

Definition from_str (s : string) : result error t :=
  let sep := (if str_contains_char "-" s then "-" else ":")%char in
  octets s 0 (split_char sep s).

Definition to_string (m : t) : string := join ":" (map hex_byte m).
End MacAddr.

(** * Driver-facing types *)

Module VmState.
Inductive t := Defined | Running | Paused | Stopped.
End VmState.

Module Desired.
Inductive t := Running | Stopped | Paused | Absent | Halted.
End Desired.

Module BootSourceSpec.
Inductive t :=
| DirectKernel (kernel cmdline : string) (initramfs : option string)
| Firmware (firmware : string).
End BootSourceSpec.

Module CloudInit.
Record t := mk {
  user_data : string;
  meta_data : option string;
  network_config : option string;
  local_hostname : option string }.
End CloudInit.

Module VolumeSpec.
Record t := mk {
  base_image : option string;
  size_bytes : N;
  driver : option string;
  params : option value }.
End VolumeSpec.

Definition default_volume_driver : string := DEFAULT_VOLUME_DRIVER.

(** The driver a spec routes to. *)
Definition spec_driver (s : VolumeSpec.t) : string :=
  unwrap_or default_volume_driver (VolumeSpec.driver s).

Module VolumeAttachment.
Inductive t :=
| Path (path : string)
| VhostUserBlk (socket : string) (pid : N)
| FsShare (socket tag : string) (pid : N).

Definition needs_shared_memory (a : t) : bool :=
  match a with Path _ => false | VhostUserBlk _ _ | FsShare _ _ _ => true end.

Definition is_block (a : t) : bool :=
  match a with FsShare _ _ _ => false | _ => true end.

Definition backend_pid (a : t) : option N :=
  match a with
  | Path _ => None
  | VhostUserBlk _ pid | FsShare _ _ pid => Some pid
  end.
End VolumeAttachment.

Module VolumeHandle.
Record t := mk {
  id : VolumeId;
  backend : string;
  size_bytes : N;
  params : option value }.
Definition set_params (p : option value) (h : t) : t := mk (id h) (backend h) (size_bytes h) p.
End VolumeHandle.

Module Volume.
Record t := mk {
  handle : VolumeHandle.t;
  attachment : VolumeAttachment.t;
  detached : bool }.
Definition attached (h : VolumeHandle.t) (a : VolumeAttachment.t) : t := mk h a false.
Definition id (v : t) : VolumeId := VolumeHandle.id (handle v).
Definition size_bytes (v : t) : N := VolumeHandle.size_bytes (handle v).
Definition set_detached (v : t) : t := mk (handle v) (attachment v) true.
End Volume.

Module PartitionSpec.
Inductive t := Exclusive | Mediated.
End PartitionSpec.

Module DeviceSpec.
Record t := mk {
  driver : string;
  partition : PartitionSpec.t;
  profile : option string;
  params : option value }.
End DeviceSpec.

Definition default_device_driver : string := "crosvm-gpu".

Module DeviceAttachment.
Inductive t :=
| VfioPci (sysfs_path : string)
| VfioMdev (mdev_uuid : Uuid.t)
| VhostUser (socket : string) (pid : N) (device_type : N) (queue_sizes : list N).
End DeviceAttachment.

Module Device.
Record t := mk { id : DeviceId; attachment : DeviceAttachment.t }.
End Device.

Module NicSpec.
Record t := mk {
  bridge : string;
  mac : MacAddr.t;
  vxlan_id : option N;
  floating_ips : list string;
  routed_subnets : list string;
  physnet : option string }.

Definition sources_allowlisted (s : t) : bool :=
  negb (is_some (physnet s)) && negb (match routed_subnets s with [] => true | _ => false end).
End NicSpec.

Module Nic.
Record t := mk { id : NicId; tap_name : string; mtu : option N; mac : option MacAddr.t }.
End Nic.

(** * The persisted record *)

Module Operation.
Inductive t :=
| Snapshotting (target : string)
| Restoring (source : string)
| MigratingOut (peer : string)
| MigratingIn (peer : string).

Definition is_out (o : t) : bool := match o with MigratingOut _ => true | _ => false end.
Definition is_in (o : t) : bool := match o with MigratingIn _ => true | _ => false end.
End Operation.

Module MigrationAttempt.
Record t := mk {
  id : string;
  peer : string;
  incoming : bool;
  accepted : bool;
  unknown : option string }.
Definition set_unknown (u : option string) (a : t) : t :=
  mk (id a) (peer a) (incoming a) (accepted a) u.
Definition set_accepted (a : t) : t := mk (id a) (peer a) (incoming a) true (unknown a).

#[global] Instance eq_dec : EqDecision t.
Proof. solve_decision. Defined.
End MigrationAttempt.

Module Phase.
Inductive t :=
| Provisioning | VolumesDone | NetworkDone | DevicesDone | Provisioned | Receiving | Migrated.
#[global] Instance eq_dec : EqDecision t.
Proof. solve_decision. Defined.
End Phase.

#[global] Instance desired_eq_dec : EqDecision Desired.t.
Proof. solve_decision. Defined.
#[global] Instance vm_state_eq_dec : EqDecision VmState.t.
Proof. solve_decision. Defined.

(** [images::Source]. *)
Module Source.
Record t := mk { name : string; url : string; sha256 : string; uid : string }.
End Source.

Module VolumeWithId.
Record t := mk { id : VolumeId; spec : VolumeSpec.t; referenced : bool }.
Definition set_id (i : VolumeId) (v : t) : t := mk i (spec v) (referenced v).
End VolumeWithId.

Module NicWithId.
Record t := mk { id : NicId; spec : NicSpec.t }.
End NicWithId.

Module DeviceWithId.
Record t := mk { id : DeviceId; spec : DeviceSpec.t }.
End DeviceWithId.

Module AgentVmSpec.
Record t := mk {
  vcpus : N;
  memory_mib : N;
  boot : BootSourceSpec.t;
  volumes : list VolumeWithId.t;
  nics : list NicWithId.t;
  devices : list DeviceWithId.t;
  cloud_init : option CloudInit.t;
  images : list Source.t }.
Definition set_volumes (l : list VolumeWithId.t) (s : t) : t :=
  mk (vcpus s) (memory_mib s) (boot s) l (nics s) (devices s) (cloud_init s) (images s).
Definition set_nics (l : list NicWithId.t) (s : t) : t :=
  mk (vcpus s) (memory_mib s) (boot s) (volumes s) l (devices s) (cloud_init s) (images s).
End AgentVmSpec.

Module VmRecord.
Record t := mk {
  migration : option MigrationAttempt.t;
  spec : AgentVmSpec.t;
  desired : Desired.t;
  phase : Phase.t;
  operation : option Operation.t;
  stop_deadline : option Z;
  receive_deadline : option Z;
  send_failed : option string;
  unhealthy : option string;
  managed_by_controller : bool;
  volumes : list Volume.t;
  unattached_volumes : list VolumeHandle.t;
  nics : list Nic.t;
  devices : list Device.t;
  vmm_pid : option N;
  overlay_bridges : list (N * string) }.

Definition set_migration m r := mk m (spec r) (desired r) (phase r) (operation r)
  (stop_deadline r) (receive_deadline r) (send_failed r) (unhealthy r) (managed_by_controller r)
  (volumes r) (unattached_volumes r) (nics r) (devices r) (vmm_pid r) (overlay_bridges r).
Definition set_spec s r := mk (migration r) s (desired r) (phase r) (operation r)
  (stop_deadline r) (receive_deadline r) (send_failed r) (unhealthy r) (managed_by_controller r)
  (volumes r) (unattached_volumes r) (nics r) (devices r) (vmm_pid r) (overlay_bridges r).
Definition set_desired d r := mk (migration r) (spec r) d (phase r) (operation r)
  (stop_deadline r) (receive_deadline r) (send_failed r) (unhealthy r) (managed_by_controller r)
  (volumes r) (unattached_volumes r) (nics r) (devices r) (vmm_pid r) (overlay_bridges r).
Definition set_phase p r := mk (migration r) (spec r) (desired r) p (operation r)
  (stop_deadline r) (receive_deadline r) (send_failed r) (unhealthy r) (managed_by_controller r)
  (volumes r) (unattached_volumes r) (nics r) (devices r) (vmm_pid r) (overlay_bridges r).
Definition set_operation o r := mk (migration r) (spec r) (desired r) (phase r) o
  (stop_deadline r) (receive_deadline r) (send_failed r) (unhealthy r) (managed_by_controller r)
  (volumes r) (unattached_volumes r) (nics r) (devices r) (vmm_pid r) (overlay_bridges r).
Definition set_stop_deadline d r := mk (migration r) (spec r) (desired r) (phase r) (operation r)
  d (receive_deadline r) (send_failed r) (unhealthy r) (managed_by_controller r)
  (volumes r) (unattached_volumes r) (nics r) (devices r) (vmm_pid r) (overlay_bridges r).
Definition set_receive_deadline d r := mk (migration r) (spec r) (desired r) (phase r)
  (operation r) (stop_deadline r) d (send_failed r) (unhealthy r) (managed_by_controller r)
  (volumes r) (unattached_volumes r) (nics r) (devices r) (vmm_pid r) (overlay_bridges r).
Definition set_send_failed f r := mk (migration r) (spec r) (desired r) (phase r) (operation r)
  (stop_deadline r) (receive_deadline r) f (unhealthy r) (managed_by_controller r)
  (volumes r) (unattached_volumes r) (nics r) (devices r) (vmm_pid r) (overlay_bridges r).
Definition set_unhealthy u r := mk (migration r) (spec r) (desired r) (phase r) (operation r)
  (stop_deadline r) (receive_deadline r) (send_failed r) u (managed_by_controller r)
  (volumes r) (unattached_volumes r) (nics r) (devices r) (vmm_pid r) (overlay_bridges r).
Definition set_volumes v r := mk (migration r) (spec r) (desired r) (phase r) (operation r)
  (stop_deadline r) (receive_deadline r) (send_failed r) (unhealthy r) (managed_by_controller r)
  v (unattached_volumes r) (nics r) (devices r) (vmm_pid r) (overlay_bridges r).
Definition set_unattached u r := mk (migration r) (spec r) (desired r) (phase r) (operation r)
  (stop_deadline r) (receive_deadline r) (send_failed r) (unhealthy r) (managed_by_controller r)
  (volumes r) u (nics r) (devices r) (vmm_pid r) (overlay_bridges r).
Definition set_nics n r := mk (migration r) (spec r) (desired r) (phase r) (operation r)
  (stop_deadline r) (receive_deadline r) (send_failed r) (unhealthy r) (managed_by_controller r)
  (volumes r) (unattached_volumes r) n (devices r) (vmm_pid r) (overlay_bridges r).
Definition set_devices d r := mk (migration r) (spec r) (desired r) (phase r) (operation r)
  (stop_deadline r) (receive_deadline r) (send_failed r) (unhealthy r) (managed_by_controller r)
  (volumes r) (unattached_volumes r) (nics r) d (vmm_pid r) (overlay_bridges r).
Definition set_vmm_pid p r := mk (migration r) (spec r) (desired r) (phase r) (operation r)
  (stop_deadline r) (receive_deadline r) (send_failed r) (unhealthy r) (managed_by_controller r)
  (volumes r) (unattached_volumes r) (nics r) (devices r) p (overlay_bridges r).
Definition set_overlay_bridges o r := mk (migration r) (spec r) (desired r) (phase r)
  (operation r) (stop_deadline r) (receive_deadline r) (send_failed r) (unhealthy r)
  (managed_by_controller r) (volumes r) (unattached_volumes r) (nics r) (devices r) (vmm_pid r) o.

(** A record with no migration, operation, mark or deadline and nothing acquired. *)
Definition fresh (s : AgentVmSpec.t) (d : Desired.t) (managed : bool) : t :=
  mk None s d Phase.Provisioning None None None None None managed [] [] [] [] None [].
End VmRecord.

(** * The create document *)

Module NewVolume.
Record t := mk {
  volume : option string;
  base_image : option string;
  base_image_url : option string;
  base_image_sha256 : option string;
  base_image_uid : option string;
  size_bytes : N;
  driver : option string;
  params : option value }.
End NewVolume.

Module NewNic.
Record t := mk {
  bridge : option string;
  mac : option string;
  vxlan_id : option N;
  floating_ips : list string;
  routed_subnets : list string;
  physnet : option string }.
End NewNic.

Module NewDevice.
Record t := mk {
  driver : option string;
  partition : string;
  profile : option string;
  params : option value }.
End NewDevice.

Module NewVmSpec.
Record t := mk {
  vcpus : N;
  memory_mib : N;
  boot : BootSourceSpec.t;
  desired : Desired.t;
  volumes : list NewVolume.t;
  nics : list NewNic.t;
  devices : list NewDevice.t;
  cloud_init : option CloudInit.t }.
End NewVmSpec.

(** [{:?}] of [Desired]. *)
Definition debug_desired (d : Desired.t) : string :=
  match d with
  | Desired.Running => "Running"
  | Desired.Stopped => "Stopped"
  | Desired.Paused => "Paused"
  | Desired.Absent => "Absent"
  | Desired.Halted => "Halted"
  end.

Definition refuse_what_cannot_be_a_vm (s : NewVmSpec.t) : result string unit :=
  if (NewVmSpec.vcpus s =? 0)%N then Err "vcpus must be greater than zero"
  else match NewVmSpec.desired s with
       | Desired.Absent | Desired.Halted =>
           Err ("desired " +:+ debug_desired (NewVmSpec.desired s) +:+
                " is not a valid creation target")
       | _ =>
           if is_nil (NewVmSpec.volumes s) then Err "a vm needs at least one volume as boot disk"
           else Ok tt
       end.

Definition describes_its_own_bytes (v : NewVolume.t) : bool :=
  negb (NewVolume.size_bytes v =? 0)%N || is_some (NewVolume.base_image v)
  || is_some (NewVolume.base_image_url v) || is_some (NewVolume.base_image_sha256 v)
  || is_some (NewVolume.driver v).

Fixpoint refuse_a_volume_entry_that_says_two_things (l : list NewVolume.t) : result string unit :=
  match l with
  | [] => Ok tt
  | v :: l' =>
      match NewVolume.volume v with
      | None =>
          if (NewVolume.size_bytes v =? 0)%N
          then Err "an inline volume needs a size_bytes greater than zero"
          else refuse_a_volume_entry_that_says_two_things l'
      | Some _ =>
          if describes_its_own_bytes v
          then Err "a referenced volume has its size and image already"
          else refuse_a_volume_entry_that_says_two_things l'
      end
  end.

(** One step of the loop: an entry with complete fetch metadata adds its source
    unless one of that name is there. *)
Definition add_image (images : list Source.t) (v : NewVolume.t) : list Source.t :=
  match NewVolume.base_image v, NewVolume.base_image_url v, NewVolume.base_image_sha256 v with
  | Some name, Some url, Some sha256 =>
      if existsb (fun s => String.eqb (Source.name s) name) images then images
      else images ++ [Source.mk name url sha256 (unwrap_or EmptyString (NewVolume.base_image_uid v))]
  | _, _, _ => images
  end.

Definition images_to_fetch (volumes : list NewVolume.t) : list Source.t :=
  fold_left add_image volumes [].

(** [agent_api::device::refuse_params_outside]. *)
Definition what_a_spec_may_name (allowed : list string) : string :=
  if is_nil allowed then "a vm spec chooses one of the node's profiles (spec.profile)"
  else "a vm spec may name [" +:+ join ", " allowed +:+ "] and a profile (spec.profile)".

Section conversion.
(** [Display] of a JSON value; [Uuid::new_v4], draw by draw; [str::parse::<Uuid>];
    [Sha256::digest]; [uuid::Builder::from_custom_bytes]. *)
Context (json_text : value -> string).
Context (new_v4 : nat -> Uuid.t).
Context (uuid_parse : string -> result string Uuid.t).
Context (sha256 : list N -> list N).
Context (from_custom_bytes : list N -> Uuid.t).

Definition refuse_params_outside (driver : string) (allowed : list string) (params : value)
  : result string unit :=
  match params with
  | Object fields =>
      match List.find (fun key => negb (str_in key allowed)) (map fst fields) with
      | Some key =>
          Err (driver +:+ " params." +:+ key +:+ " is the node's to set and not a spec's; " +:+
               what_a_spec_may_name allowed +:+ ", and everything else comes from [device." +:+
               driver +:+ "] on the node")
      | None => Ok tt
      end
  | _ => Err (driver +:+ " params must be an object, not " +:+ json_text params)
  end.

Definition refuse_operator_only_device_params (driver : string) (params : option value)
  : result string unit :=
  match params with
  | None => Ok tt
  | Some params =>
      if String.eqb driver "nvrm" then refuse_params_outside "nvrm" ["vgpu_type"] params
      else if String.eqb driver "crosvm-gpu" then refuse_params_outside "crosvm-gpu" [] params
      else Ok tt
  end.

(** [volumes_with_ids] from draw [n] on; the next draw is returned. *)
Fixpoint volumes_with_ids (n : nat) (volumes : list NewVolume.t)
  : result string (nat * list VolumeWithId.t) :=
  match volumes with
  | [] => Ok (n, [])
  | v :: volumes' =>
      r ← match NewVolume.volume v with
          | Some uid =>
              match uuid_parse uid with
              | Err e => Err ("volume reference " +:+ debug uid +:+ " is not a uid: " +:+ e)
              | Ok id =>
                  Ok (n, VolumeWithId.mk id
                           (VolumeSpec.mk None 0 None (NewVolume.params v)) true)
              end
          | None =>
              Ok (S n, VolumeWithId.mk (new_v4 n)
                         (VolumeSpec.mk (NewVolume.base_image v) (NewVolume.size_bytes v)
                            (NewVolume.driver v) (NewVolume.params v)) false)
          end;
      rest ← volumes_with_ids r.1 volumes';
      Ok (rest.1, r.2 :: rest.2)
  end.

(** [usize::to_be_bytes] on a 64-bit machine. *)
Definition usize_be_bytes (n : nat) : list N :=
  map (fun i => N.land (N.shiftr (N.of_nat n) (8 * N.of_nat (7 - i))) 255) (seq 0 8).

Definition nic_id (vm : VmId) (position : nat) : NicId :=
  from_custom_bytes
    (firstn 16 (sha256 (Uuid.as_bytes vm ++ [110; 105; 99]%N ++ usize_be_bytes position))).

Definition nics_with_rolled_ids (vm : VmId) (nics : list NicWithId.t) : list NicWithId.t :=
  map snd (List.filter (fun p => negb (N.eqb (NicWithId.id p.2) (nic_id vm p.1))) (enumerate nics)).

Definition mac_of_id (id : NicId) : string :=
  "52:54:00:" +:+ join ":" (map hex_byte (firstn 3 (Uuid.as_bytes id))).

Definition nic_with_id (vm : VmId) (default_bridge : string) (p : nat * NewNic.t)
  : result string NicWithId.t :=
  let id := nic_id vm p.1 in
  let mac := unwrap_or (mac_of_id id) (NewNic.mac p.2) in
  mac' ← map_err (fun e => "invalid mac " +:+ debug mac +:+ ": " +:+ MacAddr.error_to_string e)
           (MacAddr.from_str mac);
  let bridge := match NewNic.bridge p.2 with
                | Some b => if str_is_empty b then default_bridge else b
                | None => default_bridge
                end in
  Ok (NicWithId.mk id
        (NicSpec.mk bridge mac' (NewNic.vxlan_id p.2) (NewNic.floating_ips p.2)
           (NewNic.routed_subnets p.2) (NewNic.physnet p.2))).

Definition nics_with_ids (nics : list NewNic.t) (vm : VmId) (default_bridge : string)
  : result string (list NicWithId.t) :=
  try_map (nic_with_id vm default_bridge) (enumerate nics).

Definition parse_partition (s : string) : result string PartitionSpec.t :=
  if String.eqb s "exclusive" then Ok PartitionSpec.Exclusive
  else if String.eqb s "mediated" then Ok PartitionSpec.Mediated
  else Err ("unknown partition type " +:+ debug s).

(** [devices_with_ids] from draw [n] on. *)
Fixpoint devices_with_ids (n : nat) (devices : list NewDevice.t)
  : result string (list DeviceWithId.t) :=
  match devices with
  | [] => Ok []
  | d :: devices' =>
      partition ← parse_partition (NewDevice.partition d);
      let driver := unwrap_or default_device_driver (NewDevice.driver d) in
      _ ← refuse_operator_only_device_params driver (NewDevice.params d);
      rest ← devices_with_ids (S n) devices';
      Ok (DeviceWithId.mk (new_v4 n)
            (DeviceSpec.mk driver partition (NewDevice.profile d) (NewDevice.params d)) :: rest)
  end.

Definition into_spec (s : NewVmSpec.t) (vm : VmId) (default_bridge : string)
  : result string (AgentVmSpec.t * Desired.t) :=
  _ ← refuse_what_cannot_be_a_vm s;
  _ ← refuse_a_volume_entry_that_says_two_things (NewVmSpec.volumes s);
  let images := images_to_fetch (NewVmSpec.volumes s) in
  volumes ← volumes_with_ids 0 (NewVmSpec.volumes s);
  nics ← nics_with_ids (NewVmSpec.nics s) vm default_bridge;
  devices ← devices_with_ids volumes.1 (NewVmSpec.devices s);
  Ok (AgentVmSpec.mk (NewVmSpec.vcpus s) (NewVmSpec.memory_mib s) (NewVmSpec.boot s)
        volumes.2 nics devices (NewVmSpec.cloud_init s) images,
      NewVmSpec.desired s).

End conversion.

(** * MAC addresses print and parse *)

Lemma hex_digit_value n : (n < 16)%N -> MacAddr.hex_value (hex_digit n) = Some n.
Proof.
  intros Hn.
  assert (H : forallb (fun k => bool_decide (MacAddr.hex_value (hex_digit k) = Some k))
                (map N.of_nat (seq 0 16)) = true) by reflexivity.
  rewrite forallb_forall in H. apply (bool_decide_eq_true_1 _), H.
  apply in_map_iff. exists (N.to_nat n). rewrite in_seq. lia.
Qed.

Lemma hex_digit_plain n c :
  (n < 16)%N -> is_digit c = false -> (byte_of c < 97)%N -> hex_digit n <> c.
Proof.
  unfold hex_digit, is_digit, byte_of. intros Hn Hc Hb <-.
  destruct (n <? 10)%N eqn:E; rewrite N_ascii_embedding in *; lia.
Qed.

Lemma nibbles_bound b : (N.land (N.shiftr b 4) 15 < 16)%N /\ (N.land b 15 < 16)%N.
Proof.
  change 15%N with (N.ones 4). rewrite !N.land_ones. split; apply N.mod_lt; done.
Qed.

Lemma radix16_hex_byte b : (b <= 255)%N -> MacAddr.radix16 (hex_byte b) = Some b.
Proof.
  intros Hb. unfold MacAddr.radix16, hex_byte.
  destruct (nibbles_bound b) as [H1 H2].
  destruct (Ascii.eqb_spec (hex_digit (N.land (N.shiftr b 4) 15)) "+") as [E|_].
  { by apply hex_digit_plain in E. }
  rewrite !hex_digit_value by done. f_equal.
  change 15%N with (N.ones 4). rewrite !N.land_ones, N.shiftr_div_pow2.
  change (2 ^ 4)%N with 16%N. pose proof (N.div_mod b 16 ltac:(done)).
  rewrite (N.mod_small (b / 16)); [lia|]. apply N.Div0.div_lt_upper_bound. lia.
Qed.

Lemma hex_byte_no_char c b :
  is_digit c = false -> (byte_of c < 97)%N -> str_contains_char c (hex_byte b) = false.
Proof.
  intros Hc Hb. destruct (nibbles_bound b) as [H1 H2].
  unfold str_contains_char, hex_byte. simpl.
  assert (Hne : forall n, (n < 16)%N -> Ascii.eqb c (hex_digit n) = false).
  { intros n Hn. apply Ascii.eqb_neq. intros E. symmetry in E. by apply hex_digit_plain in E. }
  by rewrite !Hne.
Qed.

Lemma octets_hex s k bs :
  (k + length bs = 6)%nat -> Forall (fun b => b <= 255)%N bs ->
  MacAddr.octets s k (map hex_byte bs) = Ok bs.
Proof.
  revert k. induction bs as [|b bs IH]; intros k Hk Hb.
  { simpl in *. by replace k with 6%nat by lia. }
  inversion Hb; subst. cbn [map MacAddr.octets]. simpl in Hk.
  destruct (Nat.eqb_spec k 6); [lia|]. change (String.length (hex_byte b)) with 2%nat.
  cbn [Nat.eqb negb]. rewrite radix16_hex_byte by done. by rewrite IH by (done || lia).
Qed.

Lemma join_no_char c sep l :
  str_contains_char c sep = false -> Forall (fun s => str_contains_char c s = false) l ->
  str_contains_char c (join sep l) = false.
Proof.
  intros Hsep. induction 1 as [|s l Hs Hl IH]; [done|].
  destruct l; [done|]. change (join sep (s :: s0 :: l)) with (s +:+ sep +:+ join sep (s0 :: l)).
  rewrite !str_contains_char_app, Hs, Hsep, IH. done.
Qed.

Lemma split_char_join c l :
  l <> [] -> Forall (fun s => str_contains_char c s = false) l ->
  split_char c (join (String c EmptyString) l) = l.
Proof.
  intros Hne. induction 1 as [|s l Hs Hl IH]; [done|].
  destruct l as [|s0 l]; [by apply split_char_none|].
  change (join (String c "") (s :: s0 :: l)) with (s +:+ String c "" +:+ join (String c "") (s0 :: l)).
  rewrite str_app_cons, str_app_nil_l, split_char_app by done. by rewrite IH.
Qed.

Lemma mac_parse_to_string m :
  length m = 6%nat -> Forall (fun b => b <= 255)%N m ->
  MacAddr.from_str (MacAddr.to_string m) = Ok m.
Proof.
  intros Hl Hb. unfold MacAddr.from_str, MacAddr.to_string.
  assert (Hno : forall c, is_digit c = false -> (byte_of c < 97)%N ->
                Forall (fun s => str_contains_char c s = false) (map hex_byte m)).
  { intros c ??. apply List.Forall_map, List.Forall_forall. intros b _. by apply hex_byte_no_char. }
  rewrite join_no_char by (done || by apply Hno).
  rewrite split_char_join; [by apply octets_hex|by destruct m|by apply Hno].
Qed.

(** * What a converted document looks like *)

Section conversion_facts.
Context (json_text : value -> string) (new_v4 : nat -> Uuid.t).
Context (uuid_parse : string -> result string Uuid.t).
Context (sha256 : list N -> list N) (from_custom_bytes : list N -> Uuid.t).

Lemma volumes_with_ids_cons n v l r :
  volumes_with_ids new_v4 uuid_parse n (v :: l) = Ok r ->
  exists m w rest,
    r = (rest.1, w :: rest.2) /\ volumes_with_ids new_v4 uuid_parse m l = Ok rest /\
    match NewVolume.volume v with
    | Some uid => m = n /\ exists id, uuid_parse uid = Ok id /\
                  w = VolumeWithId.mk id (VolumeSpec.mk None 0 None (NewVolume.params v)) true
    | None => m = S n /\
              w = VolumeWithId.mk (new_v4 n)
                    (VolumeSpec.mk (NewVolume.base_image v) (NewVolume.size_bytes v)
                       (NewVolume.driver v) (NewVolume.params v)) false
    end.
Proof.
  simpl. destruct (NewVolume.volume v) as [uid|] eqn:Ev.
  - destruct (uuid_parse uid) as [id|e] eqn:Ep; simpl; [|done].
    destruct (volumes_with_ids _ _ n l) as [rest|e] eqn:Er; simpl; [|done].
    intros [= <-]. exists n, (VolumeWithId.mk id (VolumeSpec.mk None 0 None (NewVolume.params v)) true), rest.
    naive_solver.
  - simpl. destruct (volumes_with_ids _ _ (S n) l) as [rest|e] eqn:Er; simpl; [|done].
    intros [= <-]. eexists (S n), _, rest. naive_solver.
Qed.

(** A referenced entry carries no driver and no size of its own. *)
Lemma volumes_with_ids_references n l r :
  volumes_with_ids new_v4 uuid_parse n l = Ok r ->
  Forall (fun v => VolumeWithId.referenced v = true ->
                   VolumeSpec.driver (VolumeWithId.spec v) = None /\
                   VolumeSpec.size_bytes (VolumeWithId.spec v) = 0%N) r.2.
Proof.
  revert n r. induction l as [|v l IH]; intros n r H; [by injection H as <-|].
  apply volumes_with_ids_cons in H as (m & w & rest & -> & Hr & Hw).
  constructor; [|by eapply IH]. destruct (NewVolume.volume v); naive_solver.
Qed.

Lemma nic_with_id_id vm br p w :
  nic_with_id sha256 from_custom_bytes vm br p = Ok w ->
  NicWithId.id w = nic_id sha256 from_custom_bytes vm p.1.
Proof.
  unfold nic_with_id. destruct (MacAddr.from_str _); simpl; [|done]. by intros [= <-].
Qed.

(** Every NIC id of a converted document is the one derived from its position. *)
Lemma nics_with_ids_derived nics vm br r :
  nics_with_ids sha256 from_custom_bytes nics vm br = Ok r ->
  nics_with_rolled_ids sha256 from_custom_bytes vm r = [].
Proof.
  unfold nics_with_ids, nics_with_rolled_ids, enumerate. generalize 0%nat as k. revert r.
  induction nics as [|n nics IH]; intros r k; rewrite try_map_ok; simpl; intros H;
    inversion H as [|p w ? r' Hw Hr]; subst; [done|].
  simpl. apply nic_with_id_id in Hw. simpl in Hw. rewrite Hw, N.eqb_refl. simpl.
  apply (IH r' (S k)). by apply try_map_ok.
Qed.

Lemma into_spec_ok s vm br r d :
  into_spec json_text new_v4 uuid_parse sha256 from_custom_bytes s vm br = Ok (r, d) ->
  refuse_what_cannot_be_a_vm s = Ok tt /\
  (exists n, volumes_with_ids new_v4 uuid_parse 0 (NewVmSpec.volumes s) = Ok (n, AgentVmSpec.volumes r)) /\
  nics_with_ids sha256 from_custom_bytes (NewVmSpec.nics s) vm br = Ok (AgentVmSpec.nics r) /\
  AgentVmSpec.images r = images_to_fetch (NewVmSpec.volumes s) /\ d = NewVmSpec.desired s.
Proof.
  unfold into_spec. destruct (refuse_what_cannot_be_a_vm s) as [[]|e]; simpl; [|done].
  destruct (refuse_a_volume_entry_that_says_two_things _); simpl; [|done].
  destruct (volumes_with_ids _ _ _ _) as [[n vs]|e] eqn:Ev; simpl; [|done].
  destruct (nics_with_ids _ _ _ _ _) as [ns|e] eqn:En; simpl; [|done].
  destruct (devices_with_ids _ _ _ _) as [ds|e]; simpl; [|done].
  intros [= <- <-]. simpl. eauto 10.
Qed.

(** No two sources of the fetch list share a name. *)
Lemma images_to_fetch_distinct l : List.NoDup (map Source.name (images_to_fetch l)).
Proof.
  unfold images_to_fetch.
  assert (H : forall acc, List.NoDup (map Source.name acc) ->
                List.NoDup (map Source.name (fold_left add_image l acc))); [|by apply H; constructor].
  induction l as [|v l IH]; intros acc Hacc; simpl; [done|]. apply IH. unfold add_image.
  destruct (NewVolume.base_image v) as [name|], (NewVolume.base_image_url v) as [url|],
    (NewVolume.base_image_sha256 v) as [sha|];
    try done.
  destruct (existsb _ acc) eqn:E; [done|]. rewrite map_app. simpl.
  apply NoDup_Add with (a := name) (l := map Source.name acc).
  { rewrite <- (app_nil_r (map Source.name acc)) at 1. apply Add_app. }
  split; [done|]. intros (src & Hs & Hin)%in_map_iff.
  apply (proj1 (existsb_false _ _) E) in Hin. by rewrite Hs, String.eqb_refl in Hin.
Qed.
End conversion_facts.
