(* ===== verification/AgentPlan.v ===== *)
(** The agent's decisions on one VM: what an observation of the host and the
    persisted record make it do ([plan], [src/components/agent/src/reconcile/plan.rs])
    and what it reports ([report_status], [departure],
    [src/components/agent/src/reconcile/observe.rs]).  Both are pure; the
    operations that act on the answer are in [AgentReconcile]. *)
From Stdlib Require Import Ascii String NArith ZArith List Bool Lia.
From stdpp Require Import base list strings gmap.
From S2P Require Import Prelude RustStr AgentTypes.
Import VmRecord.

(** * Observations *)

Module Observed.
Record t := mk {
  tracked : bool;
  vmm_alive : bool;
  socket_responsive : bool;
  backends_alive : bool;
  guest : option VmState.t;
  receive_failed : bool }.
End Observed.

Definition backend_pids (r : VmRecord.t) : list N :=
  filter_map (fun d => match Device.attachment d with
                       | DeviceAttachment.VhostUser _ pid _ _ => Some pid
                       | _ => None
                       end) (devices r)
  ++ filter_map (fun v => VolumeAttachment.backend_pid (Volume.attachment v)) (volumes r).

Definition BACKEND_DIED_REASON : string :=
  "backend process died while the vmm is running, automatic restart is disabled - use start/stop/destroy to repair".

Definition RESUME_INEFFECTIVE_REASON : string :=
  "the hypervisor accepted three resumes and the guest is still not running; it needs a look - use start/stop/destroy to repair".

Definition wants_guest (d : Desired.t) : bool :=
  match d with Desired.Running | Desired.Paused => true | _ => false end.

Definition backend_died_under_vmm (r : VmRecord.t) (obs : Observed.t) : bool :=
  bool_decide (phase r = Phase.Provisioned) && wants_guest (desired r)
  && Observed.vmm_alive obs && negb (Observed.backends_alive obs).

(** * The planner *)

Module Action.
Inductive t :=
| None | Blocked | Quarantined | Adopt (vmm_pid : N) | Provision | Start | SignalShutdown | Stop
| Pause | Resume | Teardown | Arrived.

#[global] Instance eq_dec : EqDecision t.
Proof. solve_decision. Defined.
End Action.

(** The branch for an intent to stop. *)
Definition plan_stopped (r : VmRecord.t) (obs : Observed.t) (now : Z) : Action.t :=
  if negb (Observed.vmm_alive obs) then
    if bool_decide (phase r = Phase.Provisioned) && is_some (vmm_pid r)
    then Action.Stop else Action.None
  else
    match Observed.guest obs with
    | Some VmState.Defined | Some VmState.Stopped => Action.Stop
    | Some VmState.Paused => Action.Stop
    | _ =>
        match stop_deadline r with
        | Some deadline => if (now <? deadline)%Z then Action.SignalShutdown else Action.Stop
        | None => Action.Stop
        end
    end.

(** The branch for a provisioned VM that is to have a guest. *)
Definition plan_guest (d : Desired.t) (guest : option VmState.t) : Action.t :=
  match guest with
  | None => Action.None
  | Some guest =>
      match d, guest with
      | Desired.Running, (VmState.Defined | VmState.Stopped) => Action.Start
      | Desired.Running, VmState.Paused => Action.Resume
      | Desired.Running, VmState.Running => Action.None
      | Desired.Paused, VmState.Running => Action.Pause
      | Desired.Paused, VmState.Paused => Action.None
      | Desired.Paused, (VmState.Defined | VmState.Stopped) => Action.Start
      | _, _ => Action.None
      end
  end.

Definition plan (r : VmRecord.t) (obs : Observed.t) (now : Z) : Action.t :=
  if is_some (operation r) then Action.Blocked
  else if bool_decide (desired r = Desired.Absent) then Action.Teardown
  else if bool_decide (desired r = Desired.Stopped) then plan_stopped r obs now
  else if is_some (unhealthy r) then Action.Quarantined
  else if bool_decide (desired r = Desired.Halted) then Action.None
  else match phase r with
       | Phase.Receiving =>
           match Observed.guest obs with
           | Some VmState.Running => Action.Arrived
           | _ => if Observed.receive_failed obs then Action.Teardown else Action.None
           end
       | Phase.Migrated => Action.None
       | Phase.Provisioned =>
           if negb (Observed.vmm_alive obs) || negb (Observed.socket_responsive obs)
           then Action.Provision
           else if negb (Observed.tracked obs) then
             match vmm_pid r with
             | Some pid => Action.Adopt pid
             | None => Action.Provision
             end
           else plan_guest (desired r) (Observed.guest obs)
       | _ => Action.Provision
       end.

Definition next_stop_deadline (from : Desired.t) (armed : option Z) (to : Desired.t)
    (proposed : option Z) : option Z :=
  match to with
  | Desired.Stopped => if bool_decide (from = Desired.Stopped) then armed else proposed
  | _ => None
  end.

Definition sync_orphans (snapshot : list VmId) (records : list (VmId * VmRecord.t)) : list VmId :=
  map fst (List.filter (fun p =>
    managed_by_controller p.2
    && negb (bool_decide (desired p.2 = Desired.Absent))
    && negb (bool_decide (phase p.2 = Phase.Receiving))
    && negb (is_some_and MigrationAttempt.incoming (migration p.2))
    && negb (existsb (N.eqb p.1) snapshot)) records).

(** * Reports *)

Module ReportedPhase.
Inductive t := Provisioning | Running | Stopped | Paused | Failed | Quarantined.
#[global] Instance eq_dec : EqDecision t.
Proof. solve_decision. Defined.
End ReportedPhase.

Module AgentVmReason.
Inductive t :=
| Working | Backoff | AwaitingGuest | GuestLeft | ReceiveFailed | VmmGone | BackendGone
| ResumeIneffective | Stopping | Unrecorded.
End AgentVmReason.

Module Reported.
Record t := mk {
  phase : ReportedPhase.t;
  reason : option AgentVmReason.t;
  message : option string }.
Definition settled (p : ReportedPhase.t) : t := mk p None None.
Definition because (p : ReportedPhase.t) (r : AgentVmReason.t) (m : option string) : t :=
  mk p (Some r) m.
End Reported.

Definition quarantine_reason (marker : string) : AgentVmReason.t :=
  if String.eqb marker BACKEND_DIED_REASON then AgentVmReason.BackendGone
  else if String.eqb marker RESUME_INEFFECTIVE_REASON then AgentVmReason.ResumeIneffective
  else AgentVmReason.Unrecorded.

Definition RECEIVE_FAILED_REASON : string :=
  "the guest did not arrive; this node is giving back the vmm, the disks and the taps it made for it, and the vm is still running where it was".

Definition STOPPING_REASON : string :=
  "the intent for this vm is gone and this node has not finished taking it apart; its vmm and its disks may still be here".

Definition retrying (failures : N) : string :=
  show_N failures +:+ " failed reconcile attempt(s), retrying with backoff".

Definition building (failures : N) (last_error : option string) : Reported.t :=
  if (failures =? 0)%N
  then Reported.because ReportedPhase.Provisioning AgentVmReason.Working None
  else Reported.because ReportedPhase.Provisioning AgentVmReason.Backoff
         (option_map (fun said => retrying failures +:+ ": " +:+ said) last_error).

Definition report_status (r : VmRecord.t) (obs : Observed.t) (failures : N)
    (last_error : option string) : Reported.t :=
  match unhealthy r with
  | Some marker =>
      Reported.because ReportedPhase.Quarantined (quarantine_reason marker) (Some marker)
  | None =>
  if bool_decide (desired r = Desired.Stopped) && negb (Observed.vmm_alive obs)
  then Reported.settled ReportedPhase.Stopped
  else match phase r with
  | Phase.Receiving =>
      match Observed.guest obs with
      | Some VmState.Running => Reported.settled ReportedPhase.Running
      | _ =>
          if Observed.receive_failed obs
          then Reported.because ReportedPhase.Failed AgentVmReason.ReceiveFailed
                 (Some RECEIVE_FAILED_REASON)
          else Reported.because ReportedPhase.Provisioning AgentVmReason.AwaitingGuest
                 (Some "waiting for the guest to arrive from another node")
      end
  | Phase.Migrated =>
      Reported.because ReportedPhase.Provisioning AgentVmReason.GuestLeft
        (Some "the guest has left this node; the destination has it")
  | Phase.Provisioned =>
      if negb (Observed.vmm_alive obs) || negb (Observed.socket_responsive obs) then
        if (0 <? failures)%N
        then Reported.because ReportedPhase.Failed AgentVmReason.VmmGone
               (Some (match last_error with
                      | Some said => retrying failures +:+ ": " +:+ said
                      | None => retrying failures
                      end))
        else Reported.because ReportedPhase.Provisioning AgentVmReason.Working None
      else match Observed.guest obs with
           | Some VmState.Running => Reported.settled ReportedPhase.Running
           | Some VmState.Paused => Reported.settled ReportedPhase.Paused
           | Some VmState.Defined | Some VmState.Stopped => Reported.settled ReportedPhase.Stopped
           | None => building failures last_error
           end
  | _ => building failures last_error
  end
  end.

Definition attached_volumes (r : VmRecord.t) : list VolumeId :=
  List.filter (fun id => existsb (fun v => N.eqb (VolumeWithId.id v) id && VolumeWithId.referenced v)
                           (AgentVmSpec.volumes (spec r)))
    (map Volume.id (volumes r)).

Definition reported_nics (r : VmRecord.t) : list (string * string) :=
  filter_map (fun p => match Nic.mac p.2 with
                       | Some mac => Some ("nics[" +:+ show_N (N.of_nat p.1) +:+ "]",
                                           MacAddr.to_string mac)
                       | None => None
                       end) (enumerate (nics r)).

Module DepartureOutcome.
Inductive t := Sending | Unknown | Receiving | Arrived | Gone | StillHere.
End DepartureOutcome.

Module Departure.
Record t := mk {
  migration_id : string;
  peer : string;
  outcome : DepartureOutcome.t;
  message : option string }.
End Departure.

Definition departure_outcome (r : VmRecord.t) (attempt : MigrationAttempt.t)
  : option DepartureOutcome.t :=
  if MigrationAttempt.incoming attempt then
    Some (if bool_decide (phase r = Phase.Provisioned)
          then DepartureOutcome.Arrived else DepartureOutcome.Receiving)
  else if is_some_and Operation.is_out (operation r) then
    Some (if is_some (MigrationAttempt.unknown attempt) || negb (MigrationAttempt.accepted attempt)
          then DepartureOutcome.Unknown else DepartureOutcome.Sending)
  else if is_some (send_failed r) then Some DepartureOutcome.StillHere
  else if bool_decide (phase r = Phase.Migrated) then Some DepartureOutcome.Gone
  else None.

Definition departure (r : VmRecord.t) : option Departure.t :=
  match migration r with
  | None => None
  | Some attempt =>
      match departure_outcome r attempt with
      | None => None
      | Some outcome =>
          Some (Departure.mk (MigrationAttempt.id attempt) (MigrationAttempt.peer attempt) outcome
                  (option_or (MigrationAttempt.unknown attempt) (send_failed r)))
      end
  end.

(** * What the planner may do *)

(** Follow the branches of a decision, turning what each one tested into facts. *)
Ltac plan_cases :=
  unfold plan, plan_stopped, plan_guest;
  repeat (case_match; try done);
  repeat match goal with
         | H : is_some ?o = false |- _ => destruct o eqn:?; [discriminate H | clear H]
         | H : bool_decide _ = true |- _ => apply bool_decide_eq_true_1 in H
         | H : bool_decide _ = false |- _ => apply bool_decide_eq_false_1 in H
         end.

(** The actions that make or move a guest. *)
Definition builds (a : Action.t) : bool :=
  match a with
  | Action.Adopt _ | Action.Provision | Action.Start | Action.Pause | Action.Resume => true
  | _ => false
  end.

(** The actions that end a VMM. *)
Definition ends (a : Action.t) : bool :=
  match a with Action.SignalShutdown | Action.Stop | Action.Teardown => true | _ => false end.

Lemma plan_blocked r obs now o : operation r = Some o -> plan r obs now = Action.Blocked.
Proof. unfold plan. by intros ->. Qed.

Lemma plan_migrated r obs now : phase r = Phase.Migrated -> builds (plan r obs now) = false.
Proof. intros Hp. plan_cases; congruence. Qed.

Lemma plan_licensed r obs now :
  (builds (plan r obs now) = true ->
     operation r = None /\ unhealthy r = None /\ wants_guest (desired r) = true /\
     phase r <> Phase.Receiving /\ phase r <> Phase.Migrated) /\
  (ends (plan r obs now) = true ->
     operation r = None /\
     (desired r = Desired.Absent \/ desired r = Desired.Stopped \/
      (phase r = Phase.Receiving /\ Observed.receive_failed obs = true /\
       Observed.guest obs <> Some VmState.Running))).
Proof.
  split; plan_cases; intros _; (destruct (desired r); try done); naive_solver.
Qed.

(** Automatic repair stays inside its licence.  An action that builds,
    starts, pauses, resumes or adopts a guest is planned only for a VM whose
    intent is to have one, that no operation (a snapshot, a restore, either end of
    a migration) owns, that carries no quarantine mark, and whose guest neither
    left for nor is arriving from another node.  An action that ends a VMM is
    planned only for an explicit intent to stop or remove it, or for a receiver
    whose driver reports that the guest is not coming. *)
Theorem plan_licence r obs now :
  (builds (plan r obs now) = true ->
     operation r = None /\ unhealthy r = None /\ wants_guest (desired r) = true /\
     phase r <> Phase.Receiving /\ phase r <> Phase.Migrated) /\
  (ends (plan r obs now) = true ->
     operation r = None /\
     (desired r = Desired.Absent \/ desired r = Desired.Stopped \/
      (phase r = Phase.Receiving /\ Observed.receive_failed obs = true /\
       Observed.guest obs <> Some VmState.Running))).
Proof. apply plan_licensed. Qed.

(** A VM with nothing to do: the predicate the planner's [None] decides. *)
Definition converged (r : VmRecord.t) (obs : Observed.t) : Prop :=
  operation r = None /\
  ((desired r = Desired.Stopped /\ Observed.vmm_alive obs = false /\
    (phase r <> Phase.Provisioned \/ vmm_pid r = None)) \/
   (unhealthy r = None /\
    (desired r = Desired.Halted \/
     (wants_guest (desired r) = true /\
      ((phase r = Phase.Receiving /\ Observed.guest obs <> Some VmState.Running /\
        Observed.receive_failed obs = false) \/
       phase r = Phase.Migrated \/
       (phase r = Phase.Provisioned /\ Observed.vmm_alive obs = true /\
        Observed.socket_responsive obs = true /\ Observed.tracked obs = true /\
        match Observed.guest obs with
        | None => True
        | Some g => (desired r = Desired.Running /\ g = VmState.Running) \/
                    (desired r = Desired.Paused /\ g = VmState.Paused)
        end)))))).

Lemma plan_none_converged r obs now : plan r obs now = Action.None -> converged r obs.
Proof.
  unfold plan, plan_stopped, plan_guest, converged. destruct (operation r); [done|]. simpl.
  intros H. split; [done|]. destruct (desired r) eqn:Ed; simpl in H; try done.
  2: { left. destruct (Observed.vmm_alive obs); simpl in H.
       { destruct (Observed.guest obs) as [[]|], (stop_deadline r); try done; by case_match. }
       split_and!; try done. destruct (vmm_pid r); [left|by right].
       destruct (bool_decide_reflect (phase r = Phase.Provisioned)); [done|congruence]. }
  all: right; destruct (unhealthy r); [done|]; simpl in H; (split; [done|]); try (by left); right.
  all: split; [done|]; destruct (phase r) eqn:Ep; try done; try (by right; left).
  1,3: right; right; destruct (Observed.vmm_alive obs), (Observed.socket_responsive obs),
         (Observed.tracked obs); simpl in H; try done; try (by destruct (vmm_pid r));
       split_and!; try done; by destruct (Observed.guest obs) as [[]|]; auto.
  all: left; destruct (Observed.guest obs) as [[]|], (Observed.receive_failed obs); by split_and!.
Qed.

Lemma converged_plan_none r obs now : converged r obs -> plan r obs now = Action.None.
Proof.
  unfold plan, plan_stopped, plan_guest.
  intros (-> & [(-> & -> & Hp) | (Hu & [-> | (Hw & H)])]); simpl.
  - destruct Hp as [Hp | ->]; [by rewrite bool_decide_eq_false_2 | by rewrite andb_false_r].
  - by rewrite Hu.
  - rewrite Hu. destruct (desired r) eqn:Ed; try done; simpl;
      destruct H as [(-> & Hg & ->) | [-> | (-> & -> & -> & -> & Hg)]]; simpl;
      destruct (Observed.guest obs) as [[]|]; naive_solver.
Qed.

(** The planner rests exactly on the converged VMs: it answers [None] if
    and only if the VM is stopped and nothing of its VMM is left to clear, or its
    reserved intent asks for nothing, or its guest is with another node, or its
    tracked, responsive VMM shows the guest in the wanted state (or in none it can
    read).  In every other state it names an action, a block or a quarantine. *)
Theorem plan_rests_iff r obs now : plan r obs now = Action.None <-> converged r obs.
Proof. split; [apply plan_none_converged | apply converged_plan_none]. Qed.

(** A stop is bounded by its grace period: with an intent to stop that no
    operation holds back, the power button is pressed only while the guest may still
    react to it and the armed deadline is ahead; from the deadline on, and at
    once for a guest that is paused, defined or already stopped, a live VMM is
    ended. *)
Theorem stop_is_bounded r obs now :
  desired r = Desired.Stopped -> operation r = None -> Observed.vmm_alive obs = true ->
  plan r obs now =
    match Observed.guest obs, stop_deadline r with
    | (Some VmState.Running | None), Some deadline =>
        if (now <? deadline)%Z then Action.SignalShutdown else Action.Stop
    | _, _ => Action.Stop
    end.
Proof.
  intros Hd Ho Ha. unfold plan, plan_stopped. rewrite Ho, Hd, Ha. simpl.
  destruct (Observed.guest obs) as [[]|], (stop_deadline r); done.
Qed.

Lemma stop_is_bounded_witness :
  plan (set_stop_deadline (Some 50%Z) (set_desired Desired.Stopped
          (VmRecord.fresh (AgentVmSpec.mk 1 256 (BootSourceSpec.Firmware "fw") [] [] [] None [])
             Desired.Running false)))
    (Observed.mk true true true true (Some VmState.Running) false) 60%Z = Action.Stop.
Proof. rewrite stop_is_bounded; reflexivity. Defined.

(** ** Deadlines over a sequence of intents *)

(** One [set_desired] as the deadline sees it. *)
Definition intend (s : Desired.t * option Z) (c : Desired.t * option Z) : Desired.t * option Z :=
  (c.1, next_stop_deadline s.1 s.2 c.1 c.2).

(** Repeating a stop never moves its deadline: after any commands that
    leave a VM wanted otherwise, the deadline proposed by the first stop is the
    one that holds, however many stops with whatever proposals follow it; and any
    other intent disarms it. *)
Theorem stop_deadline_first_wins s0 before p stops :
  (fold_left intend before s0).1 <> Desired.Stopped ->
  Forall (fun c => c.1 = Desired.Stopped) stops ->
  fold_left intend (before ++ (Desired.Stopped, p) :: stops) s0 = (Desired.Stopped, p) /\
  (forall d q, d <> Desired.Stopped ->
     fold_left intend (before ++ (Desired.Stopped, p) :: stops ++ [(d, q)]) s0 = (d, None)).
Proof.
  intros Hb Hs.
  assert (H : fold_left intend (before ++ (Desired.Stopped, p) :: stops) s0 = (Desired.Stopped, p)).
  { rewrite fold_left_app. simpl. unfold intend at 2. simpl.
    rewrite bool_decide_eq_false_2 by done.
    induction Hs as [|[d q] stops Hd _ IH]; simpl; [done|]. simpl in Hd. subst d. apply IH. }
  split; [done|]. intros d q Hd.
  change (before ++ (Desired.Stopped, p) :: stops ++ [(d, q)])
    with (before ++ ((Desired.Stopped, p) :: stops) ++ [(d, q)]).
  rewrite app_assoc, fold_left_app, H. unfold intend. simpl. by destruct d.
Qed.

Lemma stop_deadline_first_wins_witness :
  fold_left intend [(Desired.Paused, None); (Desired.Stopped, Some 30%Z); (Desired.Stopped, Some 90%Z)]
    (Desired.Stopped, Some 10%Z) = (Desired.Stopped, Some 30%Z).
Proof.
  exact (proj1 (stop_deadline_first_wins (Desired.Stopped, Some 10%Z) [(Desired.Paused, None)]
                  (Some 30%Z) [(Desired.Stopped, Some 90%Z)] ltac:(done) ltac:(repeat constructor))).
Defined.

(** ** Reports *)

(** What [observe] guarantees: a guest state was read through a tracked,
    responsive VMM. *)
Definition readable (obs : Observed.t) : Prop :=
  Observed.guest obs <> None -> Observed.tracked obs = true /\ Observed.socket_responsive obs = true.

Definition explains_itself (p : ReportedPhase.t) : bool :=
  match p with
  | ReportedPhase.Running | ReportedPhase.Stopped | ReportedPhase.Paused => true
  | _ => false
  end.

(** A report is evidence.  A reason accompanies a phase exactly when the
    phase does not explain itself.  [Running] is reported only for a guest read as
    running under an unquarantined record that is provisioned or receiving, and
    then, if the guest is wanted running and no operation owns the VM, the agent
    itself has nothing left to do but to note an arrival. *)
Theorem report_is_evidence r obs failures said :
  let rep := report_status r obs failures said in
  (Reported.reason rep = None <-> explains_itself (Reported.phase rep) = true) /\
  (Reported.phase rep = ReportedPhase.Running ->
     Observed.guest obs = Some VmState.Running /\ unhealthy r = None /\
     (phase r = Phase.Receiving \/ phase r = Phase.Provisioned) /\
     (readable obs -> desired r = Desired.Running -> operation r = None -> forall now,
        plan r obs now = Action.None \/
        (phase r = Phase.Receiving /\ plan r obs now = Action.Arrived))).
Proof.
  unfold report_status. destruct (unhealthy r) eqn:Eu; [done|].
  destruct (bool_decide (desired r = Desired.Stopped) && negb (Observed.vmm_alive obs)) eqn:Es; [done|].
  unfold building, readable, plan, plan_guest.
  destruct (phase r) eqn:Ep; simpl; try (by destruct (failures =? 0)%N);
    [|destruct (Observed.guest obs) as [[]|] eqn:Eg; simpl; try (by case_match);
      split_and!; try done; intros _; split_and!; auto; intros _ -> ->; rewrite Eu; auto].
  destruct (Observed.vmm_alive obs) eqn:Ea, (Observed.socket_responsive obs) eqn:Er; simpl;
    try (by case_match).
  destruct (Observed.guest obs) as [[]|] eqn:Eg; simpl; try done; [|by destruct (failures =? 0)%N].
  split; [done|]. intros _. split_and!; auto. intros Hr -> -> now. left. rewrite Eu. simpl.
  destruct Hr as [-> _]; done.
Qed.
