(* ===== verification/AgentStore.v ===== *)
(** The agent's local database ([src/components/agent/src/store.rs]) and the
    node conditions it reports into ([conditions.rs]).

    The file is four tables; a row is bytes.  [redb] is not under [src/]: a
    transaction runs against the file, and the surroundings of a run say which
    transactions fail, with which storage error, and whether a failed commit
    reached the file nevertheless.  Reopening succeeds or fails as the
    surroundings say.  [serde_json] and the parser of a UUID are classes with their
    documented laws. *)
From Stdlib Require Import Ascii String NArith ZArith List Bool Lia.
From stdpp Require Import base list strings relations.
From S2P Require Import Prelude RustStr AgentTypes.

(** * Volumes and snapshots on record *)

Module VolumeReason.
Inductive t := Working | DriverRefused | NotOnBackend | Deprovisioned | Unrecorded.
End VolumeReason.

Module VolumeRecordPhase.
Inductive t := Provisioning | Ready | Failed | Gone.
#[global] Instance eq_dec : EqDecision t.
Proof. solve_decision. Defined.
End VolumeRecordPhase.

Module VolumeRecord.
Record t := mk {
  spec : VolumeSpec.t;
  handle : option VolumeHandle.t;
  phase : VolumeRecordPhase.t;
  reason : option VolumeReason.t;
  message : option string;
  gone_at : option Z }.
Definition backend (r : t) : string :=
  unwrap_or EmptyString (option_map VolumeHandle.backend (handle r)).
End VolumeRecord.

Module SnapshotReason.
Inductive t := Working | DriverRefused | Dropped | Unrecorded.
End SnapshotReason.

Module SnapshotRecordPhase.
Inductive t := Creating | Ready | Failed | Gone.
#[global] Instance eq_dec : EqDecision t.
Proof. solve_decision. Defined.
End SnapshotRecordPhase.

Module SnapshotRecord.
Record t := mk {
  volume : VolumeId;
  handle : option VolumeHandle.t;
  driver : string;
  phase : SnapshotRecordPhase.t;
  reason : option SnapshotReason.t;
  message : option string;
  gone_at : option Z }.
Definition backend (r : t) : string :=
  unwrap_or EmptyString (option_map VolumeHandle.backend (handle r)).
Definition size_bytes (r : t) : N := unwrap_or 0%N (option_map VolumeHandle.size_bytes (handle r)).
End SnapshotRecord.

(** * Libraries *)

(** [serde_json::to_vec] and [from_slice] at one type, for the bytes the tables
    hold. *)
Class Codec (Bytes A : Type) := {
  to_vec : A -> result string Bytes;
  from_slice : Bytes -> result string A;
}.

Class CodecLaws (Bytes A : Type) `{!Codec Bytes A} : Prop := {
  from_to : forall (a : A) (b : Bytes), to_vec a = Ok b -> from_slice b = Ok a;
}.

(** [str::parse::<Uuid>]. *)
Class UuidParse := { uuid_of : string -> option Uuid.t }.

Class UuidLaws `{!UuidParse} : Prop := {
  uuid_of_to_string : forall u, (u < 2 ^ 128)%N -> uuid_of (Uuid.to_string u) = Some u;
}.

(** * Storage errors *)

Module StorageErr.
(** What the recovery looks at in an error chain: the closed handle, an I/O
    error (and whether it is a full disk), redb's word for a handle poisoned by an
    earlier one, or anything else. *)
Inductive kind := Closed | Io (no_space : bool) | PreviousIo | Other.
Record t := mk { what : kind; text : string }.

Definition needs_reopen (e : t) : bool :=
  match what e with Closed | Io _ | PreviousIo => true | Other => false end.

Definition out_of_space (e : t) : bool :=
  match what e with Io no_space => no_space | _ => false end.
End StorageErr.

Definition closed : StorageErr.t :=
  StorageErr.mk StorageErr.Closed "the agent database is closed after an i/o error".

Definition plain (text : string) : StorageErr.t := StorageErr.mk StorageErr.Other text.

Definition STORE_UNHEALTHY : string := "StoreUnhealthy".
Definition DISK_PRESSURE : string := "DiskPressure".

(** [Conditions]: the latest message per type. *)
Module Conditions.
Definition t := list (string * string).
Definition raise (kind message : string) (c : t) : t := sinsert kind message c.
Definition clear (kind : string) (c : t) : t := sremove kind c.
End Conditions.

(** * The store *)

Record tables (Bytes : Type) := mk_tables {
  VMS : list (string * Bytes);
  MIGRATIONS : list (string * bool);
  VOLUMES : list (string * Bytes);
  SNAPSHOTS : list (string * Bytes) }.
Arguments mk_tables {Bytes} _ _ _ _.
Arguments VMS {Bytes} _.
Arguments MIGRATIONS {Bytes} _.
Arguments VOLUMES {Bytes} _.
Arguments SNAPSHOTS {Bytes} _.

Record store (Bytes : Type) := mk_store {
  file : tables Bytes;
  opened : bool;
  conditions : Conditions.t;
  reopens : N;
  last_reopen : option Z;
  steps : nat }.
Arguments mk_store {Bytes} _ _ _ _ _ _.
Arguments file {Bytes} _.
Arguments opened {Bytes} _.
Arguments conditions {Bytes} _.
Arguments reopens {Bytes} _.
Arguments last_reopen {Bytes} _.
Arguments steps {Bytes} _.

Section setters.
Context {Bytes : Type}.
Implicit Types (t : tables Bytes) (s : store Bytes).

Definition on_vms f t := mk_tables (f (VMS t)) (MIGRATIONS t) (VOLUMES t) (SNAPSHOTS t).
Definition on_migrations f t := mk_tables (VMS t) (f (MIGRATIONS t)) (VOLUMES t) (SNAPSHOTS t).
Definition on_volumes f t := mk_tables (VMS t) (MIGRATIONS t) (f (VOLUMES t)) (SNAPSHOTS t).
Definition on_snapshots f t := mk_tables (VMS t) (MIGRATIONS t) (VOLUMES t) (f (SNAPSHOTS t)).

Definition set_file (f : tables Bytes) s :=
  mk_store f (opened s) (conditions s) (reopens s) (last_reopen s) (steps s).
Definition set_opened o s :=
  mk_store (file s) o (conditions s) (reopens s) (last_reopen s) (steps s).
Definition set_conditions c s :=
  mk_store (file s) (opened s) c (reopens s) (last_reopen s) (steps s).
Definition set_reopens n s :=
  mk_store (file s) (opened s) (conditions s) n (last_reopen s) (steps s).
Definition set_last_reopen i s :=
  mk_store (file s) (opened s) (conditions s) (reopens s) i (steps s).
Definition stepped s :=
  mk_store (file s) (opened s) (conditions s) (reopens s) (last_reopen s) (S (steps s)).
End setters.

(** What the machine does to a run: the fate of the [n]th access to the file and
    the clock at it. *)
Record disk := mk_disk {
  fault : nat -> option (StorageErr.t * bool);
  reopens_at : nat -> bool;
  clock : nat -> Z }.

Definition store_op (Bytes A : Type) : Type :=
  store Bytes -> store Bytes * result StorageErr.t A.

#[export] Instance store_op_ret {Bytes} : MRet (store_op Bytes) := fun _ a s => (s, Ok a).
#[export] Instance store_op_bind {Bytes} : MBind (store_op Bytes) := fun _ _ k m s =>
  match m s with (s', Ok a) => k a s' | (s', Err e) => (s', Err e) end.

(** An operation on the open file: the changed tables and an answer; an error
    drops the transaction. *)
Abbreviation tx Bytes T := (tables Bytes -> result StorageErr.t (tables Bytes * T)).

Definition REOPEN_COOLDOWN : Z := 2000000000.

Section operations.
Context {Bytes : Type} (path : string) (d : disk).

Definition once {T} (op : tx Bytes T) : store_op Bytes T := fun s =>
  if negb (opened s) then (s, Err closed)
  else match fault d (steps s) with
       | None =>
           match op (file s) with
           | Ok (t, v) => (stepped (set_file t s), Ok v)
           | Err e => (stepped s, Err e)
           end
       | Some (e, landed) =>
           (match op (file s) with
            | Ok (t, _) => if landed then stepped (set_file t s) else stepped s
            | Err _ => stepped s
            end, Err e)
       end.

(** [reopen], with the cooldown between attempts. *)
Definition reopen (s : store Bytes) : store Bytes * bool :=
  let now := clock d (steps s) in
  if is_some_and (fun at_ => (now - at_ <? REOPEN_COOLDOWN)%Z) (last_reopen s)
  then (s, false)
  else let s := set_last_reopen (Some now) s in
       if reopens_at d (steps s)
       then (stepped (set_reopens (reopens s + 1) (set_opened true s)), true)
       else (stepped (set_opened false s), false).

Definition unhealthy (e : StorageErr.t) (s : store Bytes) : store Bytes :=
  let c := conditions s in
  let c := if StorageErr.out_of_space e
           then Conditions.raise DISK_PRESSURE
                  ("no room left on the filesystem holding " +:+ path +:+
                   "; this node cannot write its records or its volumes") c
           else c in
  set_conditions
    (Conditions.raise STORE_UNHEALTHY
       ("the agent database at " +:+ path +:+ " is not writable (" +:+ StorageErr.text e +:+
        "); no command this node is sent can be recorded") c) s.

Definition healthy (s : store Bytes) : store Bytes :=
  set_conditions
    (Conditions.clear DISK_PRESSURE (Conditions.clear STORE_UNHEALTHY (conditions s))) s.

Definition attempt {T} (write : bool) (op : tx Bytes T) : store_op Bytes T := fun s =>
  match once op s with
  | (s, Ok v) => (if write then healthy s else s, Ok v)
  | (s, Err e) =>
      if negb (StorageErr.needs_reopen e) then (s, Err e)
      else match reopen s with
           | (s, false) => (unhealthy e s, Err e)
           | (s, true) =>
               match once op s with
               | (s, Ok v) => (if write then healthy s else s, Ok v)
               | (s, Err again) => (unhealthy again s, Err again)
               end
           end
  end.

Definition reading {T} (f : tables Bytes -> T) : store_op Bytes T := attempt false (fun t => Ok (t, f t)).
Definition writing {T} (op : tx Bytes T) : store_op Bytes T := attempt true op.

(** ** Typed rows *)

Section rows.
Context {A : Type} `{!Codec Bytes A, !UuidParse} (table : tables Bytes -> list (string * Bytes))
  (on_table : (list (string * Bytes) -> list (string * Bytes)) -> tables Bytes -> tables Bytes)
  (noun : string).

(** [put], [put_volume], [put_snapshot]. *)
Definition put_row (id : Uuid.t) (record : A) : store_op Bytes unit :=
  writing (fun t =>
    match to_vec record with
    | Err e => Err (plain ("serializing " +:+ noun +:+ " record: " +:+ e))
    | Ok bytes => Ok (on_table (sinsert (Uuid.to_string id) bytes) t, tt)
    end).

(** [get], [get_volume], [get_snapshot]: an undecodable row reads as absent. *)
Definition get_row (id : Uuid.t) : store_op Bytes (option A) :=
  reading (fun t =>
    match sget (Uuid.to_string id) (table t) with
    | Some bytes => result_ok (from_slice bytes)
    | None => None
    end).

Definition decoded (row : string * Bytes) : option (Uuid.t * A) :=
  match uuid_of row.1, from_slice row.2 with
  | Some id, Ok record => Some (id, record)
  | _, _ => None
  end.

(** [list], [list_volumes], [list_snapshots]: undecodable rows are left out. *)
Definition list_rows : store_op Bytes (list (Uuid.t * A)) :=
  reading (fun t => filter_map decoded (table t)).

Definition delete_row (id : Uuid.t) : store_op Bytes unit :=
  writing (fun t => Ok (on_table (sremove (Uuid.to_string id)) t, tt)).
End rows.

Section vms.
Context `{!Codec Bytes VmRecord.t, !Codec Bytes VolumeRecord.t, !Codec Bytes SnapshotRecord.t, !UuidParse}.

Definition put : VmId -> VmRecord.t -> store_op Bytes unit := put_row on_vms "vm".
Definition get : VmId -> store_op Bytes (option VmRecord.t) := get_row VMS.
Definition list_ : store_op Bytes (list (VmId * VmRecord.t)) := list_rows VMS.
Definition delete : VmId -> store_op Bytes unit := delete_row on_vms.
Definition put_volume : VolumeId -> VolumeRecord.t -> store_op Bytes unit := put_row on_volumes "volume".
Definition get_volume : VolumeId -> store_op Bytes (option VolumeRecord.t) := get_row VOLUMES.
Definition list_volumes : store_op Bytes (list (VolumeId * VolumeRecord.t)) := list_rows VOLUMES.
Definition delete_volume : VolumeId -> store_op Bytes unit := delete_row on_volumes.
Definition put_snapshot : Uuid.t -> SnapshotRecord.t -> store_op Bytes unit :=
  put_row on_snapshots "snapshot".
Definition get_snapshot : Uuid.t -> store_op Bytes (option SnapshotRecord.t) := get_row SNAPSHOTS.
Definition list_snapshots : store_op Bytes (list (Uuid.t * SnapshotRecord.t)) := list_rows SNAPSHOTS.
Definition delete_snapshot : Uuid.t -> store_op Bytes unit := delete_row on_snapshots.

Definition get_raw (id : VmId) : store_op Bytes (option Bytes) :=
  reading (fun t => sget (Uuid.to_string id) (VMS t)).
Definition list_raw : store_op Bytes (list (string * Bytes)) := reading VMS.

(** [VmRow]: a row that cannot be read is present, not absent. *)
Inductive VmRow := Record_ (id : VmId) (record : VmRecord.t) | Unreadable (key : string).

Definition row (id : VmId) : store_op Bytes (option VmRow) :=
  raw ← get_raw id;
  mret (match raw with
        | Some bytes => Some (match from_slice bytes with
                              | Ok record => Record_ id record
                              | Err _ => Unreadable (Uuid.to_string id)
                              end)
        | None => None
        end).

Definition row_of (raw : string * Bytes) : VmRow :=
  match decoded raw with Some (id, record) => Record_ id record | None => Unreadable raw.1 end.

Definition rows : store_op Bytes (list VmRow) :=
  raw ← list_raw; mret (map row_of raw).

Definition mutate (id : VmId) (apply : VmRecord.t -> VmRecord.t) : store_op Bytes (option VmRecord.t) :=
  writing (fun t =>
    match sget (Uuid.to_string id) (VMS t) with
    | None => Ok (t, None)
    | Some bytes =>
        match from_slice bytes with
        | Err e => Err (plain ("corrupt record for vm " +:+ Uuid.to_string id +:+ ": " +:+ e))
        | Ok record =>
            match to_vec (apply record) with
            | Err e => Err (plain ("serializing vm record: " +:+ e))
            | Ok bytes =>
                Ok (on_vms (sinsert (Uuid.to_string id) bytes) t, Some (apply record))
            end
        end
    end).
End vms.

(** The key of a migration receipt. *)
Definition receipt (id : VmId) (attempt_id : string) : string :=
  Uuid.to_string id +:+ "/" +:+ attempt_id.

Definition claim_migration (id : VmId) (attempt_id : string) (cancel : bool) : store_op Bytes bool :=
  if str_is_empty attempt_id
  then fun s => (s, Err (plain "migration requires an operation identity"))
  else writing (fun t =>
    let key := receipt id attempt_id in
    let fresh := negb (is_some (sget key (MIGRATIONS t))) in
    Ok (if fresh || cancel then on_migrations (sinsert key cancel) t else t, fresh)).
End operations.

(** * What a run does to the file *)

Section facts.
Context {Bytes : Type} (path : string) (d : disk).
Implicit Types (s : store Bytes) (t : tables Bytes).

(** [t'] is [t], or what one run of the operation makes of it. *)
Definition maybe_applied {T} (op : tx Bytes T) (t t' : tables Bytes) : Prop :=
  t' = t \/ exists v, op t = Ok (t', v).

Lemma once_ok {T} (op : tx Bytes T) s s' v :
  once d op s = (s', Ok v) -> op (file s) = Ok (file s', v).
Proof.
  unfold once. destruct (opened s); simpl; [|done].
  destruct (fault d _) as [[e l]|]; [done|].
  destruct (op (file s)) as [[t u]|e]; [|done]. by intros [= <- <-].
Qed.

Lemma once_err {T} (op : tx Bytes T) s s' e :
  once d op s = (s', Err e) -> maybe_applied op (file s) (file s').
Proof.
  unfold once, maybe_applied. destruct (opened s); simpl; [|by intros [= <- _]; left].
  destruct (fault d _) as [[f l]|];
    destruct (op (file s)) as [[t u]|f']; try destruct l; intros [= <- _]; eauto.
Qed.

Lemma reopen_file s s' b : reopen d s = (s', b) -> file s' = file s.
Proof. unfold reopen. repeat case_match; by intros [= <- _]. Qed.

(** An answered attempt: the operation ran to its end on the file, possibly after
    a first run that was cut short. *)
Lemma attempt_ok {T} write (op : tx Bytes T) s s' v :
  attempt path d write op s = (s', Ok v) ->
  exists t, maybe_applied op (file s) t /\ op t = Ok (file s', v).
Proof.
  unfold attempt. destruct (once d op s) as [s1 [u|e]] eqn:E1.
  - apply once_ok in E1. intros [= <- ->]. exists (file s). split; [by left|].
    by destruct write.
  - apply once_err in E1. destruct (StorageErr.needs_reopen e); simpl; [|done].
    destruct (reopen d s1) as [s2 [|]] eqn:E2; [|done]. apply reopen_file in E2.
    destruct (once d op s2) as [s3 [u|e3]] eqn:E3; [|done]. apply once_ok in E3.
    intros [= <- ->]. exists (file s1). rewrite <- E2 in *. split; [done|].
    by destruct write.
Qed.

Lemma attempt_err {T} write (op : tx Bytes T) s s' e :
  attempt path d write op s = (s', Err e) ->
  exists t, maybe_applied op (file s) t /\ maybe_applied op t (file s').
Proof.
  unfold attempt. destruct (once d op s) as [s1 [u|e1]] eqn:E1; [done|].
  apply once_err in E1. destruct (StorageErr.needs_reopen e1); simpl.
  2: { intros [= <- _]. exists (file s1). split; [done|by left]. }
  destruct (reopen d s1) as [s2 [|]] eqn:E2; apply reopen_file in E2.
  2: { intros [= <- _]. exists (file s1). split; [done|]. left. simpl. congruence. }
  destruct (once d op s2) as [s3 [u|e3]] eqn:E3; [done|]. apply once_err in E3.
  intros [= <- _]. exists (file s1). rewrite <- E2 in *. done.
Qed.

(** A relation every run of the operation respects is respected by the attempt. *)
Lemma attempt_preserves {T} write (op : tx Bytes T) (R : tables Bytes -> tables Bytes -> Prop)
    `{!Reflexive R, !Transitive R} s s' r :
  (forall t t' v, op t = Ok (t', v) -> R t t') ->
  attempt path d write op s = (s', r) -> R (file s) (file s').
Proof.
  intros Hop H.
  assert (Hm : forall t t', maybe_applied op t t' -> R t t').
  { intros t t' [->|[v Hv]]; [done|by eapply Hop]. }
  destruct r as [v|e].
  - apply attempt_ok in H as (t & Ht & Hv). etrans; [by apply Hm|by eapply Hop].
  - apply attempt_err in H as (t & Ht & Ht'). etrans; by apply Hm.
Qed.

(** C32. An acknowledged write is read back, whatever the disk does: if
    storing a record answered success, and reading it answers at all, the answer is
    that record; and a write that was refused leaves the row as it was or as
    the write would have it, never anything else. *)
Theorem put_get_record `{!Codec Bytes VmRecord.t, !CodecLaws Bytes VmRecord.t} id r s s1 res :
  put path d id r s = (s1, res) ->
  match res with
  | Ok tt => forall s2 x, get path d id s1 = (s2, Ok x) -> x = Some r
  | Err _ =>
      sget (Uuid.to_string id) (VMS (file s1)) = sget (Uuid.to_string id) (VMS (file s))
      \/ exists bytes, to_vec r = Ok bytes /\
           sget (Uuid.to_string id) (VMS (file s1)) = Some bytes
  end.
Proof.
  set (row t := sget (Uuid.to_string id) (VMS t)).
  assert (Hop : forall t t' v,
            (match to_vec r with
             | Err e => Err (plain ("serializing vm record: " +:+ e))
             | Ok bytes => Ok (on_vms (sinsert (Uuid.to_string id) bytes) t, tt)
             end) = Ok (t', v) -> exists bytes, to_vec r = Ok bytes /\ row t' = Some bytes).
  { intros t t' v. destruct (to_vec r) as [bytes|e]; [|done]. intros [= <- _].
    exists bytes. split; [done|]. unfold row. simpl. by apply bt_get_insert_eq; apply _. }
  intros H. destruct res as [[]|e].
  - apply attempt_ok in H as (t & _ & Ht). apply Hop in Ht as (bytes & Hb & Hrow).
    intros s2 x (t2 & Ht2 & [= Ht2' <-])%attempt_ok.
    assert (t2 = file s1) as ->.
    { destruct Ht2 as [->|[v [= ->]]]; done. }
    fold (row (file s1)). rewrite Hrow. by rewrite (from_to _ _ Hb).
  - apply attempt_err in H as (t & Ht & Ht').
    destruct Ht' as [Ht'|[v Hv]]; [|right; by eapply Hop]. rewrite Ht'.
    destruct Ht as [->|[v Hv]]; [by left|right; by eapply Hop].
Qed.

(** ** Migration receipts *)

Definition has_receipt (key : string) t : Prop := is_some (sget key (MIGRATIONS t)) = true.

Definition keeps_receipts t t' : Prop := forall key, has_receipt key t -> has_receipt key t'.

#[local] Instance keeps_receipts_refl : Reflexive keeps_receipts.
Proof. by intros t key. Qed.
#[local] Instance keeps_receipts_trans : Transitive keeps_receipts.
Proof. intros t1 t2 t3 H1 H2 key H. by apply H2, H1. Qed.

Lemma same_receipts t t' : MIGRATIONS t' = MIGRATIONS t -> keeps_receipts t t'.
Proof. intros H key. unfold has_receipt. by rewrite H. Qed.

Lemma insert_receipt key v t : keeps_receipts t (on_migrations (sinsert key v) t).
Proof.
  intros k. unfold has_receipt, sget, sinsert. simpl. destruct (decide (k = key)) as [->|Hne].
  - by rewrite bt_get_insert_eq by apply _.
  - by rewrite bt_get_insert_ne by (apply _ || done).
Qed.

Context `{!Codec Bytes VmRecord.t, !Codec Bytes VolumeRecord.t, !Codec Bytes SnapshotRecord.t}.

(** One call of the store by any task of the agent. *)
Inductive access : store Bytes -> store Bytes -> Prop :=
| access_put id r s : access s (put path d id r s).1
| access_delete id s : access s (delete path d id s).1
| access_mutate id f s : access s (mutate path d id f s).1
| access_put_volume id r s : access s (put_volume path d id r s).1
| access_delete_volume id s : access s (delete_volume path d id s).1
| access_put_snapshot id r s : access s (put_snapshot path d id r s).1
| access_delete_snapshot id s : access s (delete_snapshot path d id s).1
| access_claim id a c s : access s (claim_migration path d id a c s).1
| access_read {T} (f : tables Bytes -> T) s : access s (reading path d f s).1.

Lemma put_row_keeps {A} `{!Codec Bytes A} on_table noun id (r : A) s :
  (forall f t, MIGRATIONS (on_table f t) = MIGRATIONS t) ->
  keeps_receipts (file s) (file (put_row path d on_table noun id r s).1).
Proof.
  intros Hon. destruct (put_row path d on_table noun id r s) as [s' res] eqn:E.
  eapply (attempt_preserves _ _ keeps_receipts); [|exact E].
  intros t t' v. simpl. destruct (to_vec r); [|done]. intros [= <- _]. apply same_receipts, Hon.
Qed.

Lemma delete_row_keeps on_table id s :
  (forall f t, MIGRATIONS (on_table f t) = MIGRATIONS t) ->
  keeps_receipts (file s) (file (delete_row path d on_table id s).1).
Proof.
  intros Hon. destruct (delete_row path d on_table id s) as [s' res] eqn:E.
  eapply (attempt_preserves _ _ keeps_receipts); [|exact E].
  intros t t' v [= <- _]. apply same_receipts, Hon.
Qed.

Lemma claim_keeps id a c s :
  keeps_receipts (file s) (file (claim_migration path d id a c s).1).
Proof.
  destruct (claim_migration path d id a c s) as [s' res] eqn:E. unfold claim_migration in E.
  destruct (str_is_empty a); [by injection E as <- _|].
  eapply (attempt_preserves _ _ keeps_receipts); [|exact E].
  intros t t' v [= <- _]. destruct (_ || c); [apply insert_receipt|done].
Qed.

Lemma access_keeps s s' : access s s' -> keeps_receipts (file s) (file s').
Proof.
  destruct 1; try by (apply put_row_keeps || apply delete_row_keeps || apply claim_keeps).
  - destruct (mutate path d id f s) as [s' res] eqn:E.
    eapply (attempt_preserves _ _ keeps_receipts); [|exact E].
    intros t t' v. simpl. destruct (sget _ _); [|by intros [= <- _]].
    destruct (from_slice _); [|done]. destruct (to_vec _); [|done]. intros [= <- _].
    by apply same_receipts.
  - destruct (reading path d f s) as [s' res] eqn:E.
    eapply (attempt_preserves _ _ keeps_receipts); [|exact E]. by intros t t' v [= <- _].
Qed.

Lemma claim_answered id a c s s' fresh :
  claim_migration path d id a c s = (s', Ok fresh) ->
  has_receipt (receipt id a) (file s') /\ (has_receipt (receipt id a) (file s) -> fresh = false).
Proof.
  unfold claim_migration. destruct (str_is_empty a); [done|].
  intros (t & Ht & [= Hf <-])%attempt_ok.
  assert (Hcl : forall (b : bool) t, keeps_receipts t
                  (if b then on_migrations (sinsert (receipt id a) c) t else t)).
  { intros [] t0; [apply insert_receipt|done]. }
  assert (Hmono : keeps_receipts (file s) t).
  { destruct Ht as [->|[v [= <- _]]]; [done|apply Hcl]. }
  split.
  - rewrite <- Hf. unfold has_receipt.
    destruct (sget (receipt id a) (MIGRATIONS t)) eqn:E; simpl.
    + destruct c; simpl; [|by rewrite E]. unfold sget, sinsert.
      by rewrite bt_get_insert_eq by apply _.
    + unfold sget, sinsert. by rewrite bt_get_insert_eq by apply _.
  - intros H%Hmono. unfold has_receipt in H. by rewrite H.
Qed.

(** A migration attempt is taken at most once on a node.  Once claiming
    it answered yes, to a prepare, to a send or to the cancellation that fences
    them, no later claim of it answers yes again: whatever the agent's tasks do
    to the store in between, through restarts, and whichever of its accesses the
    disk fails, including writes that fail after reaching the file. *)
Theorem claim_migration_once id a c c' s s1 s2 :
  (claim_migration path d id a c s) = (s1, Ok true) -> rtc access s1 s2 ->
  (claim_migration path d id a c' s2).2 <> Ok true.
Proof.
  intros [H1 _]%claim_answered Hrun.
  assert (H2 : has_receipt (receipt id a) (file s2)).
  { clear s. induction Hrun as [|s x y Hx _ IH]; [done|]. by apply IH, (access_keeps _ _ Hx). }
  destruct (claim_migration path d id a c' s2) as [s3 [fresh|e]] eqn:E; simpl; [|done].
  apply claim_answered in E as [_ E]. rewrite (E H2). done.
Qed.

(** ** Recovery *)

Definition sorted_conditions s : Prop := bt_sorted String.compare (conditions s).

Lemma once_steps {T} (op : tx Bytes T) s s' r :
  once d op s = (s', r) ->
  (steps s' <= S (steps s))%nat /\ reopens s' = reopens s /\ conditions s' = conditions s.
Proof.
  unfold once. destruct (opened s); simpl; [|intros [= <- _]; split_and!; lia || done].
  destruct (fault d _) as [[e l]|]; destruct (op (file s)) as [[t u]|e']; try destruct l;
    intros [= <- _]; simpl; split_and!; lia || done.
Qed.

Lemma reopen_steps s s' b :
  reopen d s = (s', b) ->
  (steps s' <= S (steps s))%nat /\ (reopens s' <= reopens s + 1)%N /\ conditions s' = conditions s.
Proof. unfold reopen. repeat case_match; intros [= <- _]; simpl; split_and!; lia || done. Qed.

Lemma healthy_clears s :
  sorted_conditions s ->
  sorted_conditions (healthy s) /\
  sget STORE_UNHEALTHY (conditions (healthy s)) = None /\
  sget DISK_PRESSURE (conditions (healthy s)) = None.
Proof.
  intros Hs. unfold sorted_conditions, healthy, Conditions.clear, sget, sremove in *. simpl.
  assert (H1 : bt_sorted String.compare (bt_remove String.compare STORE_UNHEALTHY (conditions s))).
  { by apply bt_remove_sorted. }
  split_and!.
  - by apply bt_remove_sorted.
  - rewrite bt_get_remove_ne by (apply _ || done). by apply bt_get_remove_eq; [apply _..|].
  - by apply bt_get_remove_eq; [apply _..|].
Qed.

Lemma unhealthy_raises e s :
  is_some (sget STORE_UNHEALTHY (conditions (unhealthy path e s))) = true /\
  (StorageErr.out_of_space e = true ->
     is_some (sget DISK_PRESSURE (conditions (unhealthy path e s))) = true).
Proof.
  unfold unhealthy, Conditions.raise, sget, sinsert. simpl.
  rewrite bt_get_insert_eq by apply _. split; [done|]. intros ->.
  rewrite bt_get_insert_ne by (apply _ || done). by rewrite bt_get_insert_eq by apply _.
Qed.

(** Recovery is bounded and honest.  One call runs its operation at most
    twice around at most one reopening; a write that answers leaves neither store
    condition raised; a call that fails on the disk leaves the store reported
    unhealthy, and the disk reported full when the error says so. *)
Theorem recovery_bounded {T} write (op : tx Bytes T) s s' r :
  sorted_conditions s -> attempt path d write op s = (s', r) ->
  (steps s' <= steps s + 3)%nat /\ (reopens s' <= reopens s + 1)%N /\
  match r with
  | Ok _ =>
      if write then sget STORE_UNHEALTHY (conditions s') = None /\
                    sget DISK_PRESSURE (conditions s') = None
      else conditions s' = conditions s
  | Err e =>
      StorageErr.needs_reopen e = true ->
      is_some (sget STORE_UNHEALTHY (conditions s')) = true /\
      (StorageErr.out_of_space e = true ->
         is_some (sget DISK_PRESSURE (conditions s')) = true)
  end.
Proof.
  intros Hs. unfold attempt. destruct (once d op s) as [s1 [v|e]] eqn:E1;
    apply once_steps in E1 as (H1 & H2 & H3).
  { assert (Hs1 : sorted_conditions s1) by (unfold sorted_conditions; by rewrite H3).
    intros [= <- <-]. destruct write; simpl; split_and!; try lia; [..|done]; by apply healthy_clears. }
  destruct (StorageErr.needs_reopen e) eqn:En; simpl; [|intros [= <- <-]; rewrite En; split_and!; lia || done].
  destruct (reopen d s1) as [s2 b] eqn:E2; apply reopen_steps in E2 as (H4 & H5 & H6).
  destruct b; [|intros [= <- <-]; simpl; split_and!; try lia; intros _; apply unhealthy_raises].
  destruct (once d op s2) as [s3 [v|e3]] eqn:E3; apply once_steps in E3 as (H7 & H8 & H9).
  - assert (Hs3 : sorted_conditions s3) by (unfold sorted_conditions; by rewrite H9, H6, H3).
    intros [= <- <-]. destruct write; simpl; split_and!; try lia; try congruence; by apply healthy_clears.
  - intros [= <- <-]. simpl. split_and!; try lia. intros _. apply unhealthy_raises.
Qed.
End facts.

(** * A store in memory *)

(** Rows held as they are: the simplest codec, with bytes no decoder reads. *)
Inductive mem_bytes :=
| VmBytes (r : VmRecord.t)
| VolumeBytes (r : VolumeRecord.t)
| SnapshotBytes (r : SnapshotRecord.t)
| Garbage.

#[export] Instance mem_vm : Codec mem_bytes VmRecord.t := {
  to_vec r := Ok (VmBytes r);
  from_slice b := match b with VmBytes r => Ok r | _ => Err "expected a vm record" end }.
#[export] Instance mem_volume : Codec mem_bytes VolumeRecord.t := {
  to_vec r := Ok (VolumeBytes r);
  from_slice b := match b with VolumeBytes r => Ok r | _ => Err "expected a volume record" end }.
#[export] Instance mem_snapshot : Codec mem_bytes SnapshotRecord.t := {
  to_vec r := Ok (SnapshotBytes r);
  from_slice b := match b with SnapshotBytes r => Ok r | _ => Err "expected a snapshot record" end }.

#[export] Instance mem_vm_laws : CodecLaws mem_bytes VmRecord.t.
Proof. constructor. by intros a b [= <-]. Qed.
#[export] Instance mem_volume_laws : CodecLaws mem_bytes VolumeRecord.t.
Proof. constructor. by intros a b [= <-]. Qed.

(** A disk that never fails. *)
Definition quiet_disk : disk := mk_disk (fun _ => None) (fun _ => true) (fun n => Z.of_nat n).

(** A disk whose first access fails after reaching the file. *)
Definition flaky_disk : disk :=
  mk_disk (fun n => match n with
                    | O => Some (StorageErr.mk (StorageErr.Io true) "no space left on device", true)
                    | _ => None
                    end) (fun _ => true) (fun n => Z.of_nat n).

Definition empty_store : store mem_bytes :=
  mk_store (mk_tables [] [] [] []) true [] 0 None 0.

Definition a_spec : AgentVmSpec.t :=
  AgentVmSpec.mk 1 256 (BootSourceSpec.Firmware "fw") [] [] [] None [].

Lemma put_get_record_witness :
  (get "db" flaky_disk 7%N (put "db" flaky_disk 7%N (VmRecord.fresh a_spec Desired.Running true)
                            empty_store).1).2
  = Ok (Some (VmRecord.fresh a_spec Desired.Running true)).
Proof.
  destruct (put "db" flaky_disk 7%N (VmRecord.fresh a_spec Desired.Running true) empty_store)
    as [s1 res] eqn:E.
  pose proof (put_get_record "db" flaky_disk 7%N _ _ _ _ E) as H.
  vm_compute in E. injection E as <- <-.
  destruct (get "db" flaky_disk 7%N _) as [s2 [x|e]] eqn:G; [|by vm_compute in G].
  simpl. by rewrite (H _ _ eq_refl).
Defined.

Lemma claim_migration_once_witness :
  let s1 := (claim_migration "db" quiet_disk 7%N "m1" false empty_store).1 in
  (claim_migration "db" quiet_disk 7%N "m1" false empty_store).2 = Ok true /\
  (claim_migration "db" quiet_disk 7%N "m1" true s1).2 <> Ok true.
Proof.
  split; [reflexivity|].
  apply (claim_migration_once "db" quiet_disk 7%N "m1" false true empty_store
           (claim_migration "db" quiet_disk 7%N "m1" false empty_store).1); [reflexivity|].
  apply rtc_refl.
Defined.

Lemma recovery_bounded_witness :
  sget STORE_UNHEALTHY
    (conditions (attempt "db" flaky_disk true (fun t => Ok (t, tt)) empty_store).1) = None.
Proof.
  destruct (attempt "db" flaky_disk true (fun t => Ok (t, tt)) empty_store) as [s' r] eqn:E.
  pose proof (recovery_bounded "db" flaky_disk true (fun t => Ok (t, tt)) empty_store s' r
                ltac:(constructor) E) as (_ & _ & H).
  vm_compute in E. injection E as <- <-. apply H.
Defined.
