(* ===== verification/AgentHost.v ===== *)
(** What the agent asks of the machine: the driver traits of
    [src/shared/agent-api/src] and the registry [Drivers] of
    [src/components/agent/src/drivers.rs].

    A trait object is a record of operations on an abstract host state [H]: a
    call takes the host and returns it changed, with the call's answer.  A node's
    world is its store and its host; an agent operation threads both and fails
    with the text of an [anyhow] error. *)
From Stdlib Require Import Ascii String NArith ZArith List Bool Lia.
From stdpp Require Import base list strings.
From S2P Require Import Prelude RustStr AgentTypes AgentStore.

(** * Driver errors *)

Module HypervisorError.
Inductive t :=
| NotFound (id : VmId)
| InvalidState (id : VmId) (current : VmState.t)
| InvalidSpec (s : string)
| Backend (s : string).

Definition debug_state (s : VmState.t) : string :=
  match s with
  | VmState.Defined => "Defined"
  | VmState.Running => "Running"
  | VmState.Paused => "Paused"
  | VmState.Stopped => "Stopped"
  end.

Definition to_string (e : t) : string :=
  match e with
  | NotFound id => "vm not found: " +:+ Uuid.to_string id
  | InvalidState id current =>
      "invalid state for " +:+ Uuid.to_string id +:+ ": is " +:+ debug_state current
  | InvalidSpec s => "invalid instance spec: " +:+ s
  | Backend s => "hypervisor backend failure: " +:+ s
  end.
End HypervisorError.

Module StorageError.
Inductive t :=
| NotFound (id : VolumeId)
| ImageNotFound (s : string)
| InvalidSpec (s : string)
| BackendDied (s : string)
| Unsupported (s : string)
| Backend (s : string).

Definition to_string (e : t) : string :=
  match e with
  | NotFound id => "volume not found: " +:+ Uuid.to_string id
  | ImageNotFound s => "base image not found: " +:+ s
  | InvalidSpec s => "invalid volume spec: " +:+ s
  | BackendDied s => "storage backend process died: " +:+ s
  | Unsupported s => "this backend cannot do that: " +:+ s
  | Backend s => "storage backend failure: " +:+ s
  end.
End StorageError.

Module NetworkError.
Inductive t :=
| NicNotFound (id : NicId)
| BridgeNotFound (s : string)
| RouterNotFound (id : Uuid.t)
| InvalidSpec (s : string)
| Backend (s : string).

Definition to_string (e : t) : string :=
  match e with
  | NicNotFound id => "nic not found: " +:+ Uuid.to_string id
  | BridgeNotFound s => "bridge not found: " +:+ s
  | RouterNotFound id => "this node holds no router " +:+ Uuid.to_string id
  | InvalidSpec s => "invalid nic spec: " +:+ s
  | Backend s => "network backend failure: " +:+ s
  end.
End NetworkError.

(** * Values handed to the drivers *)

Module ResourceLimits.
Record t := mk {
  memory_max : option N;
  cpu_quota : option N;
  cpuset : option string }.
End ResourceLimits.

(** [hypervisor::BootSource]; paths are resolved. *)
Abbreviation BootSource := BootSourceSpec.t.

Module NicAttachment.
Record t := mk { tap_name : string; mac : MacAddr.t; mtu : option N }.
End NicAttachment.

Module InstanceSpec.
Record t := mk {
  boot : BootSource;
  volumes : list (VolumeId * VolumeAttachment.t);
  vcpus : N;
  memory_mib : N;
  nics : list NicAttachment.t;
  devices : list DeviceAttachment.t;
  cloud_init_seed : option string }.
End InstanceSpec.

(** * The traits *)

Section traits.
Context {H : Type}.

(** A driver call. *)
Definition call (E A : Type) : Type := H -> H * result E A.

Record Pausable := {
  pause : VmId -> call HypervisorError.t unit;
  resume : VmId -> call HypervisorError.t unit }.

Record Migratable := {
  migrate_out : VmId -> string -> call HypervisorError.t unit;
  migrate_in : VmId -> string -> call HypervisorError.t N;
  receive_failed : VmId -> H -> option string;
  send_failed : VmId -> H -> H * option string }.

Record HotPluggable := {
  add_disk : VmId -> VolumeId * VolumeAttachment.t -> call HypervisorError.t unit;
  resize_disk : VmId -> string -> N -> call HypervisorError.t unit;
  remove_disk : VmId -> string -> call HypervisorError.t unit }.

Record Hypervisor := {
  hv_create : VmId -> InstanceSpec.t -> call HypervisorError.t N;
  hv_destroy : VmId -> call HypervisorError.t unit;
  hv_start : VmId -> call HypervisorError.t unit;
  power_button : VmId -> call HypervisorError.t unit;
  get_state : VmId -> call HypervisorError.t VmState.t;
  adopt : VmId -> N -> call HypervisorError.t unit;
  hv_probe : VmId -> H -> H * bool;
  is_tracked : VmId -> H -> bool;
  owns_pid : VmId -> N -> H -> bool;
  strays : list VmId -> H -> H * list VmId;
  end_stray : VmId -> call HypervisorError.t unit;
  as_pausable : option Pausable;
  as_migratable : option Migratable;
  as_hotpluggable : option HotPluggable }.

(** [VolumeProvider] and [VolumeAttacher]. *)
Record VolumeDriver := {
  provision : VolumeId -> VolumeSpec.t -> call StorageError.t VolumeHandle.t;
  deprovision : VolumeHandle.t -> call StorageError.t unit;
  describe : VolumeHandle.t -> call StorageError.t N;
  probe : VolumeId -> VolumeSpec.t -> call StorageError.t (option VolumeHandle.t);
  resize : VolumeHandle.t -> N -> call StorageError.t VolumeHandle.t;
  snapshot : VolumeHandle.t -> Uuid.t -> call StorageError.t VolumeHandle.t;
  drop_snapshot : VolumeHandle.t -> call StorageError.t unit;
  probe_snapshot : option VolumeHandle.t -> Uuid.t -> call StorageError.t (option VolumeHandle.t);
  provision_from : VolumeId -> VolumeHandle.t -> VolumeSpec.t -> call StorageError.t VolumeHandle.t;
  forget : VolumeHandle.t -> call StorageError.t unit;
  attach : VolumeHandle.t -> call StorageError.t VolumeAttachment.t;
  detach : VolumeHandle.t -> VolumeAttachment.t -> call StorageError.t unit }.

Record NicDriver := {
  nic_create : NicId -> NicSpec.t -> call NetworkError.t Nic.t;
  nic_destroy : NicId -> call NetworkError.t unit;
  update_guard : NicId -> NicSpec.t -> call NetworkError.t unit }.

Record BridgeDriver := {
  ensure : string -> call NetworkError.t unit;
  ensure_address : string -> string -> N -> call NetworkError.t unit;
  ensure_overlay : N -> call NetworkError.t string;
  destroy_overlay : N -> option string -> call NetworkError.t unit }.

(** A device driver's errors are only ever printed. *)
Record DeviceDriver := {
  dev_create : DeviceId -> DeviceSpec.t -> call string Device.t;
  dev_destroy : DeviceId -> DeviceAttachment.t -> call string unit;
  dev_admit : list (DeviceId * DeviceSpec.t) -> list (VmId * DeviceId * DeviceSpec.t) -> call string unit }.

(** [ResourceConfiner], by slice name; [attach_pid] is [CgroupHandle]'s. *)
Record ResourceConfiner := {
  create_slice : string -> ResourceLimits.t -> call string unit;
  destroy_slice : string -> call string unit;
  pids_in_slice : string -> H -> result string (list N);
  kill_slice : string -> call string unit;
  attach_pid : string -> N -> call string unit;
  (** [SIGKILL] to a process. *)
  kill_pid : N -> H -> H }.

Record Drivers := {
  confiner : ResourceConfiner;
  hypervisor : option Hypervisor;
  storage : list (string * VolumeDriver);
  networking : option NicDriver;
  bridge : option BridgeDriver;
  devices : list (string * DeviceDriver) }.

Definition get_hypervisor (D : Drivers) : result string Hypervisor :=
  ok_or "this node has no [hypervisor.*] section and so runs no vms; it was asked to run one anyway"
    (hypervisor D).

Definition get_networking (D : Drivers) : result string NicDriver :=
  ok_or "this node has no [network] section and so makes no taps; a vm with a nic cannot run here"
    (networking D).

Definition get_bridge (D : Drivers) : result string BridgeDriver :=
  ok_or "this node has no [network] section and so makes no bridges; a vm with a nic cannot run here"
    (bridge D).
End traits.
Arguments call : clear implicits.
Arguments Pausable : clear implicits.
Arguments Migratable : clear implicits.
Arguments HotPluggable : clear implicits.
Arguments Hypervisor : clear implicits.
Arguments VolumeDriver : clear implicits.
Arguments NicDriver : clear implicits.
Arguments BridgeDriver : clear implicits.
Arguments DeviceDriver : clear implicits.
Arguments ResourceConfiner : clear implicits.
Arguments Drivers : clear implicits.

(** * The node *)

Record node (H Bytes : Type) := mk_node { db : store Bytes; host : H }.
Arguments mk_node {H Bytes} _ _.
Arguments db {H Bytes} _.
Arguments host {H Bytes} _.

Definition agent_m (H Bytes A : Type) : Type := node H Bytes -> node H Bytes * result string A.

#[export] Instance agent_ret {H Bytes} : MRet (agent_m H Bytes) := fun _ a w => (w, Ok a).
#[export] Instance agent_bind {H Bytes} : MBind (agent_m H Bytes) := fun _ _ k m w =>
  match m w with (w', Ok a) => k a w' | (w', Err e) => (w', Err e) end.

Section steps.
Context {H Bytes : Type}.

(** A result that needs neither store nor host. *)
Definition pureM {A} (r : result string A) : agent_m H Bytes A := fun w => (w, r).

Definition bail {A} (e : string) : agent_m H Bytes A := pureM (Err e).

(** A store operation; its error prints as it is. *)
Definition stored {A} (op : store_op Bytes A) : agent_m H Bytes A := fun w =>
  let (s, r) := op (db w) in (mk_node s (host w), map_err StorageErr.text r).

(** A driver call whose error is mapped into the caller's text. *)
Definition driven {E A} (say : E -> string) (c : call H E A) : agent_m H Bytes A := fun w =>
  let (h, r) := c (host w) in (mk_node (db w) h, map_err say r).

(** A driver call whose answer the caller looks at. *)
Definition answered {E A} (c : call H E A) : agent_m H Bytes (result E A) := fun w =>
  let (h, r) := c (host w) in (mk_node (db w) h, Ok r).

(** A step that cannot fail. *)
Definition hosted {A} (f : H -> H * A) : agent_m H Bytes A := fun w =>
  let (h, a) := f (host w) in (mk_node (db w) h, Ok a).

(** [with_context]. *)
Definition within (what : string) (e : string) : string := what +:+ ": " +:+ e.

(** The outcome of a step whose error the caller keeps: it does not end the
    caller. *)
Definition caught {A} (m : agent_m H Bytes A) : agent_m H Bytes (result string A) := fun w =>
  let (w', r) := m w in (w', Ok r).

Fixpoint each {A} (f : A -> agent_m H Bytes unit) (l : list A) : agent_m H Bytes unit :=
  match l with
  | [] => mret tt
  | a :: l' => _ ← f a; each f l'
  end.
End steps.

(** ** Runs *)

Lemma agent_bind_ok {H Bytes A B} (m : agent_m H Bytes A) (k : A -> agent_m H Bytes B) w w' b :
  (m ≫= k) w = (w', Ok b) -> exists w1 a, m w = (w1, Ok a) /\ k a w1 = (w', Ok b).
Proof. unfold mbind, agent_bind. destruct (m w) as [w1 [a|e]]; [eauto|done]. Qed.

Lemma agent_bind_run {H Bytes A B} (m : agent_m H Bytes A) (k : A -> agent_m H Bytes B) w w1 a :
  m w = (w1, Ok a) -> (m ≫= k) w = k a w1.
Proof. unfold mbind, agent_bind. by intros ->. Qed.
