(* ===== verification/AgentDisks.v ===== *)
(** The pure decisions of the provisioner about a VM's disks and NICs: which
    entries of a spec may change while the VM exists, what a re-sent document
    keeps, which inline disk ids an older record lost, which overlays and drivers
    a record names ([src/components/agent/src/provision/volumes.rs], [network.rs],
    [devices.rs] and [mod.rs]). *)
From Stdlib Require Import Ascii String NArith ZArith List Bool Lia.
From stdpp Require Import base list strings.
From S2P Require Import Prelude RustStr Json AgentTypes AgentHost.
Import VolumeWithId.

(** * Disks *)

Definition find_volume (r : VmRecord.t) (v : VolumeId) : option VolumeWithId.t :=
  List.find (fun w => N.eqb (id w) v) (AgentVmSpec.volumes (VmRecord.spec r)).

Definition volume_is_referenced (r : VmRecord.t) (v : VolumeId) : bool :=
  unwrap_or false (option_map referenced (find_volume r v)).

Definition is_pluggable (position : nat) (v : VolumeWithId.t) : bool :=
  Nat.ltb 0 position && referenced v.

Definition fixed_volumes (volumes : list VolumeWithId.t) : list VolumeWithId.t :=
  map snd (List.filter (fun p => negb (is_pluggable p.1 p.2)) (enumerate volumes)).

Definition pluggable_volumes (volumes : list VolumeWithId.t) : list VolumeWithId.t :=
  map snd (List.filter (fun p => is_pluggable p.1 p.2) (enumerate volumes)).

(** Entries of [a] whose id no entry of [b] has. *)
Definition missing_from (a b : list VolumeWithId.t) : list VolumeWithId.t :=
  List.filter (fun x => negb (existsb (fun y => N.eqb (id y) (id x)) b)) a.

(** What to attach and what to detach. *)
Definition volume_diff (held wanted : AgentVmSpec.t)
  : list VolumeWithId.t * list VolumeWithId.t :=
  let h := pluggable_volumes (AgentVmSpec.volumes held) in
  let w := pluggable_volumes (AgentVmSpec.volumes wanted) in
  (missing_from w h, missing_from h w).

Definition describe_fixed (v : VolumeWithId.t) : string :=
  if referenced v then "the volume " +:+ Uuid.to_string (id v) else "an inline disk".

Definition refuse_a_different_fixed_volume (held wanted : VolumeWithId.t) (position : nat)
  : result string unit :=
  match referenced held, referenced wanted with
  | false, false => Ok tt
  | h, w =>
      if h && w && N.eqb (id held) (id wanted) then Ok tt
      else Err ("the fixed disk at position " +:+ show_N (N.of_nat position) +:+ " is " +:+
                describe_fixed held +:+ " here and the spec names " +:+ describe_fixed wanted +:+
                "; the boot disk and inline disks cannot be replaced")
  end.

(** The loop of [volumes_keeping_fixed] from [position] on, over what is left of
    the held fixed entries. *)
Fixpoint keep_fixed (position : nat) (kept wanted : list VolumeWithId.t)
  : result string (list VolumeWithId.t) :=
  match wanted with
  | [] =>
      match kept with
      | [] => Ok []
      | h :: _ =>
          Err ("this node holds the fixed disk " +:+ Uuid.to_string (id h) +:+
               " that the spec no longer names; a boot disk or an inline disk cannot be detached")
      end
  | w :: wanted' =>
      if is_pluggable position w
      then rest ← keep_fixed (S position) kept wanted'; Ok (w :: rest)
      else match kept with
           | [] =>
               Err ("the spec names more fixed disks (the boot disk and inline disks) than this node holds; disk "
                    +:+ Uuid.to_string (id w) +:+ " at position " +:+ show_N (N.of_nat position) +:+
                    " has no counterpart here")
           | h :: kept' =>
               _ ← refuse_a_different_fixed_volume h w position;
               rest ← keep_fixed (S position) kept' wanted'; Ok (h :: rest)
           end
  end.

Definition volumes_keeping_fixed (held wanted : list VolumeWithId.t)
  : result string (list VolumeWithId.t) := keep_fixed 0 (fixed_volumes held) wanted.

(** Positions of the inline entries the VM did not hold on its last run. *)
Definition unheld_inline (r : VmRecord.t) : list nat :=
  map fst (List.filter (fun p =>
    negb (referenced p.2)
    && negb (existsb (fun held => N.eqb (Volume.id held) (id p.2)) (VmRecord.volumes r))
    && negb (existsb (fun h => N.eqb (VolumeHandle.id h) (id p.2)) (VmRecord.unattached_volumes r)))
    (enumerate (AgentVmSpec.volumes (VmRecord.spec r)))).

(** [drifted_inline_ids] once the disks held under ids the record does not name,
    and no volume row has, are known. *)
Definition drifted_inline_ids (r : VmRecord.t) (orphaned : list VolumeId)
  : result string (list (nat * VolumeId)) :=
  if is_nil orphaned then Ok []
  else let unheld := unheld_inline r in
       if negb (Nat.eqb (length unheld) (length orphaned)) then
         Err ("the record names " +:+ show_N (N.of_nat (length unheld)) +:+
              " inline disk(s) this vm did not hold on its last run, and it held " +:+
              show_N (N.of_nat (length orphaned)) +:+ " disk(s) the record no longer names (" +:+
              join ", " (map Uuid.to_string orphaned) +:+
              "); which is which cannot be told, and a start would provision fresh disks from the base image")
       else Ok (combine unheld orphaned).

(** Set the ids at the given positions. *)
Fixpoint set_ids (drifted : list (nat * VolumeId)) (l : list VolumeWithId.t) : list VolumeWithId.t :=
  match drifted with
  | [] => l
  | (position, held) :: drifted' => set_ids drifted' (alter (set_id held) position l)
  end.

Definition BACKEND_OVERHEAD_MIB : N := 512.

(** Unchecked arithmetic of a release build at a width given by its maximum. *)
Definition wrap (max n : N) : N := (n mod (max + 1))%N.

Definition widen_for_storage_backends (base : ResourceLimits.t) (volumes : list Volume.t)
  : option ResourceLimits.t :=
  let backends := N.of_nat (length (List.filter (fun v =>
    is_some (VolumeAttachment.backend_pid (Volume.attachment v))) volumes)) in
  if (backends =? 0)%N then None
  else Some (ResourceLimits.mk
               (option_map (fun bytes =>
                               wrap u64_max (bytes + backends * BACKEND_OVERHEAD_MIB * 1024 * 1024))
                  (ResourceLimits.memory_max base))
               (ResourceLimits.cpu_quota base) (ResourceLimits.cpuset base)).

Definition limits_for (s : AgentVmSpec.t) : ResourceLimits.t :=
  let vmm_overhead_mib := (64 + 8 * AgentVmSpec.vcpus s + 32)%N in
  let device_overhead_mib := (BACKEND_OVERHEAD_MIB * N.of_nat (length (AgentVmSpec.devices s)))%N in
  let vfio_overhead_mib :=
    (if existsb (fun d => match DeviceSpec.partition (DeviceWithId.spec d) with
                          | PartitionSpec.Exclusive => true
                          | PartitionSpec.Mediated => false
                          end) (AgentVmSpec.devices s) then 256 else 0)%N in
  let overhead := (vmm_overhead_mib + device_overhead_mib + vfio_overhead_mib)%N in
  ResourceLimits.mk (Some (wrap u64_max ((AgentVmSpec.memory_mib s + overhead) * 1024 * 1024)))
    (Some (wrap u32_max (AgentVmSpec.vcpus s * 100 + 50))) None.

Definition path_images (s : AgentVmSpec.t) : list string :=
  fold_left (fun out v =>
    match VolumeSpec.base_image (spec v) with
    | None => out
    | Some name =>
        if existsb (fun src => String.eqb (Source.name src) name) (AgentVmSpec.images s) then out
        else if str_in name out then out else out ++ [name]
    end) (AgentVmSpec.volumes s) [].

(** * NICs and devices *)

Definition overlay_vnis (r : VmRecord.t) : list N :=
  dedup N.eqb (sort_by N.compare
    (filter_map (fun n => NicSpec.vxlan_id (NicWithId.spec n)) (AgentVmSpec.nics (VmRecord.spec r)))).

Definition eqb_list {A} (eqb : A -> A -> bool) : list A -> list A -> bool :=
  fix go l1 l2 :=
    match l1, l2 with
    | [], [] => true
    | a :: l1', b :: l2' => eqb a b && go l1' l2'
    | _, _ => false
    end.

Definition eqb_option {A} (eqb : A -> A -> bool) (a b : option A) : bool :=
  match a, b with Some x, Some y => eqb x y | None, None => true | _, _ => false end.

Definition same_addresses (held wanted : NicSpec.t) : bool :=
  eqb_list String.eqb (NicSpec.floating_ips held) (NicSpec.floating_ips wanted)
  && eqb_list String.eqb (NicSpec.routed_subnets held) (NicSpec.routed_subnets wanted).

Definition same_wiring (held wanted : NicSpec.t) : bool :=
  String.eqb (NicSpec.bridge held) (NicSpec.bridge wanted)
  && eqb_list N.eqb (NicSpec.mac held) (NicSpec.mac wanted)
  && eqb_option N.eqb (NicSpec.vxlan_id held) (NicSpec.vxlan_id wanted)
  && eqb_option String.eqb (NicSpec.physnet held) (NicSpec.physnet wanted).

Definition readdressed (held wanted : NicSpec.t) : NicSpec.t :=
  NicSpec.mk (NicSpec.bridge held) (NicSpec.mac held) (NicSpec.vxlan_id held)
    (NicSpec.floating_ips wanted) (NicSpec.routed_subnets wanted) (NicSpec.physnet held).

Definition readdressed_positions (held wanted : list NicWithId.t) : list nat :=
  map fst (List.filter (fun p => negb (same_addresses (NicWithId.spec p.2.1) (NicWithId.spec p.2.2)))
             (enumerate (combine held wanted))).

Definition nics_rewired (held wanted : list NicWithId.t) : bool :=
  negb (Nat.eqb (length held) (length wanted))
  || existsb (fun p => negb (same_wiring (NicWithId.spec p.1) (NicWithId.spec p.2)))
       (combine held wanted).

Definition device_driver_name (r : VmRecord.t) (d : DeviceId) : string :=
  unwrap_or default_device_driver
    (option_map (fun w => DeviceSpec.driver (DeviceWithId.spec w))
       (List.find (fun w => N.eqb (DeviceWithId.id w) d) (AgentVmSpec.devices (VmRecord.spec r)))).

(** * What a re-sent document keeps *)

(** The fixed and the pluggable entries of a list that starts at position [k]. *)
Definition fixed_from (k : nat) (l : list VolumeWithId.t) : list VolumeWithId.t :=
  map snd (List.filter (fun p => negb (is_pluggable p.1 p.2)) (combine (seq k (length l)) l)).
Definition pluggable_from (k : nat) (l : list VolumeWithId.t) : list VolumeWithId.t :=
  map snd (List.filter (fun p => is_pluggable p.1 p.2) (combine (seq k (length l)) l)).

Lemma fixed_from_cons k v l :
  fixed_from k (v :: l) = if is_pluggable k v then fixed_from (S k) l else v :: fixed_from (S k) l.
Proof. unfold fixed_from. simpl. by destruct (is_pluggable k v). Qed.

Lemma pluggable_from_cons k v l :
  pluggable_from k (v :: l) = if is_pluggable k v then v :: pluggable_from (S k) l else pluggable_from (S k) l.
Proof. unfold pluggable_from. simpl. by destruct (is_pluggable k v). Qed.

(** The same disk: both inline, or references to one volume. *)
Definition same_fixed (h w : VolumeWithId.t) : Prop :=
  referenced h = referenced w /\ (referenced h = true -> id h = id w).

Lemma refuse_different_ok h w k :
  refuse_a_different_fixed_volume h w k = Ok tt <-> same_fixed h w.
Proof.
  unfold refuse_a_different_fixed_volume, same_fixed.
  destruct (referenced h), (referenced w); simpl; try (split; [done|naive_solver]).
  destruct (N.eqb_spec (id h) (id w)); split; naive_solver.
Qed.

Lemma same_fixed_pluggable k h w : same_fixed h w -> is_pluggable k h = is_pluggable k w.
Proof. unfold is_pluggable. by intros [-> _]. Qed.

(** A kept list: the entries of [wanted] in their order, each fixed one replaced
    by the held one it pairs with. *)
Lemma keep_fixed_ok k kept wanted out :
  keep_fixed k kept wanted = Ok out ->
  length out = length wanted /\ fixed_from k out = kept /\
  pluggable_from k out = pluggable_from k wanted /\
  Forall2 same_fixed kept (fixed_from k wanted).
Proof.
  revert k kept out. induction wanted as [|w wanted IH]; intros k kept out; simpl.
  { destruct kept; [|done]. by intros [= <-]. }
  rewrite fixed_from_cons, pluggable_from_cons. destruct (is_pluggable k w) eqn:Ep.
  - destruct (keep_fixed (S k) kept wanted) as [rest|] eqn:E; simpl; [|done]. intros [= <-].
    apply IH in E as (H1 & H2 & H3 & H4). rewrite fixed_from_cons, pluggable_from_cons, Ep.
    simpl. by rewrite H1, H3.
  - destruct kept as [|h kept]; [done|].
    destruct (refuse_a_different_fixed_volume h w k) as [[]|] eqn:Er; simpl; [|done].
    apply refuse_different_ok in Er.
    destruct (keep_fixed (S k) kept wanted) as [rest|] eqn:E; simpl; [|done]. intros [= <-].
    apply IH in E as (H1 & H2 & H3 & H4). rewrite fixed_from_cons, pluggable_from_cons.
    rewrite (same_fixed_pluggable k h w Er), Ep. simpl. rewrite H1, H2, H3. auto.
Qed.

Lemma keep_fixed_complete k kept wanted :
  Forall2 same_fixed kept (fixed_from k wanted) -> exists out, keep_fixed k kept wanted = Ok out.
Proof.
  revert k kept. induction wanted as [|w wanted IH]; intros k kept; simpl.
  { inversion 1. eauto. }
  rewrite fixed_from_cons. destruct (is_pluggable k w) eqn:Ep.
  - intros H. destruct (IH _ _ H) as [rest ->]. simpl. eauto.
  - inversion 1 as [|h ? kept' ? Hs Hk]; subst. apply (refuse_different_ok h w k) in Hs.
    rewrite Hs. simpl. destruct (IH _ _ Hk) as [rest ->]. simpl. eauto.
Qed.

(** A changed volume list keeps every disk the guest cannot lose.  The
    record's new list is granted exactly when the boot disk and the inline disks of
    the two lists pair up in order, as inline disks or as references to one volume;
    it then has the order and the pluggable references of the wanted list, and
    its fixed entries are the held ones, ids and specs untouched. *)
Theorem volumes_keeping_fixed_exact held wanted :
  match volumes_keeping_fixed held wanted with
  | Ok out =>
      Forall2 same_fixed (fixed_volumes held) (fixed_volumes wanted) /\
      length out = length wanted /\ fixed_volumes out = fixed_volumes held /\
      pluggable_volumes out = pluggable_volumes wanted
  | Err _ => ~ Forall2 same_fixed (fixed_volumes held) (fixed_volumes wanted)
  end.
Proof.
  unfold volumes_keeping_fixed.
  destruct (keep_fixed 0 (fixed_volumes held) wanted) as [out|e] eqn:E.
  - apply keep_fixed_ok in E as (H1 & H2 & H3 & H4). done.
  - intros H. destruct (keep_fixed_complete 0 _ wanted H) as [out Ho]. congruence.
Qed.

(** ** Two conversions of one document *)

(** Entries of two conversions: references are equal, inline disks are inline. *)
Definition same_source (h w : VolumeWithId.t) : Prop :=
  referenced h = referenced w /\ (referenced h = true -> h = w).

Lemma conversions_agree v4 v4' parse l n n' r r' :
  volumes_with_ids v4 parse n l = Ok r -> volumes_with_ids v4' parse n' l = Ok r' ->
  Forall2 same_source r.2 r'.2.
Proof.
  revert n n' r r'. induction l as [|v l IH]; intros n n' r r' H H'.
  { injection H as <-. injection H' as <-. constructor. }
  apply volumes_with_ids_cons in H as (m & w & rest & -> & Hr & Hw).
  apply volumes_with_ids_cons in H' as (m' & w' & rest' & -> & Hr' & Hw').
  constructor; [|by eapply IH]. destruct (NewVolume.volume v).
  - destruct Hw as (-> & i & Hi & ->), Hw' as (-> & i' & Hi' & ->).
    rewrite Hi in Hi'. injection Hi' as <-. done.
  - destruct Hw as [-> ->], Hw' as [-> ->]. done.
Qed.

Lemma keep_fixed_same_source k held wanted :
  Forall2 same_source held wanted -> keep_fixed k (fixed_from k held) wanted = Ok held.
Proof.
  intros H. revert k. induction H as [|h w held wanted [Hr Hw] _ IH]; intros k; simpl; [done|].
  rewrite fixed_from_cons. unfold is_pluggable. rewrite <- Hr.
  destruct (Nat.ltb 0 k && referenced h) eqn:Ep.
  - rewrite IH. simpl. apply andb_true_iff in Ep as [_ Ep]. by rewrite Hw.
  - assert (refuse_a_different_fixed_volume h w k = Ok tt) as ->.
    { apply refuse_different_ok. split; [done|]. intros Href. by rewrite Hw. }
    simpl. by rewrite IH.
Qed.

Lemma missing_from_self l : missing_from l l = [].
Proof.
  unfold missing_from. destruct (List.filter _ l) as [|x l'] eqn:E; [done|].
  assert (Hx : In x (x :: l')) by (by left). rewrite <- E in Hx.
  apply filter_In in Hx as [Hin Hx]. apply negb_true_iff in Hx.
  pose proof (proj1 (existsb_false _ _) Hx x Hin) as Hf. simpl in Hf. by rewrite N.eqb_refl in Hf.
Qed.

(** Re-sending a VM's create document never costs it a disk.  Every
    conversion of a document rolls fresh ids for the inline disks; whatever ids a
    later conversion rolled, the list the record keeps is the record's own, so the
    guest goes on booting the disk it has, and the difference between the two asks
    for no disk to be plugged or unplugged. *)
Theorem resent_document_keeps_disks v4 v4' parse doc n n' held wanted (h w : AgentVmSpec.t) :
  volumes_with_ids v4 parse n doc = Ok held -> volumes_with_ids v4' parse n' doc = Ok wanted ->
  AgentVmSpec.volumes h = held.2 -> AgentVmSpec.volumes w = wanted.2 ->
  volumes_keeping_fixed (AgentVmSpec.volumes h) (AgentVmSpec.volumes w) = Ok (AgentVmSpec.volumes h)
  /\ volume_diff h w = ([], []).
Proof.
  intros H H' Hh Hw. rewrite Hh, Hw. pose proof (conversions_agree _ _ _ _ _ _ _ _ H H') as Hs.
  split; [by apply keep_fixed_same_source|].
  assert (Hp : forall k, pluggable_from k held.2 = pluggable_from k wanted.2).
  { clear -Hs. induction Hs as [|x y l l' [Hr Hx] _ IH]; intros k; [done|].
    rewrite !pluggable_from_cons. unfold is_pluggable. rewrite <- Hr.
    destruct (Nat.ltb 0 k && referenced x) eqn:Ep; [|apply IH].
    apply andb_true_iff in Ep as [_ Ep]. by rewrite (Hx Ep), IH. }
  unfold volume_diff. rewrite Hh, Hw. specialize (Hp 0%nat).
  change (pluggable_volumes held.2) with (pluggable_from 0 held.2).
  change (pluggable_volumes wanted.2) with (pluggable_from 0 wanted.2). rewrite Hp.
  by rewrite !missing_from_self.
Qed.

Definition a_document : list NewVolume.t :=
  [NewVolume.mk None (Some "debian.raw") None None None 10 None None;
   NewVolume.mk (Some "9") None None None None 0 None None;
   NewVolume.mk None None None None None 5 (Some "lvm-thin") None].

Lemma resent_document_keeps_disks_witness :
  volumes_keeping_fixed
    [mk 100%N (VolumeSpec.mk (Some "debian.raw") 10 None None) false;
     mk 9%N (VolumeSpec.mk None 0 None None) true;
     mk 101%N (VolumeSpec.mk None 5 (Some "lvm-thin") None) false]
    [mk 200%N (VolumeSpec.mk (Some "debian.raw") 10 None None) false;
     mk 9%N (VolumeSpec.mk None 0 None None) true;
     mk 201%N (VolumeSpec.mk None 5 (Some "lvm-thin") None) false]
  = Ok [mk 100%N (VolumeSpec.mk (Some "debian.raw") 10 None None) false;
        mk 9%N (VolumeSpec.mk None 0 None None) true;
        mk 101%N (VolumeSpec.mk None 5 (Some "lvm-thin") None) false].
Proof.
  set (sp vs := AgentVmSpec.mk 1 256 (BootSourceSpec.Firmware "fw") vs [] [] None []).
  exact (proj1 (resent_document_keeps_disks (fun n => 100 + N.of_nat n)%N (fun n => 200 + N.of_nat n)%N
                  (fun s => ok_or "not a uid" (parse_unsigned u64_max s)) a_document 0 0 _ _
                  (sp _) (sp _) eq_refl eq_refl eq_refl eq_refl)).
Defined.

(** ** Cgroup limits *)

(** The memory and CPU limits of a VM's slice are exact as long as the
    arithmetic fits its width: below 42,949,673 vCPUs and while the sum of guest
    memory and overheads stays below 2^44 MiB, the slice is given the guest's
    memory plus 96 MiB, 8 MiB a vCPU, 512 MiB a device and 256 MiB for a
    passed-through one, hence more than the guest's own memory; and adding storage
    backends never lowers a limit that does not overflow. *)
Theorem limits_cover_the_guest s :
  (AgentVmSpec.vcpus s <= 42949672)%N ->
  (AgentVmSpec.memory_mib s + 8 * AgentVmSpec.vcpus s
     + 512 * N.of_nat (length (AgentVmSpec.devices s)) + 352 < 2 ^ 44)%N ->
  ResourceLimits.cpu_quota (limits_for s) = Some (AgentVmSpec.vcpus s * 100 + 50)%N /\
  exists bytes,
    ResourceLimits.memory_max (limits_for s) = Some bytes /\
    (AgentVmSpec.memory_mib s * 1048576 + (96 + 8 * AgentVmSpec.vcpus s) * 1048576 <= bytes)%N /\
    forall volumes widened,
      widen_for_storage_backends (limits_for s) volumes = Some widened ->
      (bytes + N.of_nat (length volumes) * 536870912 <= u64_max)%N ->
      exists more, ResourceLimits.memory_max widened = Some more /\ (bytes < more)%N.
Proof.
  intros Hv Hm. unfold limits_for, wrap, BACKEND_OVERHEAD_MIB, u32_max, u64_max. simpl.
  set (vfio := if existsb _ _ then 256%N else 0%N).
  assert (Hx : (vfio <= 256)%N) by (unfold vfio; case_match; lia).
  split; [f_equal; apply N.mod_small; lia|].
  change (2 ^ 44)%N with 17592186044416%N in Hm.
  rewrite N.mod_small by lia. eexists. split; [done|]. split; [lia|].
  intros volumes widened. unfold widen_for_storage_backends.
  set (l := List.filter _ volumes).
  destruct (N.eqb_spec (N.of_nat (length l)) 0); [done|]. intros [= <-] Hfit. simpl.
  assert (Hl : (length l <= length volumes)%nat) by apply filter_length_le.
  eexists. split; [done|]. unfold wrap, BACKEND_OVERHEAD_MIB, u64_max.
  rewrite N.mod_small; lia.
Qed.
