(* ===== verification/AgentProvision.v ===== *)
(** Acquiring and releasing a VM's resources: the chain of
    [src/components/agent/src/provision/mod.rs] (volumes, NICs, devices, seed, boot
    or reception), its stop and teardown ([teardown.rs]), and the changes a re-sent
    document makes in place ([volumes.rs], [network.rs]).

    Operations run on the node of [AgentHost].  A function that takes the record by
    mutable reference threads it beside the node, so that its caller sees what
    was acquired before an error.  The image cache and the seed files are
    arguments: downloads and file writes. *)
From Stdlib Require Import Ascii String NArith ZArith List Bool Lia.
From stdpp Require Import base list strings.
From S2P Require Import Prelude RustStr Json AgentTypes AgentStore AgentHost AgentDisks.

(** [images::Cache] and the cloud-init seed, as the provisioner calls them. *)
Record Files (H : Type) := {
  ensure_image : Source.t -> call H string unit;
  verify_path : string -> H -> H;
  seed_file : VmId -> string;
  write_seed : VmId -> CloudInit.t -> call H string unit;
  remove_seed : VmId -> H -> H;
  join_path : string -> string -> string }.
Arguments ensure_image {H} _ _ _.
Arguments verify_path {H} _ _ _.
Arguments seed_file {H} _ _.
Arguments write_seed {H} _ _ _ _.
Arguments remove_seed {H} _ _ _.
Arguments join_path {H} _ _ _.

(** The settings a provisioner is built with. *)
Record settings := {
  image_dir : string;
  default_bridge : string;
  bridge_addr : option (string * N);
  cpuset : option string }.

(** ** Threading the record *)

Definition chain_m (H Bytes A : Type) : Type :=
  VmRecord.t * node H Bytes -> (VmRecord.t * node H Bytes) * result string A.

#[export] Instance chain_ret {H Bytes} : MRet (chain_m H Bytes) := fun _ a rw => (rw, Ok a).
#[export] Instance chain_bind {H Bytes} : MBind (chain_m H Bytes) := fun _ _ k m rw =>
  match m rw with (rw', Ok a) => k a rw' | (rw', Err e) => (rw', Err e) end.

Section provisioner.
Context {H Bytes : Type} `{!Codec Bytes VmRecord.t, !Codec Bytes VolumeRecord.t, !UuidParse}.
Context (path : string) (d : disk) (D : Drivers H) (F : Files H) (cfg : settings).

Abbreviation M := (agent_m H Bytes).
Abbreviation C := (chain_m H Bytes).

Definition on_node {A} (m : M A) : C A := fun rw =>
  let (w, a) := m rw.2 in ((rw.1, w), a).
Definition the_record : C VmRecord.t := fun rw => (rw, Ok rw.1).
Definition change (f : VmRecord.t -> VmRecord.t) : C unit := fun rw => ((f rw.1, rw.2), Ok tt).
(** [self.store.put(id, record)?]. *)
Definition save (id : VmId) : C unit := fun rw =>
  let (w, a) := stored (put path d id rw.1) rw.2 in ((rw.1, w), a).

(** Run a step on a record; the caller gets the record back with the outcome. *)
Definition with_record {A} (r : VmRecord.t) (m : C A) : M (VmRecord.t * result string A) := fun w =>
  let '((r', w'), a) := m (r, w) in (w', Ok (r', a)).

Fixpoint each_c {A} (f : A -> C unit) (l : list A) : C unit :=
  match l with
  | [] => mret tt
  | a :: l' => _ ← f a; each_c f l'
  end.

Definition say_storage : StorageError.t -> string := StorageError.to_string.
Definition say_network : NetworkError.t -> string := NetworkError.to_string.
Definition say_hypervisor : HypervisorError.t -> string := HypervisorError.to_string.

(** ** Volumes *)

(** [Provisioner::storage]. *)
Definition storage_driver (name : string) : M (VolumeDriver H) :=
  pureM (ok_or ("vm spec requests volume driver " +:+ debug name +:+
                " which is not configured on this node") (sget name (storage D))).

(** [volume_driver_name]: a read error counts as no row. *)
Definition volume_driver_name (r : VmRecord.t) (id : VolumeId) : M string :=
  own ← (if volume_is_referenced r id then
           found ← caught (stored (get_volume path d id));
           mret (match found with
                 | Ok (Some v) => VolumeSpec.driver (VolumeRecord.spec v)
                 | _ => None
                 end)
         else mret None);
  mret (match own with
        | Some driver => driver
        | None => unwrap_or default_volume_driver
                    (find_volume r id ≫= fun v => VolumeSpec.driver (VolumeWithId.spec v))
        end).

(** The disks a record holds under ids it does not name and no volume row has. *)
Fixpoint orphaned_disks (r : VmRecord.t) (held : list VolumeId) : M (list VolumeId) :=
  match held with
  | [] => mret []
  | v :: held' =>
      drop ← (if is_some (find_volume r v) then mret true
              else row ← stored (get_volume path d v); mret (is_some row));
      rest ← orphaned_disks r held';
      mret (if (drop : bool) then rest else v :: rest)
  end.

Definition restore_drifted_inline_ids (id : VmId) (r : VmRecord.t) : M VmRecord.t :=
  let blame := within ("vm " +:+ Uuid.to_string id +:+ " cannot be started on its own disks") in
  orphaned ← caught (orphaned_disks r (map Volume.id (VmRecord.volumes r)));
  orphaned ← pureM (map_err blame orphaned);
  drifted ← pureM (map_err blame (drifted_inline_ids r orphaned));
  mret (VmRecord.set_spec
          (AgentVmSpec.set_volumes (set_ids drifted (AgentVmSpec.volumes (VmRecord.spec r)))
             (VmRecord.spec r)) r).

Definition reference (id : VolumeId) (attach_params : option value)
  : M (string * VolumeHandle.t) :=
  record ← stored (get_volume path d id);
  record ← pureM (ok_or ("this node has no record of volume " +:+ Uuid.to_string id) record);
  handle ← pureM (ok_or ("volume " +:+ Uuid.to_string id +:+
                         " is known here but has not been provisioned")
                    (VolumeRecord.handle record));
  mret (spec_driver (VolumeRecord.spec record),
        if is_some attach_params then VolumeHandle.set_params attach_params handle else handle).

Definition with_handle (v : VolumeId) (h : VolumeHandle.t) : bool := N.eqb (VolumeHandle.id h) v.

(** One volume of the chain: provisioned or referenced, then attached. *)
Definition attach_volume (id : VmId) (v : VolumeWithId.t) : C unit :=
  let vid := VolumeWithId.id v in
  dh ← (if VolumeWithId.referenced v
        then on_node (reference vid (VolumeSpec.params (VolumeWithId.spec v)))
        else
          let name := spec_driver (VolumeWithId.spec v) in
          r ← the_record;
          match List.find (with_handle vid) (VmRecord.unattached_volumes r) with
          | Some handle => mret (name, handle)
          | None =>
              driver ← on_node (storage_driver name);
              handle ← on_node (driven (fun e => within ("provisioning volume " +:+
                         Uuid.to_string vid +:+ " via " +:+ name) (say_storage e))
                         (provision driver vid (VolumeWithId.spec v)));
              _ ← change (fun r => VmRecord.set_unattached (VmRecord.unattached_volumes r ++ [handle]) r);
              _ ← save id;
              mret (name, handle)
          end);
  driver ← on_node (storage_driver dh.1);
  attachment ← on_node (driven (fun e => within ("attaching volume " +:+ Uuid.to_string vid +:+
                          " via " +:+ dh.1) (say_storage e)) (attach driver dh.2));
  _ ← change (fun r =>
        VmRecord.set_unattached (List.filter (fun h => negb (with_handle vid h)) (VmRecord.unattached_volumes r))
          (VmRecord.set_volumes (VmRecord.volumes r ++ [Volume.attached dh.2 attachment]) r));
  save id.

Definition attach_volumes (id : VmId) (s : AgentVmSpec.t) : C unit :=
  _ ← each_c (attach_volume id) (AgentVmSpec.volumes s);
  _ ← change (VmRecord.set_phase Phase.VolumesDone);
  save id.

(** One inline disk without an attachment: its bytes are found and released. *)
Definition reclaim_one (id : VmId) (r : VmRecord.t) (v : VolumeWithId.t) : M unit :=
  let vid := VolumeWithId.id v in
  driver ← storage_driver (spec_driver (VolumeWithId.spec v));
  handle ← match List.find (with_handle vid) (VmRecord.unattached_volumes r) with
           | Some handle => mret (Some handle)
           | None =>
               found ← driven say_storage (probe driver vid (VolumeWithId.spec v));
               match found with
               | Some handle =>
                   _ ← stored (mutate path d id (fun r =>
                         VmRecord.set_unattached (VmRecord.unattached_volumes r ++ [handle]) r));
                   mret (Some handle)
               | None => mret None
               end
           end;
  match handle with
  | None => mret tt
  | Some handle =>
      _ ← driven say_storage (deprovision driver handle);
      _ ← stored (mutate path d id (fun r =>
            VmRecord.set_unattached
              (List.filter (fun h => negb (with_handle vid h)) (VmRecord.unattached_volumes r)) r));
      mret tt
  end.

(** Steps of a teardown: each appends what failed and goes on. *)
Definition tolerant (what : string -> string) (m : M unit) : M (list string) :=
  r ← caught m;
  mret (match r with Ok _ => [] | Err e => [what e] end).

Fixpoint gather {A} (f : A -> M (list string)) (l : list A) : M (list string) :=
  match l with
  | [] => mret []
  | a :: l' => x ← f a; rest ← gather f l'; mret (x ++ rest)
  end.

Definition reclaim_unattached_volumes (id : VmId) (r : VmRecord.t) : M (list string) :=
  gather (fun v =>
    if VolumeWithId.referenced v
       || existsb (fun held => N.eqb (Volume.id held) (VolumeWithId.id v)) (VmRecord.volumes r)
    then mret []
    else tolerant (fun e => "unattached volume " +:+ Uuid.to_string (VolumeWithId.id v) +:+ ": " +:+ e)
           (reclaim_one id r v)) (AgentVmSpec.volumes (VmRecord.spec r)).

(** Detach the given attachments through the drivers named beside them; the ones
    that succeed are marked. *)
Fixpoint detach_marking (skip_detached : bool) (l : list (Volume.t * string)) : M (list Volume.t) :=
  match l with
  | [] => mret []
  | (v, name) :: l' =>
      v' ← (if skip_detached && Volume.detached v then mret v
            else match sget name (storage D) with
                 | None => mret v
                 | Some driver =>
                     r ← caught (driven say_storage
                                   (detach driver (Volume.handle v) (Volume.attachment v)));
                     mret (match r with Ok _ => Volume.set_detached v | Err _ => v end)
                 end);
      rest ← detach_marking skip_detached l';
      mret (v' :: rest)
  end.

Fixpoint driver_names (r : VmRecord.t) (l : list Volume.t) : M (list string) :=
  match l with
  | [] => mret []
  | v :: l' => n ← volume_driver_name r (Volume.id v); rest ← driver_names r l'; mret (n :: rest)
  end.

Definition detach_volumes (r : VmRecord.t) : M VmRecord.t :=
  names ← driver_names r (VmRecord.volumes r);
  vs ← detach_marking true (combine (VmRecord.volumes r) names);
  mret (VmRecord.set_volumes vs r).

(** ** Changing the disks of an existing VM *)

Definition disk_id (v : VolumeId) : string := "disk-" +:+ Uuid.to_string v.

Fixpoint remove_first {A} (p : A -> bool) (l : list A) : list A :=
  match l with
  | [] => []
  | a :: l' => if p a then l' else a :: remove_first p l'
  end.

Definition holds_volume (v : VolumeId) (held : Volume.t) : bool := N.eqb (Volume.id held) v.

(** One reference the document no longer names. *)
Definition detach_one (id : VmId) (plug : option (HotPluggable H)) (v : VolumeWithId.t) : C unit :=
  let vid := VolumeWithId.id v in
  r ← the_record;
  match List.find (holds_volume vid) (VmRecord.volumes r) with
  | None => mret tt
  | Some held =>
      let name := spec_driver (VolumeWithId.spec v) in
      driver ← on_node (storage_driver name);
      _ ← match plug with
          | Some plug =>
              on_node (driven (fun e => within ("unplugging volume " +:+ Uuid.to_string vid +:+
                                                " from the guest") (say_hypervisor e))
                         (remove_disk plug id (disk_id vid)))
          | None => mret tt
          end;
      _ ← change (fun r => VmRecord.set_volumes (remove_first (holds_volume vid) (VmRecord.volumes r)) r);
      on_node (driven (fun e => within ("detaching volume " +:+ Uuid.to_string vid +:+ " via " +:+ name)
                                  (say_storage e))
                 (detach driver (Volume.handle held) (Volume.attachment held)))
  end.

(** One reference the document adds. *)
Definition attach_one (id : VmId) (plug : option (HotPluggable H)) (v : VolumeWithId.t) : C unit :=
  let vid := VolumeWithId.id v in
  dh ← on_node (reference vid (VolumeSpec.params (VolumeWithId.spec v)));
  driver ← on_node (storage_driver dh.1);
  attachment ← on_node (driven (fun e => within ("attaching volume " +:+ Uuid.to_string vid +:+
                          " via " +:+ dh.1) (say_storage e)) (attach driver dh.2));
  _ ← match plug with
      | Some plug =>
          on_node (driven (fun e => within ("plugging volume " +:+ Uuid.to_string vid +:+
                                            " into the guest") (say_hypervisor e))
                     (add_disk plug id (VolumeHandle.id dh.2, attachment)))
      | None => mret tt
      end;
  change (fun r => VmRecord.set_volumes (VmRecord.volumes r ++ [Volume.attached dh.2 attachment]) r).

Definition apply_volume_diff (id : VmId) (wanted : AgentVmSpec.t) : C unit :=
  r ← the_record;
  let (to_attach, to_detach) := volume_diff (VmRecord.spec r) wanted in
  if is_nil to_attach && is_nil to_detach then mret tt
  else
    volumes ← on_node (pureM (map_err (within ("vm " +:+ Uuid.to_string id +:+
                 ": the spec's volumes do not match this node's"))
                 (volumes_keeping_fixed (AgentVmSpec.volumes (VmRecord.spec r))
                    (AgentVmSpec.volumes wanted))));
    hv ← on_node (pureM (get_hypervisor D));
    h ← on_node (hosted (fun h => (h, h)));
    let live := is_some (VmRecord.vmm_pid r) && is_tracked hv id h in
    if live && negb (is_some (as_hotpluggable hv)) then
      on_node (bail "this node's hypervisor cannot plug a disk into a running vm; stop the vm and start it again to pick the change up")
    else
      let plug := if live then as_hotpluggable hv else None in
      _ ← each_c (detach_one id plug) to_detach;
      _ ← each_c (attach_one id plug) to_attach;
      change (fun r => VmRecord.set_spec (AgentVmSpec.set_volumes volumes (VmRecord.spec r)) r).

Definition sync_volumes (id : VmId) (wanted : AgentVmSpec.t) : M unit :=
  found ← stored (get path d id);
  match found with
  | None => mret tt
  | Some r =>
      done ← with_record r (apply_volume_diff id wanted);
      _ ← pureM done.2;
      stored (put path d id done.1)
  end.

Definition resize_attachment (id : VmId) (v : VolumeId) (size_bytes : N) : M unit :=
  found ← stored (get path d id);
  r ← pureM (ok_or ("this node has no record of vm " +:+ Uuid.to_string id) found);
  if negb (existsb (holds_volume v) (VmRecord.volumes r)) then
    bail ("vm " +:+ Uuid.to_string id +:+ " does not have volume " +:+ Uuid.to_string v +:+
          " attached on this node")
  else
    hv ← pureM (get_hypervisor D);
    h ← hosted (fun h => (h, h));
    if negb (is_some (VmRecord.vmm_pid r)) || negb (is_tracked hv id h) then
      bail ("vm " +:+ Uuid.to_string id +:+
            " is not running here; its guest will see the new size at the next start")
    else
      plug ← pureM (ok_or "this node's hypervisor cannot tell a running guest that a disk grew; stop the vm and start it again to pick the new size up"
                      (as_hotpluggable hv));
      driven (fun e => within ("telling vm " +:+ Uuid.to_string id +:+ " that volume " +:+
                               Uuid.to_string v +:+ " grew") (say_hypervisor e))
        (resize_disk plug id (disk_id v) size_bytes).

(** ** NICs *)

Definition guard (nic : NicId) (s : NicSpec.t) : M unit :=
  driver ← pureM (get_networking D);
  r ← answered (update_guard driver nic s);
  match r with
  | Ok _ => mret tt
  | Err (NetworkError.NicNotFound _) => mret tt
  | Err e => bail (within ("guarding nic " +:+ Uuid.to_string nic +:+ " with the re-sent addresses")
                     (say_network e))
  end.

(** The changed positions in turn: the guard, then the record. *)
Fixpoint readdress (id : VmId) (wanted : list NicWithId.t) (positions : list nat) (r : VmRecord.t)
  : M unit :=
  match positions with
  | [] => mret tt
  | p :: positions' =>
      let nics := AgentVmSpec.nics (VmRecord.spec r) in
      match nics !! p, wanted !! p with
      | Some held, Some w =>
          let s := readdressed (NicWithId.spec held) (NicWithId.spec w) in
          _ ← guard (NicWithId.id held) s;
          let r' := VmRecord.set_spec (AgentVmSpec.set_nics
                      (<[p := NicWithId.mk (NicWithId.id held) s]> nics) (VmRecord.spec r)) r in
          _ ← stored (put path d id r');
          readdress id wanted positions' r'
      | _, _ => readdress id wanted positions' r
      end
  end.

Definition sync_nic_addresses (id : VmId) (wanted : AgentVmSpec.t) : M unit :=
  found ← stored (get path d id);
  match found with
  | None => mret tt
  | Some r =>
      readdress id (AgentVmSpec.nics wanted)
        (readdressed_positions (AgentVmSpec.nics (VmRecord.spec r)) (AgentVmSpec.nics wanted)) r
  end.

Definition sync_in_place (id : VmId) (wanted : AgentVmSpec.t) : M unit :=
  _ ← sync_nic_addresses id wanted; sync_volumes id wanted.

(** The wire of one NIC, then its tap. *)
Definition attach_nic (br : BridgeDriver H) (nd : NicDriver H) (n : NicWithId.t) : C unit :=
  let s := NicWithId.spec n in
  _ ← match NicSpec.vxlan_id s with
      | Some vni =>
          joined ← on_node (driven (fun e => within ("ensuring the overlay for vxlan " +:+ show_N vni)
                                               (say_network e)) (ensure_overlay br vni));
          change (fun r => VmRecord.set_overlay_bridges
                             (bt_insert N.compare vni joined (VmRecord.overlay_bridges r)) r)
      | None =>
          match NicSpec.physnet s with
          | Some _ => mret tt
          | None =>
              _ ← on_node (driven (fun e => within ("ensuring bridge " +:+ NicSpec.bridge s)
                                              (say_network e)) (ensure br (NicSpec.bridge s)));
              match bridge_addr cfg with
              | Some (ip, prefix) =>
                  if String.eqb (NicSpec.bridge s) (default_bridge cfg)
                  then on_node (driven (fun e => within ("assigning " +:+ ip +:+ "/" +:+ show_N prefix +:+
                                  " to bridge " +:+ NicSpec.bridge s) (say_network e))
                                  (ensure_address br (NicSpec.bridge s) ip prefix))
                  else mret tt
              | None => mret tt
              end
          end
      end;
  nic ← on_node (driven (fun e => within ("creating nic " +:+ Uuid.to_string (NicWithId.id n))
                                    (say_network e)) (nic_create nd (NicWithId.id n) s));
  change (fun r => VmRecord.set_nics (VmRecord.nics r ++ [nic]) r).

Definition attach_nics (id : VmId) (s : AgentVmSpec.t) : C unit :=
  _ ← (if is_nil (AgentVmSpec.nics s) then mret tt
       else nd ← on_node (pureM (get_networking D));
            br ← on_node (pureM (get_bridge D));
            each_c (attach_nic br nd) (AgentVmSpec.nics s));
  _ ← change (VmRecord.set_phase Phase.NetworkDone);
  save id.

(** ** Devices *)

(** Requests grouped by driver, in the order the drivers are first named. *)
Definition request_drivers (s : AgentVmSpec.t) : list string :=
  fold_left (fun out dv => let n := DeviceSpec.driver (DeviceWithId.spec dv) in
                           if str_in n out then out else out ++ [n]) (AgentVmSpec.devices s) [].

Definition devices_of (name : string) (s : AgentVmSpec.t) : list DeviceWithId.t :=
  List.filter (fun dv => String.eqb (DeviceSpec.driver (DeviceWithId.spec dv)) name)
    (AgentVmSpec.devices s).

Definition check_device_admission (id : VmId) (s : AgentVmSpec.t) : M unit :=
  if is_nil (AgentVmSpec.devices s) then mret tt
  else
    records ← stored (list_ path d);
    each (fun name =>
      match sget name (devices D) with
      | None => mret tt
      | Some driver =>
          let requested := map (fun dv => (DeviceWithId.id dv, DeviceWithId.spec dv)) (devices_of name s) in
          let claimed := flat_map (fun p => if N.eqb p.1 id then [] else
                           map (fun dv => (p.1, DeviceWithId.id dv, DeviceWithId.spec dv))
                             (devices_of name (VmRecord.spec p.2))) records in
          driven (within ("device admission refused by driver " +:+ debug name))
            (dev_admit driver requested claimed)
      end) (request_drivers s).

Definition create_devices (id : VmId) (s : AgentVmSpec.t) : C unit :=
  _ ← each_c (fun dv =>
        let name := DeviceSpec.driver (DeviceWithId.spec dv) in
        driver ← on_node (pureM (ok_or ("vm spec requests device driver " +:+ debug name +:+
                   " which is not configured on this node") (sget name (devices D))));
        dev ← on_node (driven (within ("creating device " +:+ Uuid.to_string (DeviceWithId.id dv) +:+
                " via " +:+ name)) (dev_create driver (DeviceWithId.id dv) (DeviceWithId.spec dv)));
        change (fun r => VmRecord.set_devices (VmRecord.devices r ++ [dev]) r))
        (AgentVmSpec.devices s);
  _ ← change (VmRecord.set_phase Phase.DevicesDone);
  save id.

(** ** The chain *)

Definition slice (id : VmId) : string := Uuid.to_string id.

Definition build_instance_spec (id : VmId) (s : AgentVmSpec.t) (r : VmRecord.t)
  : result string InstanceSpec.t :=
  let vols := map (fun v => (Volume.id v, Volume.attachment v)) (VmRecord.volumes r) in
  if negb (existsb (fun v => VolumeAttachment.is_block v.2) vols)
  then Err "vm spec contains no block volume; a boot disk is required"
  else
    let nics := map (fun p => NicAttachment.mk (Nic.tap_name p.1)
                                (NicSpec.mac (NicWithId.spec p.2)) (Nic.mtu p.1))
                  (combine (VmRecord.nics r) (AgentVmSpec.nics s)) in
    let boot := match AgentVmSpec.boot s with
                | BootSourceSpec.DirectKernel kernel cmdline initramfs =>
                    BootSourceSpec.DirectKernel (join_path F (image_dir cfg) kernel) cmdline
                      (option_map (join_path F (image_dir cfg)) initramfs)
                | BootSourceSpec.Firmware firmware =>
                    BootSourceSpec.Firmware (join_path F (image_dir cfg) firmware)
                end in
    Ok (InstanceSpec.mk boot vols (AgentVmSpec.vcpus s) (AgentVmSpec.memory_mib s) nics
          (map Device.attachment (VmRecord.devices r))
          (option_map (fun _ => seed_file F id) (AgentVmSpec.cloud_init s))).

Definition boot_vm (id : VmId) (s : AgentVmSpec.t) : C unit :=
  r ← the_record;
  ispec ← on_node (pureM (build_instance_spec id s r));
  hv ← on_node (pureM (get_hypervisor D));
  pid ← on_node (driven (fun e => within "hypervisor create" (say_hypervisor e))
                   (hv_create hv id ispec));
  _ ← change (VmRecord.set_vmm_pid (Some pid));
  _ ← save id;
  _ ← on_node (driven (fun e => within "hypervisor start" (say_hypervisor e)) (hv_start hv id));
  _ ← change (VmRecord.set_phase Phase.Provisioned);
  save id.

(** What every VM gets before it boots or receives; [finish] is the last link. *)
Definition run_chain (id : VmId) (finish : AgentVmSpec.t -> C unit) : C unit :=
  r ← the_record;
  let s := VmRecord.spec r in
  _ ← each_c (fun src => on_node (driven (within ("base image " +:+ Source.name src))
                                    (ensure_image F src))) (AgentVmSpec.images s);
  _ ← each_c (fun name => on_node (hosted (fun h => (verify_path F name h, tt)))) (path_images s);
  let limits := limits_for s in
  let limits := ResourceLimits.mk (ResourceLimits.memory_max limits)
                  (ResourceLimits.cpu_quota limits) (cpuset cfg) in
  _ ← on_node (driven (within "creating cgroup slice") (create_slice (confiner D) (slice id) limits));
  _ ← attach_volumes id s;
  _ ← attach_nics id s;
  _ ← create_devices id s;
  r ← the_record;
  _ ← match widen_for_storage_backends limits (VmRecord.volumes r) with
      | Some widened =>
          on_node (driven (within "widening cgroup slice for storage backends")
                     (create_slice (confiner D) (slice id) widened))
      | None => mret tt
      end;
  _ ← match AgentVmSpec.cloud_init s with
      | Some config => on_node (driven (within "building the cloud-init seed") (write_seed F id config))
      | None => mret tt
      end;
  finish s.

(** ** Teardown *)

Definition overlay_user (vni : N) (except : VmId) (row : string * Bytes) : bool :=
  if is_some_and (N.eqb except) (uuid_of row.1) then false
  else match from_slice row.2 with
       | Ok r => existsb (N.eqb vni) (overlay_vnis r)
       | Err _ => true
       end.

Definition overlay_users (vni : N) (except : VmId) : M nat :=
  raw ← stored (list_raw path d);
  mret (length (List.filter (overlay_user vni except) raw)).

Definition teardown_vmm (id : VmId) : M (list string) :=
  r ← answered (kill_slice (confiner D) (slice id));
  let killed := match r with Ok _ => [] | Err e => ["cgroup kill: " +:+ e] end in
  gone ← match get_hypervisor D with
         | Err e => mret ["hypervisor destroy: " +:+ e]
         | Ok hv =>
             r ← answered (hv_destroy hv id);
             mret (match r with
                   | Ok _ => []
                   | Err (HypervisorError.NotFound _) => []
                   | Err e => ["hypervisor destroy: " +:+ say_hypervisor e]
                   end)
         end;
  mret (killed ++ gone).

Definition teardown_device (r : VmRecord.t) (dev : Device.t) : M (list string) :=
  let name := device_driver_name r (Device.id dev) in
  let who := "device " +:+ Uuid.to_string (Device.id dev) in
  match sget name (devices D) with
  | None => mret [who +:+ ": driver " +:+ debug name +:+ " is not configured"]
  | Some driver =>
      tolerant (within who) (driven (fun e => e) (dev_destroy driver (Device.id dev) (Device.attachment dev)))
  end.

Definition teardown_nic (n : Nic.t) : M (list string) :=
  let who := "nic " +:+ Uuid.to_string (Nic.id n) in
  match get_networking D with
  | Err e => mret [who +:+ ": " +:+ e]
  | Ok driver => tolerant (within who) (driven say_network (nic_destroy driver (Nic.id n)))
  end.

Definition teardown_overlay (id : VmId) (r : VmRecord.t) (taps_gone : bool) (vni : N)
  : M (list string) :=
  if negb taps_gone then mret []
  else
    users ← caught (overlay_users vni id);
    match users with
    | Ok O =>
        match get_bridge D with
        | Err e => mret ["overlay " +:+ show_N vni +:+ ": " +:+ e]
        | Ok br =>
            tolerant (within ("overlay " +:+ show_N vni))
              (driven say_network (destroy_overlay br vni
                 (bt_get N.compare vni (VmRecord.overlay_bridges r))))
        end
    | _ => mret []
    end.

(** One volume: what failed, and whether this teardown closed it. *)
Definition teardown_volume (r : VmRecord.t) (abandoned : bool) (v : Volume.t)
  : M (list string * bool) :=
  let vid := Volume.id v in
  let who := "volume " +:+ Uuid.to_string vid in
  name ← volume_driver_name r vid;
  match sget name (storage D) with
  | None => mret ([who +:+ ": driver " +:+ debug name +:+ " is not configured"], false)
  | Some driver =>
      closed ← (if Volume.detached v then mret ([], false)
                else r ← answered (detach driver (Volume.handle v) (Volume.attachment v));
                     mret (match r with
                           | Ok _ => ([], true)
                           | Err e => ([who +:+ ": detach: " +:+ say_storage e], false)
                           end));
      last ← (if volume_is_referenced r vid then
                if abandoned then
                  tolerant (fun e => who +:+ ": forget: " +:+ e)
                    (driven say_storage (forget driver (Volume.handle v)))
                else mret []
              else tolerant (within who) (driven say_storage (deprovision driver (Volume.handle v))));
      mret (closed.1 ++ last, closed.2)
  end.

Fixpoint teardown_volumes (r : VmRecord.t) (abandoned : bool) (l : list Volume.t)
  : M (list string * list VolumeId) :=
  match l with
  | [] => mret ([], [])
  | v :: l' =>
      one ← teardown_volume r abandoned v;
      rest ← teardown_volumes r abandoned l';
      mret (one.1 ++ rest.1, if (one.2 : bool) then Volume.id v :: rest.2 else rest.2)
  end.

Definition mark_closed (closed : list VolumeId) (r : VmRecord.t) : VmRecord.t :=
  VmRecord.set_volumes
    (map (fun v => if existsb (N.eqb (Volume.id v)) closed then Volume.set_detached v else v)
       (VmRecord.volumes r)) r.

(** Everything but the last two steps: what failed. *)
Definition release (id : VmId) (r : VmRecord.t) : M (list string) :=
  let abandoned := bool_decide (VmRecord.phase r = Phase.Receiving) in
  vmm ← teardown_vmm id;
  devs ← gather (teardown_device r) (VmRecord.devices r);
  nics ← gather teardown_nic (VmRecord.nics r);
  overlays ← gather (teardown_overlay id r (is_nil nics)) (overlay_vnis r);
  reclaimed ← reclaim_unattached_volumes id r;
  vols ← teardown_volumes r abandoned (VmRecord.volumes r);
  _ ← (if is_nil vols.2 then mret tt
       else _ ← caught (stored (mutate path d id (mark_closed vols.2))); mret tt);
  _ ← hosted (fun h => (remove_seed F id h, tt));
  r ← answered (destroy_slice (confiner D) (slice id));
  mret (vmm ++ devs ++ nics ++ overlays ++ reclaimed ++ vols.1
        ++ match r with Ok _ => [] | Err e => ["cgroup slice: " +:+ e] end).

Definition teardown (id : VmId) : M unit :=
  found ← stored (get path d id);
  match found with
  | None => mret tt
  | Some r =>
      failures ← release id r;
      if is_nil failures then stored (delete path d id)
      else bail ("teardown of vm " +:+ Uuid.to_string id +:+ " incomplete: " +:+ join "; " failures)
  end.

(** ** Provision, resume and stop *)

Definition provision_vm (id : VmId) (s : AgentVmSpec.t) (desired : Desired.t) (managed : bool)
  : M unit :=
  found ← stored (row path d id);
  match found with
  | Some (Unreadable key) =>
      bail ("this node has a record of vm " +:+ key +:+
            " that it cannot read; it will not create a vm over it. The row has to be looked at first: building here would leave whatever it describes running with nothing naming it.")
  | _ =>
      existing ← stored (get path d id);
      match existing with
      | Some r =>
          _ ← stored (put path d id (VmRecord.set_desired desired r));
          sync_in_place id s
      | None =>
          _ ← check_device_admission id s;
          let r := VmRecord.fresh s desired managed in
          _ ← stored (put path d id r);
          done ← with_record r (run_chain id (boot_vm id));
          match done.2 with
          | Ok _ => mret tt
          | Err e =>
              _ ← caught (stored (put path d id done.1));
              td ← caught (teardown id);
              match td with
              | Ok _ => bail e
              | Err td => bail (within ("teardown after failed provision also failed: " +:+ td) e)
              end
          end
      end
  end.

Definition resume_vm (id : VmId) (r : VmRecord.t) : M unit :=
  _ ← check_device_admission id (VmRecord.spec r);
  r ← restore_drifted_inline_ids id r;
  let r := VmRecord.set_unhealthy None (VmRecord.set_vmm_pid None (VmRecord.set_devices []
             (VmRecord.set_nics [] (VmRecord.set_volumes []
                (VmRecord.set_phase Phase.Provisioning r))))) in
  _ ← stored (put path d id r);
  done ← with_record r (run_chain id (boot_vm id));
  match done.2 with
  | Ok _ => mret tt
  | Err e => _ ← caught (stored (put path d id done.1)); bail e
  end.

Definition stop_vm (id : VmId) (r : VmRecord.t) : M unit :=
  hv ← pureM (get_hypervisor D);
  gone ← answered (hv_destroy hv id);
  _ ← match gone with
      | Ok _ => mret tt
      | Err (HypervisorError.NotFound _) => mret tt
      | Err e => bail ("stopping vmm: " +:+ say_hypervisor e)
      end;
  _ ← match VmRecord.vmm_pid r with
      | None => mret tt
      | Some pid =>
          hosted (fun h =>
            let in_slice := match pids_in_slice (confiner D) (slice id) h with
                            | Ok pids => existsb (N.eqb pid) pids
                            | Err _ => false
                            end in
            (if in_slice && owns_pid hv id pid h then kill_pid (confiner D) pid h else h, tt))
      end;
  _ ← gather (teardown_device r) (VmRecord.devices r);
  names ← driver_names (VmRecord.set_devices [] r) (VmRecord.volumes r);
  vols ← detach_marking false (combine (VmRecord.volumes r) names);
  stored (put path d id
    (VmRecord.set_unhealthy None (VmRecord.set_stop_deadline None (VmRecord.set_vmm_pid None
       (VmRecord.set_volumes vols (VmRecord.set_devices [] r)))))).

End provisioner.
