(* ===== verification/AgentSim.v ===== *)
(** A machine in memory: the simplest host on which every driver of [AgentHost]
    works, with the calls it is told to refuse.  It shows that the
    hypotheses of the agent's theorems can be met together; no theorem is about it. *)
From Stdlib Require Import Ascii String NArith ZArith List Bool Lia.
From stdpp Require Import base list strings.
From S2P Require Import Prelude RustStr Json AgentTypes AgentStore AgentHost AgentProvision.

Record machine := mk_machine {
  disks : list VolumeId;
  taps : list NicId;
  gadgets : list DeviceId;
  guests : list (VmId * VmState.t);
  plugged : list string }.

Definition drop_id (id : N) (l : list N) : list N := List.filter (fun x => negb (N.eqb x id)) l.

Definition set_disks l (m : machine) := mk_machine l (taps m) (gadgets m) (guests m) (plugged m).
Definition set_taps l (m : machine) := mk_machine (disks m) l (gadgets m) (guests m) (plugged m).
Definition set_gadgets l (m : machine) := mk_machine (disks m) (taps m) l (guests m) (plugged m).
Definition set_guests l (m : machine) := mk_machine (disks m) (taps m) (gadgets m) l (plugged m).
Definition set_plugged l (m : machine) := mk_machine (disks m) (taps m) (gadgets m) (guests m) l.

Section machine.
Context (refused : list string).

(** A call that changes the machine unless it is one of the refused ones. *)
Definition doing {E A} (what : string) (no : E) (f : machine -> machine) (a : A) : call machine E A :=
  fun m => if str_in what refused then (m, Err no) else (f m, Ok a).

Definition guest_state (m : machine) (id : VmId) : option VmState.t :=
  option_map snd (List.find (fun g => N.eqb g.1 id) (guests m)).

Definition put_guest (id : VmId) (st : VmState.t) (m : machine) : machine :=
  set_guests ((id, st) :: List.filter (fun g => negb (N.eqb g.1 id)) (guests m)) m.

Definition drop_guest (id : VmId) (m : machine) : machine :=
  set_guests (List.filter (fun g => negb (N.eqb g.1 id)) (guests m)) m.

Definition broken_hv : HypervisorError.t := HypervisorError.Backend "refused".
Definition broken_vol : StorageError.t := StorageError.Backend "refused".
Definition broken_net : NetworkError.t := NetworkError.Backend "refused".

Definition sim_pid : N := 100.

Definition sim_hypervisor : Hypervisor machine := {|
  hv_create id s := doing "create" broken_hv
                      (fun m => set_plugged (map (fun v => disk_id v.1) (InstanceSpec.volumes s))
                                  (put_guest id VmState.Defined m)) sim_pid;
  hv_destroy id m := match guest_state m id with
                     | None => (m, Err (HypervisorError.NotFound id))
                     | Some _ => doing "destroy" broken_hv (drop_guest id) tt m
                     end;
  hv_start id := doing "start" broken_hv (put_guest id VmState.Running) tt;
  power_button id := doing "power_button" broken_hv (fun m => m) tt;
  get_state id m := match guest_state m id with
                    | None => (m, Err (HypervisorError.NotFound id))
                    | Some st => (m, Ok st)
                    end;
  adopt id _ := doing "adopt" broken_hv (fun m => m) tt;
  hv_probe id m := (m, is_some (guest_state m id));
  is_tracked id m := is_some (guest_state m id);
  owns_pid id _ m := is_some (guest_state m id);
  strays known m := (m, List.filter (fun id => negb (existsb (N.eqb id) known)) (map fst (guests m)));
  end_stray id := doing "end_stray" broken_hv (drop_guest id) tt;
  as_pausable := Some {| pause id := doing "pause" broken_hv (put_guest id VmState.Paused) tt;
                         resume id := doing "resume" broken_hv (put_guest id VmState.Running) tt |};
  as_migratable := Some {| migrate_out id _ := doing "migrate_out" broken_hv (fun m => m) tt;
                           migrate_in id _ := doing "migrate_in" broken_hv
                                                (put_guest id VmState.Defined) sim_pid;
                           receive_failed _ _ := None;
                           send_failed _ m := (m, None) |};
  as_hotpluggable := Some {| add_disk _ v := doing "add_disk" broken_hv
                                             (fun m => set_plugged (disk_id v.1 :: plugged m) m) tt;
                             resize_disk _ _ _ := doing "resize_disk" broken_hv (fun m => m) tt;
                             remove_disk _ disk m :=
                               if str_in disk (plugged m)
                               then doing "remove_disk" broken_hv (fun m => set_plugged
                                      (List.filter (fun x => negb (String.eqb x disk)) (plugged m)) m) tt m
                               else (m, Err (HypervisorError.Backend "no such disk")) |} |}.

Definition sim_handle (id : VolumeId) (size : N) : VolumeHandle.t := VolumeHandle.mk id "sim" size None.

Definition sim_volumes : VolumeDriver machine := {|
  provision id s := doing "provision" broken_vol (fun m => set_disks (id :: disks m) m)
                      (sim_handle id (VolumeSpec.size_bytes s));
  deprovision h := doing "deprovision" broken_vol
                     (fun m => set_disks (drop_id (VolumeHandle.id h) (disks m)) m) tt;
  describe h := doing "describe" broken_vol (fun m => m) (VolumeHandle.size_bytes h);
  probe id s m := doing "probe" broken_vol (fun m => m)
                    (if existsb (N.eqb id) (disks m)
                     then Some (sim_handle id (VolumeSpec.size_bytes s)) else None) m;
  AgentHost.resize h size := doing "resize" broken_vol (fun m => m) (sim_handle (VolumeHandle.id h) size);
  snapshot h id := doing "snapshot" broken_vol (fun m => m) (sim_handle id (VolumeHandle.size_bytes h));
  drop_snapshot _ := doing "drop_snapshot" broken_vol (fun m => m) tt;
  probe_snapshot _ _ := doing "probe_snapshot" broken_vol (fun m => m) None;
  provision_from id _ s := doing "provision" broken_vol (fun m => set_disks (id :: disks m) m)
                             (sim_handle id (VolumeSpec.size_bytes s));
  forget _ := doing "forget" broken_vol (fun m => m) tt;
  attach h := doing "attach" broken_vol (fun m => m) (VolumeAttachment.Path "/dev/sim");
  detach _ _ := doing "detach" broken_vol (fun m => m) tt |}.

Definition sim_nics : NicDriver machine := {|
  nic_create id _ := doing "nic_create" broken_net (fun m => set_taps (id :: taps m) m)
                       (Nic.mk id "tap" None None);
  nic_destroy id := doing "nic_destroy" broken_net (fun m => set_taps (drop_id id (taps m)) m) tt;
  update_guard _ _ := doing "update_guard" broken_net (fun m => m) tt |}.

Definition sim_bridges : BridgeDriver machine := {|
  ensure _ := doing "ensure" broken_net (fun m => m) tt;
  ensure_address _ _ _ := doing "ensure_address" broken_net (fun m => m) tt;
  ensure_overlay _ := doing "ensure_overlay" broken_net (fun m => m) "br";
  destroy_overlay _ _ := doing "destroy_overlay" broken_net (fun m => m) tt |}.

Definition sim_devices : DeviceDriver machine := {|
  dev_create id _ := doing "dev_create" "refused" (fun m => set_gadgets (id :: gadgets m) m)
                       (Device.mk id (DeviceAttachment.VfioPci "/sys/sim"));
  dev_destroy id _ := doing "dev_destroy" "refused" (fun m => set_gadgets (drop_id id (gadgets m)) m) tt;
  AgentHost.dev_admit _ _ := doing "admit" "refused" (fun m => m) tt |}.

Definition sim_confiner : ResourceConfiner machine := {|
  create_slice _ _ := doing "create_slice" "refused" (fun m => m) tt;
  destroy_slice _ := doing "destroy_slice" "refused" (fun m => m) tt;
  pids_in_slice _ _ := Ok [sim_pid];
  kill_slice _ := doing "kill_slice" "refused" (fun m => m) tt;
  attach_pid _ _ := doing "attach_pid" "refused" (fun m => m) tt;
  kill_pid _ m := m |}.

(** Two storage drivers over the same disks. *)
Definition sim_drivers : Drivers machine := {|
  confiner := sim_confiner;
  hypervisor := Some sim_hypervisor;
  storage := [(default_volume_driver, sim_volumes); ("ceph", sim_volumes)];
  networking := Some sim_nics;
  bridge := Some sim_bridges;
  devices := [(default_device_driver, sim_devices)] |}.

Definition sim_files : Files machine := {|
  ensure_image _ := doing "ensure_image" "refused" (fun m => m) tt;
  verify_path _ m := m;
  seed_file id := Uuid.to_string id;
  write_seed _ _ := doing "write_seed" "refused" (fun m => m) tt;
  remove_seed _ m := m;
  join_path a b := a +:+ "/" +:+ b |}.

Definition sim_settings : settings :=
  {| image_dir := "/images"; default_bridge := "br0"; bridge_addr := None; cpuset := None |}.

End machine.

(** Keys in memory: the hex digits of a key, checked by printing them again. *)
Fixpoint undigits (acc : N) (s : string) : option N :=
  match s with
  | EmptyString => Some acc
  | String c s' =>
      if Ascii.eqb c "-" then undigits acc s'
      else match MacAddr.hex_value c with
           | Some v => undigits (16 * acc + v) s'
           | None => None
           end
  end.

#[export] Instance sim_uuids : UuidParse := {|
  uuid_of s := match undigits 0 s with
               | Some n => if String.eqb (Uuid.to_string n) s then Some n else None
               | None => None
               end |}.

Lemma undigits_hex k n acc rest :
  undigits acc (Uuid.hex k n +:+ rest) = undigits (acc * 16 ^ N.of_nat k + n mod 16 ^ N.of_nat k) rest.
Proof.
  revert acc. induction k as [|k IH]; intros acc.
  - simpl. by rewrite N.mod_1_r, N.mul_1_r, N.add_0_r.
  - cbn [Uuid.hex]. rewrite str_app_cons. cbn [undigits].
    set (dg := N.land _ 15).
    assert (Hd : dg = ((n / 16 ^ N.of_nat k) mod 16)%N).
    { unfold dg. change 15%N with (N.ones 4). rewrite N.land_ones, N.shiftr_div_pow2.
      by rewrite N.pow_mul_r. }
    assert (Hlt : (dg < 16)%N) by (rewrite Hd; by apply N.mod_lt).
    destruct (Ascii.eqb_spec (hex_digit dg) "-") as [E|_]; [by apply hex_digit_plain in E|].
    rewrite hex_digit_value by done. rewrite IH, Hd. f_equal.
    replace (16 ^ N.of_nat (S k))%N with (16 ^ N.of_nat k * 16)%N
      by (rewrite Nat2N.inj_succ, N.pow_succ_r'; lia).
    rewrite N.Div0.mod_mul_r. lia.
Qed.

Lemma undigits_dash acc s : undigits acc ("-" +:+ s) = undigits acc s.
Proof. done. Qed.

#[export] Instance sim_uuid_laws : UuidLaws.
Proof.
  constructor. intros u Hu. unfold uuid_of, sim_uuids.
  assert (E : undigits 0 (Uuid.to_string u) = Some u).
  { unfold Uuid.to_string. rewrite <- (str_app_nil_r (Uuid.hex 12 u)).
    repeat (rewrite undigits_hex || rewrite undigits_dash). cbn [undigits]. f_equal.
    rewrite !N.shiftr_div_pow2. change (N.of_nat 8) with 8%N. change (N.of_nat 4) with 4%N.
    change (N.of_nat 12) with 12%N.
    assert (H96 : (u / 2 ^ 96 < 2 ^ 32)%N).
    { apply N.Div0.div_lt_upper_bound. by rewrite <- N.pow_add_r. }
    rewrite (N.mod_small (u / 2 ^ 96)) by exact H96.
    assert (Hs : forall a, ((u / 2 ^ (a + 16)) * 16 ^ 4 + (u / 2 ^ a) mod 16 ^ 4 = u / 2 ^ a)%N).
    { intros a. rewrite N.pow_add_r, <- N.Div0.div_div. change (16 ^ 4)%N with (2 ^ 16)%N.
      pose proof (N.div_mod (u / 2 ^ a) (2 ^ 16) ltac:(done)). lia. }
    rewrite (N.mul_0_l), N.add_0_l.
    rewrite (Hs 80%N : (u / 2 ^ 96 * 16 ^ 4 + _ = _)%N), (Hs 64%N : (u / 2 ^ 80 * 16 ^ 4 + _ = _)%N),
      (Hs 48%N : (u / 2 ^ 64 * 16 ^ 4 + _ = _)%N).
    change (16 ^ 12)%N with (2 ^ 48)%N. pose proof (N.div_mod u (2 ^ 48) ltac:(done)). lia. }
  by rewrite E, String.eqb_refl.
Qed.

(** One VM, [7]: an inline disk [1], a referenced one [2], a NIC, a device. *)
Definition sim_mac : MacAddr.t := [2; 0; 0; 0; 0; 3]%N.

Definition sim_spec : AgentVmSpec.t :=
  AgentVmSpec.mk 1 256 (BootSourceSpec.Firmware "fw")
    [VolumeWithId.mk 1 (VolumeSpec.mk None 10 None None) false;
     VolumeWithId.mk 2 (VolumeSpec.mk None 0 None None) true]
    [NicWithId.mk 3 (NicSpec.mk "br0" sim_mac None [] [] None)]
    [DeviceWithId.mk 8 (DeviceSpec.mk default_device_driver PartitionSpec.Exclusive None None)] None [].

Definition sim_volume_record : VolumeRecord.t :=
  VolumeRecord.mk (VolumeSpec.mk None 10 (Some "ceph") None) (Some (sim_handle 2 10))
    VolumeRecordPhase.Ready None None None.

Definition sim_world (disks : list VolumeId) : node machine mem_bytes :=
  mk_node (mk_store (mk_tables [] [] [(Uuid.to_string 2, VolumeBytes sim_volume_record)] [])
             true [] 0 None 0)
    (mk_machine disks [] [] [] []).

(** The machine after the VM was built on it. *)
Definition sim_running : node machine mem_bytes :=
  Eval vm_compute in
  (provision_vm "db" quiet_disk (sim_drivers []) (sim_files []) sim_settings 7 sim_spec
     Desired.Running true (sim_world [2%N])).1.

(** A VM that can move, [9]: one referenced disk, no device, no NIC. *)
Definition sim_movable : AgentVmSpec.t :=
  AgentVmSpec.mk 1 256 (BootSourceSpec.Firmware "fw")
    [VolumeWithId.mk 2 (VolumeSpec.mk None 0 None None) true] [] [] None [].

Definition sim_moving : node machine mem_bytes :=
  Eval vm_compute in
  (provision_vm "db" quiet_disk (sim_drivers []) (sim_files []) sim_settings 9 sim_movable
     Desired.Running true (sim_world [2%N])).1.
