(* ===== verification/AgentSteps.v ===== *)
(** Reasoning about the agent's steps: a fact about the host and one about the
    tables of the store's file that a sequence of steps keeps, whatever the calls
    answer and whichever accesses the disk fails. *)
From Stdlib Require Import Ascii String NArith ZArith List Bool Lia.
From stdpp Require Import base list strings.
From S2P Require Import Prelude AgentTypes AgentStore AgentHost AgentProvision.

(** * Invariants of the host through agent steps *)

Section keeps.
Context {H Bytes : Type} (I : H -> Prop) (T : tables Bytes -> Prop).

(** The host satisfies [I] and the file's tables [T]. *)
Definition sound (w : node H Bytes) : Prop := I (host w) /\ T (file (db w)).

(** A step that keeps both whatever it answers. *)
Definition keeps {A} (m : agent_m H Bytes A) : Prop := forall w, sound w -> sound (m w).1.

(** A step that keeps both, and [Q] of what it answers. *)
Definition keeps_with {A} (Q : A -> Prop) (m : agent_m H Bytes A) : Prop :=
  forall w, sound w -> sound (m w).1 /\ forall a, (m w).2 = Ok a -> Q a.

Lemma keeps_bind {A B} (m : agent_m H Bytes A) (k : A -> agent_m H Bytes B) :
  keeps m -> (forall a, keeps (k a)) -> keeps (m ≫= k).
Proof.
  intros Hm Hk w Hw. unfold mbind, agent_bind. specialize (Hm w Hw).
  destruct (m w) as [w' [a|e]]; [by apply Hk|done].
Qed.

Lemma keeps_bind_with {A B} (Q : A -> Prop) (m : agent_m H Bytes A) (k : A -> agent_m H Bytes B) :
  keeps_with Q m -> (forall a, Q a -> keeps (k a)) -> keeps (m ≫= k).
Proof.
  intros Hm Hk w Hw. unfold mbind, agent_bind. destruct (Hm w Hw) as [H1 H2].
  destruct (m w) as [w' [a|e]]; [by apply Hk; [apply H2|]|done].
Qed.

Lemma keeps_with_bind {A B} (Q : A -> Prop) (R : B -> Prop) (m : agent_m H Bytes A)
    (k : A -> agent_m H Bytes B) :
  keeps_with Q m -> (forall a, Q a -> keeps_with R (k a)) -> keeps_with R (m ≫= k).
Proof.
  intros Hm Hk w Hw. unfold mbind, agent_bind. destruct (Hm w Hw) as [H1 H2].
  destruct (m w) as [w' [a|e]]; [by apply Hk; [apply H2|]|done].
Qed.

Lemma keeps_with_ret {A} (Q : A -> Prop) (a : A) : Q a -> keeps_with Q (mret a).
Proof. intros Ha w Hw. split; [done|]. by intros b [= <-]. Qed.

Lemma keeps_with_pure {A} (Q : A -> Prop) (r : result string A) :
  (forall a, r = Ok a -> Q a) -> keeps_with Q (pureM r).
Proof. intros Hr w Hw. split; [done|]. apply Hr. Qed.

Lemma keeps_with_any {A} (Q : A -> Prop) (m : agent_m H Bytes A) :
  keeps m -> (forall w a, (m w).2 = Ok a -> Q a) -> keeps_with Q m.
Proof. intros Hm HQ w Hw. split; [by apply Hm|apply HQ]. Qed.

Lemma keeps_ret {A} (a : A) : keeps (mret a).
Proof. by intros w Hw. Qed.

Lemma keeps_pure {A} (r : result string A) : keeps (pureM r).
Proof. by intros w Hw. Qed.

Lemma keeps_after {A} (m : agent_m H Bytes A) w w' a :
  keeps m -> m w = (w', Ok a) -> sound w -> sound w'.
Proof. intros K E HP. specialize (K w HP). by rewrite E in K. Qed.

(** ** The calls of a driver *)

Definition call_keeps {E A} (c : call H E A) : Prop := forall h, I h -> I (c h).1.

Lemma keeps_driven {E A} say (c : call H E A) : call_keeps c -> keeps (driven say c).
Proof. intros Hc w [Hw Ht]. unfold driven. specialize (Hc _ Hw). by destruct (c (host w)). Qed.

Lemma keeps_answered {E A} (c : call H E A) : call_keeps c -> keeps (answered c).
Proof. intros Hc w [Hw Ht]. unfold answered. specialize (Hc _ Hw). by destruct (c (host w)). Qed.

Lemma keeps_hosted {A} (f : H -> H * A) : (forall h, I h -> I (f h).1) -> keeps (hosted f).
Proof. intros Hc w [Hw Ht]. unfold hosted. specialize (Hc _ Hw). by destruct (f (host w)). Qed.

Lemma keeps_caught {A} (m : agent_m H Bytes A) : keeps m -> keeps (caught m).
Proof. intros Hm w Hw. unfold caught. specialize (Hm w Hw). by destruct (m w). Qed.

Lemma keeps_tolerant what (m : agent_m H Bytes unit) : keeps m -> keeps (tolerant what m).
Proof. intros Hm. apply keeps_bind; [by apply keeps_caught|]. intros r. apply keeps_ret. Qed.

Lemma keeps_gather {A} (f : A -> agent_m H Bytes (list string)) l :
  (forall a, In a l -> keeps (f a)) -> keeps (gather f l).
Proof.
  induction l as [|a l IH]; intros Hf; simpl; [apply keeps_ret|].
  apply keeps_bind; [apply Hf; by left|]. intros x.
  apply keeps_bind; [apply IH; intros; apply Hf; by right|]. intros r. apply keeps_ret.
Qed.

(** ** The store *)

Definition op_keeps {A} (op : store_op Bytes A) : Prop :=
  forall s, T (file s) -> T (file (op s).1).

Lemma keeps_stored {A} (op : store_op Bytes A) : op_keeps op -> keeps (stored op).
Proof. intros Ho w [Hw Ht]. unfold stored. specialize (Ho _ Ht). by destruct (op (db w)). Qed.

(** [T] outlives writes of the VMs' rows, and their removal. *)
Class rows_may_be_written : Prop := may_insert : forall k b t, T t -> T (on_vms (sinsert k b) t).
Class rows_may_be_removed : Prop := may_remove : forall k t, T t -> T (on_vms (sremove k) t).

Context (path : string) (d : disk).

Lemma op_keeps_attempt {A} write (op : tx Bytes A) :
  (forall t t' v, op t = Ok (t', v) -> T t -> T t') -> op_keeps (attempt path d write op).
Proof.
  intros Hop s Hs. destruct (attempt path d write op s) as [s' r] eqn:E.
  revert Hs. change ((fun t t' => T t -> T t') (file s) (file s')).
  eapply attempt_preserves; [by intros t| |exact Hop|exact E].
  intros t1 t2 t3 H1 H2 Ht. apply H2, H1, Ht.
Qed.

Lemma op_keeps_reading {A} (f : tables Bytes -> A) : op_keeps (reading path d f).
Proof. apply op_keeps_attempt. by intros t t' v [= <- _]. Qed.

Context `{!Codec Bytes VmRecord.t, !Codec Bytes VolumeRecord.t}.

Lemma op_keeps_put `{!rows_may_be_written} id r : op_keeps (put path d id r).
Proof.
  apply op_keeps_attempt. intros t t' v. destruct (to_vec r); [|done]. intros [= <- _].
  apply may_insert.
Qed.

Lemma op_keeps_delete `{!rows_may_be_removed} id : op_keeps (delete path d id).
Proof. apply op_keeps_attempt. intros t t' v [= <- _]. apply may_remove. Qed.

Lemma op_keeps_mutate `{!rows_may_be_written} id f : op_keeps (mutate path d id f).
Proof.
  apply op_keeps_attempt. intros t t' v. simpl. destruct (sget _ _); [|by intros [= <- _]].
  destruct (from_slice _); [|done]. destruct (to_vec _); [|done]. intros [= <- _]. apply may_insert.
Qed.
End keeps.

#[export] Instance anything_written {Bytes} : rows_may_be_written (Bytes := Bytes) (fun _ => True).
Proof. done. Qed.
#[export] Instance anything_removed {Bytes} : rows_may_be_removed (Bytes := Bytes) (fun _ => True).
Proof. done. Qed.

Create HintDb agent.
#[export] Hint Resolve op_keeps_put op_keeps_delete op_keeps_mutate : agent.
#[export] Hint Extern 1 (op_keeps _ _) => apply op_keeps_reading : agent.

(** Walk a sequence of steps, leaving the driver calls. *)
Ltac keeps_steps :=
  repeat first
    [ apply keeps_bind; [|intros ?]
    | progress cbv zeta
    | apply keeps_ret | apply keeps_pure | (apply keeps_stored; solve [auto with agent])
    | apply keeps_driven | apply keeps_answered | apply keeps_caught | apply keeps_tolerant
    | match goal with |- keeps _ _ (match ?x with _ => _ end) => destruct x eqn:? end
    | match goal with |- keeps _ _ (if ?x then _ else _) => destruct x eqn:? end ].

Abbreviation anything := (fun _ => True).

Lemma keeps_host {H Bytes A} (I : H -> Prop) (m : agent_m H Bytes A) w :
  keeps I anything m -> I (host w) -> I (host (m w).1).
Proof. intros K Hw. by apply (K w). Qed.

#[export] Instance row_stays {Bytes} key :
  rows_may_be_written (Bytes := Bytes) (fun t => is_some (sget key (VMS t)) = true).
Proof.
  intros k b t Ht. unfold sget, sinsert in *. simpl. destruct (decide (key = k)) as [->|Hne].
  - by rewrite bt_get_insert_eq by apply _.
  - by rewrite bt_get_insert_ne by (apply _ || done).
Qed.

#[export] Instance sorted_stays {Bytes} :
  rows_may_be_written (Bytes := Bytes) (fun t => bt_sorted String.compare (VMS t)).
Proof. intros k b t Ht. simpl. apply bt_insert_sorted; [apply _..|done]. Qed.

(** * Reads *)

Section reads.
Context {Bytes A : Type} (path : string) (d : disk) (f : tables Bytes -> A).

Lemma reading_file s : file (reading path d f s).1 = file s.
Proof. by apply (op_keeps_reading (fun t => t = file s) path d f s). Qed.

Lemma reading_ok s s' x : reading path d f s = (s', Ok x) -> file s' = file s /\ x = f (file s).
Proof. intros (t & Ht & [= <- <-])%attempt_ok. destruct Ht as [->|[v [= ->]]]; done. Qed.

Lemma reading_quiet s :
  (forall n, fault d n = None) -> opened s = true ->
  exists s', reading path d f s = (s', Ok (f (file s))) /\ opened s' = true /\ file s' = file s.
Proof.
  intros Hq Ho. unfold reading, attempt, once. rewrite Ho, Hq. simpl. eexists. by split_and!.
Qed.
End reads.
