(* ===== verification/AgentRelease.v ===== *)
(** What stopping and tearing down a VM guarantee, for every driver and every
    failing disk: which bytes survive, when the record goes, and that a working
    machine lets it go. *)
From Stdlib Require Import Ascii String NArith ZArith List Bool Lia.
From stdpp Require Import base list strings.
From S2P Require Import Prelude RustStr Json AgentTypes AgentStore AgentHost AgentDisks AgentProvision AgentSim AgentSteps.

(** * Bytes that survive *)

Section release.
Context {H Bytes : Type} `{!Codec Bytes VmRecord.t, !Codec Bytes VolumeRecord.t, !UuidParse}.
Context (path : string) (d : disk) (D : Drivers H) (F : Files H) (cfg : settings).
Context (I : H -> Prop) (T : tables Bytes -> Prop) `{!rows_may_be_written T}.

(** [I] is undisturbed by every call a stop or a teardown makes, except
    deprovisioning through a handle of one of the volumes [X]. *)
Record undisturbed (X : VolumeId -> Prop) : Prop := {
  u_kill : forall n, call_keeps I (kill_slice (confiner D) n);
  u_slice : forall n, call_keeps I (destroy_slice (confiner D) n);
  u_pid : forall n h, I h -> I (kill_pid (confiner D) n h);
  u_seed : forall id h, I h -> I (remove_seed F id h);
  u_vmm : forall hv id, hypervisor D = Some hv -> call_keeps I (hv_destroy hv id);
  u_dev : forall n dev id a, sget n (devices D) = Some dev -> call_keeps I (dev_destroy dev id a);
  u_nic : forall nd id, networking D = Some nd -> call_keeps I (nic_destroy nd id);
  u_overlay : forall br vni b, bridge D = Some br -> call_keeps I (destroy_overlay br vni b);
  u_detach : forall n vd h a, sget n (storage D) = Some vd -> call_keeps I (detach vd h a);
  u_forget : forall n vd h, sget n (storage D) = Some vd -> call_keeps I (forget vd h);
  u_probe : forall n vd id s, sget n (storage D) = Some vd -> call_keeps I (probe vd id s);
  u_deprovision : forall n vd h, sget n (storage D) = Some vd -> ~ X (VolumeHandle.id h) ->
    call_keeps I (deprovision vd h) }.

(** A probe answers about the volume it was asked for. *)
Definition probe_names_it : Prop :=
  forall n vd id s h h' v, sget n (storage D) = Some vd ->
    probe vd id s h = (h', Ok (Some v)) -> VolumeHandle.id v = id.

(** Every entry of the record's spec with this id is a reference, and one is there. *)
Definition references (r : VmRecord.t) (v : VolumeId) : Prop :=
  (exists e, In e (AgentVmSpec.volumes (VmRecord.spec r)) /\ VolumeWithId.id e = v) /\
  forall e, In e (AgentVmSpec.volumes (VmRecord.spec r)) -> VolumeWithId.id e = v ->
            VolumeWithId.referenced e = true.

Lemma references_found r v : references r v -> volume_is_referenced r v = true.
Proof.
  intros [(e & He & Hid) Hall]. unfold volume_is_referenced, find_volume.
  destruct (List.find _ _) as [e'|] eqn:E; simpl.
  - apply find_some in E as [Hin Heq%N.eqb_eq]. by apply Hall.
  - apply (find_none _ _ E) in He. by rewrite Hid, N.eqb_refl in He.
Qed.

Context (X : VolumeId -> Prop) (U : undisturbed X).

Lemma keeps_driver_name r v : keeps I T (volume_driver_name (H := H) path d r v).
Proof. unfold volume_driver_name. keeps_steps. Qed.

Lemma keeps_driver_names r l : keeps I T (driver_names (H := H) path d r l).
Proof. induction l; simpl; keeps_steps; auto using keeps_driver_name. Qed.

Lemma keeps_teardown_vmm id : keeps I T (teardown_vmm D id).
Proof.
  unfold teardown_vmm, get_hypervisor. destruct (hypervisor D) as [hv|] eqn:Ehv; simpl; keeps_steps;
    (apply (u_kill X U) || by apply (u_vmm X U)).
Qed.

Lemma keeps_teardown_device r dev : keeps I T (teardown_device D r dev).
Proof.
  unfold teardown_device. destruct (sget _ (devices D)) as [dd|] eqn:E; keeps_steps.
  by eapply (u_dev X U).
Qed.

Lemma keeps_teardown_nic n : keeps I T (teardown_nic D n).
Proof.
  unfold teardown_nic, get_networking. destruct (networking D) as [nd|] eqn:E; simpl; keeps_steps.
  by apply (u_nic X U).
Qed.

Lemma keeps_teardown_overlay id r b vni : keeps I T (teardown_overlay path d D id r b vni).
Proof.
  unfold teardown_overlay, overlay_users, get_bridge.
  destruct (bridge D) as [br|] eqn:E; simpl; keeps_steps. by apply (u_overlay X U).
Qed.

Lemma keeps_detach_marking b l : keeps I T (detach_marking D b l).
Proof.
  induction l as [|[v n] l IH]; simpl; [apply keeps_ret|].
  destruct (sget n (storage D)) as [vd|] eqn:E; keeps_steps; try done. by eapply (u_detach X U).
Qed.

Lemma keeps_teardown_volume r b v :
  (X (Volume.id v) -> volume_is_referenced r (Volume.id v) = true) ->
  keeps I T (teardown_volume path d D r b v).
Proof.
  intros Hx. unfold teardown_volume.
  destruct (volume_is_referenced r (Volume.id v)) eqn:Er; keeps_steps;
    try apply keeps_driver_name; try (by eapply (u_detach X U)); try (by eapply (u_forget X U)).
  eapply (u_deprovision X U); [done|]. intros HX. by specialize (Hx HX).
Qed.

Lemma keeps_teardown_volumes r b l :
  (forall v, X v -> volume_is_referenced r v = true) ->
  keeps I T (teardown_volumes path d D r b l).
Proof.
  intros Hx. induction l as [|v l IH]; simpl; [apply keeps_ret|].
  apply keeps_bind; [apply keeps_teardown_volume, Hx|]. intros one.
  apply keeps_bind; [done|]. intros rest. apply keeps_ret.
Qed.

Lemma keeps_reclaim_one id r v :
  ((exists v, X v) -> probe_names_it) -> ~ X (VolumeWithId.id v) ->
  keeps I T (reclaim_one path d D id r v).
Proof.
  intros Hp Hx. unfold reclaim_one.
  apply (keeps_bind_with I T (fun vd => sget (spec_driver (VolumeWithId.spec v)) (storage D) = Some vd)).
  { apply keeps_with_pure. intros vd Hv. by destruct (sget _ _); simplify_eq/=. }
  intros vd E.
  apply (keeps_bind_with I T (fun oh => forall h, oh = Some h -> ~ X (VolumeHandle.id h))).
  - destruct (List.find _ _) as [h|] eqn:Ef.
    { apply keeps_with_ret. intros h' [= <-]. apply find_some in Ef as [_ Ef].
      by apply N.eqb_eq in Ef as ->. }
    apply (keeps_with_bind I T (fun oh => forall h, oh = Some h -> ~ X (VolumeHandle.id h))).
    { apply keeps_with_any; [apply keeps_driven; by eapply (u_probe X U)|].
      intros w oh. unfold driven. destruct (probe vd _ _ _) as [h' [o|e]] eqn:Ep; simpl; [|done].
      intros [= <-] h -> HX. pose proof (Hp (ex_intro _ _ HX) _ _ _ _ _ _ _ E Ep) as Hid.
      by rewrite Hid in HX. }
    intros [h|] Hh; [|by apply keeps_with_ret].
    apply (keeps_with_bind I T (fun _ => True)); [|intros _ _; by apply keeps_with_ret].
    apply keeps_with_any; [apply keeps_stored; auto with agent|done].
  - intros [h|] Hh; keeps_steps. eapply (u_deprovision X U); [done|]. by apply Hh.
Qed.

Lemma keeps_reclaim id r :
  ((exists v, X v) -> probe_names_it) -> (forall v, X v -> references r v) ->
  keeps I T (reclaim_unattached_volumes path d D id r).
Proof.
  intros Hp Hx. unfold reclaim_unattached_volumes. apply keeps_gather. intros v Hv.
  destruct (_ || _) eqn:E; [apply keeps_ret|]. apply keeps_tolerant, keeps_reclaim_one; [done|].
  apply orb_false_iff in E as [E _]. intros HX. destruct (Hx _ HX) as [_ Hall].
  by rewrite (Hall v Hv eq_refl) in E.
Qed.

Lemma keeps_release id r :
  ((exists v, X v) -> probe_names_it) -> (forall v, X v -> references r v) ->
  keeps I T (release path d D F id r).
Proof.
  intros Hp Hx. unfold release. cbv zeta.
  apply keeps_bind; [apply keeps_teardown_vmm|]. intros vmm.
  apply keeps_bind; [apply keeps_gather; intros; apply keeps_teardown_device|]. intros devs.
  apply keeps_bind; [apply keeps_gather; intros; apply keeps_teardown_nic|]. intros nics.
  apply keeps_bind; [apply keeps_gather; intros; apply keeps_teardown_overlay|]. intros overlays.
  apply keeps_bind; [by apply keeps_reclaim|].
  intros reclaimed.
  apply keeps_bind; [apply keeps_teardown_volumes; intros v HX; by apply references_found, Hx|].
  intros vols. keeps_steps; [apply keeps_hosted, (u_seed X U)|apply (u_slice X U)].
Qed.

Lemma keeps_teardown `{!rows_may_be_removed T} id w :
  probe_names_it ->
  (forall s r v, get path d id (db w) = (s, Ok (Some r)) -> X v -> references r v) ->
  sound I T w -> sound I T (teardown path d D F id w).1.
Proof.
  intros Hp Hx Hw. unfold teardown, mbind, agent_bind, stored at 1.
  assert (Hs : T (file (get path d id (db w)).1)) by (apply (op_keeps_reading T path d), Hw).
  destruct (get path d id (db w)) as [s [[r|]|e]] eqn:Eg; simpl; [|by split; [apply Hw|]..].
  assert (Hr : keeps I T (failures ← release path d D F id r;
     if is_nil failures then stored (delete path d id)
     else bail ("teardown of vm " +:+ Uuid.to_string id +:+ " incomplete: " +:+ join "; " failures))).
  { apply keeps_bind; [|intros; keeps_steps].
    apply keeps_release; [done|]. intros v Hv. by eapply Hx. }
  apply (Hr (mk_node s (host w))). split; [apply Hw|done].
Qed.

Lemma keeps_stop id r : keeps I T (stop_vm path d D id r).
Proof.
  unfold stop_vm, get_hypervisor. destruct (hypervisor D) as [hv|] eqn:Ehv; simpl; [|by intros w Hw].
  intros w Hw. unfold mbind at 1, agent_bind at 1. simpl. revert w Hw.
  apply keeps_bind; [apply keeps_answered; by apply (u_vmm X U)|]. intros gone.
  apply keeps_bind; [destruct gone as [|[]]; keeps_steps|]. intros _.
  apply keeps_bind.
  { destruct (VmRecord.vmm_pid r); [|apply keeps_ret]. apply keeps_hosted. intros h Hh. simpl.
    case_match; [by apply (u_pid X U)|done]. }
  intros _. apply keeps_bind; [apply keeps_gather; intros; apply keeps_teardown_device|]. intros _.
  apply keeps_bind; [apply keeps_driver_names|]. intros names.
  apply keeps_bind; [apply keeps_detach_marking|]. intros vols. apply keeps_stored.
  auto with agent.
Qed.
End release.

Lemma undisturbed_anything {H} (D : Drivers H) (F : Files H) X : undisturbed D F anything X.
Proof. by split. Qed.

(** A teardown spares what other machines own.  Let [I] be any fact about the
    host that only deprovisioning the volumes [X] could end (their bytes being
    there, say).  If the record names each of them as a reference, tearing the VM
    down keeps [I], whichever of its calls fail and whatever the disk under the
    store does.  Stopping a VM keeps even what deprovisioning any volume could
    end: it releases no bytes at all. *)
Theorem teardown_spares_references {H Bytes} `{!Codec Bytes VmRecord.t, !Codec Bytes VolumeRecord.t, !UuidParse}
    path d (D : Drivers H) (F : Files H) (I : H -> Prop) (X : VolumeId -> Prop) (w : node H Bytes) id :
  probe_names_it D -> I (host w) ->
  (undisturbed D F I X ->
   (forall s r v, get path d id (db w) = (s, Ok (Some r)) -> X v -> references r v) ->
   I (host (teardown path d D F id w).1)) /\
  (undisturbed D F I (fun _ => True) -> forall r, I (host (stop_vm path d D id r w).1)).
Proof.
  intros Hp Hw. split.
  - intros U Hx. by apply (keeps_teardown path d D F I anything X U).
  - intros U r. apply keeps_host; [by eapply keeps_stop|done].
Qed.

(** * Nothing is left behind *)

Section nothing_left.
Context {H Bytes : Type} `{!Codec Bytes VmRecord.t, !Codec Bytes VolumeRecord.t, !UuidParse}.
Context (path : string) (d : disk) (D : Drivers H) (F : Files H).

(** [P] is brought about by a call that gives back one thing the record holds. *)
Inductive owed (id : VmId) (r : VmRecord.t) (P : H -> Prop) : Prop :=
| owed_vmm :
    (forall hv h h' a, hypervisor D = Some hv -> hv_destroy hv id h = (h', a) ->
       (a = Ok tt \/ exists x, a = Err (HypervisorError.NotFound x)) -> P h') -> owed id r P
| owed_device dev :
    In dev (VmRecord.devices r) ->
    (forall n dd h h', sget n (devices D) = Some dd ->
       dev_destroy dd (Device.id dev) (Device.attachment dev) h = (h', Ok tt) -> P h') -> owed id r P
| owed_nic n :
    In n (VmRecord.nics r) ->
    (forall nd h h', networking D = Some nd -> nic_destroy nd (Nic.id n) h = (h', Ok tt) -> P h') ->
    owed id r P
| owed_unattached v handle :
    In v (AgentVmSpec.volumes (VmRecord.spec r)) -> VolumeWithId.referenced v = false ->
    existsb (fun held => N.eqb (Volume.id held) (VolumeWithId.id v)) (VmRecord.volumes r) = false ->
    List.find (with_handle (VolumeWithId.id v)) (VmRecord.unattached_volumes r) = Some handle ->
    (forall n vd h h', sget n (storage D) = Some vd ->
       deprovision vd handle h = (h', Ok tt) -> P h') -> owed id r P
| owed_detach v :
    In v (VmRecord.volumes r) -> Volume.detached v = false ->
    (forall n vd h h', sget n (storage D) = Some vd ->
       detach vd (Volume.handle v) (Volume.attachment v) h = (h', Ok tt) -> P h') -> owed id r P
| owed_bytes v :
    In v (VmRecord.volumes r) -> volume_is_referenced r (Volume.id v) = false ->
    (forall n vd h h', sget n (storage D) = Some vd ->
       deprovision vd (Volume.handle v) h = (h', Ok tt) -> P h') -> owed id r P
| owed_slice :
    (forall h h', destroy_slice (confiner D) (slice id) h = (h', Ok tt) -> P h') -> owed id r P.

Context (P : H -> Prop).

(** A step that, when it reports no failure, has brought [P] about. *)
Definition ensures (m : agent_m H Bytes (list string)) : Prop :=
  forall w w', m w = (w', Ok []) -> P (host w').

Lemma ensures_driven {E} (c : call H E unit) say what :
  (forall h h', c h = (h', Ok tt) -> P h') -> ensures (tolerant what (driven say c)).
Proof.
  intros Hc w w'. unfold tolerant, mbind, agent_bind, caught, driven. simpl.
  destruct (c (host w)) as [h [[]|e]] eqn:E'; simpl; [|done]. intros [= <-]. by eapply Hc.
Qed.

Lemma ensures_gather {A} (f : A -> agent_m H Bytes (list string)) l a :
  In a l -> (forall b, In b l -> keeps P anything (f b)) -> ensures (f a) -> ensures (gather f l).
Proof.
  intros Hin Hk Ha. induction l as [|b l IH]; [done|]. intros w w'. simpl.
  unfold mbind, agent_bind at 1. destruct (f b w) as [w1 [x|e]] eqn:E1; [|done].
  unfold agent_bind. destruct (gather f l w1) as [w2 [y|e]] eqn:E2; [|done].
  simpl. intros [= <- [-> ->]%app_eq_nil]. destruct Hin as [->|Hin].
  - apply Ha in E1. assert (HP : keeps P anything (gather f l)) by (apply keeps_gather; intros; apply Hk; by right).
    apply (keeps_host _ _ w1) in HP; [|done]. by rewrite E2 in HP.
  - eapply IH; [done|intros; apply Hk; by right|done].
Qed.

Lemma ensures_vmm id :
  (forall hv h h' a, hypervisor D = Some hv -> hv_destroy hv id h = (h', a) ->
     (a = Ok tt \/ exists x, a = Err (HypervisorError.NotFound x)) -> P h') ->
  ensures (teardown_vmm D id).
Proof.
  intros Hc w w'. unfold teardown_vmm, get_hypervisor, mbind, agent_bind, answered.
  destruct (kill_slice _ _ (host w)) as [h [[]|e]]; destruct (hypervisor D) as [hv|] eqn:Eh; simpl; try done;
    destruct (hv_destroy hv id h) as [h' [[]|[]]] eqn:Ed; simpl; try done; intros [= <-]; simpl;
    eapply Hc; eauto.
Qed.

Lemma teardown_volume_ensures r b v fl w w' :
  teardown_volume path d D r b v w = (w', Ok ([], fl)) -> undisturbed D F P (fun _ => False) ->
  (Volume.detached v = false /\
   (forall n vd h h', sget n (storage D) = Some vd ->
      detach vd (Volume.handle v) (Volume.attachment v) h = (h', Ok tt) -> P h')) \/
  (volume_is_referenced r (Volume.id v) = false /\
   (forall n vd h h', sget n (storage D) = Some vd ->
      deprovision vd (Volume.handle v) h = (h', Ok tt) -> P h')) -> P (host w').
Proof.
  intros Hrun U Howed. unfold teardown_volume in Hrun. cbv zeta in Hrun.
  apply agent_bind_ok in Hrun as (w1 & name & _ & Hrun).
  destruct (sget name (storage D)) as [vd|] eqn:En; [|done].
  apply agent_bind_ok in Hrun as (w2 & [fl1 cl] & E1 & Hrun).
  apply agent_bind_ok in Hrun as (w3 & fl2 & E2 & Hrun).
  simpl in Hrun. injection Hrun as <- [-> ->]%app_eq_nil _. destruct Howed as [[Hd Hc]|[Hr Hc]].
  - rewrite Hd in E1. apply agent_bind_ok in E1 as (w4 & a & E1 & E3). unfold answered in E1.
    destruct (detach vd _ _ _) as [h [[]|e]] eqn:Ed; injection E1 as <- <-; [|done].
    simpl in E3. injection E3 as <- _.
    match type of E2 with ?m _ = _ => assert (K : keeps P anything m) end.
    { keeps_steps; [by eapply (u_forget D F P _ U)|eapply (u_deprovision D F P _ U); [done|tauto]]. }
    apply (keeps_host _ _ (mk_node (db w1) h)) in K; [|by eapply Hc]. by rewrite E2 in K.
  - rewrite Hr in E2. eapply ensures_driven, E2. intros h h'. by eapply Hc.
Qed.

Lemma teardown_volumes_ensures r b l v cl w w' :
  In v l -> teardown_volumes path d D r b l w = (w', Ok ([], cl)) ->
  undisturbed D F P (fun _ => False) ->
  (Volume.detached v = false /\
   (forall n vd h h', sget n (storage D) = Some vd ->
      detach vd (Volume.handle v) (Volume.attachment v) h = (h', Ok tt) -> P h')) \/
  (volume_is_referenced r (Volume.id v) = false /\
   (forall n vd h h', sget n (storage D) = Some vd ->
      deprovision vd (Volume.handle v) h = (h', Ok tt) -> P h')) -> P (host w').
Proof.
  intros Hin Hrun U Howed. revert cl w w' Hin Hrun.
  induction l as [|x l IH]; intros cl w w' Hin Hrun; [done|]. simpl in Hrun.
  apply agent_bind_ok in Hrun as (w1 & [f1 c1] & E1 & Hrun).
  apply agent_bind_ok in Hrun as (w2 & [f2 c2] & E2 & Hrun).
  simpl in Hrun. injection Hrun as <- [-> ->]%app_eq_nil _. destruct Hin as [->|Hin].
  - assert (HP : P (host w1)) by (by eapply teardown_volume_ensures).
    eapply (keeps_host _ _ w1 (keeps_teardown_volumes path d D F P anything _ U _ _ l ltac:(done))) in HP.
    by rewrite E2 in HP.
  - by eapply IH.
Qed.

Lemma reclaim_ensures id r v handle :
  List.find (with_handle (VolumeWithId.id v)) (VmRecord.unattached_volumes r) = Some handle ->
  (forall n vd h h', sget n (storage D) = Some vd -> deprovision vd handle h = (h', Ok tt) -> P h') ->
  forall w w', reclaim_one path d D id r v w = (w', Ok tt) -> P (host w').
Proof.
  intros Hf Hc w w' Hrun. unfold reclaim_one in Hrun. rewrite Hf in Hrun.
  apply agent_bind_ok in Hrun as (w1 & vd & E1 & Hrun).
  assert (Ev : sget (spec_driver (VolumeWithId.spec v)) (storage D) = Some vd).
  { unfold storage_driver, pureM in E1. by destruct (sget _ _); simplify_eq/=. }
  apply agent_bind_ok in Hrun as (w2 & oh & [= <- <-] & Hrun).
  apply agent_bind_ok in Hrun as (w3 & [] & E3 & Hrun). unfold driven in E3.
  destruct (deprovision vd handle _) as [h [[]|e]] eqn:Ed; [|done]. injection E3 as <-.
  apply agent_bind_ok in Hrun as (w4 & x & E4 & [= <-]).
  unfold stored in E4. destruct (mutate _ _ _ _ _) as [s res]. injection E4 as <- _. by eapply Hc.
Qed.

(** The steps of a release that reported nothing. *)
Lemma release_run id r w w' :
  release path d D F id r w = (w', Ok []) ->
  exists w1 w2 w3 w4 w5 w6 cl,
    teardown_vmm D id w = (w1, Ok []) /\
    gather (teardown_device D r) (VmRecord.devices r) w1 = (w2, Ok []) /\
    gather (teardown_nic D) (VmRecord.nics r) w2 = (w3, Ok []) /\
    gather (teardown_overlay path d D id r true) (overlay_vnis r) w3 = (w4, Ok []) /\
    reclaim_unattached_volumes path d D id r w4 = (w5, Ok []) /\
    teardown_volumes path d D r (bool_decide (VmRecord.phase r = Phase.Receiving))
      (VmRecord.volumes r) w5 = (w6, Ok ([], cl)) /\
    exists h, destroy_slice (confiner D) (slice id) (remove_seed F id (host w6)) = (h, Ok tt) /\
              host w' = h.
Proof.
  intros Hrun. unfold release in Hrun. cbv zeta in Hrun.
  apply agent_bind_ok in Hrun as (w1 & f1 & E1 & Hrun). apply agent_bind_ok in Hrun as (w2 & f2 & E2 & Hrun).
  apply agent_bind_ok in Hrun as (w3 & f3 & E3 & Hrun). apply agent_bind_ok in Hrun as (w4 & f4 & E4 & Hrun).
  apply agent_bind_ok in Hrun as (w5 & f5 & E5 & Hrun). apply agent_bind_ok in Hrun as (w6 & [f6 cl] & E6 & Hrun).
  apply agent_bind_ok in Hrun as (w7 & [] & E7 & Hrun). apply agent_bind_ok in Hrun as (w8 & [] & E8 & Hrun).
  apply agent_bind_ok in Hrun as (w9 & a & E9 & Hrun). simpl in Hrun. injection Hrun as <- Hnil.
  repeat (apply app_eq_nil in Hnil as [-> Hnil]). destruct a as [[]|e]; [|done].
  assert (H7 : host w7 = host w6).
  { revert E7. simpl. destruct (is_nil cl); simpl; [by intros [= <-]|]. intros E7.
    apply agent_bind_ok in E7 as (w' & x & E7 & [= <-]).
    unfold caught, stored in E7. destruct (mutate _ _ _ _ _). by injection E7 as <- _. }
  injection E8 as <-. unfold answered in E9. simpl in E9. rewrite H7 in E9.
  destruct (destroy_slice _ _ _) as [h a] eqn:Ed. injection E9 as <- ->.
  exists w1, w2, w3, w4, w5, w6, cl. split_and!; eauto.
Qed.

Lemma host_after {A} (m : agent_m H Bytes A) w w' a :
  keeps P anything m -> m w = (w', Ok a) -> P (host w) -> P (host w').
Proof. intros K E HP. apply (keeps_host _ _ w) in K; [|done]. by rewrite E in K. Qed.

(** A release that reported nothing brought about everything that was owed. *)
Lemma release_pays id r w w' :
  undisturbed D F P (fun _ => False) -> owed id r P -> release path d D F id r w = (w', Ok []) ->
  P (host w').
Proof.
  intros U Howed (w1 & w2 & w3 & w4 & w5 & w6 & cl & E1 & E2 & E3 & E4 & E5 & E6 & h & E7 & ->)%release_run.
  assert (K2 : P (host w1) -> P (host w2)).
  { eapply host_after, E2. apply keeps_gather. intros. by apply (keeps_teardown_device D F P anything _ U). }
  assert (K3 : P (host w2) -> P (host w3)).
  { eapply host_after, E3. apply keeps_gather. intros. by apply (keeps_teardown_nic D F P anything _ U). }
  assert (K4 : P (host w3) -> P (host w4)).
  { eapply host_after, E4. apply keeps_gather. intros. by apply (keeps_teardown_overlay path d D F P anything _ U). }
  assert (K5 : P (host w4) -> P (host w5)).
  { eapply host_after, E5. apply (keeps_reclaim path d D F P anything _ U); naive_solver. }
  assert (K6 : P (host w5) -> P (host w6)).
  { eapply host_after, E6. by apply (keeps_teardown_volumes path d D F P anything _ U). }
  assert (K7 : P (host w6) -> P h).
  { intros HP. apply (u_seed D F P _ U id), (u_slice D F P _ U (slice id)) in HP. by rewrite E7 in HP. }
  destruct Howed as [Hc|dev Hin Hc|n Hin Hc|v hdl Hin Hnr Hnh Hf Hc|v Hin Hd Hc|v Hin Hr Hc|Hc].
  - apply K7, K6, K5, K4, K3, K2. by eapply ensures_vmm.
  - apply K7, K6, K5, K4, K3. eapply ensures_gather; [done| |..|exact E2].
    { intros. by apply (keeps_teardown_device D F P anything _ U). }
    intros w0 w0'. unfold teardown_device. destruct (sget _ _) eqn:Es; [|done].
    apply ensures_driven. intros. by eapply Hc.
  - apply K7, K6, K5, K4. eapply ensures_gather; [done| |..|exact E3].
    { intros. by apply (keeps_teardown_nic D F P anything _ U). }
    intros w0 w0'. unfold teardown_nic, get_networking. destruct (networking D) eqn:Es; [|done].
    apply ensures_driven. intros. by eapply Hc.
  - apply K7, K6. eapply (ensures_gather _ _ v); [done| |..|exact E5].
    { intros b _. simpl. destruct (_ || _); [apply keeps_ret|].
      apply keeps_tolerant, (keeps_reclaim_one path d D F P anything _ U); naive_solver. }
    intros w0 w0'. simpl. rewrite Hnr, Hnh. simpl. intros E.
    apply agent_bind_ok in E as (w1' & a & Ea & E). injection E as <- Ea'. destruct a as [[]|e]; [|done].
    unfold caught in Ea. destruct (reclaim_one _ _ _ _ _ _ _) as [w2' res] eqn:Er.
    injection Ea as <- ->. by eapply reclaim_ensures.
  - apply K7. eapply teardown_volumes_ensures; eauto.
  - apply K7. eapply teardown_volumes_ensures; eauto.
  - by eapply Hc.
Qed.
End nothing_left.

Section ending.
Context {H Bytes : Type} `{!Codec Bytes VmRecord.t, !Codec Bytes VolumeRecord.t, !UuidParse}.
Context (path : string) (d : disk) (D : Drivers H) (F : Files H).

Lemma release_tables (T : tables Bytes -> Prop) `{!rows_may_be_written T} id r (w : node H Bytes) :
  T (file (db w)) -> T (file (db (release path d D F id r w).1)).
Proof.
  intros Ht. eapply (keeps_release path d D F anything T (fun _ => False)
    (undisturbed_anything D F _) id r); [naive_solver..|done].
Qed.

Lemma delete_gone id (s s' : store Bytes) :
  bt_sorted String.compare (VMS (file s)) -> delete path d id s = (s', Ok tt) ->
  sget (Uuid.to_string id) (VMS (file s')) = None.
Proof.
  intros Hsort (t & Ht & [= <-])%attempt_ok. apply bt_get_remove_eq; [apply _..|].
  destruct Ht as [->|[v [= <-]]]; [done|]. by apply bt_remove_sorted.
Qed.

End ending.

(** * A working machine lets a VM go *)

Section completion.
Context {H Bytes : Type} `{!Codec Bytes VmRecord.t, !Codec Bytes VolumeRecord.t, !UuidParse,
  !CodecLaws Bytes VmRecord.t}.
Context (path : string) (d : disk) (D : Drivers H) (F : Files H).
Context (id : VmId) (r : VmRecord.t) (volumes : list (string * Bytes)).

(** The driver a volume's row names, as [volume_driver_name] resolves it. *)
Definition driver_of (v : VolumeId) : string :=
  let own := if volume_is_referenced r v then
               match sget (Uuid.to_string v) volumes with
               | Some bytes => match from_slice bytes with
                               | Ok row => VolumeSpec.driver (VolumeRecord.spec row)
                               | Err _ => None
                               end
               | None => None
               end
             else None in
  match own with
  | Some driver => driver
  | None => unwrap_or default_volume_driver
              (find_volume r v ≫= fun v => VolumeSpec.driver (VolumeWithId.spec v))
  end.

Definition answers {E A} (c : call H E A) : Prop := forall h, exists h' a, c h = (h', Ok a).

(** Every driver the record needs is configured and does what it is asked. *)
Record serves : Prop := {
  s_kill : answers (kill_slice (confiner D) (slice id));
  s_slice : answers (destroy_slice (confiner D) (slice id));
  s_vmm : exists hv, hypervisor D = Some hv /\
    forall h, exists h' a, hv_destroy hv id h = (h', a) /\
                (a = Ok tt \/ exists x, a = Err (HypervisorError.NotFound x));
  s_device : forall dev, In dev (VmRecord.devices r) ->
    exists dd, sget (device_driver_name r (Device.id dev)) (devices D) = Some dd /\
               answers (dev_destroy dd (Device.id dev) (Device.attachment dev));
  s_nic : forall n, In n (VmRecord.nics r) ->
    exists nd, networking D = Some nd /\ answers (nic_destroy nd (Nic.id n));
  s_overlay : forall vni, In vni (overlay_vnis r) ->
    exists br, bridge D = Some br /\ forall b, answers (destroy_overlay br vni b);
  s_volume : forall v, In v (VmRecord.volumes r) ->
    exists vd, sget (driver_of (Volume.id v)) (storage D) = Some vd /\
               answers (detach vd (Volume.handle v) (Volume.attachment v)) /\
               answers (deprovision vd (Volume.handle v)) /\ answers (forget vd (Volume.handle v));
  s_inline : forall v, In v (AgentVmSpec.volumes (VmRecord.spec r)) -> VolumeWithId.referenced v = false ->
    exists vd, sget (spec_driver (VolumeWithId.spec v)) (storage D) = Some vd /\
               answers (probe vd (VolumeWithId.id v) (VolumeWithId.spec v)) /\
               forall handle, answers (deprovision vd handle) }.

Context (quiet : forall n, fault d n = None) (encodes : forall rec : VmRecord.t, exists b : Bytes, to_vec rec = Ok b).

(** The store answers, and the row of the VM decodes. *)
Definition live (w : node H Bytes) : Prop :=
  opened (db w) = true /\ VOLUMES (file (db w)) = volumes /\
  bt_sorted String.compare (VMS (file (db w))) /\
  exists b rec, sget (Uuid.to_string id) (VMS (file (db w))) = Some b /\ from_slice b = Ok (rec : VmRecord.t).

Definition yields {A} (Q : A -> Prop) (m : agent_m H Bytes A) : Prop :=
  forall w, live w -> exists w' a, m w = (w', Ok a) /\ live w' /\ Q a.

Lemma yields_bind {A B} (Q : A -> Prop) (R : B -> Prop) (m : agent_m H Bytes A)
    (k : A -> agent_m H Bytes B) :
  yields Q m -> (forall a, Q a -> yields R (k a)) -> yields R (m ≫= k).
Proof.
  intros Hm Hk w Hw. destruct (Hm w Hw) as (w1 & a & E1 & Hw1 & Ha).
  rewrite (agent_bind_run _ _ _ _ _ E1). by apply Hk.
Qed.

Lemma yields_ret {A} (Q : A -> Prop) (a : A) : Q a -> yields Q (mret a).
Proof. intros Ha w Hw. by exists w, a. Qed.

Lemma yields_driven {E A} say (c : call H E A) : answers c -> yields (fun _ => True) (driven say c).
Proof.
  intros Hc w Hw. destruct (Hc (host w)) as (h & a & Ec). exists (mk_node (db w) h), a.
  unfold driven. by rewrite Ec.
Qed.

Lemma yields_answered {E A} (c : call H E A) :
  answers c -> yields (fun a => exists b, a = Ok b) (answered c).
Proof.
  intros Hc w Hw. destruct (Hc (host w)) as (h & a & Ec). exists (mk_node (db w) h), (Ok a).
  unfold answered. rewrite Ec. eauto.
Qed.

Lemma yields_tolerant what (m : agent_m H Bytes unit) :
  yields (fun _ => True) m -> yields (fun fl => fl = []) (tolerant what m).
Proof.
  intros Hm w Hw. destruct (Hm w Hw) as (w1 & [] & E1 & Hw1 & _). exists w1, [].
  unfold tolerant. erewrite agent_bind_run by (unfold caught; by rewrite E1). done.
Qed.

Lemma yields_gather {A} (f : A -> agent_m H Bytes (list string)) l :
  (forall a, In a l -> yields (fun fl => fl = []) (f a)) -> yields (fun fl => fl = []) (gather f l).
Proof.
  induction l as [|a l IH]; intros Hf; simpl; [by apply yields_ret|].
  eapply yields_bind; [apply Hf; by left|]. intros ? ->.
  eapply yields_bind; [apply IH; intros; apply Hf; by right|]. intros ? ->. by apply yields_ret.
Qed.

(** ** The quiet store *)

Lemma attempt_quiet {A} write (op : tx Bytes A) (s : store Bytes) t v :
  opened s = true -> op (file s) = Ok (t, v) ->
  exists s', attempt path d write op s = (s', Ok v) /\ opened s' = true /\ file s' = t.
Proof.
  intros Ho Hop. unfold attempt, once. rewrite Ho, quiet, Hop. simpl.
  destruct write; eexists; split_and!; done.
Qed.

Lemma yields_reading {A} (f : tables Bytes -> A) Q :
  (forall w, live w -> Q (f (file (db w)))) -> yields Q (stored (reading path d f)).
Proof.
  intros HQ w Hw. destruct w as [s h].
  destruct (attempt_quiet false (fun t => Ok (t, f t)) s (file s) (f (file s))) as (s' & E & Ho & Hf);
    [apply Hw|done|].
  exists (mk_node s' h), (f (file s)). unfold stored, reading. simpl. rewrite E. split; [done|].
  unfold live in *. simpl in *. rewrite Ho, Hf. split; [tauto|]. by apply (HQ (mk_node s h)).
Qed.

Lemma yields_mutate g : yields (fun _ => True) (stored (mutate path d id g)).
Proof.
  intros [s h] (Ho & Hv & Hs & b & rec & Hb & Hr). simpl in *.
  destruct (encodes (g rec)) as [b' Hb'].
  destruct (attempt_quiet true (fun t =>
      match sget (Uuid.to_string id) (VMS t) with
      | None => Ok (t, None)
      | Some bytes =>
          match from_slice bytes with
          | Err e => Err (plain ("corrupt record for vm " +:+ Uuid.to_string id +:+ ": " +:+ e))
          | Ok record =>
              match to_vec (g record) with
              | Err e => Err (plain ("serializing vm record: " +:+ e))
              | Ok bytes =>
                  Ok (on_vms (sinsert (Uuid.to_string id) bytes) t, Some (g record))
              end
          end
      end) s (on_vms (sinsert (Uuid.to_string id) b') (file s)) (Some (g rec))) as (s' & E & Ho' & Hf);
    [done|by rewrite Hb, Hr, Hb'|].
  exists (mk_node s' h), (Some (g rec)). unfold stored, mutate, writing. simpl. rewrite E.
  split; [done|]. split; [|done]. unfold live. simpl. rewrite Ho', Hf. simpl. split_and!; try done.
  - by apply sorted_stays.
  - exists b', (g rec). unfold sget, sinsert. rewrite bt_get_insert_eq by apply _.
    by rewrite (from_to _ _ Hb').
Qed.

(** ** The steps of a release *)

Context (S : serves).

Lemma yields_caught {A} (Q : A -> Prop) (m : agent_m H Bytes A) :
  yields Q m -> yields (fun a => exists b, a = Ok b /\ Q b) (caught m).
Proof.
  intros Hm w Hw. destruct (Hm w Hw) as (w1 & a & E1 & Hw1 & Ha). exists w1, (Ok a).
  unfold caught. rewrite E1. eauto.
Qed.

Lemma yields_driver_name v : yields (fun n => n = driver_of v) (volume_driver_name path d r v).
Proof.
  unfold volume_driver_name.
  set (own := if volume_is_referenced r v then
               match sget (Uuid.to_string v) volumes with
               | Some bytes => match from_slice bytes with
                               | Ok row => VolumeSpec.driver (VolumeRecord.spec row)
                               | Err _ => None
                               end
               | None => None
               end
             else None).
  apply (yields_bind (fun o => o = own)); [|by intros ? ->; apply yields_ret].
  unfold own. destruct (volume_is_referenced r v); [|by apply yields_ret].
  eapply yields_bind.
  { apply yields_caught, (yields_reading _ (fun o => o =
      match sget (Uuid.to_string v) volumes with
      | Some bytes => result_ok (from_slice bytes)
      | None => None
      end)). intros w (_ & Hv & _). by rewrite Hv. }
  intros ? (? & -> & ->). apply yields_ret. destruct (sget _ volumes); [|done].
  by destruct (from_slice _).
Qed.

Lemma yields_vmm : yields (fun fl => fl = []) (teardown_vmm D id).
Proof.
  unfold teardown_vmm. eapply yields_bind; [apply yields_answered, (s_kill S)|]. intros ? [[] ->].
  destruct (s_vmm S) as (hv & Ehv & Hd). unfold get_hypervisor. rewrite Ehv. simpl.
  apply (yields_bind (fun fl => fl = [])); [|by intros ? ->; apply yields_ret].
  intros w Hw. destruct (Hd (host w)) as (h & a & Ea & Hcase). exists (mk_node (db w) h), [].
  erewrite agent_bind_run by (unfold answered; by rewrite Ea).
  destruct Hcase as [->|[x ->]]; done.
Qed.

Lemma yields_device dev :
  In dev (VmRecord.devices r) -> yields (fun fl => fl = []) (teardown_device D r dev).
Proof.
  intros (dd & E & Ha)%(s_device S). unfold teardown_device. rewrite E.
  by apply yields_tolerant, yields_driven.
Qed.

Lemma yields_nic n : In n (VmRecord.nics r) -> yields (fun fl => fl = []) (teardown_nic D n).
Proof.
  intros (nd & E & Ha)%(s_nic S). unfold teardown_nic, get_networking. rewrite E. simpl.
  by apply yields_tolerant, yields_driven.
Qed.

Lemma yields_overlay vni :
  In vni (overlay_vnis r) -> yields (fun fl => fl = []) (teardown_overlay path d D id r true vni).
Proof.
  intros (br & E & Ha)%(s_overlay S). unfold teardown_overlay. simpl.
  eapply yields_bind.
  { apply (yields_caught (fun _ => True)). unfold overlay_users.
    eapply (yields_bind (fun _ => True)); [by apply yields_reading|]. intros. by apply yields_ret. }
  intros ? (n & -> & _). destruct n; [|by apply yields_ret]. unfold get_bridge. rewrite E. simpl.
  by apply yields_tolerant, yields_driven.
Qed.

Lemma yields_reclaim : yields (fun fl => fl = []) (reclaim_unattached_volumes path d D id r).
Proof.
  apply yields_gather. intros v Hv. destruct (_ || _) eqn:E; [by apply yields_ret|].
  apply orb_false_iff in E as [Hnr _]. destruct (s_inline S v Hv Hnr) as (vd & Ev & Hp & Hd).
  apply yields_tolerant. unfold reclaim_one, storage_driver. rewrite Ev. simpl.
  eapply (yields_bind (fun x => x = vd)); [intros w Hw; by exists w, vd|]. intros ? ->.
  eapply (yields_bind (fun _ => True)).
  - destruct (List.find _ _); [by apply yields_ret|].
    eapply yields_bind; [by apply yields_driven|]. intros [handle|] _; [|by apply yields_ret].
    eapply yields_bind; [apply yields_mutate|]. intros _ _. by apply yields_ret.
  - intros [handle|] _; [|by apply yields_ret].
    eapply yields_bind; [by apply yields_driven|]. intros _ _.
    eapply yields_bind; [apply yields_mutate|]. intros _ _. by apply yields_ret.
Qed.

Lemma yields_volume b v :
  In v (VmRecord.volumes r) -> yields (fun a => a.1 = []) (teardown_volume path d D r b v).
Proof.
  intros (vd & Ev & Hdet & Hdep & Hfor)%(s_volume S). unfold teardown_volume. cbv zeta.
  eapply yields_bind; [apply yields_driver_name|]. intros ? ->. rewrite Ev.
  eapply (yields_bind (fun a : list string * bool => a.1 = [])).
  - destruct (Volume.detached v); [by apply yields_ret|].
    eapply yields_bind; [by apply yields_answered|]. intros ? [[] ->]. by apply yields_ret.
  - intros [f c] ->. eapply (yields_bind (fun fl => fl = [])); [|intros ? ->; by apply yields_ret].
    destruct (volume_is_referenced _ _); [destruct b|]; try (by apply yields_ret);
      by apply yields_tolerant, yields_driven.
Qed.

Lemma yields_volumes b l :
  (forall v, In v l -> In v (VmRecord.volumes r)) ->
  yields (fun a => a.1 = []) (teardown_volumes path d D r b l).
Proof.
  induction l as [|v l IH]; intros Hl; simpl; [by apply yields_ret|].
  eapply yields_bind; [apply yields_volume, Hl; by left|]. intros [f c] Hf. simpl in Hf. subst f.
  eapply yields_bind; [apply IH; intros; apply Hl; by right|]. intros [f c'] Hf. simpl in Hf. subst f.
  by apply yields_ret.
Qed.

Lemma yields_release : yields (fun fl => fl = []) (release path d D F id r).
Proof.
  unfold release. cbv zeta. eapply yields_bind; [apply yields_vmm|]. intros ? ->.
  eapply yields_bind; [apply yields_gather, yields_device|]. intros ? ->.
  eapply yields_bind; [apply yields_gather, yields_nic|]. intros ? ->. simpl.
  eapply yields_bind; [apply yields_gather, yields_overlay|]. intros ? ->.
  eapply yields_bind; [apply yields_reclaim|]. intros ? ->.
  eapply yields_bind; [by apply yields_volumes|]. intros [f c] Hf. simpl in Hf. subst f. simpl.
  eapply (yields_bind (fun _ => True)).
  { destruct (is_nil c); [by apply yields_ret|].
    eapply yields_bind; [apply yields_caught, yields_mutate|]. intros. by apply yields_ret. }
  intros _ _. eapply (yields_bind (fun _ => True)).
  { intros w Hw. unfold hosted. by exists (mk_node (db w) (remove_seed F id (host w))), tt. }
  intros _ _. eapply yields_bind; [apply yields_answered, (s_slice S)|]. intros ? [[] ->].
  by apply yields_ret.
Qed.
End completion.

Lemma teardown_finishes {H Bytes} `{!Codec Bytes VmRecord.t, !Codec Bytes VolumeRecord.t, !UuidParse,
    !CodecLaws Bytes VmRecord.t} path d (D : Drivers H) (F : Files H) id r (w : node H Bytes) :
  (forall n, fault d n = None) -> (forall rec : VmRecord.t, exists b : Bytes, to_vec rec = Ok b) ->
  live id (VOLUMES (file (db w))) w -> (get path d id (db w)).2 = Ok (Some r) ->
  serves D id r (VOLUMES (file (db w))) ->
  exists w', teardown path d D F id w = (w', Ok tt) /\
             sget (Uuid.to_string id) (VMS (file (db w'))) = None.
Proof.
  intros Hq He Hw Hget S. unfold teardown.
  destruct (yields_reading path d id (VOLUMES (file (db w))) Hq (fun t =>
      match sget (Uuid.to_string id) (VMS t) with
      | Some bytes => result_ok (from_slice bytes : result string VmRecord.t) | None => None end) (fun _ => True)
      ltac:(done) w Hw) as (w1 & a & E1 & Hw1 & _).
  assert (a = Some r) as ->.
  { unfold stored, get, get_row in *. destruct (reading _ _ _ _) as [s1 [x|e]]; [|done].
    simpl in *. congruence. }
  erewrite agent_bind_run by exact E1.
  destruct (yields_release path d D F id r _ Hq He S w1 Hw1) as (w2 & ? & E2 & Hw2 & ->).
  erewrite agent_bind_run by exact E2. simpl.
  destruct (attempt_quiet path d Hq true (fun t => Ok (on_vms (sremove (Uuid.to_string id)) t, tt))
              (db w2) _ tt ltac:(apply Hw2) eq_refl) as (s3 & E3 & _ & Hf3).
  exists (mk_node s3 (host w2)). unfold stored, delete, delete_row, writing. rewrite E3.
  split; [done|]. simpl. rewrite Hf3. simpl. apply bt_get_remove_eq; [apply _..|]. apply Hw2.
Qed.

(** A working machine lets a VM go.  With a disk that answers, a row that
    decodes, and every driver the record needs configured and answering, a teardown
    returns success and the VM's row is gone afterwards; so a VM that is not wanted
    is forgotten by the first pass that finds the machine working, however many
    passes failed before it. *)
Theorem teardown_completes {H Bytes} `{!Codec Bytes VmRecord.t, !Codec Bytes VolumeRecord.t, !UuidParse,
    !CodecLaws Bytes VmRecord.t} path d (D : Drivers H) (F : Files H) id r (w : node H Bytes) :
  (forall n, fault d n = None) -> (forall rec : VmRecord.t, exists b : Bytes, to_vec rec = Ok b) ->
  live id (VOLUMES (file (db w))) w -> (get path d id (db w)).2 = Ok (Some r) ->
  serves D id r (VOLUMES (file (db w))) ->
  exists w', teardown path d D F id w = (w', Ok tt) /\
             sget (Uuid.to_string id) (VMS (file (db w'))) = None.
Proof. apply teardown_finishes. Qed.

(** * The theorems on the machine in memory *)

Section in_memory.
Context (refused : list string).

Lemma doing_keeps {E A} I what (no : E) f (a : A) :
  (forall m, I m -> I (f m)) -> call_keeps I (doing refused what no f a).
Proof. intros Hf m Hm. unfold doing. by destruct (str_in what refused); [|apply Hf]. Qed.

(** A fact about the disks, undisturbed but by deprovisioning some of them. *)
Lemma sim_undisturbed (K : list VolumeId -> Prop) (X : VolumeId -> Prop) :
  (forall v l, ~ X v -> K l -> K (drop_id v l)) ->
  undisturbed (sim_drivers refused) (sim_files refused) (fun m => K (disks m)) X.
Proof.
  intros HK. split; simpl; intros; simplify_eq/=; try done; intros m Hm; unfold sget in *; simpl in *;
    repeat (case_match; simplify_eq/=; try done); unfold doing in *; simpl in *;
    repeat (case_match; simplify_eq/=; try done); by apply HK.
Qed.

Lemma sim_probe : probe_names_it (sim_drivers refused).
Proof.
  intros n vd v s h h' x Hs Hp. unfold sget in Hs. simpl in Hs.
  repeat case_match; simplify_eq/=; unfold doing in Hp; repeat case_match; by simplify_eq/=.
Qed.
End in_memory.

Lemma in_drop_id v x l : v <> x -> In x l -> In x (drop_id v l).
Proof. intros Hne Hin. apply filter_In. split; [done|]. apply negb_true_iff, N.eqb_neq. congruence. Qed.

(** The referenced disk [2] survives a teardown whose detaching is refused, and a stop. *)
Lemma teardown_spares_references_witness :
  In 2%N (disks (host (teardown "db" quiet_disk (sim_drivers ["detach"]) (sim_files []) 7%N sim_running).1)) /\
  In 2%N (disks (host (stop_vm "db" quiet_disk (sim_drivers ["detach"]) 7%N
                         (VmRecord.fresh sim_spec Desired.Stopped true) sim_running).1)).
Proof.
  destruct (teardown_spares_references "db" quiet_disk (sim_drivers ["detach"]) (sim_files ["detach"])
    (fun m => In 2%N (disks m)) (eq 2%N) sim_running 7%N (sim_probe _)) as [Ht _].
  { vm_compute. auto. }
  destruct (teardown_spares_references "db" quiet_disk (sim_drivers ["detach"]) (sim_files ["detach"])
    (fun m => In 2%N (disks m)) (fun _ => True) sim_running 7%N (sim_probe _)) as [_ Hs].
  { vm_compute. auto. }
  split.
  - apply Ht.
    + apply (sim_undisturbed _ (fun l => In 2%N l)). intros v l Hv. apply in_drop_id. congruence.
    + intros s r v Hg <-. vm_compute in Hg. injection Hg as _ <-. split.
      * exists (VolumeWithId.mk 2 (VolumeSpec.mk None 0 None None) true). split; [|done].
        simpl. auto.
      * simpl. intros e [<-|[<-|[]]]; done.
  - apply Hs. apply (sim_undisturbed _ (fun l => In 2%N l)). intros v l Hv. by destruct Hv.
Defined.

Definition sim_record : VmRecord.t :=
  Eval vm_compute in
  match (get "db" quiet_disk 7 (db sim_running)).2 with
  | Ok (Some r) => r
  | _ => VmRecord.fresh sim_spec Desired.Running true
  end.

Definition sim_teardown : node machine mem_bytes * result string unit :=
  Eval vm_compute in
  teardown "db" quiet_disk (sim_drivers []) (sim_files []) 7 sim_running.


Lemma doing_answers {E A} what (no : E) f (a : A) : answers (doing [] what no f a).
Proof. intros m. by exists (f m), a. Qed.

Lemma sim_serves : serves (sim_drivers []) 7 sim_record (VOLUMES (file (db sim_running))).
Proof.
  split; try (apply doing_answers).
  - exists (sim_hypervisor []). split; [done|]. intros m. simpl.
    destruct (guest_state m 7) as [st|]; unfold doing; simpl; eauto 6.
  - intros dev [<-|[]]. exists (sim_devices []). split; [done|apply doing_answers].
  - intros n [<-|[]]. exists (sim_nics []). split; [done|apply doing_answers].
  - intros vni [].
  - intros v [<-|[<-|[]]]; exists (sim_volumes []); (split; [done|]); split_and!; apply doing_answers.
  - intros v [<-|[<-|[]]] Hr; [|done]. exists (sim_volumes []). split; [done|].
    split; [|intros; apply doing_answers]. intros m. apply doing_answers.
Qed.

Lemma teardown_completes_witness :
  exists w', teardown "db" quiet_disk (sim_drivers []) (sim_files []) 7 sim_running = (w', Ok tt) /\
             sget (Uuid.to_string 7) (VMS (file (db w'))) = None.
Proof.
  apply (teardown_completes "db" quiet_disk (sim_drivers []) (sim_files []) 7 sim_record sim_running).
  - done.
  - intros rec. by exists (VmBytes rec).
  - split_and!; [done..|repeat constructor|]. by exists (VmBytes sim_record), sim_record.
  - vm_compute. reflexivity.
  - apply sim_serves.
Defined.
