(* ===== verification/AgentMigrate.v ===== *)
(** Live migration at one node: the two ends of a transfer, their durable attempt
    and the barrier that keeps repair away from a guest in flight
    ([src/components/agent/src/provision/migrate.rs]). *)
From Stdlib Require Import Ascii String NArith ZArith List Bool Lia.
From stdpp Require Import base list strings.
From S2P Require Import Prelude RustStr Json AgentTypes AgentStore AgentHost AgentDisks AgentProvision.

(** Evidence about a guest that was sent. *)
Module SendEvidence.
Inductive t := Gone | StillHere (why : string).
End SendEvidence.

(** A final refusal of a send ([CannotSend]), told apart from an error whose outcome
    is open. *)
Inductive send_answer := Accepted | CannotSend (why : string).

(** [Debug] of the values an error message prints. *)
Definition debug_phase (p : Phase.t) : string :=
  match p with
  | Phase.Provisioning => "Provisioning"
  | Phase.VolumesDone => "VolumesDone"
  | Phase.NetworkDone => "NetworkDone"
  | Phase.DevicesDone => "DevicesDone"
  | Phase.Provisioned => "Provisioned"
  | Phase.Receiving => "Receiving"
  | Phase.Migrated => "Migrated"
  end.

Definition debug_operation (o : Operation.t) : string :=
  match o with
  | Operation.Snapshotting target => "Snapshotting { target: " +:+ debug target +:+ " }"
  | Operation.Restoring source => "Restoring { source: " +:+ debug source +:+ " }"
  | Operation.MigratingOut peer => "MigratingOut { peer: " +:+ debug peer +:+ " }"
  | Operation.MigratingIn peer => "MigratingIn { peer: " +:+ debug peer +:+ " }"
  end.

Definition refuse_devices (id : VmId) (devices : list DeviceWithId.t) : result string unit :=
  if is_nil devices then Ok tt
  else
    let drivers := dedup String.eqb (sort_by String.compare
                     (map (fun dv => DeviceSpec.driver (DeviceWithId.spec dv)) devices)) in
    Err ("vm " +:+ Uuid.to_string id +:+ " has " +:+ show_N (N.of_nat (length devices)) +:+
         " device(s) (" +:+ join ", " drivers +:+
         "): their state lives in backends on the source host and no live migration carries it; move the vm by reboot instead").

Section migrate.
Context {H Bytes : Type} `{!Codec Bytes VmRecord.t, !Codec Bytes VolumeRecord.t, !UuidParse}.
Context (path : string) (d : disk) (D : Drivers H) (F : Files H) (cfg : settings).
(** SHA-256 and the custom UUID layout, of which NIC ids are made. *)
Context (sha256 : list N -> list N) (from_custom_bytes : list N -> Uuid.t).

Abbreviation M := (agent_m H Bytes).
Abbreviation C := (chain_m H Bytes).

Definition refuse_nics_with_rolled_ids (id : VmId) (nics : list NicWithId.t) : result string unit :=
  let rolled := map (fun n => Uuid.to_string (NicWithId.id n))
                  (nics_with_rolled_ids sha256 from_custom_bytes id nics) in
  if is_nil rolled then Ok tt
  else Err ("vm " +:+ Uuid.to_string id +:+ " predates NIC ids derived from the vm's own (nic " +:+
            join ", " rolled +:+
            "): a destination would name its taps otherwise than this node did; move the vm by reboot or recreate it").

Definition sender (id : VmId) (s : AgentVmSpec.t) (hv : Hypervisor H) : result string (Migratable H) :=
  migratable ← ok_or "this node's hypervisor cannot send a live migration; the vm has to move by reboot instead"
                 (as_migratable hv);
  _ ← refuse_devices id (AgentVmSpec.devices s);
  _ ← refuse_nics_with_rolled_ids id (AgentVmSpec.nics s);
  Ok migratable.

(** ** The destination *)

(** [receive]: the chain's other end.  [deadline] is the instant the receiver
    stops waiting for the guest. *)
Definition receive (id : VmId) (listen : string) (deadline : Z) : C unit :=
  hv ← on_node (pureM (get_hypervisor D));
  migratable ← on_node (pureM (ok_or "this node's hypervisor cannot receive a live migration; the vm has to move by reboot instead"
                                 (as_migratable hv)));
  pid ← on_node (driven (fun e => within "hypervisor migrate_in" (say_hypervisor e))
                   (migrate_in migratable id listen));
  _ ← change (VmRecord.set_vmm_pid (Some pid));
  attached ← on_node (answered (attach_pid (confiner D) (slice id) pid));
  match attached with
  | Err e =>
      _ ← on_node (answered (hv_destroy hv id));
      _ ← change (VmRecord.set_vmm_pid None);
      on_node (bail (within ("putting the receiving vmm for vm " +:+ Uuid.to_string id +:+ " in its slice") e))
  | Ok _ =>
      _ ← change (fun r => VmRecord.set_receive_deadline (Some deadline)
                             (VmRecord.set_phase Phase.Receiving r));
      save path d id
  end.

(** The record a reception starts from. *)
Definition receiving_record (s : AgentVmSpec.t) (listen migration_id : string) (managed : bool)
  : VmRecord.t :=
  VmRecord.set_migration (Some (MigrationAttempt.mk migration_id listen true false None))
    (VmRecord.set_operation (Some (Operation.MigratingIn listen))
       (VmRecord.fresh s Desired.Running managed)).

Definition prepare_migration (id : VmId) (s : AgentVmSpec.t) (listen : string) (managed : bool)
    (migration_id : string) (deadline : Z) : M unit :=
  if str_is_empty migration_id then bail "migration requires an operation identity"
  else
  found ← stored (row path d id);
  match found with
  | Some (Record_ _ _) =>
      bail ("this node already has a record of vm " +:+ Uuid.to_string id +:+
            "; it cannot receive it as well")
  | Some (Unreadable key) =>
      bail ("this node has a record of vm " +:+ key +:+
            " that it cannot read; it cannot receive the vm as well. The row has to be looked at before this node takes the guest: receiving over it would build a second vmm on top of whatever it describes.")
  | None =>
      match List.find (fun v => negb (VolumeWithId.referenced v)) (AgentVmSpec.volumes s) with
      | Some inline =>
          bail ("vm " +:+ Uuid.to_string id +:+ " has an inline disk (" +:+
                Uuid.to_string (VolumeWithId.id inline) +:+
                "): it is an instance store, made with the vm on the machine it is standing on, and no live migration takes it along. Give the vm a `Volume` on a shared or networked pool instead.")
      | None =>
          _ ← pureM (refuse_devices id (AgentVmSpec.devices s));
          _ ← check_device_admission path d D id s;
          claimed ← stored (claim_migration path d id migration_id false);
          if negb claimed then bail "migration attempt was already handled or cancelled"
          else
            let r := receiving_record s listen migration_id managed in
            _ ← stored (put path d id r);
            done ← with_record r (run_chain path d D F cfg id (fun _ => receive id listen deadline));
            let r := VmRecord.set_operation None done.1 in
            match done.2 with
            | Ok _ => stored (put path d id r)
            | Err e =>
                _ ← caught (stored (put path d id r));
                td ← caught (teardown path d D F id);
                match td with
                | Ok _ => bail e
                | Err td => bail (within ("teardown after a failed migration prepare also failed: " +:+ td) e)
                end
            end
      end
  end.

Definition migration_arrived (id : VmId) : M unit :=
  found ← stored (get path d id);
  match found with
  | None => mret tt
  | Some r =>
      if negb (bool_decide (VmRecord.phase r = Phase.Receiving)) then mret tt
      else stored (put path d id (VmRecord.set_receive_deadline None
                                    (VmRecord.set_phase Phase.Provisioned r)))
  end.

(** ** The source *)

Definition keep_refused_send (id : VmId) (r : VmRecord.t) (why : string) : M send_answer :=
  _ ← caught (stored (put path d id (VmRecord.set_send_failed (Some why) r)));
  mret (CannotSend why).

(** The record of an attempt about to be submitted. *)
Definition sending_record (r : VmRecord.t) (peer migration_id : string) : VmRecord.t :=
  VmRecord.set_send_failed None
    (VmRecord.set_migration (Some (MigrationAttempt.mk migration_id peer false false None)) r).

Definition set_attempt (f : MigrationAttempt.t -> MigrationAttempt.t) (r : VmRecord.t) : VmRecord.t :=
  VmRecord.set_migration (option_map f (VmRecord.migration r)) r.

Definition begin_migrate_out (id : VmId) (peer migration_id : string) : M send_answer :=
  if str_is_empty migration_id then bail "migration requires an operation identity"
  else
  hv ← pureM (get_hypervisor D);
  found ← stored (get path d id);
  r ← pureM (ok_or ("this node has no record of vm " +:+ Uuid.to_string id) found);
  if negb (bool_decide (VmRecord.phase r = Phase.Provisioned)) || negb (is_some (VmRecord.vmm_pid r)) then
    bail ("vm " +:+ Uuid.to_string id +:+ " is not running here (" +:+
          debug_phase (VmRecord.phase r) +:+ "); only a running guest migrates live")
  else
  match VmRecord.operation r with
  | Some op =>
      bail ("vm " +:+ Uuid.to_string id +:+ " is already being sent to " +:+ debug_operation op +:+
            "; a guest is sent to one machine at a time")
  | None =>
      claimed ← stored (claim_migration path d id migration_id false);
      if negb claimed then bail "migration attempt was already handled"
      else
        let r := sending_record r peer migration_id in
        match sender id (VmRecord.spec r) hv with
        | Err why => keep_refused_send id r why
        | Ok migratable =>
            let r := VmRecord.set_operation (Some (Operation.MigratingOut peer)) r in
            _ ← stored (put path d id r);
            sent ← answered (migrate_out migratable id peer);
            match sent with
            | Err e =>
                let said := say_hypervisor e in
                _ ← stored (put path d id (set_attempt (MigrationAttempt.set_unknown
                              (Some ("send acceptance is unknown: " +:+ said))) r));
                bail ("sending vm " +:+ Uuid.to_string id +:+ " to " +:+ peer +:+ ": " +:+ said)
            | Ok _ =>
                _ ← stored (put path d id (set_attempt MigrationAttempt.set_accepted r));
                mret Accepted
            end
        end
  end.

(** What one look at the machine says about a sent guest. *)
Definition look (hv : Hypervisor H) (migratable : Migratable H) (id : VmId) (snapshot : VmRecord.t)
    (attempt : MigrationAttempt.t) : M (option SendEvidence.t) :=
  responsive ← hosted (hv_probe hv id);
  if (responsive : bool) then
    if MigrationAttempt.accepted attempt then
      said ← hosted (send_failed migratable id);
      mret (option_map SendEvidence.StillHere said)
    else mret None
  else
    h ← hosted (fun h => (h, h));
    mret (if is_some_and (fun pid => negb (owns_pid hv id pid h)) (VmRecord.vmm_pid snapshot)
          then Some SendEvidence.Gone else None).

Definition is_sending (r : VmRecord.t) : bool := is_some_and Operation.is_out (VmRecord.operation r).

(** Under the operations lock: the evidence is recorded, unless the record has
    moved on from the attempt it is about. *)
Definition settle_send (id : VmId) (attempt : MigrationAttempt.t) (evidence : SendEvidence.t) : M bool :=
  found ← stored (get path d id);
  match found with
  | None => mret true
  | Some r =>
      if negb (bool_decide (VmRecord.migration r = Some attempt)) || negb (is_sending r) then mret true
      else
        let r := set_attempt (MigrationAttempt.set_unknown None) (VmRecord.set_operation None r) in
        r ← match evidence with
            | SendEvidence.Gone =>
                let r := VmRecord.set_send_failed None (VmRecord.set_vmm_pid None
                           (VmRecord.set_phase Phase.Migrated r)) in
                _ ← stored (put path d id r);
                detach_volumes path d D r
            | SendEvidence.StillHere why => mret (VmRecord.set_send_failed (Some why) r)
            end;
        _ ← stored (put path d id r);
        mret true
  end.

(** A step that runs after other tasks did [f]. *)
Definition awaiting {A} (f : node H Bytes -> node H Bytes) (m : M A) : M A := fun w => m (f w).

(** [meanwhile] is what other tasks do while the lock is awaited. *)
Definition observe_send (meanwhile : node H Bytes -> node H Bytes) (id : VmId) (migration_id : string)
  : M bool :=
  found ← stored (get path d id);
  match found with
  | None => mret true
  | Some snapshot =>
      if negb (is_sending snapshot) then mret true
      else match VmRecord.migration snapshot with
      | None => mret false
      | Some attempt =>
          if negb (String.eqb (MigrationAttempt.id attempt) migration_id)
             || MigrationAttempt.incoming attempt
          then mret true
          else
            hv ← pureM (get_hypervisor D);
            match as_migratable hv with
            | None => mret false
            | Some migratable =>
                evidence ← look hv migratable id snapshot attempt;
                match evidence with
                | None => mret false
                | Some evidence => awaiting meanwhile (settle_send id attempt evidence)
                end
            end
      end
  end.

(** The watcher's last act: the deadline passed, the outcome is unknown. *)
Definition give_up_watching (id : VmId) (peer migration_id : string) : M unit :=
  found ← caught (stored (get path d id));
  match found with
  | Ok (Some r) =>
      if is_some (VmRecord.operation r)
         && is_some_and (fun a => String.eqb (MigrationAttempt.id a) migration_id
                                  && String.eqb (MigrationAttempt.peer a) peer) (VmRecord.migration r)
      then _ ← caught (stored (put path d id (set_attempt (MigrationAttempt.set_unknown
                  (Some "send deadline elapsed; transfer outcome is unknown")) r)));
           mret tt
      else mret tt
  | _ => mret tt
  end.

(** [finish_migrate_out]: the watcher's loop.  [elapsed i] is the time since the
    send at the end of the [i]th observation, [others i] what other tasks do during
    it; the fuel bounds the observations, and [None] says it ran out. *)
Fixpoint finish_migrate_out (fuel : nat) (ceiling : Z) (elapsed : nat -> Z)
    (others : nat -> node H Bytes -> node H Bytes) (i : nat)
    (id : VmId) (peer migration_id : string) (w : node H Bytes) : option (node H Bytes) :=
  match fuel with
  | O => None
  | S fuel' =>
      match observe_send (others i) id migration_id w with
      | (w', Ok true) => Some w'
      | (w', Err _) => Some w'
      | (w', Ok false) =>
          if (ceiling <=? elapsed i)%Z
          then Some (give_up_watching id peer migration_id (others i w')).1
          else finish_migrate_out fuel' ceiling elapsed others (S i) id peer migration_id (others i w')
      end
  end.

(** ** Cleanup *)

(** The attempt owns the record, in the state its end may be cleaned up in. *)
Definition may_clean (id : VmId) (migration_id : string) (source : bool) (r : VmRecord.t) : M unit :=
  attempt ← pureM (ok_or "legacy migration requires recovery" (VmRecord.migration r));
  if negb (String.eqb (MigrationAttempt.id attempt) migration_id
           && negb (Bool.eqb (MigrationAttempt.incoming attempt) source))
  then bail "migration cleanup does not own this record"
  else if source then
    if bool_decide (VmRecord.phase r = Phase.Migrated) && negb (is_some (VmRecord.operation r))
    then mret tt else bail "source departure has not been established"
  else if bool_decide (VmRecord.phase r = Phase.Provisioned)
  then bail "destination already received the guest"
  else
    hv ← pureM (get_hypervisor D);
    state ← answered (get_state hv id);
    match state with
    | Ok (VmState.Running | VmState.Paused) => bail "destination may hold the guest"
    | _ => mret tt
    end.

Definition cleanup_migration (id : VmId) (migration_id : string) (source : bool) : M unit :=
  if str_is_empty migration_id then bail "migration cleanup requires an operation identity"
  else
  found ← stored (row path d id);
  _ ← match found with
      | None => mret tt
      | Some (Unreadable _) =>
          bail ("cannot verify migration ownership of unreadable vm " +:+ Uuid.to_string id)
      | Some (Record_ _ r) => may_clean id migration_id source r
      end;
  _ ← stored (claim_migration path d id migration_id true);
  teardown path d D F id.
End migrate.
