(* ===== verification/AgentReconcile.v ===== *)
(** The agent's reconciliation loop: observing a VM, planning, revalidating the plan
    under the operations lock and acting on it, with the retry schedule and the
    counters it holds in memory ([src/components/agent/src/reconcile/mod.rs],
    [act.rs] and [observe.rs]). *)
From Stdlib Require Import Ascii String NArith ZArith List Bool Lia.
From stdpp Require Import base list strings.
From S2P Require Import Prelude RustStr Json AgentTypes AgentPlan AgentStore AgentHost AgentDisks AgentProvision AgentMigrate.

Module FailureState.
Record t := mk { failures : N; next_attempt : Z; last_error : string }.
End FailureState.

Module Summary.
Record t := mk {
  total : nat; adopted : nat; provisioned : nat; lifecycle : nat; torn_down : nat;
  blocked : nat; quarantined : nat; failed : nat }.
End Summary.

Module VmReport.
Record t := mk {
  id : VmId;
  phase : ReportedPhase.t;
  reason : option AgentVmReason.t;
  message : option string;
  volumes : list VolumeId;
  nics : list (string * string);
  departure : option Departure.t }.
End VmReport.

(** The reconciler's memory; an agent restart empties it. *)
Record memory := mk_memory {
  failures : list (VmId * FailureState.t);
  resume_failures : list (VmId * N);
  held_strays : list (VmId * Z) }.

Definition set_failures f (m : memory) := mk_memory f (resume_failures m) (held_strays m).
Definition set_resume_failures f (m : memory) := mk_memory (failures m) f (held_strays m).
Definition set_held_strays f (m : memory) := mk_memory (failures m) (resume_failures m) f.

Definition SECOND : Z := 1000000000.
Definition BACKOFF_BASE : Z := 30 * SECOND.
Definition BACKOFF_MAX : Z := 15 * 60 * SECOND.
Definition MAX_CONVERGE_STEPS : nat := 4.
Definition RESUME_ATTEMPTS : N := 3.
Definition STRAY_GRACE : Z := 600 * SECOND.

Inductive Trigger := Startup | Periodic | Manual.

(** ** The retry schedule *)

Definition in_backoff (now : Z) (id : VmId) (m : memory) : bool :=
  is_some_and (fun st => (now <? FailureState.next_attempt st)%Z) (bt_get N.compare id (failures m)).

Definition backoff_state (id : VmId) (m : memory) : N * option string :=
  match bt_get N.compare id (failures m) with
  | None => (0%N, None)
  | Some st => (FailureState.failures st,
                if str_is_empty (FailureState.last_error st) then None
                else Some (FailureState.last_error st))
  end.

Definition backoff_delay (failures : N) : Z :=
  Z.min (BACKOFF_BASE * 2 ^ Z.of_N (N.min failures 5)) BACKOFF_MAX.

(** The counter is a [u32]. *)
Definition register_failure (now : Z) (id : VmId) (said : string) (m : memory) : memory :=
  let before := match bt_get N.compare id (failures m) with
                | Some st => FailureState.failures st
                | None => 0%N
                end in
  let n := wrap u32_max (before + 1) in
  set_failures (bt_insert N.compare id (FailureState.mk n (now + backoff_delay n) said) (failures m)) m.

Definition clear_failure (id : VmId) (m : memory) : memory :=
  set_failures (bt_remove N.compare id (failures m)) m.

(** ** Passes *)

(** A step of the reconciler: its memory beside the node. *)
Definition pass_m (H Bytes A : Type) : Type :=
  memory * node H Bytes -> (memory * node H Bytes) * result string A.

#[export] Instance pass_ret {H Bytes} : MRet (pass_m H Bytes) := fun _ a w => (w, Ok a).
#[export] Instance pass_bind {H Bytes} : MBind (pass_m H Bytes) := fun _ _ k m w =>
  match m w with (w', Ok a) => k a w' | (w', Err e) => (w', Err e) end.

Section reconciler.
Context {H Bytes : Type} `{!Codec Bytes VmRecord.t, !Codec Bytes VolumeRecord.t, !UuidParse}.
Context (path : string) (d : disk) (D : Drivers H) (F : Files H) (cfg : settings).

Abbreviation M := (agent_m H Bytes).
Abbreviation P := (pass_m H Bytes).

Definition doing_node {A} (m : M A) : P A := fun w => let (n, a) := m w.2 in ((w.1, n), a).
Definition remember (f : memory -> memory) : P unit := fun w => ((f w.1, w.2), Ok tt).
Definition recall {A} (f : memory -> A) : P A := fun w => (w, Ok (f w.1)).
(** What other tasks do to the node while a lock is awaited. *)
Definition yielding (f : node H Bytes -> node H Bytes) : P unit := fun w => ((w.1, f w.2), Ok tt).

(** ** Observation *)

Definition receive_failed_seen (id : VmId) (r : VmRecord.t) (h : H) : bool :=
  bool_decide (VmRecord.phase r = Phase.Receiving)
  && match hypervisor D with
     | Some hv => is_some_and (fun m => is_some (receive_failed m id h)) (as_migratable hv)
     | None => false
     end.

Definition observe (id : VmId) (r : VmRecord.t) : M Observed.t :=
  h ← hosted (fun h => (h, h));
  let tracked := is_some_and (fun hv => is_tracked hv id h) (hypervisor D) in
  let slice_pids := match pids_in_slice (confiner D) (slice id) h with Ok pids => pids | Err _ => [] end in
  let vmm_alive := match VmRecord.vmm_pid r, hypervisor D with
                   | Some pid, Some hv => existsb (N.eqb pid) slice_pids && owns_pid hv id pid h
                   | _, _ => false
                   end in
  let backends_alive := forallb (fun pid => existsb (N.eqb pid) slice_pids) (backend_pids r) in
  socket_responsive ← match hypervisor D with
                      | Some hv => hosted (hv_probe hv id)
                      | None => mret false
                      end;
  guest ← match hypervisor D with
          | Some hv =>
              if tracked && socket_responsive then
                st ← answered (get_state hv id);
                mret (result_ok st)
              else mret None
          | None => mret None
          end;
  h ← hosted (fun h => (h, h));
  mret (Observed.mk tracked vmm_alive socket_responsive backends_alive guest
          (receive_failed_seen id r h)).

Definition quarantine_if_backend_died (id : VmId) (r : VmRecord.t) (obs : Observed.t)
  : M (option VmRecord.t) :=
  if is_some (VmRecord.unhealthy r) || negb (backend_died_under_vmm r obs) then mret None
  else stored (mutate path d id (VmRecord.set_unhealthy (Some BACKEND_DIED_REASON))).

(** ** Acting *)

Definition no_pausing : string := "hypervisor driver does not support pausing".

(** What [confirm_resume] says of the guest it saw. *)
Definition seen_guest (seen : result HypervisorError.t VmState.t) : string :=
  match seen with
  | Ok st => HypervisorError.debug_state st
  | Err e => "unreadable (" +:+ say_hypervisor e +:+ ")"
  end.

Definition confirm_resume (id : VmId) : P unit :=
  hv ← doing_node (pureM (get_hypervisor D));
  seen ← doing_node (answered (get_state hv id));
  match seen with
  | Ok VmState.Running => remember (fun m => set_resume_failures (bt_remove N.compare id (resume_failures m)) m)
  | _ =>
      _ ← remember (fun m => set_resume_failures (bt_insert N.compare id
            (wrap u32_max (unwrap_or 0%N (bt_get N.compare id (resume_failures m)) + 1)) (resume_failures m)) m);
      attempt ← recall (fun m => unwrap_or 0%N (bt_get N.compare id (resume_failures m)));
      _ ← (if (RESUME_ATTEMPTS <=? attempt)%N
           then _ ← doing_node (stored (mutate path d id
                      (VmRecord.set_unhealthy (Some RESUME_INEFFECTIVE_REASON)))); mret tt
           else mret tt);
      doing_node (bail ("the resume did not take: the guest is " +:+ seen_guest seen +:+
                        " (attempt " +:+ show_N attempt +:+ ")"))
  end.

(** The action itself, on the record as it is now. *)
Definition act (id : VmId) (current : VmRecord.t) (action : Action.t) : P unit :=
  match action with
  | Action.None | Action.Blocked | Action.Quarantined => mret tt
  | Action.Adopt pid =>
      hv ← doing_node (pureM (get_hypervisor D));
      doing_node (driven (fun e => "adopting vmm: " +:+ say_hypervisor e) (adopt hv id pid))
  | Action.Provision =>
      _ ← doing_node (driven (fun e => "killing cgroup slice: " +:+ e) (kill_slice (confiner D) (slice id)));
      doing_node (resume_vm path d D F cfg id current)
  | Action.Start =>
      hv ← doing_node (pureM (get_hypervisor D));
      doing_node (driven (fun e => "starting vm: " +:+ say_hypervisor e) (hv_start hv id))
  | Action.SignalShutdown =>
      hv ← doing_node (pureM (get_hypervisor D));
      doing_node (driven (fun e => "sending power button: " +:+ say_hypervisor e) (power_button hv id))
  | Action.Stop => doing_node (stop_vm path d D id current)
  | Action.Pause =>
      hv ← doing_node (pureM (get_hypervisor D));
      p ← doing_node (pureM (ok_or no_pausing (as_pausable hv)));
      doing_node (driven (fun e => "pausing vm: " +:+ say_hypervisor e) (pause p id))
  | Action.Resume =>
      hv ← doing_node (pureM (get_hypervisor D));
      p ← doing_node (pureM (ok_or no_pausing (as_pausable hv)));
      _ ← doing_node (driven (fun e => "resuming vm: " +:+ say_hypervisor e) (resume p id));
      confirm_resume id
  | Action.Teardown => doing_node (teardown path d D F id)
  | Action.Arrived => doing_node (migration_arrived path d id)
  end.

(** The actions that are none. *)
Definition idle (a : Action.t) : bool :=
  match a with Action.None | Action.Blocked | Action.Quarantined => true | _ => false end.

Definition execute (meanwhile : node H Bytes -> node H Bytes) (id : VmId) (planned : VmRecord.t)
    (obs : Observed.t) (at_ : Z) (action : Action.t) : P unit :=
  if idle action then mret tt
  else
    _ ← yielding meanwhile;
    found ← doing_node (stored (get path d id));
    match found with
    | None => mret tt
    | Some current =>
        if negb (bool_decide (VmRecord.phase current = VmRecord.phase planned)
                 && bool_decide (VmRecord.desired current = VmRecord.desired planned))
        then mret tt
        else if negb (bool_decide (plan current obs at_ = action)) then mret tt
        else act id current action
    end.

(** ** One VM *)

Definition clear_orphaned_operation (id : VmId) (r : VmRecord.t) : M VmRecord.t :=
  if is_some_and Operation.is_out (VmRecord.operation r) then mret r
  else if is_some_and Operation.is_in (VmRecord.operation r)
          && negb (bool_decide (VmRecord.phase r = Phase.Receiving)) then mret r
  else if is_some (VmRecord.operation r) then
    let r := VmRecord.set_operation None r in
    _ ← stored (put path d id r); mret r
  else mret r.

(** The clock and the other tasks, as one pass meets them: instants by reading, and
    what happens while it waits. *)
Record weather := mk_weather {
  wall : nat -> Z;
  instant : nat -> Z;
  others : nat -> node H Bytes -> node H Bytes }.

(** A failed step is put on the retry schedule. *)
Definition registering (now : Z) (id : VmId) (m : P unit) : P unit := fun w =>
  match m w with
  | (w', Ok a) => (w', Ok a)
  | ((mem, n), Err e) => ((register_failure now id e mem, n), Err e)
  end.

(** What one round of the loop leads to. *)
Inductive round := Stop_here (a : option Action.t) | Go_on (a : Action.t).

Definition reconcile_round (W : weather) (trigger : Trigger) (step : nat) (id : VmId) : P round :=
  found ← doing_node (stored (get path d id));
  match found with
  | None => mret (Stop_here None)
  | Some r =>
      r ← match step, trigger with
          | O, Startup => doing_node (clear_orphaned_operation id r)
          | _, _ => mret r
          end;
      fresh ← match VmRecord.migration r with
              | Some attempt =>
                  if is_sending r then
                    _ ← doing_node (observe_send path d D (others W step) id (MigrationAttempt.id attempt));
                    doing_node (stored (get path d id))
                  else mret (Some r)
              | None => mret (Some r)
              end;
      match fresh with
      | None => mret (Stop_here None)
      | Some r =>
          obs ← doing_node (observe id r);
          marked ← doing_node (quarantine_if_backend_died id r obs);
          let r := unwrap_or r marked in
          let at_ := wall W step in
          let action := plan r obs at_ in
          if idle action then mret (Stop_here (Some action))
          else
            _ ← registering (instant W step) id (execute (others W step) id r obs at_ action);
            mret (match action with
                  | Action.SignalShutdown | Action.Teardown => Stop_here (Some action)
                  | _ => Go_on action
                  end)
      end
  end.

Fixpoint converge (W : weather) (trigger : Trigger) (left step : nat) (id : VmId)
    (first : option Action.t) : P (option Action.t) :=
  match left with
  | O => mret first
  | S left' =>
      r ← reconcile_round W trigger step id;
      match r with
      | Stop_here a => mret (option_or first a)
      | Go_on a => converge W trigger left' (S step) id (option_or first (Some a))
      end
  end.

Definition reconcile (W : weather) (trigger : Trigger) (now : Z) (id : VmId) : P Action.t :=
  waiting ← recall (in_backoff now id);
  if (waiting : bool) then mret Action.None
  else
    first ← converge W trigger MAX_CONVERGE_STEPS 0 id None;
    _ ← remember (clear_failure id);
    mret (unwrap_or Action.None first).

Definition intend_record (desired : Desired.t) (deadline : option Z) (r : VmRecord.t) : VmRecord.t :=
  VmRecord.set_unhealthy None
    (VmRecord.set_desired desired
       (VmRecord.set_stop_deadline
          (next_stop_deadline (VmRecord.desired r) (VmRecord.stop_deadline r) desired deadline) r)).

Definition set_desired (W : weather) (now : Z) (id : VmId) (desired : Desired.t) (deadline : option Z)
  : P (option Action.t) :=
  found ← doing_node (stored (get path d id));
  match found with
  | None => mret None
  | Some r =>
      _ ← doing_node (stored (put path d id (intend_record desired deadline r)));
      _ ← remember (clear_failure id);
      action ← reconcile W Manual now id;
      mret (Some action)
  end.

Definition dry_run (at_ : Z) (id : VmId) : M (option (VmRecord.t * Observed.t * Action.t)) :=
  found ← stored (get path d id);
  match found with
  | None => mret None
  | Some r =>
      obs ← observe id r;
      let r := if negb (is_some (VmRecord.unhealthy r)) && backend_died_under_vmm r obs
               then VmRecord.set_unhealthy (Some "backend process died (would quarantine)") r else r in
      mret (Some (r, obs, plan r obs at_))
  end.

(** ** The node *)

(** What one VM's outcome adds to the summary. *)
Definition counted (s : Summary.t) (r : result string Action.t) : Summary.t :=
  let '(Summary.mk t a p l td b q f) := s in
  match r with
  | Ok Action.None => s
  | Ok Action.Blocked => Summary.mk t a p l td (S b) q f
  | Ok Action.Quarantined => Summary.mk t a p l td b (S q) f
  | Ok (Action.Adopt _) => Summary.mk t (S a) p l td b q f
  | Ok Action.Provision => Summary.mk t a (S p) l td b q f
  | Ok Action.Teardown => Summary.mk t a p l (S td) b q f
  | Ok _ => Summary.mk t a p (S l) td b q f
  | Err _ => Summary.mk t a p l td b q (S f)
  end.

(** The grace period of each stray: entries of strays still there, new ones from
    now on. *)
Definition retain_strays (found : list VmId) (now : Z) (held : list (VmId * Z)) : list (VmId * Z) :=
  fold_left (fun held id => if is_some (bt_get N.compare id held) then held
                            else bt_insert N.compare id now held) found
    (List.filter (fun p => existsb (N.eqb p.1) found) held).

Definition overdue (now : Z) (held : list (VmId * Z)) : list VmId :=
  map fst (List.filter (fun p => (STRAY_GRACE <=? now - p.2)%Z) held).

Definition VMM_UNMANAGED : string := "VmmUnmanaged".

Fixpoint end_strays (hv : Hypervisor H) (ids : list VmId) : P unit :=
  match ids with
  | [] => mret tt
  | id :: ids' =>
      r ← doing_node (answered (end_stray hv id));
      _ ← match r with
          | Ok _ => remember (fun m => set_held_strays (bt_remove N.compare id (held_strays m)) m)
          | Err _ => mret tt
          end;
      end_strays hv ids'
  end.

Definition on_conditions (f : Conditions.t -> Conditions.t) : M unit := fun w =>
  (mk_node (set_conditions (f (conditions (db w))) (db w)) (host w), Ok tt).

Definition sweep_unmanaged_vmms (now : Z) : P unit :=
  match hypervisor D with
  | None => mret tt
  | Some hv =>
      raw ← doing_node (caught (stored (list_raw path d)));
      match raw with
      | Err _ => mret tt
      | Ok rows =>
          let known := filter_map (fun p => uuid_of p.1) rows in
          found ← doing_node (hosted (strays hv known));
          _ ← remember (fun m => set_held_strays (retain_strays found now (held_strays m)) m);
          late ← recall (fun m => overdue now (held_strays m));
          if is_nil found then doing_node (on_conditions (Conditions.clear VMM_UNMANAGED))
          else
            _ ← doing_node (on_conditions (Conditions.raise VMM_UNMANAGED
                  (show_N (N.of_nat (length found)) +:+
                   " vmm(s) are running here that this node has no record of (" +:+
                   join ", " (map Uuid.to_string found) +:+
                   "); they answer no command and hold their disks and taps. This node's free memory is not what it reports. Each is ended 600s after it was first seen.")));
            end_strays hv late
      end
  end.

(** The VMs in turn; a failed one does not end the pass. *)
Fixpoint reconcile_each (W : VmId -> weather) (trigger : Trigger) (now : Z) (ids : list VmId)
    (s : Summary.t) : P Summary.t :=
  match ids with
  | [] => mret s
  | id :: ids' => fun w =>
      let (w', r) := reconcile (W id) trigger now id w in
      reconcile_each W trigger now ids' (counted s r) w'
  end.

Definition reconcile_all (W : VmId -> weather) (trigger : Trigger) (now : Z) : P Summary.t :=
  _ ← sweep_unmanaged_vmms now;
  vms ← doing_node (stored (list_ path d));
  reconcile_each W trigger now (map fst vms) (Summary.mk (length vms) 0 0 0 0 0 0 0).

(** ** Reports *)

Definition report_vm (m : memory) (p : VmId * VmRecord.t) : M VmReport.t :=
  let (id, r) := p in
  if bool_decide (VmRecord.desired r = Desired.Absent) then
    mret (VmReport.mk id ReportedPhase.Provisioning (Some AgentVmReason.Stopping) (Some STOPPING_REASON)
            (attached_volumes r) (reported_nics r) (departure r))
  else
    obs ← observe id r;
    let r := if negb (is_some (VmRecord.unhealthy r)) && backend_died_under_vmm r obs
             then VmRecord.set_unhealthy (Some BACKEND_DIED_REASON) r else r in
    let (failures, last_error) := backoff_state id m in
    let rep := report_status r obs failures last_error in
    mret (VmReport.mk id (Reported.phase rep) (Reported.reason rep) (Reported.message rep)
            (attached_volumes r) (reported_nics r) (departure r)).

Fixpoint report_each (m : memory) (l : list (VmId * VmRecord.t)) : M (list VmReport.t) :=
  match l with
  | [] => mret []
  | p :: l' => one ← report_vm m p; rest ← report_each m l'; mret (one :: rest)
  end.

Definition report (m : memory) : M (list VmReport.t) :=
  records ← stored (list_ path d); report_each m records.
End reconciler.
