(* ===== verification/AgentBarrier.v ===== *)
(** The barrier a sending node keeps in a VM's row: no task of the agent lifts it
    without evidence about that very attempt. *)
From Stdlib Require Import Ascii String NArith ZArith List Bool Lia.
From stdpp Require Import base list strings relations.
From S2P Require Import Prelude RustStr Json AgentTypes AgentPlan AgentStore AgentHost AgentDisks AgentProvision AgentSim AgentSteps AgentMigrate AgentReconcile.

(** * Rows as the tasks read them *)

Section barrier.
Context {H Bytes : Type} `{!Codec Bytes VmRecord.t, !Codec Bytes VolumeRecord.t, !UuidParse,
  !CodecLaws Bytes VmRecord.t}.
Context (path : string) (d : disk) (D : Drivers H) (F : Files H) (cfg : settings).
Context (sha256 : list N -> list N) (from_custom_bytes : list N -> Uuid.t).
Context (id : VmId) (mid : string).

(** The record a sending VM's row decodes to. *)
Definition sending (r : VmRecord.t) : Prop :=
  is_sending r = true /\
  exists a, VmRecord.migration r = Some a /\ MigrationAttempt.id a = mid /\
            MigrationAttempt.incoming a = false.

Definition barrier (t : tables Bytes) : Prop :=
  exists b r, sget (Uuid.to_string id) (VMS t) = Some b /\ from_slice b = Ok r /\ sending r.

(** A store access that keeps the barrier, with what it answers under it. *)
Definition guarded {A} (Q : A -> Prop) (m : agent_m H Bytes A) : Prop :=
  forall w, barrier (file (db w)) ->
    barrier (file (db (m w).1)) /\ forall a, (m w).2 = Ok a -> Q a.

Lemma guarded_bind {A B} (Q : A -> Prop) (R : B -> Prop) (m : agent_m H Bytes A)
    (k : A -> agent_m H Bytes B) :
  guarded Q m -> (forall a, Q a -> guarded R (k a)) -> guarded R (m ≫= k).
Proof.
  intros Hm Hk w Hw. unfold mbind, agent_bind. destruct (Hm w Hw) as [H1 H2].
  destruct (m w) as [w' [a|e]]; [|done]. by apply Hk; [apply H2|].
Qed.

Lemma guarded_any {A} (m : agent_m H Bytes A) :
  keeps (fun _ => True) barrier m -> guarded (fun _ => True) m.
Proof. intros K w Hw. split; [|done]. by apply K. Qed.

Lemma guarded_ret {A} (Q : A -> Prop) (a : A) : Q a -> guarded Q (mret a).
Proof. intros Ha w Hw. split; [done|]. by intros b [= <-]. Qed.

Lemma guarded_pure {A} (Q : A -> Prop) (r : result string A) :
  (forall a, r = Ok a -> Q a) -> guarded Q (pureM r).
Proof. intros Ha w Hw. split; [done|]. apply Ha. Qed.

Lemma guarded_bail {A} (Q : A -> Prop) e : guarded Q (bail e).
Proof. by apply guarded_pure. Qed.

Lemma guarded_weaken {A} (Q R : A -> Prop) m : (forall a, Q a -> R a) -> guarded Q m -> guarded R m.
Proof. intros HQ Hm w Hw. destruct (Hm w Hw) as [H1 H2]. split; [done|]. eauto. Qed.

Lemma guarded_host {E A} (c : call H E A) : guarded (fun _ => True) (answered c).
Proof. intros w Hw. unfold answered. by destruct (c (host w)). Qed.

Lemma guarded_driven {E A} say (c : call H E A) : guarded (fun _ => True) (driven say c).
Proof. intros w Hw. unfold driven. by destruct (c (host w)). Qed.

Lemma guarded_hosted {A} (f : H -> H * A) : guarded (fun _ => True) (hosted f).
Proof. intros w Hw. unfold hosted. by destruct (f (host w)). Qed.

Lemma guarded_caught {A} (Q : A -> Prop) (m : agent_m H Bytes A) :
  guarded Q m -> guarded (fun r => forall a, r = Ok a -> Q a) (caught m).
Proof.
  intros Hm w Hw. unfold caught. destruct (Hm w Hw) as [H1 H2]. destruct (m w) as [w' r].
  split; [done|]. intros a [= <-]. apply H2.
Qed.

Lemma guarded_reading {A} (f : tables Bytes -> A) (Q : A -> Prop) :
  (forall t, barrier t -> Q (f t)) -> guarded Q (stored (reading path d f)).
Proof.
  intros HQ [s h] Hw. unfold stored. simpl in *.
  destruct (reading path d f s) as [s' [x|e]] eqn:E.
  - apply reading_ok in E as [Hf Hx]. simpl. rewrite Hf. split; [done|]. intros a [= <-].
    rewrite Hx. by apply HQ.
  - split; [|done]. pose proof (op_keeps_reading barrier path d f s Hw) as K. by rewrite E in K.
Qed.

Lemma guarded_get : guarded (fun o => exists r, o = Some r /\ sending r) (stored (get path d id)).
Proof.
  apply guarded_reading. intros t (b & r & Hb & Hr & Hs). rewrite Hb, Hr. simpl. eauto.
Qed.

Lemma guarded_row :
  guarded (fun o => exists r, o = Some (Record_ id r) /\ sending r) (stored (row path d id)).
Proof.
  intros w Hw.
  assert (G : guarded (fun b => exists r, b = Some r /\ exists x, from_slice r = Ok x /\ sending x)
                (stored (get_raw path d id))).
  { apply guarded_reading. intros t (b & r & Hb & Hr & Hs). eauto. }
  destruct (G w Hw) as [H1 H2]. unfold row, stored in *. unfold mbind, store_op_bind.
  destruct (get_raw path d id (db w)) as [s' [x|e]]; [|done]. simpl in *. split; [done|].
  intros a [= <-]. destruct (H2 x eq_refl) as (b & -> & r & Hr & Hs). rewrite Hr. eauto.
Qed.

Lemma guarded_put r : sending r -> guarded (fun _ => True) (stored (put path d id r)).
Proof.
  intros Hr [s h] Hw. unfold stored. simpl in *. destruct (put path d id r s) as [s' x] eqn:E.
  split; [|done]. simpl.
  assert (K : op_keeps barrier (put path d id r)).
  { apply op_keeps_attempt. intros t t' v. destruct (to_vec r) as [b|] eqn:Eb; [|done].
    intros [= <- _] _. exists b, r. unfold sget, sinsert. simpl.
    rewrite bt_get_insert_eq by apply _. split; [done|]. split; [|done]. by apply from_to. }
  specialize (K s Hw). by rewrite E in K.
Qed.

Lemma guarded_mutate f :
  (forall r, sending r -> sending (f r)) -> guarded (fun _ => True) (stored (mutate path d id f)).
Proof.
  intros Hf [s h] Hw. unfold stored. simpl in *. destruct (mutate path d id f s) as [s' x] eqn:E.
  split; [|done]. simpl.
  assert (K : op_keeps barrier (mutate path d id f)).
  { apply op_keeps_attempt. intros t t' v. simpl. intros Ht (b & r & Hb & Hr & Hs). revert Ht.
    rewrite Hb, Hr. destruct (to_vec (f r)) as [b'|] eqn:Eb; [|done].
    intros [= <- _]. exists b', (f r). unfold sget, sinsert. simpl.
    rewrite bt_get_insert_eq by apply _. split; [done|]. split; [by apply from_to|by apply Hf]. }
  specialize (K s Hw). by rewrite E in K.
Qed.

Lemma guarded_claim i a c : guarded (fun _ => True) (stored (claim_migration path d i a c)).
Proof.
  intros [s h] Hw. unfold stored. simpl in *. destruct (claim_migration path d i a c s) as [s' x] eqn:E.
  split; [|done]. simpl.
  assert (K : op_keeps barrier (claim_migration path d i a c)).
  { unfold claim_migration. destruct (str_is_empty a); [by intros ? ?|].
    apply op_keeps_attempt. intros t t' v [= <- _] Ht. by destruct (_ || c). }
  specialize (K s Hw). by rewrite E in K.
Qed.

(** * The tasks *)

Lemma sending_steady r r' :
  VmRecord.operation r' = VmRecord.operation r -> VmRecord.migration r' = VmRecord.migration r ->
  sending r -> sending r'.
Proof. unfold sending, is_sending. by intros -> ->. Qed.

Lemma guarded_execute meanwhile planned obs at_ action mem w :
  (forall w, barrier (file (db w)) -> barrier (file (db (meanwhile w)))) ->
  barrier (file (db w)) ->
  barrier (file (db (execute path d D F cfg meanwhile id planned obs at_ action (mem, w)).1.2)).
Proof.
  intros Hm Hw. unfold execute. destruct (idle action) eqn:Ei; [done|].
  unfold mbind, pass_bind, yielding, doing_node. simpl.
  destruct (guarded_get (meanwhile w) (Hm w Hw)) as [H1 H2].
  destruct (stored (get path d id) (meanwhile w)) as [w1 [x|e]]; [|done]. simpl in *.
  destruct (H2 x eq_refl) as (r & -> & [Hs _]). case_match; [done|].
  unfold is_sending in Hs. destruct (VmRecord.operation r) as [o|] eqn:Eo; [|done].
  rewrite (plan_blocked _ _ _ _ Eo).
  rewrite bool_decide_eq_false_2; [done|]. by intros <-.
Qed.

Lemma guarded_observe r : guarded (fun _ => True) (observe D id r).
Proof.
  unfold observe. eapply guarded_bind; [apply guarded_hosted|]. intros h _. cbv zeta.
  eapply (guarded_bind (fun _ => True)).
  { destruct (hypervisor D); [apply guarded_hosted|by apply guarded_ret]. }
  intros sock _. eapply (guarded_bind (fun _ => True)).
  { destruct (hypervisor D); [|by apply guarded_ret]. destruct (_ && sock); [|by apply guarded_ret].
    eapply guarded_bind; [apply guarded_host|]. intros. by apply guarded_ret. }
  intros g _. eapply guarded_bind; [apply guarded_hosted|]. intros. by apply guarded_ret.
Qed.

Lemma guarded_quarantine r obs :
  guarded (fun _ => True) (quarantine_if_backend_died path d id r obs).
Proof.
  unfold quarantine_if_backend_died. destruct (_ || _); [by apply guarded_ret|].
  apply guarded_mutate. intros r' Hr'. by apply (sending_steady r').
Qed.

Lemma guarded_orphan r : sending r -> guarded sending (clear_orphaned_operation path d id r).
Proof.
  intros Hs. unfold clear_orphaned_operation. pose proof Hs as [Ho _]. unfold is_sending in Ho.
  rewrite Ho. by apply guarded_ret.
Qed.

Lemma guarded_settle a ev :
  MigrationAttempt.id a <> mid -> guarded (fun _ => True) (settle_send path d D id a ev).
Proof.
  intros Hne. unfold settle_send. eapply guarded_bind; [apply guarded_get|].
  intros ? (r & -> & _ & a' & Ha & Hid & _).
  rewrite bool_decide_eq_false_2; [by apply guarded_ret|]. rewrite Ha. naive_solver.
Qed.

Lemma guarded_give_up peer m : guarded (fun _ => True) (give_up_watching path d id peer m).
Proof.
  unfold give_up_watching. eapply guarded_bind; [apply guarded_caught, guarded_get|].
  intros [x|e] Hx; [|by apply guarded_ret]. destruct (Hx x eq_refl) as (r & -> & Hs & a & Ha & Hid & Hin).
  destruct (_ && _); [|by apply guarded_ret].
  eapply guarded_bind; [|intros; by apply guarded_ret]. eapply guarded_caught, guarded_put.
  split; [done|]. unfold set_attempt. simpl. rewrite Ha. simpl. eauto.
Qed.

Lemma guarded_begin peer m :
  guarded (fun _ => True) (begin_migrate_out path d D sha256 from_custom_bytes id peer m).
Proof.
  unfold begin_migrate_out. destruct (str_is_empty m); [apply guarded_bail|].
  eapply (guarded_bind (fun _ => True)); [by apply guarded_pure|]. intros hv _.
  eapply guarded_bind; [apply guarded_get|]. intros ? (r & -> & Hs & _). simpl.
  eapply (guarded_bind (fun x => x = r)); [by apply guarded_pure; intros ? [= <-]|]. intros ? ->.
  destruct (_ || _); [apply guarded_bail|]. unfold is_sending in Hs.
  destruct (VmRecord.operation r); [apply guarded_bail|done].
Qed.

Lemma guarded_prepare s listen managed m deadline :
  guarded (fun _ => True) (prepare_migration path d D F cfg id s listen managed m deadline).
Proof.
  unfold prepare_migration. destruct (str_is_empty m); [apply guarded_bail|].
  eapply guarded_bind; [apply guarded_row|]. intros ? (r & -> & _). apply guarded_bail.
Qed.

Lemma guarded_arrived : guarded (fun _ => True) (migration_arrived path d id).
Proof.
  unfold migration_arrived. eapply guarded_bind; [apply guarded_get|]. intros ? (r & -> & Hs).
  destruct (negb _); [by apply guarded_ret|]. by apply guarded_put, (sending_steady r).
Qed.

Lemma guarded_cleanup m source : guarded (fun _ => True) (cleanup_migration path d D F id m source).
Proof.
  unfold cleanup_migration. destruct (str_is_empty m); [apply guarded_bail|].
  eapply guarded_bind; [apply guarded_row|]. intros ? (r & -> & Hs & a & Ha & Hid & Hin).
  eapply (guarded_bind (fun _ => False)); [|done]. unfold may_clean. rewrite Ha. simpl.
  eapply (guarded_bind (fun x => x = a)); [by apply guarded_pure; intros ? [= <-]|]. intros ? ->.
  rewrite Hin. destruct source; simpl; rewrite ?andb_false_r; simpl; [|apply guarded_bail].
  destruct (negb _); [apply guarded_bail|]. unfold is_sending in Hs.
  destruct (VmRecord.operation r); [|done]. simpl. rewrite andb_false_r. apply guarded_bail.
Qed.

(** ** A re-sent document *)

(** A step beside the record that leaves the operation, the attempt and every row alone. *)
Definition steady {A} (m : chain_m H Bytes A) : Prop :=
  forall r w, sending r -> barrier (file (db w)) ->
    sending (m (r, w)).1.1 /\ barrier (file (db (m (r, w)).1.2)).

Lemma steady_bind {A B} (m : chain_m H Bytes A) (k : A -> chain_m H Bytes B) :
  steady m -> (forall a, steady (k a)) -> steady (m ≫= k).
Proof.
  intros Hm Hk r w Hr Hw. unfold mbind, chain_bind. destruct (Hm r w Hr Hw) as [H1 H2].
  destruct (m (r, w)) as [[r' w'] [a|e]]; [by apply Hk|done].
Qed.

Lemma steady_ret {A} (a : A) : steady (mret a).
Proof. by intros r w. Qed.

Lemma steady_record : steady the_record.
Proof. by intros r w. Qed.

Lemma steady_node {A} (Q : A -> Prop) (m : agent_m H Bytes A) : guarded Q m -> steady (on_node m).
Proof.
  intros Hm r w Hr Hw. unfold on_node. simpl. destruct (Hm w Hw) as [H1 _].
  by destruct (m w) as [w' a].
Qed.

Lemma steady_change f :
  (forall r, VmRecord.operation (f r) = VmRecord.operation r) ->
  (forall r, VmRecord.migration (f r) = VmRecord.migration r) -> steady (change f).
Proof. intros Ho Hmi r w Hr Hw. split; [|done]. simpl. apply (sending_steady r); [apply Ho|apply Hmi|done]. Qed.

Lemma steady_each {A} (f : A -> chain_m H Bytes unit) l : (forall a, steady (f a)) -> steady (each_c f l).
Proof. intros Hf. induction l; simpl; [apply steady_ret|]. by apply steady_bind. Qed.

Lemma guarded_reference v p : guarded (fun _ => True) (reference (H := H) path d v p).
Proof.
  unfold reference. eapply (guarded_bind (fun _ => True)); [by apply guarded_reading|]. intros o _.
  eapply (guarded_bind (fun _ => True)); [by apply guarded_pure|]. intros x _.
  eapply (guarded_bind (fun _ => True)); [by apply guarded_pure|]. intros h _. by apply guarded_ret.
Qed.

Lemma steady_pure {A} (r : result string A) : steady (on_node (pureM r)).
Proof. by apply (steady_node (fun _ => True)), guarded_pure. Qed.

Lemma steady_driven {E A} say (c : call H E A) : steady (on_node (driven say c)).
Proof. eapply steady_node, guarded_driven. Qed.

Lemma steady_detach_one plug v : steady (detach_one D id plug v).
Proof.
  unfold detach_one. apply steady_bind; [apply steady_record|]. intros r.
  destruct (List.find _ _) as [held|]; [|apply steady_ret]. cbv zeta.
  apply steady_bind; [apply steady_pure|]. intros vd.
  apply steady_bind; [destruct plug; [apply steady_driven|apply steady_ret]|]. intros _.
  apply steady_bind; [apply steady_change; reflexivity|]. intros _. apply steady_driven.
Qed.

Lemma steady_attach_one plug v : steady (attach_one path d D id plug v).
Proof.
  unfold attach_one. cbv zeta. apply steady_bind; [eapply steady_node, guarded_reference|]. intros dh.
  apply steady_bind; [apply steady_pure|]. intros vd.
  apply steady_bind; [apply steady_driven|]. intros att.
  apply steady_bind; [destruct plug; [apply steady_driven|apply steady_ret]|]. intros _.
  apply steady_change; reflexivity.
Qed.

Lemma steady_diff wanted : steady (apply_volume_diff path d D id wanted).
Proof.
  unfold apply_volume_diff. apply steady_bind; [apply steady_record|]. intros r.
  destruct (volume_diff _ _) as [att det]. destruct (_ && _); [apply steady_ret|].
  apply steady_bind; [apply steady_pure|]. intros vols.
  apply steady_bind; [apply steady_pure|]. intros hv.
  apply steady_bind; [eapply steady_node, guarded_hosted|]. intros h. cbv zeta.
  destruct (_ && _); [eapply (steady_node (fun _ => True)), guarded_bail|].
  apply steady_bind; [apply steady_each; intros; apply steady_detach_one|]. intros _.
  apply steady_bind; [apply steady_each; intros; apply steady_attach_one|]. intros _.
  apply steady_change; reflexivity.
Qed.

Lemma guarded_sync_volumes wanted : guarded (fun _ => True) (sync_volumes path d D id wanted).
Proof.
  unfold sync_volumes. eapply guarded_bind; [apply guarded_get|]. intros ? (r & -> & Hs).
  eapply (guarded_bind (fun x => sending x.1)).
  { intros w Hw. unfold with_record. destruct (steady_diff wanted r w Hs Hw) as [H1 H2].
    destruct (apply_volume_diff _ _ _ _ _ _) as [[r' w'] a]. simpl in *. split; [done|].
    by intros ? [= <-]. }
  intros [r' res] Hs'. eapply (guarded_bind (fun _ => True)); [by apply guarded_pure|]. intros _ _.
  by apply guarded_put.
Qed.

Lemma guarded_guard nic s : guarded (fun _ => True) (guard D nic s).
Proof.
  unfold guard. eapply (guarded_bind (fun _ => True)); [by apply guarded_pure|]. intros nd _.
  eapply guarded_bind; [apply guarded_host|]. intros [|[]] _; (by apply guarded_ret || apply guarded_bail).
Qed.

Lemma guarded_readdress wanted l r :
  sending r -> guarded (fun _ => True) (readdress path d D id wanted l r).
Proof.
  revert r. induction l as [|p l IH]; intros r Hs; simpl; [by apply guarded_ret|].
  destruct (_ !! p); [|by apply IH]. destruct (_ !! p); [|by apply IH].
  eapply guarded_bind; [apply guarded_guard|]. intros _ _.
  eapply guarded_bind; [by apply guarded_put, (sending_steady r)|]. intros _ _.
  by apply IH, (sending_steady r).
Qed.

Lemma guarded_sync wanted : guarded (fun _ => True) (sync_in_place path d D id wanted).
Proof.
  unfold sync_in_place. eapply guarded_bind; [|intros; apply guarded_sync_volumes].
  unfold sync_nic_addresses. eapply guarded_bind; [apply guarded_get|]. intros ? (r & -> & Hs).
  by apply guarded_readdress.
Qed.

Lemma guarded_provision s desired managed :
  guarded (fun _ => True) (provision_vm path d D F cfg id s desired managed).
Proof.
  unfold provision_vm. eapply guarded_bind; [apply guarded_row|]. intros ? (r & -> & _).
  eapply guarded_bind; [apply guarded_get|]. intros ? (r' & -> & Hs).
  eapply guarded_bind; [by apply guarded_put, (sending_steady r')|]. intros _ _. apply guarded_sync.
Qed.

(** * Every sequence of tasks *)

(** One atomic stretch of a task of the agent on this VM, or one of anybody that
    leaves the VM's row alone. *)
Inductive task : node H Bytes -> node H Bytes -> Prop :=
| task_execute mem planned obs at_ action w :
    task w (execute path d D F cfg (fun w => w) id planned obs at_ action (mem, w)).1.2
| task_observe r w : task w (observe D id r w).1
| task_quarantine r obs w : task w (quarantine_if_backend_died path d id r obs w).1
| task_restart r s w : get path d id (db w) = (s, Ok (Some r)) ->
    task w (clear_orphaned_operation path d id r w).1
| task_settle_other a ev w : MigrationAttempt.id a <> mid -> task w (settle_send path d D id a ev w).1
| task_give_up peer m w : task w (give_up_watching path d id peer m w).1
| task_begin peer m w : task w (begin_migrate_out path d D sha256 from_custom_bytes id peer m w).1
| task_prepare s listen managed m deadline w :
    task w (prepare_migration path d D F cfg id s listen managed m deadline w).1
| task_arrived w : task w (migration_arrived path d id w).1
| task_cleanup m source w : task w (cleanup_migration path d D F id m source w).1
| task_intend desired deadline r s w : get path d id (db w) = (s, Ok (Some r)) ->
    task w (stored (put path d id (intend_record desired deadline r)) w).1
| task_create s desired managed w : task w (provision_vm path d D F cfg id s desired managed w).1
| task_sync s w : task w (sync_in_place path d D id s w).1
| task_elsewhere w w' :
    sget (Uuid.to_string id) (VMS (file (db w'))) = sget (Uuid.to_string id) (VMS (file (db w))) ->
    task w w'.

Lemma get_sending (w : node H Bytes) s r :
  barrier (file (db w)) -> get path d id (db w) = (s, Ok (Some r)) -> sending r.
Proof.
  intros Hw E. destruct (guarded_get w Hw) as [_ H2]. unfold stored in H2. rewrite E in H2. simpl in H2.
  destruct (H2 _ eq_refl) as (r' & [= <-] & Hs). done.
Qed.

Lemma task_keeps_barrier w w' : task w w' -> barrier (file (db w)) -> barrier (file (db w')).
Proof.
  destruct 1; intros Hw.
  - by apply guarded_execute.
  - by apply (guarded_observe r).
  - by apply (guarded_quarantine r obs).
  - apply (guarded_orphan r); [by eapply get_sending|done].
  - by apply (guarded_settle a ev).
  - by apply (guarded_give_up peer m).
  - by apply (guarded_begin peer m).
  - by apply (guarded_prepare s listen managed m deadline).
  - by apply guarded_arrived.
  - by apply (guarded_cleanup m source).
  - apply (guarded_put (intend_record desired deadline r)); [|done].
    apply (sending_steady r); [done..|by eapply get_sending].
  - by apply (guarded_provision s desired managed).
  - by apply (guarded_sync s).
  - unfold barrier. match goal with E : sget _ _ = sget _ _ |- _ => by rewrite E end.
Qed.

(** C7. The barrier stands.  Once a row says that its guest is being sent under an
    attempt, no sequence of the agent's tasks takes that back: not a pass acting on a
    stale plan, not a restart, a new intent, a re-sent document, another attempt's
    send, reception, watcher or cleanup, nor this attempt's own deadline or cleanup;
    with any accesses of the disk failing in between.  Only recorded evidence about
    the attempt itself can ([settle_send] of it, which is not among these tasks). *)
Theorem barrier_stands w w' :
  barrier (file (db w)) -> rtc task w w' ->
  barrier (file (db w')) /\ forall s r obs now, get path d id (db w') = (s, Ok (Some r)) ->
    plan r obs now = Action.Blocked.
Proof.
  intros Hw Hrun.
  assert (Hw' : barrier (file (db w'))).
  { induction Hrun as [|w x y Hx _ IH]; [done|]. by apply IH, (task_keeps_barrier _ _ Hx). }
  split; [done|]. intros s r obs now Hg. apply (get_sending _ _ _ Hw') in Hg as [Hs _].
  unfold is_sending in Hs. destruct (VmRecord.operation r) eqn:Eo; [|done]. by eapply plan_blocked.
Qed.

(** * Evidence *)

(** What a settlement writes. *)
Definition settled (ev : SendEvidence.t) (r : VmRecord.t) : Prop :=
  VmRecord.operation r = None /\
  match ev with
  | SendEvidence.Gone => VmRecord.phase r = Phase.Migrated /\ VmRecord.vmm_pid r = None
  | SendEvidence.StillHere why => VmRecord.send_failed r = Some why
  end.

Definition decided (ev : SendEvidence.t) (t : tables Bytes) : Prop :=
  exists b r, sget (Uuid.to_string id) (VMS t) = Some b /\ from_slice b = Ok r /\
              (sending r \/ settled ev r).

Lemma keeps_decided_put ev r :
  settled ev r -> keeps (fun _ : H => True) (decided ev) (stored (put path d id r)).
Proof.
  intros Hr. apply keeps_stored, op_keeps_attempt. intros t t' v.
  destruct (to_vec r) as [b|] eqn:Eb; [|done]. intros [= <- _] _. exists b, r.
  unfold sget, sinsert. simpl. rewrite bt_get_insert_eq by apply _.
  split; [done|]. split; [by apply from_to|by right].
Qed.

Lemma keeps_detach_volumes (T : tables Bytes -> Prop) r :
  keeps_with (fun _ : H => True) T
    (fun r' => VmRecord.operation r' = VmRecord.operation r /\ VmRecord.phase r' = VmRecord.phase r /\
               VmRecord.vmm_pid r' = VmRecord.vmm_pid r) (detach_volumes path d D r).
Proof.
  unfold detach_volumes.
  apply (keeps_with_bind _ _ (fun _ => True)).
  { apply keeps_with_any; [|done]. generalize (VmRecord.volumes r) as l.
    induction l as [|v l IH]; simpl; [apply keeps_ret|].
    apply keeps_bind; [unfold volume_driver_name; keeps_steps|]. intros n. by keeps_steps. }
  intros names _. apply (keeps_with_bind _ _ (fun _ => True)).
  { apply keeps_with_any; [|done]. generalize (combine (VmRecord.volumes r) names) as l.
    induction l as [|[v n] l IH]; simpl; [apply keeps_ret|].
    apply keeps_bind; [keeps_steps; by intros h|]. intros v'. by keeps_steps. }
  intros vs _. by apply keeps_with_ret.
Qed.

Lemma keeps_settle a ev : keeps (fun _ : H => True) (decided ev) (settle_send path d D id a ev).
Proof.
  unfold settle_send. apply keeps_bind; [keeps_steps|]. intros [r|]; [|apply keeps_ret].
  destruct (_ || _); [apply keeps_ret|]. cbv zeta.
  apply (keeps_bind_with _ _ (settled ev)).
  - destruct ev as [|why]; [|by apply keeps_with_ret].
    apply (keeps_with_bind _ _ (fun _ => True)).
    { apply keeps_with_any; [|done]. by apply keeps_decided_put. }
    intros _ _ w Hw.
    match goal with |- context [detach_volumes _ _ _ ?x] =>
      destruct (keeps_detach_volumes (decided SendEvidence.Gone) x w Hw) as [H1 H2] end.
    split; [done|]. intros r' Hr'. destruct (H2 _ Hr') as (E1 & E2 & E3).
    unfold settled. rewrite E1, E2, E3. done.
  - intros r' Hr'. apply keeps_bind; [by apply keeps_decided_put|]. intros _. apply keeps_ret.
Qed.

(** What the machine showed: the VMM does not answer and its recorded process is not
    this VM's, or it answers and reports that an accepted send failed. *)
Definition shown (hv : Hypervisor H) (mg : Migratable H) (r : VmRecord.t) (a : MigrationAttempt.t)
    (h : H) (ev : SendEvidence.t) : Prop :=
  match ev with
  | SendEvidence.Gone =>
      exists h1 pid, hv_probe hv id h = (h1, false) /\ VmRecord.vmm_pid r = Some pid /\
                     owns_pid hv id pid h1 = false
  | SendEvidence.StillHere why =>
      MigrationAttempt.accepted a = true /\
      exists h1 h2, hv_probe hv id h = (h1, true) /\ send_failed mg id h1 = (h2, Some why)
  end.

Lemma look_shown hv mg r a (w w' : node H Bytes) ev :
  look hv mg id r a w = (w', Ok (Some ev)) -> shown hv mg r a (host w) ev /\ db w' = db w.
Proof.
  unfold look. intros E. apply agent_bind_ok in E as (w1 & b & E1 & E). unfold hosted in E1.
  destruct (hv_probe hv id (host w)) as [h1 b'] eqn:Ep. injection E1 as <- <-. destruct b'.
  - destruct (MigrationAttempt.accepted a) eqn:Ea; [|done].
    apply agent_bind_ok in E as (w2 & said & E2 & E). unfold hosted in E2. simpl in E2.
    destruct (send_failed mg id h1) as [h2 o] eqn:Es. injection E2 as <- <-.
    injection E as <- Eo. destruct o as [why|]; [|done]. injection Eo as <-. simpl. eauto 7.
  - apply agent_bind_ok in E as (w2 & h & E2 & E). injection E2 as <- <-. injection E as <- E.
    destruct (VmRecord.vmm_pid r) as [pid|] eqn:Epid; simpl in E; [|done].
    destruct (owns_pid hv id pid h1) eqn:Eo; [done|]. injection E as <-. simpl. eauto 6.
Qed.

Lemma look_keeps hv mg r a : guarded (fun _ => True) (look hv mg id r a).
Proof.
  unfold look. eapply guarded_bind; [apply guarded_hosted|]. intros [] _.
  - destruct (MigrationAttempt.accepted a); [|by apply guarded_ret].
    eapply guarded_bind; [apply guarded_hosted|]. intros. by apply guarded_ret.
  - eapply guarded_bind; [apply guarded_hosted|]. intros. by apply guarded_ret.
Qed.

Lemma settle_send_true a ev (w : node H Bytes) res :
  (settle_send path d D id a ev w).2 = res -> res <> Ok false.
Proof.
  intros <-. unfold settle_send, mbind, agent_bind.
  destruct (stored _ w) as [w1 [[r|]|e]]; simpl; try done.
  destruct (_ || _); [done|]. cbv zeta.
  match goal with |- context [match ?m w1 with _ => _ end] => destruct (m w1) as [w2 [r'|e]]; [|done] end.
  by destruct (stored (put path d id r') w2) as [w3 [u|e]].
Qed.

Lemma observe_send_outcome meanwhile m w w' res :
  (forall w, barrier (file (db w)) -> barrier (file (db (meanwhile w)))) ->
  barrier (file (db w)) -> observe_send path d D meanwhile id m w = (w', res) ->
  barrier (file (db w')) \/
  exists s r a hv mg ev, res <> Ok false /\
    get path d id (db w) = (s, Ok (Some r)) /\ VmRecord.migration r = Some a /\
    MigrationAttempt.id a = mid /\ hypervisor D = Some hv /\ as_migratable hv = Some mg /\
    shown hv mg r a (host w) ev /\ decided ev (file (db w')).
Proof.
  intros Hm Hw Hrun. unfold observe_send, mbind, agent_bind in Hrun.
  destruct (guarded_get w Hw) as [H1 H2]. unfold stored in *.
  destruct (get path d id (db w)) as [s [x|e]] eqn:Eg; simpl in *; [|injection Hrun as <- <-; by left].
  destruct (H2 x eq_refl) as (r & -> & Hs & a & Ha & Hid & Hin). rewrite Hs, Ha in Hrun. simpl in Hrun.
  destruct (_ || _) eqn:Eo; [injection Hrun as <- <-; by left|]. unfold get_hypervisor in Hrun.
  destruct (hypervisor D) as [hv|] eqn:Ehv; simpl in Hrun; [|injection Hrun as <- <-; by left].
  destruct (as_migratable hv) as [mg|] eqn:Emg; [|injection Hrun as <- <-; by left].
  destruct (look_keeps hv mg r a (mk_node s (host w)) H1) as [H3 _].
  destruct (look hv mg id r a (mk_node s (host w))) as [w1 [[ev|]|e]] eqn:El;
    [|injection Hrun as <- <-; by left..].
  apply look_shown in El as [Hsh Hdb]. right. exists s, r, a, hv, mg, ev. unfold awaiting in Hrun.
  split; [apply (settle_send_true a ev (meanwhile w1)); by rewrite Hrun|]. split_and!; try done.
  assert (Hdec : decided ev (file (db (meanwhile w1)))).
  { destruct (Hm w1 H3) as (b & r' & Hb & Hr' & Hs'). exists b, r'. eauto. }
  destruct (keeps_settle a ev (meanwhile w1)) as [_ K]; [by split|]. by rewrite Hrun in K.
Qed.

(** C24. Evidence lifts the barrier, and says what it was.  Under the barrier of an
    attempt, one observation of it (by the watcher or a pass, while other tasks
    that respect the barrier run) leaves it standing, or the machine showed one of
    two things about this attempt's guest: its VMM stopped answering and the recorded
    process is no longer this VM's, and then the row reads as migrated with no VMM; or
    the VMM answers and its driver reports the accepted send as failed, and then the
    row carries that report.  In both cases no operation remains. *)
Theorem evidence_lifts_barrier meanwhile m w w' res :
  (forall w, barrier (file (db w)) -> barrier (file (db (meanwhile w)))) ->
  barrier (file (db w)) -> observe_send path d D meanwhile id m w = (w', res) ->
  barrier (file (db w')) \/
  exists s r a hv mg ev,
    get path d id (db w) = (s, Ok (Some r)) /\ VmRecord.migration r = Some a /\
    MigrationAttempt.id a = mid /\ hypervisor D = Some hv /\ as_migratable hv = Some mg /\
    shown hv mg r a (host w) ev /\ decided ev (file (db w')).
Proof.
  intros Hm Hw Hrun. destruct (observe_send_outcome _ _ _ _ _ Hm Hw Hrun) as [Hb|Hev]; [by left|right].
  destruct Hev as (s & r & a & hv & mg & ev & _ & Hev). by exists s, r, a, hv, mg, ev.
Qed.

(** ** The watcher returns *)

(** Time between two observations, at least: the loop's sleep. *)
Definition WATCH_SLEEP : Z := 50000000.

Lemma watch_outcome fuel ceiling elapsed others i peer m w w' :
  (forall i w, barrier (file (db w)) -> barrier (file (db (others i w)))) -> barrier (file (db w)) ->
  finish_migrate_out path d D fuel ceiling elapsed others i id peer m w = Some w' ->
  barrier (file (db w')) \/ exists ev, decided ev (file (db w')).
Proof.
  intros Ho. revert i w. induction fuel as [|fuel IH]; intros i w Hw; simpl; [done|].
  destruct (observe_send path d D (others i) id m w) as [w1 res] eqn:E.
  pose proof (observe_send_outcome (others i) m w w1 res (Ho i) Hw E)
    as [Hb|(s & r & a & hv & mg & ev & Hne & _ & _ & _ & _ & _ & _ & Hd)].
  - destruct res as [[]|e]; try (by intros [= <-]; left).
    destruct (ceiling <=? elapsed i)%Z; [|by apply IH, Ho].
    intros [= <-]. left. by apply (guarded_give_up peer m), Ho.
  - destruct res as [[]|e]; try done; intros [= <-]; right; eauto.
Qed.

(** C30. The watcher of a send returns, and only with what it knows.  Whatever the
    machine, the disk and the other tasks do, it ends after at most one observation
    for each 50 ms of its ceiling and two more; and if the other tasks respect the
    attempt's barrier, it leaves the barrier standing (the ceiling passed, the
    outcome is unknown) or the row decided by evidence. *)
Theorem watch_returns ceiling elapsed others peer m w :
  (0 <= ceiling)%Z -> (forall i, Z.of_nat i * WATCH_SLEEP <= elapsed i)%Z ->
  exists w', finish_migrate_out path d D (Z.to_nat (ceiling / WATCH_SLEEP) + 2)
               ceiling elapsed others 0 id peer m w = Some w' /\
    ((forall i w, barrier (file (db w)) -> barrier (file (db (others i w)))) ->
     barrier (file (db w)) -> barrier (file (db w')) \/ exists ev, decided ev (file (db w'))).
Proof.
  intros Hc He.
  assert (Hgen : forall fuel i w, (ceiling <= Z.of_nat (i + fuel) * WATCH_SLEEP)%Z ->
    is_Some (finish_migrate_out path d D (S fuel) ceiling elapsed others i id peer m w)).
  { induction fuel as [|fuel IH]; intros i w0 Hle; cbn [finish_migrate_out].
    - destruct (observe_send _ _ _ _ _ _ w0) as [w1 [[]|e]]; eauto.
      rewrite (proj2 (Z.leb_le ceiling (elapsed i))); [eauto|].
      specialize (He i). rewrite Nat.add_0_r in Hle. lia.
    - destruct (observe_send _ _ _ _ _ _ w0) as [w1 [[]|e]]; eauto.
      destruct (ceiling <=? elapsed i)%Z; [eauto|]. apply IH. by rewrite Nat.add_succ_comm. }
  replace (Z.to_nat (ceiling / WATCH_SLEEP) + 2)%nat with (S (S (Z.to_nat (ceiling / WATCH_SLEEP)))) by lia.
  destruct (Hgen (S (Z.to_nat (ceiling / WATCH_SLEEP))) 0%nat w) as [w' Hw'].
  { simpl. unfold WATCH_SLEEP in *.
    pose proof (Z.div_mod ceiling 50000000 ltac:(lia)). pose proof (Z.mod_pos_bound ceiling 50000000 ltac:(lia)).
    pose proof (Z.div_pos ceiling 50000000 Hc ltac:(lia)). lia. }
  exists w'. split; [done|]. intros Ho Hw. by eapply watch_outcome.
Qed.
End barrier.

(** * The theorems on the machine in memory *)

(** The movable VM under an accepted send. *)
Definition sim_sent : node machine mem_bytes :=
  Eval vm_compute in
  (begin_migrate_out "db" quiet_disk (sim_drivers []) (fun l => l) (fun _ => 0%N) 9 "tcp:b:1" "m1"
     sim_moving).1.

Lemma sim_sent_barrier : barrier 9 "m1" (file (db sim_sent)).
Proof.
  eexists _, _. split; [reflexivity|]. split; [reflexivity|].
  split; [reflexivity|]. eexists. split; [reflexivity|]. done.
Qed.

(** A destroy that arrives during the send is recorded and waits: the pass that would
    tear the VM down does nothing. *)
Lemma barrier_stands_witness :
  let gone := intend_record Desired.Absent None in
  exists r w1 w2,
    (get "db" quiet_disk 9 (db sim_sent)).2 = Ok (Some r) /\
    (stored (put "db" quiet_disk 9 (gone r)) sim_sent).1 = w1 /\
    (execute "db" quiet_disk (sim_drivers []) (sim_files []) sim_settings (fun w => w) 9 (gone r)
       (Observed.mk true true true true None false) 0 Action.Teardown (mk_memory [] [] [], w1)).1.2 = w2 /\
    barrier 9 "m1" (file (db w2)).
Proof.
  destruct (get "db" quiet_disk 9 (db sim_sent)) as [s [[r|]|e]] eqn:Eg; try (by vm_compute in Eg).
  exists r. eexists _, _. split; [done|]. split; [reflexivity|]. split; [reflexivity|].
  eapply (barrier_stands "db" quiet_disk (sim_drivers []) (sim_files []) sim_settings
            (fun l => l) (fun _ => 0%N) 9 "m1" sim_sent _ sim_sent_barrier).
  eapply rtc_l; [by eapply task_intend|]. eapply rtc_l; [|apply rtc_refl]. apply task_execute.
Defined.

(** The guest left: its VMM is gone from the machine. *)
Definition sim_left : node machine mem_bytes :=
  mk_node (db sim_sent) (drop_guest 9 (host sim_sent)).

Lemma evidence_lifts_barrier_witness :
  exists w', observe_send "db" quiet_disk (sim_drivers []) (fun w => w) 9 "m1" sim_left = (w', Ok true) /\
    (barrier 9 "m1" (file (db w')) \/
     exists s r a hv mg ev,
       get "db" quiet_disk 9 (db sim_left) = (s, Ok (Some r)) /\ VmRecord.migration r = Some a /\
       MigrationAttempt.id a = "m1" /\ hypervisor (sim_drivers []) = Some hv /\
       as_migratable hv = Some mg /\ shown 9 hv mg r a (host sim_left) ev /\
       decided 9 "m1" ev (file (db w'))).
Proof.
  destruct (observe_send "db" quiet_disk (sim_drivers []) (fun w => w) 9 "m1" sim_left) as [w' res] eqn:E.
  exists w'. split; [vm_compute in E; by injection E as <- <-|].
  eapply (evidence_lifts_barrier "db" quiet_disk (sim_drivers []) 9 "m1" (fun w => w) "m1" sim_left w' res);
    [done|apply sim_sent_barrier|exact E].
Defined.

Lemma watch_returns_witness :
  exists w', finish_migrate_out "db" quiet_disk (sim_drivers []) 4 100000000
               (fun i => Z.of_nat i * WATCH_SLEEP)%Z (fun _ w => w) 0 9 "tcp:b:1" "m1" sim_sent = Some w' /\
    (barrier 9 "m1" (file (db w')) \/ exists ev, decided 9 "m1" ev (file (db w'))).
Proof.
  destruct (watch_returns "db" quiet_disk (sim_drivers []) 9 "m1" 100000000
              (fun i => Z.of_nat i * WATCH_SLEEP)%Z (fun _ w => w) "tcp:b:1" "m1" sim_sent
              ltac:(lia) ltac:(intros; lia)) as (w' & Hf & Hb).
  exists w'. split; [exact Hf|]. by apply Hb; [|apply sim_sent_barrier].
Defined.
