(* ===== verification/AgentPass.v ===== *)
(** What a reconciliation pass guarantees: a stale plan is dropped, an unwanted VM
    goes, the retry schedule and the resume counter are bounded, a dry run previews
    the pass, and a VMM without a record is ended only after its grace period. *)
From Stdlib Require Import Ascii String NArith ZArith List Bool Lia.
From stdpp Require Import base list strings.
From S2P Require Import Prelude RustStr Json AgentTypes AgentPlan AgentStore AgentHost AgentDisks AgentProvision AgentSim AgentSteps AgentRelease AgentMigrate AgentReconcile.

(** * Acting on a plan *)

Section pass.
Context {H Bytes : Type} `{!Codec Bytes VmRecord.t, !Codec Bytes VolumeRecord.t, !UuidParse}.
Context (path : string) (d : disk) (D : Drivers H) (F : Files H) (cfg : settings).

(** A stale plan is dropped.  Executing a planned action changes neither the
    machine nor the store's tables, or it acts on the record as it is under the
    lock: one that has the planned phase and intent and for which the planner, given
    the same observation, still names that very action, whatever other tasks did
    since.  So a guest is built, started, paused, resumed or adopted only if at that
    moment no operation owns the VM, no quarantine mark is on it and its guest is not
    with another node. *)
Theorem stale_plan_dropped meanwhile id planned obs at_ action mem (w : node H Bytes) mem' w' res :
  execute path d D F cfg meanwhile id planned obs at_ action (mem, w) = ((mem', w'), res) ->
  (mem' = mem /\
   ((host w' = host w /\ file (db w') = file (db w)) \/
    (host w' = host (meanwhile w) /\ file (db w') = file (db (meanwhile w))))) \/
  (exists s r,
     get path d id (db (meanwhile w)) = (s, Ok (Some r)) /\
     VmRecord.phase r = VmRecord.phase planned /\ VmRecord.desired r = VmRecord.desired planned /\
     plan r obs at_ = action /\
     ((mem', w'), res) = act path d D F cfg id r action (mem, mk_node s (host (meanwhile w))) /\
     (builds action = true ->
        VmRecord.operation r = None /\ VmRecord.unhealthy r = None /\
        VmRecord.phase r <> Phase.Receiving /\ VmRecord.phase r <> Phase.Migrated)).
Proof.
  unfold execute. destruct (idle action); [intros [= <- <- <-]; left; auto|].
  unfold mbind, pass_bind, yielding, doing_node, stored. simpl.
  destruct (get path d id (db (meanwhile w))) as [s a] eqn:Eg.
  assert (Hf : file s = file (db (meanwhile w))).
  { unfold get, get_row in Eg. change s with (s, a).1. rewrite <- Eg. apply reading_file. }
  destruct a as [[r|]|e]; simpl; [|intros [= <- <- <-]; left; auto..].
  destruct (negb (bool_decide (VmRecord.phase r = _) && _)) eqn:E1; [intros [= <- <- <-]; left; auto|].
  destruct (negb (bool_decide (plan _ _ _ = _))) eqn:E2; [intros [= <- <- <-]; left; auto|].
  apply negb_false_iff, andb_true_iff in E1 as [E1%bool_decide_eq_true_1 E1'%bool_decide_eq_true_1].
  apply negb_false_iff, bool_decide_eq_true_1 in E2. intros Hrun. right. exists s, r.
  split_and!; try done. intros Hb. rewrite <- E2 in Hb. apply plan_licensed in Hb. tauto.
Qed.

Lemma observe_quiet id r (w : node H Bytes) :
  exists w' obs, observe D id r w = (w', Ok obs) /\ db w' = db w.
Proof.
  unfold observe, mbind, agent_bind, hosted. simpl.
  destruct (hypervisor D) as [hv|]; simpl; [|eauto].
  destruct (hv_probe hv id (host w)) as [h1 b]. simpl.
  destruct (is_tracked hv id (host w) && b); simpl; [|eauto].
  unfold answered. simpl. destruct (get_state hv id h1) as [h2 st]. simpl. eauto.
Qed.
End pass.

Lemma node_run {H Bytes A B} (m : agent_m H Bytes A) (k : A -> pass_m H Bytes B) mem w w' a :
  m w = (w', Ok a) -> (doing_node m ≫= k) (mem, w) = k a (mem, w').
Proof. intros E. unfold mbind, pass_bind, doing_node. simpl. by rewrite E. Qed.

Lemma pass_run {H Bytes A B} (m : pass_m H Bytes A) (k : A -> pass_m H Bytes B) w w' a :
  m w = (w', Ok a) -> (m ≫= k) w = k a w'.
Proof. unfold mbind, pass_bind. by intros ->. Qed.

Section unwanted.
Context {H Bytes : Type} `{!Codec Bytes VmRecord.t, !Codec Bytes VolumeRecord.t, !UuidParse,
  !CodecLaws Bytes VmRecord.t}.
Context (path : string) (d : disk) (D : Drivers H) (F : Files H) (cfg : settings).
Context (quiet : forall n, fault d n = None) (id : VmId) (r : VmRecord.t).

(** The row of the VM holds [r]. *)
Definition holds_record (t : tables Bytes) : Prop :=
  exists b, sget (Uuid.to_string id) (VMS t) = Some b /\ from_slice b = Ok r.

Lemma get_run (w : node H Bytes) :
  opened (db w) = true -> holds_record (file (db w)) ->
  exists s, stored (get path d id) w = (mk_node s (host w), Ok (Some r)) /\
            opened s = true /\ file s = file (db w).
Proof.
  intros Ho (b & Hb & Hr). unfold get, get_row, stored.
  destruct (reading_quiet path d (fun t => match sget (Uuid.to_string id) (VMS t) with
     | Some bytes => result_ok (from_slice bytes : result string VmRecord.t) | None => None end)
     (db w) quiet Ho) as (s & E & Ho' & Hf).
  exists s. rewrite E, Hb, Hr. by split_and!.
Qed.

Lemma teardown_round W trigger mem (w : node H Bytes) :
  (forall rec : VmRecord.t, exists b : Bytes, to_vec rec = Ok b) ->
  live id (VOLUMES (file (db w))) w -> holds_record (file (db w)) ->
  serves D id r (VOLUMES (file (db w))) ->
  VmRecord.desired r = Desired.Absent -> VmRecord.operation r = None -> others W 0 = (fun w => w) ->
  exists w', reconcile_round path d D F cfg W trigger 0 id (mem, w)
               = ((mem, w'), Ok (Stop_here (Some Action.Teardown))) /\
             sget (Uuid.to_string id) (VMS (file (db w'))) = None.
Proof.
  intros He Hw Hr S Hd Ho Hothers. unfold reconcile_round.
  destruct (get_run w ltac:(apply Hw) Hr) as (s1 & E1 & Ho1 & Hf1).
  rewrite (node_run _ _ _ _ _ _ E1).
  rewrite (pass_run _ _ _ (mem, mk_node s1 (host w)) r).
  2: { destruct trigger; [|done..]. unfold doing_node, clear_orphaned_operation. by rewrite Ho. }
  rewrite (pass_run _ _ _ (mem, mk_node s1 (host w)) (Some r)).
  2: { unfold is_sending. rewrite Ho. by destruct (VmRecord.migration r). }
  destruct (observe_quiet D id r (mk_node s1 (host w))) as (w2 & obs & E2 & Hdb2).
  rewrite (node_run _ _ _ _ _ _ E2).
  rewrite (node_run _ _ _ w2 w2 None).
  2: { unfold quarantine_if_backend_died, backend_died_under_vmm. rewrite Hd. simpl.
       by rewrite andb_false_r, orb_true_r. }
  assert (Hp : plan r obs (wall W 0) = Action.Teardown).
  { unfold plan. by rewrite Ho, Hd. }
  cbv zeta. cbn [unwrap_or]. rewrite Hp. cbn [idle].
  assert (Hlive2 : live id (VOLUMES (file (db w2))) w2).
  { unfold live in *. rewrite Hdb2. simpl. rewrite Ho1, Hf1. tauto. }
  assert (Hr2 : holds_record (file (db w2))) by (unfold holds_record; rewrite Hdb2; simpl; by rewrite Hf1).
  destruct (get_run w2 ltac:(apply Hlive2) Hr2) as (s3 & E3 & Ho3 & Hf3).
  destruct (teardown_finishes path d D F id r (mk_node s3 (host w2)) quiet He) as (w4 & E4 & Hgone).
  { unfold live in *. simpl. rewrite Ho3, Hf3. tauto. }
  { destruct (get_run (mk_node s3 (host w2)) Ho3) as (s5 & E5 & _).
    { unfold holds_record. simpl. by rewrite Hf3. }
    unfold stored in E5. destruct (get path d id _) as [s6 [x|e]]; simpl in *; congruence. }
  { simpl. rewrite Hf3, Hdb2. simpl. by rewrite Hf1. }
  exists w4. split; [|done].
  rewrite (pass_run _ _ _ (mem, w4) tt); [done|].
  unfold registering, execute. cbn [idle]. rewrite Hothers.
  rewrite (pass_run _ _ _ (mem, w2) tt) by done.
  rewrite (node_run _ _ _ _ _ _ E3).
  rewrite !bool_decide_eq_true_2 by done. cbn [andb negb act]. unfold doing_node. cbn [fst snd]. by rewrite E4.
Qed.
End unwanted.


(** * The retry schedule *)

(** Failures of one VM's passes: when, and what they said. *)
Definition fail_all (id : VmId) (history : list (Z * string)) (mem : memory) : memory :=
  fold_left (fun m p => register_failure p.1 id p.2 m) history mem.

Lemma fail_all_get id history t said mem :
  bt_get N.compare id (failures mem) = None ->
  (N.of_nat (S (length history)) < 2 ^ 32)%N ->
  bt_get N.compare id (failures (fail_all id (history ++ [(t, said)]) mem))
  = Some (FailureState.mk (N.of_nat (S (length history)))
            (t + backoff_delay (N.of_nat (S (length history)))) said).
Proof.
  intros Hnone. revert t said. induction history as [|[t0 s0] history IH] using rev_ind; intros t said Hlt.
  - simpl. rewrite bt_get_insert_eq by apply _. by rewrite Hnone.
  - unfold fail_all. rewrite fold_left_app. fold (fail_all id (history ++ [(t0, s0)]) mem). simpl.
    rewrite bt_get_insert_eq by apply _. rewrite IH by (rewrite length_app in Hlt; simpl in *; lia). simpl.
    rewrite length_app in *. simpl in *. unfold wrap, u32_max. rewrite N.mod_small by lia.
    match goal with |- Some (FailureState.mk ?a _ _) = Some (FailureState.mk ?b _ _) =>
      by replace a with b by lia end.
Qed.

Lemma fail_all_other id id' history mem :
  id' <> id -> bt_get N.compare id' (failures (fail_all id history mem)) = bt_get N.compare id' (failures mem).
Proof.
  intros Hne. revert mem. induction history as [|[t s] history IH]; intros mem; simpl; [done|].
  rewrite IH. simpl. by rewrite bt_get_insert_ne by (apply _ || done).
Qed.

Lemma backoff_delay_pow k :
  (1 <= k)%N -> (60 * SECOND <= backoff_delay k <= BACKOFF_MAX)%Z.
Proof.
  intros Hk. unfold backoff_delay, BACKOFF_BASE, BACKOFF_MAX, SECOND.
  assert (Hm : (1 <= N.min k 5 <= 5)%N) by lia. generalize dependent (N.min k 5). intros n Hn.
  assert (n = 1 \/ n = 2 \/ n = 3 \/ n = 4 \/ n = 5)%N as [-> | [-> | [-> | [-> | -> ]]]] by lia; simpl; lia.
Qed.

Lemma backoff_delay_mono k k' : (k <= k')%N -> (backoff_delay k <= backoff_delay k')%Z.
Proof.
  intros Hk. unfold backoff_delay. apply Z.min_le_compat_r, Z.mul_le_mono_nonneg_l; [done|].
  apply Z.pow_le_mono_r; lia.
Qed.

(** The retry schedule is bounded.  After any run of failed passes of a VM the
    schedule counts them and keeps what the last one said; the next attempt waits
    at least a minute and at most fifteen after that failure, never less than a
    shorter run would have; from then on a pass is no longer skipped; other VMs'
    schedules are untouched; and one success forgets the run. *)
Theorem retry_schedule_bounded id history t said mem :
  bt_get N.compare id (failures mem) = None ->
  (N.of_nat (S (length history)) < 2 ^ 32)%N ->
  let mem' := fail_all id (history ++ [(t, said)]) mem in
  let k := N.of_nat (S (length history)) in
  backoff_state id mem' = (k, if str_is_empty said then None else Some said) /\
  (forall now, in_backoff now id mem' = (now <? t + backoff_delay k)%Z) /\
  (60 * SECOND <= backoff_delay k <= BACKOFF_MAX)%Z /\
  (forall j, (j <= k)%N -> backoff_delay j <= backoff_delay k)%Z /\
  (forall id' now, id' <> id -> in_backoff now id' mem' = in_backoff now id' mem) /\
  (bt_sorted N.compare (failures mem') -> forall now, in_backoff now id (clear_failure id mem') = false).
Proof.
  intros Hnone Hlt mem' k. pose proof (fail_all_get id history t said mem Hnone Hlt) as Hg.
  fold mem' k in Hg. unfold backoff_state, in_backoff. rewrite Hg. simpl. split_and!; try done.
  - apply backoff_delay_pow. unfold k. lia.
  - apply backoff_delay_pow. unfold k. lia.
  - intros j. apply backoff_delay_mono.
  - intros id' now Hne. unfold mem'. by rewrite fail_all_other.
  - intros Hs now. by rewrite bt_get_remove_eq by (apply _ || done).
Qed.

Lemma retry_schedule_bounded_witness :
  in_backoff (60 * SECOND) 7 (fail_all 7 ([(0%Z, "no image")] ++ [(SECOND, "no disk")]) (mk_memory [] [] [])) = true.
Proof.
  destruct (retry_schedule_bounded 7 [(0%Z, "no image")] SECOND "no disk" (mk_memory [] [] [])
              eq_refl eq_refl) as (_ & Hb & _).
  rewrite Hb. reflexivity.
Defined.

(** * Dry runs *)

Section dry.
Context {H Bytes : Type} `{!Codec Bytes VmRecord.t, !Codec Bytes VolumeRecord.t, !UuidParse,
  !CodecLaws Bytes VmRecord.t}.
Context (path : string) (d : disk) (D : Drivers H) (F : Files H) (cfg : settings).

(** The planner only asks whether there is a quarantine mark. *)
Lemma plan_any_mark r a b obs now :
  plan (VmRecord.set_unhealthy (Some a) r) obs now = plan (VmRecord.set_unhealthy (Some b) r) obs now.
Proof. done. Qed.

Lemma mutate_run id r f (w : node H Bytes) :
  (forall n, fault d n = None) -> (forall rec : VmRecord.t, exists b : Bytes, to_vec rec = Ok b) ->
  opened (db w) = true -> holds_record id r (file (db w)) ->
  exists w', stored (mutate path d id f) w = (w', Ok (Some (f r))) /\ holds_record id (f r) (file (db w')).
Proof.
  intros Hq He Ho (b & Hb & Hr). destruct (He (f r)) as [b' Hb'].
  unfold stored, mutate, writing, attempt, once. rewrite Ho, Hq, Hb, Hr, Hb'. simpl.
  eexists. split; [done|]. exists b'. simpl. unfold sget, sinsert.
  rewrite bt_get_insert_eq by apply _. split; [done|]. by apply from_to.
Qed.

(** A dry run previews the pass.  On a disk that answers, for a VM that is not
    being sent, the action a dry run shows is the one the pass, started at the same
    moment on the same machine, takes first, including when the pass is about to
    quarantine the VM for a dead backend: the pass answers it, continues with it, or
    fails in executing it; and the dry run itself leaves the store's tables alone. *)
Theorem dry_run_previews id r W mem (w : node H Bytes) w1 shown obs action :
  (forall n, fault d n = None) -> (forall rec : VmRecord.t, exists b : Bytes, to_vec rec = Ok b) ->
  opened (db w) = true -> holds_record id r (file (db w)) -> is_sending r = false ->
  dry_run path d D (wall W 0) id w = (w1, Ok (Some (shown, obs, action))) ->
  file (db w1) = file (db w) /\
  match (reconcile_round path d D F cfg W Periodic 0 id (mem, w)).2 with
  | Ok (Stop_here (Some a)) | Ok (Go_on a) => a = action
  | Ok (Stop_here None) => False
  | Err _ => idle action = false
  end.
Proof.
  intros Hq He Ho Hr Hs Hdry. unfold dry_run in Hdry. unfold reconcile_round.
  destruct (get_run path d Hq id r w Ho Hr) as (s1 & E1 & Ho1 & Hf1).
  rewrite (agent_bind_run _ _ _ _ _ E1) in Hdry. rewrite (node_run _ _ _ _ _ _ E1).
  rewrite (pass_run _ _ _ (mem, mk_node s1 (host w)) r) by done.
  rewrite (pass_run _ _ _ (mem, mk_node s1 (host w)) (Some r)).
  2: { rewrite Hs. by destruct (VmRecord.migration r). }
  destruct (observe_quiet D id r (mk_node s1 (host w))) as (w2 & obs' & E2 & Hdb2).
  rewrite (agent_bind_run _ _ _ _ _ E2) in Hdry. rewrite (node_run _ _ _ _ _ _ E2).
  cbv zeta in Hdry. injection Hdry as <- _ <- Haction. split; [by rewrite Hdb2|].
  set (fresh := if negb (is_some (VmRecord.unhealthy r)) && backend_died_under_vmm r obs'
                then Some (VmRecord.set_unhealthy (Some BACKEND_DIED_REASON) r) else None).
  assert (exists w3, quarantine_if_backend_died path d id r obs' w2 = (w3, Ok fresh)) as [w3 E3].
  { unfold fresh, quarantine_if_backend_died.
    destruct (is_some (VmRecord.unhealthy r)), (backend_died_under_vmm r obs'); simpl; eauto.
    edestruct (mutate_run id r) as (w3 & E3 & _); [done|done| | |by exists w3; apply E3].
    - by rewrite Hdb2.
    - unfold holds_record. rewrite Hdb2. simpl. by rewrite Hf1. }
  rewrite (node_run _ _ _ _ _ _ E3). cbv zeta.
  assert (Hp : plan (unwrap_or r fresh) obs' (wall W 0) = action).
  { rewrite <- Haction. unfold fresh. by destruct (_ && _). }
  rewrite Hp. destruct (idle action) eqn:Ei; [done|].
  unfold mbind, pass_bind. destruct (registering _ _ _ _) as [w4 [[]|e]]; simpl; [|done].
  by destruct action.
Qed.
End dry.

(** * Resumes that do not take *)

Section resumes.
Context {H Bytes : Type} `{!Codec Bytes VmRecord.t, !Codec Bytes VolumeRecord.t, !UuidParse,
  !CodecLaws Bytes VmRecord.t}.
Context (path : string) (d : disk) (D : Drivers H).

(** The number of resumes of a VM in a row that did not take. *)
Definition resumes_failed (id : VmId) (mem : memory) : N :=
  unwrap_or 0%N (bt_get N.compare id (resume_failures mem)).

(** Three resumes that do not take quarantine the VM, not fewer.  With a disk
    that answers, a confirmation that finds the guest running forgets the earlier
    ones and succeeds; one that does not fails and counts itself, and marks the row
    exactly if it is the third in a row or a later one. *)
Theorem resume_quarantines_third id r hv mem (w : node H Bytes) mem' w' res :
  (forall n, fault d n = None) -> (forall rec : VmRecord.t, exists b : Bytes, to_vec rec = Ok b) ->
  opened (db w) = true -> holds_record id r (file (db w)) -> hypervisor D = Some hv ->
  bt_sorted N.compare (resume_failures mem) -> (resumes_failed id mem + 1 < 2 ^ 32)%N ->
  confirm_resume path d D id (mem, w) = ((mem', w'), res) ->
  match (get_state hv id (host w)).2 with
  | Ok VmState.Running =>
      res = Ok tt /\ resumes_failed id mem' = 0%N /\ file (db w') = file (db w)
  | _ =>
      (exists e, res = Err e) /\ resumes_failed id mem' = (resumes_failed id mem + 1)%N /\
      (if (2 <=? resumes_failed id mem)%N
       then holds_record id (VmRecord.set_unhealthy (Some RESUME_INEFFECTIVE_REASON) r) (file (db w'))
       else file (db w') = file (db w))
  end.
Proof.
  intros Hq He Ho Hr Hhv Hsort Hlt. unfold confirm_resume, get_hypervisor. rewrite Hhv.
  unfold mbind, pass_bind, doing_node, recall, remember, answered. simpl.
  destruct (get_state hv id (host w)) as [h st] eqn:Est. simpl.
  assert (st = Ok VmState.Running \/ st <> Ok VmState.Running) as [-> | Hne].
  { destruct st as [[]|e]; auto. }
  { intros [= <- <- <-]. simpl. split_and!; try done. unfold resumes_failed. simpl.
    by rewrite bt_get_remove_eq by (apply _ || done). }
  assert (Hn : wrap u32_max (resumes_failed id mem + 1) = (resumes_failed id mem + 1)%N).
  { unfold wrap, u32_max. apply N.mod_small. lia. }
  assert (Hthird : forall n, (RESUME_ATTEMPTS <=? n + 1)%N = (2 <=? n)%N).
  { intros n. unfold RESUME_ATTEMPTS. lia. }
  destruct (mutate_run path d id r (VmRecord.set_unhealthy (Some RESUME_INEFFECTIVE_REASON))
              (mk_node (db w) h) Hq He Ho Hr) as (w2 & E2 & Hw2).
  unfold resumes_failed in *.
  destruct st as [[]|e]; try done; simpl; rewrite bt_get_insert_eq by apply _; cbn [unwrap_or];
    rewrite Hn, Hthird; destruct (2 <=? _)%N; simpl; rewrite ?E2; simpl; intros [= <- <- <-]; simpl;
    rewrite bt_get_insert_eq by apply _; eauto.
Qed.
End resumes.

(** * VMMs without a record *)

(** An entry of the sweep's memory after it looked: old ones keep their instant, new
    ones start now. *)
Lemma retain_strays_in found now held v since :
  In (v, since) (retain_strays found now held) -> In v found /\ (In (v, since) held \/ since = now).
Proof.
  unfold retain_strays.
  assert (Hins : forall (k : N) (t : Z) m x, In x (bt_insert N.compare k t m) -> x = (k, t) \/ In x m).
  { intros k t m x; induction m as [|[k' v'] m IH]; simpl; [naive_solver|].
    destruct (N.compare k k'); simpl; naive_solver. }
  assert (Hgen : forall l acc,
    (forall u t, In (u, t) acc -> In u found /\ (In (u, t) held \/ t = now)) ->
    (forall u, In u l -> In u found) ->
    In (v, since) (fold_left (fun held id => if is_some (bt_get N.compare id held) then held
                     else bt_insert N.compare id now held) l acc) ->
    In v found /\ (In (v, since) held \/ since = now)).
  { induction l as [|u l IH]; intros acc Hacc Hl; simpl; [apply Hacc|]. apply IH; [|by intros; apply Hl; right].
    intros u' t. destruct (is_some (bt_get N.compare u acc)); [apply Hacc|].
    intros [[= -> ->]|Hin]%Hins; [|by apply Hacc]. split; [apply Hl; by left|by right]. }
  apply Hgen; [|done]. intros u t [Hin Hf]%filter_In. split; [|by left].
  apply existsb_exists in Hf as (x & Hx & E). simpl in E. by apply N.eqb_eq in E as ->.
Qed.

Section strays.
Context {H Bytes : Type} `{!Codec Bytes VmRecord.t, !Codec Bytes VolumeRecord.t, !UuidParse, !UuidLaws}.
Context (path : string) (d : disk) (D : Drivers H).

Lemma end_strays_keeps (I : H -> Prop) hv ids mem (w : node H Bytes) :
  (forall v, In v ids -> call_keeps I (end_stray hv v)) -> I (host w) ->
  I (host (end_strays hv ids (mem, w)).1.2).
Proof.
  revert mem w. induction ids as [|v ids IH]; intros mem w Hk Hw; simpl; [done|].
  unfold mbind, pass_bind, doing_node, answered. simpl.
  pose proof (Hk v ltac:(by left) _ Hw) as Hv. destruct (end_stray hv v (host w)) as [h [[]|e]]; simpl in *;
    (apply IH; [intros; apply Hk; by right|done]).
Qed.

(** A sweep ends only what is provably nobody's.  Let the driver list as strays
    only VMMs whose id it was not told to be known, as its interface demands.  Then
    a fact about the machine that can only be ended by ending VMMs outlives a sweep
    unless one of those VMMs has no row at all, readable or not, was already held as
    a stray when the sweep began, and has been for ten minutes: a VM with a row, a
    VMM seen for the first time, and every VMM after a restart of the agent are left
    alone, and so is everything while the rows cannot be read. *)
Theorem sweep_spares (I : H -> Prop) now mem (w : node H Bytes) mem' w' res :
  (forall hv known h v, hypervisor D = Some hv -> In v (strays hv known h).2 -> ~ In v known) ->
  (forall hv known, hypervisor D = Some hv -> forall h, I h -> I (strays hv known h).1) ->
  (forall hv v since, hypervisor D = Some hv ->
     ((v < 2 ^ 128)%N -> sget (Uuid.to_string v) (VMS (file (db w))) = None) ->
     In (v, since) (held_strays mem) -> (STRAY_GRACE <= now - since)%Z ->
     call_keeps I (end_stray hv v)) ->
  I (host w) -> sweep_unmanaged_vmms path d D now (mem, w) = ((mem', w'), res) -> I (host w').
Proof.
  intros Hlaw Hst Hend Hw. unfold sweep_unmanaged_vmms.
  destruct (hypervisor D) as [hv|] eqn:Ehv; [|by intros [= <- <- <-]].
  unfold mbind, pass_bind, doing_node, caught, stored. simpl.
  destruct (list_raw path d (db w)) as [s [rows|e]] eqn:El; simpl; [|by intros [= <- <- <-]].
  unfold list_raw in El. apply reading_ok in El as [Hf ->].
  unfold hosted. simpl. set (known := filter_map _ _).
  pose proof (Hst hv known eq_refl _ Hw) as Hw2. pose proof (Hlaw hv known (host w)) as Hnk.
  destruct (strays hv known (host w)) as [h found] eqn:Es. simpl in *.
  destruct (is_nil found); [by intros [= <- <- <-]|]. unfold on_conditions. simpl. intros Hrun.
  match type of Hrun with end_strays hv ?ids (?m, ?n) = _ =>
    pose proof (end_strays_keeps I hv ids m n) as K end.
  rewrite Hrun in K. apply K; [|done]. clear K Hrun. intros v Hin.
  unfold overdue in Hin. apply in_map_iff in Hin as ([v' since] & <- & Hin).
  apply filter_In in Hin as [Hin Hlate]. simpl in Hlate. apply Z.leb_le in Hlate.
  apply retain_strays_in in Hin as [Hfound [Hheld | -> ]].
  - apply (Hend hv v' since eq_refl); [|done|done]. intros Hlt.
    destruct (sget (Uuid.to_string v') (VMS (file (db w)))) as [b|] eqn:Eb; [|done].
    destruct (Hnk v' eq_refl Hfound). unfold known. apply in_filter_map.
    exists (Uuid.to_string v', b). split; [by apply bt_get_in in Eb; [|apply _..]|].
    simpl. by apply uuid_of_to_string.
  - unfold STRAY_GRACE, SECOND in Hlate. lia.
Qed.
End strays.

(** * The theorems on the machine in memory *)

(** A plan to provision, stale because the VM is wanted gone by now. *)
Lemma stale_plan_dropped_witness :
  let gone := (stored (put "db" quiet_disk 7 (intend_record Desired.Absent None sim_record))) in
  let run := execute "db" quiet_disk (sim_drivers []) (sim_files []) sim_settings (fun w => (gone w).1) 7
               sim_record (Observed.mk false false false true None false) 0 Action.Provision
               (mk_memory [] [] [], sim_running) in
  host run.1.2 = host sim_running.
Proof.
  intros gone run. destruct run as [[mem' w'] res] eqn:Erun.
  destruct (stale_plan_dropped "db" quiet_disk (sim_drivers []) (sim_files []) sim_settings
    (fun w => (gone w).1) 7 sim_record (Observed.mk false false false true None false) 0 Action.Provision
    (mk_memory [] [] []) sim_running mem' w' res Erun)
    as [[_ [[Hh _]|[Hh _]]]|(s & r & Hg & _ & Hd & _)]; [exact Hh|exact Hh|].
  exfalso. vm_compute in Hg. injection Hg as _ <-. discriminate Hd.
Defined.

(** The VM, wanted gone. *)
Definition sim_unwanted : node machine mem_bytes :=
  Eval vm_compute in
  (stored (put "db" quiet_disk 7 (VmRecord.set_desired Desired.Absent sim_record)) sim_running).1.

Definition calm {H Bytes} : weather (H := H) (Bytes := Bytes) :=
  mk_weather (fun _ => 0%Z) (fun _ => 0%Z) (fun _ w => w).

Lemma sim_serves_unwanted :
  serves (sim_drivers []) 7 (VmRecord.set_desired Desired.Absent sim_record)
    (VOLUMES (file (db sim_unwanted))).
Proof.
  destruct sim_serves as [S1 S2 S3 S4 S5 S6 S7 S8]. by split.
Qed.


Lemma sim_holds : holds_record 7 sim_record (file (db sim_running)).
Proof. by exists (VmBytes sim_record). Qed.

Lemma dry_run_previews_witness :
  exists w1 shown obs action,
    dry_run "db" quiet_disk (sim_drivers []) 0 7 sim_running = (w1, Ok (Some (shown, obs, action))) /\
    match (reconcile_round "db" quiet_disk (sim_drivers []) (sim_files []) sim_settings calm Periodic 0 7
             (mk_memory [] [] [], sim_running)).2 with
    | Ok (Stop_here (Some a)) | Ok (Go_on a) => a = action
    | Ok (Stop_here None) => False
    | Err _ => idle action = false
    end.
Proof.
  destruct (dry_run "db" quiet_disk (sim_drivers []) 0 7 sim_running) as [w1 res] eqn:E.
  assert (exists shown obs action, res = Ok (Some (shown, obs, action))) as (shown & obs & action & ->).
  { vm_compute in E. injection E as _ <-. eauto. }
  exists w1, shown, obs, action. split; [done|].
  apply (dry_run_previews "db" quiet_disk (sim_drivers []) (sim_files []) sim_settings 7 sim_record calm
           (mk_memory [] [] []) sim_running w1 shown obs action); [done| |done|apply sim_holds|done|exact E].
  intros rec. by exists (VmBytes rec).
Defined.

(** A guest that stays paused: the third confirmation marks it. *)
Definition sim_paused : node machine mem_bytes :=
  mk_node (db sim_running) (put_guest 7 VmState.Paused (host sim_running)).

Lemma resume_quarantines_third_witness :
  let run := confirm_resume "db" quiet_disk (sim_drivers []) 7 (mk_memory [] [(7%N, 2%N)] [], sim_paused) in
  holds_record 7 (VmRecord.set_unhealthy (Some RESUME_INEFFECTIVE_REASON) sim_record) (file (db run.1.2)).
Proof.
  intros run. destruct run as [[mem' w'] res] eqn:Erun.
  pose proof (resume_quarantines_third "db" quiet_disk (sim_drivers []) 7 sim_record (sim_hypervisor [])
    (mk_memory [] [(7%N, 2%N)] []) sim_paused mem' w' res) as H.
  simpl in H. apply H; try done; [intros rec; by exists (VmBytes rec)|apply sim_holds|repeat constructor].
Defined.

(** A VMM nobody has a record of, held for eleven minutes, is ended; the VM with a row
    stays. *)
Lemma sweep_spares_witness :
  let w := mk_node (db sim_running) (put_guest 8 VmState.Running (host sim_running)) in
  let run := sweep_unmanaged_vmms "db" quiet_disk (sim_drivers []) (660 * SECOND)
               (mk_memory [] [] [(8%N, 0%Z)], w) in
  guest_state (host run.1.2) 7 = Some VmState.Running.
Proof.
  intros w run. destruct run as [[mem' w'] res] eqn:Erun.
  apply (sweep_spares "db" quiet_disk (sim_drivers []) (fun m => guest_state m 7 = Some VmState.Running)
    (660 * SECOND)%Z (mk_memory [] [] [(8%N, 0%Z)]) w mem' w' res); [| | |reflexivity|exact Erun].
  - intros hv known h v [= <-]. simpl. intros [_ Hv]%filter_In Hin. apply negb_true_iff in Hv.
    assert (existsb (N.eqb v) known = true) by (apply existsb_exists; exists v; by rewrite N.eqb_refl).
    congruence.
  - by intros hv known [= <-].
  - intros hv v since [= <-] _ [[= <- <-]|[]] _ m Hm. simpl.
    unfold doing. simpl. unfold guest_state, drop_guest in *. simpl.
    induction (guests m) as [|[g st] l IH]; simpl in *; [done|].
    destruct (N.eqb_spec g 7) as [->|Hne]; [done|]. destruct (N.eqb_spec g 8) as [->|Hne']; simpl; [by apply IH|].
    rewrite (proj2 (N.eqb_neq g 7)) by done. by apply IH.
Defined.
