(* ===== verification/AgentVolumes.v ===== *)
(** Volumes and snapshots that outlive the VMs using them
    ([src/components/agent/src/volumes.rs]): provisioned, grown, copied, deleted
    and forgotten on the node's backends, with records that go out in every report.
    The operations lock that deletion holds against attachments is taken for the
    whole of each operation here. *)
From Stdlib Require Import Ascii String NArith ZArith List Bool Lia.
From stdpp Require Import base list strings.
From S2P Require Import Prelude RustStr Json AgentTypes AgentStore AgentHost AgentProvision AgentSim AgentSteps.

Definition reported_reason (r : VolumeRecord.t) : option VolumeReason.t :=
  match VolumeRecord.phase r with
  | VolumeRecordPhase.Ready => None
  | _ => option_or (VolumeRecord.reason r) (Some VolumeReason.Unrecorded)
  end.

Definition reported_snapshot_reason (r : SnapshotRecord.t) : option SnapshotReason.t :=
  match SnapshotRecord.phase r with
  | SnapshotRecordPhase.Ready => None
  | _ => option_or (SnapshotRecord.reason r) (Some SnapshotReason.Unrecorded)
  end.

(** One hour. *)
Definition TOMBSTONE_TTL : Z := 3600000000000.

Module Holder.
Inductive t := Vm (id : VmId) | Unreadable (key : string).
(** The refusal a holder is. *)
Definition refusal (h : t) : string :=
  match h with
  | Vm vm => "held by vm " +:+ Uuid.to_string vm
  | Unreadable key => "this node has an unreadable record of vm " +:+ key +:+
                      ", which may be holding this volume"
  end.
End Holder.

(** What goes out about a volume and about a snapshot. *)
Module VolumeStateReport.
Record t := mk {
  id : VolumeId;
  phase : VolumeRecordPhase.t;
  backend : string;
  reason : option VolumeReason.t;
  open : bool;
  message : string;
  size_bytes : N }.
End VolumeStateReport.

Module SnapshotStateReport.
Record t := mk {
  snapshot_id : Uuid.t;
  phase : SnapshotRecordPhase.t;
  backend : string;
  size_bytes : N;
  reason : option SnapshotReason.t;
  message : string }.
End SnapshotStateReport.

Section volumes.
Context {H Bytes : Type} `{!Codec Bytes VmRecord.t, !Codec Bytes VolumeRecord.t,
  !Codec Bytes SnapshotRecord.t, !UuidParse}.
Context (path : string) (d : disk) (D : Drivers H).

Abbreviation M := (agent_m H Bytes).

Definition write (id : VolumeId) (r : VolumeRecord.t) : M unit := stored (put_volume path d id r).

(** One backend by name. *)
Definition volume_driver (name : string) : M (VolumeDriver H) :=
  pureM (ok_or ("volume driver " +:+ debug name +:+ " is not configured on this node")
           (sget name (storage D))).

Definition snapshot_handle (id : Uuid.t) : M (option VolumeHandle.t) :=
  found ← stored (get_snapshot path d id);
  mret (match found with Some r => SnapshotRecord.handle r | None => None end).

(** ** Making *)

Definition intended (s : VolumeSpec.t) : VolumeRecord.t :=
  VolumeRecord.mk s None VolumeRecordPhase.Provisioning (Some VolumeReason.Working) None None.
Definition ready (s : VolumeSpec.t) (h : VolumeHandle.t) : VolumeRecord.t :=
  VolumeRecord.mk s (Some h) VolumeRecordPhase.Ready None None None.
Definition refused_volume (s : VolumeSpec.t) (message : string) : VolumeRecord.t :=
  VolumeRecord.mk s None VolumeRecordPhase.Failed (Some VolumeReason.DriverRefused) (Some message) None.

(** The driver was asked: its handle, or its refusal, is recorded. *)
Definition made (what : string) (id : VolumeId) (s : VolumeSpec.t)
    (answer : result StorageError.t VolumeHandle.t) : M unit :=
  match answer with
  | Ok handle => write id (ready s handle)
  | Err e =>
      let message := say_storage e in
      _ ← write id (refused_volume s message);
      bail (within what message)
  end.

Definition provision_from_snapshot (id : VolumeId) (snapshot : Uuid.t) (s : VolumeSpec.t) : M unit :=
  existing ← stored (get_volume path d id);
  if is_some_and (fun r => is_some (VolumeRecord.handle r)) existing then mret tt
  else
    from ← snapshot_handle snapshot;
    from ← pureM (ok_or ("this node has no snapshot " +:+ Uuid.to_string snapshot +:+
                         " to make a volume from") from);
    driver ← volume_driver (spec_driver s);
    _ ← write id (intended s);
    answer ← answered (provision_from driver id from s);
    made "provisioning volume from a snapshot" id s answer.

Definition provision_volume (id : VolumeId) (s : VolumeSpec.t) : M unit :=
  existing ← stored (get_volume path d id);
  match existing with
  | Some (VolumeRecord.mk spec (Some handle) phase _ _ gone_at) =>
      if bool_decide (phase = VolumeRecordPhase.Ready) then mret tt
      else write id (VolumeRecord.mk spec (Some handle) VolumeRecordPhase.Ready None None gone_at)
  | _ =>
      driver ← volume_driver (spec_driver s);
      _ ← write id (intended s);
      answer ← answered (provision driver id s);
      made "provisioning volume" id s answer
  end.

(** ** Deleting *)

Definition holds (id : VolumeId) (row : VmRow) : option Holder.t :=
  match row with
  | Record_ vm r =>
      if existsb (fun v => N.eqb (Volume.id v) id) (VmRecord.volumes r)
         || existsb (fun v => N.eqb (VolumeHandle.id v) id) (VmRecord.unattached_volumes r)
      then Some (Holder.Vm vm) else None
  | Unreadable key => Some (Holder.Unreadable key)
  end.

Definition holder (id : VolumeId) : M (option Holder.t) :=
  found ← stored (rows path d); mret (find_map (holds id) found).

Definition no_spec : VolumeSpec.t := VolumeSpec.mk None 0 None None.

Definition tombstone_record (now : Z) (spec : option VolumeSpec.t) : VolumeRecord.t :=
  VolumeRecord.mk (unwrap_or no_spec spec) None VolumeRecordPhase.Gone
    (Some VolumeReason.Deprovisioned) None (Some now).

Definition tombstone (now : Z) (id : VolumeId) (spec : option VolumeSpec.t) : M unit :=
  write id (tombstone_record now spec).

Definition deprovision_volume (now : Z) (id : VolumeId) : M unit :=
  held ← holder id;
  match held with
  | Some h => bail (Holder.refusal h)
  | None =>
      found ← stored (get_volume path d id);
      match found with
      | None => tombstone now id None
      | Some r =>
          if bool_decide (VolumeRecord.phase r = VolumeRecordPhase.Gone) then mret tt
          else
            let s := VolumeRecord.spec r in
            let name := spec_driver s in
            driver ← volume_driver name;
            handle ← match VolumeRecord.handle r with
                     | Some handle => mret (Some handle)
                     | None => driven (fun e => within ("asking " +:+ name +:+
                                 " what it holds for volume " +:+ Uuid.to_string id) (say_storage e))
                                 (probe driver id s)
                     end;
            match handle with
            | None => tombstone now id (Some s)
            | Some handle =>
                _ ← driven (fun e => within ("deprovisioning volume " +:+ Uuid.to_string id +:+
                              " via " +:+ name) (say_storage e)) (deprovision driver handle);
                tombstone now id (Some s)
            end
      end
  end.

Definition forget_volume (id : VolumeId) : M unit :=
  held ← holder id;
  match held with
  | Some h => bail (Holder.refusal h)
  | None =>
      found ← stored (get_volume path d id);
      match found with
      | None => mret tt
      | Some r =>
          _ ← match VolumeRecord.handle r, sget (spec_driver (VolumeRecord.spec r)) (storage D) with
              | Some handle, Some driver => _ ← answered (forget driver handle); mret tt
              | _, _ => mret tt
              end;
          stored (delete_volume path d id)
      end
  end.

Definition resize_volume (id : VolumeId) (size_bytes : N) : M unit :=
  found ← stored (get_volume path d id);
  r ← pureM (ok_or ("this node has no record of volume " +:+ Uuid.to_string id) found);
  handle ← pureM (ok_or ("volume " +:+ Uuid.to_string id +:+ " is known here but has not been provisioned")
                    (VolumeRecord.handle r));
  let name := spec_driver (VolumeRecord.spec r) in
  driver ← volume_driver name;
  grown ← driven (fun e => within ("resizing volume " +:+ Uuid.to_string id +:+ " via " +:+ name)
                             (say_storage e)) (resize driver handle size_bytes);
  write id (VolumeRecord.mk (VolumeRecord.spec r) (Some grown) (VolumeRecord.phase r)
              (VolumeRecord.reason r) (VolumeRecord.message r) (VolumeRecord.gone_at r)).

(** ** Snapshots *)

Definition snapshot_volume (id : Uuid.t) (volume : VolumeId) : M unit :=
  existing ← stored (get_snapshot path d id);
  match existing with
  | Some (SnapshotRecord.mk vol (Some handle) driver phase _ _ gone_at) =>
      if bool_decide (phase = SnapshotRecordPhase.Ready) then mret tt
      else stored (put_snapshot path d id
             (SnapshotRecord.mk vol (Some handle) driver SnapshotRecordPhase.Ready None None gone_at))
  | _ =>
      found ← stored (get_volume path d volume);
      r ← pureM (ok_or ("this node has no record of volume " +:+ Uuid.to_string volume) found);
      handle ← pureM (ok_or ("volume " +:+ Uuid.to_string volume +:+
                             " is known here but has not been provisioned") (VolumeRecord.handle r));
      let name := spec_driver (VolumeRecord.spec r) in
      driver ← volume_driver name;
      _ ← stored (put_snapshot path d id (SnapshotRecord.mk volume None name SnapshotRecordPhase.Creating
                    (Some SnapshotReason.Working) None None));
      answer ← answered (snapshot driver handle id);
      match answer with
      | Ok taken =>
          stored (put_snapshot path d id
            (SnapshotRecord.mk volume (Some taken) name SnapshotRecordPhase.Ready None None None))
      | Err e =>
          let message := say_storage e in
          _ ← stored (put_snapshot path d id
                (SnapshotRecord.mk volume None name SnapshotRecordPhase.Failed
                   (Some SnapshotReason.DriverRefused) (Some message) None));
          bail (within "taking snapshot" message)
      end
  end.

Definition snapshot_tombstone (now : Z) (id : Uuid.t) (was : option SnapshotRecord.t) : M unit :=
  stored (put_snapshot path d id
    (SnapshotRecord.mk (match was with Some r => SnapshotRecord.volume r | None => 0%N end) None
       (match was with Some r => SnapshotRecord.driver r | None => default_volume_driver end)
       SnapshotRecordPhase.Gone (Some SnapshotReason.Dropped) None (Some now))).

Definition drop_snapshot_record (now : Z) (id : Uuid.t) : M unit :=
  found ← stored (get_snapshot path d id);
  match found with
  | None => snapshot_tombstone now id None
  | Some r =>
      if bool_decide (SnapshotRecord.phase r = SnapshotRecordPhase.Gone) then mret tt
      else
        let name := SnapshotRecord.driver r in
        driver ← volume_driver name;
        handle ← match SnapshotRecord.handle r with
                 | Some handle => mret (Some handle)
                 | None =>
                     origin ← stored (get_volume path d (SnapshotRecord.volume r));
                     driven (fun e => within ("asking " +:+ name +:+ " what it holds for snapshot " +:+
                                              Uuid.to_string id) (say_storage e))
                       (probe_snapshot driver
                          (match origin with Some v => VolumeRecord.handle v | None => None end) id)
                 end;
        match handle with
        | None => snapshot_tombstone now id (Some r)
        | Some handle =>
            _ ← driven (fun e => within ("dropping snapshot " +:+ Uuid.to_string id +:+ " via " +:+ name)
                                   (say_storage e)) (drop_snapshot driver handle);
            snapshot_tombstone now id (Some r)
        end
  end.

(** ** Reports *)

(** A tombstone past its retention; a clock that went back keeps it. *)
Definition expired (now : Z) (gone_at : option Z) : bool :=
  is_some_and (fun at_ => (TOMBSTONE_TTL <? now - at_)%Z) gone_at.

Definition open_here : M (list VolumeId) :=
  records ← stored (list_ path d);
  mret (flat_map (fun p => map Volume.id (List.filter (fun v => negb (Volume.detached v))
                                            (VmRecord.volumes p.2))) records).

Fixpoint report_volumes (now : Z) (open : list VolumeId) (l : list (VolumeId * VolumeRecord.t))
  : M (list VolumeStateReport.t) :=
  match l with
  | [] => mret []
  | (id, r) :: l' =>
      if expired now (VolumeRecord.gone_at r) then
        _ ← caught (stored (delete_volume path d id));
        report_volumes now open l'
      else
        rest ← report_volumes now open l';
        mret (VolumeStateReport.mk id (VolumeRecord.phase r) (VolumeRecord.backend r)
                (reported_reason r) (existsb (N.eqb id) open)
                (unwrap_or EmptyString (VolumeRecord.message r))
                (match VolumeRecord.handle r with Some h => VolumeHandle.size_bytes h | None => 0%N end)
              :: rest)
  end.

Definition report_volume_states (now : Z) : M (list VolumeStateReport.t) :=
  records ← caught (stored (list_volumes path d));
  match records with
  | Err _ => mret []
  | Ok records =>
      open ← caught open_here;
      report_volumes now (match open with Ok l => l | Err _ => [] end) records
  end.

Fixpoint report_snapshots (now : Z) (l : list (Uuid.t * SnapshotRecord.t))
  : M (list SnapshotStateReport.t) :=
  match l with
  | [] => mret []
  | (id, r) :: l' =>
      if expired now (SnapshotRecord.gone_at r) then
        _ ← caught (stored (delete_snapshot path d id));
        report_snapshots now l'
      else
        rest ← report_snapshots now l';
        mret (SnapshotStateReport.mk id (SnapshotRecord.phase r) (SnapshotRecord.backend r)
                (SnapshotRecord.size_bytes r) (reported_snapshot_reason r)
                (unwrap_or EmptyString (SnapshotRecord.message r)) :: rest)
  end.

Definition report_snapshot_states (now : Z) : M (list SnapshotStateReport.t) :=
  records ← caught (stored (list_snapshots path d));
  match records with
  | Err _ => mret []
  | Ok records => report_snapshots now records
  end.

(** ** Startup *)

Definition lost (r : VolumeRecord.t) (h : VolumeHandle.t) : VolumeRecord.t :=
  VolumeRecord.mk (VolumeRecord.spec r) None VolumeRecordPhase.Failed (Some VolumeReason.NotOnBackend)
    (Some ("the backend has no volume " +:+ VolumeHandle.backend h +:+
           "; it was there when this node last wrote the record")) (VolumeRecord.gone_at r).

Definition adopt_one (p : VolumeId * VolumeRecord.t) : M unit :=
  let (id, r) := p in
  match VolumeRecord.handle r with
  | None => mret tt
  | Some handle =>
      if negb (bool_decide (VolumeRecord.phase r = VolumeRecordPhase.Ready)) then mret tt
      else match sget (spec_driver (VolumeRecord.spec r)) (storage D) with
           | None => mret tt
           | Some driver =>
               answer ← answered (describe driver handle);
               match answer with
               | Err (StorageError.NotFound _) => _ ← caught (write id (lost r handle)); mret tt
               | _ => mret tt
               end
           end
  end.

Definition adopt_volumes : M unit :=
  records ← caught (stored (list_volumes path d));
  match records with
  | Err _ => mret tt
  | Ok records => each adopt_one records
  end.
End volumes.

(** * Deletion *)

Section deletion.
Context {H Bytes : Type} `{!Codec Bytes VmRecord.t, !Codec Bytes VolumeRecord.t, !UuidParse}.
Context (path : string) (d : disk) (D : Drivers H).
Implicit Types (w : node H Bytes).

(** A row of a VM names the volume among its attachments or unattached handles, or
    cannot be read. *)
Definition held_by_a_row (id : VolumeId) (t : tables Bytes) : Prop :=
  exists raw, In raw (VMS t) /\
    match decoded (A := VmRecord.t) raw with
    | Some (_, r) => In id (map Volume.id (VmRecord.volumes r)) \/
                     In id (map VolumeHandle.id (VmRecord.unattached_volumes r))
    | None => True
    end.

Lemma existsb_id {A} (f : A -> N) id l : existsb (fun v => N.eqb (f v) id) l = true <-> In id (map f l).
Proof.
  rewrite existsb_exists, in_map_iff. setoid_rewrite N.eqb_eq. naive_solver.
Qed.

Lemma held_iff_holds id t :
  held_by_a_row id t <-> exists raw, In raw (VMS t) /\ is_some (holds id (row_of raw)) = true.
Proof.
  unfold held_by_a_row, row_of. f_equiv. intros raw. f_equiv.
  destruct (decoded raw) as [[vm r]|]; [|done]. simpl.
  rewrite <- !existsb_id, <- orb_true_iff. by destruct (_ || _).
Qed.

Lemma find_map_total {A B} (f : A -> option B) l a :
  In a l -> is_some (f a) = true -> exists b, find_map f l = Some b.
Proof.
  induction l as [|x l IH]; [done|]. simpl. intros [->|Hin] Ha.
  - destruct (f a); [eauto|done].
  - destruct (f x); [eauto|by apply IH].
Qed.

(** The holder check answers about the rows as they are, and changes nothing. *)
Lemma holder_run id w :
  exists s res, holder path d id w = (mk_node s (host w), res) /\ file s = file (db w) /\
    (forall o, res = Ok o -> o = find_map (holds id) (map row_of (VMS (file (db w))))).
Proof.
  unfold holder, rows, stored, mbind, agent_bind, store_op_bind.
  destruct (list_raw path d (db w)) as [s [raw|e]] eqn:E; simpl.
  - apply reading_ok in E as [Hf ->]. exists s. eexists. split; [done|]. split; [done|]. by intros o [= <-].
  - exists s. eexists. split; [done|]. split; [|done]. unfold list_raw in E.
    change s with (s, Err (A := list (string * Bytes)) e).1. rewrite <- E. apply reading_file.
Qed.

Lemma holder_refuses id w :
  held_by_a_row id (file (db w)) ->
  exists s, (exists h, holder path d id w = (mk_node s (host w), Ok (Some h))) \/
            (exists e, holder path d id w = (mk_node s (host w), Err e)).
Proof.
  rewrite held_iff_holds. intros (raw & Hin & Hh). destruct (holder_run id w) as (s & res & E & _ & Ho). exists s.
  destruct res as [o|e]; [left|right; eauto]. rewrite E, (Ho o eq_refl).
  destruct (find_map_total (holds id) (map row_of (VMS (file (db w)))) (row_of raw)) as [b ->]; eauto.
  by apply in_map.
Qed.

Lemma holder_keeps id w : file (db (holder path d id w).1) = file (db w).
Proof. by destruct (holder_run id w) as (s & res & -> & Hf & _). Qed.

(** C28. A held volume survives.  While any VM's row on the node lists a volume as
    attached or as made but not attached, or any VM's row cannot be read at all,
    deleting or forgetting the volume is refused, with an error, and changes
    neither the machine nor the store's tables, whatever the disk does. *)
Theorem held_volume_survives id now w w' res :
  held_by_a_row id (file (db w)) ->
  (deprovision_volume path d D now id w = (w', res) \/ forget_volume path d D id w = (w', res)) ->
  (exists e, res = Err e) /\ host w' = host w /\ file (db w') = file (db w).
Proof.
  intros Hh Hrun. pose proof (holder_keeps id w) as Hf.
  destruct (holder_refuses id w Hh) as [s [[h E]|[e E]]]; rewrite E in Hf; simpl in Hf;
    destruct Hrun as [Hrun|Hrun]; unfold deprovision_volume, forget_volume, mbind, agent_bind in Hrun;
    rewrite E in Hrun; injection Hrun as <- <-; eauto.
Qed.

Lemma volume_row_run id w s x :
  get_volume path d id (db w) = (s, x) -> stored (get_volume path d id) w = (mk_node s (host w), map_err StorageErr.text x).
Proof. unfold stored. by intros ->. Qed.

Lemma tombstone_host now id s w w' res : tombstone path d now id s w = (w', res) -> host w' = host w.
Proof. unfold tombstone, write, stored. destruct (put_volume _ _ _ _ _). by intros [= <- _]. Qed.

(** Gone is said only of what is gone.  If deleting a volume with a readable,
    not yet deleted record answers success, then what deprovisioning it through its
    driver brings about has been brought about, by the handle the record keeps or,
    when it keeps none, the one the backend was found to hold; or the record kept
    none and the backend, asked, held nothing.  The record is then a tombstone. *)
Theorem gone_means_released `{!CodecLaws Bytes VolumeRecord.t} (P : H -> Prop) now id w w' w0 s0 r vd :
  deprovision_volume path d D now id w = (w', Ok tt) ->
  holder path d id w = (w0, Ok None) -> get_volume path d id (db w0) = (s0, Ok (Some r)) ->
  VolumeRecord.phase r <> VolumeRecordPhase.Gone ->
  sget (spec_driver (VolumeRecord.spec r)) (storage D) = Some vd ->
  (forall handle h h', (VolumeRecord.handle r = Some handle \/ VolumeRecord.handle r = None) ->
     deprovision vd handle h = (h', Ok tt) -> P h') ->
  (forall h h', VolumeRecord.handle r = None -> probe vd id (VolumeRecord.spec r) h = (h', Ok None) -> P h') ->
  P (host w') /\
  forall s x, get_volume path d id (db w') = (s, Ok x) ->
    x = Some (tombstone_record now (Some (VolumeRecord.spec r))).
Proof.
  intros Hrun Hhold Hget Hphase Hvd Hdep Hprobe. unfold deprovision_volume in Hrun.
  erewrite agent_bind_run in Hrun by exact Hhold. cbn beta iota in Hrun.
  erewrite agent_bind_run in Hrun by (unfold stored; by rewrite Hget). cbn beta iota in Hrun.
  rewrite bool_decide_eq_false_2 in Hrun by done. cbv zeta in Hrun. unfold volume_driver in Hrun.
  rewrite Hvd in Hrun. erewrite agent_bind_run in Hrun by done. cbn beta in Hrun.
  apply agent_bind_ok in Hrun as (w1 & oh & E1 & Hrun).
  assert (Htomb : exists w2, P (host w2) /\ tombstone path d now id (Some (VolumeRecord.spec r)) w2 = (w', Ok tt)).
  { destruct (VolumeRecord.handle r) as [handle|] eqn:Eh.
    - injection E1 as <- <-. apply agent_bind_ok in Hrun as (w2 & [] & E2 & Hrun). unfold driven in E2. simpl in E2.
      destruct (deprovision vd handle _) as [h [[]|e]] eqn:Ed; injection E2 as <-; [|done].
      eexists. split; [|exact Hrun]. simpl. by eapply Hdep; [left|].
    - unfold driven in E1. simpl in E1. destruct (probe vd id _ _) as [h [o|e]] eqn:Ep; [|done].
      injection E1 as <- <-. destruct o as [handle|].
      + apply agent_bind_ok in Hrun as (w2 & [] & E2 & Hrun). unfold driven in E2. simpl in E2.
        destruct (deprovision vd handle _) as [h2 [[]|e]] eqn:Ed; injection E2 as <-; [|done].
        eexists. split; [|exact Hrun]. simpl. by eapply Hdep; [right|].
      + eexists. split; [|exact Hrun]. simpl. by eapply Hprobe. }
  destruct Htomb as (w2 & HP & Ht). pose proof (tombstone_host _ _ _ _ _ _ Ht) as Hh. rewrite Hh.
  split; [done|]. intros s x Hx. unfold tombstone, write, stored in Ht.
  destruct (put_volume path d id _ (db w2)) as [s2 [[]|e]] eqn:Ep; [|done]. injection Ht as <-.
  apply attempt_ok in Ep as (t & _ & Ep). unfold get_volume, get_row in Hx.
  apply reading_ok in Hx as [_ ->]. revert Ep.
  destruct (to_vec _) as [b|] eqn:Eb; [|done]. simpl. intros [= <-]. simpl. unfold sget, sinsert.
  rewrite bt_get_insert_eq by apply _. by rewrite (from_to _ _ Eb).
Qed.
End deletion.

(** * Retries *)

Section retries.
Context {H Bytes : Type} `{!Codec Bytes VmRecord.t, !Codec Bytes VolumeRecord.t,
  !Codec Bytes SnapshotRecord.t, !UuidParse, !CodecLaws Bytes VolumeRecord.t}.
Context (path : string) (d : disk) (D : Drivers H).
Implicit Types (w : node H Bytes).

(** The row of a volume, as a read decodes it. *)
Definition volume_row (id : VolumeId) (t : tables Bytes) : option VolumeRecord.t :=
  match sget (Uuid.to_string id) (VOLUMES t) with
  | Some bytes => result_ok (from_slice bytes)
  | None => None
  end.

Lemma get_volume_ok id s s' x :
  get_volume path d id s = (s', Ok x) -> file s' = file s /\ x = volume_row id (file s).
Proof. apply reading_ok. Qed.

Lemma write_row id r w w' : write path d id r w = (w', Ok tt) ->
  host w' = host w /\ volume_row id (file (db w')) = Some r.
Proof.
  unfold write, stored. destruct (put_volume path d id r (db w)) as [s [[]|e]] eqn:E; [|done].
  intros [= <-]. split; [done|]. apply attempt_ok in E as (t & _ & E). revert E. simpl.
  destruct (to_vec r) as [b|] eqn:Eb; [|done]. intros [= <-]. unfold volume_row, sget, sinsert. simpl.
  rewrite bt_get_insert_eq by apply _. by rewrite (from_to _ _ Eb).
Qed.

(** A row under which nothing needs to be made any more. *)
Definition committed (id : VolumeId) (h : VolumeHandle.t) (t : tables Bytes) : Prop :=
  exists r, volume_row id t = Some r /\ VolumeRecord.handle r = Some h.

Lemma provision_commits id s w w' :
  provision_volume path d D id s w = (w', Ok tt) ->
  exists h r, volume_row id (file (db w')) = Some r /\ VolumeRecord.handle r = Some h /\
              VolumeRecord.phase r = VolumeRecordPhase.Ready.
Proof.
  unfold provision_volume. intros Hrun. apply agent_bind_ok in Hrun as (w1 & x & E1 & Hrun).
  assert (Hmake : (driver ← volume_driver D (spec_driver s);
                   _ ← write path d id (intended s);
                   answer ← answered (provision driver id s);
                   made path d "provisioning volume" id s answer) w1 = (w', Ok tt) ->
    exists h r, volume_row id (file (db w')) = Some r /\ VolumeRecord.handle r = Some h /\
                VolumeRecord.phase r = VolumeRecordPhase.Ready).
  { intros Hm. apply agent_bind_ok in Hm as (w2 & vd & _ & Hm). apply agent_bind_ok in Hm as (w3 & [] & _ & Hm).
    apply agent_bind_ok in Hm as (w4 & answer & _ & Hm). unfold made in Hm. destruct answer as [h|e].
    - apply write_row in Hm as [_ Hm]. eauto.
    - cbv zeta in Hm. by apply agent_bind_ok in Hm as (w5 & [] & _ & Hm). }
  unfold stored in E1. destruct (get_volume path d id (db w)) as [s1 [x'|e]] eqn:Eg; [|done].
  apply get_volume_ok in Eg as [Hf Hx]. simpl in E1. injection E1 as <- <-.
  destruct x' as [[spec [handle|] phase reason message gone_at]|]; [|by apply Hmake..].
  destruct (bool_decide_reflect (phase = VolumeRecordPhase.Ready)) as [->|_].
  - injection Hrun as <-. simpl. rewrite Hf, <- Hx. eauto.
  - apply write_row in Hrun as [_ Hrun]. eauto.
Qed.

(** Provisioning is idempotent.  A volume whose provisioning answered success
    has a handle on record and reads as ready; from then on, as long as its row
    is not changed by others, provisioning it again, from a specification or from a
    snapshot and with whatever parameters, asks no driver for anything, and the
    handle stays the one on record, whatever the disk does. *)
Theorem provision_idempotent id s w w1 :
  provision_volume path d D id s w = (w1, Ok tt) ->
  exists h, committed id h (file (db w1)) /\
    forall w2 s' snap w3 res, volume_row id (file (db w2)) = volume_row id (file (db w1)) ->
      (provision_volume path d D id s' w2 = (w3, res) \/
       provision_from_snapshot path d D id snap s' w2 = (w3, res)) ->
      host w3 = host w2 /\ (res = Ok tt -> committed id h (file (db w3))).
Proof.
  intros (h & r & Hrow & Hh & Hp)%provision_commits. exists h. split; [by exists r|].
  intros w2 s' snap w3 res Hsame Hrun.
  assert (Hget : forall (k : option VolumeRecord.t -> agent_m H Bytes unit),
    (forall s2, file s2 = file (db w2) -> k (Some r) (mk_node s2 (host w2)) = (mk_node s2 (host w2), Ok tt)) ->
    (stored (get_volume path d id) ≫= k) w2 = (w3, res) ->
    host w3 = host w2 /\ (res = Ok tt -> committed id h (file (db w3)))).
  { intros k Hk. unfold mbind, agent_bind, stored.
    destruct (get_volume path d id (db w2)) as [s2 [x|e]] eqn:Eg; simpl; [|by intros [= <- <-]].
    apply get_volume_ok in Eg as [Hf ->]. rewrite Hsame, Hrow, (Hk s2 Hf). intros [= <- <-].
    split; [done|]. intros _. exists r. simpl. split; [|done]. by rewrite Hf, Hsame. }
  destruct r as [spec handle phase reason message gone_at]. simpl in Hh, Hp. subst handle phase.
  destruct Hrun as [Hrun|Hrun]; eapply Hget; try exact Hrun; by intros s2 _.
Qed.

(** Deleting a volume whose record cannot be read buries it.  The holder check
    refuses to delete past an unreadable row of a VM, but the volume's own row is
    read as if it were absent: the deletion answers success, asks no backend
    anything, and overwrites the row with a tombstone that says the volume is gone,
    while its bytes are where they were. *)
Theorem unreadable_volume_buried now id w bytes e :
  (forall n, fault d n = None) -> (forall r : VolumeRecord.t, exists b : Bytes, to_vec r = Ok b) ->
  opened (db w) = true ->
  sget (Uuid.to_string id) (VOLUMES (file (db w))) = Some bytes ->
  from_slice (A := VolumeRecord.t) bytes = Err e ->
  ~ held_by_a_row id (file (db w)) ->
  exists w', deprovision_volume path d D now id w = (w', Ok tt) /\ host w' = host w /\
             volume_row id (file (db w')) = Some (tombstone_record now None).
Proof.
  intros Hq He Ho Hb Hbad Hfree. unfold deprovision_volume.
  assert (Hnone : find_map (holds id) (map row_of (VMS (file (db w)))) = None).
  { destruct (find_map _ _) as [hd|] eqn:E; [|done]. destruct Hfree. apply held_iff_holds.
    apply find_map_some in E as (l1 & row & l2 & Heq & Hrow & _).
    assert (Hin : In row (map row_of (VMS (file (db w))))) by (rewrite Heq; apply in_elt).
    apply in_map_iff in Hin as (raw & <- & Hin). exists raw. by rewrite Hrow. }
  assert (Hhold : exists s, holder path d id w = (mk_node s (host w), Ok None) /\
                            opened s = true /\ file s = file (db w)).
  { destruct (reading_quiet path d VMS (db w) Hq Ho) as (s & E & Ho' & Hf).
    exists s. unfold holder, rows, list_raw, stored, mbind, agent_bind, store_op_bind. rewrite E. simpl.
    by rewrite Hnone. }
  destruct Hhold as (s1 & E1 & Ho1 & Hf1). rewrite (agent_bind_run _ _ _ _ _ E1).
  destruct (reading_quiet path d (fun t => match sget (Uuid.to_string id) (VOLUMES t) with
      | Some bytes => result_ok (from_slice bytes : result string VolumeRecord.t) | None => None end)
      s1 Hq Ho1) as (s2 & E2 & Ho2 & Hf2).
  rewrite Hf1, Hb, Hbad in E2. erewrite agent_bind_run by (unfold stored, get_volume, get_row; simpl; by rewrite E2).
  simpl. destruct (He (tombstone_record now None)) as [b Hto].
  assert (Hw : exists w', tombstone path d now id None (mk_node s2 (host w)) = (w', Ok tt)).
  { unfold tombstone, write, stored, put_volume, put_row, writing, attempt, once. simpl.
    rewrite Ho2, Hq, Hto. simpl. eauto. }
  destruct Hw as [w' Hw]. exists w'. split; [done|]. by apply write_row in Hw as [Hh Hrow].
Qed.
End retries.

(** * Tombstones *)

Section tombstones.
Context {H Bytes : Type} `{!Codec Bytes VmRecord.t, !Codec Bytes VolumeRecord.t, !UuidParse}.
Context (path : string) (d : disk).

(** The rows are under the keys the store writes. *)
Definition canonical (t : tables Bytes) : Prop :=
  forall k b u, In (k, b) (VOLUMES t) -> uuid_of k = Some u -> k = Uuid.to_string u.

(** The row under [k] holds [b]. *)
Definition volume_kept (k : string) (b : Bytes) (t : tables Bytes) : Prop :=
  sget k (VOLUMES t) = Some b.

Lemma delete_volume_keeps k b id :
  k <> Uuid.to_string id -> op_keeps (volume_kept k b) (delete_volume path d id).
Proof.
  intros Hne. apply op_keeps_attempt. intros t t' v [= <- _] Ht.
  unfold volume_kept, sget, sremove in *. simpl. by rewrite bt_get_remove_ne by (apply _ || done).
Qed.

Lemma report_keeps (I : H -> Prop) k b now open l :
  (forall id r, In (id, r) l -> expired now (VolumeRecord.gone_at r) = true -> k <> Uuid.to_string id) ->
  keeps I (volume_kept k b) (report_volumes path d now open l).
Proof.
  induction l as [|[id r] l IH]; intros Hl; simpl; [apply keeps_ret|].
  assert (IH' : keeps I (volume_kept k b) (report_volumes path d now open l)).
  { apply IH. intros id' r' Hin. apply (Hl id' r'). by right. }
  destruct (expired now _) eqn:E; apply keeps_bind; try done; intros; try done; [|apply keeps_ret].
  apply keeps_caught, keeps_stored, delete_volume_keeps. apply (Hl id r); [by left|done].
Qed.

(** A report sweeps only old tombstones.  Reporting the volumes removes the row
    of no volume whose record is readable and not a tombstone of more than an hour
    ago, nor of one whose record cannot be read; it changes nothing on the machine's
    backends. *)
Theorem report_sweeps_only_expired now (w : node H Bytes) k b :
  canonical (file (db w)) -> bt_sorted String.compare (VOLUMES (file (db w))) ->
  volume_kept k b (file (db w)) ->
  (forall r, from_slice b = Ok r -> expired now (VolumeRecord.gone_at r) = false) ->
  volume_kept k b (file (db (report_volume_states path d now w).1)) /\
  host (report_volume_states path d now w).1 = host w.
Proof.
  intros Hcan Hsort Hk Hlive.
  assert (Hl : forall id r, In (id, r) (filter_map decoded (VOLUMES (file (db w)))) ->
    expired now (VolumeRecord.gone_at r) = true -> k <> Uuid.to_string id).
  { intros id r ([k' b'] & Hin & Hdec)%in_filter_map Hexp ->. unfold decoded in Hdec. simpl in Hdec.
    destruct (uuid_of k') as [u|] eqn:Eu; [|done]. destruct (from_slice b') as [r'|] eqn:Er; [|done].
    injection Hdec as <- <-. pose proof (Hcan _ _ _ Hin Eu) as ->.
    apply (bt_in_get String.compare) in Hin; [|done]. unfold volume_kept, sget in Hk. rewrite Hin in Hk.
    injection Hk as <-. rewrite (Hlive _ Er) in Hexp. done. }
  set (records := filter_map decoded (VOLUMES (file (db w)))) in Hl.
  assert (K : keeps (fun h => h = host w) (volume_kept k b)
    (open ← caught (open_here path d);
     report_volumes path d now (match open with Ok l => l | Err _ => [] end) records)).
  { apply keeps_bind; [|intros; by apply report_keeps].
    apply keeps_caught. unfold open_here. keeps_steps. }
  unfold report_volume_states. pose proof (reading_file path d
    (fun t => filter_map decoded (VOLUMES t) : list (VolumeId * VolumeRecord.t)) (db w)) as Hf.
  destruct (reading path d (fun t => filter_map decoded (VOLUMES t) : list (VolumeId * VolumeRecord.t))
              (db w)) as [s [x|e]] eqn:E; simpl in Hf.
  - erewrite agent_bind_run by (unfold caught, stored, list_volumes, list_rows; by rewrite E).
    apply reading_ok in E as [_ ->]. simpl. destruct (K (mk_node s (host w))) as [K1 K2]; [|done].
    split; [done|]. simpl. unfold volume_kept in *. by rewrite Hf.
  - erewrite agent_bind_run by (unfold caught, stored, list_volumes, list_rows; by rewrite E).
    simpl. unfold volume_kept in *. by rewrite Hf.
Qed.
End tombstones.

(** * The theorems on the machine in memory *)

Lemma held_volume_survives_witness :
  In 2%N (disks (host (deprovision_volume "db" quiet_disk (sim_drivers []) 0 2 sim_running).1)).
Proof.
  destruct (deprovision_volume "db" quiet_disk (sim_drivers []) 0 2 sim_running) as [w' res] eqn:E.
  destruct (held_volume_survives "db" quiet_disk (sim_drivers []) 2 0 sim_running w' res) as (_ & Hh & _).
  - eexists. split; [by left|]. simpl. auto.
  - by left.
  - simpl. rewrite Hh. simpl. auto.
Defined.

(** The independent volume [2] on a node with no VM. *)
Lemma gone_means_released_witness :
  ~ In 2%N (disks (host (deprovision_volume "db" quiet_disk (sim_drivers []) 0 2 (sim_world [2%N])).1)).
Proof.
  destruct (deprovision_volume "db" quiet_disk (sim_drivers []) 0 2 (sim_world [2%N])) as [w' res] eqn:E.
  destruct (holder "db" quiet_disk 2 (sim_world [2%N])) as [w0 a] eqn:Eh.
  destruct (get_volume "db" quiet_disk 2 (db w0)) as [s0 x] eqn:Eg.
  refine (proj1 (gone_means_released "db" quiet_disk (sim_drivers []) (fun m => ~ In 2%N (disks m)) 0 2
    (sim_world [2%N]) w' w0 s0 sim_volume_record (sim_volumes []) _ _ _ _ _ _ _)).
  - rewrite E. f_equal. vm_compute in E. by injection E as _ <-.
  - rewrite Eh. f_equal. vm_compute in Eh. by injection Eh as _ <-.
  - rewrite Eg. f_equal. vm_compute in Eh. injection Eh as <- _. vm_compute in Eg. by injection Eg as _ <-.
  - done.
  - done.
  - intros handle h h' [[= <-]|[=]] Hd. simpl in Hd. unfold doing in Hd. simpl in Hd. injection Hd as <-.
    simpl. intros [_ Hin]%filter_In. done.
  - done.
Defined.

Lemma provision_idempotent_witness :
  let w1 := (provision_volume "db" quiet_disk (sim_drivers []) 3 (VolumeSpec.mk None 5 None None)
               (sim_world [])).1 in
  host (provision_volume "db" quiet_disk (sim_drivers []) 3 (VolumeSpec.mk None 9 None None) w1).1 = host w1.
Proof.
  intros w1.
  destruct (provision_idempotent "db" quiet_disk (sim_drivers []) 3 (VolumeSpec.mk None 5 None None)
    (sim_world []) w1) as (h & _ & Hall).
  { unfold w1. vm_compute. reflexivity. }
  destruct (provision_volume "db" quiet_disk (sim_drivers []) 3 (VolumeSpec.mk None 9 None None) w1)
    as [w3 res] eqn:E.
  by destruct (Hall w1 (VolumeSpec.mk None 9 None None) 0%N w3 res eq_refl (or_introl E)).
Defined.

(** A volume row whose bytes no decoder reads. *)
Definition sim_corrupt : node machine mem_bytes :=
  mk_node (mk_store (mk_tables [] [] [(Uuid.to_string 2, Garbage)] []) true [] 0 None 0)
    (mk_machine [2%N] [] [] [] []).

Lemma unreadable_volume_buried_witness :
  exists w', deprovision_volume "db" quiet_disk (sim_drivers []) 5 2 sim_corrupt = (w', Ok tt) /\
             disks (host w') = [2%N] /\
             volume_row 2 (file (db w')) = Some (tombstone_record 5 None).
Proof.
  destruct (unreadable_volume_buried "db" quiet_disk (sim_drivers []) 5 2 sim_corrupt Garbage
    "expected a volume record") as (w' & E & Hh & Hrow); [done| |done|done|done| |].
  - intros r. by exists (VolumeBytes r).
  - intros (raw & [] & _).
  - exists w'. rewrite Hh. done.
Defined.

(** An hour after it was reported gone, a tombstone is swept; the volume [2] stays. *)
Lemma report_sweeps_only_expired_witness :
  volume_kept (Uuid.to_string 2) (VolumeBytes sim_volume_record)
    (file (db (report_volume_states "db" quiet_disk 9000000000000 (sim_world [])).1)).
Proof.
  apply (report_sweeps_only_expired "db" quiet_disk 9000000000000 (sim_world [])
           (Uuid.to_string 2) (VolumeBytes sim_volume_record)).
  - intros k b u [[= <- <-]|[]] Hu. revert Hu. vm_compute. by intros [= <-].
  - repeat constructor.
  - reflexivity.
  - by intros r [= <-].
Defined.
