(* ===== verification/AgentSync.v ===== *)
(** Changing the disks of an existing VM in place ([sync_volumes],
    [src/components/agent/src/provision/volumes.rs]): what a refusal leaves alone, and
    two ways the path cannot finish. *)
From Stdlib Require Import Ascii String NArith ZArith List Bool Lia.
From stdpp Require Import base list strings.
From S2P Require Import Prelude RustStr Json AgentTypes AgentStore AgentHost AgentDisks AgentProvision AgentSim AgentSteps.

Section sync.
Context {H Bytes : Type} `{!Codec Bytes VmRecord.t, !Codec Bytes VolumeRecord.t, !UuidParse,
  !CodecLaws Bytes VmRecord.t}.
Context (path : string) (d : disk) (D : Drivers H).

Lemma chain_run {A B} (m : chain_m H Bytes A) (k : A -> chain_m H Bytes B) rw rw' a :
  m rw = (rw', Ok a) -> (m ≫= k) rw = k a rw'.
Proof. unfold mbind, chain_bind. by intros ->. Qed.

Lemma chain_err {A B} (m : chain_m H Bytes A) (k : A -> chain_m H Bytes B) rw rw' e :
  m rw = (rw', Err e) -> (m ≫= k) rw = (rw', Err e).
Proof. unfold mbind, chain_bind. by intros ->. Qed.

Lemma node_step {A} (m : agent_m H Bytes A) r w w' a : m w = (w', a) -> on_node m (r, w) = ((r, w'), a).
Proof. unfold on_node. simpl. by intros ->. Qed.

(** A referenced volume attaches through its own driver and is detached through
    the default one.  A document's reference names no driver; plugging it in asks the
    driver the volume's row names, but unplugging it again asks [filesystem].
    On a node that serves the volume's driver and has no [filesystem] driver, the
    reference is attached, and every document that drops it is refused. *)
Theorem reference_detach_asks_default id v (r : VmRecord.t) (w : node H Bytes) row handle n vd h att :
  VolumeSpec.driver (VolumeWithId.spec v) = None -> VolumeSpec.params (VolumeWithId.spec v) = None ->
  sget default_volume_driver (storage D) = None ->
  (get_volume path d (VolumeWithId.id v) (db w)).2 = Ok (Some row) ->
  VolumeRecord.handle row = Some handle -> VolumeHandle.id handle = VolumeWithId.id v ->
  VolumeSpec.driver (VolumeRecord.spec row) = Some n -> sget n (storage D) = Some vd ->
  attach vd handle (host w) = (h, Ok att) ->
  exists r' w', attach_one path d D id None v (r, w) = ((r', w'), Ok tt) /\
    In (Volume.attached handle att) (VmRecord.volumes r') /\
    forall plug (w2 : node H Bytes), exists w3,
      detach_one D id plug v (r', w2)
      = ((r', w3), Err ("vm spec requests volume driver " +:+ debug default_volume_driver +:+
                        " which is not configured on this node")).
Proof.
  intros Hdrv Hpar Hdef Hget Hhandle Hid Hn Hvd Hatt.
  destruct (get_volume path d (VolumeWithId.id v) (db w)) as [s x] eqn:Eg. simpl in Hget. subst x.
  assert (Eref : reference path d (VolumeWithId.id v) None w = (mk_node s (host w), Ok (n, handle))).
  { unfold reference. erewrite agent_bind_run by (unfold stored; by rewrite Eg). simpl.
    erewrite agent_bind_run by done. rewrite Hhandle. erewrite agent_bind_run by done.
    unfold spec_driver. by rewrite Hn. }
  exists (VmRecord.set_volumes (VmRecord.volumes r ++ [Volume.attached handle att]) r), (mk_node s h).
  split; [|split].
  - unfold attach_one. rewrite Hpar. cbv zeta. rewrite (chain_run _ _ _ _ _ (node_step _ r _ _ _ Eref)).
    simpl. unfold storage_driver. rewrite Hvd.
    rewrite (chain_run _ _ _ (r, mk_node s (host w)) vd) by done.
    rewrite (chain_run _ _ _ (r, mk_node s h) att).
    2: { unfold on_node, driven. simpl. by rewrite Hatt. }
    by rewrite (chain_run _ _ _ (r, mk_node s h) tt).
  - simpl. apply in_or_app. right. by left.
  - intros plug w2. exists w2. unfold detach_one. cbv zeta.
    rewrite (chain_run _ _ _ (VmRecord.set_volumes (VmRecord.volumes r ++ [Volume.attached handle att]) r, w2)
      (VmRecord.set_volumes (VmRecord.volumes r ++ [Volume.attached handle att]) r)) by done.
    destruct (List.find _ _) as [held|] eqn:Ef.
    + unfold spec_driver, storage_driver. rewrite Hdrv. simpl. rewrite Hdef. by apply chain_err.
    + exfalso. apply (find_none _ _) with (x := Volume.attached handle att) in Ef.
      * unfold holds_volume, Volume.attached, Volume.id in Ef. simpl in Ef. by rewrite Hid, N.eqb_refl in Ef.
      * simpl. apply in_or_app. right. by left.
Qed.
End sync.

(** A node that serves [ceph] alone. *)
Definition ceph_only : Drivers machine :=
  {| confiner := sim_confiner []; hypervisor := Some (sim_hypervisor []);
     storage := [("ceph", sim_volumes [])]; networking := None; bridge := None; devices := [] |}.

Lemma reference_detach_asks_default_witness :
  exists r' w',
    attach_one "db" quiet_disk ceph_only 9 None
      (VolumeWithId.mk 2 (VolumeSpec.mk None 0 None None) true)
      (VmRecord.fresh sim_movable Desired.Running true, sim_world [2%N]) = ((r', w'), Ok tt) /\
    exists w3 e, detach_one ceph_only 9 None (VolumeWithId.mk 2 (VolumeSpec.mk None 0 None None) true)
                   (r', w') = ((r', w3), Err e).
Proof.
  destruct (reference_detach_asks_default "db" quiet_disk ceph_only 9
    (VolumeWithId.mk 2 (VolumeSpec.mk None 0 None None) true)
    (VmRecord.fresh sim_movable Desired.Running true) (sim_world [2%N]) sim_volume_record (sim_handle 2 10)
    "ceph" (sim_volumes []) (mk_machine [2%N] [] [] [] []) (VolumeAttachment.Path "/dev/sim"))
    as (r' & w' & E & _ & Hdet); try reflexivity.
  exists r', w'. split; [exact E|]. destruct (Hdet None w') as [w3 E3]. eauto.
Defined.

(** ** A change that failed halfway *)

(** The movable VM with a second referenced disk, [3], and the document that drops it. *)
Definition two_disks : AgentVmSpec.t :=
  AgentVmSpec.mk 1 256 (BootSourceSpec.Firmware "fw")
    [VolumeWithId.mk 2 (VolumeSpec.mk None 0 None None) true;
     VolumeWithId.mk 3 (VolumeSpec.mk None 0 None None) true] [] [] None [].

Definition two_volume_world : node machine mem_bytes :=
  mk_node (mk_store (mk_tables [] []
             [(Uuid.to_string 2, VolumeBytes sim_volume_record);
              (Uuid.to_string 3, VolumeBytes (VolumeRecord.mk (VolumeSpec.mk None 10 None None)
                 (Some (sim_handle 3 10)) VolumeRecordPhase.Ready None None None))] [])
             true [] 0 None 0)
    (mk_machine [2%N; 3%N] [] [] [] []).

Definition two_disk_vm : node machine mem_bytes :=
  Eval vm_compute in
  (provision_vm "db" quiet_disk (sim_drivers []) (sim_files []) sim_settings 9 two_disks
     Desired.Running true two_volume_world).1.

(** A detach that fails after the unplug cannot be retried.  When a document drops
    a disk of a running VM, the disk is unplugged, and then its backend is detached; if
    that fails, the record's progress is discarded.  On a machine whose hypervisor
    refuses to unplug a disk it does not have, the same document sent again is then
    refused although nothing is broken any more, and the row still lists the
    disk. *)
Theorem failed_detach_cannot_be_retried :
  exists w1 e1 w2 e2,
    sync_volumes "db" quiet_disk (sim_drivers ["detach"]) 9 sim_movable two_disk_vm = (w1, Err e1) /\
    sync_volumes "db" quiet_disk (sim_drivers []) 9 sim_movable w1 = (w2, Err e2) /\
    e2 = "unplugging volume " +:+ Uuid.to_string 3 +:+
         " from the guest: hypervisor backend failure: no such disk" /\
    exists r, (get "db" quiet_disk 9 (db w2)).2 = Ok (Some r) /\
              map Volume.id (VmRecord.volumes r) = [2%N; 3%N].
Proof.
  eexists _, _, _, _. split; [vm_compute; reflexivity|]. split; [vm_compute; reflexivity|].
  split; [reflexivity|]. eexists. split; [vm_compute; reflexivity|reflexivity].
Qed.
